(* ===== verification/_CoqProject ===== *)
-Q . S2P
Prelude.v
Bytes.v
Egress.v
TlsSni.v
Connect.v
PyFloat.v
Controls.v
Codec.v
Budget.v
BudgetSpec.v
AuditLog.v
AuditSpec.v
Approvals.v
Identity.v
Authority.v
AuthoritySpec.v
Json.v
Sorting.v
RetainedCapacity.v
Protocols.v
InlineProxy.v
PolicyRules.v
DurablePolicy.v
OperationLedger.v
Quotas.v
Policy.v
Gateway.v
GatewaySpec.v
GatewayRuns.v
QuotaSpec.v
Evidence.v
AuditTrust.v
AuditTrustSpec.v
AuditTrustExample.v
SigningTrust.v
SigningSpec.v
SigningExample.v
Reconciliation.v
Fencing.v
StreamLeases.v
TaskLifecycle.v
TaskSpec.v
TaskIntents.v
QueuedDestination.v
QueuedDestinationSpec.v
QueuedStore.v
IntentSpec.v
QueuedPreparation.v
QueuedAdmission.v
QueuedDispatch.v
QueuedSpec.v
QueuedExample.v
Text.v
Url.v
TrustedTargets.v
TenantKernel.v
TenantSpec.v
TenantFlow.v
TenantExample.v
PyHeap.v
TranslationEngine.v
TranslationSpec.v
StatusStream.v
StatusSpec.v
Oidc.v
TenantHttp.v
TenantHttpSpec.v
TenantHttpExample.v
ControlPlane.v
ControlPlaneSpec.v
ControlPlaneExample.v
