(* ===== verification/Prelude.v ===== *)
(** * AgentBridge: a verification of its governance core

    AgentBridge is a gateway between agents and the tools and agents they call.
    A call arrives in one of six wire protocols, is authenticated, checked
    against policy, charged to a budget, recorded in a hash-chained audit log,
    carried out at a destination, and its outcome is settled exactly once, by the
    call itself or later by reconciliation over signed evidence.  Work may also be
    queued: an authenticated intent is retained, admitted and dispatched later
    through a fenced destination.  The services in front of it are two HTTP control
    planes (one for a single tenant, one for enrolled tenants and their
    operators), a task status service and a translation engine.  This library
    translates that program from Python and proves what it promises.

    ** Conventions

    - A method is a function in [M S A := S → outcome A * S]: explicit state,
      and a value or a Python exception ([pyexn], one constructor per class that
      the code raises or catches).  A raise keeps the writes made so far;
      [atomic] (the code's [sql_atomic] and the stores' transactions) undoes
      them.  [Lens] and [zoom] run a component on its part of a larger state.
    - A process or SQL lock is the atomicity of one operation; processes that
      interleave are step relations whose steps are whole operations.
    - SQL tables are [gmap]s by primary key, or lists where row order matters;
      triggers are part of the insert they guard.  PostgreSQL code that states
      the same conditions as the SQLite code is not repeated.
    - The clock, random tokens, generated identifiers and the environment are
      arguments; an operation reads the clock once where the code does so, and
      the dispatch of a queued task takes one reading per use.
    - Strings are code points below 256.  A Python float is [float64]: NaN, an
      infinity, or an integer number of units of 2^-1074, with correctly rounded
      addition.  Integers are unbounded, as in Python.
    - SHA-256, HMAC, Ed25519, JSON text and the identity provider are type
      classes that state the laws the proofs use (correctness of a signature,
      injectivity of a digest, that [loads] undoes [dumps]).  Every law is
      instantiated by a concrete codec, and the witnesses run on them.
    - Where the code mutates objects its caller holds (the translation engine),
      dictionaries and lists live in a heap ([PyHeap]) and are passed by reference.

    ** Files and sources (under src/src/)

    Foundations: [Prelude] (exceptions, the monad, dictionaries, automation),
    [Bytes], [PyFloat], [Json], [Sorting] ([sorted], [ORDER BY], [sort_keys]),
    [Codec] (injective texts), [Text] (splitting, decimal numerals), [Url]
    ([urllib.parse]), [PyHeap] (shared dictionaries and lists).

    Proxy: [Egress] (proxy/egress_policy.py, workload_identity.py), [TlsSni]
    (tls_sni_guard.py: the ClientHello parser as the code's loop, and a
    declarative grammar), [Connect] (restricted_connect.py: request, pinning,
    tunnel), [InlineProxy] (inline_proxy.py, supported_action_boundary.py,
    transport.py).

    Governance: [Controls] (rbac.py, resilience.py, api/ratelimit.py), [Budget]
    and [BudgetSpec] (budget.py), [AuditLog] and [AuditSpec] (audit.py,
    audit_verify.py, audit_capacity.py), [Approvals] (approvals.py), [Identity]
    (identity.py, request_auth.py, durable_replay.py), [Authority] and
    [AuthoritySpec] (authority.py), [PolicyRules], [DurablePolicy], [Policy]
    (policy_rules.py, durable_policy.py, policy.py), [OperationLedger]
    (operation_ledger.py, owned_settlement.py), [Quotas] and [QuotaSpec]
    (admission_quotas.py), [Gateway], [GatewaySpec], [GatewayRuns] (gateway.py),
    [Evidence] (destination_receipts.py, readback_attestations.py,
    operator_review.py), [Reconciliation] (reconciliation.py), [Fencing]
    (pg_fencing.py and the two fenced destinations), [StreamLeases]
    (durable_stream_leases.py), [RetainedCapacity] (the three *_capacity.py
    journals' limits), [AuditTrust], [AuditTrustSpec], [AuditTrustExample]
    (audit_trust.py, external_anchor.py, witness_journal.py), [SigningTrust],
    [SigningSpec], [SigningExample] (observer_key_registry.py,
    signing_trust_journal.py).

    Protocols: [Protocols] (protocols/*.py: canonical calls, the six adapters,
    the registry), [TaskLifecycle] and [TaskSpec] (task_lifecycle.py,
    durable_task_lifecycle.py).

    Queued work: [TaskIntents] and [IntentSpec] (task_intents.py), [QueuedStore]
    (task_admission.py's tables, task_execution_store.py), [QueuedPreparation]
    (queued_intent_preparation.py, trusted_targets.py), [QueuedAdmission]
    (gateway.py and task_admission.py), [QueuedDestination] and
    [QueuedDestinationSpec] (queued_destination_contract.py and the queued side
    of fenced_sqlite_destination.py), [QueuedDispatch] (queued_task_dispatch.py,
    queued_sqlite_adapter.py), [QueuedSpec] (the system of tenant and
    destination as a step relation), [QueuedExample] (one task from acceptance
    to settlement, by evaluation).

    Tenants: [TenantKernel] (tenant_kernel.py, tenant_store.py: the kernel's
    configuration, store registration, and sessions with every operation a
    tenant's operator or agent has), [TenantSpec] (what a session can do),
    [TenantFlow] (from an accepted submission to its preparation),
    [TenantExample] (runs).

    Services: [TrustedTargets] (api/trusted_targets.py), [Oidc]
    (api/auth_oidc.py), [ControlPlane], [ControlPlaneSpec],
    [ControlPlaneExample] (api/control_plane.py), [TenantHttp],
    [TenantHttpSpec], [TenantHttpExample] (api/tenant_control_plane.py),
    [StatusStream] and [StatusSpec] (serve/a2a_status.py),
    [TranslationEngine] and [TranslationSpec] (engine/translation_engine.py).

    ** What the theorems show

    - Gateway and settlement: in every run of interleaved workers and operators an
      operation is admitted once, an unknown outcome keeps its reserved exposure
      until it is settled or the operator replaces the agent's budget (which
      discards it, and is shown to), and a recorded outcome never changes;
      settlement of a reservation that was not discarded succeeds; [route_call]
      answers according to what was recorded; a refused admission leaves no
      reservation.  The runs of [GatewayRuns] contain every run of [route_call];
      their admissions draw reservation tokens never drawn before ([uuid4]).
    - Money: spent plus reserved stays within the cap for every interleaving, in
      float arithmetic; the manager's mutators refine an abstract account on
      amounts that binary64 adds exactly; quotas bound
      what is admitted.
    - Authority: a revoked principal is never current again; an authorization
      lies within current scopes; tenants are isolated; the policy engine allows
      exactly what rules, approvals and budgets allow; approvals are one-shot.
    - Audit: every reachable chain verifies; a signed checkpoint pins the history
      before it; saved checkpoints agree with the chain for good; a witness
      journal accepts only histories that keep all it has witnessed.
    - Evidence and keys: a production settlement needs a destination receipt, an
      independent readback and a review, all signed; a revoked signing key never
      settles again, even over a restored database; a publication is what the
      next settlement reads.
    - Tasks: the durable history is legal, bounded and append-only, and a live
      task can always reach a terminal state in the room reserved for it.
    - Queued work: an effect happens only for a committed attempt and at most
      once, a closed task never acts, a recorded result is the destination's
      effect, what is observed is what was committed, and an accepted intent
      loads back as accepted.  Dispatch as coded refines the system's steps.
    - Fenced destinations: leases take increasing epochs, an effect is written by
      the latest lease holder only, once, and is never changed afterwards.
    - Proxy: a tunnel opens only to an allow-listed name resolved to global
      addresses, for a caller with the configured token and pinned workload key,
      and forwards only after a first record that names the same host; a client
      turned away gets a 403; the ClientHello parser accepts exactly the declarative grammar and always
      terminates.
    - Protocols: translating a call between two adapters preserves the action.
    - Tenants: whatever a session is asked, other tenants' stores stay as they
      are, and it changes anything only for a current principal of that tenant
      whose role has the permission; a configuration the kernel accepts separates
      the tenants' stores; a submission that was accepted can be prepared for
      admission; an approval, however, survives the refusal of its audit record.
    - Control planes: what any request can do to the state, for both planes, by
      cases on who authenticated; a change that is answered as made is the one
      that the endpoint and the body name, is in force, and is on the audit chain
      (tenant plane); a routed call went to the operator's target at the
      operator's scheduled cost (outside production, at the validated cost that
      the agent asked for) and was admitted, carried out and settled by the
      gateway; a client's attempts within a window are bounded; an OIDC signing
      key is used only while it is in the set the issuer last served, by the
      network's answers.
    - Status service: stream slots are counted exactly, a stream sends exactly
      the task's events after its cursor, and only to the owner.
    - Translation engine: it always answers; a JSON-RPC message becomes a
      well-formed task; a tool call survives the round trip; and it rewrites the
      status of the caller's own message.

    ** Bounds and fuel

    Recursion is structural, or over the fuel the code itself bounds: retries
    after the configured attempts, a watch after its turn count, a stream after
    the rounds of its deadline.  The ClientHello parser's loop over extensions
    runs on 4096 rounds of fuel, enough because the code reads at most 16384
    bytes and a round consumes at least four: [sni_parser_total] proves that the
    fuel never runs out.  Nothing is concluded from running out of fuel.

    ** Not modelled

    Routing, the HTTP servers and clients (serve/mcp_gateway.py, agent_client.py,
    tenant_agent_client.py), configuration checks, logging, metrics, the command
    line, the demos and the drill tools are I/O around the modelled operations.
    Schema creation, schema and tenant migration, catalogue checks of installed
    triggers, connection and file handling are database work without a model
    here.  PostgreSQL variants are modelled where they differ.  Reconciliation is
    modelled for a deployment without a signing journal; manual settlement of
    queued work appears as the verdict of an operator's session. *)

From stdpp Require Import base list gmap strings.
From Stdlib Require Import ZArith Lia.

(** ** Python outcomes: a value or a raised exception *)

(** The exception classes the modelled code raises or catches, each with its
    message.  [is_value_error] and its siblings give the subclass tests that
    [except] clauses perform. *)
Inductive pyexn :=
| ValueError (msg : string)
| TypeError (msg : string)
| KeyError (msg : string)
| RuntimeError (msg : string)
| PermissionError (msg : string)
| TimeoutError (msg : string)
| CancelledError
| OverflowError (msg : string)
| AttributeError (msg : string)
| ConfigError (msg : string)
| IntegrityError (msg : string)
| AdmissionRejected (msg : string) (needs_approval : bool)
| GovernanceError (msg : string) (approval_id : option string)
| OperationConflict (msg : string)
| QuotaDenied (msg : string)
| AuthorityDenied (msg : string)
| ReconciliationError (msg : string)
| LifecycleRejected (msg : string)
| LifecycleCapacity (msg : string)
| StreamCapacity (msg : string)
| FenceDenied (msg : string)
| StaleDestinationLeader (msg : string)
| DuplicateDestinationAction (msg : string)
| SqliteFenceDenied (msg : string)
| SqliteDuplicateEffect (msg : string)
| UntrustedReceipt (msg : string)
| UntrustedReadback (msg : string)
| UntrustedReviewer (msg : string)
| MalformedWireError (msg : string)
| UnicodeError (msg : string)
| AssertionError (msg : string)
| OSError (msg : string)
| OperationalError (msg : string)
| AccessDenied (msg : string)
| IncompleteReadError
| LimitOverrunError
| EgressDenied (msg : string)
| WorkloadDenied (msg : string)
| InvalidClientHello (msg : string)
| AuditTrustError (msg : string)
| TaskIntentConflict (msg : string)
| TaskIntentCapacity (msg : string)
| ObservationUnavailable (msg : string)
| TrustJournalDenied (msg : string)
| ObserverKeyDenied (msg : string)
| AnchorVerificationError (msg : string)
| SigningJournalCapacityDenied (msg : string)
| CheckpointCapacityDenied (msg : string)
| EvidenceCapacityDenied (msg : string)
| IndexError (msg : string)
| OidcError (msg : string)
| HTTPException (status : Z) (detail : string)
| SecurityConfigurationError (msg : string).

#[global] Instance pyexn_eq_dec : EqDecision pyexn.
Proof. solve_decision. Defined.

(** [issubclass(type(e), ValueError)]: [QuotaDenied], [ReconciliationError],
    [LifecycleRejected] (and its subclass [LifecycleCapacity]),
    [StreamCapacity], [MalformedWireError], [UnicodeError], [AuditTrustError],
    [TaskIntentCapacity], [TrustJournalDenied], [ObserverKeyDenied],
    [AnchorVerificationError], [SigningJournalCapacityDenied],
    [SecurityConfigurationError], the egress proxy's errors and the untrusted-evidence
    errors derive from [ValueError]. *)
Definition is_value_error (e : pyexn) : bool :=
  match e with
  | ValueError _ | QuotaDenied _ | ReconciliationError _ | LifecycleRejected _
  | LifecycleCapacity _ | StreamCapacity _ | MalformedWireError _
  | UntrustedReceipt _ | UntrustedReadback _ | UntrustedReviewer _
  | UnicodeError _ | EgressDenied _ | WorkloadDenied _ | InvalidClientHello _
  | AuditTrustError _ | TaskIntentCapacity _ | TrustJournalDenied _
  | ObserverKeyDenied _ | AnchorVerificationError _ | SigningJournalCapacityDenied _ | SecurityConfigurationError _ => true
  | _ => false
  end.

(** [str(exc)] and [type(exc).__name__]. *)
Definition exn_message (e : pyexn) : string :=
  match e with
  | ValueError m | TypeError m | KeyError m | RuntimeError m | PermissionError m | TimeoutError m
  | OverflowError m | AttributeError m | ConfigError m | IntegrityError m | AdmissionRejected m _
  | GovernanceError m _ | OperationConflict m | QuotaDenied m | AuthorityDenied m
  | ReconciliationError m | LifecycleRejected m | LifecycleCapacity m | StreamCapacity m
  | FenceDenied m | StaleDestinationLeader m | DuplicateDestinationAction m | SqliteFenceDenied m
  | SqliteDuplicateEffect m | UntrustedReceipt m | UntrustedReadback m | UntrustedReviewer m
  | MalformedWireError m | UnicodeError m | AssertionError m | OSError m | OperationalError m
  | AccessDenied m | EgressDenied m | WorkloadDenied m | InvalidClientHello m | AuditTrustError m
  | TaskIntentConflict m | TaskIntentCapacity m | ObservationUnavailable m | TrustJournalDenied m
  | ObserverKeyDenied m | AnchorVerificationError m | SigningJournalCapacityDenied m
  | CheckpointCapacityDenied m | EvidenceCapacityDenied m | IndexError m | OidcError m | HTTPException _ m
  | SecurityConfigurationError m => m
  | CancelledError | IncompleteReadError | LimitOverrunError => EmptyString
  end.

Definition exn_class (e : pyexn) : string :=
  match e with
  | ValueError _ => "ValueError" | TypeError _ => "TypeError" | KeyError _ => "KeyError"
  | RuntimeError _ => "RuntimeError" | PermissionError _ => "PermissionError"
  | TimeoutError _ => "TimeoutError" | CancelledError => "CancelledError"
  | OverflowError _ => "OverflowError" | AttributeError _ => "AttributeError"
  | ConfigError _ => "ConfigError" | IntegrityError _ => "IntegrityError"
  | AdmissionRejected _ _ => "_AdmissionRejected" | GovernanceError _ _ => "GovernanceError"
  | OperationConflict _ => "OperationConflict" | QuotaDenied _ => "QuotaDenied"
  | AuthorityDenied _ => "AuthorityDenied" | ReconciliationError _ => "ReconciliationError"
  | LifecycleRejected _ => "LifecycleRejected" | LifecycleCapacity _ => "LifecycleCapacity"
  | StreamCapacity _ => "StreamCapacity" | FenceDenied _ => "FenceDenied"
  | StaleDestinationLeader _ => "StaleDestinationLeader"
  | DuplicateDestinationAction _ => "DuplicateDestinationAction"
  | SqliteFenceDenied _ => "SqliteFenceDenied" | SqliteDuplicateEffect _ => "SqliteDuplicateEffect"
  | UntrustedReceipt _ => "UntrustedReceipt" | UntrustedReadback _ => "UntrustedReadback"
  | UntrustedReviewer _ => "UntrustedReviewer" | MalformedWireError _ => "MalformedWireError"
  | UnicodeError _ => "UnicodeError" | AssertionError _ => "AssertionError" | OSError _ => "OSError"
  | OperationalError _ => "OperationalError" | AccessDenied _ => "AccessDenied"
  | IncompleteReadError => "IncompleteReadError" | LimitOverrunError => "LimitOverrunError"
  | EgressDenied _ => "EgressDenied" | WorkloadDenied _ => "WorkloadDenied"
  | InvalidClientHello _ => "InvalidClientHello" | AuditTrustError _ => "AuditTrustError"
  | TaskIntentConflict _ => "TaskIntentConflict" | TaskIntentCapacity _ => "TaskIntentCapacity"
  | ObservationUnavailable _ => "ObservationUnavailable" | TrustJournalDenied _ => "TrustJournalDenied"
  | ObserverKeyDenied _ => "ObserverKeyDenied" | AnchorVerificationError _ => "AnchorVerificationError"
  | SigningJournalCapacityDenied _ => "SigningJournalCapacityDenied"
  | CheckpointCapacityDenied _ => "CheckpointCapacityDenied" | EvidenceCapacityDenied _ => "EvidenceCapacityDenied"
  | IndexError _ => "IndexError" | OidcError _ => "OidcError" | HTTPException _ _ => "HTTPException"
  | SecurityConfigurationError _ => "SecurityConfigurationError"
  end.

Inductive outcome (A : Type) :=
| Ok (a : A)
| Raise (e : pyexn).
Arguments Ok {A} a.
Arguments Raise {A} e.

#[global] Instance outcome_eq_dec {A} `{EqDecision A} : EqDecision (outcome A).
Proof. solve_decision. Defined.

#[global] Instance outcome_ret : MRet outcome := fun A a => Ok a.
#[global] Instance outcome_bind : MBind outcome := fun A B f m =>
  match m with Ok a => f a | Raise e => Raise e end.
#[global] Instance outcome_fmap : FMap outcome := fun A B f m =>
  match m with Ok a => Ok (f a) | Raise e => Raise e end.

Definition is_ok {A} (m : outcome A) : bool :=
  match m with Ok _ => true | Raise _ => false end.

(** [if cond: raise e] as a guard. *)
Definition guard_or (b : bool) (e : pyexn) : outcome unit :=
  if b then Ok tt else Raise e.

Lemma outcome_bind_Ok {A B} (f : A → outcome B) m b :
  (m ≫= f) = Ok b ↔ ∃ a, m = Ok a ∧ f a = Ok b.
Proof. destruct m; simpl; naive_solver. Qed.

Lemma guard_or_Ok b e u : guard_or b e = Ok u ↔ b = true.
Proof. destruct b, u; simpl; naive_solver. Qed.

(** ** Stateful fallible code

    A method that reads and writes persistent state and may raise.  A raise
    keeps the writes made so far, as a Python exception does; undoing them is
    what [atomic] below is for. *)
Definition M (S A : Type) : Type := S → outcome A * S.

#[global] Instance M_ret S : MRet (M S) := fun A a s => (Ok a, s).
#[global] Instance M_bind S : MBind (M S) := fun A B f m s =>
  match m s with
  | (Ok a, s') => f a s'
  | (Raise e, s') => (Raise e, s')
  end.

Definition raise {S A} (e : pyexn) : M S A := fun s => (Raise e, s).
Definition get {S} : M S S := fun s => (Ok s, s).
Definition put {S} (s' : S) : M S unit := fun _ => (Ok tt, s').
Definition gets {S A} (f : S → A) : M S A := fun s => (Ok (f s), s).
Definition modify {S} (f : S → S) : M S unit := fun s => (Ok tt, f s).
Definition lift {S A} (o : outcome A) : M S A := fun s => (o, s).
Definition ensure {S} (b : bool) (e : pyexn) : M S unit :=
  if b then mret tt else raise e.
Definition when {S} (b : bool) (m : M S unit) : M S unit :=
  if b then m else mret tt.

(** [try: m except e: h e], where [h] returns [None] for a class it lets pass. *)
Definition catch {S A} (m : M S A) (h : pyexn → option (M S A)) : M S A := fun s =>
  match m s with
  | (Raise e, s') => match h e with Some k => k s' | None => (Raise e, s') end
  | r => r
  end.

(** [sql_atomic] (store.py) and the stores' own transactions: the writes of a
    block that raises are rolled back.  Nested blocks are savepoints, which
    behave the same way on their own writes. *)
Definition atomic {S A} (m : M S A) : M S A := fun s =>
  match m s with
  | (Ok a, s') => (Ok a, s')
  | (Raise e, _) => (Raise e, s)
  end.

(** Run a component that owns a part [T] of a larger state [S]. *)
Class Lens (S T : Type) := {
  view : S → T;
  update : T → S → S;
  view_update : ∀ t s, view (update t s) = t;
  update_view : ∀ s, update (view s) s = s;
  update_update : ∀ t t' s, update t (update t' s) = update t s;
}.

Definition zoom {S T A} `{Lens S T} (m : M T A) : M S A := fun s =>
  let '(r, t) := m (view s) in (r, update t s).

(** ** Reasoning about [M] *)

Section monad_lemmas.
Context {S : Type}.

Lemma run_bind {A B} (f : A → M S B) (m : M S A) s :
  (m ≫= f) s = match m s with
               | (Ok a, s') => f a s'
               | (Raise e, s') => (Raise e, s')
               end.
Proof. reflexivity. Qed.

Lemma bind_Ok_inv {A B} (f : A → M S B) (m : M S A) s b s' :
  (m ≫= f) s = (Ok b, s') → ∃ a s1, m s = (Ok a, s1) ∧ f a s1 = (Ok b, s').
Proof. rewrite run_bind. destruct (m s) as [[a|e] s1]; naive_solver. Qed.

Lemma ensure_Ok_inv b e (s : S) u s' :
  ensure b e s = (Ok u, s') → b = true ∧ s' = s.
Proof. destruct b; simpl; unfold mret, M_ret, raise; naive_solver. Qed.

(** Running a successful first step. *)
Lemma run_ensure {B} b e (k : unit → M S B) s : b = true → (ensure b e ≫= k) s = k tt s.
Proof. by intros ->. Qed.

Lemma run_lift {A B} (o : outcome A) a (k : A → M S B) s : o = Ok a → (lift o ≫= k) s = k a s.
Proof. by intros ->. Qed.

Lemma run_get {B} (k : S → M S B) s : (get ≫= k) s = k s s.
Proof. done. Qed.

Lemma run_step {A B} (m : M S A) a s s' (k : A → M S B) :
  m s = (Ok a, s') → (m ≫= k) s = k a s'.
Proof. intros Hm. by rewrite run_bind, Hm. Qed.

Lemma atomic_Ok {A} (m : M S A) s a s' : atomic m s = (Ok a, s') ↔ m s = (Ok a, s').
Proof. unfold atomic. destruct (m s) as [[] ?]; naive_solver. Qed.

Lemma atomic_Raise {A} (m : M S A) s e s' : atomic m s = (Raise e, s') → s' = s.
Proof. unfold atomic. destruct (m s) as [[] ?]; naive_solver. Qed.

Lemma put_Ok_inv (x s : S) u s' : put x s = (Ok u, s') → s' = x.
Proof. by intros [= _ <-]. Qed.

Lemma mret_Ok_inv {A} (a b : A) (s s' : S) :
  (mret a : M S A) s = (Ok b, s') → b = a ∧ s' = s.
Proof. by intros [= <- <-]. Qed.

Lemma lift_Ok_inv {A} (o : outcome A) (s : S) a s' :
  lift o s = (Ok a, s') → o = Ok a ∧ s' = s.
Proof. unfold lift. naive_solver. Qed.

(** A run that raises leaves the state as it was, and a run that only reads. *)
Definition rolls_back {A} (m : M S A) : Prop := ∀ s e s', m s = (Raise e, s') → s' = s.
Definition reads {A} (m : M S A) : Prop := ∀ s, (m s).2 = s.

Lemma reads_mret {A} (a : A) : reads (mret a : M S A).
Proof. done. Qed.
Lemma reads_get : reads (@get S).
Proof. done. Qed.
Lemma reads_raise {A} e : reads (@raise S A e).
Proof. done. Qed.
Lemma reads_lift {A} (o : outcome A) : reads (lift o : M S A).
Proof. done. Qed.
Lemma reads_ensure b e : reads (@ensure S b e).
Proof. by destruct b. Qed.
Lemma reads_gets {A} (f : S → A) : reads (gets f).
Proof. done. Qed.
Lemma reads_bind {A B} (f : A → M S B) (m : M S A) :
  reads m → (∀ a, reads (f a)) → reads (m ≫= f).
Proof.
  intros Hm Hf s. rewrite run_bind. specialize (Hm s). destruct (m s) as [[a|e] s1];
    simpl in *; subst; [apply Hf|done].
Qed.

Lemma rolls_back_reads {A} (m : M S A) : reads m → rolls_back m.
Proof. intros Hm s e s' Hr. specialize (Hm s). by rewrite Hr in Hm. Qed.
Lemma rolls_back_atomic {A} (m : M S A) : rolls_back (atomic m).
Proof. intros s e s'. apply atomic_Raise. Qed.
Lemma rolls_back_put s0 : rolls_back (@put S s0).
Proof. by intros s e s' [=]. Qed.
Lemma rolls_back_bind {A B} (f : A → M S B) (m : M S A) :
  reads m → (∀ a, rolls_back (f a)) → rolls_back (m ≫= f).
Proof.
  intros Hm Hf s e s'. rewrite run_bind. specialize (Hm s). destruct (m s) as [[a|e'] s1];
    simpl in *; subst; [apply Hf|naive_solver].
Qed.
Lemma rolls_back_ret {A B} (f : A → B) (m : M S A) :
  rolls_back m → rolls_back (m ≫= fun a => mret (f a)).
Proof.
  intros Hm s e s'. rewrite run_bind. destruct (m s) as [[a|e'] s1] eqn:Hr; [done|].
  intros [= -> ->]. by eapply Hm.
Qed.
End monad_lemmas.

Lemma zoom_run {S T A} `{Lens S T} (m : M T A) (s : S) r t :
  m (view s) = (r, t) → zoom m s = (r, update t s).
Proof. unfold zoom. by intros ->. Qed.

(** ** Python dictionaries

    A [dict] keeps insertion order; assigning to a key that is present keeps
    its position. *)
Section dict.
Context {K V : Type} `{EqDecision K}.

Fixpoint dict_get (k : K) (d : list (K * V)) : option V :=
  match d with
  | [] => None
  | (k', v) :: d' => if decide (k = k') then Some v else dict_get k d'
  end.

Fixpoint dict_set (k : K) (v : V) (d : list (K * V)) : list (K * V) :=
  match d with
  | [] => [(k, v)]
  | (k', v') :: d' =>
      if decide (k = k') then (k, v) :: d' else (k', v') :: dict_set k v d'
  end.

Fixpoint dict_pop (k : K) (d : list (K * V)) : list (K * V) :=
  match d with
  | [] => []
  | (k', v') :: d' =>
      if decide (k = k') then d' else (k', v') :: dict_pop k d'
  end.

Definition dict_mem (k : K) (d : list (K * V)) : bool :=
  match dict_get k d with Some _ => true | None => false end.

Definition dict_keys (d : list (K * V)) : list K := d.*1.

Lemma dict_get_set_eq k v d : dict_get k (dict_set k v d) = Some v.
Proof. induction d as [|[k' v'] d IH]; simpl; repeat (case_decide; simpl); done. Qed.

Lemma dict_get_set_ne k k' v d :
  k ≠ k' → dict_get k (dict_set k' v d) = dict_get k d.
Proof.
  intros. induction d as [|[j w] d IH]; simpl; repeat (case_decide; simpl);
    simplify_eq; done.
Qed.

Lemma dict_get_Some_In k v d : dict_get k d = Some v → (k, v) ∈ d.
Proof.
  induction d as [|[j w] d IH]; simpl; [done|]. case_decide; intros; simplify_eq;
    set_solver.
Qed.

Lemma dict_get_In k v d : NoDup (dict_keys d) → (k, v) ∈ d → dict_get k d = Some v.
Proof.
  unfold dict_keys. induction d as [|[j w] d IH]; simpl; [set_solver|].
  intros [Hj Hd]%NoDup_cons [?|Hin]%elem_of_cons; simplify_eq; [by rewrite decide_True|].
  rewrite decide_False; [by apply IH|]. intros ->. apply Hj, list_elem_of_fmap. by exists (j, v).
Qed.

Lemma dict_get_None k d : dict_get k d = None ↔ k ∉ dict_keys d.
Proof.
  induction d as [|[j w] d IH]; simpl; [set_solver|].
  case_decide; set_solver.
Qed.

Lemma dict_get_pop_ne k k' d :
  k ≠ k' → dict_get k (dict_pop k' d) = dict_get k d.
Proof.
  intros. induction d as [|[j w] d IH]; simpl; repeat (case_decide; simpl);
    simplify_eq; done.
Qed.

Lemma dict_keys_pop_subset k d j : j ∈ dict_keys (dict_pop k d) → j ∈ dict_keys d.
Proof.
  induction d as [|[i w] d IH]; simpl; [done|]. case_decide; set_solver.
Qed.

Lemma dict_pop_nodup k d : NoDup (dict_keys d) → NoDup (dict_keys (dict_pop k d)).
Proof.
  unfold dict_keys. induction d as [|[i w] d IH]; simpl; [done|].
  intros [Hi Hd]%NoDup_cons. case_decide; [done|]. simpl. apply NoDup_cons. split.
  - intros Hin. apply Hi. by apply (dict_keys_pop_subset k).
  - by apply IH.
Qed.

Lemma dict_get_pop_eq k d : NoDup (dict_keys d) → dict_get k (dict_pop k d) = None.
Proof.
  unfold dict_keys. induction d as [|[i w] d IH]; simpl; [done|].
  intros [Hi Hd]%NoDup_cons. case_decide; subst.
  - by apply dict_get_None.
  - simpl. rewrite decide_False by done. by apply IH.
Qed.

Lemma dict_set_fresh k v d : dict_get k d = None → dict_set k v d = d ++ [(k, v)].
Proof.
  induction d as [|[i w] d IH]; simpl; [done|]. case_decide; [done|].
  intros. by rewrite IH.
Qed.

Lemma dict_pop_split k v d :
  dict_get k d = Some v →
  ∃ d1 d2, d = d1 ++ (k, v) :: d2 ∧ dict_pop k d = d1 ++ d2 ∧ k ∉ dict_keys d1.
Proof.
  induction d as [|[i w] d IH]; simpl; [done|]. case_decide; intros; simplify_eq.
  - exists [], d. set_solver.
  - destruct IH as (d1 & d2 & -> & -> & Hk); [done|].
    exists ((i, w) :: d1), d2. split_and!; [done..|]. set_solver.
Qed.

Lemma dict_pop_absent k d : dict_get k d = None → dict_pop k d = d.
Proof.
  induction d as [|[i w] d IH]; simpl; [done|]. case_decide; [done|].
  intros. by rewrite IH.
Qed.

Lemma dict_get_Forall (P : V → Prop) k v d :
  Forall P d.*2 → dict_get k d = Some v → P v.
Proof.
  intros Hd Hg%dict_get_Some_In. rewrite Forall_forall in Hd. apply Hd.
  apply list_elem_of_fmap. by exists (k, v).
Qed.

Lemma dict_pop_Forall (P : V → Prop) k d :
  Forall P d.*2 → Forall P (dict_pop k d).*2.
Proof.
  destruct (dict_get k d) as [v|] eqn:Hg; [|by rewrite dict_pop_absent].
  apply dict_pop_split in Hg as (d1 & d2 & -> & -> & _).
  rewrite !fmap_app, !Forall_app. intros [? ?%Forall_cons]. naive_solver.
Qed.

Lemma dict_set_nodup k v d : NoDup (dict_keys d) → NoDup (dict_keys (dict_set k v d)).
Proof.
  unfold dict_keys. induction d as [|[i w] d IH]; simpl; [intros; apply NoDup_singleton|].
  intros [Hi Hd]%NoDup_cons. case_decide; subst; simpl; apply NoDup_cons; [done|].
  split; [|by apply IH]. intros Hin. apply Hi. clear -Hin H.
  induction d as [|[j u] d IH]; simpl in *; [set_solver|]. case_decide; set_solver.
Qed.

Lemma length_dict_pop k v d :
  dict_get k d = Some v → length d = S (length (dict_pop k d)).
Proof.
  intros (d1 & d2 & -> & -> & _)%dict_pop_split.
  rewrite !length_app. simpl. lia.
Qed.
End dict.

(** ** Lists *)

Lemma list_filter_true {A} (P : A → Prop) `{∀ x, Decision (P x)} (l : list A) :
  Forall P l → filter P l = l.
Proof.
  induction 1; [done|]. rewrite filter_cons, decide_True by done. by f_equal.
Qed.

Lemma list_filter_none {A} (P : A → Prop) `{∀ x, Decision (P x)} (l : list A) :
  Forall (fun x => ¬ P x) l → filter P l = [].
Proof. induction 1; [done|]. by rewrite filter_cons, decide_False. Qed.

(** ** Text checks *)

Definition strlen (s : string) : Z := Z.of_nat (String.length s).

Definition is_space (c : Ascii.ascii) : bool :=
  let n := Ascii.nat_of_ascii c in
  bool_decide ((9 ≤ n ∧ n ≤ 13) ∨ (28 ≤ n ∧ n ≤ 32) ∨ n = 133 ∨ n = 160)%nat.

Fixpoint lstrip (s : string) : string :=
  match s with
  | EmptyString => EmptyString
  | String c s' => if is_space c then lstrip s' else s
  end.

Fixpoint str_rev (s : string) (acc : string) : string :=
  match s with
  | EmptyString => acc
  | String c s' => str_rev s' (String c acc)
  end.

(** [str.strip] on ASCII text. *)
Definition strip (s : string) : string :=
  str_rev (lstrip (str_rev (lstrip s) EmptyString)) EmptyString.

(** ** Automation *)

Create HintDb agentbridge.
Create Rewrite HintDb agentbridge.
#[export] Hint Rewrite @dict_get_set_eq : agentbridge.
#[export] Hint Resolve dict_pop_nodup dict_get_pop_eq : agentbridge.

#[export] Hint Resolve reads_mret reads_get reads_raise reads_lift reads_ensure reads_gets
  reads_bind rolls_back_reads rolls_back_atomic rolls_back_put : agentbridge.
#[export] Hint Resolve rolls_back_bind | 10 : agentbridge.
#[export] Hint Resolve rolls_back_ret | 5 : agentbridge.

(** Invert every successful step of the runs among the hypotheses. *)
Ltac minv_step :=
  match goal with
  | u : unit |- _ => destruct u
  | H : (_ ≫= _) _ = (Ok _, _) |- _ =>
      let a := fresh "a" in let s := fresh "s" in let H1 := fresh "Hm" in
      apply bind_Ok_inv in H as (a & s & H1 & H)
  | H : ensure _ _ _ = (Ok _, _) |- _ =>
      let E := fresh "He" in apply ensure_Ok_inv in H as [E ->]
  | H : lift _ _ = (Ok _, _) |- _ =>
      let E := fresh "Hl" in apply lift_Ok_inv in H as [E ->]
  | H : atomic _ _ = (Ok _, _) |- _ => apply (proj1 (atomic_Ok _ _ _ _)) in H
  | H : get _ = (Ok _, _) |- _ => injection H as <- <-
  | H : put _ _ = (Ok _, _) |- _ => apply put_Ok_inv in H; try subst
  | H : mret _ _ = (Ok _, _) |- _ =>
      let E := fresh "Hv" in apply mret_Ok_inv in H as [E H]; try subst
  | H : raise _ _ = (Ok _, _) |- _ => discriminate H
  end.
Ltac minv := repeat (minv_step; simpl in *).

(** Peel one successful monadic step off a hypothesis. *)
Ltac mstep H :=
  let a := fresh "a" in let s := fresh "s" in let H1 := fresh "Hm" in
  apply bind_Ok_inv in H as (a & s & H1 & H).

(** Case-split on the scrutinee of a match or conditional in the goal. *)
Ltac case_goal :=
  match goal with
  | |- context [match ?x with _ => _ end] => destruct x eqn:?
  end.
Ltac case_hyp H :=
  match type of H with
  | context [match ?x with _ => _ end] => destruct x eqn:?
  end.
