(* ===== verification/Bytes.v ===== *)
(** * Byte strings and text

    Python [bytes] as lists of 8-bit characters, with the slices, big-endian
    integers, searches and splits that the egress proxy uses, and the [str]
    operations on ASCII text it shares with them. *)

From stdpp Require Import base list strings.
From Stdlib Require Import ZArith Lia Ascii.
From S2P Require Import Prelude.

#[local] Open Scope Z_scope.

Abbreviation bytes := (list ascii).

Definition byte_val (c : ascii) : Z := Z.of_N (N_of_ascii c).
Definition byte_of (z : Z) : ascii := ascii_of_N (Z.to_N z).
Definition blen (b : bytes) : Z := Z.of_nat (length b).

(** A bytes literal. *)
Definition lit (s : string) : bytes := String.list_ascii_of_string s.

(** [data[start:stop]] for [0 <= start <= stop]. *)
Definition slice (start stop : Z) (b : bytes) : bytes :=
  take (Z.to_nat (stop - start)) (drop (Z.to_nat start) b).

(** [data[i]] of a byte the code has checked to exist. *)
Definition byte_at (i : Z) (b : bytes) : Z := default 0 (byte_val <$> b !! Z.to_nat i).

(** [int.from_bytes(b, "big")]. *)
Definition from_bytes (b : bytes) : Z := foldl (fun acc c => acc * 256 + byte_val c) 0 b.

(** The [n]-byte big-endian text of an integer. *)
Fixpoint be (n : nat) (z : Z) : bytes :=
  match n with
  | O => []
  | S n => be n (z / 256) ++ [byte_of (z mod 256)]
  end.

(** ** Searching and splitting *)

Definition starts_with (p b : bytes) : bool := bool_decide (take (length p) b = p).

(** [data.find(p)]. *)
Fixpoint find_bytes (p b : bytes) : option nat :=
  if starts_with p b then Some 0%nat
  else match b with [] => None | _ :: b' => S <$> find_bytes p b' end.

(** [data.split(c)] for a one-byte separator. *)
Fixpoint split_byte (c : ascii) (b : bytes) : list bytes :=
  match b with
  | [] => [[]]
  | x :: b' =>
      if bool_decide (x = c) then [] :: split_byte c b'
      else match split_byte c b' with [] => [[x]] | w :: ws => (x :: w) :: ws end
  end.

(** [data.split(b"\r\n")]. *)
Fixpoint split_crlf (b : bytes) : list bytes :=
  match b with
  | [] => [[]]
  | x :: b' =>
      match b' with
      | y :: b'' =>
          if bool_decide (x = "013"%char ∧ y = "010"%char) then [] :: split_crlf b''
          else match split_crlf b' with [] => [[x]] | w :: ws => (x :: w) :: ws end
      | [] => [[x]]
      end
  end.

(** [data.split(c, 1)]: the text before and after the first separator. *)
Fixpoint cut (c : ascii) (b : bytes) : option (bytes * bytes) :=
  match b with
  | [] => None
  | x :: b' => if bool_decide (x = c) then Some ([], b')
               else '(u, v) ← cut c b'; Some (x :: u, v)
  end.

Definition is_ascii (b : bytes) : bool := forallb (fun c => byte_val c <? 128) b.
Definition is_digit (c : ascii) : bool := (48 <=? byte_val c) && (byte_val c <=? 57).
Definition is_alpha (c : ascii) : bool :=
  ((65 <=? byte_val c) && (byte_val c <=? 90)) || ((97 <=? byte_val c) && (byte_val c <=? 122)).

(** [bytes.lower], and [str.lower] of ASCII text. *)
Definition lower_byte (c : ascii) : ascii :=
  if (65 <=? byte_val c) && (byte_val c <=? 90) then byte_of (byte_val c + 32) else c.
Definition lower (b : bytes) : bytes := lower_byte <$> b.

(** [bytes.strip]. *)
Definition is_bspace (c : ascii) : bool :=
  ((9 <=? byte_val c) && (byte_val c <=? 13)) || (byte_val c =? 32).
Fixpoint strip_left (b : bytes) : bytes :=
  match b with [] => [] | c :: b' => if is_bspace c then strip_left b' else b end.
Definition strip_bytes (b : bytes) : bytes := reverse (strip_left (reverse (strip_left b))).

(** ** Lemmas *)

Lemma byte_val_range c : 0 ≤ byte_val c < 256.
Proof. unfold byte_val. pose proof (N_ascii_bounded c). lia. Qed.

Lemma byte_of_val c : byte_of (byte_val c) = c.
Proof. unfold byte_of, byte_val. by rewrite N2Z.id, ascii_N_embedding. Qed.

Lemma byte_val_of z : 0 ≤ z < 256 → byte_val (byte_of z) = z.
Proof. intros ?. unfold byte_of, byte_val. rewrite N_ascii_embedding; lia. Qed.

Lemma byte_val_inj c d : byte_val c = byte_val d → c = d.
Proof. intros H. by rewrite <-(byte_of_val c), <-(byte_of_val d), H. Qed.

Lemma from_bytes_snoc b c : from_bytes (b ++ [c]) = from_bytes b * 256 + byte_val c.
Proof. unfold from_bytes. by rewrite foldl_app. Qed.

Lemma from_bytes_range b : 0 ≤ from_bytes b < 256 ^ blen b.
Proof.
  unfold blen. induction b as [|c b IH] using rev_ind; [done|].
  rewrite from_bytes_snoc, length_app, Nat2Z.inj_add. simpl length.
  rewrite Z.pow_add_r by lia. pose proof (byte_val_range c). change (256 ^ Z.of_nat 1) with 256. nia.
Qed.

Lemma length_be n z : length (be n z) = n.
Proof. revert z. induction n as [|n IH]; intros z; simpl; [done|]. rewrite length_app, IH. simpl. lia. Qed.

Lemma blen_be n z : blen (be n z) = Z.of_nat n.
Proof. unfold blen. by rewrite length_be. Qed.

Lemma from_bytes_be n z : 0 ≤ z < 256 ^ Z.of_nat n → from_bytes (be n z) = z.
Proof.
  revert z. induction n as [|n IH]; intros z Hz.
  - change (256 ^ Z.of_nat 0) with 1 in Hz. simpl. unfold from_bytes. simpl. lia.
  - cbn [be]. rewrite Nat2Z.inj_succ, Z.pow_succ_r in Hz by lia.
    rewrite from_bytes_snoc, IH, byte_val_of by (split; [|]; try apply Z.mod_pos_bound; try apply Z.div_pos;
      try apply Z.div_lt_upper_bound; lia). pose proof (Z.div_mod z 256). lia.
Qed.

Lemma be_from_bytes b : be (length b) (from_bytes b) = b.
Proof.
  induction b as [|c b IH] using rev_ind; [done|].
  rewrite length_app, Nat.add_comm. cbn [length Nat.add be].
  rewrite from_bytes_snoc. pose proof (byte_val_range c).
  rewrite Z.div_add_l, (Z.div_small (byte_val c)), Z.add_0_r, IH by lia.
  rewrite Z.add_comm, Z_mod_plus_full, Z.mod_small by lia. by rewrite byte_of_val.
Qed.

Lemma be_inv n b : length b = n → b = be n (from_bytes b).
Proof. intros <-. by rewrite be_from_bytes. Qed.

Lemma blen_app a b : blen (a ++ b) = blen a + blen b.
Proof. unfold blen. rewrite length_app. lia. Qed.

Lemma blen_nonneg b : 0 ≤ blen b.
Proof. unfold blen. lia. Qed.

(** A slice read at the boundary of a concatenation. *)
Lemma slice_app a b c : slice (blen a) (blen a + blen b) (a ++ b ++ c) = b.
Proof.
  unfold slice, blen. rewrite Nat2Z.id, drop_app_length. rewrite Z.add_simpl_l, Nat2Z.id.
  by rewrite take_app_length.
Qed.

Lemma slice_split (b : bytes) p q : 0 ≤ p → p ≤ q ≤ blen b →
  drop (Z.to_nat p) b = slice p q b ++ drop (Z.to_nat q) b ∧ blen (slice p q b) = q - p.
Proof.
  unfold slice, blen. intros Hp Hq. split.
  - rewrite <-(take_drop (Z.to_nat (q - p)) (drop (Z.to_nat p) b)) at 1. f_equal.
    rewrite drop_drop. f_equal. lia.
  - rewrite length_take, length_drop. lia.
Qed.

Lemma starts_with_app p b : starts_with p (p ++ b) = true.
Proof. unfold starts_with. rewrite bool_decide_eq_true. apply take_app_length. Qed.

Lemma lower_length b : length (lower b) = length b.
Proof. apply length_fmap. Qed.

#[export] Hint Rewrite blen_app blen_be : agentbridge.
#[export] Hint Resolve blen_nonneg : agentbridge.
