(* ===== verification/Egress.v ===== *)
(** * Egress policy and workload identity

    [proxy/egress_policy.py] and [proxy/workload_identity.py]: which CONNECT
    authorities, resolved addresses and client certificates the outbound proxy
    accepts.  Host names are ASCII text, held as their bytes.  [ipaddress]
    changes its reserved networks between Python releases and is an interface;
    the name resolver and the X.509 parser are arguments. *)

From stdpp Require Import base list sets strings.
From Stdlib Require Import ZArith Lia Ascii.
From S2P Require Import Prelude Bytes.

#[local] Open Scope Z_scope.

(** [ipaddress.ip_address], [is_global] and [str] of an address. *)
Class IpAddress := {
  ip_addr : Type;
  ip_parse : bytes → option ip_addr;
  is_global : ip_addr → bool;
  ip_text : ip_addr → bytes;
}.

Definition denied {A} (msg : string) : outcome A := Raise (EgressDenied msg).

(** [str.strip]. *)
Fixpoint strip_left_text (b : bytes) : bytes :=
  match b with [] => [] | c :: b' => if is_space c then strip_left_text b' else b end.
Definition strip_text (b : bytes) : bytes := reverse (strip_left_text (reverse (strip_left_text b))).

Section egress.
Context `{IpAddress}.

Definition label_char (c : ascii) : bool := is_alpha c || is_digit c || bool_decide (c = "-"%char).

Definition label_ok (label : bytes) : bool :=
  (1 <=? blen label) && (blen label <=? 63) &&
  negb (bool_decide (head label = Some "-"%char)) && negb (bool_decide (last label = Some "-"%char)) &&
  forallb label_char label.

Definition reserved_suffix : list bytes := lit <$> ["local"; "internal"; "test"; "localhost"].

(** [_valid_dns_name]. *)
Definition valid_dns_name (host : bytes) : bool :=
  (4 <=? blen host) && (blen host <=? 253) && is_ascii host &&
  negb (bool_decide (last host = Some "."%char)) && negb (bool_decide (head host = Some "."%char)) &&
  bool_decide (find_bytes (lit "..") host = None) &&
  let labels := split_byte "." host in
  let top := default [] (last labels) in
  (2 <=? Z.of_nat (length labels)) && negb (bool_decide (lower top ∈ reserved_suffix)) &&
  forallb label_ok labels && negb (forallb is_digit top) && match ip_parse host with Some _ => false | None => true end.

Definition parse_allowed_hosts (raw : bytes) : outcome (list bytes) :=
  let hosts := split_byte "," raw in
  if negb ((1 <=? Z.of_nat (length hosts)) && (Z.of_nat (length hosts) <=? 100))
  then denied "egress host allowlist must contain 1-100 entries"
  else if negb (forallb (fun name => bool_decide (name = strip_text name) && valid_dns_name name) hosts)
  then denied "egress allowlist must contain exact public DNS hostnames"
  else if negb (bool_decide (NoDup (lower <$> hosts))) then denied "duplicate egress hostnames"
  else Ok (lower <$> hosts).

Definition authority_separators : bytes := lit "/\@%?# " ++ ["009"; "013"; "010"]%char.

(** [authority.count(c)]. *)
Definition count_byte (c : ascii) (b : bytes) : nat := length (filter (fun x => x = c) b).

Definition parse_connect_target (authority : bytes) (allowed_hosts : list bytes) : outcome (bytes * Z) :=
  if negb (is_ascii authority) || negb (count_byte ":" authority =? 1)%nat ||
     existsb (fun c => bool_decide (c ∈ authority)) authority_separators
  then denied "invalid CONNECT authority"
  else
    let '(host, raw_port) := default (authority, []) (cut ":" authority) in
    if negb (valid_dns_name host) || negb (bool_decide (raw_port = lit "443"))
    then denied "CONNECT requires a public DNS name and TLS port 443"
    else if negb (bool_decide (lower host ∈ allowed_hosts)) then denied "CONNECT host is not allowlisted"
    else Ok (lower host, 443).

Inductive family := AF_INET | AF_INET6 | AF_OTHER.
Record answer := mkAnswer { a_family : family; stream : bool; sockaddr0 : bytes }.

#[global] Instance family_eq_dec : EqDecision family.
Proof. solve_decision. Defined.

Fixpoint pin (results : list answer) (addresses : list bytes) : outcome (list bytes) :=
  match results with
  | [] => Ok addresses
  | r :: results =>
      if bool_decide (a_family r = AF_OTHER) || negb (stream r)
      then denied "unsupported DNS answer family or socket type"
      else match ip_parse (sockaddr0 r) with
           | None => denied "unrecognized destination address"
           | Some parsed =>
               if negb (is_global parsed) then denied "DNS answer includes nonpublic or reserved address"
               else pin results (if bool_decide (ip_text parsed ∈ addresses) then addresses
                                 else addresses ++ [ip_text parsed])
           end
  end.

(** The lookup's answers, or [OSError]. *)
Definition resolve_global_addresses (lookup : outcome (list answer)) : outcome (list bytes) :=
  match lookup with
  | Raise (OSError _) => denied "destination DNS lookup failed"
  | Raise e => Raise e
  | Ok [] => denied "destination has no DNS results"
  | Ok results => pin results []
  end.

(** ** Workload identity *)

Definition no_workload {A} (msg : string) : outcome A := Raise (WorkloadDenied msg).

Section workload.
(** The SHA-256 of a certificate's public key, when the certificate parses. *)
Context (spki_sha256 : bytes → option bytes).

Definition client_spki_sha256 (der_cert : option bytes) : outcome bytes :=
  match der_cert with
  | None | Some [] => no_workload "mTLS client certificate required"
  | Some der => match spki_sha256 der with
                | None => no_workload "invalid mTLS client certificate"
                | Some digest => Ok digest
                end
  end.

(** [ssl_object] is the peer's connection, [Some cert] when TLS is used. *)
Definition validate_workload (ssl_object : option (option bytes)) (allowed_spki : list bytes)
  : outcome bytes :=
  if bool_decide (allowed_spki = []) then no_workload "explicit mTLS workload allowlist required"
  else match ssl_object with
       | None => no_workload "TLS client authentication required"
       | Some cert =>
           digest ← client_spki_sha256 cert;
           if bool_decide (digest ∈ allowed_spki) then Ok digest
           else no_workload "unrecognized workload identity"
       end.
End workload.

Definition lower_hex (c : ascii) : bool :=
  is_digit c || ((97 <=? byte_val c) && (byte_val c <=? 102)).

Definition parse_allowed_workload_spki (raw : option bytes) : outcome (list bytes) :=
  match raw with
  | None => no_workload "mTLS workload identities required"
  | Some raw =>
      let values := split_byte "," raw in
      if negb ((1 <=? Z.of_nat (length values)) && (Z.of_nat (length values) <=? 100))
      then no_workload "invalid workload allowlist cardinality"
      else if existsb (fun x => negb (blen x =? 64) || negb (forallb lower_hex x)) values
      then no_workload "malformed workload key hash"
      else if negb (bool_decide (NoDup values)) then no_workload "duplicate workload identity"
      else Ok values
  end.

(** ** Lemmas *)

Lemma split_byte_elem c x b :
  x ∈ b → x = c ∨ ∃ w, w ∈ split_byte c b ∧ x ∈ w.
Proof.
  induction b as [|y b IH]; simpl; [by intros ?%elem_of_nil|].
  intros [->|Hx]%elem_of_cons.
  - case_bool_decide; [by left|]. right.
    destruct (split_byte c b) as [|w ws]; [exists [y]|exists (y :: w)]; set_solver.
  - destruct (IH Hx) as [?|(w & Hw & Hxw)]; [by left|]. right. case_bool_decide; [exists w; set_solver|].
    destruct (split_byte c b) as [|v vs]; [set_solver|].
    apply elem_of_cons in Hw as [->|Hw]; [exists (y :: v)|exists w]; set_solver.
Qed.

(** A valid name holds only letters, digits, hyphens and dots. *)
Lemma valid_dns_chars host c :
  valid_dns_name host = true → c ∈ host → label_char c = true ∨ c = "."%char.
Proof.
  unfold valid_dns_name. rewrite !andb_true_iff. intros [_ [[[_ Hl] _] _]] Hc.
  destruct (split_byte_elem "." c host Hc) as [->|(w & Hw & Hcw)]; [by right|left].
  rewrite forallb_forall in Hl. apply list_elem_of_In in Hw, Hcw.
  specialize (Hl w Hw). unfold label_ok in Hl. rewrite !andb_true_iff in Hl.
  destruct Hl as [_ Hl]. rewrite forallb_forall in Hl. by apply Hl.
Qed.

Lemma valid_dns_ascii host : valid_dns_name host = true → is_ascii host = true.
Proof. unfold valid_dns_name. rewrite !andb_true_iff. tauto. Qed.

(** The characters of [hostname:443] other than the separator. *)
Lemma valid_dns_absent host c :
  valid_dns_name host = true → label_char c = false → c ≠ "."%char → c ∉ host.
Proof. intros Hv Hc Hd Hin. destruct (valid_dns_chars _ _ Hv Hin); congruence. Qed.

Lemma cut_app c a b : c ∉ a → cut c (a ++ c :: b) = Some (a, b).
Proof.
  induction a as [|x a IH]; simpl; intros Ha; case_bool_decide; try set_solver.
  by rewrite IH by set_solver.
Qed.

Lemma cut_Some c b u v : cut c b = Some (u, v) → b = u ++ c :: v ∧ c ∉ u.
Proof.
  revert u v. induction b as [|x b IH]; simpl; intros u v; [done|].
  case_bool_decide; [intros [= <- <-]; subst; set_solver|].
  intros Hc. destruct (cut c b) as [[u' v']|]; [|done]. injection Hc as <- <-.
  destruct (IH _ _ eq_refl) as [-> Hu]. set_solver.
Qed.

Lemma cut_None c b : cut c b = None → c ∉ b.
Proof.
  induction b as [|x b IH]; simpl; [set_solver|]. case_bool_decide; [done|].
  destruct (cut c b) as [[]|]; [done|]. intros _. specialize (IH eq_refl). set_solver.
Qed.

Lemma count_byte_app c a b : count_byte c (a ++ b) = (count_byte c a + count_byte c b)%nat.
Proof. unfold count_byte. by rewrite filter_app, length_app. Qed.

Lemma count_byte_absent c a : c ∉ a → count_byte c a = 0%nat.
Proof.
  intros Ha. unfold count_byte. rewrite list_filter_none; [done|].
  apply Forall_forall. intros x Hx ->. contradiction.
Qed.

Lemma is_ascii_app a b : is_ascii (a ++ b) = is_ascii a && is_ascii b.
Proof. apply forallb_app. Qed.

(** The CONNECT authorities the proxy accepts are exactly the allowlisted
    public DNS names, in any letter case, followed by [:443]; the host it goes
    on with is the lower-case name. *)
Lemma connect_target_exact authority hosts h port :
  parse_connect_target authority hosts = Ok (h, port) ↔
  ∃ name, authority = name ++ lit ":443" ∧ valid_dns_name name = true ∧
    h = lower name ∧ h ∈ hosts ∧ port = 443.
Proof.
  unfold parse_connect_target. split.
  - case_match; [done|]. destruct (cut ":" authority) as [[u v]|] eqn:Hc; simpl.
    + apply cut_Some in Hc as [-> _]. case_match eqn:Hp; [done|].
      apply orb_false_iff in Hp as [Hv Hp]. case_match eqn:Hin; [done|]. intros [= <- <-].
      apply negb_false_iff in Hv, Hp, Hin. apply bool_decide_eq_true in Hp, Hin. subst v.
      by exists u.
    + by rewrite orb_true_r.
  - intros (name & -> & Hv & -> & Hin & ->).
    assert (":"%char ∉ name) as Hcolon by by apply valid_dns_absent.
    rewrite is_ascii_app, (valid_dns_ascii _ Hv).
    rewrite count_byte_app, (count_byte_absent _ _ Hcolon).
    replace (existsb _ authority_separators) with false.
    + simpl. change (lit ":443") with (":"%char :: lit "443").
      rewrite (cut_app _ _ _ Hcolon). simpl. rewrite Hv. simpl. by rewrite bool_decide_true.
    + symmetry. apply not_true_is_false. rewrite existsb_exists. intros (c & Hc & Hin').
      rewrite bool_decide_eq_true, elem_of_app in Hin'. destruct Hin' as [Hn|Hn].
      * destruct (valid_dns_chars _ _ Hv Hn) as [Hl| ->];
          [|by repeat (destruct Hc as [Hc|Hc]; [discriminate Hc|])].
        by repeat (destruct Hc as [Hc|Hc]; [subst c; discriminate Hl|]).
      * apply list_elem_of_In in Hn.
        repeat (destruct Hc as [Hc|Hc]; [subst c; by repeat (destruct Hn as [Hn|Hn]; [discriminate Hn|])|]).
        done.
Qed.

(** An answer the proxy may connect to, under its text [ip]. *)
Definition public_answer (r : answer) (ip : bytes) : Prop :=
  a_family r ≠ AF_OTHER ∧ stream r = true ∧
  ∃ parsed, ip_parse (sockaddr0 r) = Some parsed ∧ is_global parsed = true ∧ ip = ip_text parsed.

Lemma pin_spec results addresses l :
  pin results addresses = Ok l → NoDup addresses →
  NoDup l ∧ addresses ⊆ l ∧
  (∀ r, r ∈ results → ∃ ip, public_answer r ip ∧ ip ∈ l) ∧
  (∀ ip, ip ∈ l → ip ∈ addresses ∨ ∃ r, r ∈ results ∧ public_answer r ip).
Proof.
  revert addresses. induction results as [|r results IH]; simpl; intros addresses Hrun Hnd.
  { injection Hrun as <-. set_solver. }
  case_match eqn:Hf; [done|]. apply orb_false_iff in Hf as [Hf Hs].
  apply bool_decide_eq_false in Hf. apply negb_false_iff in Hs.
  destruct (ip_parse (sockaddr0 r)) as [a|] eqn:Ha; [|done].
  case_match eqn:Hg; [done|]. apply negb_false_iff in Hg.
  assert (public_answer r (ip_text a)) as Hpub by (split_and!; eauto).
  apply IH in Hrun as (Hl & Hsub & Hall & Hfrom).
  - assert (addresses ⊆ l ∧ ip_text a ∈ l) as [Hsub' Hin] by (case_bool_decide; set_solver).
    split_and!; [done|done| |].
    + intros q [->|Hq]%elem_of_cons; [by eexists|by apply Hall].
    + intros ip Hip. destruct (Hfrom ip Hip) as [Hold|(q & ? & ?)].
      * case_bool_decide; [by left|]. apply elem_of_app in Hold as [?|Hold]; [by left|].
        apply list_elem_of_singleton in Hold as ->. right. exists r. set_solver.
      * right. exists q. set_solver.
  - case_bool_decide; [done|]. apply NoDup_app. split_and!; [done| |apply NoDup_singleton].
    intros x Hx Hx'%list_elem_of_singleton. by subst.
Qed.

(** The addresses the proxy pins are the texts of the resolver's answers,
    without repetition and never empty; each answer is a stream address of a
    public network, so one private answer among public ones refuses them all. *)
Lemma pinned_addresses_public results l :
  resolve_global_addresses (Ok results) = Ok l →
  l ≠ [] ∧ NoDup l ∧
  (∀ r, r ∈ results → ∃ ip, public_answer r ip ∧ ip ∈ l) ∧
  (∀ ip, ip ∈ l → ∃ r, r ∈ results ∧ public_answer r ip).
Proof.
  intros Hrun. destruct results as [|r results]; [done|].
  apply pin_spec in Hrun as (Hl & _ & Hall & Hfrom); [|apply NoDup_nil_2].
  split_and!; [|done|done|].
  - intros ->. destruct (Hall r) as (ip & _ & Hin); set_solver.
  - intros ip Hip. destruct (Hfrom ip Hip) as [?%elem_of_nil|?]; done.
Qed.
End egress.

(** ** IPv4 addresses

    [IPv4Address] of Python 3.11: four decimal octets without leading zeros,
    global unless in a reserved network and not in one of its exceptions. *)
Module Ipv4.
Definition octet (b : bytes) : option Z :=
  if (0 <? blen b) && (blen b <=? 3) && forallb is_digit b &&
     negb (bool_decide (head b = Some "0"%char) && negb (blen b =? 1))
  then let n := foldl (fun acc c => acc * 10 + (byte_val c - 48)) 0 b in
       if n <=? 255 then Some n else None
  else None.

Definition parse (b : bytes) : option Z :=
  match split_byte "." b with
  | [w; x; y; z] =>
      w ← octet w; x ← octet x; y ← octet y; z ← octet z;
      Some (((w * 256 + x) * 256 + y) * 256 + z)
  | _ => None
  end.

(** [address in network]: the same leading [bits]. *)
Definition within (a : Z) (net : list Z * Z) : bool :=
  let width := 2 ^ (32 - net.2) in
  a / width =? foldl (fun acc o => acc * 256 + o) 0 net.1 / width.

Definition private_networks : list (list Z * Z) :=
  [([0; 0; 0; 0], 8); ([10; 0; 0; 0], 8); ([127; 0; 0; 0], 8); ([169; 254; 0; 0], 16);
   ([172; 16; 0; 0], 12); ([192; 0; 0; 0], 24); ([192; 0; 0; 170], 31); ([192; 0; 2; 0], 24);
   ([192; 168; 0; 0], 16); ([198; 18; 0; 0], 15); ([198; 51; 100; 0], 24); ([203; 0; 113; 0], 24);
   ([240; 0; 0; 0], 4); ([255; 255; 255; 255], 32)].
Definition private_exceptions : list (list Z * Z) := [([192; 0; 0; 9], 32); ([192; 0; 0; 10], 32)].

Definition global (a : Z) : bool :=
  negb (within a ([100; 64; 0; 0], 10)) &&
  negb (existsb (within a) private_networks && forallb (fun n => negb (within a n)) private_exceptions).

Definition digits (n : Z) : bytes :=
  let d z := byte_of (48 + z) in
  if n <? 10 then [d n] else if n <? 100 then [d (n / 10); d (n mod 10)]
  else [d (n / 100); d (n / 10 mod 10); d (n mod 10)].

Definition text (a : Z) : bytes :=
  digits (a / 16777216) ++ lit "." ++ digits (a / 65536 mod 256) ++ lit "." ++
  digits (a / 256 mod 256) ++ lit "." ++ digits (a mod 256).
End Ipv4.

#[global] Instance ipv4_address : IpAddress := {
  ip_addr := Z;
  ip_parse := Ipv4.parse;
  is_global := Ipv4.global;
  ip_text := Ipv4.text;
}.

Example metadata_service_private :
  resolve_global_addresses (Ok [mkAnswer AF_INET true (lit "8.8.8.8"); mkAnswer AF_INET true (lit "169.254.169.254")])
  = denied "DNS answer includes nonpublic or reserved address".
Proof. vm_compute. reflexivity. Qed.

Example public_pinned :
  resolve_global_addresses (Ok [mkAnswer AF_INET true (lit "8.8.8.8"); mkAnswer AF_INET true (lit "8.8.8.8")])
  = Ok [lit "8.8.8.8"].
Proof. vm_compute. reflexivity. Qed.
