(* ===== verification/TlsSni.v ===== *)
(** * TLS ClientHello inspection

    [proxy/tls_sni_guard.py]: the strict parser that finds the server name in
    the first TLS record of a tunnel.  [hello] and [encode] give the wire
    format of the records it is meant to accept; the parser accepts exactly
    these. *)

From stdpp Require Import base list sets strings.
From Stdlib Require Import ZArith Lia Ascii.
From S2P Require Import Prelude Bytes Egress.

#[local] Open Scope Z_scope.

Definition bad {A} (msg : string) : outcome A := Raise (InvalidClientHello msg).

(** [_segment]. *)
Definition segment (data : bytes) (start width : Z) : outcome (bytes * Z) :=
  let stop := start + width in
  if (width <? 0) || (blen data <? stop) then bad "truncated TLS structure"
  else Ok (slice start stop data, stop).

Section sni.
Context `{IpAddress}.

(** The body of [if typ == 0]: the one DNS name of an SNI extension. *)
Definition server_name (value : bytes) : outcome bytes :=
  if (blen value <? 5) || negb (from_bytes (slice 0 2 value) =? blen value - 2)
  then bad "invalid SNI list"
  else if negb (byte_at 2 value =? 0) then bad "SNI entry must be DNS hostname"
  else if negb (from_bytes (slice 3 5 value) =? blen value - 5)
  then bad "multiple or invalid SNI identities"
  else let name := slice 5 (blen value) value in
       if is_ascii name then Ok (lower name) else bad "non-ASCII TLS SNI".

(** The [while p < end] loop over the extensions; [None] when [fuel] runs out. *)
Fixpoint extensions (fuel : nat) (body : bytes) (p : Z) (found : option bytes) (seen : list Z)
  : option (outcome (option bytes * Z)) :=
  if negb (p <? blen body) then Some (Ok (found, p))
  else match fuel with
  | O => None
  | S fuel =>
      match segment body p 4 with
      | Raise e => Some (Raise e)
      | Ok (header, p) =>
          let typ := from_bytes (slice 0 2 header) in
          let n := from_bytes (slice 2 (blen header) header) in
          if bool_decide (typ ∈ seen) then Some (bad "duplicate TLS extension")
          else match segment body p n with
          | Raise e => Some (Raise e)
          | Ok (value, p) =>
              if typ =? 0xfe0d then Some (bad "ECH cannot be inspected by this proxy")
              else if typ =? 0 then
                match server_name value with
                | Raise e => Some (Raise e)
                | Ok name => extensions fuel body p (Some name) (seen ++ [typ])
                end
              else extensions fuel body p found (seen ++ [typ])
          end
      end
  end.

(** The fixed fields, up to the length of the extension block: the offset of
    the first extension. *)
Definition preamble (body : bytes) : outcome Z :=
  '(_, p) ← segment body 4 (2 + 32);
  '(session_size, p) ← segment body p 1;
  '(_, p) ← segment body p (byte_at 0 session_size);
  '(cipher_bytes, p) ← segment body p 2;
  let cipher_size := from_bytes cipher_bytes in
  _ ← guard_or (negb ((cipher_size =? 0) || negb (cipher_size mod 2 =? 0)))
               (InvalidClientHello "invalid cipher suite block");
  '(_, p) ← segment body p cipher_size;
  '(compression_bytes, p) ← segment body p 1;
  _ ← guard_or (negb (byte_at 0 compression_bytes =? 0)) (InvalidClientHello "no compression method");
  '(_, p) ← segment body p (byte_at 0 compression_bytes);
  '(extensions_len, p) ← segment body p 2;
  let ext_size := from_bytes extensions_len in
  _ ← guard_or (negb ((ext_size =? 0) || negb (p + ext_size =? blen body)))
               (InvalidClientHello "extension structure invalid");
  Ok p.

(** The record header and the handshake header. *)
Definition framing (record : bytes) : outcome bytes :=
  if (blen record <? 9) || (16389 <? blen record)
  then bad "bounded TLS ClientHello record required"
  else if negb (byte_at 0 record =? 22) || negb (byte_at 1 record =? 3) ||
          negb (bool_decide (byte_at 2 record ∈ [1; 2; 3; 4]))
  then bad "CONNECT payload must begin with TLS handshake"
  else
    let size := from_bytes (slice 3 5 record) in
    if negb (size =? blen record - 5) || (16384 <? size) then bad "TLS record length invalid"
    else
      let body := slice 5 (blen record) record in
      if negb (byte_at 0 body =? 1) || negb (from_bytes (slice 1 4 body) =? blen body - 4)
      then bad "expected one complete ClientHello"
      else Ok body.

Definition parse_tls_client_hello_sni (fuel : nat) (record : bytes) : option (outcome bytes) :=
  match framing record with
  | Raise e => Some (Raise e)
  | Ok body =>
      match preamble body with
      | Raise e => Some (Raise e)
      | Ok p =>
          match extensions fuel body p None [] with
          | None => None
          | Some (Raise e) => Some (Raise e)
          | Some (Ok (found, p)) =>
              match found with
              | Some (c :: name) =>
                  if negb (p =? blen body) then Some (bad "one unencrypted DNS SNI is required")
                  else if negb (valid_dns_name (c :: name))
                  then Some (bad "TLS SNI is not a valid DNS hostname")
                  else Some (Ok (c :: name))
              | _ => Some (bad "one unencrypted DNS SNI is required")
              end
          end
      end
  end.

(** ** The accepted format *)

Record hello := mkHello {
  minor : Z;                      (* of the record's legacy version *)
  prologue : bytes;               (* legacy version and random *)
  session : bytes;
  ciphers : bytes;
  compression : bytes;
  exts : list (Z * bytes);        (* type and value *)
}.

Definition ext_bytes (x : Z * bytes) : bytes := be 2 x.1 ++ be 2 (blen x.2) ++ x.2.

Definition encode_fields (h : hello) : bytes :=
  prologue h ++ be 1 (blen (session h)) ++ session h ++ be 2 (blen (ciphers h)) ++ ciphers h ++
  be 1 (blen (compression h)) ++ compression h.

Definition encode_body (h : hello) : bytes :=
  let block := concat (ext_bytes <$> exts h) in
  let rest := encode_fields h ++ be 2 (blen block) ++ block in
  be 1 1 ++ be 3 (blen rest) ++ rest.

Definition encode (h : hello) : bytes :=
  let body := encode_body h in
  be 1 22 ++ be 1 3 ++ be 1 (minor h) ++ be 2 (blen body) ++ body.

Definition sni_value (name : bytes) : bytes :=
  be 2 (3 + blen name) ++ be 1 0 ++ be 2 (blen name) ++ name.

Record well_formed (h : hello) : Prop := {
  wf_minor : minor h ∈ [1; 2; 3; 4];
  wf_prologue : blen (prologue h) = 34;
  wf_session : blen (session h) < 256;
  wf_ciphers : 0 < blen (ciphers h) < 65536 ∧ blen (ciphers h) mod 2 = 0;
  wf_compression : 0 < blen (compression h) < 256;
  wf_exts : Forall (fun x => 0 ≤ x.1 < 65536 ∧ x.1 ≠ 0xfe0d ∧ blen x.2 < 65536) (exts h);
  wf_types : NoDup (exts h).*1;
  wf_size : blen (encode_body h) ≤ 16384;
}.

(** [h] names the server [name] in its one SNI extension. *)
Definition names (h : hello) (name : bytes) : Prop :=
  (0, sni_value name) ∈ exts h ∧ is_ascii name = true ∧ valid_dns_name (lower name) = true.

(** ** Reading at an offset *)

(** [r] is what remains of [body] at offset [p]. *)
Definition remains (body : bytes) (p : Z) (r : bytes) : Prop :=
  0 ≤ p ∧ drop (Z.to_nat p) body = r ∧ p + blen r = blen body.

Lemma remains_start body : remains body 0 body.
Proof. done. Qed.

Lemma remains_skip body p v r : remains body p (v ++ r) → remains body (p + blen v) r.
Proof.
  intros (Hp & Hd & Hl). rewrite blen_app in Hl. pose proof (blen_nonneg v). split_and!; [lia| |lia].
  unfold blen in *. rewrite Z2Nat.inj_add, <-drop_drop, Hd, Nat2Z.id by lia. apply drop_app_length.
Qed.

Lemma segment_inv body p r w v q :
  remains body p r → segment body p w = Ok (v, q) →
  ∃ r', r = v ++ r' ∧ blen v = w ∧ remains body q r'.
Proof.
  unfold segment. intros (Hp & Hd & Hl) Hs. case_match eqn:Hc; [done|].
  apply orb_false_iff in Hc as [?%Z.ltb_ge ?%Z.ltb_ge]. injection Hs as <- <-.
  destruct (slice_split body p (p + w)) as [He Hlen]; [lia|lia|].
  exists (drop (Z.to_nat (p + w)) body). rewrite <-Hd, He. split_and!; [done|lia|].
  rewrite <-Hd, He, blen_app in Hl. split_and!; [lia|done|lia].
Qed.

Lemma segment_run body p v r :
  remains body p (v ++ r) →
  segment body p (blen v) = Ok (v, p + blen v) ∧ remains body (p + blen v) r.
Proof.
  intros Hr. split; [|by apply remains_skip]. destruct Hr as (Hp & Hd & Hl).
  rewrite blen_app in Hl. pose proof (blen_nonneg v). pose proof (blen_nonneg r).
  unfold segment, slice. rewrite (proj2 (Z.ltb_ge _ _)), (proj2 (Z.ltb_ge _ _)) by lia. simpl.
  rewrite Hd, Z.add_simpl_l. unfold blen at 1. by rewrite Nat2Z.id, take_app_length.
Qed.

(** A length-prefixed field. *)
Lemma segment_be body p n z r :
  remains body p (be n z ++ r) →
  segment body p (Z.of_nat n) = Ok (be n z, p + Z.of_nat n) ∧ remains body (p + Z.of_nat n) r.
Proof. intros Hr%segment_run. by rewrite blen_be in Hr. Qed.

Lemma be_read n v : blen v = Z.of_nat n → v = be n (from_bytes v).
Proof. unfold blen. intros ?. apply be_inv. lia. Qed.

Lemma byte_read v : blen v = 1 → byte_at 0 v = from_bytes v.
Proof.
  unfold blen. destruct v as [|c [|d v]]; cbn [length]; [lia|done|lia].
Qed.

(** Slices of a concatenation, by computation on the prefix lengths. *)
Lemma slice_prefix a b : slice 0 (blen a) (a ++ b) = a.
Proof. unfold slice, blen. rewrite Z.sub_0_r, Nat2Z.id. simpl. by rewrite drop_0, take_app_length. Qed.

Lemma slice_suffix a b : slice (blen a) (blen (a ++ b)) (a ++ b) = b.
Proof.
  rewrite blen_app. pose proof (slice_app a b []) as Hs. by rewrite app_nil_r in Hs.
Qed.

(** Split a byte string of known length. *)
Lemma take_split (v : bytes) n : Z.of_nat n ≤ blen v →
  ∃ a b, v = a ++ b ∧ blen a = Z.of_nat n ∧ blen b = blen v - Z.of_nat n.
Proof.
  unfold blen. intros Hn. exists (take n v), (drop n v). rewrite take_drop, length_take, length_drop.
  split_and!; [done|lia|lia].
Qed.

(** ** The server name *)

(** The five fields of an SNI value. *)
Lemma sni_fields a b c name :
  blen a = 2 → blen b = 1 → blen c = 2 → let v := a ++ b ++ c ++ name in
  blen v = 5 + blen name ∧ slice 0 2 v = a ∧ byte_at 2 v = from_bytes b ∧ slice 3 5 v = c ∧
  slice 5 (blen v) v = name.
Proof.
  intros Ha Hb Hc v. split_and!.
  - unfold v. rewrite !blen_app. lia.
  - rewrite <-Ha. apply slice_prefix.
  - destruct a as [|a0 [|a1 [|]]]; unfold blen in Ha; cbn [length] in Ha; try lia.
    destruct b as [|b0 [|]]; unfold blen in Hb; cbn [length] in Hb; try lia. done.
  - unfold v. rewrite app_assoc. pose proof (slice_app (a ++ b) c name) as Hs.
    by rewrite !blen_app, Ha, Hb, Hc in Hs.
  - unfold v. rewrite !app_assoc. pose proof (slice_suffix ((a ++ b) ++ c) name) as Hs.
    by rewrite (blen_app (a ++ b) c), (blen_app a b), Ha, Hb, Hc in Hs.
Qed.

Lemma server_name_run name :
  5 + blen name < 65536 → is_ascii name = true → server_name (sni_value name) = Ok (lower name).
Proof.
  intros Hn Ha. pose proof (blen_nonneg name). unfold server_name, sni_value.
  destruct (sni_fields (be 2 (3 + blen name)) (be 1 0) (be 2 (blen name)) name)
    as (Hlen & -> & -> & -> & ->); [apply blen_be..|].
  rewrite Hlen, !from_bytes_be by
    (first [change (256 ^ Z.of_nat 2) with 65536|change (256 ^ Z.of_nat 1) with 256]; lia).
  rewrite (proj2 (Z.ltb_ge _ _)), !(proj2 (Z.eqb_eq _ _)) by lia. simpl. by rewrite Ha.
Qed.

Lemma server_name_inv value h :
  server_name value = Ok h → ∃ name, value = sni_value name ∧ is_ascii name = true ∧ h = lower name.
Proof.
  unfold server_name. case_match eqn:H1; [done|]. apply orb_false_iff in H1 as [Hlen%Z.ltb_ge H1].
  case_match eqn:H2; [done|]. case_match eqn:H3; [done|].
  apply negb_false_iff, Z.eqb_eq in H1, H2, H3.
  destruct (take_split value 2) as (a & r & -> & Ha & Hr); [lia|].
  destruct (take_split r 1) as (b & r' & -> & Hb & Hr'); [lia|].
  destruct (take_split r' 2) as (c & name & -> & Hc & Hn); [lia|].
  destruct (sni_fields a b c name) as (Hv & Es1 & Es2 & Es3 & Es4); [done..|].
  rewrite Es4. rewrite Es1, Hv in H1. rewrite Es2 in H2. rewrite Es3, Hv in H3.
  destruct (is_ascii name) eqn:Hasc; [|done]. intros [= <-]. exists name. split_and!; [|done|done].
  unfold sni_value. rewrite (be_read 2 a), (be_read 1 b), (be_read 2 c), H1, H2, H3 by done.
  repeat f_equal; lia.
Qed.

(** ** Extensions *)

Definition ext_ok (x : Z * bytes) : Prop := 0 ≤ x.1 < 65536 ∧ x.1 ≠ 0xfe0d ∧ blen x.2 < 65536.

(** What the SNI entries among [l] leave in [found]. *)
Definition finds (l : list (Z * bytes)) (found found' : option bytes) : Prop :=
  if decide (0 ∈ l.*1)
  then ∃ name, (0, sni_value name) ∈ l ∧ is_ascii name = true ∧ found' = Some (lower name)
  else found' = found.

(** The four header bytes of an extension. *)
Lemma header_fields a b : blen a = 2 → blen b = 2 →
  slice 0 2 (a ++ b) = a ∧ slice 2 (blen (a ++ b)) (a ++ b) = b.
Proof. intros <- _. split; [apply slice_prefix|apply slice_suffix]. Qed.

Lemma extensions_terminate fuel body p r found seen :
  remains body p r → blen r ≤ 4 * Z.of_nat fuel →
  ∃ o, extensions fuel body p found seen = Some o.
Proof.
  revert p r found seen. induction fuel as [|fuel IH]; intros p r found seen Hr Hf; cbn [extensions].
  - case_match eqn:Hc; [by eexists|]. apply negb_false_iff, Z.ltb_lt in Hc.
    destruct Hr as (_ & _ & Hr). pose proof (blen_nonneg r). lia.
  - case_match; [by eexists|]. destruct (segment body p 4) as [[header q]|] eqn:Hs; [|by eexists].
    destruct (segment_inv _ _ _ _ _ _ Hr Hs) as (r' & -> & Hl & Hr'). rewrite blen_app in Hf.
    case_bool_decide; [by eexists|].
    destruct (segment body q _) as [[value q']|] eqn:Hs'; [|by eexists].
    destruct (segment_inv _ _ _ _ _ _ Hr' Hs') as (r'' & -> & Hl' & Hr''). rewrite blen_app in Hf.
    pose proof (blen_nonneg value). case_match; [by eexists|]. case_match.
    + destruct (server_name value); [eapply IH; [done|lia]|by eexists].
    + eapply IH; [done|lia].
Qed.

Lemma remains_end body p r : remains body p r → blen body ≤ p → r = [] ∧ p = blen body.
Proof.
  intros (_ & _ & Hl) Hp. pose proof (blen_nonneg r).
  assert (blen r = 0) as Hr by lia. unfold blen in Hr.
  destruct r; [|cbn [length] in Hr; lia]. split; [done|]. change (blen []) with 0 in Hl. lia.
Qed.

Lemma finds_cons x l found f :
  x.1 ≠ 0 → finds l found f → finds (x :: l) found f.
Proof.
  unfold finds. intros Hx. rewrite fmap_cons. repeat case_decide; [|set_solver..|done].
  intros (name & ? & ?). exists name. set_solver.
Qed.

Lemma extensions_sound fuel body p r found seen f q :
  remains body p r → extensions fuel body p found seen = Some (Ok (f, q)) →
  ∃ l, r = concat (ext_bytes <$> l) ∧ q = blen body ∧ Forall ext_ok l ∧ NoDup l.*1 ∧
    (∀ t, t ∈ l.*1 → t ∉ seen) ∧ finds l found f.
Proof.
  revert p r found seen. induction fuel as [|fuel IH]; intros p r found seen Hr Hrun;
    cbn [extensions] in Hrun; (case_match eqn:Hc;
    [apply negb_true_iff, Z.ltb_ge in Hc; injection Hrun as <- <-;
     destruct (remains_end _ _ _ Hr Hc) as [-> ->]; exists []; split_and!; [done|done|done|apply NoDup_nil_2|by intros ? ?%elem_of_nil|done]|]); [done|].
  destruct (segment body p 4) as [[header q1]|] eqn:Hs; [|done].
  destruct (segment_inv _ _ _ _ _ _ Hr Hs) as (r' & -> & Hl & Hr').
  destruct (take_split header 2) as (a & b & -> & Ha & Hb); [lia|].
  destruct (header_fields a b Ha) as [Ea Eb]; [lia|]. rewrite Ea, Eb in Hrun.
  set (typ := from_bytes a) in *. case_bool_decide as Hnew; [done|].
  destruct (segment body q1 _) as [[value q2]|] eqn:Hs'; [|done].
  destruct (segment_inv _ _ _ _ _ _ Hr' Hs') as (r'' & -> & Hl' & Hr'').
  destruct (typ =? 0xfe0d) eqn:Hech; [done|]. apply Z.eqb_neq in Hech.
  pose proof (from_bytes_range a) as Hra. pose proof (from_bytes_range b) as Hrb.
  rewrite Ha in Hra. rewrite Hb, Hl in Hrb. change (256 ^ Z.of_nat 2) with 65536 in Hra.
  change (256 ^ (4 - Z.of_nat 2)) with 65536 in Hrb.
  assert (ext_ok (typ, value)) as Hok by (unfold ext_ok; simpl; lia).
  assert ((a ++ b) ++ value = ext_bytes (typ, value)) as Hx.
  { unfold ext_bytes. cbn [fst snd]. rewrite Hl'. unfold typ.
    rewrite <-(be_read 2 a), <-(be_read 2 b) by lia. by rewrite app_assoc. }
  assert (∀ found', extensions fuel body q2 found' (seen ++ [typ]) = Some (Ok (f, q)) →
    (∀ l, typ ∉ l.*1 → finds l found' f → finds ((typ, value) :: l) found f) →
    ∃ l, (a ++ b) ++ value ++ r'' = concat (ext_bytes <$> l) ∧ q = blen body ∧ Forall ext_ok l ∧
      NoDup l.*1 ∧ (∀ t, t ∈ l.*1 → t ∉ seen) ∧ finds l found f) as Hstep.
  { intros found' Hrest Hfind. destruct (IH _ _ _ _ Hr'' Hrest) as (l & -> & -> & Hall & Hnd & Hfr & Hf).
    assert (typ ∉ l.*1) by set_solver. exists ((typ, value) :: l). rewrite fmap_cons. cbn [concat].
    rewrite <-Hx, (app_assoc (a ++ b)). split_and!; [done|done|by constructor| | |by apply Hfind].
    - rewrite fmap_cons. by apply NoDup_cons.
    - rewrite fmap_cons. set_solver. }
  destruct (typ =? 0) eqn:H0.
  - apply Z.eqb_eq in H0. destruct (server_name value) as [h|] eqn:Hn; [|done].
    destruct (server_name_inv _ _ Hn) as (name & -> & Hasc & ->). eapply Hstep; [exact Hrun|].
    intros l Hl0 Hf. rewrite H0 in Hl0 |- *. unfold finds in *. rewrite decide_False in Hf by done.
    rewrite decide_True by set_solver. exists name. set_solver.
  - apply Z.eqb_neq in H0. eapply Hstep; [exact Hrun|]. intros l _. by apply finds_cons.
Qed.

Lemma extensions_complete fuel body p l found seen :
  remains body p (concat (ext_bytes <$> l)) → Forall ext_ok l → NoDup l.*1 →
  (∀ t, t ∈ l.*1 → t ∉ seen) →
  (∀ v, (0, v) ∈ l → ∃ name, v = sni_value name ∧ is_ascii name = true) → (length l ≤ fuel)%nat →
  ∃ f, extensions fuel body p found seen = Some (Ok (f, blen body)) ∧ finds l found f.
Proof.
  revert fuel p found seen. induction l as [|[typ value] l IH]; intros fuel p found seen Hr Hall Hnd Hfr Hsni Hf.
  { destruct Hr as (_ & _ & Hr). change (blen (concat _)) with 0 in Hr. exists found. split; [|done].
    assert (p = blen body) as -> by lia. destruct fuel; cbn [extensions]; by rewrite Z.ltb_irrefl. }
  destruct fuel as [|fuel]; [simpl in Hf; lia|]. cbn [length] in Hf. apply le_S_n in Hf.
  apply Forall_cons in Hall as [(Ht & Hech & Hv) Hall]. cbn [fst snd] in Ht, Hech, Hv.
  rewrite fmap_cons in Hnd, Hfr. apply NoDup_cons in Hnd as [Hni Hnd].
  rewrite fmap_cons in Hr. cbn [concat] in Hr. unfold ext_bytes at 1 in Hr. cbn [fst snd] in Hr.
  rewrite <-!app_assoc in Hr. cbn [extensions].
  rewrite (proj2 (Z.ltb_lt _ _)) by (destruct Hr as (_ & _ & Hr); rewrite !blen_app, !blen_be in Hr;
    pose proof (blen_nonneg value); pose proof (blen_nonneg (concat (ext_bytes <$> l))); lia).
  rewrite app_assoc in Hr. apply segment_run in Hr as [Hs Hr]. rewrite blen_app, !blen_be in Hs, Hr.
  change (Z.of_nat 2 + Z.of_nat 2) with 4 in Hs, Hr. rewrite Hs. cbn [negb].
  destruct (header_fields (be 2 typ) (be 2 (blen value))) as [-> ->]; [apply blen_be..|].
  pose proof (blen_nonneg value).
  rewrite !from_bytes_be by (change (256 ^ Z.of_nat 2) with 65536; lia).
  rewrite bool_decide_false by (apply Hfr; set_solver).
  apply segment_run in Hr as [Hs' Hr]. rewrite Hs'. rewrite (proj2 (Z.eqb_neq _ _) Hech).
  assert (∀ t, t ∈ l.*1 → t ∉ seen ++ [typ]) as Hfr' by set_solver.
  assert (∀ v, (0, v) ∈ l → ∃ name, v = sni_value name ∧ is_ascii name = true) as Hsni' by set_solver.
  destruct (typ =? 0) eqn:Ht0.
  - apply Z.eqb_eq in Ht0 as ->. destruct (Hsni value) as (name & -> & Hasc); [set_solver|].
    rewrite server_name_run; [|unfold sni_value in Hv; rewrite !blen_app, !blen_be in Hv; lia|done].
    destruct (IH fuel _ (Some (lower name)) _ Hr Hall Hnd Hfr' Hsni' Hf) as (f & Hrun & Hfi).
    exists f. split; [done|]. unfold finds in *. rewrite decide_False in Hfi by done. subst f.
    rewrite decide_True by set_solver. exists name. set_solver.
  - apply Z.eqb_neq in Ht0.
    destruct (IH fuel _ found _ Hr Hall Hnd Hfr' Hsni' Hf) as (f & Hrun & Hfi).
    exists f. split; [done|]. by apply finds_cons.
Qed.

(** ** The fixed fields *)

(** A byte string that starts with its handshake header. *)
Definition handshake (rest : bytes) : bytes := be 1 1 ++ be 3 (blen rest) ++ rest.

Record fields_ok (h : hello) : Prop := {
  fo_prologue : blen (prologue h) = 34;
  fo_session : blen (session h) < 256;
  fo_ciphers : 0 < blen (ciphers h) < 65536 ∧ blen (ciphers h) mod 2 = 0;
  fo_compression : 0 < blen (compression h) < 256;
}.

Ltac take_segment Hrun Hr v p r E L :=
  let Hs := fresh "Hs" in let H' := fresh "Hr" in
  apply outcome_bind_Ok in Hrun as ([v p] & Hs & Hrun);
  destruct (segment_inv _ _ _ _ _ _ Hr Hs) as (r & E & L & H'); clear Hr Hs; rename H' into Hr.

Lemma preamble_inv body rest p :
  remains body 4 rest → preamble body = Ok p →
  ∃ h blk, fields_ok h ∧ blk ≠ [] ∧ blen blk < 65536 ∧
    rest = encode_fields h ++ be 2 (blen blk) ++ blk ∧ remains body p blk.
Proof.
  unfold preamble. intros Hr Hrun.
  take_segment Hrun Hr pro p1 r1 E1 L1. take_segment Hrun Hr ss p2 r2 E2 L2.
  take_segment Hrun Hr sess p3 r3 E3 L3. take_segment Hrun Hr cs p4 r4 E4 L4.
  apply outcome_bind_Ok in Hrun as (? & [Hc1%Z.eqb_neq Hc2]%guard_or_Ok%negb_true_iff%orb_false_iff & Hrun).
  apply negb_false_iff, Z.eqb_eq in Hc2.
  take_segment Hrun Hr cip p5 r5 E5 L5. take_segment Hrun Hr ks p6 r6 E6 L6.
  apply outcome_bind_Ok in Hrun as (? & Hk%guard_or_Ok%negb_true_iff%Z.eqb_neq & Hrun).
  take_segment Hrun Hr comp p7 r7 E7 L7. take_segment Hrun Hr es p8 blk E8 L8.
  apply outcome_bind_Ok in Hrun as (? & [He1%Z.eqb_neq He2]%guard_or_Ok%negb_true_iff%orb_false_iff & Hrun).
  apply negb_false_iff, Z.eqb_eq in He2. injection Hrun as <-.
  rewrite byte_read in L3, L7, Hk by done.
  pose proof (from_bytes_range ss) as Rs. pose proof (from_bytes_range cs) as Rc.
  pose proof (from_bytes_range ks) as Rk. pose proof (from_bytes_range es) as Re.
  rewrite L2 in Rs. rewrite L4 in Rc. rewrite L6 in Rk. rewrite L8 in Re.
  change (256 ^ 1) with 256 in *. change (256 ^ 2) with 65536 in *.
  assert (blen blk = from_bytes es) as Lb by (destruct Hr as (_ & _ & Hl); lia).
  exists (mkHello 1 pro sess cip comp []), blk.
  split_and!; [constructor; cbn [prologue session ciphers compression]; rewrite ?L5; lia| |lia| |exact Hr].
  - intros ->. change (blen []) with 0 in Lb. lia.
  - subst rest r1 r2 r3 r4 r5 r6 r7. unfold encode_fields. cbn [prologue session ciphers compression].
    rewrite L3, L5, L7, Lb, <-(be_read 1 ss), <-(be_read 2 cs), <-(be_read 1 ks), <-(be_read 2 es) by done.
    by rewrite <-!app_assoc.
Qed.

Lemma preamble_run body h blk :
  fields_ok h → blk ≠ [] → blen blk < 65536 →
  remains body 4 (encode_fields h ++ be 2 (blen blk) ++ blk) →
  ∃ p, preamble body = Ok p ∧ remains body p blk.
Proof.
  intros [Hp Hs [Hc Hc2] Hk] Hne Hb. unfold encode_fields. rewrite <-!app_assoc. intros Hr.
  assert (0 < blen blk) by (destruct blk; [done|unfold blen; cbn [length]; lia]).
  pose proof (blen_nonneg (session h)).
  assert (∀ z, 0 ≤ z < 256 → byte_at 0 (be 1 z) = z) as Hbyte.
  { intros z Hz. rewrite byte_read by apply blen_be. by apply from_bytes_be. }
  assert (∀ z, 0 ≤ z < 65536 → from_bytes (be 2 z) = z) as Hword by (intros; by apply from_bytes_be).
  apply segment_run in Hr as [S1 Hr]. rewrite Hp in S1, Hr.
  apply segment_be in Hr as [S2 Hr]. apply segment_run in Hr as [S3 Hr].
  apply segment_be in Hr as [S4 Hr]. apply segment_run in Hr as [S5 Hr].
  apply segment_be in Hr as [S6 Hr]. apply segment_run in Hr as [S7 Hr].
  apply segment_be in Hr as [S8 Hr].
  change (Z.of_nat 1) with 1 in *. change (Z.of_nat 2) with 2 in *. eexists. split; [|exact Hr]. unfold preamble.
  change (2 + 32) with 34. rewrite S1. cbn [mbind outcome_bind]. rewrite S2. cbn [mbind outcome_bind].
  rewrite Hbyte by lia. rewrite S3. cbn [mbind outcome_bind]. rewrite S4. cbn [mbind outcome_bind].
  rewrite Hword by lia. rewrite (proj2 (Z.eqb_neq (blen (ciphers h)) 0)), Hc2 by lia.
  cbn [mbind outcome_bind guard_or negb orb Z.eqb]. rewrite S5. cbn [mbind outcome_bind].
  rewrite S6. cbn [mbind outcome_bind]. rewrite Hbyte, (proj2 (Z.eqb_neq (blen (compression h)) 0)) by lia.
  cbn [mbind outcome_bind guard_or negb]. rewrite S7. cbn [mbind outcome_bind].
  rewrite S8. cbn [mbind outcome_bind].
  rewrite Hword, (proj2 (Z.eqb_neq (blen blk) 0)), (proj2 (Z.eqb_eq _ (blen body))) by
    (destruct Hr as (_ & _ & Hl); lia). done.
Qed.

(** ** The record *)

Definition record_of (m : Z) (body : bytes) : bytes :=
  be 1 22 ++ be 1 3 ++ be 1 m ++ be 2 (blen body) ++ body.

(** The slices [framing] takes of a record and of a handshake. *)
Lemma record_slices a b c d body :
  blen a = 1 → blen b = 1 → blen c = 1 → blen d = 2 → let r := a ++ b ++ c ++ d ++ body in
  blen r = 5 + blen body ∧ byte_at 0 r = from_bytes a ∧ byte_at 1 r = from_bytes b ∧
  byte_at 2 r = from_bytes c ∧ slice 3 5 r = d ∧ slice 5 (blen r) r = body.
Proof.
  intros Ha Hb Hc Hd r. split.
  { unfold r. rewrite !blen_app. lia. }
  destruct a as [|a0 [|]], b as [|b0 [|]], c as [|c0 [|]]; unfold blen in Ha, Hb, Hc;
    cbn [length] in Ha, Hb, Hc; try lia. split_and!; [done..| |].
  - pose proof (slice_app [a0; b0; c0] d body) as Hs. by rewrite Hd in Hs.
  - pose proof (slice_suffix ([a0; b0; c0] ++ d) body) as Hs.
    by rewrite (blen_app [a0; b0; c0]), Hd, <-app_assoc in Hs.
Qed.

Lemma handshake_slices a b rest :
  blen a = 1 → blen b = 3 → let r := a ++ b ++ rest in
  blen r = 4 + blen rest ∧ byte_at 0 r = from_bytes a ∧ slice 1 4 r = b ∧ remains r 4 rest.
Proof.
  intros Ha Hb r. split.
  { unfold r. rewrite !blen_app. lia. }
  split_and!.
  - destruct a as [|a0 [|]]; unfold blen in Ha; cbn [length] in Ha; try lia. done.
  - pose proof (slice_app a b rest) as Hs. by rewrite Ha, Hb in Hs.
  - unfold r. rewrite app_assoc. pose proof (remains_skip ((a ++ b) ++ rest) 0 (a ++ b) rest) as Hs.
    rewrite blen_app, Ha, Hb in Hs. by apply Hs.
Qed.

Lemma framing_inv record body :
  framing record = Ok body →
  ∃ m rest, m ∈ [1; 2; 3; 4] ∧ body = handshake rest ∧ record = record_of m body ∧ blen body ≤ 16384 ∧
    remains body 4 rest.
Proof.
  unfold framing. intros Hrun. case_match eqn:H1; [done|].
  apply orb_false_iff in H1 as [H1%Z.ltb_ge H2%Z.ltb_ge]. case_match eqn:H3; [done|].
  apply orb_false_iff in H3 as [[H3 H4]%orb_false_iff H5].
  apply negb_false_iff in H3, H4, H5. apply Z.eqb_eq in H3, H4. apply bool_decide_eq_true in H5.
  case_match eqn:H6; [done|]. apply orb_false_iff in H6 as [H6%negb_false_iff%Z.eqb_eq H7%Z.ltb_ge].
  case_match eqn:H8; [done|]. apply orb_false_iff in H8 as [H8 H9].
  apply negb_false_iff, Z.eqb_eq in H8, H9. injection Hrun as Hbody.
  destruct (take_split record 1) as (a & r1 & -> & Ha & L1); [lia|].
  destruct (take_split r1 1) as (b & r2 & -> & Hb & L2); [lia|].
  destruct (take_split r2 1) as (c & r3 & -> & Hc & L3); [lia|].
  destruct (take_split r3 2) as (d & body' & -> & Hd & L4); [lia|].
  destruct (record_slices a b c d body' Ha Hb Hc Hd) as (El & Ea & Eb & Ec & Ed & Eb').
  rewrite Eb' in Hbody, H8, H9. subst body'. rewrite Ea in H3. rewrite Eb in H4. rewrite Ec in H5.
  rewrite Ed, El in H6. rewrite El in H1, H2.
  destruct (take_split body 1) as (x & r4 & -> & Hx & L5); [lia|].
  destruct (take_split r4 3) as (y & rest & -> & Hy & L6); [lia|].
  destruct (handshake_slices x y rest Hx Hy) as (El' & Ex & Ey & Hrem). rewrite Ex in H8. rewrite Ey, El' in H9.
  exists (from_bytes c), rest. split_and!; [done| | |lia|done].
  - unfold handshake. rewrite (be_read 1 x), (be_read 3 y), H8, H9 by done.
    by replace (4 + blen rest - 4) with (blen rest) by lia.
  - unfold record_of. rewrite (be_read 1 a), (be_read 1 b), (be_read 1 c), (be_read 2 d), H3, H4, H6 by done.
    rewrite from_bytes_be by (change (256 ^ Z.of_nat 1) with 256; pose proof (from_bytes_range c) as R;
      rewrite Hc in R; exact R). by rewrite Z.add_simpl_l.
Qed.

Lemma framing_run m rest :
  m ∈ [1; 2; 3; 4] → blen (handshake rest) ≤ 16384 →
  framing (record_of m (handshake rest)) = Ok (handshake rest) ∧ remains (handshake rest) 4 rest.
Proof.
  intros Hm Hl. assert (0 ≤ m < 256) as Hm' by (clear Hl; set_unfold; lia).
  pose proof (blen_nonneg rest). unfold record_of, framing.
  destruct (handshake_slices (be 1 1) (be 3 (blen rest)) rest (blen_be _ _) (blen_be _ _)) as (El & Ex & Ey & Hrem).
  fold (handshake rest) in El, Ex, Ey, Hrem. split; [|done].
  destruct (record_slices (be 1 22) (be 1 3) (be 1 m) (be 2 (blen (handshake rest))) (handshake rest)
    (blen_be _ _) (blen_be _ _) (blen_be _ _) (blen_be _ _)) as (Er & -> & -> & -> & -> & ->).
  rewrite Er, Ex, Ey. rewrite !from_bytes_be by
    (first [change (256 ^ Z.of_nat 1) with 256|change (256 ^ Z.of_nat 2) with 65536
           |change (256 ^ Z.of_nat 3) with 16777216]; lia).
  rewrite !(proj2 (Z.ltb_ge _ _)), bool_decide_true by (done || lia).
  by rewrite !(proj2 (Z.eqb_eq _ _)) by lia.
Qed.

(** ** Theorems *)

Lemma blen_exts l : 4 * Z.of_nat (length l) ≤ blen (concat (ext_bytes <$> l)).
Proof.
  induction l as [|x l IH]; [done|]. rewrite fmap_cons. cbn [concat length]. unfold ext_bytes at 1.
  rewrite !blen_app, !blen_be. pose proof (blen_nonneg x.2). lia.
Qed.

Lemma sni_value_inj name name' : sni_value name = sni_value name' → name = name'.
Proof.
  intros Hv. unfold sni_value in Hv.
  destruct (sni_fields (be 2 (3 + blen name)) (be 1 0) (be 2 (blen name)) name) as (_ & _ & _ & _ & E);
    [apply blen_be..|].
  destruct (sni_fields (be 2 (3 + blen name')) (be 1 0) (be 2 (blen name')) name') as (_ & _ & _ & _ & E');
    [apply blen_be..|]. by rewrite <-E, <-E', Hv.
Qed.

(** C26: the parser always returns: 4096 rounds of its extension loop are enough
    for every input, since a round consumes at least four of at most 16384
    bytes. *)
Theorem sni_parser_total fuel record :
  (4096 ≤ fuel)%nat → ∃ o, parse_tls_client_hello_sni fuel record = Some o.
Proof.
  intros Hf. unfold parse_tls_client_hello_sni. destruct (framing record) as [body|] eqn:Hfr; [|by eexists].
  apply framing_inv in Hfr as (m & rest & _ & _ & _ & Hl & Hr).
  destruct (preamble body) as [p|] eqn:Hp; [|by eexists].
  destruct (preamble_inv _ _ _ Hr Hp) as (_ & blk & _ & _ & _ & _ & Hrem).
  destruct (extensions_terminate fuel body p blk None [] Hrem) as [o ->].
  { destruct Hrem as (? & _ & ?). lia. }
  destruct o as [[[[|]|] ?]|]; repeat case_match; by eexists.
Qed.

(** C25: the parser accepts exactly the records that encode one complete
    ClientHello with distinct, unencrypted extensions and a single SNI entry
    holding a public DNS name, and returns that name in lower case. *)
Theorem sni_parser_exact fuel record h :
  (4096 ≤ fuel)%nat →
  (parse_tls_client_hello_sni fuel record = Some (Ok h) ↔
   ∃ x name, well_formed x ∧ names x name ∧ record = encode x ∧ h = lower name).
Proof.
  intros Hfuel. unfold parse_tls_client_hello_sni. split.
  - destruct (framing record) as [body|] eqn:Hfr; [|done].
    apply framing_inv in Hfr as (m & rest & Hm & Hbody & Hrec & Hl & Hr).
    destruct (preamble body) as [p|] eqn:Hp; [|done].
    destruct (preamble_inv _ _ _ Hr Hp) as (x & blk & [? ? ? ?] & Hne & Hb & Hrest & Hrem).
    destruct (extensions fuel body p None []) as [[[f q]|]|] eqn:He; [|done..].
    destruct (extensions_sound _ _ _ _ _ _ _ _ Hrem He) as (l & -> & -> & Hall & Hnd & _ & Hfind).
    unfold finds in Hfind. case_decide as H0; [|by subst f].
    destruct Hfind as (name & Hin & Hasc & ->). destruct (lower name) as [|c name'] eqn:Hlow; [done|].
    rewrite Z.eqb_refl. cbn [negb]. case_match eqn:Hv; [done|]. apply negb_false_iff in Hv. intros [= <-].
    assert (encode_body (mkHello m (prologue x) (session x) (ciphers x) (compression x) l) = body) as Henc
      by (by rewrite Hbody, Hrest).
    exists (mkHello m (prologue x) (session x) (ciphers x) (compression x) l), name.
    split_and!; [constructor; try done; by rewrite Henc|by rewrite <-Hlow in Hv| |done].
    unfold encode. by rewrite Henc.
  - intros (x & name & [Hm Hpro Hse Hci Hco Hall Hnd Hsize] & (Hin & Hasc & Hv) & -> & ->).
    set (blk := concat (ext_bytes <$> exts x)).
    destruct (framing_run (minor x) (encode_fields x ++ be 2 (blen blk) ++ blk) Hm Hsize) as [Hfr Hr].
    change (encode x) with (record_of (minor x) (handshake (encode_fields x ++ be 2 (blen blk) ++ blk))).
    rewrite Hfr. change (handshake _) with (encode_body x) in *.
    pose proof (blen_exts (exts x)) as Hlen. fold blk in Hlen.
    assert (0 < length (exts x))%nat by (destruct (exts x); [set_solver|simpl; lia]).
    assert (blen blk ≤ 16384) as Hblk by (destruct Hr as (_ & _ & Hr); rewrite !blen_app in Hr;
      pose proof (blen_nonneg (encode_fields x)); rewrite blen_be in Hr; lia).
    destruct (preamble_run (encode_body x) x blk) as (p & -> & Hrem);
      [by constructor|intros E; rewrite E in Hlen; change (blen []) with 0 in Hlen; lia|lia|done|].
    assert (∀ v, (0, v) ∈ exts x → v = sni_value name) as Huniq.
    { intros v Hv'. apply (dict_get_In _ _ _ Hnd) in Hv'. apply (dict_get_In _ _ _ Hnd) in Hin. congruence. }
    destruct (extensions_complete fuel (encode_body x) p (exts x) None []) as (f & -> & Hfind);
      [done|done|done|by intros ? _ ?%elem_of_nil|intros v ?%Huniq; eauto|lia|].
    unfold finds in Hfind. rewrite decide_True in Hfind by (apply list_elem_of_fmap; by exists (0, sni_value name)).
    destruct Hfind as (name' & Hin' & _ & ->). apply Huniq, sni_value_inj in Hin' as ->.
    destruct (lower name) as [|c s] eqn:Hlow; [by rewrite <-Hlow in Hv; rewrite Hlow in Hv|].
    by rewrite Z.eqb_refl, Hv.
Qed.
End sni.

(** ** A concrete record *)

Definition demo_name : bytes := lit "API.example.com".

Definition demo_hello : hello :=
  mkHello 1 (be 2 771 ++ replicate 32 "042"%char) (replicate 32 "007"%char) (be 2 4865 ++ be 2 4866) (be 1 0)
    [(0, sni_value demo_name); (43, be 1 2 ++ be 2 772); (10, be 2 2 ++ be 2 29)].

Definition demo_record : bytes := encode demo_hello.

Lemma demo_hello_ok : well_formed demo_hello.
Proof.
  split; try (vm_compute; intuition congruence).
  - apply list_elem_of_In. vm_compute. tauto.
  - repeat constructor; vm_compute; intuition congruence.
  - apply (bool_decide_unpack (NoDup (exts demo_hello).*1)). vm_compute. exact I.
Qed.

Lemma sni_parser_exact_witness :
  parse_tls_client_hello_sni (Z.to_nat 4096) demo_record = Some (Ok (lit "api.example.com")).
Proof.
  apply (sni_parser_exact (Z.to_nat 4096) demo_record (lit "api.example.com")); [lia|].
  exists demo_hello, demo_name. split_and!; [exact demo_hello_ok| |reflexivity|vm_compute; reflexivity].
  split_and!; [left|vm_compute; reflexivity..].
Defined.

Lemma sni_parser_total_witness :
  ∃ o, parse_tls_client_hello_sni (Z.to_nat 4096) demo_record = Some o.
Proof. apply (sni_parser_total (Z.to_nat 4096) demo_record). lia. Defined.

(** A name past the end of its list, a repeated extension and an encrypted
    ClientHello are refused. *)
Example ech_refused :
  parse_tls_client_hello_sni 9 (encode (mkHello 1 (prologue demo_hello) [] (be 2 4865) (be 1 0)
    [(0, sni_value demo_name); (0xfe0d, [])])) = Some (bad "ECH cannot be inspected by this proxy").
Proof. vm_compute. reflexivity. Qed.

Example duplicate_refused :
  parse_tls_client_hello_sni 9 (encode (mkHello 1 (prologue demo_hello) [] (be 2 4865) (be 1 0)
    [(0, sni_value demo_name); (0, sni_value demo_name)])) = Some (bad "duplicate TLS extension").
Proof. vm_compute. reflexivity. Qed.
