(* ===== verification/Connect.v ===== *)
(** * The CONNECT relay

    [proxy/restricted_connect.py]: one client connection of the outbound proxy,
    from its first byte to the end of the tunnel.  [conn] is what the code
    reads and writes on the client's and the upstream's stream; the resolver,
    the reachable addresses, the client's certificate and how the two copying
    tasks end are given by [peer].  A client that stops sending is read as one
    that closed: the code handles its [TimeoutError] and [IncompleteReadError]
    alike. *)

From stdpp Require Import base list sets strings.
From Stdlib Require Import ZArith Lia Ascii.
From S2P Require Import Prelude Bytes Egress TlsSni.

#[local] Open Scope Z_scope.

Record conn := mkConn {
  inbox : bytes;                    (* what the client sends *)
  outbox : bytes;                   (* what it is sent *)
  dialed : list (bytes * Z);        (* connection attempts *)
  upstream : option (bytes * Z);
  forwarded : bytes;                (* what the upstream is sent *)
  closing : bool;                   (* [writer.is_closing()] *)
}.

(** How [asyncio.gather] of the two relays ends: the bytes each copied and, if
    one failed, whether the client's writer was closed by then. *)
Record tunnel_end := mkEnd { copied_up : nat; copied_down : bytes; broken : option bool }.

Record peer := mkPeer {
  ssl_object : option (option bytes);
  lookup : bytes → Z → outcome (list answer);
  reachable : bytes → Z → bool;
  tunnel : tunnel_end;
}.

Definition crlf : bytes := ["013"; "010"]%char.
Definition established : bytes := lit "HTTP/1.1 200 Connection Established" ++ crlf ++ crlf.
Definition forbidden : bytes :=
  lit "HTTP/1.1 403 Forbidden" ++ crlf ++ lit "Content-Length: 0" ++ crlf ++
  lit "Connection: close" ++ crlf ++ crlf.

Definition set_inbox x c := mkConn x (outbox c) (dialed c) (upstream c) (forwarded c) (closing c).
Definition write (b : bytes) : M conn unit := modify (fun c =>
  mkConn (inbox c) (outbox c ++ b) (dialed c) (upstream c) (forwarded c) (closing c)).
Definition forward (b : bytes) : M conn unit := modify (fun c =>
  mkConn (inbox c) (outbox c) (dialed c) (upstream c) (forwarded c ++ b) (closing c)).

(** [reader.readuntil(b"\r\n\r\n")] of a reader made with [limit=8192]. *)
Definition readuntil : M conn bytes := fun c =>
  match find_bytes (crlf ++ crlf) (inbox c) with
  | Some i => if Z.of_nat i <=? 8192 then (Ok (take (i + 4) (inbox c)), set_inbox (drop (i + 4) (inbox c)) c)
              else (Raise LimitOverrunError, c)
  | None => (Raise (if 8192 <? blen (inbox c) - 3 then LimitOverrunError else IncompleteReadError), c)
  end.

Definition readexactly (n : Z) : M conn bytes := fun c =>
  if blen (inbox c) <? n then (Raise IncompleteReadError, c)
  else (Ok (take (Z.to_nat n) (inbox c)), set_inbox (drop (Z.to_nat n) (inbox c)) c).

(** ** The request *)

(** [lines[1:-2]]. *)
Definition header_lines (lines : list bytes) : list bytes := drop 1 (take (length lines - 2) lines).

Definition header_name_char (c : ascii) : bool := is_alpha c || is_digit c || (byte_val c =? 45).

Definition framing_headers : list bytes :=
  lit <$> ["transfer-encoding"; "content-length"; "proxy-connection"; "upgrade"; "connection"].

Definition check_header (line : bytes) : outcome unit :=
  if bool_decide ("000"%char ∈ line) then denied "NUL in HTTP header"
  else match cut ":" line with
       | None => denied "malformed header field"
       | Some (name, _) =>
           if bool_decide (name = []) || negb (forallb header_name_char name)
           then denied "invalid header name"
           else if bool_decide (lower name ∈ framing_headers)
           then denied "framing or connection headers forbidden on CONNECT"
           else Ok tt
       end.

Fixpoint check_headers (lines : list bytes) : outcome unit :=
  match lines with
  | [] => Ok tt
  | line :: lines => _ ← check_header line; check_headers lines
  end.

(** A continuation line, or a line that is no field. *)
Definition malformed (line : bytes) : bool :=
  negb (bool_decide (line = [])) &&
  (starts_with [" "%char] line || starts_with ["009"%char] line || negb (bool_decide (":"%char ∈ line))).

(** [[line.split(b":", 1)[1].strip() for line in ... if line.lower().startswith(name)]]. *)
Definition field_values (name : bytes) (lines : list bytes) : list bytes :=
  (fun line => strip_bytes (default [] (snd <$> cut ":" line))) <$>
  filter (fun line => starts_with name (lower line) = true) lines.

(** The request line's target, the only one of a CONNECT. *)
Definition request_target (lines : list bytes) : outcome bytes :=
  if (Z.of_nat (length lines) <? 3) || (32 <? Z.of_nat (length lines))
  then denied "malformed request headers"
  else
    let request := default [] (head lines) in
    if negb (is_ascii request) then denied "non-ASCII request"
    else match split_byte " " request with
         | [verb; target; version] =>
             if bool_decide (verb = lit "CONNECT" ∧ version = lit "HTTP/1.1") then Ok target
             else denied "CONNECT is the only supported method"
         | _ => denied "CONNECT is the only supported method"
         end.

Section relay.
Context `{IpAddress} (spki_sha256 : bytes → option bytes).

(** Every check of the request: the authorized host and port. *)
Definition check_request (hosts : list bytes) (auth_token : option bytes) (header : bytes)
  : outcome (bytes * Z) :=
  _ ← guard_or (blen header <=? 8192) (EgressDenied "oversized headers");
  let lines := split_crlf header in
  target ← request_target lines;
  let fields := header_lines lines in
  _ ← guard_or (negb (existsb malformed fields)) (EgressDenied "malformed HTTP headers");
  _ ← check_headers fields;
  _ ← match auth_token with
      | None => Ok tt
      | Some token =>
          guard_or (bool_decide (field_values (lit "proxy-authorization:") fields = [lit "Bearer " ++ token]))
                   (EgressDenied "proxy caller not authenticated")
      end;
  '(host, port) ← parse_connect_target target hosts;
  _ ← guard_or (bool_decide (lower <$> field_values (lit "host:") fields = [lower target]))
               (EgressDenied "Host header must match CONNECT authority");
  Ok (host, port).

(** [for ip in addresses: ... open_connection]. *)
Fixpoint dial (p : peer) (addresses : list bytes) (port : Z) : M conn unit :=
  match addresses with
  | [] => raise (EgressDenied "destination unavailable")
  | ip :: rest => fun c =>
      let c := mkConn (inbox c) (outbox c) (dialed c ++ [(ip, port)]) (upstream c) (forwarded c) (closing c) in
      if reachable p ip port
      then (Ok tt, mkConn (inbox c) (outbox c) (dialed c) (Some (ip, port)) (forwarded c) (closing c))
      else dial p rest port c
  end.

(** Enough rounds for every record (a round consumes four of 16384 bytes). *)
Definition rounds : nat := Z.to_nat 4096.

Definition sni (record : bytes) : outcome bytes :=
  match parse_tls_client_hello_sni rounds record with
  | Some o => o
  | None => bad "unbounded ClientHello"
  end.

(** The first TLS record, checked before anything is forwarded. *)
Definition first_record (host : bytes) : M conn bytes :=
  record_head ← readexactly 5;
  let record_size := from_bytes (slice 3 5 record_head) in
  _ ← ensure (negb ((record_size <? 4) || (16384 <? record_size))) (EgressDenied "invalid bounded TLS record");
  rest ← readexactly record_size;
  let record := record_head ++ rest in
  name ← lift (sni record);
  _ ← ensure (bool_decide (name = host)) (EgressDenied "CONNECT authority and TLS SNI mismatch");
  mret record.

(** The two relays. *)
Definition relay (t : tunnel_end) : M conn unit := fun c =>
  let c' := mkConn (drop (copied_up t) (inbox c)) (outbox c ++ copied_down t) (dialed c) (upstream c)
    (forwarded c ++ take (copied_up t) (inbox c)) (default true (broken t)) in
  match broken t with None => (Ok tt, c') | Some _ => (Raise (OSError "relay"), c') end.

(** The body of the [try]. *)
Definition serve (hosts : list bytes) (auth_token : option bytes) (allowed_workload_spki : option (list bytes))
    (p : peer) : M conn unit :=
  _ ← lift (match allowed_workload_spki with
            | None => Ok []
            | Some allowed => validate_workload spki_sha256 (ssl_object p) allowed
            end);
  header ← readuntil;
  '(host, port) ← lift (check_request hosts auth_token header);
  addresses ← lift (resolve_global_addresses (lookup p host port));
  _ ← dial p addresses port;
  _ ← write established;
  record ← first_record host;
  _ ← forward record;
  relay (tunnel p).

Definition caught (e : pyexn) : bool :=
  is_value_error e ||
  match e with IncompleteReadError | LimitOverrunError | TimeoutError _ | OSError _ => true | _ => false end.

Definition serve_client (hosts : list bytes) (auth_token : option bytes)
    (allowed_workload_spki : option (list bytes)) (p : peer) : M conn unit := fun c =>
  let '(r, c1) := serve hosts auth_token allowed_workload_spki p c in
  let close c := mkConn (inbox c) (outbox c) (dialed c) (upstream c) (forwarded c) true in
  match r with
  | Ok _ => (Ok tt, close c1)
  | Raise e => if caught e then (Ok tt, close (if closing c1 then c1 else (write forbidden c1).2))
               else (Raise e, close c1)
  end.

(** ** Theorems *)

(** What [check_request] and [validate_workload] established about a caller
    that may reach [host]. *)
Record admitted (hosts : list bytes) (auth_token : option bytes) (allowed : option (list bytes))
    (p : peer) (header host : bytes) : Prop := {
  ad_target : ∃ name, request_target (split_crlf header) = Ok (name ++ lit ":443") ∧
    valid_dns_name name = true ∧ host = lower name ∧
    lower <$> field_values (lit "host:") (header_lines (split_crlf header)) = [lower (name ++ lit ":443")];
  ad_host : host ∈ hosts;
  ad_token : ∀ token, auth_token = Some token →
    field_values (lit "proxy-authorization:") (header_lines (split_crlf header)) = [lit "Bearer " ++ token];
  ad_workload : ∀ l, allowed = Some l → ∃ cert digest, ssl_object p = Some (Some cert) ∧
    spki_sha256 cert = Some digest ∧ digest ∈ l;
}.

Lemma validate_workload_inv o l d :
  validate_workload spki_sha256 o l = Ok d →
  ∃ cert, o = Some (Some cert) ∧ spki_sha256 cert = Some d ∧ d ∈ l.
Proof.
  unfold validate_workload, client_spki_sha256. case_bool_decide; [done|].
  destruct o as [[[|c cert]|]|]; simpl; [done| |done..].
  destruct (spki_sha256 (c :: cert)) as [digest|] eqn:Hd; simpl; [|done].
  case_bool_decide; [|done]. intros [= <-]. by exists (c :: cert).
Qed.

Lemma check_request_inv hosts auth_token header host port :
  check_request hosts auth_token header = Ok (host, port) →
  port = 443 ∧ host ∈ hosts ∧
  (∀ token, auth_token = Some token →
    field_values (lit "proxy-authorization:") (header_lines (split_crlf header)) = [lit "Bearer " ++ token]) ∧
  ∃ name, request_target (split_crlf header) = Ok (name ++ lit ":443") ∧ valid_dns_name name = true ∧
    host = lower name ∧
    lower <$> field_values (lit "host:") (header_lines (split_crlf header)) = [lower (name ++ lit ":443")].
Proof.
  unfold check_request. intros Hrun.
  apply outcome_bind_Ok in Hrun as (? & _ & Hrun). apply outcome_bind_Ok in Hrun as (target & Ht & Hrun).
  apply outcome_bind_Ok in Hrun as (? & _ & Hrun). apply outcome_bind_Ok in Hrun as (? & _ & Hrun).
  apply outcome_bind_Ok in Hrun as (? & Hauth & Hrun).
  apply outcome_bind_Ok in Hrun as ([h q] & Hc & Hrun).
  apply outcome_bind_Ok in Hrun as (? & Hhost%guard_or_Ok%bool_decide_eq_true & Hrun). injection Hrun as -> ->.
  apply connect_target_exact in Hc as (name & -> & Hv & -> & Hin & ->).
  split_and!; [done|done| |by exists name].
  intros token ->. by apply guard_or_Ok, bool_decide_eq_true in Hauth.
Qed.

Lemma dial_effect p addresses port c r c' :
  dial p addresses port c = (r, c') →
  inbox c' = inbox c ∧ outbox c' = outbox c ∧ forwarded c' = forwarded c ∧ closing c' = closing c ∧
  (addresses ≠ [] → dialed c' ≠ []) ∧
  match r with Ok _ => is_Some (upstream c') | Raise _ => upstream c' = upstream c end ∧
  (∀ x, x ∈ dialed c' → x ∈ dialed c ∨ ∃ ip, ip ∈ addresses ∧ x = (ip, port)).
Proof.
  revert c. induction addresses as [|ip addresses IH]; intros c; cbn [dial].
  { intros [= <- <-]. naive_solver. }
  destruct (reachable p ip port) eqn:Hr; intros Hrun.
  - injection Hrun as <- <-. cbn. split_and!; try done.
    + intros _ Hnil. by apply app_eq_nil in Hnil as [_ ?].
    + intros x [?|Hx%list_elem_of_singleton]%elem_of_app; [by left|right]. exists ip. set_solver.
  - destruct (IH _ Hrun) as (-> & -> & -> & -> & Hne & Hup & Hd). cbn in *. split_and!; try done.
    + intros _. destruct addresses as [|ip' l]; [|by apply Hne].
      injection Hrun as _ <-. cbn. by intros [_ ?]%app_eq_nil.
    + intros x Hx. destruct (Hd x Hx) as [[?|Hx'%list_elem_of_singleton]%elem_of_app|(y & ? & ?)];
        [by left|right; exists ip; set_solver|right; exists y; set_solver].
Qed.

Lemma readexactly_effect n c r c' :
  readexactly n c = (r, c') →
  (outbox c' = outbox c ∧ upstream c' = upstream c ∧ closing c' = closing c) ∧ dialed c' = dialed c ∧ forwarded c' = forwarded c.
Proof. unfold readexactly. case_match; by intros [= <- <-]. Qed.

Lemma first_record_effect host c r c' :
  first_record host c = (r, c') →
  (outbox c' = outbox c ∧ upstream c' = upstream c ∧ closing c' = closing c) ∧ dialed c' = dialed c ∧ forwarded c' = forwarded c ∧
  match r with Ok record => sni record = Ok host | Raise _ => True end.
Proof.
  unfold first_record. rewrite run_bind. destruct (readexactly 5 c) as [[h|e] c1] eqn:H1;
    apply readexactly_effect in H1 as ((E1 & Eu & Ec) & E2 & E3); [|by intros [= <- <-]].
  rewrite run_bind. unfold ensure at 1. destruct (negb _); cbv beta iota delta [mret M_ret raise]; [|by intros [= <- <-]].
  rewrite run_bind. destruct (readexactly _ c1) as [[rest|e] c2] eqn:H2;
    apply readexactly_effect in H2 as ((F1 & Fu & Fc) & F2 & F3); [|intros [= <- <-]; by rewrite F1, Fu, Fc, F2, F3].
  rewrite run_bind. unfold lift.
  destruct (sni _) as [name|] eqn:Hs; cbv beta iota delta [mret M_ret raise]; [|intros [= <- <-]; by rewrite F1, Fu, Fc, F2, F3].
  rewrite run_bind. unfold ensure.
  case_bool_decide; intros [= <- <-]; rewrite F1, Fu, Fc, F2, F3; [by subst name|done].
Qed.

(** The connections a run made, and what it forwarded on them. *)
Definition guarded (hosts : list bytes) (auth_token : option bytes) (allowed : option (list bytes))
    (p : peer) (input : bytes) (c' : conn) : Prop :=
  (dialed c' = [] → forwarded c' = []) ∧
  (dialed c' ≠ [] → ∃ header more host results,
    input = header ++ more ∧ admitted hosts auth_token allowed p header host ∧
    lookup p host 443 = Ok results ∧ (∀ r, r ∈ results → ∃ ip, public_answer r ip) ∧
    (∀ ip port, (ip, port) ∈ dialed c' → port = 443 ∧ ∃ r, r ∈ results ∧ public_answer r ip) ∧
    (forwarded c' ≠ [] → ∃ record rest, forwarded c' = record ++ rest ∧ sni record = Ok host)).

Lemma readuntil_effect c r c' :
  readuntil c = (r, c') →
  (outbox c' = outbox c ∧ upstream c' = upstream c) ∧ dialed c' = dialed c ∧ forwarded c' = forwarded c ∧ closing c' = closing c ∧
  match r with Ok header => inbox c = header ++ inbox c' | Raise _ => True end.
Proof.
  unfold readuntil. case_match; [case_match|]; intros [= <- <-]; [|done..].
  cbn. by rewrite take_drop.
Qed.

(** A run that forwarded nothing raised, and told the client at most that the
    connection it made is established. *)
Definition turned_away (r : outcome unit) (c' : conn) : Prop :=
  (dialed c' = [] → upstream c' = None) ∧
  (forwarded c' = [] → closing c' = false ∧ (∃ e, r = Raise e) ∧
     outbox c' = match upstream c' with None => [] | Some _ => established end).

(** A connection still as it came. *)
Definition pristine (c : conn) : Prop :=
  outbox c = [] ∧ dialed c = [] ∧ forwarded c = [] ∧ closing c = false ∧ upstream c = None.

Lemma pristine_guarded hosts auth_token allowed p input e c :
  pristine c → guarded hosts auth_token allowed p input c ∧ turned_away (Raise e) c.
Proof.
  intros (Ho & Hd & Hf & Hc & Hu). split; [unfold guarded; naive_solver|].
  split; [done|]. intros _. rewrite Ho, Hu. by split_and!; [|exists e|].
Qed.

Lemma serve_effect hosts auth_token allowed p c r c' :
  pristine c → serve hosts auth_token allowed p c = (r, c') →
  guarded hosts auth_token allowed p (inbox c) c' ∧ turned_away r c'.
Proof.
  intros Hpr. unfold serve. rewrite run_bind. unfold lift at 1.
  destruct (match allowed with None => _ | Some _ => _ end) as [ws|e] eqn:Hw;
    cbv beta iota delta [mret M_ret raise]; [|intros [= <- <-]; by apply pristine_guarded].
  rewrite run_bind. destruct (readuntil c) as [[header|e] c1] eqn:Hr;
    apply readuntil_effect in Hr as ((Eo & Eu) & Ed & Ef & Ec & Hin);
    (assert (pristine c1) as Hp1 by (unfold pristine in *; rewrite Eo, Eu, Ed, Ef, Ec; done));
    [|intros [= <- <-]; by apply pristine_guarded].
  rewrite run_bind. unfold lift at 1.
  destruct (check_request hosts auth_token header) as [[host port]|e] eqn:Hq;
    [|intros [= <- <-]; by apply pristine_guarded].
  apply check_request_inv in Hq as (-> & Hhost & Htok & Htar). rewrite run_bind. unfold lift at 1.
  destruct (lookup p host 443) as [results|e] eqn:Hl;
    [|destruct e; intros [= <- <-]; by apply pristine_guarded].
  destruct (resolve_global_addresses (Ok results)) as [addresses|e] eqn:Ha;
    [|intros [= <- <-]; by apply pristine_guarded].
  apply pinned_addresses_public in Ha as (Hne & _ & Hall & Hpub).
  assert (admitted hosts auth_token allowed p header host) as Hadm.
  { split; [done|done|done|]. intros l ->. destruct (validate_workload_inv _ _ _ Hw) as (cert & ? & ? & ?).
    by exists cert, ws. }
  rewrite run_bind. destruct (dial p addresses 443 c1) as [rd c2] eqn:Hdial.
  destruct Hp1 as (Ho1 & Hd1 & Hf1 & Hc1 & Hu1).
  apply dial_effect in Hdial as (_ & Eo2 & Ef2 & Ec2 & Hne2 & Hup2 & Hd2). specialize (Hne2 Hne).
  rewrite Ho1 in Eo2. rewrite Hf1 in Ef2. rewrite Hc1 in Ec2.
  assert (∀ ip port, (ip, port) ∈ dialed c2 → port = 443 ∧ ∃ r, r ∈ results ∧ public_answer r ip) as Hconn.
  { intros ip port Hx. destruct (Hd2 _ Hx) as [Hx'|(ip' & Hip & [= -> ->])]; [|by split; [|apply Hpub]].
    rewrite Hd1 in Hx'. by apply elem_of_nil in Hx'. }
  assert (∀ cx, dialed cx = dialed c2 →
    (forwarded cx ≠ [] → ∃ record rest, forwarded cx = record ++ rest ∧ sni record = Ok host) →
    guarded hosts auth_token allowed p (inbox c) cx) as Hgoal.
  { intros cx Ex Hfw. split; rewrite Ex; [done|]. intros _.
    exists header, (inbox c1), host, results. split_and!; try done.
    intros q Hqin. destruct (Hall q Hqin) as (ip & ? & _). by exists ip. }
  destruct rd as [[]|e].
  2: { intros [= <- <-]. split; [apply Hgoal; [done|by rewrite Ef2]|]. split; [done|]. intros _.
       rewrite Hup2, Hu1, Eo2. by split_and!; [|exists e|]. }
  rewrite run_bind. unfold write, modify at 1. rewrite run_bind.
  match goal with |- context [first_record host ?x] => set (c3 := x) end.
  destruct (first_record host c3) as [[record|e] c4] eqn:Hfr;
    apply first_record_effect in Hfr as ((Eo4 & Eu4 & Ec4) & Ed4 & Ef4 & Hsni); cbn in Eo4, Eu4, Ec4, Ed4, Ef4; rewrite Ef2 in Ef4.
  2: { intros [= <- <-]. split; [apply Hgoal; [done|by rewrite Ef4]|]. destruct Hup2 as [y Hy].
       split; [by rewrite Ed4|]. intros _. rewrite Eu4, Hy, Eo4, Eo2, Ec4. by split_and!; [|exists e|]. }
  assert (record ≠ []) as Hrec by (intros ->; vm_compute in Hsni; done).
  rewrite run_bind. unfold forward, modify. unfold relay.
  destruct (broken (tunnel p)); intros [= <- <-]; (split;
    [apply Hgoal; cbn; try done; intros _; rewrite Ef4; eexists record, _; by rewrite app_nil_l
    |split; cbn; [by rewrite Ed4|rewrite Ef4, app_nil_l; by intros [? _]%app_eq_nil]]).
Qed.

(** ** Exceptions *)

(** [o], and the program [m], raise only what the handler catches. *)
Definition contained {A} (o : outcome A) : Prop := ∀ e, o = Raise e → caught e = true.
Definition handled {A} (m : M conn A) : Prop := ∀ c, contained (m c).1.

Lemma contained_Ok {A} (a : A) : contained (Ok a).
Proof. by intros e. Qed.
Lemma contained_Raise {A} e : caught e = true → contained (Raise (A := A) e).
Proof. by intros ? ? [= <-]. Qed.
Lemma contained_guard b e : caught e = true → contained (guard_or b e).
Proof. intros He. destruct b; [apply contained_Ok|by apply contained_Raise]. Qed.
Lemma contained_bind {A B} (o : outcome A) (f : A → outcome B) :
  contained o → (∀ a, contained (f a)) → contained (o ≫= f).
Proof. intros Ho Hf e. destruct o as [a|x]; simpl; [apply Hf|]. intros [= <-]. by apply Ho. Qed.
Lemma handled_lift {A} (o : outcome A) : contained o → handled (lift o).
Proof. by intros Ho c. Qed.
Lemma handled_ensure b e : caught e = true → handled (ensure b e).
Proof. intros He c. unfold ensure. destruct b; [apply contained_Ok|by apply contained_Raise]. Qed.
Lemma handled_bind {A B} (m : M conn A) (f : A → M conn B) :
  handled m → (∀ a, handled (f a)) → handled (m ≫= f).
Proof.
  intros Hm Hf c. rewrite run_bind. specialize (Hm c). destruct (m c) as [[a|e] c1]; simpl in *; [apply Hf|].
  apply contained_Raise. by apply Hm.
Qed.
#[local] Hint Resolve contained_Ok contained_Raise contained_guard contained_bind handled_lift
  handled_ensure handled_bind : core.

Ltac contain := repeat (intros; case_match || (progress simplify_eq)); auto.

Lemma contained_segment data start width : contained (segment data start width).
Proof. unfold segment, bad. contain. Qed.
#[local] Hint Resolve contained_segment : core.

Lemma contained_extensions fuel body p found seen e :
  extensions fuel body p found seen = Some (Raise e) → caught e = true.
Proof.
  revert p found seen. induction fuel as [|fuel IH]; intros p found seen; cbn [extensions];
    case_match; [done|done|done|]. destruct (segment body p 4) as [[header q]|x] eqn:Hs.
  - case_bool_decide; [by intros [= <-]|].
    destruct (segment body q _) as [[value q']|x] eqn:Hs'.
    + case_match; [by intros [= <-]|]. case_match; [|apply IH].
      destruct (server_name value) as [name|x] eqn:Hn; [apply IH|]. intros [= <-].
      unfold server_name, bad in Hn. repeat (case_match; simplify_eq); done.
    + intros [= <-]. by eapply contained_segment.
  - intros [= <-]. by eapply contained_segment.
Qed.

Lemma contained_sni record : contained (sni record).
Proof.
  unfold sni. destruct (parse_tls_client_hello_sni rounds record) as [o|] eqn:Hp; [|by apply contained_Raise].
  unfold parse_tls_client_hello_sni in Hp. intros e ->. destruct (framing record) as [body|x] eqn:Hf.
  - destruct (preamble body) as [q|x] eqn:Hq.
    + destruct (extensions rounds body q None []) as [[[f r]|x]|] eqn:He; [| |done].
      * unfold bad in Hp. repeat (case_match; simplify_eq); done.
      * injection Hp as ->. by eapply contained_extensions.
    + injection Hp as ->. assert (contained (preamble body)) as Hc; [|by apply Hc].
      unfold preamble. repeat (apply contained_bind; [auto|intros; repeat case_match]); auto.
  - injection Hp as ->. unfold framing, bad in Hf. repeat (case_match; simplify_eq); done.
Qed.
#[local] Hint Resolve contained_sni : core.

Lemma contained_request hosts auth_token header : contained (check_request hosts auth_token header).
Proof.
  assert (∀ lines, contained (check_headers lines)) as Hh.
  { induction lines as [|line lines IH]; simpl; [auto|]. apply contained_bind; [|auto].
    unfold check_header, denied. contain. }
  unfold check_request. apply contained_bind; [auto|]. intros _. apply contained_bind.
  { unfold request_target, denied. contain. }
  intros target. apply contained_bind; [auto|]. intros _. apply contained_bind; [auto|]. intros _.
  apply contained_bind; [destruct auth_token; auto|]. intros _. apply contained_bind.
  { unfold parse_connect_target, denied. contain. }
  intros [host port]. auto.
Qed.

Lemma contained_resolve lookup : contained lookup → contained (resolve_global_addresses lookup).
Proof.
  intros Hl. assert (∀ results l, contained (pin results l)) as Hp.
  { induction results as [|r results IH]; intros l; simpl; [auto|]. unfold denied. contain. }
  unfold resolve_global_addresses, denied. destruct lookup as [[|r results]|[]]; auto;
    apply contained_Raise; by apply Hl.
Qed.

Lemma serve_handled hosts auth_token allowed p :
  (∀ host port, contained (lookup p host port)) → handled (serve hosts auth_token allowed p).
Proof.
  intros Hl. unfold serve. apply handled_bind.
  { apply handled_lift. destruct allowed; [|auto]. unfold validate_workload, no_workload.
    case_bool_decide; [auto|]. case_match; [|auto]. apply contained_bind.
    - unfold client_spki_sha256, no_workload. contain.
    - contain. }
  intros _. apply handled_bind.
  { intros c. unfold readuntil. repeat case_match; cbn [fst]; auto. }
  intros header. apply handled_bind; [apply handled_lift, contained_request|].
  intros [host port]. apply handled_bind; [by apply handled_lift, contained_resolve|].
  intros addresses. apply handled_bind.
  { induction addresses as [|ip l IH]; cbn [dial]; intros c; [by apply contained_Raise|].
    case_match; [apply contained_Ok|apply IH]. }
  intros _. apply handled_bind; [intros c; apply contained_Ok|]. intros _. apply handled_bind.
  { unfold first_record. apply handled_bind; [intros c; unfold readexactly; case_match; cbn [fst]; auto|].
    intros h. apply handled_bind; [auto|]. intros _.
    apply handled_bind; [intros c; unfold readexactly; case_match; cbn [fst]; auto|]. intros r.
    apply handled_bind; [auto|]. intros name. apply handled_bind; [auto|]. intros _ c. apply contained_Ok. }
  intros record. apply handled_bind; [intros c; apply contained_Ok|].
  intros _ c. unfold relay. case_match; cbn [fst]; auto.
Qed.

(** C24: on a fresh client connection the relay always completes, if the resolver
    raises only what the handler catches.  It opens no upstream connection except
    to port 443 of a public address of an allowlisted host named by a request
    that carries the bearer token, where one is configured, from a client whose
    certificate is pinned, where workload keys are configured; and it forwards
    nothing before a ClientHello whose SNI is that host.  A client for which
    nothing was forwarded gets exactly the 403 when no upstream connection was
    made (so always when none was tried), and exactly the connection's 200
    followed by the 403 when one was, as after a bad ClientHello or a mismatched
    SNI; then the connection is closed. *)
Theorem tunnel_guarded hosts auth_token allowed p c :
  pristine c → (∀ host port e, lookup p host port = Raise e → caught e = true) →
  ∃ c', serve_client hosts auth_token allowed p c = (Ok tt, c') ∧ closing c' = true ∧
    guarded hosts auth_token allowed p (inbox c) c' ∧ (dialed c' = [] → upstream c' = None) ∧
    (forwarded c' = [] →
       outbox c' = match upstream c' with None => forbidden | Some _ => established ++ forbidden end).
Proof.
  intros Hpr Hlook. unfold serve_client.
  pose proof (serve_handled hosts auth_token allowed p Hlook c) as Hcaught.
  destruct (serve hosts auth_token allowed p c) as [r c1] eqn:Hs.
  destruct (serve_effect _ _ _ _ _ _ _ Hpr Hs) as [Hg [Hup Hrej]].
  destruct r as [[]|e]; [|rewrite (Hcaught e eq_refl)].
  - eexists. split_and!; [done|done|exact Hg|exact Hup|]. intros Hnil. destruct (Hrej Hnil) as (_ & [? ?] & _). done.
  - eexists. split; [done|]. split; [done|].
    destruct (closing c1) eqn:Hc1; cbn; (split_and!; [exact Hg|exact Hup|]); intros Hnil;
      destruct (Hrej Hnil) as (? & _ & ->); [done|]. by destruct (upstream c1).
Qed.

(** ** Starting the proxy *)

(** What [start_server] is given: the allowlist, the bearer token and the
    trusted workload keys.  [getenv] is the environment and [tls_context] the
    outcome of loading the mTLS files. *)
Record listener := mkListener {
  l_hosts : list bytes;
  l_token : option bytes;
  l_spki : option (list bytes);
}.

Definition environ (getenv : string → option bytes) (k : string) : outcome bytes :=
  match getenv k with Some v => Ok v | None => Raise (KeyError k) end.

Definition start (host : string) (getenv : string → option bytes)
    (tls_context : bytes → bytes → bytes → outcome unit) : outcome listener :=
  hosts ← parse_allowed_hosts (default [] (getenv "AGENTBRIDGE_EGRESS_ALLOWED_HOSTS"));
  _ ← guard_or
        (bool_decide (host ∈ ["127.0.0.1"; "::1"]) ||
         (bool_decide (host = "0.0.0.0") &&
          bool_decide (getenv "AGENTBRIDGE_EGRESS_DRILL_ONLY" = Some (lit "1")) &&
          negb (bool_decide (lower (default [] (getenv "AGENTBRIDGE_ENV")) ∈ [lit "prod"; lit "production"]))))
        (ValueError "non-loopback reference proxy requires isolated drill mode");
  if negb (bool_decide (host = "0.0.0.0")) then Ok (mkListener hosts None None)
  else if bool_decide (getenv "AGENTBRIDGE_EGRESS_MTLS_REVIEW_ONLY" = Some (lit "1")) then
    certfile ← environ getenv "AGENTBRIDGE_EGRESS_MTLS_CERT_FILE";
    keyfile ← environ getenv "AGENTBRIDGE_EGRESS_MTLS_KEY_FILE";
    cafile ← environ getenv "AGENTBRIDGE_EGRESS_MTLS_CA_FILE";
    _ ← tls_context certfile keyfile cafile;
    clients ← parse_allowed_workload_spki (getenv "AGENTBRIDGE_EGRESS_ALLOWED_CLIENT_SPKI_SHA256");
    Ok (mkListener hosts None (Some clients))
  else
    let token := default [] (getenv "AGENTBRIDGE_EGRESS_DRILL_BEARER_TOKEN") in
    _ ← guard_or (negb ((blen token <? 32) || (1024 <? blen token) || negb (is_ascii token)))
                 (ValueError "isolated drill relay requires a long bearer token");
    Ok (mkListener hosts (Some token) None).

(** A proxy reachable from other machines authenticates every caller, and is
    never started in production. *)
Lemma exposed_proxy_authenticates host getenv tls l :
  start host getenv tls = Ok l → host ∉ ["127.0.0.1"; "::1"] →
  (∃ token, l_token l = Some token ∧ 32 ≤ blen token) ∨ (∃ keys, l_spki l = Some keys ∧ keys ≠ []).
Proof.
  unfold start. intros Hrun Hext. apply outcome_bind_Ok in Hrun as (hosts & _ & Hrun).
  apply outcome_bind_Ok in Hrun as (? & Hg%guard_or_Ok & Hrun).
  rewrite (bool_decide_false _ Hext) in Hg. simpl in Hg.
  rewrite !andb_true_iff in Hg. destruct Hg as [[Hhost _] _]. rewrite Hhost in Hrun. simpl in Hrun.
  case_bool_decide.
  - right. apply outcome_bind_Ok in Hrun as (? & _ & Hrun). apply outcome_bind_Ok in Hrun as (? & _ & Hrun).
    apply outcome_bind_Ok in Hrun as (? & _ & Hrun). apply outcome_bind_Ok in Hrun as (? & _ & Hrun).
    apply outcome_bind_Ok in Hrun as (keys & Hk & Hrun). injection Hrun as <-. exists keys. split; [done|].
    unfold parse_allowed_workload_spki, no_workload in Hk. destruct (getenv _) as [raw|]; [|done].
    case_match eqn:Hlen; [done|]. repeat (case_match; [done|]). injection Hk as <-.
    intros Hnil. by rewrite Hnil in Hlen.
  - left. apply outcome_bind_Ok in Hrun as (? & Ht%guard_or_Ok%negb_true_iff & Hrun). injection Hrun as <-.
    eexists. split; [done|]. apply orb_false_iff in Ht as [[Ht%Z.ltb_ge _]%orb_false_iff _]. done.
Qed.
End relay.

(** ** A concrete connection *)

Definition demo_request : bytes :=
  lit "CONNECT api.example.com:443 HTTP/1.1" ++ crlf ++ lit "Host: api.example.com:443" ++ crlf ++
  lit "Proxy-Authorization: Bearer secret" ++ crlf ++ crlf.

Definition demo_conn : conn := mkConn (demo_request ++ demo_record ++ lit "hello") [] [] None [] false.

Definition demo_peer : peer :=
  mkPeer None (fun _ _ => Ok [mkAnswer AF_INET true (lit "9.9.9.9"); mkAnswer AF_INET true (lit "8.8.8.8")])
    (fun ip _ => bool_decide (ip = lit "8.8.8.8")) (mkEnd 5 (lit "world") None).

Definition demo_serve : outcome unit * conn :=
  serve_client (fun _ => None) [lit "api.example.com"] (Some (lit "secret")) None demo_peer demo_conn.

(** The request is relayed: the second address answers, and the upstream gets
    the ClientHello followed by the client's bytes. *)
Example demo_relayed :
  demo_serve = (Ok tt, mkConn [] (established ++ lit "world") [(lit "9.9.9.9", 443); (lit "8.8.8.8", 443)]
    (Some (lit "8.8.8.8", 443)) (demo_record ++ lit "hello") true).
Proof. vm_compute. reflexivity. Qed.

(** The same request, then something that is no ClientHello. *)
Definition demo_broken : conn :=
  mkConn (demo_request ++ lit "hello, this is not TLS") [] [] None [] false.

Definition demo_refused : outcome unit * conn :=
  serve_client (fun _ => None) [lit "api.example.com"] (Some (lit "secret")) None demo_peer demo_broken.

Example demo_turned_away :
  forwarded demo_refused.2 = [] ∧ upstream demo_refused.2 = Some (lit "8.8.8.8", 443).
Proof. vm_compute. split; reflexivity. Qed.

Lemma demo_lookup host port e : lookup demo_peer host port = Raise e → caught e = true.
Proof. discriminate. Qed.

Lemma tunnel_guarded_witness :
  ∃ c', demo_refused = (Ok tt, c') ∧
    guarded (fun _ => None) [lit "api.example.com"] (Some (lit "secret")) None demo_peer (inbox demo_broken) c' ∧
    outbox c' = established ++ forbidden.
Proof.
  destruct (tunnel_guarded (fun _ => None) [lit "api.example.com"] (Some (lit "secret")) None demo_peer demo_broken)
    as (c' & Hs & _ & Hg & _ & Ho); [by split_and!|exact demo_lookup|]. exists c'. split; [exact Hs|]. split; [exact Hg|].
  pose proof demo_turned_away as [Hf Hu]. unfold demo_refused in Hf, Hu. rewrite Hs in Hf, Hu. cbn [snd] in Hf, Hu.
  rewrite Hu in Ho. exact (Ho Hf).
Defined.
