(* ===== verification/PyFloat.v ===== *)
(** * Python floats

    CPython's [float] is an IEEE-754 binary64 number.  Every finite one is an
    integer multiple of [2^-1074], so a finite float is represented exactly by
    that integer; addition is the exact sum rounded to 53 significant bits,
    ties to even, with overflow to infinity.  The sign of zero is not kept: no
    modelled operation observes it.

    The governance code adds and compares amounts of money with floats.
    Rounded addition is not associative, so the invariants of the budget and
    quota components are stated on a grid ([on_grid]): amounts that are
    multiples of one power of two and whose sum stays below 53 bits of it,
    where [fadd_grid] shows that float addition is exact. *)

From stdpp Require Import base list strings.
From Stdlib Require Import ZArith Lia.
From S2P Require Import Prelude.

Local Open Scope Z_scope.

Inductive float64 :=
| FNan
| FInf (negative : bool)
| FFin (z : Z).          (* the value [z * 2^-1074] *)

#[global] Instance float64_eq_dec : EqDecision float64.
Proof. solve_decision. Defined.

(** Round an exact value (in units of [2^-1074]) to binary64. *)
Definition fround (z : Z) : float64 :=
  let a := Z.abs z in
  if a <? 2 ^ 53 then FFin z else
    let k := Z.log2 a - 52 in
    let q := Z.shiftr a k in                  (* [a / 2^k] *)
    let r := a - Z.shiftl q k in              (* [a mod 2^k] *)
    let half := Z.shiftl 1 (k - 1) in
    let q' := if r <? half then q
              else if half <? r then q + 1
              else if Z.even q then q else q + 1 in
    let a' := Z.shiftl q' k in
    if Z.shiftl 1 2098 <=? a' then FInf (z <? 0) else FFin (Z.sgn z * a').

Definition fadd (x y : float64) : float64 :=
  match x, y with
  | FNan, _ | _, FNan => FNan
  | FInf a, FInf b => if Bool.eqb a b then FInf a else FNan
  | FInf a, FFin _ => FInf a
  | FFin _, FInf b => FInf b
  | FFin a, FFin b => fround (a + b)
  end.

Definition fopp (x : float64) : float64 :=
  match x with FNan => FNan | FInf b => FInf (negb b) | FFin z => FFin (- z) end.

Definition fsub (x y : float64) : float64 := fadd x (fopp y).

(** Comparisons; every comparison with a NaN is false. *)
Definition fltb (x y : float64) : bool :=
  match x, y with
  | FNan, _ | _, FNan => false
  | FInf true, FInf true | FInf false, _ => false
  | FInf true, _ => true
  | FFin _, FInf b => negb b
  | FFin a, FFin b => a <? b
  end.

Definition feqb (x y : float64) : bool :=
  match x, y with
  | FInf a, FInf b => Bool.eqb a b
  | FFin a, FFin b => a =? b
  | _, _ => false
  end.

Definition fleb (x y : float64) : bool := fltb x y || feqb x y.

Definition fgtb (x y : float64) : bool := fltb y x.
Definition fgeb (x y : float64) : bool := fleb y x.

Definition fisfinite (x : float64) : bool :=
  match x with FFin _ => true | _ => false end.

Definition fzero : float64 := FFin 0.

(** [float(n)] of an [int]; an int too large for a double raises
    [OverflowError], here [FInf]. *)
Definition float_of_int (n : Z) : float64 := fround (n * 2 ^ 1074).

(** [min(a, b)] and [max(a, b)] of two arguments: the first unless the second
    compares strictly better. *)
Definition fmin (a b : float64) : float64 := if fltb b a then b else a.
Definition fmax (a b : float64) : float64 := if fltb a b then b else a.

(** [sum(values)]: a left fold from [0] (CPython 3.11; the compensated sum of
    3.12 agrees with it wherever the partial sums are exact). *)
Definition fsum (l : list float64) : float64 := foldl fadd fzero l.

(** ** Order *)

Lemma fltb_trans x y z : fltb x y = true → fltb y z = true → fltb x z = true.
Proof.
  destruct x as [|[]|x], y as [|[]|y], z as [|[]|z]; simpl; try done.
  rewrite !Z.ltb_lt. lia.
Qed.

Lemma fltb_irrefl x : fltb x x = false.
Proof. destruct x as [|[]|x]; simpl; [done..|]. apply Z.ltb_irrefl. Qed.

Lemma fltb_asym x y : fltb x y = true → fltb y x = false.
Proof.
  intros Hxy. destruct (fltb y x) eqn:Hyx; [|done].
  by rewrite <-(fltb_irrefl x), (fltb_trans x y x).
Qed.

Lemma fleb_trans x y z : fleb x y = true → fleb y z = true → fleb x z = true.
Proof.
  unfold fleb. rewrite !orb_true_iff.
  destruct x as [|[]|x], y as [|[]|y], z as [|[]|z]; simpl; rewrite ?Z.ltb_lt, ?Z.eqb_eq;
    intros; destruct_or?; try done; try (by left); try (by right); lia.
Qed.

Lemma fltb_fleb_trans x y z : fltb x y = true → fleb y z = true → fltb x z = true.
Proof.
  unfold fleb. rewrite !orb_true_iff.
  destruct x as [|[]|x], y as [|[]|y], z as [|[]|z]; simpl; rewrite ?Z.ltb_lt, ?Z.eqb_eq;
    intros; destruct_or?; try done; lia.
Qed.

Lemma fleb_fltb_trans x y z : fleb x y = true → fltb y z = true → fltb x z = true.
Proof.
  unfold fleb. rewrite !orb_true_iff.
  destruct x as [|[]|x], y as [|[]|y], z as [|[]|z]; simpl; rewrite ?Z.ltb_lt, ?Z.eqb_eq;
    intros; destruct_or?; try done; lia.
Qed.

Lemma fleb_FFin a b : fleb (FFin a) (FFin b) = true ↔ a ≤ b.
Proof. unfold fleb. simpl. rewrite orb_true_iff, Z.ltb_lt, Z.eqb_eq. lia. Qed.

Lemma fmin_FFin a b : fmin (FFin a) (FFin b) = FFin (Z.min a b).
Proof. unfold fmin. simpl. destruct (Z.ltb_spec b a); f_equal; lia. Qed.

(** On numbers (not NaN), [not (x <= y)] is [y < x]. *)
Lemma fltb_total x y :
  x ≠ FNan → y ≠ FNan → fltb y x = negb (fleb x y).
Proof.
  intros Hx Hy. unfold fleb. destruct x as [|[]|x], y as [|[]|y]; simpl; try done.
  destruct (Z.ltb_spec y x), (Z.ltb_spec x y), (Z.eqb_spec x y); simpl; try done; lia.
Qed.

(** ** Exactness on a grid *)

(** [x] is a multiple of [2^e] units and [|x| <= 2^(53+e)]. *)
Definition on_grid (e : Z) (z : Z) : Prop := (2 ^ e | z) ∧ Z.abs z < 2 ^ (53 + e).

Lemma fround_grid e z : 0 ≤ e ≤ 2045 → on_grid e z → fround z = FFin z.
Proof.
  intros He [Hdiv Hlt]. unfold fround. cbv zeta.
  destruct (Z.ltb_spec (Z.abs z) (2 ^ 53)) as [|Hge]; [done|].
  set (a := Z.abs z) in *.
  assert (2 ^ 53 > 0) as H53 by (by apply Z.lt_gt, Z.pow_pos_nonneg).
  assert (Hlog : Z.log2 a < 53 + e) by (apply Z.log2_lt_pow2; lia).
  assert (Hlog' : 53 ≤ Z.log2 a) by (apply Z.log2_le_pow2; lia).
  set (k := Z.log2 a - 52) in *.
  assert (Hk : (2 ^ k | a)).
  { apply Z.divide_trans with (2 ^ e); [|by apply Z.divide_abs_r].
    exists (2 ^ (e - k)). rewrite <-Z.pow_add_r by lia. f_equal. lia. }
  assert (0 < 2 ^ k) by (apply Z.pow_pos_nonneg; lia).
  assert (0 < 2 ^ (k - 1)) by (apply Z.pow_pos_nonneg; lia).
  rewrite !Z.shiftl_mul_pow2, Z.shiftr_div_pow2, !Z.mul_1_l by lia.
  replace (a - a / 2 ^ k * 2 ^ k) with (a mod 2 ^ k) by (rewrite Z.mod_eq by lia; lia).
  rewrite (proj2 (Z.mod_divide a (2 ^ k) ltac:(lia)) Hk).
  destruct (Z.ltb_spec 0 (2 ^ (k - 1))); [|lia].
  assert (Ha : a / 2 ^ k * 2 ^ k = a).
  { rewrite Z.mul_comm. symmetry. apply Z.div_exact; [lia|].
    by apply Z.mod_divide; [lia|]. }
  rewrite Ha. destruct (Z.leb_spec (2 ^ 2098) a) as [Hbig|].
  - exfalso. assert (2 ^ (53 + e) ≤ 2 ^ 2098); [|lia]. apply Z.pow_le_mono_r; lia.
  - f_equal. subst a. destruct z; simpl; lia.
Qed.

Lemma fadd_grid e x y :
  0 ≤ e ≤ 2045 → (2 ^ e | x) → (2 ^ e | y) → Z.abs (x + y) < 2 ^ (53 + e) →
  fadd (FFin x) (FFin y) = FFin (x + y).
Proof.
  intros. simpl. apply (fround_grid e); [done|]. split; [by apply Z.divide_add_r|done].
Qed.

(** ** Arguments of unknown type

    What [_checked_cost] and its callers may be handed.  A [str] carries the
    number [float()] reads in it, if any. *)
Inductive pynum :=
| PBool (b : bool)
| PInt (n : Z)
| PFloat (f : float64)
| PStr (parsed : option float64)
| POther.

(** The numerals the examples use: [n] units as a float. *)
Definition fl (n : Z) : float64 := FFin (n * 2 ^ 1074).
