(* ===== verification/Controls.v ===== *)
(** * Operator controls

    [governance/rbac.py] (operator roles), [governance/resilience.py] (bounded
    retries of store transactions) and [api/ratelimit.py] (the fixed-window
    limiter of the control plane). *)

From stdpp Require Import base list gmap strings.
From Stdlib Require Import ZArith Lia.
From S2P Require Import Prelude PyFloat.

#[local] Open Scope Z_scope.

(** ** Roles *)
Module Rbac.
Definition PERMISSIONS : list string :=
  ["identities:read"; "identities:write"; "budgets:read"; "budgets:write"; "approvals:read"; "approvals:write";
   "audit:read"; "audit:export"; "policy:read"; "policy:write"].

Definition ROLE_PERMISSIONS : list (string * list string) :=
  [("admin", ["*"]);
   ("operator", ["identities:read"; "identities:write"; "budgets:read"; "budgets:write"; "approvals:read";
                 "approvals:write"; "audit:read"; "audit:export"; "policy:read"]);
   ("viewer", ["identities:read"; "budgets:read"; "approvals:read"; "audit:read"; "policy:read"])].

Definition role_can (role permission : string) : bool :=
  let perms := default [] (dict_get role ROLE_PERMISSIONS) in
  bool_decide ("*" ∈ perms) || bool_decide (permission ∈ perms).

Definition require (role permission : string) : outcome unit :=
  guard_or (role_can role permission)
           (AccessDenied ("role '" +:+ role +:+ "' lacks permission '" +:+ permission +:+ "'")).

(** The roles are nested, and of the canonical permissions an operator lacks
    only the writing of policy, a viewer every write and the export. *)
Lemma roles_nested :
  (∀ p, role_can "viewer" p = true → role_can "operator" p = true) ∧
  (∀ p, role_can "operator" p = true → role_can "admin" p = true) ∧
  filter (fun p => role_can "operator" p = false) PERMISSIONS = ["policy:write"] ∧
  filter (fun p => role_can "viewer" p = false) PERMISSIONS =
    ["identities:write"; "budgets:write"; "approvals:write"; "audit:export"; "policy:write"].
Proof.
  split_and!; [| |vm_compute; reflexivity..].
  - intros p. unfold role_can. rewrite !orb_true_iff, !bool_decide_eq_true. simpl.
    rewrite !list_elem_of_In. simpl. tauto.
  - done.
Qed.

Lemma unknown_role_denied role p :
  role ∉ ROLE_PERMISSIONS.*1 → ∃ why, require role p = Raise (AccessDenied why).
Proof.
  intros Hr. unfold require, role_can. apply dict_get_None in Hr. rewrite Hr. by eexists.
Qed.
End Rbac.

(** ** Retries *)
Module Retry.
Section retry.
Context {S A : Type} (transient : pyexn → bool) (max_attempts : Z) (base_delay max_delay : float64).
(** The random factor applied to the delay of an attempt. *)
Context (jitter : Z → float64 → float64).

(** [base_delay * 2 ** k]: exact unless it overflows. *)
Definition fscale (x : float64) (k : Z) : float64 :=
  match x with FFin z => fround (z * 2 ^ k) | _ => x end.

Definition backoff (attempt : Z) : float64 := fmin max_delay (fscale base_delay (attempt - 1)).

(** The [for] loop of [wrapper], [rest] attempts from the end; the last
    component is the delays slept.  [fn] may behave differently at each attempt,
    as a statement that meets a lock does. *)
Fixpoint attempts (fn : Z → M S A) (rest : nat) (attempt : Z) (s : S) : outcome A * S * list float64 :=
  match rest with
  | O => (Raise (AssertionError EmptyString), s, [])
  | Datatypes.S rest =>
      match fn attempt s with
      | (Ok a, s') => (Ok a, s', [])
      | (Raise e, s') =>
          if transient e then
            if attempt =? max_attempts then (Raise e, s', [])
            else let '(o, s'', slept) := attempts fn rest (attempt + 1) s' in
                 (o, s'', jitter attempt (backoff attempt) :: slept)
          else (Raise e, s', [])
      end
  end.

Definition retry_transient (fn : Z → M S A) (s : S) : outcome A * S * list float64 :=
  attempts fn (Z.to_nat max_attempts) 1 s.

(** The attempts before [i] met a transient error. *)
Definition failed_before (fn : Z → M S A) (s : S) (from i : Z) : Prop :=
  ∀ j, from ≤ j < i → ∃ e, transient e = true ∧ fn j s = (Raise e, s).

Lemma attempts_spec fn rest k s o s' slept :
  (∀ j, rolls_back (fn j)) → attempts fn rest k s = (o, s', slept) → (0 < rest)%nat →
  k + Z.of_nat rest = max_attempts + 1 →
  ∃ i, k ≤ i ≤ max_attempts ∧ failed_before fn s k i ∧ fn i s = (o, s') ∧
    Z.of_nat (length slept) = i - k ∧
    match o with Ok _ => True | Raise e => transient e = true → i = max_attempts end ∧
    (∀ d, d ∈ slept → ∃ j, k ≤ j < i ∧ d = jitter j (backoff j)).
Proof.
  intros Hrb. revert k s o s' slept. induction rest as [|rest IH]; intros k s o s' slept Hrun Hpos Hk; [lia|].
  cbn [attempts] in Hrun. destruct (fn k s) as [[a|e] s1] eqn:Hf.
  - injection Hrun as <- <- <-. exists k. split_and!; try done; try (cbn [length]; lia); try (intros j; lia); by intros ? ?%elem_of_nil.
  - assert (s1 = s) as -> by by eapply Hrb.
    destruct (transient e) eqn:Ht; [destruct (k =? max_attempts) eqn:Hm|].
    + apply Z.eqb_eq in Hm. injection Hrun as <- <- <-. exists k.
      split_and!; try done; try (cbn [length]; lia); try (intros j; lia); by intros ? ?%elem_of_nil.
    + apply Z.eqb_neq in Hm. destruct (attempts fn rest (k + 1) s) as [[o1 s2] sl] eqn:Ha.
      injection Hrun as <- <- <-.
      destruct (IH (k + 1) s o1 s2 sl Ha) as (i & Hi & Hfail & Hrun & Hlen & Hlast & Hd); [lia|lia|].
      exists i. split_and!; try done; try lia.
      * intros j Hj. destruct (decide (j = k)) as [->|]; [by exists e|]. apply Hfail. lia.
      * cbn [length]. lia.
      * intros d [->|Hin]%elem_of_cons; [exists k; split; [lia|done]|].
        destruct (Hd d Hin) as (j & ? & ->). exists j. split; [lia|done].
    + injection Hrun as <- <- <-. exists k.
      split_and!; try done; try (cbn [length]; lia); try (intros j; lia); try congruence; by intros ? ?%elem_of_nil.
Qed.

(** Retrying a transaction terminates within the attempt bound and applies
    it at most once: the outcome and the final state are those of one attempt
    run from the initial state, after attempts that all met transient errors and
    rolled back; a transient error is reported only by the last attempt, and
    the waits are the bounded backoffs between attempts. *)
Theorem retry_once fn s o s' slept :
  1 ≤ max_attempts → (∀ j, rolls_back (fn j)) → retry_transient fn s = (o, s', slept) →
  ∃ i, 1 ≤ i ≤ max_attempts ∧ failed_before fn s 1 i ∧ fn i s = (o, s') ∧
    Z.of_nat (length slept) = i - 1 ∧
    match o with Ok _ => True | Raise e => transient e = true → i = max_attempts end ∧
    (∀ d, d ∈ slept → ∃ j, 1 ≤ j < i ∧ d = jitter j (backoff j)).
Proof.
  intros Hm Hrb Hrun. eapply attempts_spec; [done|exact Hrun|lia|lia].
Qed.

Lemma backoff_capped k : base_delay ≠ FNan → max_delay ≠ FNan → fleb (backoff k) max_delay = true.
Proof.
  intros _ Hm. unfold backoff, fmin. destruct (fltb _ max_delay) eqn:Hc.
  - unfold fleb. by rewrite Hc.
  - unfold fleb. destruct max_delay as [|[]|z]; simpl; [done|done|done|]. by rewrite Z.eqb_refl, orb_true_r.
Qed.
End retry.

(** Three attempts at one append, the first two of them locked out. *)
Definition demo_fn (j : Z) : M Z unit :=
  atomic (n ← get; _ ← put (n + 1); ensure (3 <=? j) (OperationalError "database is locked")).

Definition is_operational (e : pyexn) : bool := match e with OperationalError _ => true | _ => false end.

Lemma retry_once_witness :
  ∃ i, 1 ≤ i ≤ 4 ∧ failed_before is_operational demo_fn 7 1 i ∧ demo_fn i 7 = (Ok tt, 8) ∧
    Z.of_nat (length [fl 1; fl 2]) = i - 1 ∧ True ∧
    (∀ d, d ∈ [fl 1; fl 2] → ∃ j, 1 ≤ j < i ∧ d = backoff (fl 1) (fl 5) j).
Proof.
  apply (retry_once is_operational 4 (fl 1) (fl 5) (fun _ d => d) demo_fn 7 (Ok tt) 8 [fl 1; fl 2]).
  - lia.
  - intros j. apply rolls_back_atomic.
  - vm_compute. reflexivity.
Defined.
End Retry.

(** ** Rate limiting *)
Module RateLimit.
Record limiter := mkLimiter {
  max : Z;
  window : float64;
  hits : gmap string (float64 * Z);     (* key -> (window_start, count) *)
}.

Definition allow (key : string) (now : float64) (l : limiter) : bool * limiter :=
  let '(start, count) := default (now, 0) (hits l !! key) in
  let '(start, count) := if fgeb (fsub now start) (window l) then (now, 0) else (start, count) in
  let count := count + 1 in
  (count <=? max l, mkLimiter (max l) (window l) (<[key := (start, count)]> (hits l))).

Definition reset (l : limiter) : limiter := mkLimiter (max l) (window l) ∅.

Fixpoint allow_run (key : string) (times : list float64) (l : limiter) : list bool * limiter :=
  match times with
  | [] => ([], l)
  | t :: times => let '(b, l) := allow key t l in
                  let '(bs, l) := allow_run key times l in (b :: bs, l)
  end.

(** Of the hits of a key within one window, [max] are allowed and the others
    refused. *)
Lemma window_admits key start times l n :
  hits l !! key = Some (start, n) → 0 ≤ n →
  Forall (fun t => fgeb (fsub t start) (window l) = false) times →
  ∀ i b, (allow_run key times l).1 !! i = Some b → b = (n + Z.of_nat i + 1 <=? max l).
Proof.
  revert l n. induction times as [|t times IH]; intros l n Hl Hn Ht i b; simpl; [done|].
  apply Forall_cons in Ht as [Ht Hts]. unfold allow at 1. rewrite Hl. simpl. rewrite Ht.
  match goal with |- context [allow_run key times ?x] => set (l1 := x) end.
  assert (hits l1 !! key = Some (start, n + 1)) as Hl1 by apply lookup_insert_eq.
  specialize (IH l1 (n + 1) Hl1 ltac:(lia) Hts).
  destruct (allow_run key times l1) as [bs l2]. simpl. destruct i as [|i]; simpl.
  - intros [= <-]. f_equal. lia.
  - intros Hi. rewrite (IH i b Hi). change (max l1) with (max l). f_equal. lia.
Qed.

(** A key's hits do not touch another's. *)
Lemma keys_independent key other now l :
  key ≠ other → hits (allow key now l).2 !! other = hits l !! other.
Proof.
  intros Hne. unfold allow. destruct (default _ _) as [s c]. case_match; simpl; by rewrite lookup_insert_ne.
Qed.
End RateLimit.
