(* ===== verification/Codec.v ===== *)
(** * Injective text codecs

    Concrete, injective encodings of records as text.  The development runs its
    definitions with them wherever the code calls a digest, an HMAC or a JSON
    encoder: they instantiate the classes that stand for those functions and
    show that the laws assumed of them can hold. *)

From stdpp Require Import base list strings pretty.
From Stdlib Require Import ZArith Lia Ascii.
From S2P Require Import Prelude PyFloat.

(** One field: escaped and terminated. *)
Fixpoint chunk (s t : string) : string :=
  match s with
  | EmptyString => String "."%char t
  | String c s' => String "x"%char (String c (chunk s' t))
  end.

Lemma chunk_inj s t s' t' : chunk s t = chunk s' t' → s = s' ∧ t = t'.
Proof.
  revert s'. induction s as [|c s IH]; intros [|c' s'] Hc; simpl in Hc; try done;
    injection Hc as Hc; [done|]. subst. edestruct IH; [done|]. by subst.
Qed.

Definition float_text (f : float64) : string :=
  match f with
  | FNan => "n"
  | FInf b => if b then "m" else "p"
  | FFin z => String "f"%char (pretty z)
  end.

Lemma float_text_inj f f' : float_text f = float_text f' → f = f'.
Proof.
  destruct f as [|[]|z], f' as [|[]|z']; simpl; try done. intros [= Hz].
  f_equal. by apply (inj pretty).
Qed.


(** A list of fields. *)
Definition chunks (l : list string) : string := foldr chunk EmptyString l.

Lemma chunk_not_empty s t : chunk s t ≠ EmptyString.
Proof. by destruct s. Qed.

Lemma chunks_inj l l' : chunks l = chunks l' → l = l'.
Proof.
  revert l'. induction l as [|s l IH]; intros [|s' l'] Hc; simpl in Hc; [done|..].
  - by destruct (chunk_not_empty s' (chunks l')).
  - by destruct (chunk_not_empty s (chunks l)).
  - apply chunk_inj in Hc as [-> Hc]. f_equal. by apply IH.
Qed.

Definition option_text (o : option string) : string :=
  match o with None => "n" | Some s => String "s"%char s end.

Lemma option_text_inj o o' : option_text o = option_text o' → o = o'.
Proof. destruct o, o'; simpl; naive_solver. Qed.
