(* ===== verification/Budget.v ===== *)
(** * Budgets: spend cap and rolling rate cap

    Models src/governance/budget.py.  [Budget] is the in-process object and
    its methods; [Manager] is [BudgetManager], whose operations run a mutator
    inside [store.mutate_budget], the store's atomic read-modify-write of one
    agent's row.  Clock readings and generated tokens are arguments. *)

From stdpp Require Import base list gmap strings.
From Stdlib Require Import ZArith Lia.
From S2P Require Import Prelude PyFloat.

Local Open Scope Z_scope.

Definition cost_error : string := "cost must be a finite, nonnegative number".

(** [float(cost)], [None] where it raises one of the caught exceptions. *)
Definition to_float (cost : pynum) : option float64 :=
  match cost with
  | PBool b => Some (fl (if b then 1 else 0))
  | POther => None
  | PInt n => let f := float_of_int n in if fisfinite f then Some f else None
  | PFloat f => Some f
  | PStr parsed => parsed
  end.

(** [_checked_cost]: a bool is refused, anything else goes through [float()],
    and the result must be finite and nonnegative. *)
Definition checked_cost (cost : pynum) : outcome float64 :=
  match cost with
  | PBool _ => Raise (ValueError cost_error)
  | _ =>
    match to_float cost with
    | None => Raise (ValueError cost_error)
    | Some f => if negb (fisfinite f) || fltb f fzero
                then Raise (ValueError cost_error) else Ok f
    end
  end.

Lemma checked_cost_Ok p f :
  checked_cost p = Ok f → ∃ z, f = FFin z ∧ 0 ≤ z.
Proof.
  intros H. assert (negb (fisfinite f) || fltb f fzero = false) as E.
  { unfold checked_cost in H. destruct p; [done|..];
      (destruct (to_float _) as [g|]; [|done]); by case_match; simplify_eq. }
  apply orb_false_iff in E as [E1 E2].
  destruct f as [| |z]; simpl in *; try done. exists z. split; [done|].
  by apply Z.ltb_ge in E2.
Qed.

Lemma checked_cost_float z : 0 ≤ z → checked_cost (PFloat (FFin z)) = Ok (FFin z).
Proof. intros. simpl. by destruct (Z.ltb_spec z 0); [lia|]. Qed.

Record Budget := mkBudget {
  spend_limit : float64;
  rate_limit : Z;
  window_seconds : float64;
  spent : float64;
  calls : list float64;
  reserved : list (string * float64);
}.

Definition set_calls (cs : list float64) (b : Budget) : Budget :=
  mkBudget (spend_limit b) (rate_limit b) (window_seconds b) (spent b) cs (reserved b).
Definition set_reserved (r : list (string * float64)) (b : Budget) : Budget :=
  mkBudget (spend_limit b) (rate_limit b) (window_seconds b) (spent b) (calls b) r.
Definition set_spent (s : float64) (b : Budget) : Budget :=
  mkBudget (spend_limit b) (rate_limit b) (window_seconds b) s (calls b) (reserved b).

Definition spend_cap_exceeded : string := "spend cap exceeded".
Definition rate_cap_exceeded : string := "rate cap exceeded".

(** ** The in-process object *)
Module Object.

(** The [while calls and calls[0] <= cutoff: popleft()] loop. *)
Fixpoint drop_expired (cutoff : float64) (cs : list float64) : list float64 :=
  match cs with
  | [] => []
  | t :: cs' => if fleb t cutoff then drop_expired cutoff cs' else t :: cs'
  end.

Definition prune (now : float64) (b : Budget) : Budget :=
  set_calls (drop_expired (fsub now (window_seconds b)) (calls b)) b.

Definition reserved_total (b : Budget) : float64 := fsum (reserved b).*2.

Definition remaining (b : Budget) : float64 :=
  fsub (fsub (spend_limit b) (spent b)) (reserved_total b).

Definition can_afford (cost : pynum) (now : float64) : M Budget (bool * string) :=
  cost ← lift (checked_cost cost);
  _ ← modify (prune now);
  b ← get;
  if fgtb (fadd (fadd (spent b) (reserved_total b)) cost) (spend_limit b)
  then mret (false, spend_cap_exceeded)
  else if rate_limit b <=? Z.of_nat (length (calls b)) + Z.of_nat (length (reserved b))
  then mret (false, rate_cap_exceeded)
  else mret (true, "ok").

Definition reserve (cost : pynum) (now : float64) (token : string)
  : M Budget (option string * string) :=
  cost ← lift (checked_cost cost);
  '(ok, why) ← can_afford (PFloat cost) now;
  if negb ok then mret (None, why)
  else _ ← modify (fun b => set_reserved (dict_set token cost (reserved b)) b);
       mret (Some token, "reserved").

Definition commit (token : string) (now : float64) : M Budget bool :=
  b ← get;
  match dict_get token (reserved b) with
  | None => mret false
  | Some cost =>
      _ ← put (set_calls (calls b ++ [now])
                 (set_spent (fadd (spent b) cost)
                    (set_reserved (dict_pop token (reserved b)) b)));
      mret true
  end.

Definition release (token : string) : M Budget bool :=
  b ← get;
  match dict_get token (reserved b) with
  | None => mret false
  | Some _ => _ ← put (set_reserved (dict_pop token (reserved b)) b); mret true
  end.

Definition charge (cost : pynum) (now : float64) : M Budget unit :=
  cost ← lift (checked_cost cost);
  modify (fun b => set_calls (calls b ++ [now]) (set_spent (fadd (spent b) cost) b)).

End Object.

(** ** The persisted state dictionary

    Every writer stores [Budget.state()] or a mutated copy of it, so a row has
    the three limit keys; [spent], [calls] and [reserved] are the keys read
    with a default. *)
Record row := mkRow {
  r_spend_limit : float64;
  r_rate_limit : Z;
  r_window_seconds : float64;
  r_spent : option float64;
  r_calls : option (list float64);
  r_reserved : option (list (string * float64));
}.

(** [Budget.state] and [Budget.from_state]. *)
Definition state (b : Budget) : row :=
  mkRow (spend_limit b) (rate_limit b) (window_seconds b)
        (Some (spent b)) (Some (calls b)) (Some (reserved b)).

Definition from_state (s : row) : Budget :=
  mkBudget (r_spend_limit s) (r_rate_limit s) (r_window_seconds s)
           (default fzero (r_spent s)) (default [] (r_calls s)) (default [] (r_reserved s)).

Lemma from_state_state b : from_state (state b) = b.
Proof. by destruct b. Qed.

(** ** BudgetManager *)
Module Manager.

(** The store's budgets table and the manager's per-process cache. *)
Record manager := mkManager {
  rows : gmap string row;
  cache : gmap string Budget;
}.

Section with_default.
Context (default_factory : Budget).

Definition set_budget (agent_id : string) (b : Budget) : M manager unit :=
  modify (fun m => mkManager (<[agent_id := state b]> (rows m))
                             (<[agent_id := b]> (cache m))).

(** [get]: the store row when there is one, then the cached object, then
    the default; whatever is returned is cached. *)
Definition get_budget (agent_id : string) : M manager Budget :=
  m ← get;
  let b := match rows m !! agent_id with
           | Some rec => from_state rec
           | None => default default_factory (cache m !! agent_id)
           end in
  _ ← put (mkManager (rows m) (<[agent_id := b]> (cache m)));
  mret b.

Definition persist (agent_id : string) : M manager unit :=
  modify (fun m =>
    match cache m !! agent_id with
    | Some b => mkManager (<[agent_id := state b]> (rows m)) (cache m)
    | None => m
    end).

(** [_seed]: an empty state takes the cached budget or the default; the
    optional keys get their defaults. *)
Definition seed (m : manager) (agent_id : string) (s : option row) : Budget :=
  from_state (match s with
              | Some r => r
              | None => state (default default_factory (cache m !! agent_id))
              end).

(** [store.mutate_budget(agent_id, mutator)] on a mutator that never
    raises: the mutated state is stored whatever the result. *)
Definition mutate_budget {A} (agent_id : string) (mutator : Budget → A * Budget)
  : M manager A :=
  m ← get;
  let '(r, b) := mutator (seed m agent_id (rows m !! agent_id)) in
  _ ← put (mkManager (<[agent_id := state b]> (rows m)) (cache m));
  mret r.

Definition drop_cache (agent_id : string) : M manager unit :=
  modify (fun m => mkManager (rows m) (delete agent_id (cache m))).

(** Module-level [_prune] and [_reserved_sum]. *)
Definition prune (now : float64) (b : Budget) : Budget :=
  set_calls (filter (fun t => fgtb t (fsub now (window_seconds b)) = true) (calls b)) b.

Definition reserved_sum (b : Budget) : float64 := fsum (reserved b).*2.

Definition afford (b : Budget) (cost : float64) : bool * string :=
  if fgtb (fadd (fadd (spent b) (reserved_sum b)) cost) (spend_limit b)
  then (false, spend_cap_exceeded)
  else if rate_limit b <=? Z.of_nat (length (calls b)) + Z.of_nat (length (reserved b))
  then (false, rate_cap_exceeded)
  else (true, "ok").

Definition can_afford_mutator (cost now : float64) (b : Budget)
  : (bool * string) * Budget :=
  let b := prune now b in (afford b cost, b).

Definition can_afford (agent_id : string) (cost : pynum) (now : float64)
  : M manager (bool * string) :=
  cost ← lift (checked_cost cost);
  mutate_budget agent_id (can_afford_mutator cost now).

Definition reserve_mutator (cost now : float64) (token : string) (b : Budget)
  : (option string * string) * Budget :=
  let b := prune now b in
  match afford b cost with
  | (false, why) => ((None, why), b)
  | (true, _) => ((Some token, "reserved"),
                  set_reserved (dict_set token cost (reserved b)) b)
  end.

Definition reserve (agent_id : string) (cost : pynum) (now : float64) (token : string)
  : M manager (option string * string) :=
  cost ← lift (checked_cost cost);
  result ← mutate_budget agent_id (reserve_mutator cost now token);
  _ ← drop_cache agent_id;
  mret result.

Definition commit_mutator (token : string) (now : float64) (b : Budget)
  : bool * Budget :=
  match dict_get token (reserved b) with
  | None => (false, b)
  | Some cost =>
      (true, set_calls (calls b ++ [now])
               (set_spent (fadd (spent b) cost)
                  (set_reserved (dict_pop token (reserved b)) b)))
  end.

Definition commit (agent_id : string) (token : string) (now : float64) : M manager bool :=
  result ← mutate_budget agent_id (commit_mutator token now);
  _ ← drop_cache agent_id;
  mret result.

Definition release_mutator (token : string) (b : Budget) : bool * Budget :=
  match dict_get token (reserved b) with
  | None => (false, b)
  | Some _ => (true, set_reserved (dict_pop token (reserved b)) b)
  end.

Definition release (agent_id : string) (token : string) : M manager bool :=
  result ← mutate_budget agent_id (release_mutator token);
  _ ← drop_cache agent_id;
  mret result.

(** ** Running the operations *)

(** The state [_seed] hands to the next mutator of an agent. *)
Definition current (m : manager) (agent_id : string) : Budget :=
  seed m agent_id (rows m !! agent_id).

Definition store_row (agent_id : string) (b : Budget) (m : manager) : manager :=
  mkManager (<[agent_id := state b]> (rows m)) (cache m).

Definition store_settled (agent_id : string) (b : Budget) (m : manager) : manager :=
  mkManager (<[agent_id := state b]> (rows m)) (delete agent_id (cache m)).

Lemma mutate_run {A} ag (f : Budget → A * Budget) m :
  mutate_budget ag f m =
  (Ok (f (current m ag)).1, store_row ag (f (current m ag)).2 m).
Proof.
  unfold mutate_budget, current. rewrite run_bind. cbn [get].
  by destruct (f _).
Qed.

Lemma can_afford_run ag p c now m :
  checked_cost p = Ok c →
  can_afford ag p now m =
  (Ok (afford (prune now (current m ag)) c), store_row ag (prune now (current m ag)) m).
Proof.
  intros Hp. unfold can_afford. rewrite run_bind, Hp. cbn [lift].
  by rewrite mutate_run.
Qed.

Lemma reserve_run ag p c now tok m :
  checked_cost p = Ok c →
  reserve ag p now tok m =
  (Ok (reserve_mutator c now tok (current m ag)).1,
   store_settled ag (reserve_mutator c now tok (current m ag)).2 m).
Proof.
  intros Hp. unfold reserve. rewrite run_bind, Hp. cbn [lift].
  by rewrite run_bind, mutate_run.
Qed.

Lemma commit_run ag tok now m :
  commit ag tok now m =
  (Ok (commit_mutator tok now (current m ag)).1,
   store_settled ag (commit_mutator tok now (current m ag)).2 m).
Proof. unfold commit. by rewrite run_bind, mutate_run. Qed.

Lemma release_run ag tok m :
  release ag tok m =
  (Ok (release_mutator tok (current m ag)).1,
   store_settled ag (release_mutator tok (current m ag)).2 m).
Proof. unfold release. by rewrite run_bind, mutate_run. Qed.

Lemma current_store_eq ag b m : current (store_settled ag b m) ag = b.
Proof.
  unfold current, seed, store_settled. simpl. rewrite lookup_insert_eq.
  apply from_state_state.
Qed.

Lemma current_store_ne ag ag' b m :
  ag ≠ ag' → current (store_settled ag b m) ag' = current m ag'.
Proof.
  intros. unfold current, seed, store_settled. simpl.
  rewrite lookup_insert_ne, lookup_delete_ne by done. done.
Qed.
End with_default.
End Manager.
