(* ===== verification/BudgetSpec.v ===== *)
(** * What a budget promises

    An abstract [account] keeps exact integer amounts; the float budget of
    src/governance/budget.py refines it on any grid of amounts on which binary64
    addition is exact.  The spend cap, the conservation of exposure and the
    rolling rate cap are theorems about every interleaving of the store-backed
    operations. *)

From stdpp Require Import base list gmap strings relations.
From Stdlib Require Import ZArith Lia Sorted.
From S2P Require Import Prelude PyFloat Budget.

Local Open Scope Z_scope.

Definition zsum (l : list Z) : Z := foldr Z.add 0 l.

Lemma zsum_app l k : zsum (l ++ k) = zsum l + zsum k.
Proof. induction l; simpl; lia. Qed.

Lemma zsum_cons x l : zsum (x :: l) = x + zsum l.
Proof. done. Qed.

Lemma zsum_nonneg l : Forall (Z.le 0) l → 0 ≤ zsum l.
Proof. induction 1; simpl; lia. Qed.

Lemma zsum_divide d l : Forall (Z.divide d) l → (d | zsum l).
Proof.
  induction 1; simpl; [apply Z.divide_0_r|]. by apply Z.divide_add_r.
Qed.

(** ** The abstract account *)

Record account := mkAccount {
  a_limit : Z;
  a_rate : Z;
  a_window : float64;
  a_spent : Z;
  a_calls : list float64;
  a_held : list (string * Z);
}.

Definition exposure (a : account) : Z := a_spent a + zsum (a_held a).*2.

Definition a_slots (a : account) : Z :=
  Z.of_nat (length (a_calls a)) + Z.of_nat (length (a_held a)).

Definition a_prune (now : float64) (a : account) : account :=
  mkAccount (a_limit a) (a_rate a) (a_window a) (a_spent a)
    (filter (fun t => fgtb t (fsub now (a_window a)) = true) (a_calls a)) (a_held a).

Definition a_reserve (c : Z) (now : float64) (token : string) (a : account)
  : (option string * string) * account :=
  let a := a_prune now a in
  if a_limit a <? exposure a + c then ((None, spend_cap_exceeded), a)
  else if a_rate a <=? a_slots a then ((None, rate_cap_exceeded), a)
  else ((Some token, "reserved"),
        mkAccount (a_limit a) (a_rate a) (a_window a) (a_spent a) (a_calls a)
                  (dict_set token c (a_held a))).

Definition a_can_afford (c : Z) (now : float64) (a : account) : (bool * string) * account :=
  let a := a_prune now a in
  ((if a_limit a <? exposure a + c then (false, spend_cap_exceeded)
    else if a_rate a <=? a_slots a then (false, rate_cap_exceeded)
    else (true, "ok")), a).

Definition a_commit (token : string) (now : float64) (a : account) : bool * account :=
  match dict_get token (a_held a) with
  | None => (false, a)
  | Some c => (true, mkAccount (a_limit a) (a_rate a) (a_window a) (a_spent a + c)
                       (a_calls a ++ [now]) (dict_pop token (a_held a)))
  end.

Definition a_release (token : string) (a : account) : bool * account :=
  match dict_get token (a_held a) with
  | None => (false, a)
  | Some _ => (true, mkAccount (a_limit a) (a_rate a) (a_window a) (a_spent a)
                       (a_calls a) (dict_pop token (a_held a)))
  end.

(** The budget an account stands for. *)
Definition concretize (a : account) : Budget :=
  mkBudget (FFin (a_limit a)) (a_rate a) (a_window a) (FFin (a_spent a))
    (a_calls a) (prod_map id FFin <$> a_held a).

(** Within the cap, on the grid of [2^e] units. *)
Record sound (e : Z) (a : account) : Prop := mkSound {
  so_e : 0 ≤ e ≤ 2045;
  so_spent : (2 ^ e | a_spent a) ∧ 0 ≤ a_spent a;
  so_held : Forall (fun c => (2 ^ e | c) ∧ 0 ≤ c) (a_held a).*2;
  so_nodup : NoDup (dict_keys (a_held a));
  so_cap : exposure a ≤ a_limit a;
  so_limit : a_limit a < 2 ^ (52 + e);
  so_slots : a_slots a ≤ Z.max 0 (a_rate a);
}.

(** A price the grid can express. *)
Definition price (e c : Z) : Prop := (2 ^ e | c) ∧ 0 ≤ c < 2 ^ (52 + e).

(** ** Dictionary lemmas under [prod_map] *)

Section dict_map.
Context (l : list (string * Z)).
Implicit Types (k : string) (d : list (string * Z)).

Lemma dict_get_map k d :
  dict_get k (prod_map id FFin <$> d) = FFin <$> dict_get k d.
Proof. induction d as [|[j v] d IH]; simpl; [done|]. by case_decide. Qed.

Lemma dict_set_map k v d :
  dict_set k (FFin v) (prod_map id FFin <$> d) = prod_map id FFin <$> dict_set k v d.
Proof. induction d as [|[j w] d IH]; simpl; [done|]. case_decide; csimpl; by rewrite ?IH. Qed.

Lemma dict_pop_map k d :
  dict_pop k (prod_map id FFin <$> d) = prod_map id FFin <$> dict_pop k d.
Proof. induction d as [|[j w] d IH]; simpl; [done|]. case_decide; csimpl; by rewrite ?IH. Qed.
End dict_map.

Lemma snd_map_held (h : list (string * Z)) :
  (prod_map id FFin <$> h).*2 = FFin <$> h.*2.
Proof. rewrite <-!list_fmap_compose. by apply list_fmap_ext; intros ? []. Qed.

Lemma exposure_pop token c a :
  dict_get token (a_held a) = Some c →
  zsum (a_held a).*2 = c + zsum (dict_pop token (a_held a)).*2.
Proof.
  intros (d1 & d2 & -> & -> & _)%dict_pop_split.
  rewrite !fmap_app, fmap_cons, !zsum_app, zsum_cons. simpl. lia.
Qed.

(** ** Float sums are exact on the grid *)

Lemma foldl_fadd_grid e l s :
  0 ≤ e ≤ 2045 → (2 ^ e | s) → 0 ≤ s → Forall (fun c => (2 ^ e | c) ∧ 0 ≤ c) l →
  s + zsum l < 2 ^ (53 + e) →
  foldl fadd (FFin s) (FFin <$> l) = FFin (s + zsum l).
Proof.
  intros He Hs Hs0 Hl. revert s Hs Hs0.
  induction Hl as [|c l [Hc Hc0] Hl IH]; intros s Hs Hs0 Hlt; cbn [foldl fmap list_fmap zsum foldr] in *.
  - f_equal. lia.
  - fold (zsum l) in *.
    assert (0 ≤ zsum l) by (apply zsum_nonneg; eapply Forall_impl; [done|]; naive_solver).
    rewrite (fadd_grid e) by (done || lia).
    rewrite IH by (try apply Z.divide_add_r; done || lia). f_equal. lia.
Qed.

Lemma sound_sum_nonneg e a : sound e a → 0 ≤ zsum (a_held a).*2.
Proof.
  intros []. apply zsum_nonneg. eapply Forall_impl; [done|]. naive_solver.
Qed.

Lemma sound_pow e a : sound e a → 2 ^ (53 + e) = 2 * 2 ^ (52 + e).
Proof.
  intros [He _ _ _ _ _ _]. replace (53 + e) with (Z.succ (52 + e)) by lia.
  apply Z.pow_succ_r. lia.
Qed.

(** The code's total, [spent + sum(reserved) + cost], is the exact one. *)
Lemma total_exact e a c :
  sound e a → price e c →
  fadd (fadd (FFin (a_spent a)) (fsum (FFin <$> (a_held a).*2))) (FFin c) =
  FFin (exposure a + c).
Proof.
  intros Hs [Hc [Hc0 Hc1]]. pose proof (sound_pow _ _ Hs) as Hp.
  pose proof (sound_sum_nonneg _ _ Hs). destruct Hs as [He [Hd Hn] Hh _ Hcap Hlim _].
  unfold exposure in *. unfold fsum, fzero.
  assert (2 ^ e | zsum (a_held a).*2).
  { apply zsum_divide. eapply Forall_impl; [done|]. naive_solver. }
  rewrite (foldl_fadd_grid e) by (done || apply Z.divide_0_r || lia).
  rewrite Z.add_0_l.
  rewrite (fadd_grid e) by (done || lia).
  by rewrite (fadd_grid e) by (try apply Z.divide_add_r; done || lia).
Qed.

(** ** Refinement *)

Lemma prune_concretize now a :
  Manager.prune now (concretize a) = concretize (a_prune now a).
Proof. done. Qed.

Lemma a_prune_sound e now a : sound e a → sound e (a_prune now a).
Proof.
  intros []. split; try done. unfold a_slots in *. simpl.
  pose proof (length_filter (fun t => fgtb t (fsub now (a_window a)) = true) (a_calls a)).
  lia.
Qed.

Lemma afford_concretize e a c :
  sound e a → price e c →
  Manager.afford (concretize a) (FFin c) =
  if a_limit a <? exposure a + c then (false, spend_cap_exceeded)
  else if a_rate a <=? a_slots a then (false, rate_cap_exceeded)
  else (true, "ok").
Proof.
  intros Hs Hp. unfold Manager.afford, Manager.reserved_sum, a_slots.
  simpl spent. simpl reserved. rewrite snd_map_held, (total_exact e) by done.
  simpl. by rewrite length_fmap.
Qed.

Lemma reserve_refines e a c now token :
  sound e a → price e c →
  Manager.reserve_mutator (FFin c) now token (concretize a) =
  prod_map id concretize (a_reserve c now token a).
Proof.
  intros Hs Hp. unfold Manager.reserve_mutator, a_reserve. cbv zeta.
  rewrite prune_concretize, (afford_concretize e) by (by try apply a_prune_sound).
  repeat case_match; simplify_eq; try done.
  unfold prod_map, concretize, set_reserved. simpl. by rewrite dict_set_map.
Qed.

Lemma can_afford_refines e a c now :
  sound e a → price e c →
  Manager.can_afford_mutator (FFin c) now (concretize a) = prod_map id concretize (a_can_afford c now a).
Proof.
  intros Hs Hp. unfold Manager.can_afford_mutator, a_can_afford. cbv zeta.
  by rewrite prune_concretize, (afford_concretize e) by (by try apply a_prune_sound).
Qed.

Lemma commit_refines e a token now :
  sound e a →
  Manager.commit_mutator token now (concretize a) =
  prod_map id concretize (a_commit token now a).
Proof.
  intros Hs. unfold Manager.commit_mutator, a_commit. simpl reserved.
  rewrite dict_get_map. destruct (dict_get token (a_held a)) as [c|] eqn:Hg; [|done].
  pose proof (exposure_pop _ _ _ Hg) as Hx. pose proof (sound_pow _ _ Hs).
  destruct Hs as [He [Hd Hn] Hh _ Hcap Hlim _]. unfold exposure in Hcap.
  destruct (dict_get_Forall _ _ _ _ Hh Hg) as [Hdc Hc].
  pose proof (dict_pop_Forall _ token _ Hh).
  assert (0 ≤ zsum (dict_pop token (a_held a)).*2).
  { apply zsum_nonneg. eapply Forall_impl; [done|]. naive_solver. }
  simpl. rewrite (fround_grid e (a_spent a + c)); [|done|split; [by apply Z.divide_add_r|lia]].
  unfold prod_map, concretize, set_calls, set_spent, set_reserved. simpl.
  by rewrite dict_pop_map.
Qed.

Lemma release_refines a token :
  Manager.release_mutator token (concretize a) =
  prod_map id concretize (a_release token a).
Proof.
  unfold Manager.release_mutator, a_release. simpl reserved.
  rewrite dict_get_map. destruct (dict_get token (a_held a)); [|done].
  simpl. unfold prod_map, concretize, set_reserved. simpl. by rewrite dict_pop_map.
Qed.

(** ** The cap is kept by every operation *)

Lemma a_reserve_sound e a c now token :
  sound e a → price e c → dict_get token (a_held a) = None →
  sound e (a_reserve c now token a).2.
Proof.
  intros Hs%(a_prune_sound e now) [Hd [Hc _]] Hfresh. unfold a_reserve. cbv zeta.
  change (a_held a) with (a_held (a_prune now a)) in Hfresh.
  revert Hs Hfresh. generalize (a_prune now a) as p. intros p Hs Hfresh.
  destruct (Z.ltb_spec (a_limit p) (exposure p + c)); [done|].
  destruct (Z.leb_spec (a_rate p) (a_slots p)); [done|].
  destruct Hs. unfold exposure, a_slots in *.
  assert (dict_set token c (a_held p) = a_held p ++ [(token, c)]) as Happ
    by (by apply dict_set_fresh).
  split; simpl; try done.
  - rewrite Happ, fmap_app, Forall_app. split; [done|]. simpl. by repeat constructor.
  - by apply dict_set_nodup.
  - unfold exposure. simpl. rewrite Happ, fmap_app, zsum_app. simpl. lia.
  - unfold a_slots. simpl. rewrite Happ, length_app. simpl. lia.
Qed.

Lemma a_pop_sound e a token c spent' calls' :
  sound e a → dict_get token (a_held a) = Some c →
  (2 ^ e | spent') → 0 ≤ spent' ≤ a_spent a + c →
  (length calls' ≤ S (length (a_calls a)))%nat →
  sound e (mkAccount (a_limit a) (a_rate a) (a_window a) spent' calls'
             (dict_pop token (a_held a))).
Proof.
  intros [] Hg Hd Hs Hlen. pose proof (exposure_pop _ _ _ Hg).
  pose proof (length_dict_pop _ _ _ Hg).
  unfold exposure, a_slots in *. split; simpl; try done.
  - split; [done|lia].
  - by apply dict_pop_Forall.
  - by apply dict_pop_nodup.
  - unfold exposure. simpl. lia.
  - unfold a_slots. simpl. lia.
Qed.

Lemma a_commit_sound e a token now : sound e a → sound e (a_commit token now a).2.
Proof.
  intros Hs. unfold a_commit. destruct (dict_get token (a_held a)) as [c|] eqn:Hg; [|done].
  pose proof Hs as [_ [? ?] Hh _ _ _ _]. destruct (dict_get_Forall _ _ _ _ Hh Hg).
  eapply a_pop_sound; [done..| | |].
  - by apply Z.divide_add_r.
  - lia.
  - rewrite length_app. simpl. lia.
Qed.

Lemma a_release_sound e a token : sound e a → sound e (a_release token a).2.
Proof.
  intros Hs. unfold a_release. destruct (dict_get token (a_held a)) as [c|] eqn:Hg; [|done].
  pose proof Hs as [_ [? ?] Hh _ _ _ _]. destruct (dict_get_Forall _ _ _ _ Hh Hg).
  eapply a_pop_sound; [done|done|done|lia|lia].
Qed.

(** ** The store-backed manager under any interleaving

    Each manager operation is one atomic [mutate_budget], so workers interleave
    whole operations. *)

Inductive mop :=
| OpReserve (agent : string) (cost : Z) (now : float64) (token : string)
| OpCommit (agent token : string) (now : float64)
| OpRelease (agent token : string)
| OpCanAfford (agent : string) (cost : Z) (now : float64)
| OpGet (agent : string).

Section manager.
Context (dflt : Budget) (e : Z).

Definition run_mop (o : mop) (m : Manager.manager) : Manager.manager :=
  match o with
  | OpReserve ag c now tok => (Manager.reserve dflt ag (PFloat (FFin c)) now tok m).2
  | OpCommit ag tok now => (Manager.commit dflt ag tok now m).2
  | OpRelease ag tok => (Manager.release dflt ag tok m).2
  | OpCanAfford ag c now => (Manager.can_afford dflt ag (PFloat (FFin c)) now m).2
  | OpGet ag => (Manager.get_budget dflt ag m).2
  end.

Abbreviation current := (Manager.current dflt).

(** Reserved amounts are prices of the grid and [uuid4] tokens are new. *)
Definition mop_ok (m : Manager.manager) (o : mop) : Prop :=
  match o with
  | OpReserve ag c _ tok => price e c ∧ dict_get tok (reserved (current m ag)) = None
  | OpCanAfford _ c _ => price e c
  | _ => True
  end.

Inductive mstep : Manager.manager → Manager.manager → Prop :=
| mstep_op o m : mop_ok m o → mstep m (run_mop o m).

(** The budget is the image of a sound account. *)
Definition capped (b : Budget) : Prop := ∃ a, b = concretize a ∧ sound e a.

Record manager_ok (m : Manager.manager) : Prop := mkManagerOk {
  mo_rows : ∀ ag r, Manager.rows m !! ag = Some r → capped (from_state r);
  mo_cache : ∀ ag b, Manager.cache m !! ag = Some b → capped b;
}.

Hypothesis dflt_ok : capped dflt.

Lemma current_capped m ag : manager_ok m → capped (current m ag).
Proof using dflt_ok.
  intros [Hr Hc]. unfold Manager.current, Manager.seed.
  destruct (Manager.rows m !! ag) eqn:E; [by eapply Hr|].
  rewrite from_state_state. destruct (Manager.cache m !! ag) eqn:E'; [by eapply Hc|done].
Qed.

Lemma store_row_ok m ag b :
  manager_ok m → capped b → manager_ok (Manager.store_row ag b m).
Proof using Type.
  intros [Hr Hc] Hb. split; simpl; [|done]. intros ag' r.
  rewrite lookup_insert. case_decide; [|by apply Hr]. intros [= <-].
  by rewrite from_state_state.
Qed.

Lemma store_settled_ok m ag b :
  manager_ok m → capped b → manager_ok (Manager.store_settled ag b m).
Proof using Type.
  intros Hm Hb. destruct (store_row_ok m ag b Hm Hb) as [Hr _]. destruct Hm as [_ Hc].
  split; simpl; [apply Hr|]. intros ag' b'.
  rewrite lookup_delete. case_decide; [done|by apply Hc].
Qed.

Lemma run_mop_ok m o : manager_ok m → mop_ok m o → manager_ok (run_mop o m).
Proof using dflt_ok.
  intros Hm Ho. destruct o as [ag c now tok|ag tok now|ag tok|ag c now|ag]; unfold mop_ok, run_mop in *;
    pose proof (current_capped m ag Hm) as (a & Ha & Hs).
  - destruct Ho as [Hp Hf]. erewrite Manager.reserve_run by (apply checked_cost_float, Hp).
    rewrite Ha in *. unfold concretize in Hf. simpl reserved in Hf.
    rewrite dict_get_map in Hf.
    rewrite (reserve_refines e) by done. apply store_settled_ok; [done|].
    eexists; split; [done|]. apply a_reserve_sound; [done..|].
    by destruct (dict_get tok (a_held a)).
  - rewrite Manager.commit_run, Ha, (commit_refines e) by done.
    apply store_settled_ok; [done|]. eexists; split; [done|]. by apply a_commit_sound.
  - rewrite Manager.release_run, Ha, release_refines.
    apply store_settled_ok; [done|]. eexists; split; [done|]. by apply a_release_sound.
  - erewrite Manager.can_afford_run by (apply checked_cost_float, Ho). rewrite Ha.
    apply store_row_ok; [done|]. exists (a_prune now a). split; [done|].
    by apply a_prune_sound.
  - destruct Hm as [Hr Hc]. split; simpl; [done|]. intros ag' b.
    rewrite lookup_insert. case_decide; [|by apply Hc]. intros [= <-].
    unfold Manager.current, Manager.seed in Ha.
    destruct (Manager.rows m !! ag) eqn:E; [by eapply Hr|].
    rewrite from_state_state in Ha. rewrite Ha. by exists a.
Qed.

Lemma reachable_ok m m' : manager_ok m → rtc mstep m m' → manager_ok m'.
Proof using dflt_ok.
  induction 2 as [|m m1 m' [o m0 Ho] _ IH]; [done|]. by apply IH, run_mop_ok.
Qed.

(** The numbers the code itself computes stay under the cap. *)
Definition under_cap (b : Budget) : Prop :=
  ∃ s r l, spent b = FFin s ∧ Manager.reserved_sum b = FFin r ∧ spend_limit b = FFin l ∧
    0 ≤ s ∧ 0 ≤ r ∧ s + r ≤ l ∧
    Z.of_nat (length (calls b)) + Z.of_nat (length (reserved b)) ≤ Z.max 0 (rate_limit b).

Lemma capped_under_cap b : capped b → under_cap b.
Proof using Type.
  intros (a & -> & Hs). pose proof (sound_sum_nonneg _ _ Hs).
  pose proof (sound_pow _ _ Hs). destruct Hs as [He [Hd Hn] Hh _ Hcap Hlim Hsl].
  exists (a_spent a), (zsum (a_held a).*2), (a_limit a).
  unfold exposure in Hcap.
  split_and!; try done.
  - unfold Manager.reserved_sum, fsum, fzero. simpl reserved. rewrite snd_map_held.
    rewrite (foldl_fadd_grid e); [done|done|apply Z.divide_0_r|done|done|lia].
  - simpl. unfold a_slots in Hsl. by rewrite length_fmap.
Qed.
End manager.

(** A budget with integral amounts, the shape the examples and the default
    factory use: [Budget(spend_limit=100.0, rate_limit=1000, window_seconds=3600)]. *)
Definition default_budget : Budget :=
  mkBudget (fl 100) 1000 (fl 3600) fzero [] [].

Lemma default_budget_capped : capped 1074 default_budget.
Proof.
  exists (mkAccount (100 * 2 ^ 1074) 1000 (fl 3600) 0 [] []). split; [done|].
  split; try done; simpl.
  - by split; [apply Z.divide_0_r|].
  - constructor.
Qed.

(** Under any interleaving of store-backed budget operations by any number
    of workers, every agent's recorded spend plus outstanding reservations stays
    within its spend limit, and recent calls plus reservations within its rate
    limit.  Amounts are multiples of [2^e] units, so float sums are exact. *)
Theorem budget_cap_invariant dflt e m m' ag :
  capped e dflt → manager_ok e m → rtc (mstep dflt e) m m' →
  under_cap (Manager.current dflt m' ag).
Proof.
  intros Hd Hm Hr. eapply capped_under_cap, current_capped; [done|].
  by eapply reachable_ok.
Qed.

Definition empty_manager : Manager.manager := Manager.mkManager ∅ ∅.

Lemma budget_cap_invariant_witness :
  under_cap (Manager.current default_budget
    (run_mop default_budget (OpCommit "a" "t1" (fl 5))
      (run_mop default_budget (OpReserve "a" (60 * 2 ^ 1074) (fl 2) "t2")
        (run_mop default_budget (OpReserve "a" (60 * 2 ^ 1074) (fl 1) "t1") empty_manager))) "a").
Proof.
  apply (budget_cap_invariant default_budget 1074 empty_manager).
  - apply default_budget_capped.
  - split; intros ? ?; simpl; by rewrite lookup_empty.
  - assert (Hp : price 1074 (60 * 2 ^ 1074)) by (split; [by exists 60|done]).
    eapply rtc_l; [apply (mstep_op _ _ (OpReserve "a" (60 * 2 ^ 1074) (fl 1) "t1"));
                   split; [exact Hp|vm_compute; reflexivity]|].
    eapply rtc_l; [apply (mstep_op _ _ (OpReserve "a" (60 * 2 ^ 1074) (fl 2) "t2"));
                   split; [exact Hp|vm_compute; reflexivity]|].
    apply rtc_once, (mstep_op _ _ (OpCommit "a" "t1" (fl 5))). exact I.
Defined.

(** C11: on the grid the float budget refines the exact account.  Let the budget
    be the image of a sound account: for some [e] between 0 and 2045 its amounts
    are nonnegative multiples of [2^e] units, its limit is below [2^(52+e)], its
    tokens distinct, its exposure within the limit and its calls and reservations
    within the rate; and let the price be such an amount below [2^(52+e)].  Then each of the four mutators that the manager runs in the
    store ([can_afford], [reserve], [commit], [release]) returns the account's
    answer and leaves the image of the account's next state, again sound (for a
    reservation, if its token is new): reserve adds exactly the cost, commit
    moves exactly the held amount to [spent], release drops exactly it, and
    [can_afford] or a refusal changes nothing but the pruning of expired calls. *)
Theorem budget_refines_account e a c now token :
  sound e a → price e c →
  Manager.can_afford_mutator (FFin c) now (concretize a) =
    prod_map id concretize (a_can_afford c now a) ∧
  Manager.reserve_mutator (FFin c) now token (concretize a) =
    prod_map id concretize (a_reserve c now token a) ∧
  Manager.commit_mutator token now (concretize a) =
    prod_map id concretize (a_commit token now a) ∧
  Manager.release_mutator token (concretize a) =
    prod_map id concretize (a_release token a) ∧
  sound e (a_can_afford c now a).2 ∧
  (dict_get token (a_held a) = None → sound e (a_reserve c now token a).2) ∧
  sound e (a_commit token now a).2 ∧ sound e (a_release token a).2.
Proof.
  intros Hs Hp. split_and!.
  - by apply (can_afford_refines e).
  - by apply (reserve_refines e).
  - by apply (commit_refines e).
  - apply release_refines.
  - by apply a_prune_sound.
  - by apply a_reserve_sound.
  - by apply a_commit_sound.
  - by apply a_release_sound.
Qed.

Definition sample_account : account :=
  mkAccount (100 * 2 ^ 1074) 3 (fl 60) (10 * 2 ^ 1074) [fl 7] [("t", 20 * 2 ^ 1074)].

Lemma sample_account_sound : sound 1074 sample_account.
Proof.
  split; try done; simpl.
  - split; [by exists 10|done].
  - repeat constructor; [by exists 20|done].
  - apply NoDup_singleton.
Qed.

Lemma budget_refines_account_witness :
  sound 1074 sample_account ∧
  Manager.reserve_mutator (FFin (30 * 2 ^ 1074)) (fl 8) "u" (concretize sample_account) =
    prod_map id concretize (a_reserve (30 * 2 ^ 1074) (fl 8) "u" sample_account).
Proof.
  split; [apply sample_account_sound|].
  refine (proj1 (proj2 (budget_refines_account 1074 _ _ (fl 8) "u" sample_account_sound _))).
  split; [by exists 30|done].
Defined.

(** ** One settlement per token *)

(** A reservation token is settled at most once.  After a commit or a
    release of it has succeeded, any later commit or release of the same token
    reports failure and leaves the budget as it is. *)
Theorem token_settled_once (b : Budget) token now now' :
  NoDup (dict_keys (reserved b)) →
  let settled := [(Manager.commit_mutator token now b).2;
                  (Manager.release_mutator token b).2] in
  Forall (fun b' =>
    Manager.commit_mutator token now' b' = (false, b') ∧
    Manager.release_mutator token b' = (false, b')) settled.
Proof.
  intros Hnd. unfold Manager.commit_mutator, Manager.release_mutator.
  destruct (dict_get token (reserved b)) eqn:Hg; simpl;
    repeat constructor; simpl; by rewrite ?Hg, ?dict_get_pop_eq.
Qed.

Lemma token_settled_once_witness :
  Manager.commit_mutator "t" (fl 9)
    (Manager.commit_mutator "t" (fl 8) (concretize sample_account)).2 =
  (false, (Manager.commit_mutator "t" (fl 8) (concretize sample_account)).2).
Proof.
  pose proof (token_settled_once (concretize sample_account) "t" (fl 8) (fl 9)
                ltac:(apply NoDup_singleton)) as H.
  cbv zeta in H. apply Forall_cons in H as [[H _] _]. exact H.
Defined.

(** ** The rolling rate cap *)

(** Commit times still inside the window [(t - w, t]]. *)
Definition in_window (w t : Z) (h : list Z) : list Z := filter (fun x => t - w < x) h.

Definition calls_in (w u : Z) (cs : list float64) : list float64 :=
  filter (fun f => fltb (FFin (u - w)) f = true) cs.

(** One budget under monotone clock readings; [h] is the history of commits. *)
Inductive rolling_step (e w : Z) : Budget * list Z * Z → Budget * list Z * Z → Prop :=
| rs_reserve b h t t' cost token :
    t ≤ t' → (2 ^ e | t') → Z.abs (t' - w) < 2 ^ (53 + e) →
    rolling_step e w (b, h, t) ((Manager.reserve_mutator cost (FFin t') token b).2, h, t')
| rs_can_afford b h t t' cost :
    t ≤ t' → (2 ^ e | t') → Z.abs (t' - w) < 2 ^ (53 + e) →
    rolling_step e w (b, h, t) ((Manager.can_afford_mutator cost (FFin t') b).2, h, t')
| rs_commit b h t t' token b' :
    t ≤ t' → Manager.commit_mutator token (FFin t') b = (true, b') →
    rolling_step e w (b, h, t) (b', t' :: h, t')
| rs_release b h t token :
    rolling_step e w (b, h, t) ((Manager.release_mutator token b).2, h, t).

Definition slots (b : Budget) : nat := length (calls b) + length (reserved b).

(** What the run keeps: the retained calls cover every commit of any window
    that ends now or later. *)
Definition rolling_inv (e w rate : Z) (x : Budget * list Z * Z) : Prop :=
  let '(b, h, t) := x in
  window_seconds b = FFin w ∧ rate_limit b = rate ∧ Z.of_nat (slots b) ≤ Z.max 0 rate ∧
  ∀ u, t ≤ u → (length (in_window w u h) ≤ length (calls_in w u (calls b)))%nat.

Lemma length_dict_set_le {V} k (v : V) (d : list (string * V)) :
  (length (dict_set k v d) ≤ S (length d))%nat.
Proof. induction d as [|[i x] d IH]; simpl; [lia|]. case_decide; simpl; lia. Qed.

Lemma length_in_window_cons w u t h :
  length (in_window w u (t :: h)) = ((if (u - w <? t)%Z then 1 else 0) + length (in_window w u h))%nat.
Proof.
  unfold in_window. rewrite filter_cons. case_decide as Hd.
  - by rewrite (proj2 (Z.ltb_lt _ _) Hd).
  - by rewrite (proj2 (Z.ltb_nlt _ _) Hd).
Qed.

Lemma length_calls_in_snoc w u t cs :
  length (calls_in w u (cs ++ [FFin t])) =
  ((if (u - w <? t)%Z then 1 else 0) + length (calls_in w u cs))%nat.
Proof.
  unfold calls_in. rewrite filter_app, length_app, filter_cons. simpl.
  destruct (u - w <? t); simpl; lia.
Qed.

Lemma prune_covers w t' u (cs : list float64) :
  t' ≤ u → calls_in w u (filter (fun f => fgtb f (FFin (t' - w)) = true) cs) = calls_in w u cs.
Proof.
  intros Hle. unfold calls_in. rewrite list_filter_filter. apply list_filter_iff. intros f.
  unfold fgtb. split; [naive_solver|]. intros H. split; [done|].
  destruct f as [|[]|z]; simpl in *; try done. apply Z.ltb_lt in H. apply Z.ltb_lt. lia.
Qed.

Lemma prune_inv e w rate b h t t' :
  0 ≤ e ≤ 2045 → (2 ^ e | w) → t ≤ t' → (2 ^ e | t') → Z.abs (t' - w) < 2 ^ (53 + e) →
  rolling_inv e w rate (b, h, t) → rolling_inv e w rate (Manager.prune (FFin t') b, h, t').
Proof.
  intros He Hw Hle Ht Habs (Hwin & Hrate & Hsl & Hcov). unfold Manager.prune.
  assert (fsub (FFin t') (window_seconds b) = FFin (t' - w)) as Hcut.
  { rewrite Hwin. unfold fsub. simpl fopp. rewrite (fadd_grid e); try done.
    by apply Z.divide_opp_r. }
  rewrite Hcut. unfold set_calls. split_and!; cbn [window_seconds rate_limit calls]; try done.
  - unfold slots in *. cbn [calls reserved].
    pose proof (length_filter (fun f => fgtb f (FFin (t' - w)) = true) (calls b)). lia.
  - intros u Hu. rewrite prune_covers by done. apply Hcov. lia.
Qed.

Lemma rolling_step_inv e w rate x y :
  0 ≤ e ≤ 2045 → (2 ^ e | w) → rolling_step e w x y →
  rolling_inv e w rate x → rolling_inv e w rate y.
Proof.
  intros He Hw Hstep Hinv.
  destruct Hstep as [b h t t' cost token Hle Hd Ha|b h t t' cost Hle Hd Ha
                    |b h t t' token b' Hle Hc|b h t token].
  - apply (prune_inv e w rate b h t t') in Hinv; [|done..].
    unfold Manager.reserve_mutator. cbv zeta.
    revert Hinv. generalize (Manager.prune (FFin t') b) as p. intros p (Hwin & Hrate & Hsl & Hcov).
    destruct (Manager.afford p cost) as [[] why] eqn:Haff; [|done]. simpl.
    unfold Manager.afford in Haff. case_match; [done|]. case_match eqn:Hrl; [done|].
    apply Z.leb_gt in Hrl. repeat split; simpl; try done.
    unfold slots in *. simpl. pose proof (length_dict_set_le token cost (reserved p)). lia.
  - by apply (prune_inv e w rate b h t t').
  - destruct Hinv as (Hwin & Hrate & Hsl & Hcov). unfold Manager.commit_mutator in Hc.
    destruct (dict_get token (reserved b)) as [c|] eqn:Hg; [|done]. simplify_eq.
    repeat split; simpl; try done.
    + unfold slots in *. simpl. rewrite length_app. simpl.
      pose proof (length_dict_pop _ _ _ Hg). lia.
    + intros u Hu. rewrite length_in_window_cons, length_calls_in_snoc.
      specialize (Hcov u ltac:(lia)). lia.
  - destruct Hinv as (Hwin & Hrate & Hsl & Hcov). unfold Manager.release_mutator.
    destruct (dict_get token (reserved b)) as [c|] eqn:Hg; [|done].
    repeat split; simpl; try done. unfold slots in *. simpl.
    pose proof (length_dict_pop _ _ _ Hg). lia.
Qed.

(** The rate cap is a rolling one.  Along any run of budget operations with
    nondecreasing clock readings, at every moment [t] at most [rate_limit] calls
    were committed in the window [(t - window_seconds, t]]. *)
Theorem rolling_rate_cap e w b t b' h t' :
  0 ≤ e ≤ 2045 → (2 ^ e | w) → window_seconds b = FFin w → 0 ≤ rate_limit b →
  Z.of_nat (slots b) ≤ rate_limit b →
  rtc (rolling_step e w) (b, [], t) (b', h, t') →
  Z.of_nat (length (in_window w t' h)) ≤ rate_limit b.
Proof.
  intros He Hw Hwin Hr0 Hsl Hrtc.
  assert (rolling_inv e w (rate_limit b) (b', h, t')) as (_ & _ & Hsl' & Hcov).
  { eapply rtc_ind_r with (P := rolling_inv e w (rate_limit b)); [|by eauto using rolling_step_inv|done].
    repeat split; try done; [lia|]. intros; simpl; lia. }
  specialize (Hcov t' ltac:(lia)). unfold slots, calls_in in *.
  pose proof (length_filter (fun f => fltb (FFin (t' - w)) f = true) (calls b')). lia.
Qed.

Lemma rolling_rate_cap_witness :
  Z.of_nat (length (in_window (60 * 2 ^ 1074) (9 * 2 ^ 1074) [9 * 2 ^ 1074])) ≤ 3.
Proof.
  eapply (rolling_rate_cap 1074 (60 * 2 ^ 1074) (concretize sample_account) 0);
    [lia|by exists 60|done|done|vm_compute; discriminate|].
  apply rtc_once. eapply (rs_commit _ _ _ _ _ _ "t"); [lia|reflexivity].
Defined.

(** ** The object and the manager agree *)

Lemma drop_expired_filter cutoff cs :
  cutoff ≠ FNan → Forall (fun t => t ≠ FNan) cs →
  StronglySorted (fun x y => fleb x y = true) cs →
  Object.drop_expired cutoff cs = filter (fun t => fgtb t cutoff = true) cs.
Proof.
  intros Hc Hn. induction cs as [|t cs IH]; intros Hs; [done|].
  apply Forall_cons in Hn as [Ht Hn]. apply StronglySorted_inv in Hs as [Hs Hle].
  simpl. rewrite filter_cons. unfold fgtb in *.
  assert (fltb cutoff t = negb (fleb t cutoff)) as Hneg by (by apply fltb_total).
  destruct (fleb t cutoff) eqn:E; simpl in Hneg.
  - rewrite Hneg, decide_False by done. by apply IH.
  - rewrite Hneg, decide_True by done. f_equal. symmetry. apply list_filter_true.
    eapply Forall_impl; [exact Hle|]. intros x Hx. simpl in Hx. by eapply fltb_fleb_trans.
Qed.

Lemma checked_cost_idem p c : checked_cost p = Ok c → checked_cost (PFloat c) = Ok c.
Proof. intros (z & -> & Hz)%checked_cost_Ok. by apply checked_cost_float. Qed.

Lemma object_can_afford_run b p c now :
  checked_cost p = Ok c →
  Object.can_afford p now b =
  (Ok (Manager.afford (Object.prune now b) c), Object.prune now b).
Proof.
  intros Hp. unfold Object.can_afford. rewrite run_bind. unfold lift. rewrite Hp.
  rewrite run_bind. unfold modify. rewrite run_bind. unfold get, Manager.afford, Manager.reserved_sum, Object.reserved_total.
  destruct (fgtb _ _); [done|]. by destruct (_ <=? _).
Qed.

(** The in-process [Budget] and the store-backed [BudgetManager] implement
    the same policy.  When recorded call times are in order, the deque pruning
    loop keeps exactly the calls the manager's list filter keeps, and reserve,
    commit and release return the same answer and the same state, errors
    included. *)
Theorem object_manager_agree b p now token :
  fsub now (window_seconds b) ≠ FNan → Forall (fun t => t ≠ FNan) (calls b) →
  StronglySorted (fun x y => fleb x y = true) (calls b) →
  Object.reserve p now token b =
    match checked_cost p with
    | Raise e => (Raise e, b)
    | Ok c => (Ok (Manager.reserve_mutator c now token b).1,
               (Manager.reserve_mutator c now token b).2)
    end ∧
  Object.commit token now b = (Ok (Manager.commit_mutator token now b).1,
                               (Manager.commit_mutator token now b).2) ∧
  Object.release token b = (Ok (Manager.release_mutator token b).1,
                            (Manager.release_mutator token b).2).
Proof.
  intros Hcut Hn Hs.
  assert (Object.prune now b = Manager.prune now b) as Hprune.
  { unfold Object.prune, Manager.prune. by rewrite drop_expired_filter. }
  split_and!.
  - unfold Object.reserve. rewrite run_bind. unfold lift.
    destruct (checked_cost p) as [c|e] eqn:Hp; [|done].
    rewrite run_bind, (object_can_afford_run _ _ c) by (by eapply checked_cost_idem).
    rewrite Hprune. unfold Manager.reserve_mutator. cbv zeta.
    by destruct (Manager.afford _ c) as [[] why].
  - unfold Object.commit, Manager.commit_mutator. rewrite run_bind. cbn [get].
    by case_match.
  - unfold Object.release, Manager.release_mutator. rewrite run_bind. cbn [get].
    by case_match.
Qed.

Lemma object_manager_agree_witness :
  (Object.reserve (PInt 5) (fl 8) "u" (concretize sample_account)).1 =
  Ok (Manager.reserve_mutator (fl 5) (fl 8) "u" (concretize sample_account)).1.
Proof.
  rewrite (proj1 (object_manager_agree (concretize sample_account) (PInt 5) (fl 8) "u"
    ltac:(vm_compute; discriminate) ltac:(repeat constructor; discriminate)
    ltac:(repeat constructor))).
  reflexivity.
Defined.
