(* ===== verification/AuditLog.v ===== *)
(** * The hash-linked audit log

    Models src/governance/audit.py, the audit part of src/governance/store.py
    (in-memory and SQL), the retained-capacity triggers of
    src/governance/audit_capacity.py and the offline verifier of
    src/governance/audit_verify.py.

    [AuditCodec] is the interface to SHA-256 over canonical JSON and to the size
    of a stored entry; [CollisionFree] is what tamper evidence needs of it. *)

From stdpp Require Import base list gmap strings pretty relations.
From Stdlib Require Import ZArith Lia Sorted.
From S2P Require Import Prelude PyFloat.

Local Open Scope Z_scope.

Record AuditEntry := mkEntry {
  seq : Z;
  timestamp : string;
  actor : string;
  action : string;
  source_protocol : string;
  target_protocol : string;
  capability : string;
  decision : string;
  reason : string;
  cost : float64;
  prev_hash : string;
  entry_hash : string;
}.

#[global] Instance AuditEntry_eq_dec : EqDecision AuditEntry.
Proof. solve_decision. Defined.

Definition with_hash (h : string) (e : AuditEntry) : AuditEntry :=
  mkEntry (seq e) (timestamp e) (actor e) (action e) (source_protocol e)
    (target_protocol e) (capability e) (decision e) (reason e) (cost e) (prev_hash e) h.

(** [_payload]: every field but [entry_hash]. *)
Definition payload (e : AuditEntry) : AuditEntry := with_hash "" e.

(** SHA-256 of the payload's canonical JSON, and the UTF-8 size of the JSON an
    entry is stored as. *)
Class AuditCodec := {
  payload_digest : AuditEntry → string;
  entry_bytes : AuditEntry → Z;
  entry_bytes_pos : ∀ e, 0 < entry_bytes e;
}.

Class CollisionFree `{AuditCodec} := {
  digest_inj : ∀ e e', payload_digest (payload e) = payload_digest (payload e') →
                       payload e = payload e';
}.

Definition GENESIS : string :=
  "0000000000000000000000000000000000000000000000000000000000000000".

(** The fields a caller of [record] supplies. *)
Record event := mkEvent {
  ev_actor : string;
  ev_action : string;
  ev_source : string;
  ev_target : string;
  ev_capability : string;
  ev_decision : string;
  ev_reason : string;
  ev_cost : float64;
}.

Section audit.
Context `{AuditCodec}.

Definition compute_hash (e : AuditEntry) : string := payload_digest (payload e).

(** The [build] closure of [AuditLog.record]. *)
Definition build (ev : event) (now : string) (s : Z) (prev : string) : AuditEntry :=
  let entry := mkEntry s now (ev_actor ev) (ev_action ev) (ev_source ev) (ev_target ev)
                 (ev_capability ev) (ev_decision ev) (ev_reason ev) (ev_cost ev) prev "" in
  with_hash (compute_hash entry) entry.

(** ** Verification *)

(** [sorted(records, key=seq)]: stable. *)
Fixpoint insert_by_seq (e : AuditEntry) (l : list AuditEntry) : list AuditEntry :=
  match l with
  | [] => [e]
  | x :: l' => if seq e <=? seq x then e :: l else x :: insert_by_seq e l'
  end.

Definition sort_by_seq (l : list AuditEntry) : list AuditEntry := foldr insert_by_seq [] l.

Fixpoint verify_loop (prev_seq : Z) (prev : string) (l : list AuditEntry) : bool :=
  match l with
  | [] => true
  | r :: l' =>
      if negb (seq r =? prev_seq + 1) || negb (bool_decide (prev_hash r = prev)) then false
      else if negb (bool_decide (compute_hash r = entry_hash r)) then false
      else verify_loop (seq r) (entry_hash r) l'
  end.

Definition verify_chain (records : list AuditEntry) (require_genesis : bool) : bool :=
  let ordered := sort_by_seq records in
  match ordered with
  | [] => true
  | r :: _ =>
      if require_genesis && (negb (seq r =? 0) || negb (bool_decide (prev_hash r = GENESIS)))
      then false
      else verify_loop (seq r - 1) (prev_hash r) ordered
  end.

Definition min_seq (l : list AuditEntry) : option Z :=
  match sort_by_seq l with [] => None | r :: _ => Some (seq r) end.

Definition starts_at_genesis (records : list AuditEntry) : bool :=
  match min_seq records with None => true | Some n => n =? 0 end.

(** [verify_durable]: in production a truncated chain is never accepted. *)
Definition verify_durable (prod : bool) (records : list AuditEntry) : bool :=
  if prod then verify_chain records true
  else verify_chain records (starts_at_genesis records).

End audit.

(** ** The in-memory store and log *)
Module InMemory.
Section inmemory.
Context `{AuditCodec}.

Definition load_audit_head (l : list AuditEntry) : option AuditEntry := last l.

Definition append_audit_chained (b : Z → string → AuditEntry)
  : M (list AuditEntry) AuditEntry := fun l =>
  let '(s, prev) := match last l with
                    | Some e => (seq e + 1, entry_hash e)
                    | None => (0, GENESIS)
                    end in
  let entry := b s prev in
  (Ok entry, l ++ [entry]).

Definition truncate_audit_before (s : Z) : M (list AuditEntry) Z := fun l =>
  if s <=? 0 then (Ok 0, l)
  else let l' := filter (fun e => s <= seq e) l in
       (Ok (Z.of_nat (length l) - Z.of_nat (length l')), l').

(** The process-local log over an in-memory store. *)
Record log := mkLog {
  store : list AuditEntry;
  entries : list AuditEntry;
  legal_hold : bool;
}.

Definition record (ev : event) (now : string) : M log AuditEntry := fun lg =>
  match append_audit_chained (build ev now) (store lg) with
  | (Ok e, st) => (Ok e, mkLog st (entries lg ++ [e]) (legal_hold lg))
  | (Raise x, st) => (Raise x, mkLog st (entries lg) (legal_hold lg))
  end.

Definition set_legal_hold (on : bool) : M log unit :=
  modify (fun lg => mkLog (store lg) (entries lg) on).

Definition verify_integrity (lg : log) : bool :=
  verify_chain (entries lg) (starts_at_genesis (entries lg)).

Definition truncate_before (prod : bool) (s : Z) : M log Z := fun lg =>
  if prod then (Raise (PermissionError "production audit deletion requires durable legal holds and trusted checkpoints"), lg)
  else if s <=? 0 then (Ok 0, lg)
  else if legal_hold lg then (Ok 0, lg)
  else
    let '(r, st) := truncate_audit_before s (store lg) in
    match r with
    | Raise x => (Raise x, mkLog st (entries lg) (legal_hold lg))
    | Ok removed =>
        let es := if 0 <? removed then filter (fun e => s <= seq e) (entries lg)
                  else entries lg in
        (Ok removed, mkLog st es (legal_hold lg))
    end.
End inmemory.
End InMemory.

(** ** The SQL audit table and its capacity triggers *)
Module Sql.
Record capacity := mkCapacity {
  version : Z;
  max_records : Z;
  max_bytes : Z;
  max_entry_bytes : Z;
  used_records : Z;
  used_bytes : Z;
}.

(** Rows in primary-key order, and the singleton policy row once created. *)
Record audit_db := mkDb {
  rows : list AuditEntry;
  cap : option capacity;
}.

Section sql.
Context `{AuditCodec}.

Definition bytes_of (l : list AuditEntry) : Z := foldr Z.add 0 (entry_bytes <$> l).

(** [AuditLimits.__post_init__]. *)
Definition limits_valid (mr mb me : Z) : bool :=
  (1 <=? mr) && (mr <=? 1000000) && (1 <=? mb) && (mb <=? 1073741824) &&
  (1 <=? me) && (me <=? 65536) && (me <=? mb).

Definition policy_valid (c : capacity) : bool :=
  (version c =? 1) && (0 <=? used_records c) && (0 <=? used_bytes c) &&
  limits_valid (max_records c) (max_bytes c) (max_entry_bytes c).

(** The policy row the insert trigger creates over rows [l] already stored. *)
Definition lazy_policy (l : list AuditEntry) : capacity :=
  mkCapacity 1 100000 67108864 16384 (Z.of_nat (length l)) (bytes_of l).

Definition charge (n b : Z) (c : capacity) : capacity :=
  mkCapacity (version c) (max_records c) (max_bytes c) (max_entry_bytes c)
    (used_records c + n) (used_bytes c + b).

(** [INSERT INTO audit] on SQLite, with the no-replace and the capacity
    trigger.  A raise in a trigger undoes the statement. *)
Definition insert_audit (e : AuditEntry) : M audit_db unit := fun d =>
  if existsb (fun x => seq x =? seq e) (rows d)
  then (Raise (IntegrityError "audit sequence already exists; replacement forbidden"), d)
  else
    let c0 := default (lazy_policy (rows d)) (cap d) in
    if negb (policy_valid c0) then (Raise (IntegrityError "invalid audit capacity policy"), d)
    else
      let c := charge 1 (entry_bytes e) c0 in
      if (max_records c <? used_records c) || (max_bytes c <? used_bytes c) ||
         (max_entry_bytes c <? entry_bytes e)
      then (Raise (IntegrityError "retained audit capacity reached"), d)
      else (Ok tt, mkDb (insert_by_seq e (rows d)) (Some c)).

(** PostgreSQL's [append_audit]: a duplicate sequence is ignored. *)
Definition pg_append_audit (e : AuditEntry) : M audit_db unit := fun d =>
  if existsb (fun x => seq x =? seq e) (rows d) then (Ok tt, d) else insert_audit e d.

Definition load_audit_head (d : audit_db) : option AuditEntry := last (rows d).

Definition head_hash (d : audit_db) : string :=
  match load_audit_head d with Some e => entry_hash e | None => GENESIS end.

Definition append_audit_chained (b : Z → string → AuditEntry) : M audit_db AuditEntry :=
  d ← get;
  let '(s, prev) := match load_audit_head d with
                    | Some e => (seq e + 1, entry_hash e)
                    | None => (0, GENESIS)
                    end in
  let entry := b s prev in
  _ ← insert_audit entry;
  mret entry.

Definition record (ev : event) (now : string) : M audit_db AuditEntry :=
  append_audit_chained (build ev now).

(** [truncate_audit_before]; [holds] are the enabled durable legal holds and
    [retention_guard] the outcome of the operational-evidence check. *)
Definition truncate_audit_before (prod : bool) (holds : list string)
    (retention_guard : outcome unit) (s : Z) : M audit_db Z := fun d =>
  if prod then (Raise (PermissionError "production audit retention requires external anchoring"), d)
  else if s <=? 0 then (Ok 0, d)
  else if negb (bool_decide (holds = [])) then
    (Raise (PermissionError "durable legal hold blocks audit deletion"), d)
  else match retention_guard with
  | Raise x => (Raise x, d)
  | Ok _ =>
    match load_audit_head d with
    | Some h =>
        if seq h <? s then
          (Raise (PermissionError "audit retention must preserve the current chain head"), d)
        else
          let kept := filter (fun e => s <= seq e) (rows d) in
          let gone := filter (fun e => ¬ s <= seq e) (rows d) in
          (Ok (Z.of_nat (length gone)),
           mkDb kept (charge (- Z.of_nat (length gone)) (- bytes_of gone) <$> cap d))
    | None => (Ok 0, d)
    end
  end.

(** [policy(store, limits=...)]: create the row if missing, validate it,
    optionally change the limits. *)
Definition policy (limits : option (Z * Z * Z)) : M audit_db capacity := fun d =>
  if match limits with
     | Some (mr, mb, me) => negb (limits_valid mr mb me)
     | None => false
     end
  then (Raise (RuntimeError "positive bounded audit capacity required"), d)
  else
    let c := default (lazy_policy (rows d)) (cap d) in
    if negb (policy_valid c) then
      (Raise (RuntimeError "missing or unsupported audit capacity policy"), d)
    else
      let c' := match limits with
                | Some (mr, mb, me) =>
                    mkCapacity (version c) mr mb me (used_records c) (used_bytes c)
                | None => c
                end in
      (Ok c', mkDb (rows d) (Some c')).

(** [verify_retained_usage]. *)
Definition verify_retained_usage (d : audit_db) : outcome unit :=
  match cap d with
  | None => Ok tt
  | Some c =>
      if negb (policy_valid c) then
        Raise (RuntimeError "missing or unsupported audit capacity policy")
      else if negb (used_records c =? Z.of_nat (length (rows d))) ||
              negb (used_bytes c =? bytes_of (rows d))
      then Raise (RuntimeError "retained audit counters do not match stored history")
      else Ok tt
  end.
End sql.
End Sql.

(** ** Signed checkpoints *)

Record checkpoint := mkCheckpoint {
  ck_seq : Z;
  ck_head_hash : string;
  ck_public_key_hex : string;
  ck_signature_hex : string;
}.

(** Ed25519 as the code uses it: hex keys and signatures over text payloads. *)
Class SignatureScheme := {
  sign : string → string → string;                 (* private key, payload *)
  verify : string → string → string → bool;        (* public key, signature, payload *)
}.

(** [_checkpoint_payload]. *)
Definition checkpoint_payload (s : Z) (head : string) : string :=
  ("agentbridge-audit-checkpoint:" +:+ pretty s +:+ ":" +:+ head)%string.

Section evidence.
Context `{AuditCodec} `{SignatureScheme}.

(** [AuditLog.checkpoint]: sign the current head. *)
Definition make_checkpoint (d : Sql.audit_db) (private_key public_key_hex : string) : checkpoint :=
  let s := match Sql.load_audit_head d with Some e => seq e + 1 | None => 0 end in
  let head := Sql.head_hash d in
  mkCheckpoint s head public_key_hex (sign private_key (checkpoint_payload s head)).

Definition verify_checkpoint (ck : checkpoint) : bool :=
  verify (ck_public_key_hex ck) (ck_signature_hex ck)
    (checkpoint_payload (ck_seq ck) (ck_head_hash ck)).

(** [verify_evidence_bundle]. *)
Definition verify_evidence_bundle (records : list AuditEntry) (ck : checkpoint)
    (trusted_public_key_hex : string) : outcome bool :=
  if negb (strlen trusted_public_key_hex =? 64)
  then Raise (ValueError "trusted signer key must be 32-byte hex")
  else if negb (bool_decide (ck_public_key_hex ck = trusted_public_key_hex))
  then Raise (ValueError "checkpoint signer is not trusted")
  else if negb (verify_checkpoint ck) then Raise (ValueError "invalid checkpoint signature")
  else if ck_seq ck <? 0 then Raise (ValueError "invalid checkpoint position")
  else
    let ordered := sort_by_seq records in
    let head := ck_head_hash ck in
    let genesis := match ordered with [] => true | r :: _ => seq r =? 0 end in
    if negb (verify_chain ordered genesis) then Raise (ValueError "broken audit chain")
    else match ordered with
    | [] =>
        if negb (ck_seq ck =? 0) || negb (bool_decide (head = GENESIS))
        then Raise (ValueError "non-empty checkpoint but no log") else Ok true
    | first :: _ =>
        if ck_seq ck <? seq first
        then Raise (ValueError "unanchored history gap before checkpoint")
        else if seq first =? ck_seq ck then
          if negb (bool_decide (prev_hash first = head))
          then Raise (ValueError "truncated history fails checkpoint linkage") else Ok true
        else if ck_seq ck =? 0 then
          if negb (bool_decide (head = GENESIS))
          then Raise (ValueError "genesis checkpoint mismatch") else Ok true
        else
          match list_find (fun e => seq e = ck_seq ck - 1) ordered with
          | Some (_, preceding) =>
              if bool_decide (entry_hash preceding = head) then Ok true
              else Raise (ValueError "signed checkpoint disagrees with chain")
          | None => Raise (ValueError "signed checkpoint disagrees with chain")
          end
    end.
End evidence.
