(* ===== verification/AuditSpec.v ===== *)
(** * What the audit log promises

    Chains produced by the store verify, under any interleaving of appends,
    policy changes and permitted truncations; a verified chain is determined by
    its head hash; the retained-capacity counters are exact; and a signed
    checkpoint pins the history before it. *)

From stdpp Require Import base list gmap strings pretty relations.
From Stdlib Require Import ZArith Lia Sorted Ascii.
From S2P Require Import Prelude PyFloat Codec AuditLog.

Local Open Scope Z_scope.

Section chain.
Context `{AuditCodec}.
Implicit Types (l : list AuditEntry) (e r : AuditEntry).

Lemma payload_with_hash h e : payload (with_hash h e) = payload e.
Proof. by destruct e. Qed.

Lemma build_hash ev now s prev :
  compute_hash (build ev now s prev) = entry_hash (build ev now s prev).
Proof. unfold build, compute_hash. cbv zeta. by rewrite payload_with_hash. Qed.

Definition end_seq (p : Z) l : Z := from_option seq p (last l).
Definition end_hash (h : string) l : string := from_option entry_hash h (last l).

Lemma verify_loop_cons p h r l :
  verify_loop p h (r :: l) = true ↔
  seq r = p + 1 ∧ prev_hash r = h ∧ compute_hash r = entry_hash r ∧
  verify_loop (seq r) (entry_hash r) l = true.
Proof.
  simpl. destruct (Z.eqb_spec (seq r) (p + 1)); simpl; [|naive_solver].
  repeat case_bool_decide; simpl; naive_solver.
Qed.

Lemma verify_loop_app p h l l' :
  verify_loop p h (l ++ l') = true ↔
  verify_loop p h l = true ∧ verify_loop (end_seq p l) (end_hash h l) l' = true.
Proof.
  revert p h. induction l as [|r l IH]; intros p h; [simpl; tauto|].
  rewrite <-app_comm_cons, !verify_loop_cons, IH.
  assert (end_seq (seq r) l = end_seq p (r :: l)) as ->.
  { unfold end_seq. rewrite last_cons. by destruct (last l). }
  assert (end_hash (entry_hash r) l = end_hash h (r :: l)) as ->.
  { unfold end_hash. rewrite last_cons. by destruct (last l). }
  tauto.
Qed.

Lemma verify_loop_bounds p h l :
  verify_loop p h l = true → Forall (fun e => p < seq e) l.
Proof.
  revert p h. induction l as [|r l IH]; intros p h; [done|].
  rewrite verify_loop_cons. intros (Hs & _ & _ & Hl). constructor; [lia|].
  eapply Forall_impl; [by eapply IH|]. simpl. lia.
Qed.

Lemma verify_loop_sorted p h l :
  verify_loop p h l = true → StronglySorted (fun a b => seq a < seq b) l.
Proof.
  revert p h. induction l as [|r l IH]; intros p h; [constructor|].
  rewrite verify_loop_cons. intros (_ & _ & _ & Hl). constructor; [by eapply IH|].
  by eapply verify_loop_bounds.
Qed.

Lemma insert_by_seq_head e l :
  Forall (fun x => seq e < seq x) l → insert_by_seq e l = e :: l.
Proof.
  destruct l as [|x l]; [done|]. intros [Hx _]%Forall_cons. simpl.
  destruct (Z.leb_spec (seq e) (seq x)); [done|lia].
Qed.

Lemma insert_by_seq_last e l :
  Forall (fun x => seq x < seq e) l → insert_by_seq e l = l ++ [e].
Proof.
  induction 1 as [|x l Hx Hl IH]; [done|]. simpl.
  destruct (Z.leb_spec (seq e) (seq x)); [lia|]. by rewrite IH.
Qed.

Lemma sort_sorted l : StronglySorted (fun a b => seq a < seq b) l → sort_by_seq l = l.
Proof.
  induction 1 as [|x l Hl IH Hx]; [done|].
  change (sort_by_seq (x :: l)) with (insert_by_seq x (sort_by_seq l)).
  rewrite IH. by apply insert_by_seq_head.
Qed.

Lemma sort_by_seq_perm l : sort_by_seq l ≡ₚ l.
Proof.
  induction l as [|x l IH]; [done|].
  change (sort_by_seq (x :: l)) with (insert_by_seq x (sort_by_seq l)). rewrite <-IH at 2.
  clear IH. generalize (sort_by_seq l) as k. induction k as [|y k IHk]; [done|].
  simpl. destruct (seq x <=? seq y); [done|]. rewrite IHk. constructor.
Qed.

Lemma sort_by_seq_sorted l : StronglySorted (fun a b => seq a ≤ seq b) (sort_by_seq l).
Proof.
  induction l as [|x l IH]; [constructor|].
  change (sort_by_seq (x :: l)) with (insert_by_seq x (sort_by_seq l)). revert IH.
  generalize (sort_by_seq l) as k. clear l. induction 1 as [|y k Hk IH Hy]; [by repeat constructor|].
  simpl. destruct (Z.leb_spec (seq x) (seq y)).
  - constructor; [by constructor|]. constructor; [done|].
    eapply Forall_impl; [exact Hy|]. simpl. lia.
  - constructor; [done|]. clear -H0 Hy. induction Hy as [|z k Hz Hk IH]; simpl;
      [by repeat constructor; lia|].
    destruct (seq x <=? seq z); repeat constructor; (done || lia).
Qed.

Lemma sort_idem l : sort_by_seq (sort_by_seq l) = sort_by_seq l.
Proof.
  generalize (sort_by_seq_sorted l). generalize (sort_by_seq l) as k. clear l.
  induction 1 as [|x k Hk IH Hx]; [done|].
  change (sort_by_seq (x :: k)) with (insert_by_seq x (sort_by_seq k)). rewrite IH.
  destruct k as [|y k]; [done|]. apply Forall_cons in Hx as [Hy _]. simpl.
  by destruct (Z.leb_spec (seq x) (seq y)); [|lia].
Qed.

(** A chain as stored: nonnegative, linked, and anchored at genesis when it
    starts at zero. *)
Definition chain l : Prop :=
  match l with
  | [] => True
  | r :: _ => 0 ≤ seq r ∧ (seq r = 0 → prev_hash r = GENESIS) ∧
              verify_loop (seq r - 1) (prev_hash r) l = true
  end.

Definition complete l : Prop := verify_loop (-1) GENESIS l = true.

Lemma chain_sorted l : chain l → StronglySorted (fun a b => seq a < seq b) l.
Proof. destruct l; [constructor|]. intros (_ & _ & Hv). by eapply verify_loop_sorted. Qed.

Lemma complete_chain l : complete l → chain l.
Proof.
  destruct l as [|r l]; [done|]. unfold complete. intros Hv.
  pose proof Hv as (Hs & Hp & _ & _)%verify_loop_cons.
  split_and!; [lia|done|]. rewrite Hp. by replace (seq r - 1) with (-1) by lia.
Qed.

Lemma complete_verify l : complete l → verify_chain l true = true.
Proof.
  intros Hc. pose proof (complete_chain _ Hc) as Hch.
  unfold verify_chain. rewrite sort_sorted by by apply chain_sorted.
  destruct l as [|r l]; [done|]. unfold complete in Hc.
  pose proof Hc as (Hs & Hp & _ & _)%verify_loop_cons.
  rewrite Hs, Hp. rewrite bool_decide_true by done. done.
Qed.

(** The converse, for records in any order. *)
Lemma verify_complete l : verify_chain l true = true → complete (sort_by_seq l).
Proof.
  unfold verify_chain, complete. destruct (sort_by_seq l) as [|r k] eqn:E; [done|].
  destruct (Z.eqb_spec (seq r) 0) as [Hz|]; [|done].
  case_bool_decide as Hp; [|done]. simpl andb. cbv iota. by rewrite Hz, Hp.
Qed.

Lemma chain_verify_durable l : chain l → verify_durable false l = true.
Proof.
  intros Hc. unfold verify_durable, starts_at_genesis, min_seq, verify_chain.
  rewrite sort_sorted by by apply chain_sorted.
  destruct l as [|r l]; [done|]. destruct Hc as (_ & Hg & Hv).
  destruct (Z.eqb_spec (seq r) 0) as [Hz|]; simpl andb; cbv iota; [|done].
  rewrite bool_decide_true by auto. done.
Qed.

Lemma chain_snoc l e :
  chain l → prev_hash e = end_hash GENESIS l → seq e = end_seq (-1) l + 1 →
  compute_hash e = entry_hash e → chain (l ++ [e]).
Proof.
  intros Hc Hp Hs Hh. destruct l as [|r l].
  - unfold end_seq, end_hash in *. simpl in Hp, Hs. split_and!; [lia|auto|].
    apply verify_loop_cons. split_and!; (done || lia).
  - destruct Hc as (H0 & Hg & Hv). split_and!; [done..|]. rewrite <-app_comm_cons.
    change (r :: l ++ [e]) with ((r :: l) ++ [e]). apply verify_loop_app. split; [done|].
    apply verify_loop_cons. unfold end_seq, end_hash in *. rewrite last_cons in *.
    destruct (last l); split_and!; done.
Qed.

Lemma complete_snoc l e :
  complete l → prev_hash e = end_hash GENESIS l → seq e = end_seq (-1) l + 1 →
  compute_hash e = entry_hash e → complete (l ++ [e]).
Proof.
  intros Hc Hp Hs Hh. apply verify_loop_app. split; [done|].
  apply verify_loop_cons. by split_and!.
Qed.

Lemma chain_below_end l : chain l → Forall (fun x => seq x < end_seq (-1) l + 1) l.
Proof.
  intros Hc%chain_sorted. unfold end_seq. induction Hc as [|x l Hl IH Hx]; [done|].
  rewrite last_cons. destruct (last l) as [y|] eqn:Hy; simpl in *.
  - constructor; [|done]. rewrite Forall_forall in Hx.
    specialize (Hx y ltac:(by apply last_Some_elem_of)). simpl in Hx. lia.
  - apply last_None in Hy as ->. constructor; [lia|done].
Qed.

(** ** Retention keeps a verifiable suffix *)

Lemma filter_suffix s l :
  StronglySorted (fun a b => seq a < seq b) l →
  ∃ gone, l = gone ++ filter (fun e => s <= seq e) l ∧
          gone = filter (fun e => ¬ s <= seq e) l.
Proof.
  induction 1 as [|x l Hl [g [IH1 IH2]] Hx]; [by exists []|].
  rewrite !filter_cons. destruct (decide (s ≤ seq x)) as [Hle|Hgt].
  - exists []. split; simpl.
    + f_equal. symmetry. apply list_filter_true. eapply Forall_impl; [done|]. simpl. lia.
    + case_decide; [done|]. symmetry. apply list_filter_none.
      eapply Forall_impl; [exact Hx|]. simpl. intros; lia.
  - exists (x :: g). case_decide; [|done]. split; simpl; [by f_equal|by f_equal].
Qed.

Lemma chain_filter s l : 0 < s → chain l → chain (filter (fun e => s <= seq e) l).
Proof.
  intros Hs Hc. destruct (filter_suffix s l (chain_sorted _ Hc)) as (g & Heq & _).
  destruct (filter (fun e => s <= seq e) l) as [|r k] eqn:E; [done|].
  assert (s ≤ seq r) as Hr.
  { assert (r ∈ filter (fun e => s <= seq e) l) as Hin by (rewrite E; set_solver).
    apply list_elem_of_filter in Hin as [??]. done. }
  split_and!; [lia|lia|]. destruct l as [|x l]; [by destruct g|].
  destruct Hc as (_ & _ & Hv). rewrite Heq in Hv. apply verify_loop_app in Hv as [_ Hv].
  pose proof Hv as (Hs1 & Hp1 & _ & _)%verify_loop_cons.
  rewrite Hp1. by replace (seq r - 1) with (end_seq (seq x - 1) g) by lia.
Qed.
End chain.

(** ** The SQL store under any interleaving *)

Section store.
Context `{AuditCodec}.
Import AuditLog.Sql.

(** The capacity counters, once created, count what is stored. *)
Definition counted (d : audit_db) : Prop :=
  match cap d with
  | None => True
  | Some c => used_records c = Z.of_nat (length (rows d)) ∧ used_bytes c = bytes_of (rows d)
  end.

Lemma bytes_of_app l l' : bytes_of (l ++ l') = bytes_of l + bytes_of l'.
Proof.
  unfold bytes_of. rewrite fmap_app. induction (entry_bytes <$> l); simpl; [done|lia].
Qed.

Lemma bytes_of_nonneg l : 0 ≤ bytes_of l.
Proof.
  unfold bytes_of. induction l as [|e l IH]; csimpl; [lia|]. pose proof (entry_bytes_pos e). lia.
Qed.

(** A successful append went through every capacity check. *)
Definition within_capacity (e : AuditEntry) (d : audit_db) : Prop :=
  ∃ c, cap d = Some c ∧ policy_valid (charge (-1) (- entry_bytes e) c) = true ∧
    used_records c ≤ max_records c ∧ used_bytes c ≤ max_bytes c ∧
    entry_bytes e ≤ max_entry_bytes c.

Lemma insert_audit_next d e r d' :
  chain (rows d) → counted d → seq e = end_seq (-1) (rows d) + 1 →
  insert_audit e d = (r, d') →
  (d' = d ∧ is_ok r = false) ∨
  (r = Ok tt ∧ rows d' = rows d ++ [e] ∧ counted d' ∧ within_capacity e d').
Proof.
  intros Hc Hn Hs Hi. pose proof (chain_below_end _ Hc) as Hb. rewrite <-Hs in Hb.
  unfold insert_audit in Hi. case_match eqn:Hex; [left; naive_solver|].
  case_match eqn:Hpv; [left; naive_solver|]. case_match eqn:Hcap; [left; naive_solver|].
  right. simplify_eq. rewrite insert_by_seq_last by done.
  apply negb_false_iff in Hpv. apply orb_false_iff in Hcap as [[H1 H2]%orb_false_iff H3].
  set (c0 := default (lazy_policy (rows d)) (cap d)) in *.
  assert (used_records c0 = Z.of_nat (length (rows d)) ∧ used_bytes c0 = bytes_of (rows d))
    as [Hr0 Hb0].
  { subst c0. unfold counted in Hn. by destruct (cap d); simpl. }
  split_and!; [done|done|..].
  - unfold counted. simpl. rewrite length_app, bytes_of_app, Hr0, Hb0.
    unfold bytes_of. simpl. lia.
  - eexists. split_and!; [done|..]; simpl in *.
    + assert (charge (-1) (- entry_bytes e) (charge 1 (entry_bytes e) c0) = c0) as ->; [|done].
      unfold charge. simpl. destruct c0; f_equal; simpl; lia.
    + by apply Z.ltb_ge in H1.
    + by apply Z.ltb_ge in H2.
    + by apply Z.ltb_ge in H3.
Qed.

(** The entry [record] builds for the current head. *)
Definition next_entry (ev : event) (now : string) (d : audit_db) : AuditEntry :=
  build ev now (end_seq (-1) (rows d) + 1) (end_hash GENESIS (rows d)).

Lemma record_run ev now d :
  record ev now d =
  match insert_audit (next_entry ev now d) d with
  | (Ok _, d') => (Ok (next_entry ev now d), d')
  | (Raise x, d') => (Raise x, d')
  end.
Proof.
  unfold record, append_audit_chained. rewrite run_bind. unfold get, load_audit_head,
    next_entry, end_seq, end_hash.
  destruct (last (rows d)); simpl; rewrite run_bind; by destruct (insert_audit _ d) as [[] ?].
Qed.

Lemma record_cases ev now d r d' :
  chain (rows d) → counted d → record ev now d = (r, d') →
  (d' = d ∧ is_ok r = false) ∨
  (r = Ok (next_entry ev now d) ∧ rows d' = rows d ++ [next_entry ev now d] ∧
   counted d' ∧ within_capacity (next_entry ev now d) d').
Proof.
  intros Hc Hn. rewrite record_run.
  destruct (insert_audit (next_entry ev now d) d) as [q d1] eqn:Hi.
  apply insert_audit_next in Hi; [|done..].
  destruct Hi as [[-> Hq]|(-> & Hr & Hn' & Hw)]; intros; [left|right]; [|naive_solver].
  by destruct q; simplify_eq.
Qed.

Inductive audit_step (prod : bool) : audit_db → audit_db → Prop :=
| as_record ev now d : audit_step prod d (record ev now d).2
| as_policy limits d : audit_step prod d (policy limits d).2
| as_truncate holds guard s d :
    audit_step prod d (truncate_audit_before prod holds guard s d).2.

Definition audit_inv (prod : bool) (d : audit_db) : Prop :=
  chain (rows d) ∧ counted d ∧ (prod = true → complete (rows d)).

Lemma policy_preserves limits d :
  counted d → rows (policy limits d).2 = rows d ∧ counted (policy limits d).2.
Proof.
  intros Hn. unfold policy.
  destruct limits as [[[mr mb] me]|]; [destruct (negb (limits_valid mr mb me)); [done|]|];
    (destruct (negb (policy_valid _)); [done|]); simpl; (split; [done|]);
    unfold counted in *; destruct (cap d); simpl in *; naive_solver.
Qed.

Lemma truncate_preserves holds guard s d :
  chain (rows d) → counted d →
  chain (rows (truncate_audit_before false holds guard s d).2) ∧
  counted (truncate_audit_before false holds guard s d).2.
Proof.
  intros Hc Hn. unfold truncate_audit_before.
  destruct (Z.leb_spec s 0); [done|]. case_match; [done|]. destruct guard; [|done].
  destruct (load_audit_head d) as [h|]; [|done]. case_match; [done|]. simpl.
  split; [by apply chain_filter|]. unfold counted in *. simpl.
  destruct (cap d) as [c|]; simpl; [|done]. destruct Hn as [-> ->].
  destruct (filter_suffix s (rows d) (chain_sorted _ Hc)) as (g & Heq & ->).
  assert (length (rows d) = Nat.add (length (filter (fun e => ¬ s <= seq e) (rows d)))
          (length (filter (fun e => s <= seq e) (rows d)))) as Hlen
    by (rewrite <-length_app, <-Heq; done).
  assert (bytes_of (rows d) = bytes_of (filter (fun e => ¬ s <= seq e) (rows d)) +
          bytes_of (filter (fun e => s <= seq e) (rows d))) as Hby
    by (rewrite <-bytes_of_app, <-Heq; done).
  lia.
Qed.

Lemma audit_step_inv prod d d' : audit_step prod d d' → audit_inv prod d → audit_inv prod d'.
Proof.
  intros Hstep (Hc & Hn & Hp). destruct Hstep as [ev now d|limits d|holds guard s d].
  - destruct (record ev now d) as [r d'] eqn:Hr. simpl.
    apply record_cases in Hr as [[-> _]|(-> & Hrows & Hn' & _)]; [done| |done..].
    unfold audit_inv. rewrite Hrows. split_and!; [|done|].
    + apply chain_snoc; [done..|]. apply build_hash.
    + intros. apply complete_snoc; [by apply Hp|done..|]. apply build_hash.
  - destruct (policy_preserves limits d Hn) as [Hr Hn']. unfold audit_inv. by rewrite Hr.
  - destruct prod; [done|]. destruct (truncate_preserves holds guard s d Hc Hn).
    split_and!; done.
Qed.

Lemma audit_reach_inv prod d : rtc (audit_step prod) (mkDb [] None) d → audit_inv prod d.
Proof.
  intros Hr. refine (rtc_ind_r (audit_inv prod) _ _ _ _ Hr); [by split_and!|].
  intros y z _ Hs Hy. by eapply audit_step_inv.
Qed.

Lemma counted_usage d c :
  counted d → cap d = Some c → policy_valid c = true → verify_retained_usage d = Ok tt.
Proof.
  unfold counted, verify_retained_usage. intros Hn Hc Hp.
  rewrite Hc in *. rewrite Hp. destruct Hn as [-> ->]. by rewrite !Z.eqb_refl.
Qed.
End store.

(** C15: the durable audit chain cannot fork.  Whatever sequence of appends,
    policy changes and permitted truncations any workers perform on the SQL
    store, the stored chain verifies ([verify_durable]) and the retained-usage
    counters equal the stored rows and bytes; in production, where truncation
    raises, the chain is complete from genesis. *)
Theorem audit_chain_reachable `{AuditCodec} prod d :
  rtc (audit_step prod) (Sql.mkDb [] None) d →
  verify_durable prod (Sql.rows d) = true ∧ counted d.
Proof.
  intros (Hc & Hn & Hp)%audit_reach_inv. split; [|done]. destruct prod.
  - by apply complete_verify, Hp.
  - by apply chain_verify_durable.
Qed.

(** The capacity triggers admit an append only within the configured
    record, byte and per-entry limits, and an append that is refused leaves the
    table and its counters as they were. *)
Theorem audit_capacity_enforced `{AuditCodec} ev now d r d' :
  chain (Sql.rows d) → counted d → Sql.record ev now d = (r, d') →
  match r with
  | Raise _ => d' = d
  | Ok e => Sql.rows d' = Sql.rows d ++ [e] ∧ within_capacity e d'
  end.
Proof.
  intros Hc Hn Hr. apply record_cases in Hr as [[-> Hf]|(-> & Hrows & _ & Hw)]; [|done..].
  by destruct r.
Qed.

(** ** Tamper evidence *)

Section tamper.
Context `{CF : CollisionFree}.

Lemma entry_eq_of_payload (e e' : AuditEntry) :
  payload e = payload e' → entry_hash e = entry_hash e' → e = e'.
Proof. destruct e, e'. unfold payload, with_hash. simpl. intros [=] ->. by subst. Qed.

Lemma hash_determines (e e' : AuditEntry) :
  compute_hash e = entry_hash e → compute_hash e' = entry_hash e' →
  entry_hash e = entry_hash e' → e = e'.
Proof.
  intros He He' Heq. apply entry_eq_of_payload; [|done]. apply digest_inj.
  unfold compute_hash in *. congruence.
Qed.

Lemma complete_end_seq l : complete l → end_seq (-1) l = Z.of_nat (length l) - 1.
Proof.
  induction l as [|e l IH] using rev_ind; [done|].
  intros [Hl (Hs & _)%verify_loop_cons]%verify_loop_app.
  unfold end_seq in *. rewrite last_snoc, length_app. simpl.
  specialize (IH Hl). rewrite Hs, IH. lia.
Qed.

Lemma complete_same_head l1 e1 l2 e2 :
  complete (l1 ++ [e1]) → complete (l2 ++ [e2]) → entry_hash e1 = entry_hash e2 →
  l1 ++ [e1] = l2 ++ [e2].
Proof using CF.
  revert e1 l2 e2. induction l1 as [|x1 l1 IH] using rev_ind; intros e1 l2 e2 Hc1 Hc2 Hh.
  - apply verify_loop_app in Hc1 as [_ (Hs1 & _ & Hd1 & _)%verify_loop_cons].
    apply verify_loop_app in Hc2 as [Hl2 (Hs2 & _ & Hd2 & _)%verify_loop_cons].
    pose proof (hash_determines _ _ Hd1 Hd2 Hh) as ->.
    pose proof (complete_end_seq _ Hl2) as He. rewrite He in Hs2.
    unfold end_seq in Hs1. simpl in Hs1.
    assert (length l2 = 0)%nat as Hlen by lia. by apply nil_length_inv in Hlen as ->.
  - apply verify_loop_app in Hc1 as [Hl1 (Hs1 & Hp1 & Hd1 & _)%verify_loop_cons].
    apply verify_loop_app in Hc2 as [Hl2 (Hs2 & Hp2 & Hd2 & _)%verify_loop_cons].
    pose proof (hash_determines _ _ Hd1 Hd2 Hh) as ->.
    destruct l2 as [|x2 l2 _] using rev_ind.
    + rewrite (complete_end_seq _ Hl1), length_app in Hs1. unfold end_seq in Hs2.
      simpl in *. lia.
    + unfold end_hash in Hp1, Hp2. rewrite last_snoc in Hp1, Hp2. simpl in *.
      rewrite (IH x1 l2 x2) by (done || congruence). done.
Qed.

Lemma complete_take n l : complete l → complete (take n l).
Proof.
  unfold complete. intros Hc. rewrite <-(take_drop n l) in Hc.
  by apply verify_loop_app in Hc as [Hc _].
Qed.

Lemma complete_lookup l i e : complete l → l !! i = Some e → seq e = Z.of_nat i.
Proof.
  intros Hc Hi. pose proof (complete_take (S i) _ Hc) as Ht.
  rewrite (take_S_r _ _ _ Hi) in Ht.
  apply verify_loop_app in Ht as [Ht (Hs & _)%verify_loop_cons].
  rewrite (complete_end_seq _ Ht), length_take in Hs.
  apply lookup_lt_Some in Hi. lia.
Qed.
End tamper.

(** Tamper evidence.  With a collision-free digest, two record sets that
    both verify as complete chains and have the same head hash are the same
    history, whatever order they are presented in: no edit, deletion, reorder
    or fork survives verification against a known head. *)
Theorem audit_head_determines_history `{CollisionFree} records1 records2 e1 e2 :
  verify_chain records1 true = true → verify_chain records2 true = true →
  last (sort_by_seq records1) = Some e1 → last (sort_by_seq records2) = Some e2 →
  entry_hash e1 = entry_hash e2 → records1 ≡ₚ records2.
Proof.
  intros Hv1%verify_complete Hv2%verify_complete Hl1 Hl2 Hh.
  rewrite <-(sort_by_seq_perm records1), <-(sort_by_seq_perm records2).
  apply last_Some in Hl1 as [k1 Hk1]. apply last_Some in Hl2 as [k2 Hk2].
  rewrite Hk1, Hk2 in *. by rewrite (complete_same_head k1 e1 k2 e2).
Qed.

(** ** Checkpoints *)

Lemma bundle_prefix `{AuditCodec} `{SignatureScheme} records ck key :
  verify_evidence_bundle records ck key = Ok true → starts_at_genesis records = true →
  complete (sort_by_seq records) ∧
  (ck_seq ck = 0 ∨
   ∃ i e, Z.of_nat i = ck_seq ck - 1 ∧ sort_by_seq records !! i = Some e ∧
          entry_hash e = ck_head_hash ck).
Proof.
  unfold verify_evidence_bundle, starts_at_genesis, min_seq.
  destruct (negb _); [done|]. destruct (negb _); [done|]. destruct (negb _); [done|].
  destruct (ck_seq ck <? 0); [done|]. cbv zeta.
  destruct (sort_by_seq records) as [|first k] eqn:Hk.
  { intros Hb _. split; [done|]. left. simpl in Hb.
    by destruct (Z.eqb_spec (ck_seq ck) 0). }
  destruct (Z.eqb_spec (seq first) 0) as [Hz|]; [|done].
  destruct (verify_chain (first :: k) true) eqn:Hv; [|done]. simpl negb. cbv iota.
  apply verify_complete in Hv. rewrite <-Hk, sort_idem, Hk in Hv.
  intros Hb _. split; [done|].
  destruct (ck_seq ck <? seq first); [done|].
  destruct (Z.eqb_spec (seq first) (ck_seq ck)); [left; lia|].
  destruct (Z.eqb_spec (ck_seq ck) 0); [by left|]. right.
  destruct (list_find _ _) as [[i e]|] eqn:Hf; [|done].
  apply list_find_Some in Hf as (Hi & Hs & _). case_bool_decide; [|done].
  exists i, e. split_and!; [|done..]. by rewrite <-Hs, (complete_lookup _ _ _ Hv Hi).
Qed.

(** A signed checkpoint pins the past.  Two logs that both start at genesis
    and both pass [verify_evidence_bundle] against one checkpoint contain
    exactly the same entries before the checkpoint, so history already signed
    cannot be rewritten undetected. *)
Theorem checkpoint_pins_history `{CollisionFree} `{SignatureScheme}
    records1 records2 ck key :
  verify_evidence_bundle records1 ck key = Ok true → starts_at_genesis records1 = true →
  verify_evidence_bundle records2 ck key = Ok true → starts_at_genesis records2 = true →
  take (Z.to_nat (ck_seq ck)) (sort_by_seq records1) =
  take (Z.to_nat (ck_seq ck)) (sort_by_seq records2).
Proof.
  intros V1 G1 V2 G2. destruct (bundle_prefix _ _ _ V1 G1) as [Hc1 Hp1].
  destruct (bundle_prefix _ _ _ V2 G2) as [Hc2 Hp2].
  destruct Hp1 as [->|(i & e1 & Hi & Hl1 & Hh1)]; [done|].
  destruct Hp2 as [->|(j & e2 & Hj & Hl2 & Hh2)]; [done|].
  assert (j = i) as -> by lia. replace (Z.to_nat (ck_seq ck)) with (S i) by lia.
  pose proof (complete_take (S i) _ Hc1) as Ht1. pose proof (complete_take (S i) _ Hc2) as Ht2.
  rewrite (take_S_r _ _ _ Hl1) in *. rewrite (take_S_r _ _ _ Hl2) in *.
  apply complete_same_head; [done..|]. congruence.
Qed.

(** ** A concrete codec and log *)

(** An injective digest to run the definitions with: the entry's fields, each
    escaped and terminated, one after the other. *)
Definition entry_text (e : AuditEntry) : string :=
  chunk (pretty (seq e)) (chunk (timestamp e) (chunk (actor e) (chunk (action e)
    (chunk (source_protocol e) (chunk (target_protocol e) (chunk (capability e)
      (chunk (decision e) (chunk (reason e) (chunk (float_text (cost e))
        (chunk (prev_hash e) ""))))))))))%string.

#[global] Instance demo_codec : AuditCodec := {
  payload_digest e := entry_text e;
  entry_bytes e := 200 + strlen (reason e);
  entry_bytes_pos e := ltac:(unfold strlen; lia);
}.

#[global] Instance demo_collision_free : CollisionFree.
Proof.
  constructor. intros e e' Hd. simpl in Hd. unfold entry_text in Hd.
  repeat match goal with
         | H : chunk _ _ = chunk _ _ |- _ => apply chunk_inj in H as [? ?]
         end.
  destruct e, e'. unfold payload, with_hash in *. simpl in *.
  repeat match goal with
         | H : pretty _ = pretty _ |- _ => apply (inj pretty) in H
         | H : float_text _ = float_text _ |- _ => apply float_text_inj in H
         end. congruence.
Qed.

#[global] Instance demo_signatures : SignatureScheme := {
  sign key msg := (key +:+ "|" +:+ msg)%string;
  verify key sg msg := bool_decide (sg = key +:+ "|" +:+ msg)%string;
}.

Definition demo_event (who : string) : event :=
  mkEvent who "route_call" "mcp" "a2a" "search" "allow" "authorized" fzero.

Definition demo_db : Sql.audit_db :=
  (Sql.record (demo_event "bob") "t1" (Sql.record (demo_event "al") "t0" (Sql.mkDb [] None)).2).2.

Lemma audit_chain_reachable_witness :
  verify_durable true (Sql.rows demo_db) = true ∧ counted demo_db.
Proof.
  apply audit_chain_reachable.
  eapply rtc_l; [apply (as_record true (demo_event "al") "t0")|].
  apply rtc_once, (as_record true (demo_event "bob") "t1").
Defined.

Lemma demo_db_ok : chain (Sql.rows demo_db) ∧ counted demo_db.
Proof.
  assert (audit_inv true demo_db) as (? & ? & _); [|done]. apply audit_reach_inv.
  eapply rtc_l; [apply (as_record true (demo_event "al") "t0")|].
  apply rtc_once, (as_record true (demo_event "bob") "t1").
Qed.

Definition demo_next : AuditEntry := next_entry (demo_event "cy") "t2" demo_db.

Definition demo_db3 : Sql.audit_db := (Sql.record (demo_event "cy") "t2" demo_db).2.

Lemma demo_record : Sql.record (demo_event "cy") "t2" demo_db = (Ok demo_next, demo_db3).
Proof. vm_compute. reflexivity. Qed.

Lemma audit_capacity_enforced_witness :
  Sql.rows demo_db3 = Sql.rows demo_db ++ [demo_next] ∧ within_capacity demo_next demo_db3.
Proof.
  exact (audit_capacity_enforced (demo_event "cy") "t2" demo_db (Ok demo_next) demo_db3
           (proj1 demo_db_ok) (proj2 demo_db_ok) demo_record).
Defined.

Lemma audit_head_determines_history_witness :
  rev (Sql.rows demo_db) ≡ₚ Sql.rows demo_db.
Proof.
  apply (@audit_head_determines_history demo_codec demo_collision_free
    (rev (Sql.rows demo_db)) (Sql.rows demo_db)
    (default demo_next (last (Sql.rows demo_db)))
    (default demo_next (last (Sql.rows demo_db)))); vm_compute; reflexivity.
Defined.

Definition demo_key : string :=
  "1111111111111111111111111111111111111111111111111111111111111111".

Lemma checkpoint_pins_history_witness :
  take 2 (sort_by_seq (Sql.rows demo_db)) = take 2 (sort_by_seq (Sql.rows demo_db3)).
Proof.
  apply (@checkpoint_pins_history demo_codec demo_collision_free demo_signatures
    (Sql.rows demo_db) (Sql.rows demo_db3) (make_checkpoint demo_db demo_key demo_key) demo_key);
    vm_compute; reflexivity.
Defined.
