(* ===== verification/Approvals.v ===== *)
(** * Human approvals

    Models src/governance/approvals.py and the approval tables of the stores in
    src/governance/store.py.  [ApprovalStore] is the part of [GovernanceStore]
    the queue uses; [ApprovalStoreOk] is what it promises.  The in-memory and
    SQL tables implement it, and the queue's theorems use the promise only. *)

From stdpp Require Import base list gmap strings sorting.
From Stdlib Require Import ZArith Lia.
From S2P Require Import Prelude PyFloat.

Inductive status := pending | approved | denied | consumed.

#[global] Instance status_eq_dec : EqDecision status.
Proof. solve_decision. Defined.

Record ApprovalRequest := mkApproval {
  id : string;
  agent_id : string;
  capability : string;
  cost : float64;
  st : status;
  created_at : string;
}.

Definition set_status (x : status) (a : ApprovalRequest) : ApprovalRequest :=
  mkApproval (id a) (agent_id a) (capability a) (cost a) x (created_at a).

(** ** The store interface *)

Class ApprovalStore (St : Type) := {
  insert_approval : ApprovalRequest → St → St;
  get_approval : string → St → option ApprovalRequest;
  list_approvals : option status → St → list ApprovalRequest;
  update_approval_status : string → status → St → bool * St;
  consume_approval : string → St → bool * St;
  delete_approval : string → St → bool * St;
}.

(** A guarded row update: [pre → post] on row [i], nothing else moves. *)
Definition transitions {St} `{ApprovalStore St} (i : string) (pre post : status)
    (s : St) (r : bool * St) : Prop :=
  (∃ a, get_approval i s = Some a ∧ st a = pre ∧ r.1 = true ∧
        get_approval i r.2 = Some (set_status post a) ∧
        ∀ j, j ≠ i → get_approval j r.2 = get_approval j s)
  ∨ ((∀ a, get_approval i s = Some a → st a ≠ pre) ∧ r = (false, s)).

Class ApprovalStoreOk (St : Type) `{ApprovalStore St} := {
  table_ok : St → Prop;
  insert_ok a s : table_ok s → get_approval (id a) s = None →
    table_ok (insert_approval a s);
  update_ok i x s : table_ok s → table_ok (update_approval_status i x s).2;
  consume_ok i s : table_ok s → table_ok (consume_approval i s).2;
  get_insert a s j : table_ok s → get_approval (id a) s = None →
    get_approval j (insert_approval a s) =
    if decide (j = id a) then Some a else get_approval j s;
  get_id i a s : table_ok s → get_approval i s = Some a → id a = i;
  list_spec x a s : table_ok s →
    a ∈ list_approvals x s ↔
    get_approval (id a) s = Some a ∧ (x = None ∨ x = Some (st a));
  update_spec i x s : table_ok s →
    transitions i pending x s (update_approval_status i x s);
  consume_spec i s : table_ok s →
    transitions i approved consumed s (consume_approval i s);
}.

(** ** InMemoryStore *)

Module InMemory.
Definition table : Type := list (string * ApprovalRequest).

Definition get_approval (i : string) (s : table) : option ApprovalRequest := dict_get i s.

Definition insert_approval (a : ApprovalRequest) (s : table) : table := dict_set (id a) a s.

Definition list_approvals (x : option status) (s : table) : list ApprovalRequest :=
  filter (fun a => x = None ∨ Some (st a) = x) s.*2.

Definition update_approval_status (i : string) (x : status) (s : table) : bool * table :=
  match dict_get i s with
  | Some a => if decide (st a = pending) then (true, dict_set i (set_status x a) s) else (false, s)
  | None => (false, s)
  end.

Definition consume_approval (i : string) (s : table) : bool * table :=
  match dict_get i s with
  | Some a => if decide (st a = approved) then (true, dict_set i (set_status consumed a) s)
              else (false, s)
  | None => (false, s)
  end.

Definition delete_approval (i : string) (s : table) : bool * table :=
  (dict_mem i s, dict_pop i s).
End InMemory.

#[global] Instance in_memory_approvals : ApprovalStore InMemory.table := {
  insert_approval := InMemory.insert_approval;
  get_approval := InMemory.get_approval;
  list_approvals := InMemory.list_approvals;
  update_approval_status := InMemory.update_approval_status;
  consume_approval := InMemory.consume_approval;
  delete_approval := InMemory.delete_approval;
}.

(** ** SqliteStore and PostgresStore

    The table in insertion order.  [ORDER BY created_at] sorts it, rows with
    equal stamps staying in insertion order. *)
Module Sql.
Definition table : Type := list ApprovalRequest.

Definition get_approval (i : string) (s : table) : option ApprovalRequest :=
  snd <$> list_find (fun a => id a = i) s.

(** [INSERT OR IGNORE] / [ON CONFLICT(id) DO NOTHING]. *)
Definition insert_approval (a : ApprovalRequest) (s : table) : table :=
  match get_approval (id a) s with Some _ => s | None => s ++ [a] end.

Fixpoint insert_by_created (a : ApprovalRequest) (l : list ApprovalRequest)
  : list ApprovalRequest :=
  match l with
  | [] => [a]
  | b :: l' => if String.ltb (created_at a) (created_at b) then a :: l
               else b :: insert_by_created a l'
  end.

Definition order_by_created (l : list ApprovalRequest) : list ApprovalRequest :=
  foldl (fun acc a => insert_by_created a acc) [] l.

Definition list_approvals (x : option status) (s : table) : list ApprovalRequest :=
  order_by_created (filter (fun a => x = None ∨ Some (st a) = x) s).

(** [UPDATE approvals SET status=? WHERE id=?]. *)
Definition set_row (i : string) (x : status) (s : table) : table :=
  (fun a => if decide (id a = i) then set_status x a else a) <$> s.

Definition update_approval_status (i : string) (x : status) (s : table) : bool * table :=
  match get_approval i s with
  | Some a => if decide (st a = pending) then (true, set_row i x s) else (false, s)
  | None => (false, s)
  end.

Definition consume_approval (i : string) (s : table) : bool * table :=
  match get_approval i s with
  | Some a => if decide (st a = approved) then (true, set_row i consumed s) else (false, s)
  | None => (false, s)
  end.

Definition delete_approval (i : string) (s : table) : bool * table :=
  let s' := filter (fun a => id a ≠ i) s in
  (negb (length s' =? length s)%nat, s').
End Sql.

#[global] Instance sql_approvals : ApprovalStore Sql.table := {
  insert_approval := Sql.insert_approval;
  get_approval := Sql.get_approval;
  list_approvals := Sql.list_approvals;
  update_approval_status := Sql.update_approval_status;
  consume_approval := Sql.consume_approval;
  delete_approval := Sql.delete_approval;
}.

(** ** ApprovalQueue *)

Section queue.
Context {St : Type} `{ApprovalStore St}.

Record queue := mkQueue {
  store : St;
  sensitive : gset string;
}.

Definition mark_sensitive (c : string) (q : queue) : queue :=
  mkQueue (store q) ({[c]} ∪ sensitive q).

Definition requires_approval (c : string) (q : queue) : bool :=
  bool_decide (c ∈ sensitive q).

Definition scoped_capability (c : string) (request_scope : option string) : string :=
  match request_scope with None => c | Some s => (c +:+ "|" +:+ s)%string end.

(** The uuid and the creation stamp are arguments. *)
Definition request (uuid now agent c : string) (cost : float64)
    (request_scope : option string) (s : St) : ApprovalRequest * St :=
  let req := mkApproval uuid agent (scoped_capability c request_scope) cost pending now in
  (req, insert_approval req s).

Definition approve (request_id : string) (s : St) : bool * St :=
  update_approval_status request_id approved s.

Definition deny (request_id : string) (s : St) : bool * St :=
  update_approval_status request_id denied s.

Definition matches (agent scoped : string) (a : ApprovalRequest) : bool :=
  bool_decide (agent_id a = agent ∧ capability a = scoped).

Definition is_granted (agent c : string) (request_scope : option string) (s : St) : bool :=
  existsb (matches agent (scoped_capability c request_scope))
          (list_approvals (Some approved) s).

(** The [for] loop of [consume] over the rows it read. *)
Fixpoint consume_loop (agent scoped : string) (l : list ApprovalRequest) (s : St) : bool * St :=
  match l with
  | [] => (false, s)
  | a :: l' =>
      if matches agent scoped a then
        match consume_approval (id a) s with
        | (true, s') => (true, s')
        | (false, s') => consume_loop agent scoped l' s'
        end
      else consume_loop agent scoped l' s
  end.

Definition consume (agent c : string) (request_scope : option string) (s : St) : bool * St :=
  consume_loop agent (scoped_capability c request_scope) (list_approvals (Some approved) s) s.

Definition pending_requests (s : St) : list ApprovalRequest := list_approvals (Some pending) s.

Definition get_request (i : string) (s : St) : option ApprovalRequest := get_approval i s.
End queue.
Arguments queue St : clear implicits.

(** ** The tables keep the promise *)

Lemma insert_by_created_perm a l : Sql.insert_by_created a l ≡ₚ a :: l.
Proof.
  induction l as [|b l IH]; simpl; [done|]. case_match; [done|].
  rewrite IH. apply Permutation_swap.
Qed.

Lemma order_by_created_perm l : Sql.order_by_created l ≡ₚ l.
Proof.
  unfold Sql.order_by_created. rewrite <-(app_nil_r l) at 2. generalize (@nil ApprovalRequest).
  induction l as [|a l IH]; intros acc; simpl; [done|].
  rewrite IH, insert_by_created_perm. by rewrite Permutation_middle.
Qed.

Lemma sql_get_Some (s : Sql.table) i a :
  NoDup (id <$> s) → Sql.get_approval i s = Some a ↔ a ∈ s ∧ id a = i.
Proof.
  unfold Sql.get_approval. intros Hd. split.
  - intros ([k b] & Hf & ->)%fmap_Some. simpl. apply list_find_Some in Hf as (Hk & Hi & _).
    split; [by eapply list_elem_of_lookup_2|done].
  - intros [[k Hk]%list_elem_of_lookup Hi]. apply fmap_Some. exists (k, a). split; [|done].
    apply list_find_Some. split_and!; [done..|]. intros j b Hj Hlt Hb.
    assert (j = k); [|lia]. apply (NoDup_lookup (id <$> s) j k i); [done|..];
      rewrite list_lookup_fmap; [rewrite Hj|rewrite Hk]; simpl; congruence.
Qed.

Lemma sql_get_None (s : Sql.table) i : Sql.get_approval i s = None ↔ i ∉ id <$> s.
Proof.
  unfold Sql.get_approval. rewrite fmap_None, list_find_None, Forall_forall. set_solver.
Qed.

Lemma set_row_ids i x (s : Sql.table) : id <$> Sql.set_row i x s = id <$> s.
Proof.
  unfold Sql.set_row. rewrite <-list_fmap_compose. apply list_fmap_ext.
  intros ? a _. simpl. by case_decide.
Qed.

Lemma sql_get_cons b (s : Sql.table) j :
  Sql.get_approval j (b :: s) = if decide (id b = j) then Some b else Sql.get_approval j s.
Proof.
  unfold Sql.get_approval. simpl. case_decide; [done|].
  rewrite <-option_fmap_compose. by destruct (list_find _ s) as [[]|].
Qed.

Lemma sql_get_set_row i x (s : Sql.table) j :
  Sql.get_approval j (Sql.set_row i x s) =
  (fun a => if decide (id a = i) then set_status x a else a) <$> Sql.get_approval j s.
Proof.
  induction s as [|b s IH]; [done|]. change (Sql.set_row i x (b :: s)) with
    ((if decide (id b = i) then set_status x b else b) :: Sql.set_row i x s).
  rewrite !sql_get_cons, IH.
  assert (id (if decide (id b = i) then set_status x b else b) = id b) as -> by by case_decide.
  by case_decide.
Qed.

Lemma set_row_transitions i pre post (s : Sql.table) :
  NoDup (id <$> s) →
  transitions i pre post s
    match Sql.get_approval i s with
    | Some a => if decide (st a = pre) then (true, Sql.set_row i post s) else (false, s)
    | None => (false, s)
    end.
Proof.
  intros Hd. unfold transitions. simpl. destruct (Sql.get_approval i s) as [a|] eqn:Hg;
    [|right; naive_solver].
  case_decide; [left|right; naive_solver]. exists a. split_and!; [done..| |]; simpl.
  - rewrite sql_get_set_row, Hg. simpl. apply sql_get_Some in Hg as [_ <-]; [|done].
    by rewrite decide_True.
  - intros j Hj. rewrite sql_get_set_row. destruct (Sql.get_approval j s) as [b|] eqn:Hb; [|done].
    apply sql_get_Some in Hb as [_ <-]; [|done]. simpl. by rewrite decide_False.
Qed.

#[global] Instance sql_approvals_ok : ApprovalStoreOk Sql.table.
Proof.
  refine {| table_ok s := NoDup (id <$> s) |}.
  - intros a s Hd Hn. simpl in *. unfold Sql.insert_approval. rewrite Hn, fmap_app. simpl.
    apply NoDup_app. split_and!; [done| |apply NoDup_singleton].
    apply sql_get_None in Hn. set_solver.
  - intros i x s Hd. simpl. unfold Sql.update_approval_status. repeat case_match; simpl; try done.
    by rewrite set_row_ids.
  - intros i s Hd. simpl. unfold Sql.consume_approval. repeat case_match; simpl; try done.
    by rewrite set_row_ids.
  - intros a s j Hd Hn. simpl in *. unfold Sql.insert_approval. rewrite Hn. clear Hd.
    induction s as [|b s IH]; simpl; [rewrite sql_get_cons; repeat case_decide; subst; done|].
    rewrite !sql_get_cons. rewrite sql_get_cons in Hn.
    destruct (decide (id b = id a)); [done|]. rewrite IH by done.
    by repeat case_decide; subst.
  - intros i a s Hd Hg. simpl in *. by apply (sql_get_Some s i a Hd) in Hg as [_ ?].
  - intros x a s Hd. simpl. unfold Sql.list_approvals.
    rewrite (order_by_created_perm (filter _ _)), list_elem_of_filter, sql_get_Some by done.
    naive_solver.
  - intros i x s Hd. by apply set_row_transitions.
  - intros i s Hd. by apply set_row_transitions.
Defined.

Definition keyed (s : InMemory.table) : Prop :=
  NoDup (dict_keys s) ∧ Forall (fun p => id p.2 = p.1) s.

Lemma keyed_set i a (s : InMemory.table) : keyed s → id a = i → keyed (dict_set i a s).
Proof.
  intros [Hd Hk] Hi. split; [by apply dict_set_nodup|]. clear Hd.
  induction s as [|[j b] s IH]; simpl; [by repeat constructor|].
  apply Forall_cons in Hk as [Hb Hk]. case_decide; apply Forall_cons; naive_solver.
Qed.

Lemma keyed_get i a s : keyed s → dict_get i s = Some a → id a = i.
Proof. intros [_ Hk] Hg%dict_get_Some_In. rewrite Forall_forall in Hk. by apply (Hk (i, a)). Qed.

Lemma dict_set_transitions i pre post s :
  keyed s →
  transitions i pre post s
    match dict_get i s with
    | Some a => if decide (st a = pre) then (true, dict_set i (set_status post a) s) else (false, s)
    | None => (false, s)
    end.
Proof.
  intros Hk. unfold transitions. simpl. unfold InMemory.get_approval.
  destruct (dict_get i s) as [a|] eqn:Hg; [|right; naive_solver].
  case_decide; [left|right; naive_solver]. exists a. split_and!; [done..| |]; simpl.
  - apply dict_get_set_eq.
  - intros j Hj. by apply dict_get_set_ne.
Qed.

#[global] Instance in_memory_approvals_ok : ApprovalStoreOk InMemory.table.
Proof.
  refine {| table_ok := keyed |}.
  - intros a s Hk _. by apply keyed_set.
  - intros i x s Hk. simpl. unfold InMemory.update_approval_status.
    destruct (dict_get i s) as [a|] eqn:Hg; [|done]. case_decide; [|done].
    apply keyed_set; [done|]. by apply keyed_get in Hg.
  - intros i s Hk. simpl. unfold InMemory.consume_approval.
    destruct (dict_get i s) as [a|] eqn:Hg; [|done]. case_decide; [|done].
    apply keyed_set; [done|]. by apply keyed_get in Hg.
  - intros a s j Hk _. simpl. unfold InMemory.get_approval, InMemory.insert_approval.
    case_decide; subst; [apply dict_get_set_eq|by apply dict_get_set_ne].
  - intros i a s Hk. by apply keyed_get.
  - intros x a s [Hd Hk]. simpl. unfold InMemory.list_approvals, InMemory.get_approval.
    rewrite list_elem_of_filter, list_elem_of_fmap. split.
    + intros (Hx & [i b] & -> & Hin). simpl in *. split; [|naive_solver].
      apply dict_get_In; [done|]. rewrite Forall_forall in Hk.
      specialize (Hk _ Hin). simpl in Hk. by rewrite Hk.
    + intros (Hg%dict_get_Some_In & Hx). split; [naive_solver|]. by exists (id a, a).
  - intros i x s Hk. by apply dict_set_transitions.
  - intros i s Hk. by apply dict_set_transitions.
Defined.

(** ** Consuming a grant *)

Section consume.
Context {St : Type} `{ApprovalStoreOk St}.
Implicit Types s : St.

(** What one run of the loop does to a table its rows were read from. *)
Definition used (ag scoped : string) (s s' : St) : Prop :=
  ∃ a, get_approval (id a) s = Some a ∧ st a = approved ∧
       agent_id a = ag ∧ capability a = scoped ∧
       get_approval (id a) s' = Some (set_status consumed a) ∧
       ∀ j, j ≠ id a → get_approval j s' = get_approval j s.

Lemma consume_loop_run ag scoped l s :
  table_ok s →
  Forall (fun a => get_approval (id a) s = Some a ∧ st a = approved) l →
  (consume_loop ag scoped l s).1 = existsb (matches ag scoped) l ∧
  if existsb (matches ag scoped) l then used ag scoped s (consume_loop ag scoped l s).2
  else (consume_loop ag scoped l s).2 = s.
Proof.
  intros Hs. induction l as [|a l IH]; simpl; [done|]. intros [[Hg Ha] Hl]%Forall_cons.
  destruct (matches ag scoped a) eqn:Hm; [simpl|by apply IH].
  destruct (consume_spec (id a) s Hs) as [(b & Hb & _ & Ht & Hg' & Ho)|[Hno _]].
  - rewrite Hb in Hg. simplify_eq. destruct (consume_approval (id a) s) as [r s']. simpl in *.
    subst r. split; [done|]. apply bool_decide_eq_true in Hm as [??]. by exists a.
  - by destruct (Hno a Hg).
Qed.

Lemma approved_rows s :
  table_ok s →
  Forall (fun a => get_approval (id a) s = Some a ∧ st a = approved)
         (list_approvals (Some approved) s).
Proof.
  intros Hs. apply Forall_forall. intros a [Hg Hx]%list_spec; [|done]. naive_solver.
Qed.

Lemma consume_run ag c sc s :
  table_ok s →
  (consume ag c sc s).1 = is_granted ag c sc s ∧
  if is_granted ag c sc s then used ag (scoped_capability c sc) s (consume ag c sc s).2
  else (consume ag c sc s).2 = s.
Proof. intros Hs. apply consume_loop_run; [done|]. by apply approved_rows. Qed.

Lemma consume_keeps_ok ag scoped l s : table_ok s → table_ok (consume_loop ag scoped l s).2.
Proof.
  revert s. induction l as [|a l IH]; intros s Hs; simpl; [done|].
  case_match; [|by apply IH]. pose proof (consume_ok (id a) s Hs) as Hk.
  destruct (consume_approval (id a) s) as [[] s']; [done|]. by apply IH.
Qed.
End consume.

(** ** Workers racing for grants

    Independent workers share the table and run [consume] concurrently: each
    store call is one atomic step, and other workers and operators act between
    the read of the approved rows and the updates. *)
Section race.
Context {St : Type} `{ApprovalStoreOk St}.

Inductive worker :=
| Consuming (agent scoped : string) (todo : list ApprovalRequest)
| Returned (result : bool).

(** An entry of the ghost log: request [i] entered status [post], for a
    consumption with the worker and the pair it consumed for. *)
Record event := mkEvent {
  post : status;
  target : string;
  consumer : option (nat * string * string);
}.

Record config := mkConfig {
  tbl : St;
  workers : gmap nat worker;
  log : list event;
}.

(** One iteration of the loop in [consume]. *)
Definition tick (w : nat) (s : St) (x : worker) : St * worker * list event :=
  match x with
  | Consuming agent scoped (a :: todo) =>
      if matches agent scoped a then
        match consume_approval (id a) s with
        | (true, s') => (s', Returned true, [mkEvent consumed (id a) (Some (w, agent, scoped))])
        | (false, s') => (s', Consuming agent scoped todo, [])
        end
      else (s, Consuming agent scoped todo, [])
  | Consuming agent scoped [] => (s, Returned false, [])
  | Returned b => (s, Returned b, [])
  end.

Inductive step : config → config → Prop :=
| s_request uuid now agent c cost sc s ws lg :
    get_approval uuid s = None →
    step (mkConfig s ws lg)
         (mkConfig (request uuid now agent c cost sc s).2 ws (lg ++ [mkEvent pending uuid None]))
| s_approve i s ws lg :
    step (mkConfig s ws lg)
         (mkConfig (approve i s).2 ws
            (lg ++ if (approve i s).1 then [mkEvent approved i None] else []))
| s_deny i s ws lg :
    step (mkConfig s ws lg)
         (mkConfig (deny i s).2 ws (lg ++ if (deny i s).1 then [mkEvent denied i None] else []))
| s_begin w agent c sc s ws lg :
    ws !! w = None →
    step (mkConfig s ws lg)
         (mkConfig s (<[w := Consuming agent (scoped_capability c sc)
                              (list_approvals (Some approved) s)]> ws) lg)
| s_tick w x s x' s' ev ws lg :
    ws !! w = Some x → tick w s x = (s', x', ev) →
    step (mkConfig s ws lg) (mkConfig s' (<[w := x']> ws) (lg ++ ev)).

Definition history (i : string) (lg : list event) : list status :=
  post <$> filter (fun e => target e = i) lg.

Definition path (x : status) : list status :=
  match x with
  | pending => [pending]
  | approved => [pending; approved]
  | denied => [pending; denied]
  | consumed => [pending; approved; consumed]
  end.

Definition lifecycle (s : St) (lg : list event) : Prop :=
  ∀ i, history i lg = match get_approval i s with Some a => path (st a) | None => [] end.

Definition bound (s : St) (e : event) : Prop :=
  match consumer e with
  | None => True
  | Some (_, ag, scoped) =>
      ∃ a, get_approval (target e) s = Some a ∧ agent_id a = ag ∧ capability a = scoped
  end.

Definition seen (s : St) (x : worker) : Prop :=
  match x with
  | Consuming _ _ todo =>
      Forall (fun a => ∃ b, get_approval (id a) s = Some b ∧
                            agent_id b = agent_id a ∧ capability b = capability a) todo
  | Returned _ => True
  end.

Definition race_inv (c : config) : Prop :=
  table_ok (tbl c) ∧ lifecycle (tbl c) (log c) ∧ Forall (bound (tbl c)) (log c) ∧
  map_Forall (fun _ => seen (tbl c)) (workers c).

(** Rows never disappear nor change owner. *)
Definition grows (s s' : St) : Prop :=
  ∀ i a, get_approval i s = Some a →
  ∃ b, get_approval i s' = Some b ∧ agent_id b = agent_id a ∧ capability b = capability a.

Lemma grows_keeps s s' lg (ws : gmap nat worker) :
  grows s s' → Forall (bound s) lg → map_Forall (fun _ => seen s) ws →
  Forall (bound s') lg ∧ map_Forall (fun _ => seen s') ws.
Proof.
  intros Hg Hb Hs. split.
  - eapply Forall_impl; [done|]. intros [p i [[[w ag] sc]|]]; [|done]. unfold bound. simpl.
    intros (a & Ha & <- & <-). by apply Hg in Ha.
  - intros w x Hx. specialize (Hs w x Hx). destruct x as [ag sc todo|]; [|done]. simpl in *.
    eapply Forall_impl; [done|]. intros a (b & Hb' & <- & <-). by apply Hg in Hb'.
Qed.

Lemma history_snoc i lg e :
  history i (lg ++ [e]) = history i lg ++ if decide (target e = i) then [post e] else [].
Proof.
  unfold history. rewrite filter_app, fmap_app. f_equal.
  rewrite filter_cons. by case_decide.
Qed.

Lemma transitions_inv i pre x c s s' lg :
  transitions i pre x s (true, s') → lifecycle s lg → path x = path pre ++ [x] →
  lifecycle s' (lg ++ [mkEvent x i c]) ∧ grows s s' ∧
  ∃ a, get_approval i s' = Some a ∧ get_approval i s = Some (set_status pre a).
Proof.
  intros [(a & Ha & Hpre & _ & Hi & Ho)|[_ [=]]] Hl Hp. simpl in *. split_and!.
  - intros j. rewrite history_snoc, (Hl j). simpl. destruct (decide (i = j)) as [<-|Hj].
    + by rewrite Ha, Hi, Hpre.
    + by rewrite Ho, app_nil_r by done.
  - intros j b Hb. destruct (decide (j = i)) as [->|Hj].
    + rewrite Ha in Hb. simplify_eq. by eexists.
    + rewrite <-Ho in Hb by done. by exists b.
  - eexists. split; [done|]. rewrite Ha. by destruct a; simpl in *; subst.
Qed.

Lemma transitions_false i pre x s s' : transitions i pre x s (false, s') → s' = s.
Proof. intros [(a & _ & _ & [=] & _)|[_ [=]]]; done. Qed.

Lemma grows_refl s : grows s s.
Proof. intros i a Ha. by exists a. Qed.

Lemma update_inv i x s lg (ws : gmap nat worker) :
  path x = path pending ++ [x] → race_inv (mkConfig s ws lg) →
  race_inv (mkConfig (update_approval_status i x s).2 ws
    (lg ++ if (update_approval_status i x s).1 then [mkEvent x i None] else [])).
Proof.
  intros Hp (Ht & Hl & Hb & Hw). simpl in *. pose proof (update_ok i x s Ht) as Ht'.
  pose proof (update_spec i x s Ht) as Hu.
  destruct (update_approval_status i x s) as [[] s'].
  - destruct (transitions_inv _ _ _ None _ _ _ Hu Hl Hp) as (Hl' & Hg & _).
    destruct (grows_keeps _ _ _ _ Hg Hb Hw). split_and!; simpl; try done.
    apply Forall_app. by split; [|repeat constructor].
  - apply transitions_false in Hu as ->. rewrite app_nil_r. done.
Qed.

Lemma tick_inv w s x s' x' ev lg (ws : gmap nat worker) :
  race_inv (mkConfig s ws lg) → ws !! w = Some x → tick w s x = (s', x', ev) →
  race_inv (mkConfig s' (<[w := x']> ws) (lg ++ ev)).
Proof.
  intros (Ht & Hl & Hb & Hw) Hx Hk. simpl in *. pose proof (Hw w x Hx) as Hseen.
  assert (∀ y, seen s y → race_inv (mkConfig s (<[w := y]> ws) (lg ++ []))) as Hstay.
  { intros y Hy. rewrite app_nil_r. split_and!; simpl; try done. by apply map_Forall_insert_2. }
  destruct x as [ag sc [|a todo]|b]; simpl in Hk; [simplify_eq; by apply Hstay| |
    simplify_eq; by apply Hstay].
  apply Forall_cons in Hseen as [Ha Hseen].
  destruct (matches ag sc a) eqn:Hm; [|simplify_eq; by apply Hstay].
  pose proof (consume_ok (id a) s Ht) as Ht'. pose proof (consume_spec (id a) s Ht) as Hc.
  destruct (consume_approval (id a) s) as [[] t]; simplify_eq; simpl in Ht'.
  - destruct (transitions_inv _ _ _ (Some (w, ag, sc)) _ _ _ Hc Hl eq_refl) as (Hl' & Hg & _).
    destruct (grows_keeps _ _ _ _ Hg Hb Hw). split_and!; simpl; try done.
    + apply Forall_app. split; [done|]. repeat constructor. unfold bound. simpl.
      apply bool_decide_eq_true in Hm as [<- <-].
      destruct Ha as (b & Hb' & <- & <-). by apply Hg in Hb'.
    + by apply map_Forall_insert_2.
  - apply transitions_false in Hc as ->. by apply Hstay.
Qed.

Lemma step_inv c c' : step c c' → race_inv c → race_inv c'.
Proof.
  destruct 1 as [uuid now ag c cost sc s ws lg Hn|i s ws lg|i s ws lg|w ag c sc s ws lg Hn|];
    [|by apply update_inv|by apply update_inv| |intros; by eapply tick_inv].
  - intros (Ht & Hl & Hb & Hw). simpl in *.
    set (a := mkApproval uuid ag _ cost pending now).
    assert (∀ j, get_approval j (insert_approval a s) =
                 if decide (j = uuid) then Some a else get_approval j s) as Hget
      by (intros; by apply (get_insert a s)).
    assert (grows s (insert_approval a s)) as Hg.
    { intros j b Hj. rewrite Hget. case_decide; [congruence|]. by exists b. }
    destruct (grows_keeps _ _ _ _ Hg Hb Hw). split_and!; simpl; try done.
    + by apply insert_ok.
    + intros j. rewrite history_snoc, (Hl j), Hget. simpl. repeat case_decide; subst; try done.
      * by rewrite Hn.
      * by rewrite app_nil_r.
    + apply Forall_app. by split; [|repeat constructor].
  - intros (Ht & Hl & Hb & Hw). split_and!; simpl in *; try done.
    apply map_Forall_insert_2; [|done]. simpl. eapply Forall_impl; [by apply approved_rows|].
    intros a [Ha _]. by exists a.
Qed.

Lemma race_reach s c :
  table_ok s → (∀ i, get_approval i s = None) →
  rtc step (mkConfig s ∅ []) c → race_inv c.
Proof.
  intros Hs He Hr. assert (race_inv (mkConfig s ∅ [])) as Hi.
  { split_and!; simpl; try done. intros i. by rewrite He. }
  induction Hr; [done|]. eauto using step_inv.
Qed.

(** A worker that nobody interrupts computes [consume]. *)
Lemma ticks_loop w ag sc todo s :
  ∃ n, let '(s', x) := Nat.iter n (fun '(s, x) => (tick w s x).1) (s, Consuming ag sc todo) in
       (∃ b, x = Returned b ∧ consume_loop ag sc todo s = (b, s')).
Proof.
  revert s. induction todo as [|a todo IH]; intros s; simpl.
  { exists 1%nat. by exists false. }
  assert (∀ s1, (tick w s (Consuming ag sc (a :: todo))).1 = (s1, Consuming ag sc todo) →
    ∃ n, let '(s', x) := Nat.iter n (fun '(s, x) => (tick w s x).1)
                           (s, Consuming ag sc (a :: todo)) in
         ∃ b, x = Returned b ∧ consume_loop ag sc todo s1 = (b, s')) as Hgo.
  { intros s1 Ht. destruct (IH s1) as [n Hn]. exists (S n). rewrite Nat.iter_succ_r.
    by rewrite Ht. }
  simpl in Hgo. destruct (matches ag sc a) eqn:Hm; [|by apply Hgo].
  destruct (consume_approval (id a) s) as [[] s'] eqn:Hc; [|by apply Hgo].
  exists 1%nat. simpl. rewrite Hm, Hc. by exists true.
Qed.
End race.

(** C14: approvals are one-shot under any interleaving of workers and
    operators.  Every request's history is exactly the path to its current
    status (pending, then approved or denied, then consumed), so a grant is
    consumed at most once, only after an approval and never after a denial;
    and it is consumed only for the agent and scoped capability it was
    requested for. *)
Theorem approval_one_shot {St} `{ApprovalStoreOk St} (s : St) c :
  table_ok s → (∀ i, get_approval i s = None) → rtc step (mkConfig s ∅ []) c →
  (∀ i, history i (log c) =
        match get_approval i (tbl c) with Some a => path (st a) | None => [] end) ∧
  (∀ w ag sc i, mkEvent consumed i (Some (w, ag, sc)) ∈ log c →
     ∃ a, get_approval i (tbl c) = Some a ∧ agent_id a = ag ∧ capability a = sc).
Proof.
  intros Hs He Hr. destruct (race_reach _ _ Hs He Hr) as (_ & Hl & Hb & _). split; [done|].
  intros w ag sc i Hin. rewrite Forall_forall in Hb. by apply (Hb _ Hin).
Qed.

(** Inside one transaction [consume] succeeds exactly when [is_granted]
    says so; success turns one approved row of that agent and scope into
    consumed and leaves every other row alone, failure changes nothing. *)
Theorem consume_iff_granted {St} `{ApprovalStoreOk St} (s : St) ag c sc :
  table_ok s →
  (consume ag c sc s).1 = is_granted ag c sc s ∧
  if is_granted ag c sc s then used ag (scoped_capability c sc) s (consume ag c sc s).2
  else (consume ag c sc s).2 = s.
Proof. apply consume_run. Qed.

Definition demo_table : Sql.table :=
  (approve "r1" (request "r1" "t0" "al" "pay" fzero (Some "h") ([] : Sql.table)).2).2.

Lemma approval_one_shot_witness :
  history "r1" (log (mkConfig demo_table ∅
    [mkEvent pending "r1" None; mkEvent approved "r1" None])) = [pending; approved].
Proof.
  destruct (approval_one_shot ([] : Sql.table)
    (mkConfig demo_table ∅ [mkEvent pending "r1" None; mkEvent approved "r1" None]))
    as [Hh _]; [apply NoDup_nil_2|done| |exact (Hh "r1")].
  eapply rtc_l; [apply (s_request "r1" "t0" "al" "pay" fzero (Some "h") [] ∅ []); done|].
  eapply rtc_once.
  exact (s_approve "r1" (request "r1" "t0" "al" "pay" fzero (Some "h") ([] : Sql.table)).2 ∅
           [mkEvent pending "r1" None]).
Defined.

Lemma consume_iff_granted_witness :
  (consume "al" "pay" (Some "h") demo_table).1 = true ∧
  (consume "al" "pay" (Some "other") demo_table).1 = false.
Proof.
  assert (table_ok demo_table) as Hok by (apply NoDup_singleton).
  split; [rewrite (proj1 (consume_iff_granted demo_table "al" "pay" (Some "h") Hok))
         |rewrite (proj1 (consume_iff_granted demo_table "al" "pay" (Some "other") Hok))];
    vm_compute; reflexivity.
Defined.
