(* ===== verification/Identity.v ===== *)
(** * Agent identities and signed requests

    Models src/governance/identity.py, src/governance/request_auth.py and
    src/governance/durable_replay.py.  Ed25519 and SHA-256 belong to other
    packages: [Ed25519] and [Sha256] name the operations used and the documented
    facts relied on.  Keys and signatures are hex strings. *)

From stdpp Require Import base list gmap strings sorting.
From Stdlib Require Import ZArith Lia.
From S2P Require Import Prelude PyFloat.

Class Ed25519 := {
  public_of : string → string;
  ed_sign : string → string → string;
  (** [from_public_bytes(bytes.fromhex(k))] accepts [k]. *)
  public_key_ok : string → bool;
  (** [bytes.fromhex(s)] accepts [s]. *)
  hex_ok : string → bool;
  ed_verify : string → string → string → bool;
  public_of_ok k : public_key_ok (public_of k) = true;
  ed_sign_hex k m : hex_ok (ed_sign k m) = true;
  ed_correct k m : ed_verify (public_of k) m (ed_sign k m) = true;
}.

Class Sha256 := { sha256_hex : string → string }.

Record AgentIdentity := mkIdentity {
  agent_id : string;
  public_key_hex : string;
  private_key : option string;
}.

Definition did_from_public_hex (public_hex : string) : string :=
  ("did:key:ed25519:" +:+ public_hex)%string.

Definition did (a : AgentIdentity) : string := did_from_public_hex (public_key_hex a).

Definition public_only (a : AgentIdentity) : AgentIdentity :=
  mkIdentity (agent_id a) (public_key_hex a) None.

Section identity.
Context `{Ed25519}.

(** [AgentIdentity.generate] with the key it draws as an argument, and
    [from_private_hex], which raises when the hex does not decode to a key;
    [key_ok] says whether it does. *)
Definition generate (ag : string) (priv : string) : AgentIdentity :=
  mkIdentity ag (public_of priv) (Some priv).

Definition from_private_hex (key_ok : string → bool) (ag priv : string) : outcome AgentIdentity :=
  if key_ok priv then Ok (generate ag priv) else Raise (ValueError "invalid private key").

Definition sign (a : AgentIdentity) (data : string) : outcome string :=
  match private_key a with
  | None => Raise (ValueError "This identity has no private key; cannot sign.")
  | Some k => Ok (ed_sign k data)
  end.

(** [verify]: a malformed public key raises, a bad signature is [False]. *)
Definition verify (a : AgentIdentity) (data signature : string) : outcome bool :=
  if public_key_ok (public_key_hex a) then Ok (ed_verify (public_key_hex a) data signature)
  else Raise (ValueError "invalid public key").

(** ** IdentityRegistry

    [rows] is the identities table (keyed by agent id), shared by every
    worker; [cached] and [revoked_cache] are one registry's dictionaries. *)
Record identity_row := mkIdRow { row_key : string; row_revoked : bool }.

Record registry := mkRegistry {
  rows : gmap string identity_row;
  cached : gmap string AgentIdentity;
  revoked_cache : gmap string bool;
}.

Definition upsert_identity (ag key : string) (revoked : bool) (t : gmap string identity_row)
  : gmap string identity_row := <[ag := mkIdRow key revoked]> t.

(** [__init__]: warm the caches from the store. *)
Definition init (t : gmap string identity_row) : registry :=
  mkRegistry t (map_imap (fun ag r => Some (mkIdentity ag (row_key r) None)) t) (row_revoked <$> t).

Definition register (a : AgentIdentity) (r : registry) : registry :=
  mkRegistry (upsert_identity (agent_id a) (public_key_hex a) false (rows r))
             (<[agent_id a := public_only a]> (cached r))
             (<[agent_id a := false]> (revoked_cache r)).

Definition register_public_key (ag key : string) (r : registry) : AgentIdentity * registry :=
  let ident := mkIdentity ag key None in (ident, register ident r).

Definition revoke (ag : string) (r : registry) : bool * registry :=
  match rows r !! ag with
  | None => (false, r)
  | Some rec =>
      (true, mkRegistry (upsert_identity ag (row_key rec) true (rows r))
                        (cached r) (<[ag := true]> (revoked_cache r)))
  end.

Definition is_revoked (ag : string) (r : registry) : bool :=
  match rows r !! ag with None => true | Some rec => row_revoked rec end.

Definition get_identity (ag : string) (r : registry) : option AgentIdentity :=
  (fun rec => mkIdentity ag (row_key rec) None) <$> rows r !! ag.

Definition is_registered (ag : string) (r : registry) : bool :=
  match rows r !! ag with None => false | Some rec => negb (row_revoked rec) end.

Definition verify_signature (ag data signature : string) (r : registry) : outcome bool :=
  match rows r !! ag with
  | None => Ok false
  | Some rec => if row_revoked rec then Ok false
                else verify (mkIdentity ag (row_key rec) None) data signature
  end.

Definition did_of (ag : string) (r : registry) : option string := did <$> get_identity ag r.
End identity.

(** ** Nonces *)

(** [claim_nonce]: the [agent_nonces] table, keyed by agent and nonce. *)
Notation nonce_table := (gmap (string * string) float64).

Fixpoint split_colon (s : string) : option (string * string) :=
  match s with
  | EmptyString => None
  | String c s' =>
      if Ascii.eqb c (Ascii.ascii_of_nat 58) then Some (EmptyString, s')
      else (fun '(a, b) => (String c a, b)) <$> split_colon s'
  end.

Section nonces.
(** [float(text)], [None] where it raises. *)
Context (parse_float : string → option float64).

Definition fabs (x : float64) : float64 :=
  match x with FNan => FNan | FInf _ => FInf false | FFin z => FFin (Z.abs z) end.

(** The guards of [claim_nonce] before it touches the store. *)
Definition nonce_fresh (nonce : string) (ttl : Z) (now : float64) : bool :=
  if (256 <? strlen nonce)%Z then false
  else match split_colon nonce with
       | None => false
       | Some (stamp, rand) =>
           if (strlen rand <? 16)%Z then false
           else match parse_float stamp with
                | None => false
                | Some ts => fisfinite ts && negb (fgtb (fabs (fsub now ts)) (float_of_int ttl))
                end
       end.

Definition prune_nonces (cutoff : float64) (t : nonce_table) : nonce_table :=
  filter (fun p => fltb p.2 cutoff = false) t.

Definition claim_nonce (ag nonce : string) (ttl : Z) (now : float64) (t : nonce_table)
  : bool * nonce_table :=
  if nonce_fresh nonce ttl now then
    let t := prune_nonces (fsub now (float_of_int (2 * ttl))) t in
    match t !! (ag, nonce) with
    | Some _ => (false, t)
    | None => (true, <[(ag, nonce) := now]> t)
    end
  else (false, t).

(** [NonceCache.check_and_store]. *)
Definition check_and_store (nonce : string) (ttl : Z) (now : float64) (seen : gmap string float64)
  : bool * gmap string float64 :=
  let seen := filter (fun p => fgtb (fsub now p.2) (float_of_int ttl) = false) seen in
  match seen !! nonce with
  | Some _ => (false, seen)
  | None => (true, <[nonce := now]> seen)
  end.

(** ** RequestAuthenticator *)
Context `{Ed25519} `{Sha256}.

Definition newline : string := String (Ascii.ascii_of_nat 10) EmptyString.

Definition canonical_payload (ag nonce body : string) : string :=
  (ag +:+ newline +:+ nonce +:+ newline +:+ sha256_hex body)%string.

Definition sign_request (a : AgentIdentity) (nonce body : string) : outcome string :=
  sign a (canonical_payload (agent_id a) nonce body).

Record authenticator := mkAuth {
  identities : registry;
  durable_nonces : nonce_table;
  local_nonces : gmap string float64;
}.

Definition authenticate (prod : bool) (ttl : Z) (now : float64) (ag nonce body signature_hex : string)
  : M authenticator (bool * string) :=
  s ← get;
  if negb (is_registered ag (identities s)) then mret (false, "unknown or revoked identity")
  else if bool_decide (nonce = "") then mret (false, "missing nonce")
  else if negb (hex_ok signature_hex) then mret (false, "malformed signature")
  else
    ok ← lift (verify_signature ag (canonical_payload ag nonce body) signature_hex (identities s));
    if negb ok then mret (false, "signature verification failed")
    else if prod then
      let '(fresh, t) := claim_nonce ag nonce ttl now (durable_nonces s) in
      _ ← put (mkAuth (identities s) t (local_nonces s));
      if fresh then mret (true, "authenticated")
      else mret (false, "nonce replay detected or nonce timestamp invalid")
    else
      let '(fresh, t) := check_and_store nonce ttl now (local_nonces s) in
      _ ← put (mkAuth (identities s) (durable_nonces s) t);
      if fresh then mret (true, "authenticated")
      else mret (false, "nonce replay detected").
End nonces.

(** ** Revocation *)

(** Registry operations by any worker; a restart rebuilds the caches. *)
Inductive reg_op :=
| Register (a : AgentIdentity)
| RegisterKey (ag key : string)
| Revoke (ag : string)
| Restart.

Definition reg_step (o : reg_op) (r : registry) : registry :=
  match o with
  | Register a => register a r
  | RegisterKey ag key => (register_public_key ag key r).2
  | Revoke ag => (revoke ag r).2
  | Restart => init (rows r)
  end.

Definition registers (ag : string) (o : reg_op) : bool :=
  match o with
  | Register a => bool_decide (agent_id a = ag)
  | RegisterKey ag' _ => bool_decide (ag' = ag)
  | _ => false
  end.

Lemma locked_out_step ag o r :
  is_registered ag r = false → registers ag o = false →
  is_registered ag (reg_step o r) = false.
Proof.
  unfold is_registered. intros Hr Ho.
  destruct o as [a|ag' key|ag'|]; simpl in *; [| | |done].
  - apply bool_decide_eq_false in Ho. unfold upsert_identity. by rewrite lookup_insert_ne.
  - apply bool_decide_eq_false in Ho. unfold upsert_identity. by rewrite lookup_insert_ne.
  - unfold revoke. destruct (rows r !! ag') as [rec|] eqn:Hg; [|done]. simpl.
    unfold upsert_identity.
    destruct (decide (ag' = ag)) as [->|]; [by rewrite lookup_insert_eq|].
    by rewrite lookup_insert_ne.
Qed.

Lemma locked_out_run ag ops r :
  is_registered ag r = false → forallb (fun o => negb (registers ag o)) ops = true →
  is_registered ag (foldl (fun r o => reg_step o r) r ops) = false.
Proof.
  revert r. induction ops as [|o ops IH]; intros r Hr; simpl; [done|].
  intros [Ho Hops]%andb_true_iff. apply IH; [|done].
  apply locked_out_step; [done|]. by apply negb_true_iff in Ho.
Qed.

Lemma unregistered_unauthenticated parse `{Ed25519} `{Sha256} prod ttl now ag nonce body sg s :
  is_registered ag (identities s) = false →
  authenticate parse prod ttl now ag nonce body sg s =
  (Ok (false, "unknown or revoked identity"), s).
Proof. intros Hr. unfold authenticate. rewrite run_bind. cbn [get]. by rewrite Hr. Qed.

Lemma unregistered_verify `{Ed25519} ag data sg r :
  is_registered ag r = false → verify_signature ag data sg r = Ok false.
Proof.
  unfold is_registered, verify_signature. destruct (rows r !! ag) as [rec|]; [|done].
  by destruct (row_revoked rec).
Qed.

(** Revocation sticks.  After [revoke], whatever registrations of other
    agents, revocations and worker restarts follow, the agent is not
    registered, none of its signatures verifies and no request of its
    authenticates, until it is registered again. *)
Theorem revocation_sticks parse `{Ed25519} `{Sha256} ag ops r prod ttl now nonce body sg data dn ln :
  forallb (fun o => negb (registers ag o)) ops = true →
  let r' := foldl (fun r o => reg_step o r) (revoke ag r).2 ops in
  is_registered ag r' = false ∧ verify_signature ag data sg r' = Ok false ∧
  authenticate parse prod ttl now ag nonce body sg (mkAuth r' dn ln) =
  (Ok (false, "unknown or revoked identity"), mkAuth r' dn ln).
Proof.
  intros Hops r'. assert (is_registered ag r' = false) as Hr.
  { apply locked_out_run; [|done]. unfold is_registered, revoke.
    destruct (rows r !! ag) eqn:Hg; simpl; [|by rewrite Hg].
    by unfold upsert_identity; rewrite lookup_insert_eq. }
  split_and!; [done|by apply unregistered_verify|by apply unregistered_unauthenticated].
Qed.

(** ** One acceptance per nonce *)

(** Clock readings: multiples of [2^e] units below [2^(53+e)].  With
    [e = 1052] these are all the doubles of the years 2004 to 2038. *)
Definition clock_ok (e : Z) (t : float64) : Prop :=
  ∃ z, t = FFin z ∧ (2 ^ e | z)%Z ∧ (0 ≤ z < 2 ^ (53 + e))%Z.

Section replay.
Local Open Scope Z_scope.
Context (parse_float : string → option float64) (e ttl : Z).
Context (He : 0 ≤ e ≤ 1074) (Httl : 0 ≤ ttl) (Hbig : 2 * ttl * 2 ^ 1074 < 2 ^ (53 + e)).

Definition stamp_ok (nonce : string) : Prop :=
  ∀ stamp rand ts, split_colon nonce = Some (stamp, rand) →
    parse_float stamp = Some ts → clock_ok e ts.

Lemma fsub_clock x y :
  (2 ^ e | x) → (2 ^ e | y) → 0 ≤ x < 2 ^ (53 + e) → 0 ≤ y < 2 ^ (53 + e) →
  fsub (FFin x) (FFin y) = FFin (x - y).
Proof.
  intros Hx Hy ? ?. unfold fsub. simpl fopp.
  rewrite (fadd_grid e); [done|lia|done|by apply Z.divide_opp_r|lia].
Qed.

Lemma float_of_int_clock n : 0 ≤ n ≤ 2 * ttl →
  float_of_int n = FFin (n * 2 ^ 1074) ∧ (2 ^ e | n * 2 ^ 1074) ∧
  0 ≤ n * 2 ^ 1074 < 2 ^ (53 + e).
Proof.
  intros Hn. assert (0 < 2 ^ 1074) by by apply Z.pow_pos_nonneg.
  assert ((2 ^ e | n * 2 ^ 1074)) as Hd.
  { apply Z.divide_mul_r. exists (2 ^ (1074 - e)). rewrite <-Z.pow_add_r by lia. f_equal. lia. }
  assert (0 ≤ n * 2 ^ 1074 < 2 ^ (53 + e)) as Hr.
  { split; [lia|]. apply Z.le_lt_trans with (2 * ttl * 2 ^ 1074); [|done].
    apply Z.mul_le_mono_nonneg_r; lia. }
  split_and!; try done; try lia. unfold float_of_int.
  apply (fround_grid e); [lia|]. split; [done|lia].
Qed.

Lemma fresh_within nonce now : stamp_ok nonce → clock_ok e now →
  nonce_fresh parse_float nonce ttl now = true →
  ∃ t ts, now = FFin t ∧ Z.abs (t - ts) ≤ ttl * 2 ^ 1074 ∧
  ∀ stamp rand, split_colon nonce = Some (stamp, rand) → parse_float stamp = Some (FFin ts).
Proof.
  intros Hs (t & -> & Hdt & Ht) Hf. unfold nonce_fresh in Hf.
  destruct (256 <? strlen nonce); [done|].
  destruct (split_colon nonce) as [[stamp rand]|] eqn:Hsp; [|done].
  destruct (strlen rand <? 16); [done|].
  destruct (parse_float stamp) as [f|] eqn:Hp; [|done].
  destruct (Hs _ _ _ Hsp Hp) as (ts & -> & Hdts & Hts).
  apply andb_true_iff in Hf as [_ Hf]. exists t, ts. split_and!; [done| |].
  - rewrite fsub_clock in Hf by done.
    destruct (float_of_int_clock ttl ltac:(lia)) as (Hfi & _). rewrite Hfi in Hf.
    unfold fgtb in Hf. simpl in Hf. destruct (Z.ltb_spec (ttl * 2 ^ 1074) (Z.abs (t - ts)));
      [done|lia].
  - intros ? ? Heq. by simplify_eq.
Qed.

(** Once [nonce] was accepted at [t1], it is in the table or its stamp is
    too old for any later clock reading. *)
Definition spent_nonce (ag nonce : string) (t1 now : float64) (t : nonce_table) : Prop :=
  t !! (ag, nonce) = Some t1 ∨
  ∀ now', clock_ok e now' → fleb now now' = true → nonce_fresh parse_float nonce ttl now' = false.

Lemma prune_spent ag nonce t1 now t :
  stamp_ok nonce → clock_ok e t1 → clock_ok e now →
  nonce_fresh parse_float nonce ttl t1 = true →
  spent_nonce ag nonce t1 now t →
  spent_nonce ag nonce t1 now (prune_nonces (fsub now (float_of_int (2 * ttl))) t).
Proof.
  intros Hs H1 Hnow Hf [Hin|Hdead]; [|by right].
  destruct (fltb t1 (fsub now (float_of_int (2 * ttl)))) eqn:Hlt.
  - right. intros now' Hc' Hle. destruct (nonce_fresh parse_float nonce ttl now') eqn:Hf'; [|done].
    exfalso. destruct (fresh_within _ _ Hs H1 Hf) as (a & ts & -> & Ha & Hpa).
    destruct (fresh_within _ _ Hs Hc' Hf') as (b & ts' & -> & Hb & Hpb).
    destruct (split_colon nonce) as [[st rn]|] eqn:Hsp;
      [|unfold nonce_fresh in Hf; rewrite Hsp in Hf; by destruct (256 <? _)].
    assert (ts' = ts) as -> by (specialize (Hpa _ _ eq_refl); specialize (Hpb _ _ eq_refl); congruence).
    destruct Hnow as (c & -> & Hdc & Hc).
    destruct (float_of_int_clock (2 * ttl) ltac:(lia)) as (Hfi & Hd2 & Hr2).
    rewrite Hfi, fsub_clock in Hlt by done. simpl in Hlt. apply Z.ltb_lt in Hlt.
    apply fleb_FFin in Hle. lia.
  - left. by apply map_lookup_filter_Some.
Qed.

Record attempt := mkAttempt { at_time : float64; at_agent : string; at_nonce : string }.

Fixpoint claims (l : list attempt) (t : nonce_table) : list bool * nonce_table :=
  match l with
  | [] => ([], t)
  | a :: l' =>
      let '(b, t1) := claim_nonce parse_float (at_agent a) (at_nonce a) ttl (at_time a) t in
      let '(bs, t2) := claims l' t1 in (b :: bs, t2)
  end.

Lemma claim_spent ag nonce t1 ag' n' now t :
  stamp_ok nonce → clock_ok e t1 → clock_ok e now →
  nonce_fresh parse_float nonce ttl t1 = true → spent_nonce ag nonce t1 now t →
  let r := claim_nonce parse_float ag' n' ttl now t in
  spent_nonce ag nonce t1 now r.2 ∧ ((ag', n') = (ag, nonce) → r.1 = false).
Proof.
  intros Hs H1 Hnow Hf Hsp. unfold claim_nonce. cbv zeta.
  destruct (nonce_fresh parse_float n' ttl now) eqn:Hf'; [|done].
  pose proof (prune_spent _ _ _ _ _ Hs H1 Hnow Hf Hsp) as Hsp'.
  destruct (prune_nonces _ t !! (ag', n')) as [x|] eqn:Hl; [done|]. simpl. split.
  - destruct Hsp' as [Hin|]; [left|by right]. rewrite lookup_insert_ne; [done|].
    intros [= -> ->]. by rewrite Hl in Hin.
  - intros [= -> ->]. destruct Hsp' as [Hin|Hdead]; [by rewrite Hl in Hin|].
    rewrite Hdead in Hf'; [done|done|]. destruct Hnow as (z & -> & _). by apply fleb_FFin.
Qed.

Lemma spent_later ag nonce t1 now now' t :
  fleb now now' = true → spent_nonce ag nonce t1 now t → spent_nonce ag nonce t1 now' t.
Proof.
  intros Hle [Hin|Hdead]; [by left|]. right. intros u Hu Hle'. apply Hdead; [done|].
  by eapply fleb_trans.
Qed.

Lemma claims_spent ag nonce t1 l now t :
  stamp_ok nonce → clock_ok e t1 → nonce_fresh parse_float nonce ttl t1 = true →
  Forall (fun a => clock_ok e (at_time a)) l →
  StronglySorted (fun x y => fleb x y = true) (now :: (at_time <$> l)) →
  spent_nonce ag nonce t1 now t →
  ∀ j a, l !! j = Some a → at_agent a = ag → at_nonce a = nonce →
  (claims l t).1 !! j = Some false.
Proof.
  intros Hs H1 Hf. revert now t. induction l as [|b l IH]; intros now t Hc Hso Hsp j a Hj; [done|].
  apply Forall_cons in Hc as [Hb Hc]. apply StronglySorted_inv in Hso as [Hso Hall].
  simpl in Hso, Hall. apply Forall_cons in Hall as [Hle _].
  pose proof (claim_spent _ _ _ (at_agent b) (at_nonce b) _ _ Hs H1 Hb Hf
                (spent_later _ _ _ _ _ _ Hle Hsp)) as [Hsp' Hno]. simpl.
  destruct (claim_nonce _ _ _ _ _ t) as [r t']. simpl in *.
  specialize (IH (at_time b) t' Hc Hso Hsp').
  destruct (claims l t') as [bs t''] eqn:Hcl. simpl in *.
  intros Ha Hn. destruct j as [|j]; simpl in *; [|by eapply IH].
  simplify_eq. by rewrite Hno.
Qed.

Lemma claim_true ag nonce now t t' :
  clock_ok e now → claim_nonce parse_float ag nonce ttl now t = (true, t') →
  nonce_fresh parse_float nonce ttl now = true ∧ t' !! (ag, nonce) = Some now.
Proof.
  unfold claim_nonce. intros _ Hc. destruct (nonce_fresh _ _ _ _); [|done].
  cbv zeta in Hc. case_match; simplify_eq. by rewrite lookup_insert_eq.
Qed.

Lemma claims_once l now t :
  Forall (fun a => clock_ok e (at_time a) ∧ stamp_ok (at_nonce a)) l →
  StronglySorted (fun x y => fleb x y = true) (now :: (at_time <$> l)) →
  ∀ i j a b, (i < j)%nat → l !! i = Some a → l !! j = Some b →
  at_agent a = at_agent b → at_nonce a = at_nonce b →
  (claims l t).1 !! i = Some true → (claims l t).1 !! j = Some false.
Proof.
  revert now t. induction l as [|c l IH]; intros now t Hc Hso i j a b Hij Hi Hj Hag Hno; [done|].
  apply Forall_cons in Hc as [[Hcc Hst] Hc]. apply StronglySorted_inv in Hso as [Hso _].
  simpl in Hso. simpl. destruct (claim_nonce _ _ _ _ _ t) as [r t'] eqn:Hr.
  destruct (claims l t') as [bs t''] eqn:Hcl. simpl. destruct j as [|j]; [lia|]. simpl in Hj |- *.
  destruct i as [|i]; simpl in *.
  - intros [= ->]. simplify_eq. apply claim_true in Hr as [Hf Hin]; [|done].
    assert (bs = (claims l t').1) as -> by by rewrite Hcl.
    eapply (claims_spent (at_agent a) (at_nonce a) (at_time a)); try done; [|by left].
    by apply (Forall_impl _ _ _ Hc); intros ? [].
  - assert (bs = (claims l t').1) as -> by by rewrite Hcl.
    eapply (IH (at_time c) t' Hc Hso i j); try done. lia.
Qed.
End replay.

(** A nonce is accepted once.  In any sequence of claims whose clock
    readings do not go back, by any workers sharing the table and with any other
    claims in between (each of which prunes old rows), no agent's nonce
    succeeds twice: a row is only pruned when the stamp inside the nonce can no
    longer be accepted.  The clock hypotheses make the float subtractions
    exact. *)
Theorem nonce_accepted_once parse_float e ttl l t :
  (0 ≤ e ≤ 1074)%Z → (0 ≤ ttl)%Z → (2 * ttl * 2 ^ 1074 < 2 ^ (53 + e))%Z →
  Forall (fun a => clock_ok e (at_time a) ∧ stamp_ok parse_float e (at_nonce a)) l →
  StronglySorted (fun x y => fleb x y = true) (at_time <$> l) →
  ∀ i j a b, (i < j)%nat → l !! i = Some a → l !! j = Some b →
  at_agent a = at_agent b → at_nonce a = at_nonce b →
  (claims parse_float ttl l t).1 !! i = Some true →
  (claims parse_float ttl l t).1 !! j = Some false.
Proof.
  intros He Ht Hb Hl Hso i j a b Hij Hi Hj. destruct l as [|c l]; [done|].
  apply (claims_once parse_float e ttl He Ht Hb _ (at_time c)); try done.
  apply SSorted_cons; [done|]. apply Forall_cons. split.
  - apply Forall_cons in Hl as [[(z & -> & _) _] _]. by apply fleb_FFin.
  - simpl in Hso. by apply StronglySorted_inv in Hso as [_ ?].
Qed.

(** ** Authentication *)

(** The nonce decision of a run: the durable table in production, the
    worker's own cache otherwise. *)
Definition nonce_decision (parse_float : string → option float64) (prod : bool) (ttl : Z)
    (now : float64) (ag nonce : string) (s : authenticator) : bool :=
  if prod then (claim_nonce parse_float ag nonce ttl now (durable_nonces s)).1
  else (check_and_store nonce ttl now (local_nonces s)).1.

(** A request authenticates exactly when the agent is registered and not
    revoked, the nonce is present and not yet seen, and the signature over
    (agent, nonce, body digest) verifies under the stored key; in particular a
    request signed by the holder of the registered key with a new nonce
    is accepted, and rejecting never writes identities. *)
Theorem authenticate_sound_complete parse_float `{Ed25519} `{Sha256} prod ttl now ag nonce body sg s why s' :
  authenticate parse_float prod ttl now ag nonce body sg s = (Ok (true, why), s') ↔
  why = "authenticated" ∧ is_registered ag (identities s) = true ∧ nonce ≠ "" ∧
  hex_ok sg = true ∧
  verify_signature ag (canonical_payload ag nonce body) sg (identities s) = Ok true ∧
  nonce_decision parse_float prod ttl now ag nonce s = true ∧
  s' = mkAuth (identities s)
         (if prod then (claim_nonce parse_float ag nonce ttl now (durable_nonces s)).2
          else durable_nonces s)
         (if prod then local_nonces s else (check_and_store nonce ttl now (local_nonces s)).2).
Proof.
  unfold authenticate, nonce_decision, mret, M_ret. rewrite run_bind. cbn [get].
  destruct (is_registered ag (identities s)); simpl; [|naive_solver].
  case_bool_decide; simpl; [naive_solver|]. destruct (hex_ok sg); simpl; [|naive_solver].
  rewrite run_bind. unfold lift. destruct (verify_signature _ _ _ _) as [[]|]; simpl; [|naive_solver..].
  destruct prod.
  - destruct (claim_nonce _ _ _ _ _ _) as [[] t]; rewrite run_bind; simpl; naive_solver.
  - destruct (check_and_store _ _ _ _) as [[] t]; rewrite run_bind; simpl; naive_solver.
Qed.

Lemma honest_signature `{Ed25519} ag k data r sg :
  sign (generate ag k) data = Ok sg →
  verify_signature ag data sg (register (generate ag k) r) = Ok true ∧ hex_ok sg = true.
Proof.
  intros [= <-]. split; [|apply ed_sign_hex].
  unfold verify_signature, register, upsert_identity. simpl. rewrite lookup_insert_eq. simpl.
  unfold verify. simpl. by rewrite public_of_ok, ed_correct.
Qed.

(** ** A concrete scheme *)

#[global] Instance demo_ed25519 : Ed25519 := {
  public_of k := k;
  ed_sign k m := (k +:+ "/" +:+ m)%string;
  public_key_ok _ := true;
  hex_ok _ := true;
  ed_verify p m s := bool_decide (s = p +:+ "/" +:+ m)%string;
  public_of_ok k := eq_refl;
  ed_sign_hex k m := eq_refl;
  ed_correct k m := bool_decide_eq_true_2 _ eq_refl;
}.

#[global] Instance demo_sha256 : Sha256 := { sha256_hex s := s }.

Definition demo_registry : registry := register (generate "al" "k") (init ∅).

Lemma revocation_sticks_witness :
  is_registered "al" (foldl (fun r o => reg_step o r) (revoke "al" demo_registry).2
    [RegisterKey "bob" "k2"; Restart]) = false.
Proof.
  exact (proj1 (revocation_sticks (fun _ => None) "al" [RegisterKey "bob" "k2"; Restart]
    demo_registry true 300 fzero "n" "b" "s" "d" ∅ ∅ eq_refl)).
Defined.

Definition demo_nonce : string := "5:0123456789abcdef".

Definition demo_claims : list attempt :=
  [mkAttempt (fl 6) "al" demo_nonce; mkAttempt (fl 7) "bob" demo_nonce;
   mkAttempt (fl 8) "al" demo_nonce].

Lemma fl_clock n : (0 ≤ n < 2 ^ 31)%Z → clock_ok 1052 (fl n).
Proof.
  intros Hn. exists (n * 2 ^ 1074)%Z. split_and!; [done| | |].
  - apply Z.divide_mul_r. exists (2 ^ 22)%Z. by vm_compute.
  - assert (0 < 2 ^ 1074)%Z by (by apply Z.pow_pos_nonneg). lia.
  - replace (2 ^ (53 + 1052))%Z with (2 ^ 31 * 2 ^ 1074)%Z by (by vm_compute).
    apply Z.mul_lt_mono_pos_r; [by apply Z.pow_pos_nonneg|lia].
Qed.

Lemma nonce_accepted_once_witness :
  (claims (fun _ => Some (fl 5)) 300 demo_claims ∅).1 !! 2%nat = Some false.
Proof.
  eapply (nonce_accepted_once (fun _ => Some (fl 5)) 1052 300 demo_claims ∅);
    [lia|lia|vm_compute; reflexivity| | |apply (Nat.lt_0_succ 1)|reflexivity..|];
    [| |vm_compute; reflexivity].
  - assert (stamp_ok (fun _ => Some (fl 5)) 1052 demo_nonce) as Hs.
    { intros ? ? ? _ [= <-]. apply fl_clock. lia. }
    repeat (apply Forall_cons; split; [split; [apply fl_clock; lia|exact Hs]|]). apply Forall_nil_2.
  - repeat constructor.
Defined.
