(* ===== verification/Authority.v ===== *)
(** * Enrolled tenant authority

    Models src/governance/authority.py: tenants, platform administrators,
    members, agents, delegations and request replays, the sealed [Principal]
    contexts minted from them, and every operation of [AuthorityDirectory].

    The tables are maps keyed by their primary keys.  Each operation is one SQL
    transaction and reads the clock once.  JWT verification, HMAC and Ed25519
    belong to other packages and are parameters. *)

From stdpp Require Import base list gmap strings pretty.
From Stdlib Require Import ZArith Lia.
From S2P Require Import Prelude PyFloat Codec Identity.

Local Open Scope Z_scope.

(** ** Bounded text *)

Definition code (c : Ascii.ascii) : Z := Z.of_nat (Ascii.nat_of_ascii c).

Definition is_alnum (c : Ascii.ascii) : bool :=
  let n := code c in
  ((48 <=? n) && (n <=? 57)) || ((65 <=? n) && (n <=? 90)) || ((97 <=? n) && (n <=? 122)).

(** [_ . : -] *)
Definition is_ident_char (c : Ascii.ascii) : bool :=
  let n := code c in
  is_alnum c || (n =? 95) || (n =? 46) || (n =? 58) || (n =? 45).

Fixpoint str_forallb (f : Ascii.ascii → bool) (s : string) : bool :=
  match s with EmptyString => true | String c s' => f c && str_forallb f s' end.

(** [_identifier]: [[A-Za-z0-9][A-Za-z0-9_.:-]{0,127}]. *)
Definition identifier_ok (s : string) : bool :=
  match s with
  | EmptyString => false
  | String c s' => is_alnum c && str_forallb is_ident_char s' && (strlen s' <=? 127)
  end.

Definition identifier (s : string) (label : string) : outcome string :=
  if identifier_ok s then Ok s else Raise (ValueError ("invalid bounded " +:+ label)).

Definition printable (s : string) : bool := str_forallb (fun c => 32 <=? code c) s.

Definition subject_ok (s : string) : bool :=
  (1 <=? strlen s) && (strlen s <=? 256) && bool_decide (strip s = s) && printable s.

Definition check_subject (s : string) : outcome string :=
  if subject_ok s then Ok s else Raise (ValueError "invalid bounded subject").

Definition scope_ok (s : string) : bool :=
  (1 <=? strlen s) && (strlen s <=? 128) && bool_decide (strip s = s) &&
  str_forallb (fun c => negb (code c =? 42)) s && printable s.

Fixpoint insert_scope (v : string) (l : list string) : list string :=
  match l with
  | [] => [v]
  | w :: l' => if bool_decide (v = w) then l
               else if String.ltb v w then v :: l else w :: insert_scope v l'
  end.

(** [_scopes]: [tuple(sorted(set(values)))] of valid values. *)
Definition scopes (values : list string) : outcome (list string) :=
  if 128 <? Z.of_nat (length values) then Raise (ValueError "explicit bounded scopes required")
  else if negb (forallb scope_ok values)
  then Raise (ValueError "invalid scope; wildcards are prohibited")
  else Ok (foldr insert_scope [] values).

Definition is_hex (c : Ascii.ascii) : bool :=
  let n := code c in
  ((48 <=? n) && (n <=? 57)) || ((65 <=? n) && (n <=? 70)) || ((97 <=? n) && (n <=? 102)).

(** [str.lower] on ASCII. *)
Definition lower_char (c : Ascii.ascii) : Ascii.ascii :=
  let n := Ascii.nat_of_ascii c in
  if bool_decide (65 ≤ n ∧ n ≤ 90)%nat then Ascii.ascii_of_nat (n + 32) else c.

Fixpoint str_lower (s : string) : string :=
  match s with EmptyString => EmptyString | String c s' => String (lower_char c) (str_lower s') end.

(** ** Principals *)

Record Principal := mkPrincipal {
  tenant_id : option string;
  subject : string;
  issuer : string;
  kind : string;
  revision : Z;
  tenant_revision : Z;
  p_agent_id : option string;
  agent_revision : Z;
  delegation_id : option string;
  delegation_revision : Z;
  user_revision : Z;
  grantor_revision : Z;
  valid_until : float64;
  capabilities : list string;
  targets : list string;
  request_body_sha256 : string;
  request_nonce : string;
  proof : string;
}.

Definition with_proof (x : string) (p : Principal) : Principal :=
  mkPrincipal (tenant_id p) (subject p) (issuer p) (kind p) (revision p) (tenant_revision p)
    (p_agent_id p) (agent_revision p) (delegation_id p) (delegation_revision p)
    (user_revision p) (grantor_revision p) (valid_until p) (capabilities p) (targets p)
    (request_body_sha256 p) (request_nonce p) x.

(** [_seal]'s HMAC over every field but the proof, under the process's key. *)
Class SealScheme := {
  hmac_seal : string → Principal → string;
  seal_inj k p q : hmac_seal k (with_proof "" p) = hmac_seal k (with_proof "" q) →
                   with_proof "" p = with_proof "" q;
}.

Definition roles : list string := ["tenant_admin"; "tenant_operator"; "tenant_viewer"].

Definition is_role (k : string) : bool := bool_decide (k ∈ roles).

Definition is_agent_kind (k : string) : bool :=
  bool_decide (k = "machine" ∨ k = "delegated_human").

(** [Principal.binding]: the fields that identify an authority across token
    refreshes. *)
Definition binding (p : Principal) : Principal :=
  mkPrincipal (tenant_id p) (subject p) (issuer p) (kind p) (revision p) (tenant_revision p)
    (p_agent_id p) (agent_revision p) (delegation_id p) (delegation_revision p)
    (user_revision p) (grantor_revision p) fzero (capabilities p) (targets p) "" "" "".

(** ** Tables *)

Record tenant_row := mkTenant { t_revision : Z; t_active : bool }.
Record admin_row := mkAdmin { a_revision : Z; a_active : bool }.
Record member_row := mkMember {
  m_role : string;
  m_revision : Z;
  m_active : bool;
  m_capabilities : list string;
  m_targets : list string;
}.
Record agent_row := mkAgent {
  g_key : string;
  g_revision : Z;
  g_active : bool;
  g_capabilities : list string;
  g_targets : list string;
}.
Record grant_row := mkGrant {
  d_agent_id : string;
  d_agent_revision : Z;
  d_user_issuer : string;
  d_user_subject : string;
  d_user_revision : Z;
  d_grantor_issuer : string;
  d_grantor_subject : string;
  d_grantor_kind : string;
  d_grantor_revision : Z;
  d_capabilities : list string;
  d_targets : list string;
  d_not_before : float64;
  d_expires_at : float64;
  d_tenant_revision : Z;
  d_revision : Z;
  d_active : bool;
}.

Record directory := mkDirectory {
  tenants : gmap string tenant_row;
  platform_admins : gmap (string * string) admin_row;
  members : gmap (string * string * string) member_row;
  agents : gmap (string * string) agent_row;
  delegations : gmap (string * string) grant_row;
  replays : gmap (string * string * string) float64;
}.

Definition set_tenants x d := mkDirectory x (platform_admins d) (members d) (agents d) (delegations d) (replays d).
Definition set_admins x d := mkDirectory (tenants d) x (members d) (agents d) (delegations d) (replays d).
Definition set_members x d := mkDirectory (tenants d) (platform_admins d) x (agents d) (delegations d) (replays d).
Definition set_agents x d := mkDirectory (tenants d) (platform_admins d) (members d) x (delegations d) (replays d).
Definition set_delegations x d := mkDirectory (tenants d) (platform_admins d) (members d) (agents d) x (replays d).
Definition set_replays x d := mkDirectory (tenants d) (platform_admins d) (members d) (agents d) (delegations d) x.

(** ** Lookups that deny *)

Definition denied {A} (msg : string) : outcome A := Raise (AuthorityDenied msg).

Definition active_tenant (t : option string) (d : directory) : outcome tenant_row :=
  match t ≫= (fun t => tenants d !! t) with
  | Some row => if t_active row then Ok row else denied "tenant unavailable"
  | None => denied "tenant unavailable"
  end.

Definition active_platform (iss sub : string) (d : directory) : outcome admin_row :=
  match platform_admins d !! (iss, sub) with
  | Some row => if a_active row then Ok row else denied "platform authority unavailable"
  | None => denied "platform authority unavailable"
  end.

Definition active_member (t : option string) (iss sub : string) (d : directory)
  : outcome member_row :=
  match t ≫= (fun t => members d !! (t, iss, sub)) with
  | Some row => if m_active row then Ok row else denied "tenant membership unavailable"
  | None => denied "tenant membership unavailable"
  end.

Definition active_agent (t ag : option string) (d : directory) : outcome agent_row :=
  match t ≫= (fun t => ag ≫= (fun ag => agents d !! (t, ag))) with
  | Some row => if g_active row then Ok row else denied "agent enrollment unavailable"
  | None => denied "agent enrollment unavailable"
  end.

Definition grant_error : string := "delegation unavailable or stale".

(** [_grant]; [ag] and [row] are the agent row it is given. *)
Definition current_grant (now : float64) (t grant_id : option string) (ag : option string)
    (agent : agent_row) (d : directory) : outcome grant_row :=
  match t ≫= (fun t => grant_id ≫= (fun g => delegations d !! (t, g))) with
  | None => denied grant_error
  | Some row =>
      if negb (d_active row) ||
         negb (fleb (d_not_before row) now && fltb now (d_expires_at row)) ||
         negb (bool_decide (Some (d_agent_id row) = ag)) ||
         negb (d_agent_revision row =? g_revision agent)
      then denied grant_error
      else
        tenant ← active_tenant t d;
        if negb (d_tenant_revision row =? t_revision tenant)
        then denied "delegation tenant revision changed"
        else
          user ← active_member t (d_user_issuer row) (d_user_subject row) d;
          grantor_revision ←
            (if bool_decide (d_grantor_kind row = "platform_admin") then
               a_revision <$> active_platform (d_grantor_issuer row) (d_grantor_subject row) d
             else
               grantor ← active_member t (d_grantor_issuer row) (d_grantor_subject row) d;
               if negb (bool_decide (m_role grantor = "tenant_admin"))
               then denied "delegation grantor no longer an administrator"
               else Ok (m_revision grantor));
          if negb (m_revision user =? d_user_revision row) ||
             negb (grantor_revision =? d_grantor_revision row)
          then denied "delegation enrollment revision changed"
          else Ok row
  end.

Section directory.
Context `{SealScheme}.
(** The process's context key. *)
Context (context_key : string).

Definition seal (p : Principal) : string := hmac_seal context_key (with_proof "" p).

Definition mint (p : Principal) : Principal := with_proof (seal p) p.

Definition seal_ok (now : float64) (p : Principal) : bool :=
  bool_decide (proof p = seal p) && fisfinite (valid_until p) && fgtb (valid_until p) now.

Definition verify_seal (now : float64) (p : Principal) : outcome unit :=
  guard_or (seal_ok now p) (AuthorityDenied "unverified, altered or expired principal context").

(** [_current]. *)
Definition current (now : float64) (p : Principal) (d : directory) : outcome unit :=
  _ ← verify_seal now p;
  if bool_decide (kind p = "platform_admin") then
    row ← active_platform (issuer p) (subject p) d;
    guard_or (bool_decide (tenant_id p = None) && (a_revision row =? revision p))
             (AuthorityDenied "platform authority changed")
  else
    tenant ← active_tenant (tenant_id p) d;
    if negb (t_revision tenant =? tenant_revision p) then denied "tenant authority changed"
    else if is_role (kind p) then
      row ← active_member (tenant_id p) (issuer p) (subject p) d;
      guard_or (bool_decide (m_role row = kind p) && (m_revision row =? revision p))
               (AuthorityDenied "membership authority changed")
    else if is_agent_kind (kind p) then
      row ← active_agent (tenant_id p) (p_agent_id p) d;
      if negb (g_revision row =? agent_revision p) then denied "agent authority changed"
      else if bool_decide (kind p = "delegated_human") then
        grant ← current_grant now (tenant_id p) (delegation_id p) (p_agent_id p) row d;
        guard_or (d_revision grant =? delegation_revision p)
                 (AuthorityDenied "delegation revision changed")
      else Ok tt
    else denied "unsupported principal kind".

Definition assert_current (now : float64) (p : Principal) : M directory Principal :=
  d ← get; _ ← lift (current now p d); mret p.

Definition assert_request `{Sha256} (now : float64) (p : Principal) (body : option string)
    (nonce : option string) : M directory Principal :=
  _ ← assert_current now p;
  _ ← ensure (is_agent_kind (kind p) &&
              bool_decide (Some (request_body_sha256 p) = sha256_hex <$> body) &&
              bool_decide (Some (request_nonce p) = nonce))
             (AuthorityDenied "principal proof is bound to a different request");
  mret p.

(** [_admin]. *)
Definition admin (now : float64) (actor : Principal) (t : option string) (d : directory)
  : outcome unit :=
  _ ← current now actor d;
  if bool_decide (kind actor = "platform_admin") then Ok tt
  else if bool_decide (t = None) || negb (bool_decide (kind actor = "tenant_admin")) ||
          negb (bool_decide (tenant_id actor = t))
  then denied "appropriately scoped administrator required"
  else Ok tt.

(** [_agent_principal]. *)
Definition agent_principal (t ag : string) (tenant : tenant_row) (agent : agent_row)
    (grant : option (string * grant_row)) (until : float64) (body_sha nonce : string) : Principal :=
  match grant with
  | Some (grant_id, g) =>
      mint (mkPrincipal (Some t) (d_user_subject g) (d_user_issuer g) "delegated_human"
              (g_revision agent) (t_revision tenant) (Some ag) (g_revision agent)
              (Some grant_id) (d_revision g) (d_user_revision g) (d_grantor_revision g)
              (fmin (d_expires_at g) until) (d_capabilities g) (d_targets g) body_sha nonce "")
  | None =>
      mint (mkPrincipal (Some t) ag "urn:agentbridge:enrollment" "machine"
              (g_revision agent) (t_revision tenant) (Some ag) (g_revision agent)
              None 0 0 0 until (g_capabilities agent) (g_targets agent) body_sha nonce "")
  end.

(** ** Enrollment *)

(** The configured issuers, and the claims a verified token carries. *)
Inductive claim_value := CNull | CText (s : string) | COther.
Record claims := mkClaims {
  c_sub : option string;
  c_exp : option pynum;
  c_iss : option string;
  c_tenant : option claim_value;
}.
Context (verifiers : gmap string (string → outcome claims)).

Definition bootstrap_platform_admin (iss sub : string) : M directory unit :=
  _ ← ensure (bool_decide (is_Some (verifiers !! iss))) (ValueError "trusted issuer required");
  _ ← lift (check_subject sub);
  atomic (
    d ← get;
    _ ← ensure (bool_decide (platform_admins d = ∅))
               (AuthorityDenied "platform bootstrap is permanently closed");
    put (set_admins (<[(iss, sub) := mkAdmin 1 true]> (platform_admins d)) d)).

(** [math.isfinite] on an [int] or [float]: an int too large for a double
    raises; a bool or any other type fails the test before it. *)
Definition finite_number (bad : pyexn) (x : option pynum) : outcome float64 :=
  match x with
  | Some (PInt n) => if fisfinite (float_of_int n) then Ok (fl n)
                     else Raise (OverflowError "int too large to convert to float")
  | Some (PFloat f) => if fisfinite f then Ok f else Raise bad
  | _ => Raise bad
  end.

Definition token_error : pyexn :=
  AuthorityDenied "operator token is not valid for enrolled authority".

(** The [try] block of [authenticate_operator]. *)
Definition operator_claims (now : float64) (iss : string) (verifier : string → outcome claims)
    (token : string) (t : option string) : outcome (string * float64) :=
  match verifier token with
  | Raise _ => Raise token_error
  | Ok c =>
      sub ← match c_sub c with
            | Some s => if subject_ok s then Ok s else Raise token_error
            | None => Raise token_error
            end;
      expires ← finite_number token_error (c_exp c);
      _ ← guard_or (negb (fleb expires now)) token_error;
      _ ← guard_or (bool_decide (c_iss c = Some iss) &&
                    match c_tenant c, t with
                    | None, _ => true
                    | Some CNull, None => true
                    | Some (CText x), Some y => bool_decide (x = y)
                    | _, _ => false
                    end) token_error;
      _ ← guard_or (match t with Some x => identifier_ok x | None => true end) token_error;
      Ok (sub, expires)
  end.

Definition authenticate_operator (now : float64) (iss token : string) (t : option string)
  : M directory Principal :=
  d ← get;
  match verifiers !! iss with
  | None => raise (AuthorityDenied "trusted issuer and bounded signed token required")
  | Some verifier =>
      _ ← ensure ((1 <=? strlen token) && (strlen token <=? 16384))
                 (AuthorityDenied "trusted issuer and bounded signed token required");
      '(sub, expires) ← lift (operator_claims now iss verifier token t);
      match t with
      | None =>
          row ← lift (active_platform iss sub d);
          mret (mint (mkPrincipal None sub iss "platform_admin" (a_revision row) 0 None 0 None 0 0 0
                        expires [] [] "" "" ""))
      | Some _ =>
          tenant ← lift (active_tenant t d);
          row ← lift (active_member t iss sub d);
          mret (mint (mkPrincipal t sub iss (m_role row) (m_revision row) (t_revision tenant)
                        None 0 None 0 0 0 expires (m_capabilities row) (m_targets row) "" "" ""))
      end
  end.

Definition set_tenant (now : float64) (actor : Principal) (t : string) (active : bool)
  : M directory unit :=
  _ ← lift (identifier t "tenant_id");
  atomic (
    d ← get;
    _ ← lift (admin now actor None d);
    let rev := match tenants d !! t with Some r => t_revision r + 1 | None => 1 end in
    put (set_tenants (<[t := mkTenant rev active]> (tenants d)) d)).

Definition enroll_platform_admin (now : float64) (actor : Principal) (iss sub : string)
  : M directory unit :=
  _ ← ensure (bool_decide (is_Some (verifiers !! iss))) (ValueError "trusted issuer required");
  _ ← lift (check_subject sub);
  atomic (
    d ← get;
    _ ← lift (admin now actor None d);
    let rev := match platform_admins d !! (iss, sub) with
               | Some r => a_revision r + 1 | None => 1 end in
    put (set_admins (<[(iss, sub) := mkAdmin rev true]> (platform_admins d)) d)).

Definition active_admins (d : directory) : nat :=
  size (filter (fun p => a_active p.2 = true) (platform_admins d)).

Definition revoke_platform_admin (now : float64) (actor : Principal) (iss sub : string)
  : M directory unit :=
  atomic (
    d ← get;
    _ ← lift (admin now actor None d);
    row ← lift (active_platform iss sub d);
    _ ← ensure (1 <? Z.of_nat (active_admins d))
               (AuthorityDenied "cannot revoke the last active platform administrator");
    put (set_admins (<[(iss, sub) := mkAdmin (a_revision row + 1) false]> (platform_admins d)) d)).

Definition enroll_member (now : float64) (actor : Principal) (t iss sub role : string)
    (caps tgts : list string) : M directory unit :=
  _ ← lift (identifier t "tenant_id");
  _ ← lift (check_subject sub);
  _ ← ensure (is_role role && bool_decide (is_Some (verifiers !! iss)))
             (ValueError "enrolled tenant role and configured issuer required");
  caps ← lift (scopes caps);
  tgts ← lift (scopes tgts);
  atomic (
    d ← get;
    _ ← lift (admin now actor (Some t) d);
    _ ← lift (active_tenant (Some t) d);
    let rev := match members d !! (t, iss, sub) with
               | Some r => m_revision r + 1 | None => 1 end in
    put (set_members (<[(t, iss, sub) := mkMember role rev true caps tgts]> (members d)) d)).

Definition enroll_agent `{Ed25519} (now : float64) (actor : Principal) (t ag public_key_hex : string)
    (caps tgts : list string) : M directory unit :=
  _ ← lift (identifier t "tenant_id");
  _ ← lift (identifier ag "agent_id");
  _ ← ensure ((strlen public_key_hex =? 64) && str_forallb is_hex public_key_hex &&
              public_key_ok public_key_hex)
             (ValueError "32-byte Ed25519 enrollment key required");
  caps ← lift (scopes caps);
  tgts ← lift (scopes tgts);
  atomic (
    d ← get;
    _ ← lift (admin now actor (Some t) d);
    _ ← lift (active_tenant (Some t) d);
    let rev := match agents d !! (t, ag) with Some r => g_revision r + 1 | None => 1 end in
    put (set_agents (<[(t, ag) := mkAgent (str_lower public_key_hex) rev true caps tgts]>
                       (agents d)) d)).

Definition revoke_agent (now : float64) (actor : Principal) (t ag : string) : M directory unit :=
  atomic (
    d ← get;
    _ ← lift (admin now actor (Some t) d);
    r ← lift (active_agent (Some t) (Some ag) d);
    put (set_agents (<[(t, ag) := mkAgent (g_key r) (g_revision r + 1) false
                                          (g_capabilities r) (g_targets r)]> (agents d)) d)).

Definition revoke_member (now : float64) (actor : Principal) (t iss sub : string)
  : M directory unit :=
  atomic (
    d ← get;
    _ ← lift (admin now actor (Some t) d);
    r ← lift (active_member (Some t) iss sub d);
    put (set_members (<[(t, iss, sub) := mkMember (m_role r) (m_revision r + 1) false
                                           (m_capabilities r) (m_targets r)]> (members d)) d)).

Definition list_agents (now : float64) (actor : Principal) (t : string)
  : M directory (list (string * agent_row)) :=
  d ← get;
  _ ← lift (admin now actor (Some t) d);
  _ ← lift (active_tenant (Some t) d);
  mret ((fun p => (p.1.2, p.2)) <$>
        filter (fun p => p.1.1 = t) (map_to_list (agents d))).

(** ** Delegations *)

Definition subset (l1 l2 : list string) : bool := forallb (fun x => bool_decide (x ∈ l2)) l1.

Definition delegation_error : pyexn :=
  ValueError "bounded delegation inside authenticated consent lifetime required".

(** [grant_delegation]; the uuid is an argument. *)
Definition grant_delegation (now : float64) (uuid : string) (actor user : Principal) (ag : string)
    (caps tgts : list string) (expires_at : pynum) (not_before : option pynum)
  : M directory string :=
  _ ← lift (verify_seal now user);
  _ ← ensure (is_role (kind user) && bool_decide (is_Some (tenant_id user)))
             (AuthorityDenied "authenticated tenant user consent context required");
  caps ← lift (scopes caps);
  tgts ← lift (scopes tgts);
  expires ← lift (finite_number delegation_error (Some expires_at));
  start ← lift (finite_number delegation_error (Some (default (PFloat now) not_before)));
  _ ← ensure (fleb now start && fltb start expires &&
              fleb expires (fmin (valid_until user) (fadd now (fl 3600)))) delegation_error;
  atomic (
    d ← get;
    _ ← lift (admin now actor (tenant_id user) d);
    _ ← lift (current now user d);
    _ ← lift (identifier ag "agent_id");
    agent ← lift (active_agent (tenant_id user) (Some ag) d);
    _ ← ensure (negb (bool_decide (caps = [])) &&
                subset caps (capabilities user) && subset caps (g_capabilities agent) &&
                subset tgts (targets user) && subset tgts (g_targets agent))
               (AuthorityDenied "delegation exceeds enrolled user or agent scopes");
    let row := mkGrant ag (g_revision agent) (issuer user) (subject user) (revision user)
                 (issuer actor) (subject actor) (kind actor) (revision actor)
                 caps tgts start expires (tenant_revision user) 1 true in
    let key := (default "" (tenant_id user), uuid) in
    (* a second row under one primary key is a constraint violation *)
    _ ← ensure (bool_decide (delegations d !! key = None)) (IntegrityError "authority_delegations");
    put (set_delegations (<[key := row]> (delegations d)) d));;
  mret uuid.

Definition deactivate (g : grant_row) : grant_row :=
  mkGrant (d_agent_id g) (d_agent_revision g) (d_user_issuer g) (d_user_subject g)
    (d_user_revision g) (d_grantor_issuer g) (d_grantor_subject g) (d_grantor_kind g)
    (d_grantor_revision g) (d_capabilities g) (d_targets g) (d_not_before g) (d_expires_at g)
    (d_tenant_revision g) (d_revision g + 1) false.

Definition revoke_delegation (now : float64) (actor : Principal) (t grant_id : string)
  : M directory unit :=
  atomic (
    d ← get;
    _ ← lift (admin now actor (Some t) d);
    match delegations d !! (t, grant_id) with
    | None => raise (AuthorityDenied "delegation unavailable")
    | Some g => put (set_delegations (<[(t, grant_id) := deactivate g]> (delegations d)) d)
    end).

(** ** Requests *)

Context (parse_float : string → option float64).

(** [canonical_tenant_payload]: the sorted-key JSON object; [encode] is
    [_json] of its six fields. *)
Context (encode : string → string → option string → string → string → string).

Definition canonical_tenant_payload `{Sha256} (t ag nonce body : string)
    (delegation : option string) : outcome string :=
  _ ← identifier t "tenant_id";
  _ ← identifier ag "agent_id";
  _ ← match delegation with Some g => identifier g "delegation_id" | None => Ok "" end;
  Ok (encode t ag delegation nonce (sha256_hex body)).

Definition request_error : pyexn := AuthorityDenied "invalid signed tenant request".

(** The [try] block of [authenticate_agent]: the payload and the stamp. *)
Definition signed_request `{Sha256} (now : float64) (t ag nonce body signature_hex : string)
    (delegation : option string) : outcome (string * float64) :=
  if (1048576 <? strlen body) || (256 <? strlen nonce) ||
     negb ((strlen signature_hex =? 128) && str_forallb is_hex signature_hex)
  then Raise request_error
  else match canonical_tenant_payload t ag nonce body delegation with
       | Raise _ => Raise request_error
       | Ok data =>
           match split_colon nonce with
           | None => Raise request_error
           | Some (stamp, rand) =>
               match parse_float stamp with
               | None => Raise request_error
               | Some ts =>
                   if negb (fisfinite ts) || fgtb (fabs (fsub now ts)) (fl 300) ||
                      (strlen rand <? 16)
                   then Raise request_error else Ok (data, ts)
               end
           end
       end.

Definition authenticate_agent `{Ed25519} `{Sha256} (now : float64)
    (t ag nonce body signature_hex : string) (delegation : option string)
  : M directory Principal :=
  '(data, stamp) ← lift (signed_request now t ag nonce body signature_hex delegation);
  atomic (
    d ← get;
    tenant ← lift (active_tenant (Some t) d);
    agent ← lift (active_agent (Some t) (Some ag) d);
    _ ← ensure (public_key_ok (g_key agent) && ed_verify (g_key agent) data signature_hex)
               (AuthorityDenied "enrolled request signature required");
    grant ← match delegation with
            | Some g => row ← lift (current_grant now (Some t) (Some g) (Some ag) agent d);
                        mret (Some (g, row))
            | None => mret None
            end;
    _ ← ensure (bool_decide (replays d !! (t, ag, nonce) = None))
               (AuthorityDenied "signed request replay denied");
    _ ← put (set_replays (<[(t, ag, nonce) := now]> (replays d)) d);
    mret (agent_principal t ag tenant agent grant (fadd stamp (fl 300)) (sha256_hex body) nonce)).

Definition authorize (now : float64) (p : Principal) (c : string) (target : option string)
  : M directory Principal :=
  d ← get;
  _ ← lift (current now p d);
  _ ← ensure (is_agent_kind (kind p) && bool_decide (c ∈ capabilities p) &&
              match target with None => true | Some x => bool_decide (x ∈ targets p) end)
             (AuthorityDenied "action outside authenticated principal scope");
  mret p.

(** The rows the retention batch deletes: those older than the cutoff,
    oldest first ([ORDER BY at]), at most [limit]. *)
Definition oldest_first : list (string * string * string * float64) →
    list (string * string * string * float64) :=
  foldr (fix insert x l := match l with
                           | [] => [x]
                           | y :: l' => if fleb x.2 y.2 then x :: l else y :: insert x l'
                           end) [].

Definition prune_replays (now : float64) (actor : Principal) (limit : Z) : M directory Z :=
  _ ← ensure ((1 <=? limit) && (limit <=? 10000))
             (ValueError "bounded replay retention batch required");
  atomic (
    d ← get;
    _ ← lift (admin now actor None d);
    let old := filter (fun p => fltb p.2 (fsub now (fl 600)) = true) (map_to_list (replays d)) in
    let victims := take (Z.to_nat limit) (oldest_first old) in
    _ ← put (set_replays (foldl (fun m p => delete p.1 m) (replays d) victims) d);
    mret (Z.of_nat (length victims))).
End directory.

(** ** A concrete seal *)

Definition principal_fields (p : Principal) : list string :=
  [option_text (tenant_id p); subject p; issuer p; kind p; pretty (revision p);
   pretty (tenant_revision p); option_text (p_agent_id p); pretty (agent_revision p);
   option_text (delegation_id p); pretty (delegation_revision p); pretty (user_revision p);
   pretty (grantor_revision p); float_text (valid_until p); chunks (capabilities p);
   chunks (targets p); request_body_sha256 p; request_nonce p].

Lemma principal_fields_inj p q :
  principal_fields p = principal_fields q → with_proof "" p = with_proof "" q.
Proof.
  destruct p, q. unfold principal_fields, with_proof. simpl. intros Hf.
  injection Hf as H1 -> -> -> H5 H6 H7 H8 H9 H10 H11 H12 H13 H14 H15 -> ->.
  apply option_text_inj in H1 as ->. apply option_text_inj in H7 as ->.
  apply option_text_inj in H9 as ->. apply float_text_inj in H13 as ->.
  apply chunks_inj in H14 as ->. apply chunks_inj in H15 as ->.
  apply (inj pretty) in H5 as ->. apply (inj pretty) in H6 as ->. apply (inj pretty) in H8 as ->.
  apply (inj pretty) in H10 as ->. apply (inj pretty) in H11 as ->. apply (inj pretty) in H12 as ->.
  done.
Qed.

#[global] Instance demo_seal : SealScheme := {
  hmac_seal k p := chunk k (chunks (principal_fields p));
  seal_inj k p q Hs := principal_fields_inj p q (chunks_inj _ _ (proj2 (chunk_inj _ _ _ _ Hs)));
}.
