(* ===== verification/AuthoritySpec.v ===== *)
(** * Authority: revocation, scopes and tenant isolation

    The theorems about file Authority.  [request] collects every operation of
    the directory; [step] runs one, recording the principals it mints.  A caller
    can present only principals whose proof the directory has issued, and
    [SealScheme] makes an altered copy of one detectable. *)

From stdpp Require Import base list gmap strings pretty relations.
From Stdlib Require Import ZArith Lia.
From S2P Require Import Prelude PyFloat Codec Identity Authority.

Local Open Scope Z_scope.

Inductive request :=
| RBootstrap (iss sub : string)
| ROperator (iss token : string) (t : option string)
| RSetTenant (actor : Principal) (t : string) (active : bool)
| REnrollAdmin (actor : Principal) (iss sub : string)
| RRevokeAdmin (actor : Principal) (iss sub : string)
| REnrollMember (actor : Principal) (t iss sub role : string) (caps tgts : list string)
| REnrollAgent (actor : Principal) (t ag key : string) (caps tgts : list string)
| RRevokeAgent (actor : Principal) (t ag : string)
| RRevokeMember (actor : Principal) (t iss sub : string)
| RGrant (uuid : string) (actor user : Principal) (ag : string) (caps tgts : list string)
         (expires_at : pynum) (not_before : option pynum)
| RRevokeGrant (actor : Principal) (t grant_id : string)
| RAgent (t ag nonce body signature_hex : string) (delegation : option string)
| RAuthorize (p : Principal) (c : string) (target : option string)
| RPrune (actor : Principal) (limit : Z).

Definition presents (r : request) : list Principal :=
  match r with
  | RBootstrap _ _ | ROperator _ _ _ | RAgent _ _ _ _ _ _ => []
  | RSetTenant a _ _ | REnrollAdmin a _ _ | RRevokeAdmin a _ _ | REnrollMember a _ _ _ _ _ _
  | REnrollAgent a _ _ _ _ _ | RRevokeAgent a _ _ | RRevokeMember a _ _ _
  | RRevokeGrant a _ _ | RAuthorize a _ _ | RPrune a _ => [a]
  | RGrant _ a u _ _ _ _ _ => [a; u]
  end.

Section spec.
Context `{SealScheme} `{Ed25519} `{Sha256} (key : string).
Context (verifiers : gmap string (string → outcome claims)).
Context (parse : string → option float64).
Context (encode : string → string → option string → string → string → string).

Definition exec (now : float64) (r : request) : M directory (option Principal) :=
  match r with
  | RBootstrap iss sub => _ ← bootstrap_platform_admin verifiers iss sub; mret None
  | ROperator iss token t => p ← authenticate_operator key verifiers now iss token t; mret (Some p)
  | RSetTenant a t b => _ ← set_tenant key now a t b; mret None
  | REnrollAdmin a iss sub => _ ← enroll_platform_admin key verifiers now a iss sub; mret None
  | RRevokeAdmin a iss sub => _ ← revoke_platform_admin key now a iss sub; mret None
  | REnrollMember a t iss sub role cs ts =>
      _ ← enroll_member key verifiers now a t iss sub role cs ts; mret None
  | REnrollAgent a t ag k cs ts => _ ← enroll_agent key now a t ag k cs ts; mret None
  | RRevokeAgent a t ag => _ ← revoke_agent key now a t ag; mret None
  | RRevokeMember a t iss sub => _ ← revoke_member key now a t iss sub; mret None
  | RGrant uuid a u ag cs ts e nb => _ ← grant_delegation key now uuid a u ag cs ts e nb; mret None
  | RRevokeGrant a t g => _ ← revoke_delegation key now a t g; mret None
  | RAgent t ag nonce body sg g =>
      p ← authenticate_agent key parse encode now t ag nonce body sg g; mret (Some p)
  | RAuthorize p c target => _ ← authorize key now p c target; mret None
  | RPrune a n => _ ← prune_replays key now a n; mret None
  end.

Lemma exec_rolls_back now r : rolls_back (exec now r).
Proof.
  destruct r; simpl; apply rolls_back_ret;
    unfold bootstrap_platform_admin, authenticate_operator, set_tenant, enroll_platform_admin,
      revoke_platform_admin, enroll_member, enroll_agent, revoke_agent, revoke_member,
      grant_delegation, revoke_delegation, authenticate_agent, authorize, prune_replays;
    repeat first
      [ progress auto with agentbridge
      | apply rolls_back_bind; [by auto with agentbridge|]; intros ?
      | apply rolls_back_ret
      | case_match ].
Qed.

(** ** Revisions only grow *)

(** Rows persist; a row keeps its contents while its revision does. *)
Definition table_advances {K R} `{Countable K} (rev : R → Z) (m m' : gmap K R) : Prop :=
  ∀ k r, m !! k = Some r →
  ∃ r', m' !! k = Some r' ∧ rev r ≤ rev r' ∧ (rev r' = rev r → r' = r).

Definition grants_advance (m m' : gmap (string * string) grant_row) : Prop :=
  ∀ k g, m !! k = Some g →
  ∃ g', m' !! k = Some g' ∧ d_revision g ≤ d_revision g' ∧
        d_agent_id g' = d_agent_id g ∧ d_agent_revision g' = d_agent_revision g ∧
        d_user_issuer g' = d_user_issuer g ∧ d_user_subject g' = d_user_subject g ∧
        d_user_revision g' = d_user_revision g ∧
        d_capabilities g' = d_capabilities g ∧ d_targets g' = d_targets g.

Definition advances (d d' : directory) : Prop :=
  table_advances t_revision (tenants d) (tenants d') ∧
  table_advances a_revision (platform_admins d) (platform_admins d') ∧
  table_advances m_revision (members d) (members d') ∧
  table_advances g_revision (agents d) (agents d') ∧
  grants_advance (delegations d) (delegations d').

Lemma table_advances_refl {K R} `{Countable K} (rev : R → Z) (m : gmap K R) :
  table_advances rev m m.
Proof. intros k r Hr. exists r. by split_and!; [|lia|]. Qed.

Lemma table_advances_insert {K R} `{Countable K} (rev : R → Z) (m : gmap K R) k r' :
  (∀ r, m !! k = Some r → rev r < rev r') → table_advances rev m (<[k := r']> m).
Proof.
  intros Hk j r Hr. destruct (decide (k = j)) as [->|Hne].
  - exists r'. rewrite lookup_insert_eq. specialize (Hk _ Hr). split_and!; [done|lia|lia].
  - exists r. rewrite lookup_insert_ne by done. by split_and!; [|lia|].
Qed.

Lemma table_advances_trans {K R} `{Countable K} (rev : R → Z) (m1 m2 m3 : gmap K R) :
  table_advances rev m1 m2 → table_advances rev m2 m3 → table_advances rev m1 m3.
Proof.
  intros H12 H23 k r Hr. apply H12 in Hr as (r2 & Hr2 & Hle & Heq).
  apply H23 in Hr2 as (r3 & Hr3 & Hle3 & Heq3). exists r3. split_and!; [done|lia|].
  intros He. rewrite Heq3 by lia. apply Heq. lia.
Qed.

Lemma grants_advance_refl m : grants_advance m m.
Proof. intros k g Hg. exists g. by split_and!; [|lia|..]. Qed.

Lemma grants_advance_trans m1 m2 m3 :
  grants_advance m1 m2 → grants_advance m2 m3 → grants_advance m1 m3.
Proof.
  intros H12 H23 k g Hg. apply H12 in Hg as (g2 & Hg2 & ? & ? & ? & ? & ? & ? & ? & ?).
  apply H23 in Hg2 as (g3 & Hg3 & ? & ? & ? & ? & ? & ? & ? & ?). exists g3.
  split_and!; try congruence. lia.
Qed.

Lemma advances_refl d : advances d d.
Proof.
  split_and!; auto using table_advances_refl, grants_advance_refl.
Qed.

Lemma advances_trans d1 d2 d3 : advances d1 d2 → advances d2 d3 → advances d1 d3.
Proof.
  intros (?&?&?&?&?) (?&?&?&?&?).
  split_and!; eauto using table_advances_trans, grants_advance_trans.
Qed.

Lemma active_platform_Ok iss sub d row :
  active_platform iss sub d = Ok row → platform_admins d !! (iss, sub) = Some row ∧ a_active row = true.
Proof. unfold active_platform. intros. repeat case_match; naive_solver. Qed.

Lemma active_tenant_Ok t d row :
  active_tenant t d = Ok row → ∃ x, t = Some x ∧ tenants d !! x = Some row ∧ t_active row = true.
Proof. unfold active_tenant. destruct t; simpl; intros; repeat case_match; naive_solver. Qed.

Lemma active_member_Ok t iss sub d row :
  active_member t iss sub d = Ok row →
  ∃ x, t = Some x ∧ members d !! (x, iss, sub) = Some row ∧ m_active row = true.
Proof. unfold active_member. destruct t; simpl; intros; repeat case_match; naive_solver. Qed.

Lemma active_agent_Ok t ag d row :
  active_agent t ag d = Ok row →
  ∃ x y, t = Some x ∧ ag = Some y ∧ agents d !! (x, y) = Some row ∧ g_active row = true.
Proof. unfold active_agent. destruct t, ag; simpl; intros; repeat case_match; naive_solver. Qed.

Ltac rows_inv :=
  repeat match goal with
  | H : active_platform _ _ _ = Ok _ |- _ => apply active_platform_Ok in H as [? ?]
  | H : active_tenant _ _ = Ok _ |- _ => apply active_tenant_Ok in H as (? & ? & ? & ?)
  | H : active_member _ _ _ _ = Ok _ |- _ => apply active_member_Ok in H as (? & ? & ? & ?)
  | H : active_agent _ _ _ = Ok _ |- _ => apply active_agent_Ok in H as (? & ? & ? & ? & ? & ?)
  end; simplify_eq.

Lemma admin_Ok now a t d :
  admin key now a t d = Ok tt →
  current key now a d = Ok tt ∧
  (kind a = "platform_admin" ∨ (kind a = "tenant_admin" ∧ t ≠ None ∧ tenant_id a = t)).
Proof.
  unfold admin. intros [[] [Hc Ha]]%outcome_bind_Ok. split; [done|].
  case_bool_decide; [by left|]. right. by repeat case_bool_decide.
Qed.

Ltac admin_inv :=
  match goal with H : admin _ _ _ _ _ = Ok tt |- _ => apply admin_Ok in H as [? _] end.

(** What a successful operation writes. *)
Definition writes (r : request) (d d' : directory) : Prop :=
  match r with
  | RBootstrap iss sub =>
      platform_admins d = ∅ ∧ d' = set_admins {[(iss, sub) := mkAdmin 1 true]} d
  | ROperator _ _ _ | RAuthorize _ _ _ => d' = d
  | RSetTenant _ t b =>
      ∃ rev, d' = set_tenants (<[t := mkTenant rev b]> (tenants d)) d ∧
             ∀ x, tenants d !! t = Some x → t_revision x < rev
  | REnrollAdmin _ iss sub =>
      ∃ rev, d' = set_admins (<[(iss, sub) := mkAdmin rev true]> (platform_admins d)) d ∧
             ∀ x, platform_admins d !! (iss, sub) = Some x → a_revision x < rev
  | RRevokeAdmin _ iss sub =>
      ∃ x, platform_admins d !! (iss, sub) = Some x ∧ a_active x = true ∧ (1 < active_admins d)%nat ∧
           d' = set_admins (<[(iss, sub) := mkAdmin (a_revision x + 1) false]> (platform_admins d)) d
  | REnrollMember _ t iss sub role _ _ =>
      ∃ rev cs ts, is_role role = true ∧
        d' = set_members (<[(t, iss, sub) := mkMember role rev true cs ts]> (members d)) d ∧
        ∀ x, members d !! (t, iss, sub) = Some x → m_revision x < rev
  | REnrollAgent _ t ag _ _ _ =>
      ∃ rev k cs ts, d' = set_agents (<[(t, ag) := mkAgent k rev true cs ts]> (agents d)) d ∧
        ∀ x, agents d !! (t, ag) = Some x → g_revision x < rev
  | RRevokeAgent _ t ag =>
      ∃ x, agents d !! (t, ag) = Some x ∧
        d' = set_agents (<[(t, ag) := mkAgent (g_key x) (g_revision x + 1) false
                                        (g_capabilities x) (g_targets x)]> (agents d)) d
  | RRevokeMember _ t iss sub =>
      ∃ x, members d !! (t, iss, sub) = Some x ∧
        d' = set_members (<[(t, iss, sub) := mkMember (m_role x) (m_revision x + 1) false
                                               (m_capabilities x) (m_targets x)]> (members d)) d
  | RGrant uuid a u ag _ _ _ _ =>
      ∃ t g x, tenant_id u = Some t ∧ delegations d !! (t, uuid) = None ∧
        d' = set_delegations (<[(t, uuid) := g]> (delegations d)) d ∧
        agents d !! (t, ag) = Some x ∧ d_agent_id g = ag ∧ d_agent_revision g = g_revision x ∧
        d_user_issuer g = issuer u ∧ d_user_subject g = subject u ∧ d_user_revision g = revision u ∧
        subset (d_capabilities g) (capabilities u) = true ∧
        subset (d_capabilities g) (g_capabilities x) = true ∧
        subset (d_targets g) (targets u) = true ∧ subset (d_targets g) (g_targets x) = true ∧
        is_role (kind u) = true
  | RRevokeGrant _ t g =>
      ∃ x, delegations d !! (t, g) = Some x ∧
           d' = set_delegations (<[(t, g) := deactivate x]> (delegations d)) d
  | RAgent _ _ _ _ _ _ | RPrune _ _ => ∃ x, d' = set_replays x d
  end.

Lemma next_revision {K R} `{Countable K} (rev : R → Z) (m : gmap K R) k :
  ∀ x, m !! k = Some x → rev x < match m !! k with Some r => rev r + 1 | None => 1 end.
Proof. intros x ->. lia. Qed.

Lemma exec_writes now r d o d' :
  exec now r d = (Ok o, d') →
  writes r d d' ∧ Forall (fun p => current key now p d = Ok tt) (presents r).
Proof.
  destruct r; simpl; intros Hr; apply bind_Ok_inv in Hr as (a & s & Hr & [= <- <-]).
  - unfold bootstrap_platform_admin in Hr. minv. apply bool_decide_eq_true in He0.
    split; [|done]. split; [done|]. by rewrite He0, insert_empty.
  - unfold authenticate_operator in Hr. minv. repeat (case_match; minv; try done).
  - unfold set_tenant in Hr. minv. admin_inv. split; [|by constructor].
    eexists. split; [done|]. apply next_revision.
  - unfold enroll_platform_admin in Hr. minv. admin_inv. split; [|by constructor].
    eexists. split; [done|]. apply next_revision.
  - unfold revoke_platform_admin in Hr. minv. admin_inv. rows_inv.
    split; [|by constructor]. eexists. split_and!; try done. apply Z.ltb_lt in He. lia.
  - unfold enroll_member in Hr. minv. admin_inv. rows_inv.
    apply andb_true_iff in He as [? _]. split; [|by constructor].
    eexists _, _, _. split_and!; try done. apply next_revision.
  - unfold enroll_agent in Hr. minv. admin_inv. rows_inv.
    split; [|by constructor]. eexists _, _, _, _. split; [done|]. apply next_revision.
  - unfold revoke_agent in Hr. minv. admin_inv. rows_inv.
    split; [|by constructor]. by eexists.
  - unfold revoke_member in Hr. minv. admin_inv. rows_inv.
    split; [|by constructor]. by eexists.
  - unfold grant_delegation in Hr. minv.
    repeat match goal with H : _ && _ = true |- _ => apply andb_true_iff in H as [? ?] end.
    admin_inv.
    rows_inv. match goal with H : tenant_id _ = Some _ |- _ => rewrite H in * end.
    simpl in *. split; [|by repeat constructor].
    eexists _, _, _. split_and!; [done|by eapply bool_decide_eq_true|reflexivity|done..].
  - unfold revoke_delegation in Hr. minv. admin_inv.
    case_match; minv. split; [|by constructor]. by eexists.
  - unfold authenticate_agent in Hr. minv.
    match goal with p : (string * float64)%type |- _ => destruct p as [data stamp] end. minv.
    split; [|done]. destruct delegation; minv; by eexists.
  - unfold authorize in Hr. minv. split; [done|]. by constructor.
  - unfold prune_replays in Hr. minv. admin_inv.
    split; [|by constructor]. by eexists.
Qed.

Lemma writes_advances r d d' : writes r d d' → advances d d'.
Proof.
  destruct r; simpl; intros Hw.
  - destruct Hw as [He ->]. unfold advances. simpl. rewrite He.
    split_and!; auto using table_advances_refl, grants_advance_refl. done.
  - subst. apply advances_refl.
  - destruct Hw as (rev & -> & Hrev). unfold advances. simpl.
    split_and!; auto using table_advances_refl, grants_advance_refl, table_advances_insert.
  - destruct Hw as (rev & -> & Hrev). unfold advances. simpl.
    split_and!; auto using table_advances_refl, grants_advance_refl, table_advances_insert.
  - destruct Hw as (x & Hx & _ & _ & ->). unfold advances. simpl.
    split_and!; auto using table_advances_refl, grants_advance_refl.
    apply table_advances_insert. intros ? ?. simplify_eq. simpl. lia.
  - destruct Hw as (rev & cs & ts & _ & -> & Hrev). unfold advances. simpl.
    split_and!; auto using table_advances_refl, grants_advance_refl, table_advances_insert.
  - destruct Hw as (rev & k & cs & ts & -> & Hrev). unfold advances. simpl.
    split_and!; auto using table_advances_refl, grants_advance_refl, table_advances_insert.
  - destruct Hw as (x & Hx & ->). unfold advances. simpl.
    split_and!; auto using table_advances_refl, grants_advance_refl.
    apply table_advances_insert. intros ? ?. simplify_eq. simpl. lia.
  - destruct Hw as (x & Hx & ->). unfold advances. simpl.
    split_and!; auto using table_advances_refl, grants_advance_refl.
    apply table_advances_insert. intros ? ?. simplify_eq. simpl. lia.
  - destruct Hw as (t & g & x & _ & Hn & -> & _). unfold advances. simpl.
    split_and!; auto using table_advances_refl.
    intros k g' Hk. exists g'. rewrite lookup_insert_ne by congruence. by split_and!; [|lia|..].
  - destruct Hw as (x & Hx & ->). unfold advances. simpl.
    split_and!; auto using table_advances_refl.
    intros k g' Hk. destruct (decide (k = (t, grant_id))) as [->|Hne].
    + rewrite lookup_insert_eq. simplify_eq. eexists. split_and!; [done|simpl; lia|done..].
    + rewrite lookup_insert_ne by done. exists g'. by split_and!; [|lia|..].
  - destruct Hw as [x ->]. exact (advances_refl d).
  - subst. apply advances_refl.
  - destruct Hw as [x ->]. exact (advances_refl d).
Qed.

Lemma exec_advances now r d o d' : exec now r d = (o, d') → advances d d'.
Proof.
  destruct o as [o|e]; intros Hr.
  - apply exec_writes in Hr as [Hw _]. by eapply writes_advances.
  - apply exec_rolls_back in Hr as ->. apply advances_refl.
Qed.

(** ** Stale principals *)

(** One of the rows the principal was minted from has a newer revision. *)
Definition stale (p : Principal) (d : directory) : Prop :=
  if bool_decide (kind p = "platform_admin") then
    ∃ r, platform_admins d !! (issuer p, subject p) = Some r ∧ revision p < a_revision r
  else ∃ t, tenant_id p = Some t ∧
    ((∃ r, tenants d !! t = Some r ∧ tenant_revision p < t_revision r) ∨
     (is_role (kind p) = true ∧
      ∃ r, members d !! (t, issuer p, subject p) = Some r ∧ revision p < m_revision r) ∨
     (is_agent_kind (kind p) = true ∧ ∃ ag, p_agent_id p = Some ag ∧
      ∃ r, agents d !! (t, ag) = Some r ∧ agent_revision p < g_revision r) ∨
     (kind p = "delegated_human" ∧ ∃ g, delegation_id p = Some g ∧
      ∃ r, delegations d !! (t, g) = Some r ∧ delegation_revision p < d_revision r)).

Lemma stale_advances p d d' : advances d d' → stale p d → stale p d'.
Proof.
  intros (Ht & Ha & Hm & Hg & Hd). unfold stale. case_bool_decide.
  - intros (r & (r' & ? & ? & _)%Ha & ?). exists r'. split; [done|lia].
  - intros (t & Ht' & [(r & (r' & ? & ? & _)%Ht & ?)|[(? & r & (r' & ? & ? & _)%Hm & ?)
      |[(? & ag & ? & r & (r' & ? & ? & _)%Hg & ?)|(? & g & ? & r & (r' & ? & ? & _)%Hd & ?)]]]);
      exists t; (split; [done|]).
    + left. exists r'. split; [done|lia].
    + right. left. split; [done|]. exists r'. split; [done|lia].
    + right. right. left. split; [done|]. exists ag. split; [done|]. exists r'. split; [done|lia].
    + right. right. right. split; [done|]. exists g. split; [done|]. exists r'. split; [done|lia].
Qed.

Lemma current_grant_Ok now t g ag a d row :
  current_grant now t g ag a d = Ok row →
  ∃ x y z m, t = Some x ∧ g = Some y ∧ ag = Some z ∧ delegations d !! (x, y) = Some row ∧
    d_active row = true ∧ fltb now (d_expires_at row) = true ∧
    d_agent_id row = z ∧ d_agent_revision row = g_revision a ∧
    members d !! (x, d_user_issuer row, d_user_subject row) = Some m ∧ m_active m = true ∧
    m_revision m = d_user_revision row.
Proof.
  unfold current_grant. destruct t as [x|]; [|done]. destruct g as [y|]; [|done]. simpl.
  destruct (delegations d !! (x, y)) as [w|] eqn:Hw; [|done].
  destruct (negb (d_active w) || _ || _ || _) eqn:Hg; [done|].
  repeat (apply orb_false_iff in Hg as [Hg ?]).
  repeat match goal with H : negb _ = false |- _ => apply negb_false_iff in H end.
  intros (tn & Htn & Hrest)%outcome_bind_Ok. destruct (negb (d_tenant_revision w =? _)); [done|].
  apply outcome_bind_Ok in Hrest as (m & Hm & (gr & _ & Hrest)%outcome_bind_Ok). rows_inv.
  destruct (negb (m_revision m =? d_user_revision w) || _) eqn:Hrev; [done|].
  apply orb_false_iff in Hrev as [Hrev _]. apply negb_false_iff, Z.eqb_eq in Hrev.
  repeat match goal with H : bool_decide _ = true |- _ => apply bool_decide_eq_true in H end.
  repeat match goal with H : _ && _ = true |- _ => apply andb_true_iff in H as [? ?] end.
  repeat match goal with H : (_ =? _) = true |- _ => apply Z.eqb_eq in H end.
  simplify_eq. eexists _, _, _, _. split_and!; done.
Qed.

Lemma guard_or_Ok' b e : guard_or b e = Ok tt → b = true.
Proof. by destruct b. Qed.

(** What [current] establishes, by kind. *)
Lemma current_Ok now p d :
  current key now p d = Ok tt →
  seal_ok key now p = true ∧
  if bool_decide (kind p = "platform_admin") then
    ∃ r, platform_admins d !! (issuer p, subject p) = Some r ∧ a_active r = true ∧
         a_revision r = revision p
  else ∃ t tn, tenant_id p = Some t ∧ tenants d !! t = Some tn ∧ t_active tn = true ∧
    t_revision tn = tenant_revision p ∧
    ((is_role (kind p) = true ∧ ∃ r, members d !! (t, issuer p, subject p) = Some r ∧
        m_active r = true ∧ m_role r = kind p ∧ m_revision r = revision p) ∨
     (is_role (kind p) = false ∧ is_agent_kind (kind p) = true ∧
      ∃ ag r, p_agent_id p = Some ag ∧ agents d !! (t, ag) = Some r ∧ g_active r = true ∧
        g_revision r = agent_revision p ∧
        (kind p = "delegated_human" →
         ∃ g, current_grant now (Some t) (delegation_id p) (Some ag) r d = Ok g ∧
              d_revision g = delegation_revision p))).
Proof.
  unfold current. intros ([] & Hs%guard_or_Ok' & Hc)%outcome_bind_Ok. split; [done|].
  case_bool_decide.
  { apply outcome_bind_Ok in Hc as (r & Hr & Hc%guard_or_Ok'). rows_inv.
    apply andb_true_iff in Hc as [_ Hc%Z.eqb_eq]. by exists r. }
  apply outcome_bind_Ok in Hc as (tn & Htn & Hc).
  destruct (Z.eqb_spec (t_revision tn) (tenant_revision p)); [|done]. simpl in Hc.
  apply active_tenant_Ok in Htn as (t & Ht & Htn & Hta). exists t, tn. split_and!; [done..|].
  rewrite Ht in Hc. destruct (is_role (kind p)).
  { apply outcome_bind_Ok in Hc as (r & Hr & Hc%guard_or_Ok'). left. rows_inv.
    apply andb_true_iff in Hc as [?%bool_decide_eq_true ?%Z.eqb_eq]. split; [done|].
    by eexists. }
  right. split; [done|]. destruct (is_agent_kind (kind p)); [|done]. split; [done|].
  apply outcome_bind_Ok in Hc as (r & Hr & Hc). apply active_agent_Ok in Hr as (? & ag & ? & Hag & Hr & Hact).
  simplify_eq. rewrite Hag in Hc. destruct (Z.eqb_spec (g_revision r) (agent_revision p)); [|done].
  exists ag, r. split_and!; [done..|]. intros Hk. rewrite bool_decide_eq_true_2 in Hc by done.
  simpl in Hc. apply outcome_bind_Ok in Hc as (g & Hg & Hc%guard_or_Ok'%Z.eqb_eq). by exists g.
Qed.

Lemma role_not_agent k : is_role k = true → is_agent_kind k = false.
Proof.
  intros Hr%bool_decide_eq_true. unfold roles in Hr.
  repeat (apply elem_of_cons in Hr as [->|Hr]; [done|]). by apply elem_of_nil in Hr.
Qed.

Lemma stale_not_current now p d : stale p d → current key now p d ≠ Ok tt.
Proof.
  intros Hs [_ Hc]%current_Ok. unfold stale in Hs. case_bool_decide.
  { destruct Hs as (r & ? & ?), Hc as (r' & ? & _ & ?). simplify_eq. lia. }
  destruct Hs as (t & Ht & Hs), Hc as (t' & tn & Ht' & Htn & _ & Hrev & Hc). simplify_eq.
  destruct Hs as [(r & ? & ?)|[(Hr & r & ? & ?)|[(Hk & ag & ? & r & ? & ?)|(Hk & g & Hg & r & ? & ?)]]].
  - simplify_eq. lia.
  - destruct Hc as [(_ & r' & ? & _ & _ & ?)|(? & _)]; [simplify_eq; lia|congruence].
  - destruct Hc as [(Hr & _)|(_ & _ & ag' & r' & ? & ? & _ & ? & _)]; [|simplify_eq; lia].
    by rewrite role_not_agent in Hk.
  - destruct Hc as [(Hr & _)|(_ & _ & ag' & r' & _ & _ & _ & _ & Hgr)].
    + rewrite Hk in Hr. done.
    + destruct (Hgr Hk) as (g' & Hg' & ?). rewrite Hg in Hg'.
      apply current_grant_Ok in Hg' as (? & ? & ? & ? & ? & ? & _ & ? & _). simplify_eq. lia.
Qed.

(** The operations that change a row a principal depends on. *)
Definition touches (r : request) (p : Principal) : Prop :=
  match r with
  | RSetTenant _ t _ => kind p ≠ "platform_admin" ∧ tenant_id p = Some t
  | REnrollAdmin _ iss sub | RRevokeAdmin _ iss sub =>
      kind p = "platform_admin" ∧ issuer p = iss ∧ subject p = sub
  | REnrollMember _ t iss sub _ _ _ | RRevokeMember _ t iss sub =>
      is_role (kind p) = true ∧ tenant_id p = Some t ∧ issuer p = iss ∧ subject p = sub
  | REnrollAgent _ t ag _ _ _ | RRevokeAgent _ t ag =>
      is_agent_kind (kind p) = true ∧ tenant_id p = Some t ∧ p_agent_id p = Some ag
  | RRevokeGrant _ t g =>
      kind p = "delegated_human" ∧ tenant_id p = Some t ∧ delegation_id p = Some g
  | _ => False
  end.

Lemma touches_stale now p r d d' :
  current key now p d = Ok tt → writes r d d' → touches r p → stale p d'.
Proof.
  intros [_ Hc]%current_Ok Hw Ht. unfold stale.
  destruct r; simpl in *; try done.
  - destruct Ht as [Hk Hti]. rewrite bool_decide_eq_false_2 in * by done.
    destruct Hw as (rev & -> & Hrev), Hc as (t' & tn & ? & Htn & _ & ? & _). simplify_eq.
    exists t'. split; [done|]. left. eexists. split; [apply lookup_insert_eq|].
    specialize (Hrev _ Htn). simpl. lia.
  - destruct Ht as (Hk & <- & <-). rewrite bool_decide_eq_true_2 in * by done.
    destruct Hw as (rev & -> & Hrev), Hc as (x & Hx & _ & ?).
    eexists. split; [apply lookup_insert_eq|]. specialize (Hrev _ Hx). simpl. lia.
  - destruct Ht as (Hk & <- & <-). rewrite bool_decide_eq_true_2 in * by done.
    destruct Hw as (x & Hx & _ & _ & ->), Hc as (x' & Hx' & _ & ?). simplify_eq.
    eexists. split; [apply lookup_insert_eq|]. simpl. lia.
  - destruct Ht as (Hr & Hti & <- & <-).
    rewrite bool_decide_eq_false_2 in * by (intros Hk; rewrite Hk in Hr; done).
    destruct Hw as (rev & cs & ts & _ & -> & Hrev), Hc as (t' & tn & ? & _ & _ & _ & Hc). simplify_eq.
    exists t'. split; [done|]. right. left. split; [done|].
    destruct Hc as [(_ & x & Hx & _ & _ & ?)|[? _]]; [|congruence].
    eexists. split; [apply lookup_insert_eq|]. specialize (Hrev _ Hx). simpl. lia.
  - destruct Ht as (Hk & Hti & Hag).
    rewrite bool_decide_eq_false_2 in * by (intros Hk'; rewrite Hk' in Hk; done).
    destruct Hw as (rev & k & cs & ts & -> & Hrev), Hc as (t' & tn & ? & _ & _ & _ & Hc). simplify_eq.
    exists t'. split; [done|]. right. right. left. split; [done|]. exists ag. split; [done|].
    destruct Hc as [(Hr & _)|(_ & _ & ag' & x & ? & Hx & _ & ? & _)];
      [by rewrite role_not_agent in Hk|]. simplify_eq.
    eexists. split; [apply lookup_insert_eq|]. specialize (Hrev _ Hx). simpl. lia.
  - destruct Ht as (Hk & Hti & Hag).
    rewrite bool_decide_eq_false_2 in * by (intros Hk'; rewrite Hk' in Hk; done).
    destruct Hw as (y & Hy & ->), Hc as (t' & tn & ? & _ & _ & _ & Hc). simplify_eq.
    exists t'. split; [done|]. right. right. left. split; [done|]. exists ag. split; [done|].
    destruct Hc as [(Hr & _)|(_ & _ & ag' & x & ? & Hx & _ & ? & _)];
      [by rewrite role_not_agent in Hk|]. simplify_eq.
    eexists. split; [apply lookup_insert_eq|]. simpl. lia.
  - destruct Ht as (Hr & Hti & <- & <-).
    rewrite bool_decide_eq_false_2 in * by (intros Hk; rewrite Hk in Hr; done).
    destruct Hw as (y & Hy & ->), Hc as (t' & tn & ? & _ & _ & _ & Hc). simplify_eq.
    exists t'. split; [done|]. right. left. split; [done|].
    destruct Hc as [(_ & x & Hx & _ & _ & ?)|[? _]]; [|congruence]. simplify_eq.
    eexists. split; [apply lookup_insert_eq|]. simpl. lia.
  - destruct Ht as (Hk & Hti & Hg). rewrite Hk in Hc |- *. simpl in *.
    destruct Hw as (y & Hy & ->), Hc as (t' & tn & ? & _ & _ & _ & Hc). simplify_eq.
    exists t'. split; [done|]. right. right. right. split; [done|]. exists grant_id. split; [done|].
    destruct Hc as [(? & _)|(_ & _ & ag' & x & ? & Hx & _ & ? & Hgr)]; [done|].
    destruct (Hgr eq_refl) as (g & Hg' & ?). rewrite Hg in Hg'.
    apply current_grant_Ok in Hg' as (? & ? & ? & ? & ? & ? & _ & ? & _). simplify_eq.
    eexists. split; [apply lookup_insert_eq|]. simpl. lia.
Qed.

(** ** Worlds: the directory and the principals it has minted *)

Record world := mkWorld { dir : directory; minted : list Principal }.

(** HMAC: a caller can present only proofs that were issued. *)
Definition presentable (w : world) (p : Principal) : Prop := proof p ∈ proof <$> minted w.

Inductive step : world → world → Prop :=
| do_request now r w o d' :
    Forall (presentable w) (presents r) → exec now r (dir w) = (o, d') →
    step w (mkWorld d' (minted w ++
                        match o with Ok (Some p) => [p] | _ => [] end)).

Lemma steps_advance w w' : rtc step w w' → advances (dir w) (dir w').
Proof.
  induction 1 as [|? ? ? [] _ IH]; [apply advances_refl|]. eapply advances_trans; [|done].
  by eapply exec_advances.
Qed.

Lemma mint_sealed p : with_proof "" (mint key p) = with_proof "" p ∧ proof (mint key p) = seal key p.
Proof. by destruct p. Qed.

Lemma exec_mints now r d p d' : exec now r d = (Ok (Some p), d') → ∃ q, p = mint key q.
Proof.
  destruct r; simpl; intros Hr; apply bind_Ok_inv in Hr as (a & s & Hr & Hv);
    try (unfold mret, M_ret in Hv; congruence); injection Hv as <- <-.
  - unfold authenticate_operator in Hr. minv. case_match; minv.
    match goal with p : (string * float64)%type |- _ => destruct p as [sub expires] end.
    destruct t; minv; by eexists.
  - unfold authenticate_agent in Hr. minv.
    match goal with p : (string * float64)%type |- _ => destruct p as [data stamp] end. minv.
    match goal with |- ∃ q, agent_principal _ _ _ _ _ ?g _ _ _ = _ => destruct g as [[]|] end;
      by eexists.
Qed.

Definition sealed (w : world) : Prop := Forall (fun p => proof p = seal key p) (minted w).

Lemma with_proof_id p : with_proof (proof p) (with_proof "" p) = p.
Proof. by destruct p. Qed.

Lemma seal_with_proof p x : seal key (with_proof x p) = seal key p.
Proof. by destruct p. Qed.

Lemma sealed_step w w' : step w w' → sealed w → sealed w'.
Proof.
  destruct 1 as [now r w o d' _ Hr]. unfold sealed. simpl. intros Hs. apply Forall_app.
  split; [done|]. destruct o as [[p|]|]; try done. constructor; [|done].
  apply exec_mints in Hr as [q ->]. unfold mint. by rewrite seal_with_proof.
Qed.

(** A presentable principal that passes the seal check is one that was minted. *)
Lemma presentable_minted now w p :
  sealed w → presentable w p → seal_ok key now p = true → p ∈ minted w.
Proof.
  intros Hs [q [Hq Hin]]%list_elem_of_fmap Hok. unfold seal_ok in Hok.
  apply andb_true_iff in Hok as [[Hp%bool_decide_eq_true _]%andb_true_iff _].
  unfold sealed in Hs. rewrite Forall_forall in Hs. specialize (Hs _ Hin).
  unfold seal in *. assert (with_proof "" p = with_proof "" q) as Heq.
  { apply (seal_inj key). congruence. }
  assert (p = q) as ->; [|done].
  by rewrite <-(with_proof_id p), <-(with_proof_id q), Heq, Hq.
Qed.

(** ** Scopes *)

Definition subset_of (l1 l2 : list string) : Prop := ∀ x, x ∈ l1 → x ∈ l2.

Lemma subset_true l1 l2 : subset l1 l2 = true → subset_of l1 l2.
Proof.
  unfold subset, subset_of. rewrite forallb_forall. intros Hs x Hx.
  apply list_elem_of_In in Hx. by apply Hs, bool_decide_eq_true in Hx.
Qed.

(** A principal minted from a member or agent row carries that row's scopes,
    as long as the row keeps its revision; a delegated one carries the
    grant's. *)
Definition scoped (d : directory) (p : Principal) : Prop :=
  if bool_decide (kind p = "platform_admin") then True
  else ∃ t, tenant_id p = Some t ∧
    if is_role (kind p) then
      ∃ r, members d !! (t, issuer p, subject p) = Some r ∧ revision p ≤ m_revision r ∧
           (revision p = m_revision r → capabilities p = m_capabilities r ∧ targets p = m_targets r)
    else ∃ ag r, p_agent_id p = Some ag ∧ agents d !! (t, ag) = Some r ∧
      agent_revision p ≤ g_revision r ∧
      if bool_decide (kind p = "delegated_human") then
        ∃ i g, delegation_id p = Some i ∧ delegations d !! (t, i) = Some g ∧
               capabilities p = d_capabilities g ∧ targets p = d_targets g
      else agent_revision p = g_revision r →
           capabilities p = g_capabilities r ∧ targets p = g_targets r.

(** A delegation stays inside the scopes of the agent and of the user it names,
    as long as they keep the revisions it was granted for. *)
Definition grant_bounded (d : directory) (t : string) (g : grant_row) : Prop :=
  (∃ r, agents d !! (t, d_agent_id g) = Some r ∧ d_agent_revision g ≤ g_revision r ∧
     (d_agent_revision g = g_revision r →
      subset_of (d_capabilities g) (g_capabilities r) ∧ subset_of (d_targets g) (g_targets r))) ∧
  (∃ r, members d !! (t, d_user_issuer g, d_user_subject g) = Some r ∧
     d_user_revision g ≤ m_revision r ∧
     (d_user_revision g = m_revision r →
      subset_of (d_capabilities g) (m_capabilities r) ∧ subset_of (d_targets g) (m_targets r))).

Definition scope_inv (w : world) : Prop :=
  sealed w ∧ Forall (scoped (dir w)) (minted w) ∧
  map_Forall (fun _ r => is_role (m_role r) = true) (members (dir w)) ∧
  (∀ t i g, delegations (dir w) !! (t, i) = Some g → grant_bounded (dir w) t g).

Lemma scoped_advances d d' p : advances d d' → scoped d p → scoped d' p.
Proof.
  intros (_ & _ & Hm & Hg & Hd). unfold scoped. case_bool_decide; [done|].
  intros (t & Ht & Hs). exists t. split; [done|]. destruct (is_role (kind p)).
  - destruct Hs as (r & (r' & ? & ? & Heq)%Hm & ? & Hr). exists r'. split_and!; [done|lia|].
    intros. rewrite Heq by lia. apply Hr. lia.
  - destruct Hs as (ag & r & ? & (r' & ? & ? & Heq)%Hg & ? & Hr). exists ag, r'.
    split_and!; [done|done|lia|]. case_bool_decide.
    + destruct Hr as (i & g & ? & (g' & ? & _ & _ & _ & _ & _ & _ & Hc & Htg)%Hd & ? & ?).
      exists i, g'. split_and!; congruence.
    + intros. rewrite Heq by lia. apply Hr. lia.
Qed.

Lemma grant_bounded_rows d d' t g g' :
  advances d d' → grant_bounded d t g →
  d_agent_id g' = d_agent_id g → d_agent_revision g' = d_agent_revision g →
  d_user_issuer g' = d_user_issuer g → d_user_subject g' = d_user_subject g →
  d_user_revision g' = d_user_revision g →
  d_capabilities g' = d_capabilities g → d_targets g' = d_targets g →
  grant_bounded d' t g'.
Proof.
  intros (_ & _ & Hm & Hg & _) [(r & (r' & ? & ? & Heq)%Hg & ? & Hr)
    (m & (m' & ? & ? & Heqm)%Hm & ? & Hmr)] Ea Er Ei Es Eu Ec Et.
  unfold grant_bounded. rewrite Ea, Er, Ei, Es, Eu, Ec, Et. split.
  - exists r'. split_and!; [done|lia|]. intros. rewrite Heq by lia. apply Hr. lia.
  - exists m'. split_and!; [done|lia|]. intros. rewrite Heqm by lia. apply Hmr. lia.
Qed.

Lemma roles_writes r d d' :
  writes r d d' → map_Forall (fun _ r => is_role (m_role r) = true) (members d) →
  map_Forall (fun _ r => is_role (m_role r) = true) (members d').
Proof.
  intros Hw Hm. destruct r; simpl in Hw;
    repeat match goal with H : ∃ _, _ |- _ => destruct H | H : _ ∧ _ |- _ => destruct H end;
    subst; simpl; try done.
  - by apply map_Forall_insert_2.
  - apply map_Forall_insert_2; [|done]. simpl. by eapply (Hm (_, _, _)).
Qed.

Lemma current_role now p d :
  current key now p d = Ok tt → is_role (kind p) = true →
  ∃ t r, tenant_id p = Some t ∧ members d !! (t, issuer p, subject p) = Some r ∧
         m_revision r = revision p.
Proof.
  intros [_ Hc]%current_Ok Hr. rewrite bool_decide_eq_false_2 in Hc
    by (intros Hk; rewrite Hk in Hr; done).
  destruct Hc as (t & tn & ? & _ & _ & _ & [(_ & r & ? & _ & _ & ?)|[? _]]); [|congruence].
  by exists t, r.
Qed.

Lemma new_grant_bounded now uuid a u ag cs ts e nb d d' :
  writes (RGrant uuid a u ag cs ts e nb) d d' → current key now u d = Ok tt → scoped d u →
  ∀ t g, tenant_id u = Some t → delegations d' !! (t, uuid) = Some g → grant_bounded d t g.
Proof.
  intros (t & g & x & Ht & Hn & -> & Hx & <- & Er & Ei & Es & Eu & Hcu & Hca & Htu & Hta & Hrole) Hc Hs
    t' g' Ht' Hg. simplify_eq. simpl in Hg. rewrite lookup_insert_eq in Hg. simplify_eq.
  destruct (current_role _ _ _ Hc Hrole) as (t1 & r & ? & Hr & Hrev). simplify_eq. split.
  - exists x. split_and!; [done|lia|]. intros _. auto using subset_true.
  - rewrite Ei, Es, Eu. exists r. split_and!; [done|lia|]. intros _.
    unfold scoped in Hs. rewrite bool_decide_eq_false_2 in Hs
      by (intros Hk; rewrite Hk in Hrole; done).
    destruct Hs as (t' & ? & Hs). rewrite Hrole in Hs. destruct Hs as (r' & ? & _ & Heq).
    simplify_eq. destruct Heq as [<- <-]; [done|]. auto using subset_true.
Qed.

Lemma old_grants r d d' t i g' :
  writes r d d' → delegations d' !! (t, i) = Some g' →
  (∃ g, delegations d !! (t, i) = Some g ∧
    d_agent_id g' = d_agent_id g ∧ d_agent_revision g' = d_agent_revision g ∧
    d_user_issuer g' = d_user_issuer g ∧ d_user_subject g' = d_user_subject g ∧
    d_user_revision g' = d_user_revision g ∧
    d_capabilities g' = d_capabilities g ∧ d_targets g' = d_targets g) ∨
  (∃ a u ag cs ts e nb, r = RGrant i a u ag cs ts e nb ∧ tenant_id u = Some t).
Proof.
  intros Hw Hg.
  destruct r; simpl in Hw;
    repeat match goal with H : ∃ _, _ |- _ => destruct H | H : _ ∧ _ |- _ => destruct H end;
    subst; simpl in *; try (left; by exists g').
  - destruct (decide ((x, uuid) = (t, i))) as [[= -> ->]|Hne];
      [right; by repeat eexists|].
    rewrite lookup_insert_ne in Hg by done. left. by exists g'.
  - left. destruct (decide ((t0, grant_id) = (t, i))) as [[= -> ->]|Hne].
    + rewrite lookup_insert_eq in Hg. simplify_eq. by eexists.
    + rewrite lookup_insert_ne in Hg by done. by exists g'.
Qed.

Lemma minted_scoped now r d p d' :
  exec now r d = (Ok (Some p), d') →
  map_Forall (fun _ r => is_role (m_role r) = true) (members d) → scoped d p.
Proof.
  destruct r; simpl; intros Hr Hroles; apply bind_Ok_inv in Hr as (a & s & Hr & Hv);
    try (unfold mret, M_ret in Hv; congruence); injection Hv as <- <-.
  - unfold authenticate_operator in Hr. minv. case_match; minv.
    match goal with p : (string * float64)%type |- _ => destruct p as [sub expires] end.
    destruct t as [t|]; minv; rows_inv; unfold scoped; simpl; [|done].
    match goal with H : members _ !! _ = Some ?r |- _ =>
      rename H into Hm; specialize (Hroles _ _ Hm) as Hrole end. simpl in Hrole.
    rewrite bool_decide_eq_false_2 by (intros Hk; rewrite Hk in Hrole; done).
    eexists. split; [done|]. rewrite Hrole. eexists. split_and!; [done|lia|done].
  - unfold authenticate_agent in Hr. minv.
    match goal with p : (string * float64)%type |- _ => destruct p as [data stamp] end. minv.
    rows_inv. unfold scoped.
    destruct delegation as [i|]; minv; simpl; eexists; (split; [done|]);
      eexists _, _; split_and!; try done; try lia.
    match goal with H : current_grant _ _ _ _ _ _ = Ok _ |- _ =>
      apply current_grant_Ok in H as (? & ? & ? & ? & ? & ? & ? & ? & _) end. simplify_eq.
    by eexists _, _.
Qed.

Lemma scope_step w w' : step w w' → scope_inv w → scope_inv w'.
Proof.
  intros Hstep (Hse & Hsc & Hro & Hgr). pose proof (sealed_step _ _ Hstep Hse) as Hse'.
  destruct Hstep as [now r w o d' Hp Hr]. simpl in *.
  pose proof (exec_advances _ _ _ _ _ Hr) as Hadv.
  assert (Forall (scoped d') (minted w)) as Hsc'
    by (eapply Forall_impl; [done|]; intros; by eapply scoped_advances).
  destruct o as [o|e].
  2:{ apply exec_rolls_back in Hr as ->. rewrite app_nil_r. by split_and!. }
  destruct (exec_writes _ _ _ _ _ Hr) as [Hw Hcur]. split_and!; simpl; [done| |by eapply roles_writes|].
  - apply Forall_app. split; [done|]. destruct o as [p|]; [|done]. constructor; [|done].
    eapply scoped_advances; [done|]. by eapply minted_scoped.
  - intros t i g' Hg'. destruct (old_grants _ _ _ _ _ _ Hw Hg') as
      [(g & Hg & ? & ? & ? & ? & ? & ? & ?)|(a & u & ag & cs & ts & e & nb & -> & Htu)].
    + by eapply grant_bounded_rows; [|eapply Hgr|..].
    + simpl in Hp, Hcur. apply Forall_cons in Hp as [_ [Hpu _]%Forall_cons].
      apply Forall_cons in Hcur as [_ [Hcu _]%Forall_cons].
      assert (u ∈ minted w) as Hu.
      { eapply presentable_minted; [done..|]. by apply current_Ok in Hcu as [? _]. }
      rewrite Forall_forall in Hsc.
      eapply (grant_bounded_rows (dir w) d' t g' g'); [done| |done..].
      eapply new_grant_bounded; try done. by apply Hsc.
Qed.

Definition empty_directory : directory := mkDirectory ∅ ∅ ∅ ∅ ∅ ∅.

Lemma scope_reach w : rtc step (mkWorld empty_directory []) w → scope_inv w.
Proof.
  intros Hr. assert (scope_inv (mkWorld empty_directory [])) as Hi.
  { split_and!; simpl; try done. apply Forall_nil_2. }
  induction Hr; [done|]. eauto using scope_step.
Qed.

(** ** Tenant isolation *)

(** The administrator of an operation and the tenant it must administer. *)
Definition administers (r : request) : option (Principal * option string) :=
  match r with
  | RSetTenant a _ _ | REnrollAdmin a _ _ | RRevokeAdmin a _ _ | RPrune a _ => Some (a, None)
  | REnrollMember a t _ _ _ _ _ | REnrollAgent a t _ _ _ _ | RRevokeAgent a t _
  | RRevokeMember a t _ _ | RRevokeGrant a t _ => Some (a, Some t)
  | RGrant _ a u _ _ _ _ _ => Some (a, tenant_id u)
  | _ => None
  end.

Lemma exec_admin now r d o d' a t :
  exec now r d = (Ok o, d') → administers r = Some (a, t) → admin key now a t d = Ok tt.
Proof.
  destruct r; simpl; intros Hr [= <- <-]; apply bind_Ok_inv in Hr as (x & s & Hr & _);
    [unfold set_tenant in Hr|unfold enroll_platform_admin in Hr|unfold revoke_platform_admin in Hr
    |unfold enroll_member in Hr|unfold enroll_agent in Hr|unfold revoke_agent in Hr
    |unfold revoke_member in Hr|unfold grant_delegation in Hr|unfold revoke_delegation in Hr
    |unfold prune_replays in Hr]; minv; done.
Qed.

(** Nothing outside tenant [t] differs. *)
Definition same_outside (t : string) (d d' : directory) : Prop :=
  tenants d' = tenants d ∧ platform_admins d' = platform_admins d ∧ replays d' = replays d ∧
  (∀ t' iss sub, t' ≠ t → members d' !! (t', iss, sub) = members d !! (t', iss, sub)) ∧
  (∀ t' ag, t' ≠ t → agents d' !! (t', ag) = agents d !! (t', ag)) ∧
  (∀ t' g, t' ≠ t → delegations d' !! (t', g) = delegations d !! (t', g)).

Lemma isolated r d d' t a :
  writes r d d' → administers r = Some (a, Some t) → same_outside t d d'.
Proof.
  intros Hw Ha. destruct r; simplify_eq/=;
    repeat match goal with H : ∃ _, _ |- _ => destruct H | H : _ ∧ _ |- _ => destruct H end;
    subst; simplify_eq; split_and!; simpl; intros;
    rewrite ?lookup_insert_ne by congruence; done.
Qed.

(** ** The last administrator *)

Definition has_admin (d : directory) : Prop :=
  ∃ k r, platform_admins d !! k = Some r ∧ a_active r = true.

Lemma another_admin d k :
  (1 < active_admins d)%nat →
  ∃ j r, j ≠ k ∧ platform_admins d !! j = Some r ∧ a_active r = true.
Proof.
  unfold active_admins. set (m := filter _ (platform_admins d)). intros Hs.
  assert (size (delete k m) ≠ 0%nat) as Hn.
  { rewrite map_size_delete. destruct (m !! k); simpl; lia. }
  apply map_size_ne_0_lookup_1 in Hn as [j [r Hj]].
  destruct (decide (j = k)) as [->|Hjk]; [by rewrite lookup_delete_eq in Hj|].
  rewrite lookup_delete_ne in Hj by done.
  apply map_lookup_filter_Some in Hj as [Hj Hr]. by exists j, r.
Qed.

Lemma has_admin_writes r d d' : writes r d d' → has_admin d → has_admin d'.
Proof.
  intros Hw (k & x & Hk & Hx).
  assert (∀ j y, a_active y = true →
    has_admin (set_admins (<[j := y]> (platform_admins d)) d)) as Hins.
  { intros j y Hy. exists j, y. simpl. by rewrite lookup_insert_eq. }
  destruct r; simpl in Hw; try (
    repeat match goal with H : ∃ _, _ |- _ => destruct H | H : _ ∧ _ |- _ => destruct H end;
    subst; (by apply Hins) || by exists k, x).
  - destruct Hw as [_ ->]. eexists (iss, sub), _. simpl. by rewrite lookup_singleton_eq.
  - destruct Hw as (y & Hy & _ & Hn & ->).
    destruct (another_admin _ (iss, sub) Hn) as (j & z & Hj & Hz & Ha).
    exists j, z. simpl. by rewrite lookup_insert_ne.
Qed.
(** ** The theorems *)

Lemma grant_row_of now p d t ag a i g g' :
  delegation_id p = Some i → delegations d !! (t, i) = Some g →
  current_grant now (Some t) (delegation_id p) (Some ag) a d = Ok g' →
  g' = g ∧ d_agent_id g = ag ∧ d_agent_revision g = g_revision a ∧ d_active g = true ∧
  fltb now (d_expires_at g) = true ∧
  ∃ m, members d !! (t, d_user_issuer g, d_user_subject g) = Some m ∧ m_active m = true ∧
       m_revision m = d_user_revision g.
Proof.
  intros -> Hg Hg'. apply current_grant_Ok in Hg'
    as (t1 & i1 & ag1 & m & Et & Ei & Eag & Hg1 & Hda & Hexp & Hid & Hrev & Hm & Hma & Hmr).
  injection Et as <-. injection Ei as <-. injection Eag as <-.
  assert (g' = g) as -> by congruence. split_and!; try done. by exists m.
Qed.

(** The scopes of a current agent principal are inside its agent's. *)
Lemma agent_scopes now p d t ag a :
  (if bool_decide (kind p = "delegated_human") then
     ∃ i g, delegation_id p = Some i ∧ delegations d !! (t, i) = Some g ∧
            capabilities p = d_capabilities g ∧ targets p = d_targets g
   else agent_revision p = g_revision a →
        capabilities p = g_capabilities a ∧ targets p = g_targets a) →
  g_revision a = agent_revision p →
  (kind p = "delegated_human" →
   ∃ g, current_grant now (Some t) (delegation_id p) (Some ag) a d = Ok g ∧
        d_revision g = delegation_revision p) →
  agents d !! (t, ag) = Some a →
  (∀ i g, delegations d !! (t, i) = Some g → grant_bounded d t g) →
  subset_of (capabilities p) (g_capabilities a) ∧ subset_of (targets p) (g_targets a).
Proof.
  intros Hsc Hrev Hdel Ha Hgr. case_bool_decide as Hkind.
  - destruct Hsc as (i & g & Hi & Hg & -> & ->), (Hdel Hkind) as (g' & Hg' & _).
    destruct (grant_row_of _ _ _ _ _ _ _ _ _ Hi Hg Hg') as (_ & <- & Hr & _).
    destruct (Hgr _ _ Hg) as [(r & Hr' & _ & Hsub) _].
    assert (r = a) as -> by congruence. by apply Hsub.
  - by destruct Hsc as [-> ->].
Qed.

(** The scopes of a current delegation are inside its user's. *)
Lemma user_scopes now p d t ag a i g g' :
  delegation_id p = Some i → delegations d !! (t, i) = Some g →
  current_grant now (Some t) (delegation_id p) (Some ag) a d = Ok g' →
  (∀ i g, delegations d !! (t, i) = Some g → grant_bounded d t g) →
  ∃ m, d_active g = true ∧ fltb now (d_expires_at g) = true ∧
       members d !! (t, d_user_issuer g, d_user_subject g) = Some m ∧ m_active m = true ∧
       subset_of (d_capabilities g) (m_capabilities m) ∧ subset_of (d_targets g) (m_targets m).
Proof.
  intros Hi Hg Hg' Hgr.
  destruct (grant_row_of _ _ _ _ _ _ _ _ _ Hi Hg Hg') as (_ & _ & _ & Hda & Hexp & m & Hm & Hma & Hmr).
  destruct (Hgr _ _ Hg) as [_ (r & Hr & _ & Hsub)]. assert (r = m) as -> by congruence.
  exists m. split_and!; try done; by apply Hsub.
Qed.

(** C12: revocation and re-enrollment are final.  When an operation that
    changes a row a current principal was minted from (its tenant, membership,
    agent enrollment, administrator row or delegation) succeeds, that principal
    is refused by [_current] in every later state of the directory, at any
    time. *)
Theorem revoked_principal_never_current p r now now' w o d1 ms w' :
  current key now p (dir w) = Ok tt →
  exec now r (dir w) = (Ok o, d1) → touches r p →
  rtc step (mkWorld d1 ms) w' → current key now' p (dir w') ≠ Ok tt.
Proof.
  intros Hc Hr Ht Hs Hcur. eapply stale_not_current; [|exact Hcur].
  eapply stale_advances; [by eapply steps_advance|].
  eapply touches_stale; [exact Hc|exact (proj1 (exec_writes _ _ _ _ _ Hr))|done].
Qed.

(** No confused deputy.  If [authorize] accepts a principal a caller can
    present, it is one the directory minted, unaltered; its tenant and agent
    are active; and the capability and target are in the agent's current
    scopes, and, for a delegated principal, also in the current scopes of the
    active member who delegated, under an active, unexpired delegation. *)
Theorem authorized_within_current_scopes now p c target w q d' :
  rtc step (mkWorld empty_directory []) w → presentable w p →
  authorize key now p c target (dir w) = (Ok q, d') →
  d' = dir w ∧ p ∈ minted w ∧ c ∈ capabilities p ∧
  ∃ t ag a, tenant_id p = Some t ∧ p_agent_id p = Some ag ∧
    agents (dir w) !! (t, ag) = Some a ∧ g_active a = true ∧
    c ∈ g_capabilities a ∧ (∀ x, target = Some x → x ∈ g_targets a) ∧
    (kind p = "delegated_human" →
     ∃ i g m, delegation_id p = Some i ∧ delegations (dir w) !! (t, i) = Some g ∧
       d_active g = true ∧ fltb now (d_expires_at g) = true ∧
       members (dir w) !! (t, d_user_issuer g, d_user_subject g) = Some m ∧ m_active m = true ∧
       c ∈ m_capabilities m ∧ (∀ x, target = Some x → x ∈ m_targets m)).
Proof.
  intros Hr Hp Ha. destruct (scope_reach _ Hr) as (Hse & Hsc & _ & Hgr).
  unfold authorize in Ha. minv. split; [done|].
  apply andb_true_iff in He as [[Hk Hcap%bool_decide_eq_true]%andb_true_iff Htg].
  destruct (current_Ok _ _ _ Hl) as [Hok Hc].
  assert (p ∈ minted w) as Hmint by (by eapply presentable_minted). split_and!; [done..|].
  assert (∀ l : list string, (∀ x, x ∈ targets p → x ∈ l) → ∀ x, target = Some x → x ∈ l) as Htargets.
  { intros l Hl' x ->. apply Hl'. by apply bool_decide_eq_true in Htg. }
  rewrite Forall_forall in Hsc. specialize (Hsc _ Hmint). unfold scoped in Hsc.
  rewrite bool_decide_eq_false_2 in * by (intros Hk'; rewrite Hk' in Hk; done).
  destruct Hc as (t & tn & Ht & _ & _ & _ & [(Hrole & _)|(Hrole & _ & ag & a & Hag & Hagr & Hact & Hrev & Hdel)]);
    [by rewrite role_not_agent in Hk|].
  destruct Hsc as (t' & ? & Hsc). rewrite Hrole in Hsc.
  assert (t' = t) as -> by congruence.
  destruct Hsc as (ag' & a' & ? & ? & _ & Hsc).
  assert (ag' = ag) as -> by congruence. assert (a' = a) as -> by congruence.
  pose proof (agent_scopes now p (dir w) t ag a Hsc Hrev Hdel Hagr (Hgr t)) as [Hca Hta].
  exists t, ag, a. split_and!; [done..|by apply Hca|by apply Htargets|].
  intros Hkind. rewrite bool_decide_eq_true_2 in Hsc by done.
  destruct Hsc as (i & g & Hi & Hg & Hcs & Hts), (Hdel Hkind) as (g' & Hg' & _).
  destruct (user_scopes now p (dir w) t ag a i g g' Hi Hg Hg' (Hgr t))
    as (m & Hda & Hexp & Hm & Hma & Hmc & Hmt).
  rewrite <-Hcs in Hmc. rewrite <-Hts in Hmt.
  exists i, g, m. split_and!; try done; [by apply Hmc|by apply Htargets].
Qed.

(** Tenant isolation.  An administrative operation that succeeds for an
    actor who is not a platform administrator changes no tenant row, no
    platform administrator, no replay record, and no member, agent or
    delegation of any tenant but the actor's own. *)
Theorem tenant_admin_isolated now r d o d' a ot :
  exec now r d = (Ok o, d') → administers r = Some (a, ot) → kind a ≠ "platform_admin" →
  ∃ t, tenant_id a = Some t ∧ kind a = "tenant_admin" ∧ same_outside t d d'.
Proof.
  intros Hr Ha Hk. pose proof (exec_admin _ _ _ _ _ _ _ Hr Ha) as Had.
  apply admin_Ok in Had as [_ [?|(Hta & Hn & Ht)]]; [done|].
  destruct ot as [t|]; [|done]. exists t. split_and!; [done..|].
  eapply isolated; [exact (proj1 (exec_writes _ _ _ _ _ Hr))|done].
Qed.

(** The directory never locks itself out: once there is an active
    platform administrator there is one in every later state. *)
Theorem platform_admin_remains w w' :
  has_admin (dir w) → rtc step w w' → has_admin (dir w').
Proof.
  intros Ha Hs. induction Hs as [|w1 w2 w3 Hst _ IH]; [done|]. apply IH.
  destruct Hst as [now r w1 o d' _ Hr]. simpl. destruct o as [o|e].
  - eapply has_admin_writes; [exact (proj1 (exec_writes _ _ _ _ _ Hr))|done].
  - by apply exec_rolls_back in Hr as ->.
Qed.
End spec.


(** ** A concrete directory *)

Definition demo_signature : string :=
  ("aaaaaaaaaaaaaaaaaaaaaaaaaaaaaaaaaaaaaaaaaaaaaaaaaaaaaaaaaaaaaaaa" +:+
   "bbbbbbbbbbbbbbbbbbbbbbbbbbbbbbbbbbbbbbbbbbbbbbbbbbbbbbbbbbbbbbbb")%string.

#[local] Instance hex_ed25519 : Ed25519 := {
  public_of k := k;
  ed_sign _ _ := demo_signature;
  public_key_ok _ := true;
  hex_ok _ := true;
  ed_verify _ _ s := bool_decide (s = demo_signature);
  public_of_ok k := eq_refl;
  ed_sign_hex k m := eq_refl;
  ed_correct k m := bool_decide_eq_true_2 _ eq_refl;
}.

Definition demo_issuer : string := "https://idp".

(** A token is its own subject; every token expires at [FFin 9]. *)
Definition demo_verifiers : gmap string (string → outcome claims) :=
  {[demo_issuer := fun token =>
      Ok (mkClaims (Some token) (Some (PFloat (FFin 9))) (Some demo_issuer) None)]}.

Definition demo_parse (_ : string) : option float64 := Some (FFin 1).
Definition demo_encode (t ag : string) (g : option string) (nonce h : string) : string :=
  chunks [t; ag; option_text g; nonce; h].

Definition now1 : float64 := FFin 1.

Local Notation run r w := (
  let '(o, d') := exec "k" demo_verifiers demo_parse demo_encode now1 r (dir w) in
  mkWorld d' (minted w ++ match o with Ok (Some p) => [p] | _ => [] end)).

Definition demo_w1 : world := run (ROperator demo_issuer "root" None)
  (run (RBootstrap demo_issuer "root") (mkWorld empty_directory [])).

Definition nobody : Principal :=
  mkPrincipal None "" "" "" 0 0 None 0 None 0 0 0 fzero [] [] "" "" "".

Definition demo_root : Principal := default nobody (last (minted demo_w1)).

Definition demo_key : string :=
  "aaaaaaaaaaaaaaaaaaaaaaaaaaaaaaaaaaaaaaaaaaaaaaaaaaaaaaaaaaaaaaaa".

(** Tenant, member and agent enrolled; the member signed in. *)
Definition demo_w2 : world := run (ROperator demo_issuer "ann" (Some "acme"))
  (run (REnrollAgent demo_root "acme" "bot" demo_key ["pay"; "read"] ["t1"])
  (run (REnrollMember demo_root "acme" demo_issuer "ann" "tenant_viewer" ["read"] ["t1"])
  (run (RSetTenant demo_root "acme" true) demo_w1))).

Definition demo_ann : Principal := default nobody (last (minted demo_w2)).

Definition demo_w3 : world :=
  run (RGrant "g1" demo_root demo_ann "bot" ["read"] [] (PFloat (FFin 5)) None) demo_w2.

(** The agent acts for the member; then its enrollment is revoked. *)
Definition demo_w4 : world :=
  run (RAgent "acme" "bot" "1:0123456789abcdef" "body" demo_signature (Some "g1")) demo_w3.

Definition demo_bot : Principal := default nobody (last (minted demo_w4)).

Definition demo_w5 : world := run (RRevokeAgent demo_root "acme" "bot") demo_w4.

Local Notation demo_step := (step "k" demo_verifiers demo_parse demo_encode).

Lemma demo_do r w :
  forallb (fun p => bool_decide (proof p ∈ proof <$> minted w)) (presents r) = true →
  demo_step w (run r w).
Proof.
  intros Hp. destruct (exec _ _ _ _ _ r (dir w)) as [o d'] eqn:Hr.
  eapply do_request; [|done]. apply Forall_forall. intros p Hin.
  rewrite forallb_forall in Hp. apply list_elem_of_In in Hin.
  by apply Hp, bool_decide_eq_true in Hin.
Qed.

Lemma demo_reach : rtc demo_step (mkWorld empty_directory []) demo_w4.
Proof.
  unfold demo_w4, demo_w3, demo_w2, demo_w1.
  repeat (eapply rtc_r; [|apply demo_do; vm_compute; reflexivity]). apply rtc_refl.
Qed.

Lemma authorized_within_current_scopes_witness :
  demo_bot ∈ minted demo_w4 ∧ kind demo_bot = "delegated_human" ∧
  (authorize "k" now1 demo_bot "read" None (dir demo_w4)).1 = Ok demo_bot.
Proof.
  assert (presentable demo_w4 demo_bot) as Hp
    by (apply (bool_decide_unpack (proof demo_bot ∈ proof <$> minted demo_w4)); vm_compute; exact I).
  assert (authorize "k" now1 demo_bot "read" None (dir demo_w4) = (Ok demo_bot, dir demo_w4)) as Ha
    by (vm_compute; reflexivity).
  destruct (authorized_within_current_scopes "k" demo_verifiers demo_parse demo_encode now1
    demo_bot "read" None demo_w4 demo_bot (dir demo_w4) demo_reach Hp Ha) as (_ & Hm & _).
  split_and!; [exact Hm|vm_compute; reflexivity|by rewrite Ha].
Defined.

Lemma revoked_principal_never_current_witness :
  current "k" now1 demo_bot (dir demo_w4) = Ok tt ∧
  current "k" now1 demo_bot (dir demo_w5) ≠ Ok tt.
Proof.
  assert (current "k" now1 demo_bot (dir demo_w4) = Ok tt) as Hc by (vm_compute; reflexivity).
  split; [exact Hc|].
  apply (revoked_principal_never_current "k" demo_verifiers demo_parse demo_encode demo_bot
    (RRevokeAgent demo_root "acme" "bot") now1 now1 demo_w4 None (dir demo_w5) (minted demo_w5)
    demo_w5); [exact Hc|vm_compute; reflexivity| |].
  - split_and!; vm_compute; reflexivity.
  - destruct demo_w5. apply rtc_refl.
Defined.

Lemma platform_admin_remains_witness : has_admin (dir demo_w4).
Proof.
  apply (platform_admin_remains "k" demo_verifiers demo_parse demo_encode demo_w4 demo_w4);
    [|apply rtc_refl].
  eexists (demo_issuer, "root"), _. split; [vm_compute; reflexivity|reflexivity].
Defined.

(** A tenant administrator enrolls an agent of its own tenant. *)
Definition demo_w6 : world := run (ROperator demo_issuer "tom" (Some "acme"))
  (run (REnrollMember demo_root "acme" demo_issuer "tom" "tenant_admin" [] []) demo_w4).

Definition demo_tom : Principal := default nobody (last (minted demo_w6)).

Lemma tenant_admin_isolated_witness :
  ∃ t, tenant_id demo_tom = Some t ∧ kind demo_tom = "tenant_admin" ∧
       same_outside t (dir demo_w6)
         (dir (run (REnrollAgent demo_tom "acme" "bot2" demo_key [] []) demo_w6)).
Proof.
  apply (tenant_admin_isolated "k" demo_verifiers demo_parse demo_encode now1
    (REnrollAgent demo_tom "acme" "bot2" demo_key [] []) (dir demo_w6) None _ demo_tom (Some "acme"));
    [vm_compute; reflexivity|reflexivity|vm_compute; discriminate].
Defined.
