(* ===== verification/Json.v ===== *)
(** * JSON values as Python sees them

    Values [json.loads] returns, with the operations the code performs on them.
    [JsonText] is the [json] module: its text format is not modelled, only that
    [loads] undoes [dumps] on a well-formed value. *)

From stdpp Require Import base list gmap strings countable.
From Stdlib Require Import ZArith Lia Ascii.
From S2P Require Import Prelude PyFloat.

Local Open Scope Z_scope.

Local Set Warnings "-register-all".

Inductive json :=
| JNull
| JBool (b : bool)
| JInt (n : Z)
| JFloat (f : float64)
| JStr (s : string)
| JArr (l : list json)
| JObj (m : list (string * json)).

Section json_ind.
Context (P : json → Prop).
Context (Hnull : P JNull) (Hbool : ∀ b, P (JBool b)) (Hint : ∀ n, P (JInt n))
  (Hfloat : ∀ f, P (JFloat f)) (Hstr : ∀ s, P (JStr s))
  (Harr : ∀ l, Forall P l → P (JArr l)) (Hobj : ∀ m, Forall P m.*2 → P (JObj m)).

(** Induction with the elements of arrays and the values of objects. *)
Fixpoint json_ind_nested (j : json) : P j :=
  match j with
  | JNull => Hnull
  | JBool b => Hbool b
  | JInt n => Hint n
  | JFloat f => Hfloat f
  | JStr s => Hstr s
  | JArr l => Harr l ((fix go l : Forall P l :=
      match l with [] => Forall_nil_2 P | x :: l' => Forall_cons_2 P x l' (json_ind_nested x) (go l') end) l)
  | JObj m => Hobj m ((fix go m : Forall P m.*2 :=
      match m with
      | [] => Forall_nil_2 P
      | (k, x) :: m' => Forall_cons_2 P x m'.*2 (json_ind_nested x) (go m')
      end) m)
  end.
End json_ind.

(** Keys are unique at every level, as in any Python [dict]. *)
Fixpoint json_wf (j : json) : bool :=
  match j with
  | JArr l => forallb json_wf l
  | JObj m => bool_decide (NoDup (dict_keys m)) && forallb (fun p => json_wf p.2) m
  | _ => true
  end.

(** No NaN or infinity inside: what [allow_nan=False] insists on. *)
Fixpoint json_finite (j : json) : bool :=
  match j with
  | JFloat f => fisfinite f
  | JArr l => forallb json_finite l
  | JObj m => forallb (fun p => json_finite p.2) m
  | _ => true
  end.

(** ** Python operations *)

Definition truthy (j : json) : bool :=
  match j with
  | JNull => false
  | JBool b => b
  | JInt n => negb (n =? 0)
  | JFloat f => negb (feqb f fzero)
  | JStr s => negb (bool_decide (s = ""))
  | JArr l => negb (bool_decide (length l = 0%nat))
  | JObj m => negb (bool_decide (length m = 0%nat))
  end.

(** [a or b]. *)
Definition py_or (a b : json) : json := if truthy a then a else b.

Definition is_none (j : json) : bool := match j with JNull => true | _ => false end.

(** [d.get(k, dflt)] on a dict, and on a value that may not be one. *)
Definition obj_get (k : string) (dflt : json) (m : list (string * json)) : json :=
  default dflt (dict_get k m).

Definition attr_get (k : string) (dflt : json) (j : json) : outcome json :=
  match j with
  | JObj m => Ok (obj_get k dflt m)
  | _ => Raise (AttributeError "object has no attribute 'get'")
  end.

(** [for x in v]. *)
Definition py_iter (j : json) : outcome (list json) :=
  match j with
  | JArr l => Ok l
  | JObj m => Ok (JStr <$> m.*1)
  | JStr s => Ok ((fun c => JStr (String c EmptyString)) <$> String.list_ascii_of_string s)
  | _ => Raise (TypeError "object is not iterable")
  end.

(** [j == s] for a string [s]. *)
Definition is_text (s : string) (j : json) : bool :=
  match j with JStr t => bool_decide (t = s) | _ => false end.

Class JsonText := {
  json_loads : string → outcome json;
  json_dumps : json → string;
  (** [json.dumps(v, sort_keys=True, separators=(",", ":"))]. *)
  canonical_dumps : json → string;
  (** [str(v)] of a value that is not a string. *)
  py_repr : json → string;
  loads_dumps j : json_wf j = true → json_loads (json_dumps j) = Ok j;
}.

Definition py_str `{JsonText} (j : json) : string :=
  match j with JStr s => s | _ => py_repr j end.

(** [" ".join(texts)]: a value that is not a string raises. *)
Fixpoint join_text (l : list json) : outcome string :=
  match l with
  | [] => Ok EmptyString
  | [JStr s] => Ok s
  | JStr s :: l' => rest ← join_text l'; Ok (s +:+ " " +:+ rest)
  | _ => Raise (TypeError "sequence item: expected str instance")
  end.

(** [==] between two JSON values: numbers compare by value across types and
    objects ignore key order. *)
Definition num_of (j : json) : option float64 :=
  match j with
  | JBool b => Some (fl (if b then 1 else 0))
  | JInt n => Some (fl n)
  | JFloat f => Some f
  | _ => None
  end.

Fixpoint json_eqb (a b : json) {struct a} : bool :=
  match a, b with
  | JNull, JNull => true
  | JStr s, JStr t => bool_decide (s = t)
  | JArr l, JArr l' =>
      (fix go l l' := match l, l' with
                      | [], [] => true
                      | x :: l, y :: l' => json_eqb x y && go l l'
                      | _, _ => false
                      end) l l'
  | JObj m, JObj m' =>
      bool_decide (length m = length m') &&
      (fix go m := match m with
                   | [] => true
                   | (k, x) :: m => match dict_get k m' with
                                    | Some y => json_eqb x y
                                    | None => false
                                    end && go m
                   end) m
  | (JBool _ | JInt _ | JFloat _), (JBool _ | JInt _ | JFloat _) =>
      match num_of a, num_of b with Some x, Some y => feqb x y | _, _ => false end
  | _, _ => false
  end.

(** ** A concrete text format

    Values as text that reads back: a scalar is a tag and a field, an array or
    an object its items between brackets.  A field ends in ["~"]; that character
    and ["!"] are escaped inside it. *)

#[global] Instance float64_eq_dec : EqDecision float64.
Proof. solve_decision. Defined.

Definition tilde : Ascii.ascii := "~"%char.
Definition bang : Ascii.ascii := "!"%char.

Fixpoint field_text (s k : string) : string :=
  match s with
  | EmptyString => String tilde k
  | String c s' =>
      if Ascii.eqb c tilde || Ascii.eqb c bang then String bang (String c (field_text s' k))
      else String c (field_text s' k)
  end.

Fixpoint take_field (s : string) : option (string * string) :=
  match s with
  | EmptyString => None
  | String c s' =>
      if Ascii.eqb c tilde then Some (EmptyString, s')
      else if Ascii.eqb c bang then
        match s' with
        | String d s'' => '(f, r) ← take_field s''; Some (String d f, r)
        | EmptyString => None
        end
      else '(f, r) ← take_field s'; Some (String c f, r)
  end.

Lemma take_field_text s k : take_field (field_text s k) = Some (s, k).
Proof.
  induction s as [|c s IH]; [done|]. cbn [field_text].
  destruct (Ascii.eqb c tilde) eqn:Ht; cbn [orb]; [cbn; by rewrite IH|].
  destruct (Ascii.eqb c bang) eqn:Hb; [cbn; by rewrite IH|]. cbn [take_field]. by rewrite Ht, Hb, IH.
Qed.

Lemma field_text_length s k : (S (String.length k) ≤ String.length (field_text s k))%nat.
Proof. induction s as [|c s IH]; simpl; [done|]. destruct (_ || _); simpl; lia. Qed.

Fixpoint bits (p : positive) : string :=
  match p with
  | xH => EmptyString
  | xO p => String "0"%char (bits p)
  | xI p => String "1"%char (bits p)
  end.
Fixpoint of_bits (s : string) : positive :=
  match s with
  | EmptyString => xH
  | String c s' => if Ascii.eqb c "0"%char then xO (of_bits s') else xI (of_bits s')
  end.

Lemma of_bits_bits p : of_bits (bits p) = p.
Proof. induction p; simpl; by f_equal. Qed.

Definition int_text (z : Z) : string :=
  match z with Z0 => "0" | Zpos p => String "+"%char (bits p) | Zneg p => String "-"%char (bits p) end.
Definition int_of (s : string) : option Z :=
  match s with
  | String c s' =>
      if Ascii.eqb c "0" then Some 0 else if Ascii.eqb c "+" then Some (Zpos (of_bits s'))
      else if Ascii.eqb c "-" then Some (Zneg (of_bits s')) else None
  | EmptyString => None
  end.

Lemma int_of_text z : int_of (int_text z) = Some z.
Proof. destruct z; simpl; by rewrite ?of_bits_bits. Qed.

(** A finite float is written in whole units where it is a whole number. *)
Definition real_text (x : float64) : string :=
  match x with
  | FNan => "n"
  | FInf b => if b then "-" else "i"
  | FFin z => let u := Z.shiftr z 1074 in
              if Z.shiftl u 1074 =? z then String "u"%char (int_text u) else String "f"%char (int_text z)
  end.
Definition real_of (s : string) : option float64 :=
  match s with
  | String c s' =>
      if Ascii.eqb c "n" then Some FNan else if Ascii.eqb c "-" then Some (FInf true)
      else if Ascii.eqb c "i" then Some (FInf false)
      else if Ascii.eqb c "u" then (fun u => FFin (Z.shiftl u 1074)) <$> int_of s' else FFin <$> int_of s'
  | EmptyString => None
  end.

Lemma real_of_text x : real_of (real_text x) = Some x.
Proof.
  destruct x as [|[]|z]; [done..|]. unfold real_text. cbv zeta. destruct (Z.eqb_spec (Z.shiftl (Z.shiftr z 1074) 1074) z) as [E|_].
  - change ((fun u => FFin (Z.shiftl u 1074)) <$> int_of (int_text (Z.shiftr z 1074)) = Some (FFin z)).
    rewrite int_of_text. change (Some (FFin (Z.shiftl (Z.shiftr z 1074) 1074)) = Some (FFin z)). by rewrite E.
  - change (FFin <$> int_of (int_text z) = Some (FFin z)). by rewrite int_of_text.
Qed.

Lemma inj_of {A} (f : A → string) (g : string → option A) : (∀ x, g (f x) = Some x) → Inj (=) (=) f.
Proof. intros Hg x y E. apply (f_equal g) in E. rewrite !Hg in E. congruence. Qed.

Fixpoint json_put (j : json) (k : string) : string :=
  match j with
  | JNull => String "n" k
  | JBool b => String (if b then "t" else "f")%char k
  | JInt z => String "i" (field_text (int_text z) k)
  | JFloat f => String "d" (field_text (real_text f) k)
  | JStr s => String "s" (field_text s k)
  | JArr l => String "[" (foldr json_put (String "]" k) l)
  | JObj m => String "{" (foldr (fun p k => String "," (field_text p.1 (json_put p.2 k))) (String "}" k) m)
  end.

(** A reader of one value, of the items up to a bracket, and of the members. *)
Fixpoint json_take (n : nat) (s : string) {struct n} : option (json * string) :=
  match n, s with
  | S n, String c s' =>
      if Ascii.eqb c "n" then Some (JNull, s')
      else if Ascii.eqb c "t" then Some (JBool true, s')
      else if Ascii.eqb c "f" then Some (JBool false, s')
      else if Ascii.eqb c "i" then '(t, r) ← take_field s'; z ← int_of t; Some (JInt z, r)
      else if Ascii.eqb c "d" then '(t, r) ← take_field s'; f ← real_of t; Some (JFloat f, r)
      else if Ascii.eqb c "s" then '(t, r) ← take_field s'; Some (JStr t, r)
      else if Ascii.eqb c "[" then '(l, r) ← items_take n s'; Some (JArr l, r)
      else if Ascii.eqb c "{" then '(m, r) ← members_take n s'; Some (JObj m, r)
      else None
  | _, _ => None
  end
with items_take (n : nat) (s : string) {struct n} : option (list json * string) :=
  match n, s with
  | S n, String c s' =>
      if Ascii.eqb c "]" then Some ([], s')
      else '(x, r) ← json_take n s; '(l, r') ← items_take n r; Some (x :: l, r')
  | _, _ => None
  end
with members_take (n : nat) (s : string) {struct n} : option (list (string * json) * string) :=
  match n, s with
  | S n, String c s' =>
      if Ascii.eqb c "}" then Some ([], s')
      else '(k, r) ← take_field s'; '(x, r') ← json_take n r; '(m, r'') ← members_take n r'; Some ((k, x) :: m, r'')
  | _, _ => None
  end.

(** Rounds of the reader a value takes. *)
Fixpoint rounds (j : json) : nat :=
  match j with
  | JArr l => S (S (foldr (fun x n => rounds x + n) 0 l))%nat
  | JObj m => S (S (foldr (fun p n => rounds p.2 + n) 0 m))%nat
  | _ => 1%nat
  end.

Lemma rounds_pos j : (1 ≤ rounds j)%nat.
Proof. destruct j; simpl; lia. Qed.

Lemma json_put_head j k : ∃ c s, json_put j k = String c s ∧ Ascii.eqb c "]" = false.
Proof. destruct j as [|[]| | | | |]; simpl; eauto. Qed.

Lemma json_take_put j : ∀ n k, (rounds j ≤ n)%nat → json_take n (json_put j k) = Some (j, k).
Proof.
  induction j as [|b|z|f|s|l IH|m IH] using json_ind_nested; intros [|n] k Hn; try (cbn [rounds] in Hn; lia);
    cbn [json_put json_take].
  - done.
  - by destruct b.
  - cbn. by rewrite take_field_text; cbn; rewrite int_of_text.
  - cbn. by rewrite take_field_text; cbn; rewrite real_of_text.
  - cbn. by rewrite take_field_text.
  - cbn [Ascii.eqb]. cbn [rounds] in Hn. change (('(l0, r) ← items_take n (foldr json_put (String "]" k) l); Some (JArr l0, r)) = Some (JArr l, k)).
    enough (items_take n (foldr json_put (String "]" k) l) = Some (l, k)) as -> by done.
    revert n Hn. induction IH as [|x l Hx _ IHl]; intros [|n] Hn; simpl in Hn; try lia; [done|].
    cbn [foldr items_take]. pose proof (rounds_pos x) as Hp.
    destruct (json_put_head x (foldr json_put (String "]" k) l)) as (c & s & E & Hc). rewrite E, Hc, <-E.
    rewrite Hx by lia. cbn [mbind option_bind]. rewrite IHl by lia. done.
  - cbn [rounds] in Hn. set (put := foldr _ _ m).
    change (('(l0, r) ← members_take n put; Some (JObj l0, r)) = Some (JObj m, k)).
    enough (members_take n put = Some (m, k)) as -> by done. unfold put. clear put.
    revert n Hn. induction m as [|[i x] m IHm]; intros [|n] Hn; simpl in Hn; try lia; [done|].
    simpl in IH. apply Forall_cons_1 in IH as [Hx IH]. cbn [foldr members_take]. pose proof (rounds_pos x) as Hp.
    change (Ascii.eqb "," "}") with false. cbn [fst snd]. rewrite take_field_text. cbn [mbind option_bind].
    rewrite Hx by lia. cbn [mbind option_bind]. rewrite (IHm IH) by lia. done.
Qed.

Lemma json_put_length j k : (rounds j + String.length k ≤ String.length (json_put j k))%nat.
Proof.
  revert k. induction j as [|b|z|f|s|l IH|m IH] using json_ind_nested; intros k; simpl; try lia.
  - pose proof (field_text_length (int_text z) k). lia.
  - pose proof (field_text_length (real_text f) k). lia.
  - pose proof (field_text_length s k). lia.
  - enough (foldr (λ x n, rounds x + n) 0 l + S (String.length k) ≤ String.length (foldr json_put (String "]" k) l))%nat by lia.
    induction IH as [|x l Hx _ IHl]; simpl; [lia|]. specialize (Hx (foldr json_put (String "]" k) l)). lia.
  - set (put := foldr _ (String "}" k)).
    enough (foldr (λ p n, rounds p.2 + n) 0 m + S (String.length k) ≤ String.length (put m))%nat by lia.
    induction m as [|[i x] m IHm]; simpl; [lia|]. simpl in IH. apply Forall_cons_1 in IH as [Hx IH]. specialize (IHm IH).
    pose proof (field_text_length i (json_put x (put m))). specialize (Hx (put m)). unfold put in *. simpl in *. lia.
Qed.

Definition json_write (j : json) : string := json_put j EmptyString.
Definition json_read (s : string) : option json :=
  match json_take (String.length s) s with Some (j, EmptyString) => Some j | _ => None end.

Lemma json_read_write j : json_read (json_write j) = Some j.
Proof.
  unfold json_read, json_write. pose proof (json_put_length j EmptyString) as Hl. simpl in Hl.
  by rewrite json_take_put by lia.
Qed.

#[global] Program Instance demo_json : JsonText := {
  json_loads s := match json_read s with Some j => Ok j | None => Raise (ValueError "invalid JSON") end;
  json_dumps := json_write;
  canonical_dumps := json_write;
  py_repr := json_write;
}.
Next Obligation. intros j _. simpl. by rewrite json_read_write. Qed.
