(* ===== verification/Sorting.v ===== *)
(** * Sorting as the code uses it

    Python's [sorted] with a key and SQL's [ORDER BY]: a stable insertion sort
    over a boolean order, and JSON values with the members of every object in
    key order, as [sort_keys=True] writes them. *)

From stdpp Require Import base list gmap strings.
From Stdlib Require Import ZArith Lia Sorted.
From S2P Require Import Prelude PyFloat Json.

Section sort.
Context {A : Type} (leb : A → A → bool).

Fixpoint insert_by (x : A) (l : list A) : list A :=
  match l with
  | [] => [x]
  | y :: l' => if leb x y then x :: l else y :: insert_by x l'
  end.

Definition sort_by (l : list A) : list A := foldr insert_by [] l.

Lemma insert_by_perm x l : insert_by x l ≡ₚ x :: l.
Proof.
  induction l as [|y l IH]; simpl; [done|]. destruct (leb x y); [done|]. rewrite IH. apply Permutation_swap.
Qed.

Lemma sort_by_perm l : sort_by l ≡ₚ l.
Proof.
  induction l as [|x l IH]; [done|]. change (sort_by (x :: l)) with (insert_by x (sort_by l)).
  by rewrite insert_by_perm, IH.
Qed.

(** Every element is below the ones after it. *)
Definition in_order (l : list A) : Prop := StronglySorted (fun x y => leb x y = true) l.

Lemma sort_in_order l : in_order l → sort_by l = l.
Proof.
  induction 1 as [|x l Hl IH Hx]; [done|]. change (sort_by (x :: l)) with (insert_by x (sort_by l)). rewrite IH.
  destruct Hx as [|y l Hy _]; [done|]. simpl. by rewrite Hy.
Qed.

Lemma insert_by_above x l y : leb x y = true → insert_by x (l ++ [y]) = insert_by x l ++ [y].
Proof. intros Hy. induction l as [|z l IH]; simpl; [by rewrite Hy|]. destruct (leb x z); simpl; [done|by rewrite IH]. Qed.

(** An element above all the others is sorted to the end. *)
Lemma sort_by_last l y : Forall (fun x => leb x y = true) l → sort_by (l ++ [y]) = sort_by l ++ [y].
Proof.
  induction 1 as [|x l Hx Hl IH]; [done|].
  change (insert_by x (sort_by (l ++ [y])) = insert_by x (sort_by l) ++ [y]). rewrite IH. by apply insert_by_above.
Qed.

Context (total : ∀ x y, leb x y = false → leb y x = true)
  (trans : ∀ x y z, leb x y = true → leb y z = true → leb x z = true).

Lemma insert_by_order x l : in_order l → in_order (insert_by x l).
Proof.
  induction 1 as [|y l Hl IH Hy]; simpl; [by repeat constructor|]. destruct (leb x y) eqn:Hxy.
  - constructor; [by constructor|]. constructor; [done|]. eapply Forall_impl; [exact Hy|]. intros z. by apply trans.
  - constructor; [exact IH|]. rewrite insert_by_perm. constructor; [by apply total|exact Hy].
Qed.

Lemma sort_by_order l : in_order (sort_by l).
Proof.
  induction l as [|x l IH]; [constructor|]. change (sort_by (x :: l)) with (insert_by x (sort_by l)).
  by apply insert_by_order.
Qed.
End sort.

Lemma insert_by_fmap {A B} (f : A → B) leb leb' x l :
  (∀ a b, leb' (f a) (f b) = leb a b) → insert_by leb' (f x) (f <$> l) = f <$> insert_by leb x l.
Proof. intros Hf. induction l as [|y l IH]; csimpl; [done|]. rewrite Hf. destruct (leb x y); csimpl; [done|by rewrite IH]. Qed.

Lemma sort_by_fmap {A B} (f : A → B) leb leb' l :
  (∀ a b, leb' (f a) (f b) = leb a b) → sort_by leb' (f <$> l) = f <$> sort_by leb l.
Proof.
  intros Hf. induction l as [|x l IH]; [done|].
  change (insert_by leb' (f x) (sort_by leb' (f <$> l)) = f <$> insert_by leb x (sort_by leb l)).
  rewrite IH. by apply insert_by_fmap.
Qed.

(** ** Objects with their members in key order *)

Definition key_leb (p q : string * json) : bool := String.leb p.1 q.1.

Fixpoint sort_keys (j : json) : json :=
  match j with
  | JArr l => JArr (sort_keys <$> l)
  | JObj m => JObj (sort_by key_leb ((fun p => (p.1, sort_keys p.2)) <$> m))
  | _ => j
  end.

Definition sort_members (m : list (string * json)) : list (string * json) :=
  sort_by key_leb ((fun p => (p.1, sort_keys p.2)) <$> m).

Lemma leb_total s t : String.leb s t = false → String.leb t s = true.
Proof.
  unfold String.leb. rewrite (String.compare_antisym s t). by destruct (String.compare t s).
Qed.

Lemma compare_trans s t u :
  String.compare s t ≠ Gt → String.compare t u ≠ Gt → String.compare s u ≠ Gt.
Proof.
  revert t u. induction s as [|a s IH]; intros [|b t] [|c u]; simpl; try done. unfold Ascii.compare.
  destruct (N.compare_spec (Ascii.N_of_ascii a) (Ascii.N_of_ascii b)) as [E1|E1|E1],
           (N.compare_spec (Ascii.N_of_ascii b) (Ascii.N_of_ascii c)) as [E2|E2|E2], 
           (N.compare_spec (Ascii.N_of_ascii a) (Ascii.N_of_ascii c)) as [E3|E3|E3]; try done; try lia. apply IH.
Qed.

Lemma leb_trans s t u : String.leb s t = true → String.leb t u = true → String.leb s u = true.
Proof.
  unfold String.leb. intros H1 H2. pose proof (compare_trans s t u) as Hc.
  destruct (String.compare s t), (String.compare t u), (String.compare s u); try done; by destruct Hc.
Qed.

Lemma sort_keys_idem j : sort_keys (sort_keys j) = sort_keys j.
Proof.
  induction j as [| | | | |l IH|m IH] using json_ind_nested; simpl; try done; f_equal.
  - rewrite <-list_fmap_compose. apply list_fmap_ext. intros i x Hx. rewrite Forall_forall in IH.
    apply IH. by eapply list_elem_of_lookup_2.
  - set (f := fun p : string * json => (p.1, sort_keys p.2)).
    rewrite <-(sort_by_fmap f key_leb key_leb (f <$> m)) by done.
    rewrite <-list_fmap_compose. rewrite sort_in_order.
    + apply (f_equal (sort_by key_leb)), list_fmap_ext. intros i [k x] Hx. unfold f. simpl. f_equal. rewrite Forall_forall in IH. apply IH.
      apply list_elem_of_fmap. exists (k, x). split; [done|]. by eapply list_elem_of_lookup_2.
    + apply sort_by_order; unfold key_leb; [intros x y; apply leb_total|intros x y z; apply leb_trans].
Qed.

Lemma sort_members_keys m : dict_keys (sort_members m) ≡ₚ dict_keys m.
Proof.
  unfold sort_members, dict_keys. rewrite sort_by_perm, <-list_fmap_compose. by rewrite (list_fmap_ext _ fst) by done.
Qed.

Lemma dict_get_perm {K V} `{EqDecision K} (d d' : list (K * V)) k :
  d ≡ₚ d' → NoDup (dict_keys d) → dict_get k d = dict_get k d'.
Proof.
  intros Hp Hn. assert (NoDup (dict_keys d')) as Hn' by (unfold dict_keys in *; by rewrite <-Hp).
  destruct (dict_get k d) as [v|] eqn:Hg.
  - symmetry. apply dict_get_In; [done|]. rewrite <-Hp. by apply dict_get_Some_In.
  - symmetry. apply dict_get_None. apply dict_get_None in Hg. unfold dict_keys in *. by rewrite <-Hp.
Qed.

Lemma dict_get_fmap {K V W} `{EqDecision K} (f : V → W) (d : list (K * V)) k :
  dict_get k ((fun p => (p.1, f p.2)) <$> d) = f <$> dict_get k d.
Proof. induction d as [|[i v] d IH]; simpl; [done|]. case_decide; [done|exact IH]. Qed.

(** Members keep their values, in key order themselves. *)
Lemma sort_members_get m k :
  NoDup (dict_keys m) → dict_get k (sort_members m) = sort_keys <$> dict_get k m.
Proof.
  intros Hn. unfold sort_members. rewrite (dict_get_perm _ ((fun p => (p.1, sort_keys p.2)) <$> m)).
  - apply dict_get_fmap.
  - apply sort_by_perm.
  - unfold dict_keys. rewrite sort_by_perm, <-list_fmap_compose. by rewrite (list_fmap_ext _ fst) by done.
Qed.

Lemma forallb_Forall {A} (f : A → bool) l : forallb f l = true ↔ Forall (fun x => f x = true) l.
Proof.
  induction l as [|x l IH]; simpl; [done|]. by rewrite andb_true_iff, Forall_cons, IH.
Qed.

Lemma sort_keys_wf j : json_wf j = true → json_wf (sort_keys j) = true.
Proof.
  induction j as [| | | | |l IH|m IH] using json_ind_nested; simpl; try done.
  - rewrite !forallb_Forall, Forall_fmap. intros Hw. eapply Forall_impl; [exact (proj2 (Forall_and _ _) (conj Hw IH))|].
    intros x [Hx Hi]. by apply Hi.
  - rewrite !andb_true_iff, !bool_decide_eq_true, !forallb_Forall. intros [Hn Hw]. split.
    + fold (sort_members m). by rewrite sort_members_keys.
    + rewrite sort_by_perm, Forall_fmap. rewrite Forall_fmap in IH.
      eapply Forall_impl; [exact (proj2 (Forall_and _ _) (conj Hw IH))|].
    intros x [Hx Hi]. by apply Hi.
Qed.
