(* ===== verification/RetainedCapacity.v ===== *)
(** * Retained history with a capacity

    The three append-only journals that bound what they keep share one design:
    governance/signing_journal_capacity.py, checkpoint_capacity.py and
    evidence_journal_capacity.py.  A journal is a SQL table whose rows are never
    changed or removed, and a singleton policy row with the limits; the insert
    trigger creates the policy row lazily and counts what is actually stored.
    [retention] holds what differs between the three.  Stored texts are JSON in
    ASCII, so a text's length is its UTF-8 size.  That the triggers and tables
    are installed and unmodified is a check of the database's catalogue and is
    not modelled. *)

From stdpp Require Import base list gmap strings.
From Stdlib Require Import ZArith Lia.
From S2P Require Import Prelude.

#[local] Open Scope Z_scope.

Record limits := mkLimits {
  max_records : Z;
  max_bytes : Z;
  max_entry_bytes : Z;
}.

#[global] Instance limits_eq_dec : EqDecision limits.
Proof. solve_decision. Defined.

(** Defaults, ceilings, the module's exception and its messages; whether the
    trigger measures the largest stored row or only the new one, and which row
    keys the trigger accepts. *)
Record retention (K : Type) := mkRetention {
  defaults : limits;
  ceilings : limits;
  refused : string → pyexn;
  what : string;
  entry_name : string;
  duplicate : string;
  largest_counts : bool;
  key_ok : K → bool;
}.
Arguments mkRetention {K} _ _ _ _ _ _ _ _.
Arguments defaults {K} _.
Arguments ceilings {K} _.
Arguments refused {K} _ _.
Arguments what {K} _.
Arguments entry_name {K} _.
Arguments duplicate {K} _.
Arguments largest_counts {K} _.
Arguments key_ok {K} _ _.

(** The signing journal: rows are (domain, revision). *)
Definition signing_retention : retention (string * Z) :=
  mkRetention (mkLimits 10000 67108864 262144) (mkLimits 100000 536870912 1048576)
    SigningJournalCapacityDenied "signing journal" "signing revision entry" "signing journal revision already exists" false
    (fun k => bool_decide (k.1 ∈ ["destination"; "readback"]) && (1 <=? k.2) && (k.2 <=? 2147483647)).

(** Saved audit checkpoints: rows are sequence numbers. *)
Definition checkpoint_retention : retention Z :=
  mkRetention (mkLimits 10000 16777216 8192) (mkLimits 100000 134217728 65536)
    CheckpointCapacityDenied "checkpoint" "checkpoint entry" "checkpoint sequence already exists" false
    (fun n => 0 <=? n).

(** Reconciliation bundles: rows are (agent, operation). *)
Definition evidence_retention : retention (string * string) :=
  mkRetention (mkLimits 100000 67108864 262144) (mkLimits 1000000 1073741824 1048576)
    EvidenceCapacityDenied "evidence" "evidence entry" "evidence identity already exists" true (fun _ => true).

Record table (K : Type) := mkTable {
  rows : list (K * string);
  policy_row : option limits;
}.
Arguments mkTable {K} _ _.
Arguments rows {K} _.
Arguments policy_row {K} _.

Section retained.
Context {K : Type} `{EqDecision K} (r : retention K).
Implicit Types t : table K.

Definition in_range (x hi : Z) : bool := (1 <=? x) && (x <=? hi).

(** [__post_init__] of the limits. *)
Definition limits_ok (l : limits) : bool :=
  in_range (max_records l) (max_records (ceilings r)) && in_range (max_bytes l) (max_bytes (ceilings r)) &&
  in_range (max_entry_bytes l) (max_entry_bytes (ceilings r)).

Definition make_limits (l : limits) : outcome limits :=
  _ ← guard_or (limits_ok l) (refused r ("positive bounded " +:+ what r +:+ " capacity required"));
  _ ← guard_or (max_entry_bytes l <=? max_bytes l) (refused r (entry_name r +:+ " exceeds retained capacity"));
  Ok l.

(** What is stored, in rows and bytes, and the largest row. *)
Definition used_records t : Z := Z.of_nat (length (rows t)).
Definition used_bytes t : Z := foldr Z.add 0 (strlen ∘ snd <$> rows t).
Definition largest_bytes t : Z := foldr Z.max 0 (strlen ∘ snd <$> rows t).

(** [_policy] and [_read_policy]. *)
Definition read_policy t : outcome (option limits) :=
  match policy_row t with
  | None => Ok None
  | Some l => Some <$> make_limits l
  end.

Definition limits_in_force t : limits := default (defaults r) (policy_row t).

Definition reached : string := "retained " +:+ what r +:+ " capacity reached".

(** [INSERT] with its triggers: the duplicate check, then, after the insert, the
    lazily created policy, the row's own columns and the limits.  The policy
    table's CHECK constraints keep its limits in range, which some of the triggers
    test again.  A raise undoes the statement. *)
Definition insert_row (k : K) (text : string) : M (table K) unit := fun t =>
  if bool_decide (k ∈ (rows t).*1) then (Raise (IntegrityError (duplicate r)), t)
  else
    let l := limits_in_force t in
    let t' := mkTable (rows t ++ [(k, text)]) (Some l) in
    if negb (key_ok r k) then (Raise (IntegrityError ("invalid " +:+ what r +:+ " capacity policy or row")), t)
    else if (max_records l <? used_records t') || (max_bytes l <? used_bytes t') ||
            (max_entry_bytes l <? if largest_counts r then largest_bytes t' else strlen text)
    then (Raise (IntegrityError reached), t)
    else (Ok tt, t').

(** [admit]: the managed writer's own check, before the insert. *)
Definition admit_row (text : string) : M (table K) unit :=
  t ← get;
  current ← lift (read_policy t);
  let l := default (defaults r) current in
  ensure (negb ((max_entry_bytes l <? strlen text) || (max_records l <? used_records t + 1) ||
                (max_bytes l <? used_bytes t + strlen text)))
         (refused r reached).

(** [policy(store, limits=..., audit=...)]: create the row if it is missing,
    optionally change the limits and audit the change; never touches history. *)
Definition policy {S} `{!Lens S (table K)} (change : option limits) (audit : M S unit) : M S (limits * Z * Z) :=
  atomic (
    s ← get;
    current ← lift (read_policy (view s));
    let l := default (default (defaults r) current) change in
    _ ← put (update (mkTable (rows (view s)) (Some l)) s);
    _ ← when (bool_decide (is_Some change)) audit;
    s' ← get;
    after ← lift (read_policy (view s'));
    mret (default l after, used_records (view s'), used_bytes (view s'))).

(** [set_capacity]: the limits are validated first. *)
Definition set_capacity {S} `{!Lens S (table K)} (l : limits) (audit : M S unit) : M S (limits * Z * Z) :=
  l' ← lift (make_limits l);
  policy (Some l') audit.

(** ** Lemmas *)

Lemma used_bytes_snoc l p k x : used_bytes (mkTable (l ++ [(k, x)]) p) = used_bytes (mkTable l p) + strlen x.
Proof. unfold used_bytes. cbn [rows]. rewrite fmap_app. csimpl. unfold compose. cbn [snd]. induction ((fun p => strlen p.2) <$> l); simpl; lia. Qed.

Lemma used_records_snoc l p k x : used_records (mkTable (l ++ [(k, x)]) p) = used_records (mkTable l p) + 1.
Proof. unfold used_records. simpl. rewrite length_app. simpl. lia. Qed.

Lemma insert_row_inv k x t u t' :
  insert_row k x t = (Ok u, t') →
  k ∉ (rows t).*1 ∧ key_ok r k = true ∧ t' = mkTable (rows t ++ [(k, x)]) (Some (limits_in_force t)) ∧
  used_records t' ≤ max_records (limits_in_force t) ∧ used_bytes t' ≤ max_bytes (limits_in_force t) ∧
  strlen x ≤ max_entry_bytes (limits_in_force t).
Proof.
  unfold insert_row. case_bool_decide as Hk; [done|]. destruct (key_ok r k) eqn:Hok; [|done]. cbn [negb].
  destruct (_ || _ || _) eqn:Hb; [done|]. intros [= <- <-].
  apply orb_false_iff in Hb as [[Hr%Z.ltb_ge Hy%Z.ltb_ge]%orb_false_iff Hm%Z.ltb_ge]. split_and!; [done..|].
  destruct (largest_counts r); [|done]. etrans; [|exact Hm].
  unfold largest_bytes. cbn [rows]. rewrite fmap_app. csimpl. unfold compose. cbn [snd]. clear.
  induction ((fun p => strlen p.2) <$> rows t); simpl; lia.
Qed.

Lemma insert_row_raise k x t e t' : insert_row k x t = (Raise e, t') → t' = t.
Proof.
  unfold insert_row. case_bool_decide; [by intros [= _ <-]|]. destruct (negb _); [by intros [= _ <-]|].
  destruct (_ || _ || _); [by intros [= _ <-]|done].
Qed.

(** The managed writer's check is the trigger's, for journals that measure the
    new row. *)
Lemma admitted_row_inserts k x t t' :
  largest_counts r = false → admit_row x t = (Ok tt, t') →
  t' = t ∧ (k ∉ (rows t).*1 → key_ok r k = true →
    insert_row k x t = (Ok tt, mkTable (rows t ++ [(k, x)]) (Some (limits_in_force t)))).
Proof.
  intros Hl Ha. unfold admit_row in Ha. rewrite run_get in Ha. apply bind_Ok_inv in Ha as (cur & s1 & Hp & Ha).
  apply lift_Ok_inv in Hp as [Hp ->]. apply ensure_Ok_inv in Ha as [Hb%negb_true_iff ->]. split; [done|]. intros Hk Hok.
  assert (default (defaults r) cur = limits_in_force t) as Hd.
  { unfold read_policy, limits_in_force in *. destruct (policy_row t) as [l|]; [|by injection Hp as <-].
    unfold make_limits in Hp. destruct (limits_ok l); [|done]. cbn in Hp. destruct (max_entry_bytes l <=? max_bytes l); [|done].
    by injection Hp as <-. }
  rewrite Hd in Hb. unfold insert_row. rewrite bool_decide_eq_false_2, Hok, Hl by done. cbn [negb].
  rewrite used_records_snoc, used_bytes_snoc.
  apply orb_false_iff in Hb as [[H1%Z.ltb_ge H2%Z.ltb_ge]%orb_false_iff H3%Z.ltb_ge].
  rewrite !(proj2 (Z.ltb_ge _ _)); [done|..]; unfold used_bytes, used_records in *; cbn [rows]; lia.
Qed.

Lemma policy_keeps_rows {S} `{!Lens S (table K)} change (audit : M S unit) s :
  (∀ s, rows (view (audit s).2) = rows (view s)) → rows (view (policy change audit s).2) = rows (view s).
Proof.
  intros Ha. destruct (policy change audit s) as [[x|e] s'] eqn:Hp; cbn [snd].
  - apply (proj1 (atomic_Ok _ _ _ _)) in Hp. rewrite run_get in Hp.
    apply bind_Ok_inv in Hp as (cur & s1 & Hc & Hp). apply lift_Ok_inv in Hc as [_ ->].
    apply bind_Ok_inv in Hp as (u & s1 & Hu & Hp). apply put_Ok_inv in Hu as ->.
    apply bind_Ok_inv in Hp as (u2 & s1 & Hau & Hp). rewrite run_get in Hp.
    apply bind_Ok_inv in Hp as (l & s2 & Hl & Hp). apply lift_Ok_inv in Hl as [_ ->]. apply mret_Ok_inv in Hp as [_ ->].
    destruct (bool_decide (is_Some change)); cbn [when] in Hau.
    + match type of Hau with _ ?s0 = _ => pose proof (Ha s0) as Hr end. rewrite Hau in Hr. cbn [snd] in Hr.
      rewrite Hr, view_update. done.
    + apply mret_Ok_inv in Hau as [_ ->]. by rewrite view_update.
  - apply atomic_Raise in Hp. by rewrite Hp.
Qed.
End retained.

(** ** The three journals *)

Definition insert_revision : string * Z → string → M (table (string * Z)) unit := insert_row signing_retention.
Definition insert_checkpoint : Z → string → M (table Z) unit := insert_row checkpoint_retention.
Definition insert_bundle : string * string → string → M (table (string * string)) unit := insert_row evidence_retention.

Definition checkpoint_policy {S} `{!Lens S (table Z)} : option limits → M S unit → M S (limits * Z * Z) :=
  policy checkpoint_retention.
Definition evidence_policy {S} `{!Lens S (table (string * string))} : option limits → M S unit → M S (limits * Z * Z) :=
  policy evidence_retention.
