(* ===== verification/Protocols.v ===== *)
(** * Protocol adapters and the canonical hub

    Models src/protocols/canonical.py, base.py, mcp.py, a2a.py, acp.py,
    openai_fc.py, gemini.py, agntcy_acp.py and registry.py.  A wire is a [json]
    value; generated identifiers are arguments.  Where Python would raise
    [AttributeError] or [TypeError] on a value of the wrong shape, so does the
    model. *)

From stdpp Require Import base list gmap strings.
From Stdlib Require Import ZArith Lia.
From S2P Require Import Prelude PyFloat Json.

Record CanonicalCall := mkCall {
  capability : string;
  arguments : list (string * json);
  text : option string;
  call_id : string;
  source_protocol : option string;
}.

Record CanonicalResult := mkResult {
  content : list (list (string * json));
  is_error : bool;
  metadata : list (string * json);
}.

(** [CanonicalCall(...)] with [__post_init__]'s checks. *)
Definition canonical_call (cap args txt : json) (cid proto : string) : outcome CanonicalCall :=
  match cap with
  | JStr c =>
      match args with
      | JObj a =>
          match txt with
          | JNull => Ok (mkCall c a None cid (Some proto))
          | JStr t => Ok (mkCall c a (Some t) cid (Some proto))
          | _ => Raise (ValueError "canonical text must be a string")
          end
      | _ => Raise (ValueError "canonical arguments must be a JSON object")
      end
  | _ => Raise (ValueError "canonical capability must be a string")
  end.

Definition text_block (t : json) : list (string * json) := [("type", JStr "text"); ("text", t)].

(** [CanonicalResult.from_text]. *)
Definition from_text (t : json) : CanonicalResult := mkResult [text_block t] false [].

(** [CanonicalResult.text]. *)
Definition result_text (r : CanonicalResult) : outcome string :=
  strip <$> join_text (obj_get "text" (JStr "") <$>
    filter (fun b => is_text "text" (obj_get "type" JNull b) = true) (content r)).

Definition type_name (j : json) : string :=
  match j with
  | JNull => "NoneType" | JBool _ => "bool" | JInt _ => "int" | JFloat _ => "float"
  | JStr _ => "str" | JArr _ => "list" | JObj _ => "dict"
  end.

(** [require_mapping]. *)
Definition require_mapping (wire : json) (proto what : string) : outcome (list (string * json)) :=
  match wire with
  | JObj m => Ok m
  | _ => Raise (MalformedWireError
      (proto +:+ ": expected a JSON object for the " +:+ what +:+ ", got " +:+ type_name wire))
  end.

(** [CanonicalCall.best_text]. *)
Definition best_text `{JsonText} (c : CanonicalCall) : string :=
  match text c with
  | Some (String _ _ as t) => t
  | _ =>
      match list_find (fun k => is_Some (dict_get k (arguments c)))
                      ["text"; "query"; "prompt"; "input"; "message"] with
      | Some (_, k) => py_str (obj_get k JNull (arguments c))
      | None =>
          match arguments c with
          | [] => capability c
          | (k, v) :: rest =>
              foldl (fun acc p => acc +:+ " " +:+ p.1 +:+ "=" +:+ py_str p.2)
                    (k +:+ "=" +:+ py_str v) rest
          end
      end
  end.

Section adapters.
Context `{JsonText}.

(** [if wire.get("id") is not None: call_id = str(wire["id"])]. *)
Definition id_or (gen : string) (m : list (string * json)) : string :=
  match obj_get "id" JNull m with JNull => gen | j => py_str j end.

(** [if wire.get("id"): call_id = str(wire["id"])]. *)
Definition truthy_id_or (gen : string) (m : list (string * json)) : string :=
  let j := obj_get "id" JNull m in if truthy j then py_str j else gen.
End adapters.

(** ** MCP *)
Module Mcp.
Section mcp.
Context `{JsonText}.

Definition to_canonical_call (gen : string) (wire : json) : outcome CanonicalCall :=
  m ← require_mapping wire "mcp" "request";
  _ ← guard_or (match dict_get "method" m with
                | Some j => is_text "tools/call" j
                | None => true
                end)
        (ValueError "only MCP tools/call has an explicitly supported canonical action");
  params ← require_mapping (obj_get "params" (JObj []) m) "mcp" "params";
  let args := match dict_get "arguments" params with
              | Some j => j
              | None => obj_get "input" (JObj []) params
              end in
  let args := if is_none args then JObj [] else args in
  let cap := py_or (obj_get "name" JNull params) (py_or (obj_get "tool" JNull params) (JStr "")) in
  canonical_call cap args JNull (id_or gen m) "mcp".

Definition from_canonical_call (c : CanonicalCall) : json :=
  JObj [("jsonrpc", JStr "2.0"); ("id", JStr (call_id c)); ("method", JStr "tools/call");
        ("params", JObj [("name", JStr (capability c)); ("arguments", JObj (arguments c))])].

Definition to_canonical_result (wire : json) : outcome CanonicalResult :=
  let result := match wire with JObj m => obj_get "result" wire m | _ => JObj [] end in
  c ← attr_get "content" JNull result;
  blocks ← py_iter (py_or c (JArr []));
  err ← attr_get "isError" (JBool false) result;
  let keep b := match b with
                | JObj m => match dict_get "text" m with Some t => Some (text_block t) | None => None end
                | _ => None
                end in
  Ok (mkResult (omap keep blocks) (truthy err) []).

Definition from_canonical_result (r : CanonicalResult) : outcome json :=
  Ok (JObj [("content", JArr ((fun b => JObj (text_block (obj_get "text" (JStr "") b))) <$> content r));
            ("isError", JBool (is_error r))]).
End mcp.
End Mcp.

(** ** A2A *)
Module A2a.
Section a2a.
Context `{JsonText}.

Definition messages (task : list (string * json)) : outcome (list json) :=
  let h := obj_get "history" JNull task in
  let ms := if is_none h then obj_get "messages" (JArr []) task else h in
  match ms with JArr l => Ok l | _ => Raise (ValueError "A2A task history must be a list") end.

Definition lifecycle_methods : list string := ["tasks/cancel"; "tasks/resubscribe"; "tasks/get"].

(** The running capability, arguments and text of the scan. *)
Definition acc : Type := json * json * json.

Definition scan_part (a : acc) (part : json) : outcome acc :=
  let '(cap, args, txt) := a in
  p ← require_mapping part "a2a" "part";
  if is_text "data" (obj_get "kind" JNull p) then
    data ← require_mapping (obj_get "data" (JObj []) p) "a2a" "data part";
    let name := py_or (obj_get "name" JNull data) (obj_get "tool_name" JNull data) in
    _ ← guard_or (negb (truthy name && truthy cap))
          (ValueError "multiple tool actions cannot be represented as one call");
    Ok (py_or name cap, obj_get "arguments" args data, txt)
  else if is_text "text" (obj_get "kind" JNull p) && is_none txt
  then Ok (cap, args, obj_get "text" JNull p)
  else Ok a.

Fixpoint scan_parts (a : acc) (parts : list json) : outcome acc :=
  match parts with [] => Ok a | p :: ps => a' ← scan_part a p; scan_parts a' ps end.

Fixpoint scan_messages (a : acc) (msgs : list json) : outcome acc :=
  match msgs with
  | [] => Ok a
  | msg :: msgs' =>
      m ← require_mapping msg "a2a" "message";
      match obj_get "parts" (JArr []) m with
      | JArr parts => a' ← scan_parts a parts; scan_messages a' msgs'
      | _ => Raise (ValueError "A2A message parts must be a list")
      end
  end.

Definition to_canonical_call (gen : string) (wire : json) : outcome CanonicalCall :=
  m ← require_mapping wire "a2a" "request";
  let method := obj_get "method" JNull m in
  _ ← guard_or (negb (existsb (fun s => is_text s method) lifecycle_methods))
        (ValueError "A2A lifecycle methods are not canonical action calls");
  _ ← guard_or (is_none method || is_text "tasks/send" method)
        (ValueError "unsupported A2A method: only tasks/send tool actions");
  let task := match dict_get "params" m with
              | Some (JObj p) => match dict_get "task" p with Some t => t | None => wire end
              | _ => wire
              end in
  match task with
  | JObj t =>
      _ ← (match dict_get "status" t with
           | None => Ok tt
           | Some (JObj st) =>
               let state := obj_get "state" JNull st in
               guard_or (is_none state || is_text "submitted" state)
                 (ValueError "A2A lifecycle state not supported as new action")
           | Some _ => Raise (ValueError "A2A lifecycle status must be an object")
           end);
      msgs ← messages t;
      '(cap, args, txt) ← scan_messages (JStr "", JObj [], JNull) msgs;
      canonical_call cap args txt (id_or gen m) "a2a"
  | _ => Raise (ValueError "A2A task must be an object")
  end.

Definition text_or (c : CanonicalCall) : string :=
  match text c with Some (String _ _ as t) => t | _ => "call: " +:+ capability c end.

(** [ctx] and [msg] are the generated context and message ids. *)
Definition from_canonical_call (ctx msg : string) (c : CanonicalCall) : json :=
  let parts := JObj [("kind", JStr "text"); ("text", JStr (text_or c))] ::
    (if bool_decide (capability c = "") then []
     else [JObj [("kind", JStr "data");
                 ("data", JObj [("name", JStr (capability c)); ("arguments", JObj (arguments c))])]]) in
  JObj [("id", JStr (call_id c)); ("contextId", JStr ctx); ("kind", JStr "task");
        ("status", JObj [("state", JStr "submitted")]);
        ("history", JArr [JObj [("kind", JStr "message"); ("messageId", JStr msg);
                                ("role", JStr "agent"); ("parts", JArr parts)]]);
        ("metadata", JObj [("source_protocol",
                            match source_protocol c with Some p => JStr p | None => JNull end)])].

Fixpoint collect_texts (parts : list json) : outcome (list json) :=
  match parts with
  | [] => Ok []
  | p :: ps =>
      k ← attr_get "kind" JNull p;
      if is_text "text" k then
        t ← attr_get "text" (JStr "") p; rest ← collect_texts ps; Ok (t :: rest)
      else collect_texts ps
  end.

Definition to_canonical_result (wire : json) : outcome CanonicalResult :=
  parts ← (match wire with JObj m => py_iter (obj_get "parts" (JArr []) m) | _ => Ok [] end);
  texts ← collect_texts parts;
  t ← join_text texts;
  Ok (from_text (JStr t)).

Definition from_canonical_result (msg : string) (r : CanonicalResult) : outcome json :=
  t ← result_text r;
  Ok (JObj [("kind", JStr "message"); ("messageId", JStr msg); ("role", JStr "agent");
            ("parts", JArr [JObj [("kind", JStr "text"); ("text", JStr t)]])]).
End a2a.
End A2a.

(** ** ACP (BeeAI) *)
Module Acp.
Section acp.
Context `{JsonText}.

Definition iter_parts (msg : json) : outcome (list json) :=
  match msg with JObj m => py_iter (obj_get "parts" (JArr []) m) | _ => Ok [] end.

(** [ctype.startswith("text/")]. *)
Definition text_type (ctype : json) : outcome bool :=
  match ctype with
  | JStr s => Ok (String.prefix "text/" s)
  | _ => Raise (AttributeError "object has no attribute 'startswith'")
  end.

(** [json.loads(content)] on a value of any type. *)
Definition loads_any (j : json) : outcome json :=
  match j with JStr s => json_loads s | _ => Raise (TypeError "the JSON object must be str") end.

(** One part.  The [try] block makes both assignments or, on any exception,
    none. *)
Definition scan_part (a : json * json * json) (part : json) : outcome (json * json * json) :=
  let '(cap, args, txt) := a in
  ctype ← attr_get "content_type" (JStr "") part;
  body ← attr_get "content" (JStr "") part;
  if is_text "application/json" ctype then
    match (data ← loads_any body; cap' ← attr_get "name" cap data;
           args' ← attr_get "arguments" args data; Ok (cap', args')) with
    | Ok (cap', args') => Ok (cap', args', txt)
    | Raise _ => Ok a
    end
  else
    b ← text_type ctype;
    if b && is_none txt then Ok (cap, args, body) else Ok a.

Fixpoint scan_parts (a : json * json * json) (parts : list json) : outcome (json * json * json) :=
  match parts with [] => Ok a | p :: ps => a' ← scan_part a p; scan_parts a' ps end.

Fixpoint scan_messages (a : json * json * json) (msgs : list json) : outcome (json * json * json) :=
  match msgs with
  | [] => Ok a
  | m :: ms => parts ← iter_parts m; a' ← scan_parts a parts; scan_messages a' ms
  end.

Definition to_canonical_call (gen : string) (wire : json) : outcome CanonicalCall :=
  m ← require_mapping wire "acp" "request";
  msgs ← (match dict_get "input" m with
          | Some j => py_iter j
          | None => match dict_get "parts" m with Some _ => Ok [wire] | None => Ok [] end
          end);
  '(cap, args, txt) ← scan_messages (obj_get "agent_name" (JStr "") m, JObj [], JNull) msgs;
  canonical_call cap args txt gen "acp".

Definition from_canonical_call (c : CanonicalCall) : json :=
  let parts := JObj [("content_type", JStr "application/json");
      ("content", JStr (json_dumps (JObj [("name", JStr (capability c));
                                          ("arguments", JObj (arguments c))])))] ::
    (match text c with
     | Some (String _ _ as t) => [JObj [("content_type", JStr "text/plain"); ("content", JStr t)]]
     | _ => []
     end) in
  JObj [("agent_name", JStr (if bool_decide (capability c = "") then "agent" else capability c));
        ("input", JArr [JObj [("role", JStr "user"); ("parts", JArr parts)]])].

Fixpoint text_parts (parts : list json) : outcome (list json) :=
  match parts with
  | [] => Ok []
  | p :: ps =>
      ctype ← attr_get "content_type" (JStr "") p;
      b ← text_type ctype;
      if (b : bool) then c ← attr_get "content" (JStr "") p; rest ← text_parts ps; Ok (c :: rest)
      else text_parts ps
  end.

Fixpoint text_messages (msgs : list json) : outcome (list json) :=
  match msgs with
  | [] => Ok []
  | m :: ms => parts ← iter_parts m; a ← text_parts parts; rest ← text_messages ms; Ok (a ++ rest)
  end.

Definition to_canonical_result (wire : json) : outcome CanonicalResult :=
  msgs ← (match wire with
          | JObj m => match dict_get "output" m with
                      | Some j => py_iter j
                      | None => match dict_get "parts" m with Some _ => Ok [wire] | None => Ok [] end
                      end
          | _ => Ok []
          end);
  texts ← text_messages msgs;
  t ← join_text texts;
  Ok (from_text (JStr t)).

Definition from_canonical_result (r : CanonicalResult) : outcome json :=
  t ← result_text r;
  Ok (JObj [("role", JStr "agent");
            ("parts", JArr [JObj [("content_type", JStr "text/plain"); ("content", JStr t)]])]).
End acp.
End Acp.

(** ** OpenAI function calls *)
Module OpenAI.
Section openai.
Context `{JsonText}.

Definition to_canonical_call (gen : string) (wire : json) : outcome CanonicalCall :=
  m ← require_mapping wire "openai" "request";
  let fn := py_or (obj_get "function" (JObj []) m) (JObj []) in
  raw ← attr_get "arguments" (JStr "{}") fn;
  let args := match raw with
              | JStr s => match json_loads s with Ok j => j | Raise _ => JObj [] end
              | j => py_or j (JObj [])
              end in
  cap ← attr_get "name" (JStr "") fn;
  canonical_call cap args JNull (truthy_id_or gen m) "openai".

Definition from_canonical_call (c : CanonicalCall) : json :=
  JObj [("id", JStr (call_id c)); ("type", JStr "function");
        ("function", JObj [("name", JStr (capability c));
                           ("arguments", JStr (json_dumps (JObj (arguments c))))])].

Definition to_canonical_result (wire : json) : outcome CanonicalResult :=
  let c := match wire with JObj m => obj_get "content" (JStr "") m | _ => JStr "" end in
  Ok (from_text (JStr (py_str c))).

Definition from_canonical_result (r : CanonicalResult) : outcome json :=
  t ← result_text r;
  Ok (JObj [("role", JStr "tool"); ("tool_call_id", obj_get "tool_call_id" (JStr "") (metadata r));
            ("content", JStr t)]).
End openai.
End OpenAI.

(** ** Gemini function calls *)
Module Gemini.
Section gemini.
Context `{JsonText}.

Definition to_canonical_call (gen : string) (wire : json) : outcome CanonicalCall :=
  m ← require_mapping wire "gemini" "request";
  canonical_call (obj_get "name" (JStr "") m) (py_or (obj_get "args" (JObj []) m) (JObj []))
    JNull (truthy_id_or gen m) "gemini".

Definition from_canonical_call (c : CanonicalCall) : json :=
  JObj [("name", JStr (capability c)); ("args", JObj (arguments c))].

Definition to_canonical_result (wire : json) : outcome CanonicalResult :=
  let response := match wire with JObj m => obj_get "response" (JObj []) m | _ => JObj [] end in
  a ← attr_get "result" JNull response;
  b ← attr_get "content" JNull response;
  Ok (from_text (JStr (py_str (py_or a (py_or b (JStr "")))))).

Definition from_canonical_result (r : CanonicalResult) : outcome json :=
  t ← result_text r;
  Ok (JObj [("name", obj_get "name" (JStr "result") (metadata r));
            ("response", JObj [("result", JStr t)])]).
End gemini.
End Gemini.

(** ** AGNTCY *)
Module Agntcy.
Section agntcy.
Context `{JsonText}.

Definition messages (wire : json) : outcome (list json) :=
  match wire with
  | JObj m =>
      let bare := match dict_get "messages" m with
                  | Some j => py_iter j
                  | None => match dict_get "role" m with Some _ => Ok [wire] | None => Ok [] end
                  end in
      match obj_get "input" (JObj []) m with
      | JObj i => match dict_get "messages" i with Some j => py_iter j | None => bare end
      | _ => bare
      end
  | _ => Ok []
  end.

(** [_text_of]. *)
Definition text_of (c : json) : json :=
  match c with
  | JObj m => obj_get "text" (JStr "") m
  | JStr s => JStr s
  | _ => JStr ""
  end.

Definition scan_message (a : json * json * json) (msg : json) : outcome (json * json * json) :=
  let '(cap, args, txt) := a in
  c ← attr_get "content" JNull msg;
  let raw := text_of c in
  match Acp.loads_any raw with
  | Ok (JObj data) =>
      if dict_mem "name" data
      then Ok (obj_get "name" cap data, obj_get "arguments" args data, txt)
      else Ok (if truthy raw && is_none txt then (cap, args, raw) else a)
  | _ => Ok (if truthy raw && is_none txt then (cap, args, raw) else a)
  end.

Fixpoint scan_messages (a : json * json * json) (msgs : list json) : outcome (json * json * json) :=
  match msgs with [] => Ok a | m :: ms => a' ← scan_message a m; scan_messages a' ms end.

Definition to_canonical_call (gen : string) (wire : json) : outcome CanonicalCall :=
  m ← require_mapping wire "agntcy" "request";
  msgs ← messages wire;
  '(cap, args, txt) ← scan_messages (obj_get "agent_id" (JStr "") m, JObj [], JNull) msgs;
  canonical_call cap args txt gen "agntcy".

Definition from_canonical_call (c : CanonicalCall) : json :=
  let block := JObj (text_block (JStr (json_dumps (JObj [("name", JStr (capability c));
                                                         ("arguments", JObj (arguments c))])))) in
  JObj [("agent_id", JStr (if bool_decide (capability c = "") then "agent" else capability c));
        ("input", JObj [("messages", JArr [JObj [("role", JStr "user"); ("content", block)]])])].

Fixpoint message_texts (msgs : list json) : outcome (list json) :=
  match msgs with
  | [] => Ok []
  | m :: ms => c ← attr_get "content" JNull m; rest ← message_texts ms; Ok (text_of c :: rest)
  end.

Definition to_canonical_result (wire : json) : outcome CanonicalResult :=
  msgs ← messages wire;
  let msgs := match msgs, wire with
              | [], JObj m => if dict_mem "content" m then [wire] else []
              | _, _ => msgs
              end in
  texts ← message_texts msgs;
  t ← join_text (filter (fun j => truthy j = true) texts);
  Ok (from_text (JStr t)).

Definition from_canonical_result (r : CanonicalResult) : outcome json :=
  t ← result_text r;
  Ok (JObj [("role", JStr "assistant"); ("content", JObj (text_block (JStr t)))]).
End agntcy.
End Agntcy.

(** ** The registry *)

(** The adapters [_build_default] registers, under their [name]s. *)
Inductive adapter := mcp | a2a | acp | openai | gemini | agntcy.

#[global] Instance adapter_eq_dec : EqDecision adapter.
Proof. solve_decision. Defined.

Definition adapter_name (a : adapter) : string :=
  match a with
  | mcp => "mcp" | a2a => "a2a" | acp => "acp"
  | openai => "openai" | gemini => "gemini" | agntcy => "agntcy"
  end.

Definition default_registry : list (string * adapter) :=
  (fun a => (adapter_name a, a)) <$> [mcp; a2a; acp; openai; gemini; agntcy].

(** Identifiers generated while rendering. *)
Record ids := mkIds { gen_call : string; gen_ctx : string; gen_msg : string }.

Section registry.
Context `{JsonText}.

Definition to_canonical_call (a : adapter) (gen : string) (wire : json) : outcome CanonicalCall :=
  match a with
  | mcp => Mcp.to_canonical_call gen wire
  | a2a => A2a.to_canonical_call gen wire
  | acp => Acp.to_canonical_call gen wire
  | openai => OpenAI.to_canonical_call gen wire
  | gemini => Gemini.to_canonical_call gen wire
  | agntcy => Agntcy.to_canonical_call gen wire
  end.

Definition from_canonical_call (a : adapter) (i : ids) (c : CanonicalCall) : json :=
  match a with
  | mcp => Mcp.from_canonical_call c
  | a2a => A2a.from_canonical_call (gen_ctx i) (gen_msg i) c
  | acp => Acp.from_canonical_call c
  | openai => OpenAI.from_canonical_call c
  | gemini => Gemini.from_canonical_call c
  | agntcy => Agntcy.from_canonical_call c
  end.

Definition to_canonical_result (a : adapter) (wire : json) : outcome CanonicalResult :=
  match a with
  | mcp => Mcp.to_canonical_result wire
  | a2a => A2a.to_canonical_result wire
  | acp => Acp.to_canonical_result wire
  | openai => OpenAI.to_canonical_result wire
  | gemini => Gemini.to_canonical_result wire
  | agntcy => Agntcy.to_canonical_result wire
  end.

Definition from_canonical_result (a : adapter) (i : ids) (r : CanonicalResult) : outcome json :=
  match a with
  | mcp => Mcp.from_canonical_result r
  | a2a => A2a.from_canonical_result (gen_msg i) r
  | acp => Acp.from_canonical_result r
  | openai => OpenAI.from_canonical_result r
  | gemini => Gemini.from_canonical_result r
  | agntcy => Agntcy.from_canonical_result r
  end.

(** [ProtocolRegistry.get]. *)
Definition get_adapter (reg : list (string * adapter)) (name : string) : outcome adapter :=
  match dict_get name reg with
  | Some a => Ok a
  | None => Raise (KeyError ("Unknown protocol '" +:+ name +:+ "'."))
  end.

(** [if not (capability or text or arguments): raise]. *)
Definition routable (c : CanonicalCall) : bool :=
  negb (bool_decide (capability c = "")) ||
  match text c with Some (String _ _) => true | _ => false end ||
  negb (bool_decide (length (arguments c) = 0%nat)).

Definition translate_call (reg : list (string * adapter)) (i : ids) (wire : json) (src dst : string)
  : outcome json :=
  a ← get_adapter reg src;
  c ← to_canonical_call a (gen_call i) wire;
  _ ← guard_or (routable c)
        (MalformedWireError (src +:+ ": could not extract a capability, arguments, or text from the request"));
  b ← get_adapter reg dst;
  Ok (from_canonical_call b i c).

Definition translate_result (reg : list (string * adapter)) (i : ids) (wire : json) (src dst : string)
  : outcome json :=
  a ← get_adapter reg src;
  r ← to_canonical_result a wire;
  b ← get_adapter reg dst;
  from_canonical_result b i r.

(** ** Any-to-any translation *)

(** The arguments of a call form a Python [dict]. *)
Definition call_wf (c : CanonicalCall) : bool := json_wf (JObj (arguments c)).

Lemma action_wf c : call_wf c = true →
  json_wf (JObj [("name", JStr (capability c)); ("arguments", JObj (arguments c))]) = true.
Proof. unfold call_wf. intros Hw. cbn -[json_wf]. simpl in *. by rewrite Hw. Qed.

Lemma py_or_str s : py_or (JStr s) (JStr "") = JStr s.
Proof. unfold py_or. simpl. by case_bool_decide; subst. Qed.

(** What each adapter reads back from its own rendering. *)
Lemma roundtrip a i c gen :
  call_wf c = true → capability c ≠ "" →
  ∃ c', to_canonical_call a gen (from_canonical_call a i c) = Ok c' ∧
        capability c' = capability c ∧ arguments c' = arguments c.
Proof.
  intros Hw Hc. destruct a; simpl.
  - unfold Mcp.to_canonical_call, Mcp.from_canonical_call. simpl.
    unfold py_or at 1. simpl. rewrite bool_decide_eq_false_2 by done. simpl. by eexists.
  - unfold A2a.to_canonical_call, A2a.from_canonical_call. simpl.
    rewrite bool_decide_eq_false_2 by done. simpl. unfold py_or. simpl.
    rewrite !(bool_decide_eq_false_2 (capability c = "")) by done. simpl.
    rewrite !(bool_decide_eq_false_2 (capability c = "")) by done. simpl. by eexists.
  - unfold Acp.to_canonical_call, Acp.from_canonical_call. simpl.
    rewrite loads_dumps by (by apply action_wf). simpl.
    destruct (text c) as [[]|]; simpl; by eexists.
  - unfold OpenAI.to_canonical_call, OpenAI.from_canonical_call. simpl.
    rewrite loads_dumps by done. by eexists.
  - unfold Gemini.to_canonical_call, Gemini.from_canonical_call. simpl.
    unfold py_or. simpl. case_bool_decide as Hl; simpl; eexists; (split; [done|]); simpl.
    + by destruct (arguments c).
    + done.
  - unfold Agntcy.to_canonical_call, Agntcy.from_canonical_call. simpl.
    rewrite loads_dumps by (by apply action_wf). simpl. by eexists.
Qed.

Lemma get_adapter_default a : get_adapter default_registry (adapter_name a) = Ok a.
Proof. by destruct a. Qed.
End registry.

(** C21: any-to-any translation keeps the action.  For every pair of protocols
    in the default registry, a request that names a capability is
    rendered for the destination so that the destination's own adapter reads
    back the same capability and the same arguments. *)
Theorem translate_preserves_action `{JsonText} a b i wire gen c :
  to_canonical_call a (gen_call i) wire = Ok c → capability c ≠ "" → call_wf c = true →
  ∃ wire' c', translate_call default_registry i wire (adapter_name a) (adapter_name b) = Ok wire' ∧
    to_canonical_call b gen wire' = Ok c' ∧
    capability c' = capability c ∧ arguments c' = arguments c.
Proof.
  intros Hc Hcap Hw. destruct (roundtrip b i c gen Hw Hcap) as (c' & Hc' & ? & ?).
  exists (from_canonical_call b i c), c'. split_and!; [|done..].
  unfold translate_call. rewrite !get_adapter_default.
  cbn [mbind outcome_bind]. rewrite Hc. cbn [mbind outcome_bind]. unfold routable. rewrite bool_decide_eq_false_2 by done. done.
Qed.

(** A2A control messages never become actions.  A request whose method is
    not [tasks/send] (lifecycle, cancellation, subscription and unknown methods
    alike), or whose task is in a lifecycle state other than submitted, is
    refused by the adapter and so by every translation out of A2A. *)
Theorem a2a_control_refused `{JsonText} reg i m s dst :
  dict_get "a2a" reg = Some a2a →
  dict_get "method" m = Some (JStr s) ∧ s ≠ "tasks/send" ∨
  (dict_get "params" m = None ∧
   ∃ st, dict_get "status" m = Some (JObj [("state", JStr st)]) ∧ st ≠ "submitted") →
  ∃ why, translate_call reg i (JObj m) "a2a" dst = Raise (ValueError why).
Proof.
  intros Hreg Hm. unfold translate_call, get_adapter. rewrite Hreg. simpl.
  unfold A2a.to_canonical_call. cbn [require_mapping mbind outcome_bind].
  unfold obj_get. destruct Hm as [[-> Hs]|(Hp & st & Hst & Hne)]; simpl.
  - destruct (_ || _); simpl; [by eexists|].
    rewrite bool_decide_eq_false_2 by done. by eexists.
  - destruct (guard_or (negb _) _) as [[]|] eqn:Hg1; simpl.
    2:{ unfold guard_or in Hg1. case_match; simplify_eq. by eexists. }
    destruct (guard_or (is_none _ || _) _) as [[]|] eqn:Hg2; simpl.
    2:{ unfold guard_or in Hg2. case_match; simplify_eq. by eexists. }
    rewrite Hp, Hst. simpl. rewrite bool_decide_eq_false_2 by done. by eexists.
Qed.

(** ** Examples *)

Definition demo_ids : ids := mkIds "call_1" "ctx_1" "msg_1".

Definition demo_wire : json :=
  JObj [("id", JInt 7); ("method", JStr "tools/call");
        ("params", JObj [("name", JStr "search"); ("arguments", JObj [("q", JStr "x")])])].

Definition demo_action : CanonicalCall :=
  mkCall "search" [("q", JStr "x")] None (py_str (JInt 7)) (Some "mcp").

Lemma translate_preserves_action_witness :
  ∃ wire' c', translate_call default_registry demo_ids demo_wire "mcp" "agntcy" = Ok wire' ∧
    to_canonical_call agntcy "g" wire' = Ok c' ∧
    capability c' = "search" ∧ arguments c' = [("q", JStr "x")].
Proof.
  apply (translate_preserves_action mcp agntcy demo_ids demo_wire "g" demo_action);
    [reflexivity|discriminate|vm_compute; reflexivity].
Defined.

Lemma a2a_control_refused_witness :
  ∃ why, translate_call default_registry demo_ids
    (JObj [("method", JStr "tasks/cancel"); ("id", JStr "t")]) "a2a" "mcp" = Raise (ValueError why).
Proof.
  apply (a2a_control_refused default_registry demo_ids
    [("method", JStr "tasks/cancel"); ("id", JStr "t")] "tasks/cancel" "mcp"); [reflexivity|].
  left. split; [reflexivity|discriminate].
Defined.
