(* ===== verification/InlineProxy.v ===== *)
(** * The in-line proxy

    [proxy/supported_action_boundary.py], [proxy/inline_proxy.py] and the
    normalising parts of [proxy/transport.py].  The protocol SDKs are a
    parameter, [sdk]: the model records the calls made to them, in order. *)

From stdpp Require Import base list strings.
From Stdlib Require Import ZArith Lia.
From S2P Require Import Prelude PyFloat Json Protocols.

(** A call to a live agent through its SDK. *)
Inductive remote_call :=
| McpTool (command : json) (args : json) (tool : json) (arguments : json)
| A2aMessage (base_url : json) (body : string) (proxy_url : json)
| AcpRun (base_url agent_name : json) (body : string) (proxy_url : json).

(** The part of an SDK's answer the code reads: the content blocks of a tool
    result, the JSON of an A2A response, the parts (type and content) of an ACP
    run with its JSON. *)
Inductive remote_reply :=
| ToolReply (blocks : list (option string * string * string)) (error : bool)
| A2aReply (data : list (string * json))
| AcpReply (parts : list (option string * option string)) (run : json).

(** [isinstance(wire, dict) and wire.get("method") == m]. *)
Definition has_method (m : string) (wire : json) : bool :=
  match wire with JObj o => is_text m (obj_get "method" JNull o) | _ => false end.

Section inline.
Context `{JsonText}.

(** ** The supported actions *)

Definition validated_a2a_tool_action (gen : string) (wire : json)
  : outcome (string * list (string * json)) :=
  _ ← guard_or (has_method "tasks/send" wire)
               (ValueError "unsupported A2A procedure: only scoped tasks/send tool actions");
  call ← A2a.to_canonical_call gen wire;
  _ ← guard_or (negb (bool_decide (strip (capability call) = "")))
               (ValueError "A2A request lacks explicit tool capability");
  Ok (capability call, arguments call).

Definition validated_mcp_tool_action (gen : string) (wire : json)
  : outcome (string * list (string * json)) :=
  _ ← guard_or (has_method "tools/call" wire) (ValueError "unsupported MCP procedure: only tools/call");
  call ← Mcp.to_canonical_call gen wire;
  _ ← guard_or (negb (bool_decide (strip (capability call) = "")))
               (ValueError "MCP request lacks explicit tool name");
  Ok (capability call, arguments call).

(** ** Transport *)

Context (sdk : remote_call → outcome remote_reply).

Definition invoke (c : remote_call) : M (list remote_call) remote_reply :=
  fun log => (sdk c, log ++ [c]).

(** [call_mcp_tool]: text blocks, and the texts alone. *)
Definition tool_block (b : option string * string * string) : json :=
  match b with
  | (Some t, _, _) => JObj [("type", JStr "text"); ("text", JStr t)]
  | (None, kind, repr) => JObj [("type", JStr kind); ("data", JStr repr)]
  end.

Definition tool_result (blocks : list (option string * string * string)) (error : bool) : json :=
  JObj [("isError", JBool error); ("content", JArr (tool_block <$> blocks));
        ("raw", JArr (JStr <$> omap (fun b => b.1.1) blocks))].

Definition call_mcp_tool (command args tool arguments : json) : M (list remote_call) json :=
  r ← invoke (McpTool command args tool arguments);
  match r with
  | ToolReply blocks error => mret (tool_result blocks error)
  | _ => raise (TypeError "tool result expected")
  end.

(** [_collect]: the text of a part, direct or under [root]. *)
Definition part_text (p : json) : option json :=
  match p with
  | JObj o =>
      if is_text "text" (obj_get "kind" JNull o) && dict_mem "text" o then dict_get "text" o
      else match dict_get "root" o with
           | Some (JObj root) =>
               if is_text "text" (obj_get "kind" JNull root) then Some (obj_get "text" (JStr "") root) else None
           | _ => None
           end
  | _ => None
  end.

Definition collect (parts : json) : outcome (list json) :=
  if truthy parts then omap (M := list) part_text <$> py_iter parts else Ok [].

Fixpoint collect_history (l : list json) : outcome (list json) :=
  match l with
  | [] => Ok []
  | m :: l =>
      a ← (match m with JObj o => collect (obj_get "parts" JNull o) | _ => Ok [] end);
      b ← collect_history l;
      Ok (a ++ b)
  end.

Definition reply_texts (result : json) : outcome (list json) :=
  match result with
  | JObj o =>
      a ← collect (obj_get "parts" JNull o);
      history ← (let h := obj_get "history" JNull o in if truthy h then py_iter h else Ok []);
      b ← collect_history history;
      Ok (a ++ b)
  | _ => Ok []
  end.

Definition send_a2a_message (base_url : json) (body : string) (proxy_url : json)
  : M (list remote_call) json :=
  r ← invoke (A2aMessage base_url body proxy_url);
  match r with
  | A2aReply data =>
      let result := obj_get "result" (JObj data) data in
      texts ← lift (reply_texts result);
      mret (JObj [("texts", JArr texts); ("raw", result)])
  | _ => raise (TypeError "message response expected")
  end.

Definition acp_text (p : option string * option string) : option json :=
  match p with
  | (ctype, Some (String _ _ as body)) =>
      if String.prefix "text/" (default "" ctype) then Some (JStr body) else None
  | _ => None
  end.

Definition call_acp_agent (base_url agent_name : json) (body : string) (proxy_url : json)
  : M (list remote_call) json :=
  r ← invoke (AcpRun base_url agent_name body proxy_url);
  match r with
  | AcpReply parts run => mret (JObj [("texts", JArr (omap acp_text parts)); ("raw", run)])
  | _ => raise (TypeError "run expected")
  end.

(** [target[k]]. *)
Definition required (k : string) (o : list (string * json)) : outcome json :=
  match dict_get k o with Some j => Ok j | None => Raise (KeyError k) end.

Definition invoke_target (reg : list (string * adapter)) (gen dst_proto : string)
    (dst_wire : list (string * json)) (target : list (string * json)) : M (list remote_call) json :=
  if bool_decide (length target = 0%nat) then mret (JObj [("translated_wire", JObj dst_wire)])
  else
    let kind := obj_get "kind" JNull target in
    let text_of : M (list remote_call) string :=
      a ← lift (get_adapter reg dst_proto);
      call ← lift (to_canonical_call a gen (JObj dst_wire));
      mret (best_text call) in
    let wrap (j : json) : json := JObj [("result", j)] in
    if is_text "mcp_stdio" kind then
      command ← lift (required "command" target);
      name ← lift (attr_get "name" JNull (obj_get "params" (JObj []) dst_wire));
      arguments ← lift (attr_get "arguments" (JObj []) (obj_get "params" (JObj []) dst_wire));
      res ← call_mcp_tool command (obj_get "args" (JArr []) target) name arguments;
      mret (wrap res)
    else if is_text "a2a_http" kind then
      message ← text_of;
      base ← lift (required "base_url" target);
      res ← send_a2a_message base message (obj_get "proxy_url" JNull target);
      mret (wrap res)
    else if is_text "acp_http" kind then
      base ← lift (required "base_url" target);
      message ← text_of;
      res ← call_acp_agent base (obj_get "agent_name" (JStr "agent") target) message
              (obj_get "proxy_url" JNull target);
      mret (wrap res)
    else raise (ValueError ("unknown target kind '" +:+ py_str kind +:+ "'")).

(** ** The two flows *)

(** [" ".join(d.get(k, []))]. *)
Definition joined_texts (k : string) (j : json) : outcome string :=
  v ← attr_get k (JArr []) j; l ← py_iter v; join_text l.

Definition a2a_request_to_mcp_agent (gen msg : string) (a2a_wire mcp_command mcp_args : json)
  : M (list remote_call) json :=
  '(tool_name, args) ← lift (validated_a2a_tool_action gen a2a_wire);
  _ ← ensure (negb (bool_decide (tool_name = "")))
             (ValueError "Could not extract an MCP tool name from the A2A request");
  mcp_result ← call_mcp_tool mcp_command mcp_args (JStr tool_name) (JObj args);
  body ← lift (joined_texts "raw" mcp_result);
  error ← lift (attr_get "isError" (JBool false) mcp_result);
  let reply := JObj [("kind", JStr "message"); ("messageId", JStr ("msg_" +:+ msg)); ("role", JStr "agent");
      ("parts", JArr [JObj [("kind", JStr "text"); ("text", JStr body)]]);
      ("metadata", JObj [("proxied_via", JStr "agentbridge"); ("source_protocol", JStr "mcp");
                         ("tool", JStr tool_name); ("isError", error)])] in
  mret (JObj [("a2a_message", reply); ("mcp_raw", mcp_result); ("tool", JStr tool_name);
              ("arguments", JObj args)]).

(** [" ".join(f"{k}={v}" ...)]. *)
Fixpoint pairs_text (args : list (string * json)) : string :=
  match args with
  | [] => EmptyString
  | [(k, v)] => k +:+ "=" +:+ py_str v
  | (k, v) :: rest => k +:+ "=" +:+ py_str v +:+ " " +:+ pairs_text rest
  end.

Definition message_of (tool_name : string) (args : list (string * json)) : string :=
  py_str (py_or (obj_get "text" JNull args) (py_or (obj_get "query" JNull args)
    (py_or (obj_get "prompt" JNull args) (py_or (JStr (pairs_text args)) (JStr tool_name))))).

Definition mcp_request_to_a2a_agent (gen : string) (mcp_request a2a_base_url : json)
  : M (list remote_call) json :=
  '(tool_name, args) ← lift (validated_mcp_tool_action gen mcp_request);
  let body := message_of tool_name args in
  a2a_result ← send_a2a_message a2a_base_url body JNull;
  reply_text ← lift (joined_texts "texts" a2a_result);
  id ← lift (attr_get "id" JNull mcp_request);
  raw ← lift (attr_get "raw" JNull a2a_result);
  let reply := JObj [("jsonrpc", JStr "2.0"); ("id", id);
      ("result", JObj [("content", JArr [JObj [("type", JStr "text"); ("text", JStr reply_text)]]);
                       ("isError", JBool false)])] in
  mret (JObj [("mcp_result", reply); ("a2a_raw", raw); ("sent_text", JStr body)]).

(** ** Theorems *)

(** The log of a flow: empty, or the one call [c]. *)
Definition at_most_once (c : remote_call) (log log' : list remote_call) : Prop :=
  log' = log ∨ log' = log ++ [c].

Lemma call_log {A} c (k : remote_reply → M (list remote_call) A) :
  (∀ r, reads (k r)) → ∀ log, ((invoke c ≫= k) log).2 = log ++ [c].
Proof.
  intros Hk log. rewrite run_bind. unfold invoke. destruct (sdk c) as [r|e]; [apply Hk|done].
Qed.

Lemma read_after {A B} (m : M (list remote_call) A) (k : A → M (list remote_call) B) log log' :
  (m log).2 = log' → (∀ a, reads (k a)) → ((m ≫= k) log).2 = log'.
Proof.
  intros Hm Hk. rewrite run_bind. destruct (m log) as [[a|e] l]; simpl in *; subst; [apply Hk|done].
Qed.

Lemma mcp_tool_log command args tool arguments log :
  (call_mcp_tool command args tool arguments log).2 = log ++ [McpTool command args tool arguments].
Proof. apply call_log. intros []; auto with agentbridge. Qed.

Lemma a2a_message_log base body proxy log :
  (send_a2a_message base body proxy log).2 = log ++ [A2aMessage base body proxy].
Proof. apply call_log. intros []; auto with agentbridge. Qed.

(** An A2A request reaches the tool server only as the one call of the
    canonical action it carries. *)
Lemma a2a_flow_calls gen msg wire command args log :
  let out := a2a_request_to_mcp_agent gen msg wire command args log in
  match validated_a2a_tool_action gen wire with
  | Ok (tool, arguments) => out.2 = log ++ [McpTool command args (JStr tool) (JObj arguments)]
  | Raise e => out = (Raise e, log)
  end.
Proof.
  cbn zeta. unfold a2a_request_to_mcp_agent.
  destruct (validated_a2a_tool_action gen wire) as [[tool arguments]|e] eqn:Hv; [|done].
  rewrite (run_lift _ (tool, arguments)) by done. rewrite run_ensure.
  - apply read_after; [apply mcp_tool_log|]. intros j. auto 10 with agentbridge.
  - unfold validated_a2a_tool_action in Hv. apply outcome_bind_Ok in Hv as (? & _ & Hv).
    apply outcome_bind_Ok in Hv as (call & _ & Hv).
    apply outcome_bind_Ok in Hv as (? & Hs%guard_or_Ok & Hv). injection Hv as <- <-.
    apply negb_true_iff, bool_decide_eq_false. intros Hc. rewrite Hc in Hs. discriminate Hs.
Qed.

Lemma mcp_flow_calls gen wire base log :
  let out := mcp_request_to_a2a_agent gen wire base log in
  match validated_mcp_tool_action gen wire with
  | Ok (tool, arguments) => out.2 = log ++ [A2aMessage base (message_of tool arguments) JNull]
  | Raise e => out = (Raise e, log)
  end.
Proof.
  cbn zeta. unfold mcp_request_to_a2a_agent.
  destruct (validated_mcp_tool_action gen wire) as [[tool arguments]|e]; [|done].
  rewrite (run_lift _ (tool, arguments)) by done.
  apply read_after; [apply a2a_message_log|]. intros j. auto 10 with agentbridge.
Qed.
End inline.
