(* ===== verification/PolicyRules.v ===== *)
(** * Declarative policy rules

    Models src/governance/policy_rules.py.  The printed form of a float appears
    in reasons only and is a parameter; weekday and hour are the two parts of
    the clock reading the rules use. *)

From stdpp Require Import base list gmap strings pretty.
From Stdlib Require Import ZArith Lia.
From S2P Require Import Prelude PyFloat.

Local Open Scope Z_scope.

Record datetime := mkDatetime { weekday : Z; hour : Z }.

Record PolicyContext := mkContext {
  agent_id : string;
  capability : string;
  cost : float64;
  src_protocol : option string;
  dst_protocol : option string;
  ctx_now : option datetime;
}.

(** [PolicyContext.when]. *)
Definition when_ (clock : datetime) (ctx : PolicyContext) : datetime :=
  default clock (ctx_now ctx).

Record RuleResult := mkResult { allowed : bool; reason : string; needs_approval : bool }.

Definition ok_result : RuleResult := mkResult true "" false.
Definition deny_result (why : string) : RuleResult := mkResult false why false.

(** The rule classes with their constructor arguments. *)
Inductive Rule :=
| MaxCostPerCall (max_cost : float64)
| RequireApprovalAboveCost (threshold : float64)
| DenyCapabilities (caps : gset string)
| AllowOnlyCapabilities (caps : gset string)
| BusinessHoursOnly (start end_ : Z) (days : gset Z)
| DenyProtocolRoute (src dst : string).

Definition default_days : gset Z := list_to_set [0; 1; 2; 3; 4].

Fixpoint insert_day (d : Z) (l : list Z) : list Z :=
  match l with
  | [] => [d]
  | e :: l' => if d <=? e then d :: l else e :: insert_day d l'
  end.

(** [sorted(self.days)] as Python prints it, and [:02d]. *)
Fixpoint join_days (l : list Z) : string :=
  match l with
  | [] => ""
  | [d] => pretty d
  | d :: l' => pretty d +:+ ", " +:+ join_days l'
  end.
Definition days_text (days : gset Z) : string :=
  "[" +:+ join_days (foldr insert_day [] (elements days)) +:+ "]".
Definition pad2 (n : Z) : string :=
  if (0 <=? n) && (n <? 10) then "0" +:+ pretty n else pretty n.

Section rules.
Context (float_repr : float64 → string).

Definition evaluate_rule (clock : datetime) (r : Rule) (ctx : PolicyContext) : RuleResult :=
  match r with
  | MaxCostPerCall max_cost =>
      if fgtb (cost ctx) max_cost
      then deny_result ("cost " +:+ float_repr (cost ctx) +:+ " exceeds per-call cap " +:+ float_repr max_cost)
      else ok_result
  | RequireApprovalAboveCost threshold =>
      if fgtb (cost ctx) threshold
      then mkResult true ("approval required: cost " +:+ float_repr (cost ctx) +:+ " > " +:+ float_repr threshold) true
      else ok_result
  | DenyCapabilities caps =>
      if bool_decide (capability ctx ∈ caps)
      then deny_result ("capability '" +:+ capability ctx +:+ "' is denied by policy")
      else ok_result
  | AllowOnlyCapabilities caps =>
      if bool_decide (capability ctx ∉ caps)
      then deny_result ("capability '" +:+ capability ctx +:+ "' not in policy allowlist")
      else ok_result
  | BusinessHoursOnly start end_ days =>
      let t := when_ clock ctx in
      if negb (bool_decide (weekday t ∈ days)) || negb ((start <=? hour t) && (hour t <? end_))
      then deny_result ("outside allowed window (days " +:+ days_text days +:+ " " +:+ pad2 start
                        +:+ ":00-" +:+ pad2 end_ +:+ ":00 UTC)")
      else ok_result
  | DenyProtocolRoute src dst =>
      if bool_decide (src_protocol ctx = Some src ∧ dst_protocol ctx = Some dst)
      then deny_result ("route " +:+ src +:+ "->" +:+ dst +:+ " is blocked by policy")
      else ok_result
  end.

(** [PolicySet.evaluate]: the loop with its two accumulators.  Each rule that
    looks at the time reads the clock again: [clock i] is what rule [i] sees. *)
Fixpoint evaluate_loop (clock : nat → datetime) (rules : list Rule) (ctx : PolicyContext)
    (needs : bool) (why : string) : RuleResult :=
  match rules with
  | [] => mkResult true (if needs then why else "policy ok") needs
  | rule :: rules' =>
      let r := evaluate_rule (clock O) rule ctx in
      if negb (allowed r) then r
      else if needs_approval r then
        evaluate_loop (fun i => clock (S i)) rules' ctx true
          (if bool_decide (reason r = "") then why else reason r)
      else evaluate_loop (fun i => clock (S i)) rules' ctx needs why
  end.

Definition evaluate (clock : nat → datetime) (rules : list Rule) (ctx : PolicyContext) : RuleResult :=
  evaluate_loop clock rules ctx false "".

(** [PolicySet.add]. *)
Definition add (rules : list Rule) (rule : Rule) : list Rule := rules ++ [rule].

(** ** First deny wins, approval is sticky *)

Definition verdict (clock : nat → datetime) (rules : list Rule) (ctx : PolicyContext) (i : nat)
  : option RuleResult :=
  (fun r => evaluate_rule (clock i) r ctx) <$> rules !! i.

Lemma loop_spec clock rules ctx needs why :
  let res := evaluate_loop clock rules ctx needs why in
  (allowed res = false ∧
   ∃ i, verdict clock rules ctx i = Some res ∧
        ∀ j, (j < i)%nat → ∃ r, verdict clock rules ctx j = Some r ∧ allowed r = true) ∨
  (allowed res = true ∧
   (∀ j r, verdict clock rules ctx j = Some r → allowed r = true) ∧
   (needs_approval res = true ↔
    needs = true ∨ ∃ j r, verdict clock rules ctx j = Some r ∧ needs_approval r = true)).
Proof.
  revert clock needs why. induction rules as [|rule rules IH]; intros clock needs why; simpl.
  - right. split_and!; [done|done|]. split; [by left|]. intros [?|(j & r & Hj & _)]; [done|].
    by destruct j.
  - destruct (allowed (evaluate_rule (clock O) rule ctx)) eqn:Ha; simpl.
    2:{ left. split; [done|]. exists O. split; [done|lia]. }
    set (nd := if needs_approval (evaluate_rule (clock 0%nat) rule ctx) then true else needs).
    set (wy := if needs_approval (evaluate_rule (clock 0%nat) rule ctx)
               then (if bool_decide (reason (evaluate_rule (clock 0%nat) rule ctx) = "") then why
                     else reason (evaluate_rule (clock 0%nat) rule ctx)) else why).
    assert ((if needs_approval (evaluate_rule (clock 0%nat) rule ctx)
      then evaluate_loop (fun i => clock (S i)) rules ctx true
        (if bool_decide (reason (evaluate_rule (clock 0%nat) rule ctx) = "") then why
         else reason (evaluate_rule (clock 0%nat) rule ctx))
      else evaluate_loop (fun i => clock (S i)) rules ctx needs why)
      = evaluate_loop (fun i => clock (S i)) rules ctx nd wy) as ->.
    { subst nd wy. by destruct (needs_approval _). }
    destruct (IH (fun i => clock (S i)) nd wy) as [(Hf & i & Hi & Hlt)|(Ht & Hall & Hn)].
    + left. split; [done|]. exists (S i). split; [done|]. intros [|j] Hj; [by eexists|].
      apply Hlt. lia.
    + right. split_and!; [done| |].
      * intros [|j] r Hj; [by injection Hj as <-|]. by apply (Hall j).
      * rewrite Hn. subst nd. split.
        -- intros [Hd|(j & r & Hj & Hr)]; [|right; by exists (S j), r].
           destruct (needs_approval _) eqn:He; [|by left]. right. by eexists O, _.
        -- intros [->|([|j] & r & Hj & Hr)]; [by left; destruct (needs_approval _)| |right; by exists j, r].
           injection Hj as <-. rewrite Hr. by left.
Qed.
End rules.

(** The first denying rule decides.  The result of a policy set is denied
    exactly when some rule denies, and it is then the result of the first rule
    that does; otherwise approval is needed exactly when some rule asks for it.
    The order of the rules never turns a denial into a permission. *)
Theorem first_deny_wins float_repr clock rules ctx :
  let res := evaluate float_repr clock rules ctx in
  (allowed res = false ↔
   ∃ i r, verdict float_repr clock rules ctx i = Some r ∧ allowed r = false) ∧
  (allowed res = false →
   ∃ i, verdict float_repr clock rules ctx i = Some res ∧
        ∀ j, (j < i)%nat → ∃ r, verdict float_repr clock rules ctx j = Some r ∧ allowed r = true) ∧
  (allowed res = true →
   (needs_approval res = true ↔
    ∃ j r, verdict float_repr clock rules ctx j = Some r ∧ needs_approval r = true)).
Proof.
  intros res. destruct (loop_spec float_repr clock rules ctx false "")
    as [(Hf & i & Hi & Hlt)|(Ht & Hall & Hn)];
    change (evaluate_loop float_repr clock rules ctx false "") with res in *.
  - split_and!; [|naive_solver|congruence]. split; [intros _; by exists i, res|done].
  - split_and!; [|congruence|intros _; rewrite Hn; naive_solver].
    split; [congruence|]. intros (j & r & Hj & Hr). apply Hall in Hj. congruence.
Qed.
