(* ===== verification/DurablePolicy.v ===== *)
(** * Durable policy

    [governance/durable_policy.py]: the rule set and the sensitive-capability
    flags kept in SQL, so that every worker decides by the same configuration.
    A row holds a rule as JSON text; what [add] did not write is not read
    ([_rule_from_dict] of other content would fail when the rule is used). *)

From stdpp Require Import base list gmap strings.
From Stdlib Require Import ZArith Lia Sorted Permutation.
From S2P Require Import Prelude PyFloat Json PolicyRules.

#[local] Open Scope Z_scope.

Section durable.
Context `{JsonText}.

(** [sorted(...)] of a set of strings or of integers. *)
Fixpoint insert_text (x : string) (l : list string) : list string :=
  match l with
  | [] => [x]
  | y :: l' => if String.leb x y then x :: l else y :: insert_text x l'
  end.
Definition sorted_text (s : gset string) : list string := foldr insert_text [] (elements s).
Definition sorted_days (s : gset Z) : list Z := foldr insert_day [] (elements s).

(** A rule handed to [add]: built in, or of a class of the caller's own. *)
Inductive given_rule := Builtin (r : Rule) | Custom.

(** [_rule_to_dict], in the key order of [sort_keys=True]. *)
Definition builtin_to_dict (r : Rule) : list (string * json) :=
  match r with
  | MaxCostPerCall c => [("kind", JStr "max_cost"); ("max_cost", JFloat c)]
  | RequireApprovalAboveCost t => [("kind", JStr "approval_above_cost"); ("threshold", JFloat t)]
  | DenyCapabilities caps =>
      [("capabilities", JArr (JStr <$> sorted_text caps)); ("kind", JStr "deny_capabilities")]
  | AllowOnlyCapabilities caps =>
      [("capabilities", JArr (JStr <$> sorted_text caps)); ("kind", JStr "allow_only_capabilities")]
  | BusinessHoursOnly start end_ days =>
      [("days", JArr (JInt <$> sorted_days days)); ("end_hour", JInt end_); ("kind", JStr "business_hours");
       ("start_hour", JInt start)]
  | DenyProtocolRoute src dst => [("dst", JStr dst); ("kind", JStr "deny_route"); ("src", JStr src)]
  end.

Definition rule_to_dict (r : given_rule) : outcome (list (string * json)) :=
  match r with
  | Builtin r => Ok (builtin_to_dict r)
  | Custom => Raise (ValueError "Only built-in, serializable policy rules are allowed in durable configuration")
  end.

(** ** Reading a row back *)

Definition field {A} (k : string) (read : json → option A) (o : list (string * json)) : outcome A :=
  match dict_get k o with
  | None => Raise (KeyError k)
  | Some j => match read j with Some a => Ok a | None => Raise (TypeError k) end
  end.

Definition as_float (j : json) : option float64 :=
  match j with JFloat f => Some f | JInt n => Some (float_of_int n) | _ => None end.
Definition as_int (j : json) : option Z := match j with JInt n => Some n | _ => None end.
Definition as_text (j : json) : option string := match j with JStr s => Some s | _ => None end.
Definition as_list {A} (read : json → option A) (j : json) : option (list A) :=
  match j with JArr l => mapM read l | _ => None end.

Definition rule_from_dict (data : json) : outcome Rule :=
  match data with
  | JObj o =>
      kind ← field "kind" as_text o;
      if bool_decide (kind = "max_cost") then MaxCostPerCall <$> field "max_cost" as_float o
      else if bool_decide (kind = "approval_above_cost")
      then RequireApprovalAboveCost <$> field "threshold" as_float o
      else if bool_decide (kind = "deny_capabilities")
      then l ← field "capabilities" (as_list as_text) o; Ok (DenyCapabilities (list_to_set l))
      else if bool_decide (kind = "allow_only_capabilities")
      then l ← field "capabilities" (as_list as_text) o; Ok (AllowOnlyCapabilities (list_to_set l))
      else if bool_decide (kind = "business_hours") then
        start ← field "start_hour" as_int o;
        end_ ← field "end_hour" as_int o;
        days ← field "days" (as_list as_int) o;
        Ok (BusinessHoursOnly start end_ (list_to_set days))
      else if bool_decide (kind = "deny_route") then
        src ← field "src" as_text o; dst ← field "dst" as_text o; Ok (DenyProtocolRoute src dst)
      else Raise (ValueError "Unknown policy rule kind in durable configuration")
  | _ => Raise (TypeError "kind")
  end.

(** ** The rule table: [definition] in [seq] order *)

Fixpoint load_rules (rows : list string) : outcome (list Rule) :=
  match rows with
  | [] => Ok []
  | row :: rows => data ← json_loads row; r ← rule_from_dict data; rs ← load_rules rows; Ok (r :: rs)
  end.

(** [DurablePolicySet.rules] and [add] on a SQL store. *)
Definition durable_rules : M (list string) (list Rule) := rows ← get; lift (load_rules rows).

Definition durable_add (r : given_rule) : M (list string) unit :=
  data ← lift (rule_to_dict r);
  modify (fun rows => rows ++ [json_dumps (JObj data)]).

(** ** The sensitive capabilities *)

Definition durable_mark_sensitive (c : string) : M (gset string) unit :=
  _ ← ensure (negb (bool_decide (c = ""))) (ValueError "capability must be nonempty");
  modify (fun s => {[c]} ∪ s).

Definition durable_requires_approval (c : string) (s : gset string) : bool := bool_decide (c ∈ s).

(** ** Round trip *)

Lemma insert_text_perm x l : insert_text x l ≡ₚ x :: l.
Proof.
  induction l as [|y l IH]; simpl; [done|]. case_match; [done|]. rewrite IH. apply Permutation_swap.
Qed.

Lemma insert_day_perm x l : insert_day x l ≡ₚ x :: l.
Proof.
  induction l as [|y l IH]; simpl; [done|]. case_match; [done|]. rewrite IH. apply Permutation_swap.
Qed.

Lemma sorted_text_set (s : gset string) : list_to_set (sorted_text s) = s.
Proof.
  rewrite <-(list_to_set_elements_L s) at 2. unfold sorted_text. induction (elements s) as [|x l IH]; [done|].
  simpl. rewrite (list_to_set_perm_L _ _ (insert_text_perm _ _)). simpl. by rewrite IH.
Qed.

Lemma sorted_days_set (s : gset Z) : list_to_set (sorted_days s) = s.
Proof.
  rewrite <-(list_to_set_elements_L s) at 2. unfold sorted_days. induction (elements s) as [|x l IH]; [done|].
  simpl. rewrite (list_to_set_perm_L _ _ (insert_day_perm _ _)). simpl. by rewrite IH.
Qed.

Lemma mapM_inj {A} (f : A → json) (read : json → option A) (l : list A) :
  (∀ x, read (f x) = Some x) → mapM read (f <$> l) = Some l.
Proof. intros Hr. induction l as [|x l IH]; [done|]. rewrite fmap_cons. simpl. by rewrite Hr, IH. Qed.

Lemma rule_dict_wf r : json_wf (JObj (builtin_to_dict r)) = true.
Proof.
  assert (∀ l : list string, forallb json_wf (JStr <$> l) = true) as Hs by (by induction l).
  assert (∀ l : list Z, forallb json_wf (JInt <$> l) = true) as Hz by (by induction l).
  destruct r; simpl; rewrite ?Hs, ?Hz; done.
Qed.

Lemma rule_round_trip r : rule_from_dict (JObj (builtin_to_dict r)) = Ok r.
Proof.
  destruct r; unfold rule_from_dict, field; simpl; try done;
    rewrite mapM_inj by done; simpl; by rewrite ?sorted_text_set, ?sorted_days_set.
Qed.

Lemma load_rules_app rows rows' rs rs' :
  load_rules rows = Ok rs → load_rules rows' = Ok rs' → load_rules (rows ++ rows') = Ok (rs ++ rs').
Proof.
  revert rs. induction rows as [|row rows IH]; intros rs Hr Hr'; simpl in *; [by injection Hr as <-|].
  apply outcome_bind_Ok in Hr as (data & -> & Hr). apply outcome_bind_Ok in Hr as (r & Hd & Hr).
  apply outcome_bind_Ok in Hr as (l & Hl & Hr). injection Hr as <-. simpl.
  by rewrite Hd, (IH l Hl Hr').
Qed.

(** A sequence of [add]s, by whatever workers share the table. *)
Fixpoint durable_adds (l : list given_rule) : M (list string) unit :=
  match l with
  | [] => mret tt
  | r :: l => fun rows => durable_adds l (durable_add r rows).2
  end.

(** The durable rule set refines the in-memory one: whatever rules the
    workers sharing the table add, every worker reads back exactly the built-in
    ones among them, in order (a custom rule is refused without a trace), so all
    of them decide as a [PolicySet] holding those rules. *)
Theorem durable_policy_refines float_repr rows rs l clock ctx :
  load_rules rows = Ok rs →
  ∃ rs', durable_rules (durable_adds l rows).2 = (Ok rs', (durable_adds l rows).2) ∧
    rs' = foldl add rs (omap (fun r => match r with Builtin b => Some b | Custom => None end) l) ∧
    evaluate float_repr clock rs' ctx =
      evaluate float_repr clock (rs ++ omap (fun r => match r with Builtin b => Some b | Custom => None end) l) ctx.
Proof.
  intros Hr.
  assert (∀ rs l, foldl add rs l = rs ++ l) as Hfold.
  { intros rs0 l0. revert rs0. induction l0 as [|r l0 IH]; intros rs0; simpl; [by rewrite app_nil_r|].
    rewrite IH. unfold add. by rewrite <-app_assoc. }
  eexists. split_and!; [|by rewrite Hfold|done]. revert rows rs Hr.
  induction l as [|[b|] l IH]; intros rows rs Hr; simpl.
  - unfold durable_rules. rewrite run_get. unfold lift. by rewrite Hr, app_nil_r.
  - rewrite (IH (rows ++ [json_dumps (JObj (builtin_to_dict b))]) (rs ++ [b])); [by rewrite <-app_assoc|].
    apply load_rules_app; [done|]. simpl. rewrite loads_dumps by apply rule_dict_wf. cbn [mbind outcome_bind].
    by rewrite rule_round_trip.
  - by apply IH.
Qed.
End durable.

Definition demo_rules : list given_rule :=
  [Builtin (MaxCostPerCall (fl 5)); Custom; Builtin (DenyProtocolRoute "mcp" "a2a")].

Definition demo_context : PolicyContext :=
  mkContext "al" "pay" (fl 1) (Some "mcp") (Some "a2a") None.

Lemma durable_policy_refines_witness :
  ∃ rs', durable_rules (durable_adds demo_rules []).2 = (Ok rs', (durable_adds demo_rules []).2) ∧
    rs' = [MaxCostPerCall (fl 5); DenyProtocolRoute "mcp" "a2a"] ∧
    evaluate (fun _ => "") (fun _ => mkDatetime 0 12) rs' demo_context =
      deny_result "route mcp->a2a is blocked by policy".
Proof.
  exact (durable_policy_refines (fun _ => "") [] [] demo_rules (fun _ => mkDatetime 0 12) demo_context eq_refl).
Defined.
