(* ===== verification/OperationLedger.v ===== *)
(** * Operation ledger and owned settlement

    Models src/governance/operation_ledger.py and
    src/governance/owned_settlement.py.  The ledger's three tables live in the
    same SQL store as the budgets; [S] is that store's state and the lenses pick
    the parts.  [tenant] is the store's [tenant_id], [None] on a legacy store. *)

From stdpp Require Import base list gmap strings.
From Stdlib Require Import ZArith Lia.
From S2P Require Import Prelude PyFloat Budget Authority.

Local Open Scope Z_scope.

(** Column [state]: claimed rows are [unknown] until they are settled. *)
Inductive op_state := unknown | succeeded | failed.

#[global] Instance op_state_eq_dec : EqDecision op_state.
Proof. solve_decision. Defined.

Definition state_text (x : op_state) : string :=
  match x with unknown => "unknown" | succeeded => "succeeded" | failed => "failed" end.

Record op_row := mkOp { fingerprint : string; op_st : op_state; updated : float64 }.

(** Keys are (agent_id, operation_id). *)
Record ledger := mkLedger {
  ops : gmap (string * string) op_row;
  reservations : gmap (string * string) string;
  authorities : gmap (string * string) Principal;
}.

Definition set_ops x l := mkLedger x (reservations l) (authorities l).
Definition set_reservations x l := mkLedger (ops l) x (authorities l).
Definition set_authorities x l := mkLedger (ops l) (reservations l) x.

Definition key_ok (s : string) : bool := negb (bool_decide (s = "")) && (strlen s <=? 256).

Definition key_reused : pyexn := OperationConflict "idempotency key reused for different request".

(** What a retry of a claimed operation is told. *)
Definition conflict (row : op_row) (fp : string) : pyexn :=
  if bool_decide (fingerprint row = fp)
  then OperationConflict ("existing operation is " +:+ state_text (op_st row) +:+ "; no automatic replay")
  else key_reused.

Section ledger.
Context {S : Type} `{!Lens S ledger}.

Definition led : S → ledger := view.
Definition modify_ledger (f : ledger → ledger) : M S unit := modify (fun s => update (f (view s)) s).

(** [claim].  [insert_allowed] is the admission trigger on [agent_operations];
    [before_insert] runs inside the transaction, before the insert. *)
Definition claim (tenant : option string) (insert_allowed : string → string → string → S → bool)
    (ag op fp : string) (reservation_token : option string) (authority_binding : option Principal)
    (before_insert : M S unit) (stamp : float64) : M S unit :=
  _ ← ensure (key_ok ag && key_ok op && key_ok fp) (ValueError "invalid operation claim");
  _ ← ensure (negb (bool_decide (reservation_token = Some "")))
             (ValueError "reservation_token must be nonempty");
  _ ← ensure (match authority_binding with
              | None => true
              | Some b => bool_decide (tenant_id b = tenant ∧ p_agent_id b = Some ag)
              end)
             (ValueError "operation authority does not match the bound tenant/agent");
  atomic (
    s ← get;
    match ops (led s) !! (ag, op) with
    | Some row => raise (conflict row fp)
    | None =>
        _ ← before_insert;
        s ← get;
        _ ← ensure (insert_allowed ag op fp s) (IntegrityError "atomic quota admission required");
        _ ← ensure (bool_decide (ops (led s) !! (ag, op) = None)) (IntegrityError "agent_operations");
        _ ← modify_ledger (fun l => set_ops (<[(ag, op) := mkOp fp unknown stamp]> (ops l)) l);
        _ ← match reservation_token with
            | None => mret tt
            | Some tok =>
                s ← get;
                _ ← ensure (bool_decide (reservations (led s) !! (ag, op) = None))
                           (IntegrityError "operation_reservations");
                modify_ledger (fun l => set_reservations (<[(ag, op) := tok]> (reservations l)) l)
            end;
        match authority_binding with
        | None => mret tt
        | Some b =>
            s ← get;
            _ ← ensure (bool_decide (authorities (led s) !! (ag, op) = None))
                       (IntegrityError "operation_authority");
            modify_ledger (fun l => set_authorities (<[(ag, op) := b]> (authorities l)) l)
        end
    end).

(** [finish]: [UPDATE ... WHERE agent_id=? AND operation_id=?], one row. *)
Definition finish (ag op : string) (x : op_state) (now : float64) : M S unit :=
  s ← get;
  match ops (led s) !! (ag, op) with
  | None => raise (OperationConflict "operation missing")
  | Some row =>
      modify_ledger (fun l => set_ops (<[(ag, op) := mkOp (fingerprint row) x now]> (ops l)) l)
  end.

Definition get_operation (ag op : string) : M S (option op_row) :=
  gets (fun s => ops (led s) !! (ag, op)).

Definition authority_binding (tenant : option string) (ag op : string) : M S (option Principal) :=
  gets (fun s => match tenant with None => None | Some _ => authorities (led s) !! (ag, op) end).

(** ** Reservations *)
Context `{!Lens S Manager.manager}.

Definition budget_rows (s : S) : gmap string row := Manager.rows (view s).

(** [state.get("reserved", {})] of an agent's stored budget. *)
Definition reserved_of (ag : string) (s : S) : list (string * float64) :=
  match budget_rows s !! ag with
  | None => []
  | Some r => default [] (r_reserved r)
  end.

Definition attached (ag tok : string) (l : ledger) : bool :=
  bool_decide (map_Exists (fun k t => k.1 = ag ∧ t = tok) (reservations l)).

Definition attach_reservation (ag op tok : string) : M S unit :=
  _ ← ensure (key_ok ag && key_ok op && key_ok tok) (ValueError "invalid reservation binding");
  atomic (
    s ← get;
    _ ← ensure (match ops (led s) !! (ag, op) with
                | Some row => bool_decide (op_st row = unknown)
                | None => false
                end)
               (OperationConflict "reservation requires an unresolved owned operation");
    _ ← ensure (bool_decide (reservations (led s) !! (ag, op) = None))
               (OperationConflict "operation already has a reservation binding");
    _ ← ensure (dict_mem tok (reserved_of ag s))
               (OperationConflict "reservation is not pending for this agent");
    _ ← ensure (negb (attached ag tok (led s)))
               (OperationConflict "reservation is already attached to an operation");
    modify_ledger (fun l => set_reservations (<[(ag, op) := tok]> (reservations l)) l)).

(** ** Settlement *)

Definition already_settled : pyexn :=
  OperationConflict "operation missing or already settled; inspect its durable outcome".
Definition reservation_missing : pyexn :=
  OperationConflict "budget reservation missing; reconcile outcome".

Definition lock_unknown_operation (ag op : string) : M S op_row :=
  s ← get;
  match ops (led s) !! (ag, op) with
  | Some row => if bool_decide (op_st row = unknown) then mret row else raise already_settled
  | None => raise already_settled
  end.

(** [settle_owned_reservation]; amounts in a budget row are numbers. *)
Definition settle_owned_reservation (dflt : Budget) (ag op tok : string) (out : op_state)
    (expected_cost : option float64) (now : float64) : M S float64 :=
  _ ← ensure (bool_decide (out ≠ unknown))
             (ValueError "same-store concrete settlement participants required");
  s ← get;
  _ ← ensure (bool_decide (reservations (led s) !! (ag, op) = Some tok))
             (OperationConflict "exact owned operation reservation required");
  match dict_get tok (reserved_of ag s) with
  | None => raise reservation_missing
  | Some amount =>
      _ ← lift (checked_cost (PFloat amount));
      _ ← ensure (match expected_cost with None => true | Some c => feqb amount c end)
                 (OperationConflict "owned reservation amount does not match admission");
      changed ← (if bool_decide (out = succeeded)
                 then zoom (Manager.commit dflt ag tok now)
                 else zoom (Manager.release dflt ag tok));
      _ ← ensure changed reservation_missing;
      _ ← finish ag op out now;
      mret amount
  end.
End ledger.
