(* ===== verification/Quotas.v ===== *)
(** * Aggregate admission quotas

    Models src/governance/admission_quotas.py: the policy row, the attribution
    records, the usage query, [admit] (called by the ledger's [claim] before it
    inserts), and the trigger that refuses an operation without its record.
    Row order in sums is the table scan's. *)

From stdpp Require Import base list gmap strings.
From Stdlib Require Import ZArith Lia.
From S2P Require Import Prelude PyFloat Budget Identity Authority OperationLedger.

Local Open Scope Z_scope.

Record QuotaLimits := mkLimits {
  enabled : bool;
  spend_limit : pynum;
  user_spend_limit : pynum;
  rate_limit : Z;
  user_rate_limit : Z;
  window_seconds : Z;
  max_active : Z;
  user_max_active : Z;
  max_records : Z;
}.

Definition default_limits : QuotaLimits :=
  mkLimits false (PInt 1000) (PInt 100) 10000 1000 3600 128 32 100000.

Definition is_number (x : pynum) : bool :=
  match x with PInt _ | PFloat _ => true | _ => false end.

Definition within (x hi : Z) : bool := (1 <=? x) && (x <=? hi).

(** [QuotaLimits.validated]. *)
Definition validated (q : QuotaLimits) : outcome QuotaLimits :=
  _ ← guard_or (is_number (spend_limit q)) (ValueError "finite numeric quota spend_limit required");
  _ ← checked_cost (spend_limit q);
  _ ← guard_or (is_number (user_spend_limit q))
               (ValueError "finite numeric quota user_spend_limit required");
  _ ← checked_cost (user_spend_limit q);
  _ ← guard_or (within (rate_limit q) 1000000) (ValueError "invalid bounded quota rate_limit");
  _ ← guard_or (within (user_rate_limit q) 1000000) (ValueError "invalid bounded quota user_rate_limit");
  _ ← guard_or (within (window_seconds q) 31536000) (ValueError "invalid bounded quota window_seconds");
  _ ← guard_or (within (max_active q) 1000000) (ValueError "invalid bounded quota max_active");
  _ ← guard_or (within (user_max_active q) 1000000) (ValueError "invalid bounded quota user_max_active");
  _ ← guard_or (within (max_records q) 10000000) (ValueError "invalid bounded quota max_records");
  Ok q.

(** The value a Python number compares as; an integer above 2^53 is rounded. *)
Definition num_value (x : pynum) : float64 :=
  match x with PInt n => fl n | PFloat f => f | PBool b => fl (if b then 1 else 0) | _ => FNan end.

(** The policy row: [None] as limits stands for text that is not a complete
    policy object. *)
Record policy_row := mkPolicyRow { version : Z; limits : option QuotaLimits }.

Record record := mkRecord {
  q_fingerprint : string;
  owner : string;
  q_cost : float64;
  admitted : float64;
}.

Record quota_db := mkQuota {
  policy_table : option policy_row;
  records : gmap (string * string) record;
}.

(** [_policy]. *)
Definition current_policy (q : quota_db) : outcome QuotaLimits :=
  let altered := Raise (QuotaDenied "missing, altered or unsupported quota policy") in
  match policy_table q with
  | Some (mkPolicyRow 1 (Some l)) =>
      match validated l with Ok l => Ok l | Raise _ => altered end
  | _ => altered
  end.

Record usage := mkUsage {
  u_spend : float64;
  u_user_spend : float64;
  u_unattributed : float64;
  u_active : Z;
  u_user_active : Z;
  u_recent : Z;
  u_user_recent : Z;
  u_records : Z;
}.

Section quotas.
Context {S : Type} `{!Lens S quota_db} `{!Lens S ledger} `{!Lens S Manager.manager}.
Context `{Sha256} (owner_json : string → string → string → string → string).

Definition quo : S → quota_db := view.

(** [quota_owner]. *)
Definition quota_owner (p : Principal) : outcome string :=
  _ ← guard_or (is_agent_kind (kind p)) (AuthorityDenied "agent quota owner required");
  _ ← guard_or ((1 <=? strlen (issuer p)) && (strlen (issuer p) <=? 2048) && printable (issuer p))
               (AuthorityDenied "invalid quota issuer");
  t ← match tenant_id p with
      | Some t => identifier t "tenant_id"
      | None => Raise (ValueError "invalid bounded tenant_id")
      end;
  s ← check_subject (subject p);
  Ok (sha256_hex (owner_json t (kind p) (issuer p) s)).

(** The trigger on [agent_operations]: under an enabled (or unreadable) policy
    an insert needs its admission record. *)
Definition insert_allowed (ag op fp : string) (s : S) : bool :=
  let armed := match policy_table (quo s) with
               | Some (mkPolicyRow 1 (Some l)) => enabled l
               | _ => true
               end in
  negb armed ||
  match records (quo s) !! (ag, op) with
  | Some r => bool_decide (q_fingerprint r = fp)
  | None => false
  end.

(** ** Usage *)

(** The budgets' spent and reserved amounts, each checked. *)
Fixpoint checked_sum (total : float64) (l : list float64) : outcome float64 :=
  match l with
  | [] => Ok total
  | c :: l' => c ← checked_cost (PFloat c); checked_sum (fadd total c) l'
  end.

Fixpoint budget_total (total : float64) (l : list (string * row)) : outcome float64 :=
  match l with
  | [] => Ok total
  | (_, r) :: l' =>
      spent ← checked_cost (PFloat (default fzero (r_spent r)));
      held ← checked_sum fzero (default [] (r_reserved r)).*2;
      budget_total (fadd (fadd total spent) held) l'
  end.

Definition op_of (s : S) (k : string * string) : option op_row := ops (led s) !! k.

(** The joined rows [records q JOIN agent_operations o]. *)
Definition joined (s : S) : list ((string * string) * record * op_row) :=
  omap (fun p => (fun o => (p, o)) <$> op_of s p.1) (map_to_list (records (quo s))).

Definition counted (o : op_row) : bool := bool_decide (op_st o ≠ failed).
Definition is_unknown (o : op_row) : bool := bool_decide (op_st o = unknown).

Definition sum_costs (f : record → op_row → bool) (s : S) : float64 :=
  fsum ((fun x => if f x.1.2 x.2 then q_cost x.1.2 else fzero) <$> joined s).

Definition count_rows (f : record → op_row → bool) (s : S) : Z :=
  Z.of_nat (length (filter (fun x => f x.1.2 x.2 = true) (joined s))).

(** Operations with no record: [LEFT JOIN ... WHERE q.operation_id IS NULL]. *)
Definition count_legacy (f : op_row → bool) (s : S) : Z :=
  Z.of_nat (size (filter (fun x => records (quo s) !! x.1 = None ∧ f x.2 = true) (ops (led s)))).

Definition owned_by (w : string) (r : record) : bool := bool_decide (owner r = w).

(** [_usage]. *)
Definition get_usage (w : string) (now : float64) (l : QuotaLimits) (s : S) : outcome usage :=
  total ← budget_total fzero (map_to_list (budget_rows s));
  let since := fsub now (fl (window_seconds l)) in
  let attributed := sum_costs (fun _ o => counted o) s in
  let owned := sum_costs (fun r o => owned_by w r && counted o) s in
  let active := count_rows (fun _ o => is_unknown o) s in
  let owned_active := count_rows (fun r o => owned_by w r && is_unknown o) s in
  let recent := count_rows (fun r _ => fgtb (admitted r) since) s in
  let owned_recent := count_rows (fun r _ => owned_by w r && fgtb (admitted r) since) s in
  let legacy_active := count_legacy is_unknown s in
  let legacy_recent := count_legacy (fun o => is_unknown o || fgtb (updated o) since) s in
  let unattributed := fmax fzero (fsub total attributed) in
  Ok (mkUsage total (fadd owned unattributed) unattributed
        (active + legacy_active) (owned_active + legacy_active)
        (recent + legacy_recent) (owned_recent + legacy_recent)
        (Z.of_nat (length (joined s)))).

(** ** Admission *)

Definition exceeded (what : string) : pyexn := QuotaDenied (what +:+ " quota exceeded").

(** [_admit]. *)
Definition admit_record (tenant : option string) (p : Principal) (ag op fp : string) (cost : pynum)
    (now : float64) : M S unit :=
  _ ← ensure (bool_decide (tenant_id p = tenant ∧ p_agent_id p = Some ag))
             (AuthorityDenied "quota principal does not own admission");
  c ← lift (checked_cost cost);
  w ← lift (quota_owner p);
  s ← get;
  l ← lift (current_policy (quo s));
  _ ← ensure (Z.of_nat (size (records (quo s))) <? max_records l)
             (QuotaDenied "quota history capacity reached; reviewed archival required");
  _ ← (if enabled l then
         u ← lift (get_usage w now l s);
         _ ← ensure (negb (fgtb (fadd (u_spend u) c) (num_value (spend_limit l)))) (exceeded "tenant spend");
         _ ← ensure (negb (fgtb (fadd (u_user_spend u) c) (num_value (user_spend_limit l)))) (exceeded "user spend");
         _ ← ensure (u_recent u + 1 <=? rate_limit l) (exceeded "tenant rate");
         _ ← ensure (u_user_recent u + 1 <=? user_rate_limit l) (exceeded "user rate");
         _ ← ensure (u_active u + 1 <=? max_active l) (exceeded "tenant active operations");
         ensure (u_user_active u + 1 <=? user_max_active l) (exceeded "user active operations")
       else mret tt);
  _ ← ensure (bool_decide (records (quo s) !! (ag, op) = None))
             (IntegrityError "admission_quota_records_v1");
  modify (fun s => update (mkQuota (policy_table (quo s))
                             (<[(ag, op) := mkRecord fp w c now]> (records (quo s)))) s).

(** [admit]: refused outside the claim's transaction. *)
Definition admit_quota (in_transaction : bool) (tenant : option string) (p : Principal) (ag op fp : string)
    (cost : pynum) (now : float64) : M S unit :=
  _ ← ensure in_transaction
             (RuntimeError "quota admission requires its operation claim transaction");
  admit_record tenant p ag op fp cost now.

(** [set_policy]; [audit] is the caller's audit append. *)
Definition set_policy (l : QuotaLimits) (audit : M S unit) : M S unit :=
  _ ← lift (validated l);
  atomic (
    s ← get;
    _ ← lift (current_policy (quo s));
    _ ← modify (fun s => update (mkQuota (Some (mkPolicyRow 1 (Some l))) (records (quo s))) s);
    audit).

Definition inspect (now : float64) : M S (QuotaLimits * usage) :=
  s ← get;
  l ← lift (current_policy (quo s));
  u ← lift (get_usage "" now l s);
  mret (l, u).
End quotas.
