(* ===== verification/Policy.v ===== *)
(** * The policy engine

    Models src/governance/policy.py and src/authority_mode.py.  [gov] is the
    state of one governance SQL store: every component's tables, with a lens
    for each.  The authority directory lives in a database of its own and is
    only read here (the gateway holds its guard), so it is an argument.  The
    process environment the code reads is [env]. *)

From stdpp Require Import base list gmap strings.
From Stdlib Require Import ZArith Lia.
From S2P Require Import Prelude PyFloat Budget AuditLog Approvals Identity PolicyRules Authority OperationLedger Quotas.

Record gov := mkGov {
  g_ids : gmap string identity_row;
  g_bud : Manager.manager;
  g_apr : Approvals.Sql.table;
  g_aud : AuditLog.Sql.audit_db;
  g_led : ledger;
  g_quo : quota_db;
}.

#[global] Program Instance lens_ids : Lens gov (gmap string identity_row) := {
  view := g_ids;
  update x s := mkGov x (g_bud s) (g_apr s) (g_aud s) (g_led s) (g_quo s) }.
Solve All Obligations with by intros; try destruct s.
#[global] Program Instance lens_bud : Lens gov Manager.manager := {
  view := g_bud;
  update x s := mkGov (g_ids s) x (g_apr s) (g_aud s) (g_led s) (g_quo s) }.
Solve All Obligations with by intros; try destruct s.
#[global] Program Instance lens_apr : Lens gov Approvals.Sql.table := {
  view := g_apr;
  update x s := mkGov (g_ids s) (g_bud s) x (g_aud s) (g_led s) (g_quo s) }.
Solve All Obligations with by intros; try destruct s.
#[global] Program Instance lens_aud : Lens gov AuditLog.Sql.audit_db := {
  view := g_aud;
  update x s := mkGov (g_ids s) (g_bud s) (g_apr s) x (g_led s) (g_quo s) }.
Solve All Obligations with by intros; try destruct s.
#[global] Program Instance lens_led : Lens gov ledger := {
  view := g_led;
  update x s := mkGov (g_ids s) (g_bud s) (g_apr s) (g_aud s) x (g_quo s) }.
Solve All Obligations with by intros; try destruct s.
#[global] Program Instance lens_quo : Lens gov quota_db := {
  view := g_quo;
  update x s := mkGov (g_ids s) (g_bud s) (g_apr s) (g_aud s) (g_led s) x }.
Solve All Obligations with by intros; try destruct s.

(** ** Environment *)

(** [AGENTBRIDGE_ENV] is production; the parsed capability allowlist ([None]
    when the text is not a JSON object, an entry [None] when it is not a list of
    strings); [AGENTBRIDGE_AUTHORITY_MODE]. *)
Record env := mkEnv {
  prod : bool;
  allowlist : option (gmap string (option (list string)));
  mode_text : string;
}.

Definition authority_mode (e : env) : outcome string :=
  if bool_decide (mode_text e ∈ ["legacy_single_tenant"; "multi_tenant"]) then Ok (mode_text e)
  else Raise (ConfigError "unknown authority mode; explicit supported mode required").

Definition require_legacy_authority (e : env) : outcome unit :=
  mode ← authority_mode e;
  guard_or (bool_decide (mode = "legacy_single_tenant"))
    (ConfigError "legacy entry point cannot serve multi_tenant authority; use the enrolled tenant facade").

Record Decision := mkDecision {
  allowed : bool;
  reason : string;
  needs_approval : bool;
  approval_required : bool;
}.

Definition deny (why : string) : Decision := mkDecision false why false false.

(** The engine's configuration; [sensitive] is the approval queue's set, [None]
    without a queue. *)
Record engine := mkEngine {
  require_verified : bool;
  policy_set : option (list Rule);
  capability_allow : gmap string (gset string);
  sensitive : option (gset string);
}.

Definition allow_capability (ag c : string) (e : engine) : engine :=
  mkEngine (require_verified e) (policy_set e)
    (<[ag := {[c]} ∪ default ∅ (capability_allow e !! ag)]> (capability_allow e)) (sensitive e).

(** The enrolled authority an engine is bound to: its tenant, the directory and
    the directory's context key. *)
Record authority := mkAuthority { auth_tenant : string; auth_dir : directory; auth_key : string }.

Record call := mkCall {
  c_agent : string;
  c_capability : string;
  c_cost : float64;
  c_src : option string;
  c_dst : option string;
  c_scope : option string;
  c_signed_data : option string;
  c_signature : option string;
  c_principal : option Principal;
  c_target : option string;
}.

Section policy.
Context `{Ed25519} `{SealScheme}.
Context (float_repr : float64 → string) (e : env) (eng : engine) (auth : option authority)
  (dflt : Budget).

(** [except AuthorityDenied as exc: return Decision(False, str(exc))]. *)
Definition caught {A} (o : outcome A) : outcome (string + A) :=
  match o with
  | Ok x => Ok (inr x)
  | Raise (AuthorityDenied m) => Ok (inl m)
  | Raise x => Raise x
  end.

(** The [try] block of [_current_identity_policy]. *)
Definition authority_check (now : float64) (a : authority) (c : call)
    (ids : gmap string identity_row) : outcome unit :=
  match c_principal c with
  | Some p =>
      _ ← guard_or (bool_decide (tenant_id p = Some (auth_tenant a) ∧ p_agent_id p = Some (c_agent c)))
            (AuthorityDenied "principal does not own this tenant/agent context");
      _ ← (Authority.authorize (auth_key a) now p (c_capability c) (c_target c) (auth_dir a)).1;
      enrolled ← active_agent (Some (auth_tenant a)) (Some (c_agent c)) (auth_dir a);
      guard_or (bool_decide (row_key <$> ids !! c_agent c = Some (g_key enrolled)))
        (AuthorityDenied "tenant identity and enrollment disagree")
  | None => Raise (AuthorityDenied "principal does not own this tenant/agent context")
  end.

Definition registry_of (ids : gmap string identity_row) : registry := mkRegistry ids ∅ ∅.

Definition not_permitted (c : call) : Decision :=
  deny ("capability '" +:+ c_capability c +:+ "' not permitted for '" +:+ c_agent c +:+ "'").

(** The capability allowlist part. *)
Definition capability_policy (c : call) : option Decision :=
  match auth with
  | Some _ => None
  | None =>
      if prod e then
        match allowlist e with
        | None => Some (deny "production capability allowlist invalid")
        | Some m =>
            match m !! c_agent c with
            | Some (Some l) => if bool_decide (c_capability c ∈ l) then None else Some (not_permitted c)
            | _ => Some (deny "production capability allowlist missing or invalid")
            end
        end
      else match capability_allow eng !! c_agent c with
           | Some l => if bool_decide (c_capability c ∈ l) then None else Some (not_permitted c)
           | None => None
           end
  end.

(** [_current_identity_policy]: [None] when nothing denies. *)
Definition current_identity_policy (now : float64) (c : call) : M gov (option Decision) :=
  s ← get;
  _ ← lift (match auth with None => require_legacy_authority e | Some _ => Ok tt end);
  checked ← lift (match auth with
                  | None => Ok (inr tt)
                  | Some a => caught (authority_check now a c (g_ids s))
                  end);
  match checked with
  | inl why => mret (Some (deny why))
  | inr _ =>
      if require_verified eng && negb (is_registered (c_agent c) (registry_of (g_ids s)))
      then mret (Some (deny ("unknown or revoked identity '" +:+ c_agent c +:+ "'")))
      else
        ok ← (match c_signature c, c_signed_data c with
              | Some sg, Some data =>
                  lift (verify_signature (c_agent c) data sg (registry_of (g_ids s)))
              | _, _ => mret true
              end);
        if negb ok then mret (Some (deny "signature verification failed"))
        else mret (capability_policy c)
  end.

(** [_current_rule]. *)
Definition current_rule (clock : nat → datetime) (c : call) : option RuleResult :=
  (fun rules => evaluate float_repr clock rules
     (mkContext (c_agent c) (c_capability c) (c_cost c) (c_src c) (c_dst c) None)) <$> policy_set eng.

Definition requires_approval (c : call) : bool :=
  match sensitive eng with Some x => bool_decide (c_capability c ∈ x) | None => false end.

Definition granted (c : call) (s : gov) : bool :=
  match sensitive eng with
  | Some _ => is_granted (c_agent c) (c_capability c) (c_scope c) (g_apr s)
  | None => false
  end.

Definition authorize (now : float64) (clock : nat → datetime) (c : call) : M gov Decision :=
  denial ← current_identity_policy now c;
  match denial with
  | Some d => mret d
  | None =>
      s ← get;
      let sens := requires_approval c in
      if sens && negb (granted c s)
      then mret (mkDecision false ("approval required for '" +:+ c_capability c +:+ "'") true false)
      else
        let rule := current_rule clock c in
        if match rule with Some r => negb (PolicyRules.allowed r) | None => false end
        then mret (deny (match rule with Some r => PolicyRules.reason r | None => "" end))
        else
          let rule_needs := match rule with Some r => PolicyRules.needs_approval r | None => false end in
          if rule_needs && negb (granted c s)
          then mret (mkDecision false
                       (match rule with Some r => PolicyRules.reason r | None => "" end) true false)
          else
            '(ok, why) ← zoom (Manager.can_afford dflt (c_agent c) (PFloat (c_cost c)) now);
            if negb ok then mret (deny why)
            else mret (mkDecision true "authorized" false (sens || rule_needs))
  end.

(** [current_dispatch_policy] passes no signature. *)
Definition unsigned (c : call) : call :=
  mkCall (c_agent c) (c_capability c) (c_cost c) (c_src c) (c_dst c) (c_scope c) None None
    (c_principal c) (c_target c).

Definition current_dispatch_policy (now : float64) (clock : nat → datetime) (c : call)
  : M gov Decision :=
  denial ← current_identity_policy now (unsigned c);
  match denial with
  | Some d => mret d
  | None =>
      let required := requires_approval c in
      match current_rule clock c with
      | None => mret (mkDecision true "current dispatch policy allowed" false required)
      | Some r =>
          if negb (PolicyRules.allowed r) then mret (deny (PolicyRules.reason r))
          else mret (mkDecision true "current dispatch policy allowed" false
                       (required || PolicyRules.needs_approval r))
      end
  end.

(** ** What an allowed call has passed *)

(** Identity and capability checks. *)
Definition identity_passed (now : float64) (c : call) (s : gov) : Prop :=
  match auth with
  | Some a => authority_check now a c (g_ids s) = Ok tt
  | None => mode_text e = "legacy_single_tenant" ∧ capability_policy c = None
  end ∧
  (require_verified eng = true → is_registered (c_agent c) (registry_of (g_ids s)) = true) ∧
  (∀ sg data, c_signature c = Some sg → c_signed_data c = Some data →
     verify_signature (c_agent c) data sg (registry_of (g_ids s)) = Ok true).

Lemma identity_policy_None now c s s' :
  current_identity_policy now c s = (Ok None, s') → s' = s ∧ identity_passed now c s.
Proof.
  unfold current_identity_policy. rewrite run_bind. cbn [get]. rewrite !run_bind.
  unfold lift at 1. destruct (match auth with None => _ | Some _ => _ end) as [[]|] eqn:Hleg; [|done].
  rewrite run_bind. unfold lift at 1.
  destruct (match auth with None => Ok (inr tt)
            | Some a => caught (authority_check now a c (g_ids s)) end) as [[why|[]]|] eqn:Hchk; [done| |done].
  destruct (require_verified eng && _) eqn:Hv; [done|]. intros Hr.
  apply bind_Ok_inv in Hr as (ok & s1 & Hsig & Hr).
  assert (s1 = s ∧ (ok = true → ∀ sg data, c_signature c = Some sg → c_signed_data c = Some data →
     verify_signature (c_agent c) data sg (registry_of (g_ids s)) = Ok true)) as [-> Hok].
  { destruct (c_signature c), (c_signed_data c); minv; naive_solver. }
  destruct ok; [|done]. injection Hr as Hcap <-. split; [done|]. split_and!.
  - destruct auth as [a|] eqn:Ha.
    + by destruct (authority_check now a c (g_ids s)) as [[]|[]].
    + split; [|done]. unfold require_legacy_authority, authority_mode in Hleg.
      case_bool_decide; [|done]. simpl in Hleg. by case_bool_decide.
  - intros Hrv. rewrite Hrv in Hv. by apply negb_false_iff in Hv.
  - by apply Hok.
Qed.

Lemma identity_policy_denies now c s d s' :
  current_identity_policy now c s = (Ok (Some d), s') → allowed d = false ∧ s' = s.
Proof.
  unfold current_identity_policy. rewrite run_bind. cbn [get]. rewrite !run_bind.
  unfold lift at 1. destruct (match auth with None => _ | Some _ => _ end) as [[]|]; [|done].
  rewrite run_bind. unfold lift at 1.
  destruct (match auth with None => Ok (inr tt)
            | Some a => caught (authority_check now a c (g_ids s)) end) as [[why|[]]|]; [by intros [= <- <-]| |done].
  destruct (require_verified eng && _); [by intros [= <- <-]|]. intros Hr.
  apply bind_Ok_inv in Hr as (ok & s1 & Hsig & Hr).
  assert (s1 = s) as -> by (destruct (c_signature c), (c_signed_data c); by minv).
  destruct ok; [|by injection Hr as <- <-]. injection Hr as Hcap <-. split; [|done].
  unfold capability_policy in Hcap. repeat (case_match; simplify_eq/=); done.
Qed.

(** Approval, rules and budget. *)
Definition rules_passed (clock : nat → datetime) (c : call) : Prop :=
  ∀ r, current_rule clock c = Some r → PolicyRules.allowed r = true.

Definition approval_needed (clock : nat → datetime) (c : call) : bool :=
  requires_approval c ||
  match current_rule clock c with Some r => PolicyRules.needs_approval r | None => false end.

Lemma can_afford_why ag p now m why m' :
  Manager.can_afford dflt ag p now m = (Ok (true, why), m') → why = "ok".
Proof.
  unfold Manager.can_afford. intros Hr. minv. rewrite Manager.mutate_run in Hr.
  unfold Manager.can_afford_mutator, Manager.afford in Hr. simpl in Hr.
  repeat (case_match; simplify_eq; try done).
Qed.

Lemma authorize_allowed now clock c s d s' :
  authorize now clock c s = (Ok d, s') → allowed d = true →
  identity_passed now c s ∧ rules_passed clock c ∧
  approval_required d = approval_needed clock c ∧
  (approval_needed clock c = true → granted c s = true) ∧
  Manager.can_afford dflt (c_agent c) (PFloat (c_cost c)) now (g_bud s) =
    (Ok (true, "ok"), g_bud s') ∧
  s' = update (g_bud s') s.
Proof.
  unfold authorize. intros Hr Ha. apply bind_Ok_inv in Hr as (denial & s1 & Hid & Hr).
  destruct denial as [d'|].
  { injection Hr as -> ->. apply identity_policy_denies in Hid as [? _]. congruence. }
  apply identity_policy_None in Hid as [-> Hid]. rewrite run_bind in Hr. cbn [get] in Hr.
  destruct (requires_approval c && _) eqn:Hs; [by injection Hr as <- <-|].
  assert (rules_passed clock c ∧
    (match current_rule clock c with Some r => negb (PolicyRules.allowed r) | None => false end) = false)
    as [Hrules Hno].
  { destruct (current_rule clock c) as [r|] eqn:Hrule; [|split; [intros ?|]; congruence].
    destruct (PolicyRules.allowed r) eqn:Hal; [|by injection Hr as <- <-].
    split; [|done]. intros r' Hr'. congruence. }
  rewrite Hno in Hr. cbv zeta in Hr.
  destruct (match current_rule clock c with Some r => PolicyRules.needs_approval r | None => false end)
    eqn:Hneed.
  1: destruct (granted c s) eqn:Hg; simpl in Hr; [|by injection Hr as <- <-].
  all: simpl in Hr; apply bind_Ok_inv in Hr as ([ok why] & s2 & Hca & Hr).
  all: destruct ok; [|by injection Hr as <- <-]; injection Hr as <- <-.
  all: unfold zoom in Hca; destruct (Manager.can_afford _ _ _ _ _) as [o b] eqn:Hcan; simplify_eq.
  all: pose proof (can_afford_why _ _ _ _ _ _ Hcan) as ->.
  all: unfold approval_needed; rewrite Hneed; split_and!; try done.
  rewrite orb_false_r. intros Hx. rewrite Hx in Hs. by apply negb_false_iff in Hs.
Qed.
End policy.

(** C13: an authorized call passed every gate.  When [authorize] allows, the
    enrolled authority (or, without one, the production allowlist or the
    engine's capability map, in legacy mode) permits the capability; the caller
    is registered and not revoked where verification is required; a supplied
    signature verifies; no rule denies; a live grant for exactly this agent,
    capability and request scope exists whenever the capability is sensitive or
    a rule asks for approval; and the budget affords the cost.  Deciding
    consumes no grant and reserves nothing: only expired calls of the agent's
    budget row are pruned. *)
Theorem authorize_sound `{Ed25519} `{SealScheme} float_repr e eng auth dflt now clock c s d s' :
  authorize float_repr e eng auth dflt now clock c s = (Ok d, s') → allowed d = true →
  identity_passed e eng auth now c s ∧ rules_passed float_repr eng clock c ∧
  approval_required d = approval_needed float_repr eng clock c ∧
  (approval_needed float_repr eng clock c = true → granted eng c s = true) ∧
  Manager.can_afford dflt (c_agent c) (PFloat (c_cost c)) now (g_bud s) =
    (Ok (true, "ok"), g_bud s') ∧
  s' = update (g_bud s') s.
Proof. apply authorize_allowed. Qed.

(** ** A concrete engine *)

Definition demo_env : env := mkEnv true (Some {["al" := Some ["pay"]]}) "legacy_single_tenant".

Definition demo_engine : engine :=
  mkEngine true (Some [MaxCostPerCall (FFin 50)]) ∅ (Some {["pay"]}).

Definition demo_budget : Budget := mkBudget (FFin 1000) 5 (FFin 60) fzero [] [].

Definition demo_gov : gov :=
  mkGov {["al" := mkIdRow "k" false]} (Manager.mkManager ∅ ∅) demo_table
    (AuditLog.Sql.mkDb [] None) (mkLedger ∅ ∅ ∅)
    (mkQuota (Some (mkPolicyRow 1 (Some default_limits))) ∅).

Definition demo_call : call :=
  mkCall "al" "pay" (FFin 10) (Some "mcp") (Some "a2a") (Some "h") None None None None.

Definition demo_run : outcome Decision * gov :=
  authorize (fun _ => "") demo_env demo_engine None demo_budget (FFin 7)
    (fun _ => mkDatetime 0 12) demo_call demo_gov.

Lemma authorize_sound_witness :
  approval_needed (fun _ => "") demo_engine (fun _ => mkDatetime 0 12) demo_call = true ∧
  granted demo_engine demo_call demo_gov = true.
Proof.
  assert (demo_run = (Ok (mkDecision true "authorized" false true), demo_run.2)) as Hr
    by (vm_compute; reflexivity).
  destruct (authorize_sound (fun _ => "") demo_env demo_engine None demo_budget (FFin 7)
    (fun _ => mkDatetime 0 12) demo_call demo_gov _ _ Hr eq_refl) as (_ & _ & Hreq & Hg & _).
  split; [by rewrite <-Hreq|]. apply Hg. by rewrite <-Hreq.
Defined.
