(* ===== verification/Gateway.v ===== *)
(** * The governance gateway

    Models src/governance/gateway.py: admission ([_admit_guarded],
    [_admit_transaction]), settlement, abort and failure accounting, and the
    outcomes of [route_call].

    [shared] says whether every participant uses one durable SQL store
    ([_shared_sql_store]); only then are the blocks transactions.  Telemetry
    (spans, metrics, gauges) has no effect on the state and is left out.  Each
    operation reads the clock once; generated tokens and ids are arguments. *)

From stdpp Require Import base list gmap strings.
From Stdlib Require Import ZArith Lia.
From S2P Require Import Prelude PyFloat Budget AuditLog Approvals Identity PolicyRules Authority OperationLedger Quotas Policy Json Protocols.

Local Open Scope Z_scope.

Record Admission := mkAdmission {
  agent : string;
  src : string;
  dst : string;
  cap : string;
  cost : float64;
  token : string;
  (** [operation_id]; the ledger participates exactly when it is given. *)
  operation : option string;
  wire : json;
  decision : Decision;
  actor : string;
}.

(** The arguments of [route_call]. *)
Record request := mkRequest {
  r_agent : string;
  r_src : string;
  r_dst : string;
  r_wire : json;
  r_cost : pynum;
  r_target : option string;
  r_operation : option string;
  r_signed_data : option string;
  r_signature : option string;
  r_signed_body : option string;
  r_signed_nonce : option string;
  r_principal : option Principal;
}.

(** Values drawn during one admission. *)
Record drawn := mkDrawn {
  now : float64;
  clock : nat → datetime;
  token_uuid : string;
  approval_uuid : string;
  stamp : string;
  call_ids : ids;
}.

(** What a queued admission adds to the transaction. *)
Record queued := mkQueued {
  q_policy : M gov Decision;
  q_link : string → Decision → M gov unit;
}.

(** [except BaseException: cleanup; raise]. *)
Definition on_error {S A} (m : M S A) (cleanup : M S unit) : M S A := fun s =>
  match m s with
  | (Raise e, s') =>
      match cleanup s' with
      | (Ok _, s'') => (Raise e, s'')
      | (Raise e', s'') => (Raise e', s'')
      end
  | r => r
  end.

Section gateway.
Context `{AuditCodec} `{Ed25519} `{SealScheme} `{Sha256} `{JsonText}.
Context (float_repr : float64 → string) (owner_json : string → string → string → string → string).
(** The gateway's configuration: environment, engine, enrolled authority,
    default budget, registry, and whether the participants share one store. *)
Context (e : env) (eng : engine) (auth : option authority) (dflt : Budget)
  (reg : list (string * adapter)) (shared : bool).

Definition record_audit (who why verdict : string) (c : float64) (a_src a_dst a_cap : string)
    (x : drawn) : M gov AuditEntry :=
  zoom (AuditLog.Sql.record
          (AuditLog.mkEvent who "route_call" a_src a_dst a_cap verdict why c) (stamp x)).

(** [self.authority.authorize(...)] when an authority is configured. *)
Definition authority_authorize (t : float64) (p : option Principal) (c : string) (target : option string)
  : M gov unit :=
  match auth with
  | None => mret tt
  | Some a =>
      match p with
      | None => raise (AuthorityDenied "unverified, altered or expired principal context")
      | Some p => _ ← lift (Authority.authorize (auth_key a) t p c target (auth_dir a)).1; mret tt
      end
  end.

Definition tenant_of : option string := auth_tenant <$> auth.

(** The quota hook of [claim]: a denial becomes a rejected admission. *)
Definition quota_hook (x : drawn) (p : option Principal) (ag op fp : string) (c : float64) : M gov unit :=
  match auth, p with
  | Some _, Some p =>
      catch (admit_quota owner_json true tenant_of p ag op fp (PFloat c) (now x))
        (fun err => match err with
                    | QuotaDenied m => Some (raise (AdmissionRejected m false))
                    | _ => None
                    end)
  | _, _ => mret tt
  end.

(** The trigger exists only where quotas are installed. *)
Definition trigger (ag op fp : string) (s : gov) : bool :=
  match auth with Some _ => insert_allowed ag op fp s | None => true end.

Definition claim_operation (x : drawn) (p : option Principal) (ag op fp : string)
    (tok : option string) (hook : M gov unit) : M gov unit :=
  claim tenant_of trigger ag op fp tok
    (match auth with Some _ => Authority.binding <$> p | None => None end) hook (now x).

Definition consume_grant (ag c : string) (scope : option string) : M gov bool :=
  match Policy.sensitive eng with
  | None => mret false
  | Some _ => fun s => let '(b, t) := consume ag c scope (g_apr s) in (Ok b, update t s)
  end.

Definition release_budget (ag tok : string) : M gov unit :=
  _ ← zoom (Manager.release dflt ag tok); mret tt.

(** [_admit_transaction]. *)
Definition admit_transaction (x : drawn) (ag c : string) (amount : float64) (target op : option string)
    (scope : string) (p : option Principal) (dec : Decision) (q : option queued)
  : M gov (string * Decision) :=
  _ ← ensure (shared || negb (bool_decide (is_Some tenant_of)))
             (ValueError "tenant governance requires one shared durable SQL store");
  let reserve_step :=
    '(tok, why) ← zoom (Manager.reserve dflt ag (PFloat amount) (now x) (token_uuid x));
    match tok with
    | None => raise (AdmissionRejected why false)
    | Some t => mret t
    end in
  let policy_step :=
    match q with
    | None => mret dec
    | Some qu =>
        d ← q_policy qu;
        _ ← ensure (allowed d) (AdmissionRejected (reason d) (needs_approval d));
        mret d
    end in
  let consume_step d :=
    if approval_required d then
      b ← consume_grant ag c (Some scope);
      ensure b (AdmissionRejected "approval grant already consumed" false)
    else mret tt in
  let link_step t d :=
    _ ← authority_authorize (now x) p c target;
    match q with None => mret tt | Some qu => q_link qu t d end in
  if shared then
    atomic (
      _ ← match op with
          | None => mret tt
          | Some o => claim_operation x p ag o scope None (quota_hook x p ag o scope amount)
          end;
      d ← policy_step;
      t ← reserve_step;
      _ ← authority_authorize (now x) p c target;
      _ ← match op with None => mret tt | Some o => attach_reservation ag o t end;
      _ ← consume_step d;
      _ ← link_step t d;
      mret (t, d))
  else
    d ← policy_step;
    t ← reserve_step;
    _ ← on_error (
      _ ← authority_authorize (now x) p c target;
      _ ← consume_step d;
      match op with
      | None => mret tt
      | Some o => claim_operation x p ag o scope (Some t) (mret tt)
      end) (release_budget ag t);
    _ ← on_error (link_step t d) (
      _ ← release_budget ag t;
      match op with None => mret tt | Some o => finish ag o failed (now x) end);
    mret (t, d).

(** ** Admission *)

Definition opt_text (o : option string) : json := match o with Some s => JStr s | None => JNull end.

Definition binding_json (p : Principal) : json :=
  JObj [("tenant_id", opt_text (tenant_id p)); ("subject", JStr (subject p));
        ("issuer", JStr (issuer p)); ("kind", JStr (kind p)); ("revision", JInt (revision p));
        ("tenant_revision", JInt (tenant_revision p)); ("agent_id", opt_text (p_agent_id p));
        ("agent_revision", JInt (agent_revision p)); ("delegation_id", opt_text (delegation_id p));
        ("delegation_revision", JInt (delegation_revision p)); ("user_revision", JInt (user_revision p));
        ("grantor_revision", JInt (grantor_revision p));
        ("capabilities", JArr (JStr <$> capabilities p)); ("targets", JArr (JStr <$> targets p))].

(** [request_scope]: the digest of the request material. *)
Definition request_scope (r : request) (c : float64) : string :=
  sha256_hex (canonical_dumps (JObj (
    [("agent_id", JStr (r_agent r)); ("src", JStr (r_src r)); ("dst", JStr (r_dst r));
     ("wire", r_wire r); ("cost", JFloat c); ("target_id", opt_text (r_target r));
     ("operation_id", opt_text (r_operation r))] ++
    match auth, r_principal r with
    | Some _, Some p => [("authority", binding_json p)]
    | _, _ => []
    end))).

(** The comparison of the signed body with the invocation. *)
Definition body_matches (r : request) (body : json) : bool :=
  match body with
  | JObj m =>
      json_eqb (obj_get "src" JNull m) (JStr (r_src r)) &&
      json_eqb (obj_get "dst" JNull m) (JStr (r_dst r)) &&
      json_eqb (obj_get "wire" JNull m) (r_wire r) &&
      json_eqb (obj_get "target_id" JNull m) (opt_text (r_target r)) &&
      json_eqb (obj_get "operation_id" JNull m) (opt_text (r_operation r))
  | _ => false
  end.

(** Authority mode: [json.loads(signed_body)] must bind this operation. *)
Definition signed_operation (r : request) : outcome unit :=
  let bad := Raise (AuthorityDenied "signed principal proof does not bind this operation") in
  match r_signed_body r with
  | None => bad
  | Some b => match json_loads b with
              | Ok j => if body_matches r j then Ok tt else bad
              | Raise _ => bad
              end
  end.

(** [proof_ok] without an authority. *)
Definition proof_ok (r : request) (s : gov) : outcome bool :=
  match r_signed_body r, r_signed_nonce r with
  | Some b, Some n =>
      match json_loads b with
      | Raise _ => Ok false
      | Ok j =>
          if body_matches r j && bool_decide (r_signed_data r = Some (canonical_payload (r_agent r) n b))
          then match r_signature r, r_signed_data r with
               | Some sg, Some d =>
                   match verify_signature (r_agent r) d sg (registry_of (g_ids s)) with
                   | Ok v => Ok v
                   | Raise _ => Ok false
                   end
               | _, _ => Ok false
               end
          else Ok false
      end
  | _, _ => Ok false
  end.

Definition deny_with (who why : string) (approval : option string) (r : request) (c : string) (x : drawn)
  : M gov Admission :=
  _ ← record_audit who why "deny" fzero (r_src r) (r_dst r) c x;
  raise (GovernanceError why approval).

(** The principal checks at the head of [_admit_guarded], and the actor. *)
Definition admit_principal (r : request) (x : drawn) : M gov string :=
  match auth with
  | None => mret (r_agent r)
  | Some a =>
      match r_principal r with
      | Some p =>
          _ ← ensure (bool_decide (tenant_id p = Some (auth_tenant a) ∧ p_agent_id p = Some (r_agent r)))
                     (AuthorityDenied "principal does not own this tenant gateway");
          _ ← lift (assert_request (auth_key a) (now x) p (r_signed_body r) (r_signed_nonce r) (auth_dir a)).1;
          mret ("principal:v1:" +:+ canonical_dumps (binding_json p))%string
      | None => raise (AuthorityDenied "principal does not own this tenant gateway")
      end
  end.

Definition operation_id_ok (o : option string) : bool :=
  match o with Some s => (16 <=? strlen s) && (strlen s <=? 128) | None => false end.

Definition admit_guarded (r : request) (x : drawn) : M gov Admission :=
  _ ← lift (match auth with None => require_legacy_authority e | Some _ => Ok tt end);
  c ← lift (checked_cost (r_cost r));
  who ← admit_principal r x;
  a_src ← lift (get_adapter reg (r_src r));
  _ ← lift (get_adapter reg (r_dst r));
  canonical ← lift (to_canonical_call a_src (gen_call (call_ids x)) (r_wire r));
  let capab := Protocols.capability canonical in
  _ ← authority_authorize (now x) (r_principal r) capab (r_target r);
  _ ← lift (match auth with Some _ => signed_operation r | None => Ok tt end);
  _ ← ensure (json_finite (r_wire r)) (ValueError "Out of range float values are not JSON compliant");
  let scope := request_scope r c in
  let strict := bool_decide (is_Some tenant_of) || prod e in
  if strict && negb (operation_id_ok (r_operation r))
  then deny_with who "durable operation_id required in production" None r capab x
  else
    s ← get;
    proved ← lift (match auth with Some _ => Ok true | None => proof_ok r s end);
    if strict && negb proved
    then deny_with who "request-bound signed agent proof required" None r capab x
    else
      existing ← match r_operation r with None => mret None | Some o => get_operation (r_agent r) o end;
      match existing with
      | Some row => raise (conflict row scope)
      | None =>
          dec ← Policy.authorize float_repr e eng auth dflt (now x) (clock x)
            (Policy.mkCall (r_agent r) capab c (Some (r_src r)) (Some (r_dst r)) (Some scope)
               (r_signed_data r) (r_signature r) (r_principal r) (r_target r));
          if negb (allowed dec) then
            approval ← (if needs_approval dec && bool_decide (is_Some (Policy.sensitive eng))
                        then fun s =>
                          let '(req, t) := Approvals.request (approval_uuid x) (stamp x) (r_agent r) capab c
                                             (Some scope) (g_apr s) in
                          (Ok (Some (Approvals.id req)), update t s)
                        else mret None);
            deny_with who (reason dec) approval r capab x
          else
            dst_wire ← lift (translate_call reg (call_ids x) (r_wire r) (r_src r) (r_dst r));
            admitted ← catch
              (v ← admit_transaction x (r_agent r) capab c (r_target r) (r_operation r) scope
                     (r_principal r) dec None;
               mret (inr v))
              (fun err => match err with AdmissionRejected why _ => Some (mret (inl why)) | _ => None end);
            match admitted with
            | inl why => deny_with who why None r capab x
            | inr (tok, dec) =>
                mret (mkAdmission (r_agent r) (r_src r) (r_dst r) capab c tok (r_operation r) dst_wire dec who)
            end
      end.

(** [_admit]: under an authority, its guard first. *)
Definition admit_call (r : request) (x : drawn) : M gov Admission :=
  _ ← lift (match auth with
            | None => Ok tt
            | Some a => match r_principal r with
                        | Some p => current (auth_key a) (now x) p (auth_dir a)
                        | None => Raise (AuthorityDenied "unverified, altered or expired principal context")
                        end
            end);
  admit_guarded r x.

(** ** Outcomes *)

(** [_atomic_state]. *)
Definition atomic_state {A} (a : Admission) (m : M gov A) : M gov A :=
  if shared then
    atomic (_ ← match operation a with
                | None => mret tt
                | Some o => _ ← lock_unknown_operation (agent a) o; mret tt
                end;
            m)
  else m.

Definition audit_admission (a : Admission) (verdict why : string) (c : float64) (x : drawn) : M gov unit :=
  _ ← record_audit (actor a) why verdict c (src a) (dst a) (cap a) x; mret tt.

Definition abort_admission (a : Admission) (x : drawn) : M gov unit :=
  atomic_state a (
    _ ← release_budget (agent a) (token a);
    _ ← match operation a with None => mret tt | Some o => finish (agent a) o failed (now x) end;
    audit_admission a "error" "request canceled before invocation" fzero x).

(** [str(exc)[:200] or type(exc).__name__]. *)
Definition failure_text (err : pyexn) : string :=
  let m := String.substring 0 200 (exn_message err) in
  if bool_decide (m = "") then exn_class err else m.

Definition invocation_failed (a : Admission) (err : pyexn) (x : drawn) : M gov unit :=
  match operation a with
  | Some _ => audit_admission a "unknown" (failure_text err) fzero x
  | None => _ ← release_budget (agent a) (token a); audit_admission a "error" (failure_text err) fzero x
  end.

Definition settle (a : Admission) (x : drawn) : M gov unit :=
  _ ← atomic_state a (
    _ ← match operation a with
        | Some o =>
            if shared then
              _ ← settle_owned_reservation dflt (agent a) o (token a) succeeded (Some (cost a)) (now x);
              mret tt
            else
              ok ← zoom (Manager.commit dflt (agent a) (token a) (now x));
              _ ← ensure ok (RuntimeError "budget reservation missing after invocation; reconcile outcome");
              finish (agent a) o succeeded (now x)
        | None =>
            ok ← zoom (Manager.commit dflt (agent a) (token a) (now x));
            ensure ok (RuntimeError "budget reservation missing after invocation; reconcile outcome")
        end;
    audit_admission a "allow" (reason (decision a)) (cost a) x);
  (* the gauge reads, and so caches, the agent's budget *)
  _ ← zoom (Manager.get_budget dflt (agent a));
  mret tt.

(** ** One call *)

(** When the caller cancels, if it does. *)
Inductive cancellation := NotCanceled | DuringAdmission | DuringSettlement.

(** [route_call]: admission finishes even when canceled, and is then aborted
    (a failed abort is only logged); a raising invocation is accounted for and
    re-raised; a returning one is settled, also when canceled meanwhile. *)
Definition route_call (r : request) (invoke : json → outcome json) (cn : cancellation)
    (x0 x x' : drawn) : M gov json :=
  a ← catch (admit_call r x0) (fun _ => match cn with
                                   | DuringAdmission => Some (raise CancelledError)
                                   | _ => None
                                   end);
  match cn with
  | DuringAdmission => fun s => (Raise CancelledError, (abort_admission a x s).2)
  | _ =>
      match invoke (wire a) with
      | Raise err => _ ← invocation_failed a err x; raise err
      | Ok result =>
          let surfaced err := match cn with DuringSettlement => CancelledError | _ => err end in
          _ ← catch (settle a x)
                (fun err => Some (_ ← invocation_failed a err x'; raise (surfaced err)));
          match cn with DuringSettlement => raise CancelledError | _ => mret result end
      end
  end.
End gateway.
