(* ===== verification/GatewaySpec.v ===== *)
(** * The gateway's accounting

    Invariants of file Gateway over one shared SQL store, for any number of
    workers whose transactions interleave, crashes and retries included: once
    an admission exists, any of its settlement, abort and failure steps may run
    at any time, any number of times, or never. *)

From stdpp Require Import base list gmap strings relations.
From Stdlib Require Import ZArith Lia.
From S2P Require Import Prelude PyFloat Budget AuditLog Approvals Identity PolicyRules Authority OperationLedger Quotas Policy Json Protocols Gateway.

Local Open Scope Z_scope.

(** ** Reserved tokens under the budget operations *)
Section held.
Context (dflt : Budget).

(** The tokens the next mutator of an agent's budget sees. *)
Definition held (m : Manager.manager) (ag : string) : list (string * float64) :=
  reserved (Manager.current dflt m ag).

(** An agent without a stored budget holds nothing. *)
Definition steady (m : Manager.manager) : Prop :=
  ∀ ag, Manager.rows m !! ag = None → held m ag = [].

Lemma held_store_row ag b m ag' :
  held (Manager.store_row ag b m) ag' = if decide (ag' = ag) then reserved b else held m ag'.
Proof.
  unfold held, Manager.current, Manager.seed, Manager.store_row. simpl. case_decide; subst.
  - by rewrite lookup_insert_eq.
  - by rewrite lookup_insert_ne.
Qed.

Lemma held_store_settled ag b m ag' :
  held (Manager.store_settled ag b m) ag' = if decide (ag' = ag) then reserved b else held m ag'.
Proof.
  unfold held. case_decide; subst; [by rewrite Manager.current_store_eq|].
  by rewrite Manager.current_store_ne.
Qed.

Lemma steady_store_row ag b m : steady m → steady (Manager.store_row ag b m).
Proof.
  intros Hs ag' Hn. rewrite held_store_row. unfold Manager.store_row in Hn. simpl in Hn.
  case_decide; subst; [by rewrite lookup_insert_eq in Hn|].
  apply Hs. by rewrite lookup_insert_ne in Hn.
Qed.

Lemma steady_store_settled ag b m : steady m → steady (Manager.store_settled ag b m).
Proof.
  intros Hs ag' Hn. rewrite held_store_settled. unfold Manager.store_settled in Hn. simpl in Hn.
  case_decide; subst; [by rewrite lookup_insert_eq in Hn|].
  apply Hs. by rewrite lookup_insert_ne in Hn.
Qed.

(** [m'] holds what [m] does, except [l] for agent [ag]. *)
Definition holds (ag : string) (l : list (string * float64)) (m m' : Manager.manager) : Prop :=
  (∀ ag', held m' ag' = if decide (ag' = ag) then l else held m ag') ∧ (steady m → steady m').

Lemma holds_same ag m : holds ag (held m ag) m m.
Proof. split; [|done]. intros ag'. by case_decide; subst. Qed.

Lemma can_afford_holds ag p t m o m' :
  Manager.can_afford dflt ag p t m = (o, m') → holds ag (held m ag) m m'.
Proof.
  destruct (checked_cost p) as [c|err] eqn:Hc.
  - rewrite (Manager.can_afford_run _ _ _ _ _ _ Hc). intros [= <- <-].
    split; [|apply steady_store_row]. intros ag'. by rewrite held_store_row.
  - unfold Manager.can_afford. rewrite run_bind, Hc. intros [= <- <-]. apply holds_same.
Qed.

Lemma reserve_holds ag p t tok m o m' :
  Manager.reserve dflt ag p t tok m = (o, m') →
  match o with
  | Ok (Some tok', _) => tok' = tok ∧ ∃ c, checked_cost p = Ok c ∧ holds ag (dict_set tok c (held m ag)) m m'
  | _ => holds ag (held m ag) m m'
  end.
Proof.
  destruct (checked_cost p) as [c|err] eqn:Hc.
  - rewrite (Manager.reserve_run _ _ _ _ _ _ _ Hc). intros [= <- <-].
    unfold Manager.reserve_mutator.
    destruct (Manager.afford _ c) as [[] why]; simpl.
    + split; [done|]. exists c. split; [done|]. split; [|apply steady_store_settled].
      intros ag'. by rewrite held_store_settled.
    + split; [|apply steady_store_settled]. intros ag'. by rewrite held_store_settled.
  - unfold Manager.reserve. rewrite run_bind, Hc. intros [= <- <-]. apply holds_same.
Qed.

Lemma commit_holds ag tok t m o m' :
  Manager.commit dflt ag tok t m = (o, m') →
  o = Ok (dict_mem tok (held m ag)) ∧ holds ag (dict_pop tok (held m ag)) m m'.
Proof.
  rewrite Manager.commit_run. intros [= <- <-]. unfold Manager.commit_mutator, dict_mem.
  assert (held m ag = reserved (Manager.current dflt m ag)) as -> by done.
  generalize (Manager.current dflt m ag) as b. intros b.
  destruct (dict_get tok (reserved b)) eqn:Hg; simpl; (split; [done|]);
    (split; [|apply steady_store_settled]); intros ag'; rewrite held_store_settled; [done|].
  by rewrite (dict_pop_absent _ _ Hg).
Qed.

Lemma release_holds ag tok m o m' :
  Manager.release dflt ag tok m = (o, m') →
  o = Ok (dict_mem tok (held m ag)) ∧ holds ag (dict_pop tok (held m ag)) m m'.
Proof.
  rewrite Manager.release_run. intros [= <- <-]. unfold Manager.release_mutator, dict_mem.
  assert (held m ag = reserved (Manager.current dflt m ag)) as -> by done.
  generalize (Manager.current dflt m ag) as b. intros b.
  destruct (dict_get tok (reserved b)) eqn:Hg; simpl; (split; [done|]);
    (split; [|apply steady_store_settled]); intros ag'; rewrite held_store_settled; [done|].
  by rewrite (dict_pop_absent _ _ Hg).
Qed.

Lemma get_budget_holds ag m o m' :
  Manager.get_budget dflt ag m = (o, m') → ∀ ag', holds ag' (held m ag') m m'.
Proof.
  unfold Manager.get_budget. intros Hg ag'. simpl in Hg. injection Hg as <- <-.
  assert (∀ ag', held (Manager.mkManager (Manager.rows m) (<[ag := match Manager.rows m !! ag with
           | Some rec => from_state rec
           | None => default dflt (Manager.cache m !! ag) end]> (Manager.cache m))) ag' = held m ag') as He.
  { intros a. unfold held, Manager.current, Manager.seed. simpl.
    destruct (Manager.rows m !! a) eqn:Hr; [done|]. destruct (decide (a = ag)) as [->|].
    - rewrite lookup_insert_eq, Hr. done.
    - by rewrite lookup_insert_ne. }
  split; [intros a; rewrite He; by case_decide; subst|].
  intros Hs a Ha. rewrite He. by apply Hs.
Qed.

Lemma reserved_of_held (s : gov) ag : steady (g_bud s) → reserved_of ag s = held (g_bud s) ag.
Proof.
  intros Hs. unfold reserved_of, budget_rows. simpl view.
  destruct (Manager.rows (g_bud s) !! ag) as [r|] eqn:Hr; [|by rewrite Hs].
  unfold held, Manager.current, Manager.seed. by rewrite Hr.
Qed.
End held.

(** ** Steps that keep the accounts *)
Section quiet.
Context (dflt : Budget).

(** Ledger, quota records and held tokens are as before. *)
Definition quiet (s s' : gov) : Prop :=
  g_led s' = g_led s ∧ g_quo s' = g_quo s ∧
  (∀ ag, held dflt (g_bud s') ag = held dflt (g_bud s) ag) ∧
  (steady dflt (g_bud s) → steady dflt (g_bud s')).

#[global] Instance quiet_preorder : PreOrder quiet.
Proof.
  split; [by intros s|]. intros s1 s2 s3 (?&?&Ha&?) (?&?&Hb&?).
  split_and!; [congruence|congruence| |auto]. intros ag. by rewrite (Hb ag).
Qed.

Definition keeps_accounts {A} (m : M gov A) : Prop := ∀ s o s', m s = (o, s') → quiet s s'.

Lemma quietly_reads {A} (m : M gov A) : reads m → keeps_accounts m.
Proof. intros Hm s o s' Hr. specialize (Hm s). rewrite Hr in Hm. simpl in Hm. by subst. Qed.

Lemma quietly_bind {A B} (f : A → M gov B) (m : M gov A) :
  keeps_accounts m → (∀ a, keeps_accounts (f a)) → keeps_accounts (m ≫= f).
Proof.
  intros Hm Hf s o s'. rewrite run_bind. destruct (m s) as [[a|err] s1] eqn:Hr; intros Hk.
  - etrans; [by eapply Hm|by eapply Hf].
  - injection Hk as <- <-. by eapply Hm.
Qed.

Lemma quietly_atomic {A} (m : M gov A) : keeps_accounts m → keeps_accounts (atomic m).
Proof.
  intros Hm s o s'. unfold atomic. destruct (m s) as [[a|err] s1] eqn:Hr; intros [= <- <-].
  - by eapply Hm.
  - done.
Qed.

Lemma quietly_aud {A} (m : M AuditLog.Sql.audit_db A) : keeps_accounts (zoom m).
Proof. intros s o s'. unfold zoom. destruct (m _). by intros [= <- <-]. Qed.

Lemma quietly_holds {A} (m : M Manager.manager A) :
  (∀ b o b', m b = (o, b') → ∃ ag, holds dflt ag (held dflt b ag) b b') → keeps_accounts (zoom m).
Proof.
  intros Hm s o s'. unfold zoom. destruct (m _) as [r b] eqn:Hr. intros [= <- <-].
  apply Hm in Hr as (ag & Hh & Hs). split_and!; simpl; try done.
  intros ag'. rewrite Hh. by case_decide; subst.
Qed.
End quiet.
#[export] Hint Resolve quietly_reads quietly_aud quietly_atomic : agentbridge.
#[export] Hint Resolve quietly_bind | 10 : agentbridge.

Section accounting.
Context `{AuditCodec} `{Ed25519} `{SealScheme} `{Sha256} `{JsonText}.
Context (float_repr : float64 → string) (owner_json : string → string → string → string → string).
Context (e : env) (eng : engine) (auth : option authority) (dflt : Budget)
  (reg : list (string * adapter)).

Local Notation quiet := (quiet dflt).
Local Notation quietly := (keeps_accounts dflt).
Local Notation admit_call := (Gateway.admit_call float_repr owner_json e eng auth dflt reg true).
Local Notation admit_transaction := (Gateway.admit_transaction owner_json eng auth dflt true).
Local Notation settle := (Gateway.settle dflt true).
Local Notation abort_admission := (Gateway.abort_admission dflt true).
Local Notation invocation_failed := (Gateway.invocation_failed dflt).

Lemma policy_reads t c : reads (current_identity_policy e eng auth t c).
Proof.
  unfold current_identity_policy. apply reads_bind; [auto with agentbridge|]. intros s.
  apply reads_bind; [auto with agentbridge|]. intros _.
  apply reads_bind; [auto with agentbridge|]. intros [why|[]]; [auto with agentbridge|].
  case_match; [auto with agentbridge|]. apply reads_bind.
  - repeat case_match; auto with agentbridge.
  - intros []; simpl; auto with agentbridge.
Qed.

Lemma authorize_quietly t clk c : quietly (Policy.authorize float_repr e eng auth dflt t clk c).
Proof.
  unfold Policy.authorize. apply quietly_bind; [apply quietly_reads, policy_reads|].
  intros [d|]; [auto with agentbridge|]. apply quietly_bind; [auto with agentbridge|]. intros s.
  cbv zeta. repeat match goal with
    |- keeps_accounts _ (if ?b then _ else _) => destruct b; [by auto with agentbridge|]
  end. apply quietly_bind.
  - apply quietly_holds. intros b o b' Hc. exists (c_agent c). by eapply can_afford_holds.
  - intros [ok why]. destruct ok; simpl; auto with agentbridge.
Qed.

Lemma audit_quietly who why v c a b d x : quietly (record_audit who why v c a b d x).
Proof. apply quietly_aud. Qed.

Lemma deny_quietly who why ap r c x : quietly (deny_with who why ap r c x).
Proof. apply quietly_bind; [apply audit_quietly|auto with agentbridge]. Qed.

Lemma principal_reads r x : reads (admit_principal auth r x).
Proof.
  unfold admit_principal. destruct auth; [|auto with agentbridge].
  destruct (r_principal r); auto 6 with agentbridge.
Qed.

Lemma authority_reads t p c target : reads (authority_authorize auth t p c target).
Proof.
  unfold authority_authorize. destruct auth; [|auto with agentbridge].
  destruct p; auto 6 with agentbridge.
Qed.

(** An admission either keeps the accounts and raises, or ends in a committed
    admission transaction. *)
Definition admits (r : request) (x : drawn) (m : M gov Admission) : Prop :=
  ∀ s o s', m s = (o, s') →
  (quiet s s' ∧ ∃ err, o = Raise err) ∨
  ∃ a s1 dec scope, o = Ok a ∧ quiet s s1 ∧
    admit_transaction x (agent a) (cap a) (cost a) (r_target r) (operation a) scope
      (r_principal r) dec None s1 = (Ok (token a, decision a), s') ∧
    agent a = r_agent r ∧ operation a = r_operation r ∧ checked_cost (r_cost r) = Ok (cost a).

Lemma admits_bind {A} r x (m : M gov A) f :
  quietly m → (∀ v, admits r x (f v)) → admits r x (m ≫= f).
Proof.
  intros Hm Hf s o s'. rewrite run_bind. destruct (m s) as [[v|err] s1] eqn:Hr; intros Hk.
  - apply Hm in Hr. apply Hf in Hk as [[Hq He]|(a & s2 & dec & scope & -> & Hq & Hrest)].
    + left. split; [by etrans|done].
    + right. exists a, s2, dec, scope. split; [done|]. split; [by etrans|exact Hrest].
  - injection Hk as <- <-. left. split; [by eapply Hm|by eexists].
Qed.

Lemma admits_lift {A} r x (v : outcome A) f :
  (∀ a, v = Ok a → admits r x (f a)) → admits r x (lift v ≫= f).
Proof.
  intros Hf s o s'. rewrite run_bind. unfold lift. destruct v as [a|err]; [by apply Hf|].
  intros [= <- <-]. left. split; [done|by eexists].
Qed.

Lemma admits_deny r x who why ap r' c x' : admits r x (deny_with who why ap r' c x').
Proof.
  intros s o s' Hd. left. split; [by eapply deny_quietly|].
  unfold deny_with in Hd. rewrite run_bind in Hd.
  destruct (record_audit _ _ _ _ _ _ _ _ s) as [[] ?]; injection Hd as <- <-; by eexists.
Qed.

Lemma admits_raise r x err : admits r x (raise err).
Proof. intros s o s' [= <- <-]. left. split; [done|by eexists]. Qed.

(** The transaction, its rejection turned into a denial. *)
Lemma admits_transaction r x c capab dec scope (k : string → Decision → Admission) who :
  (∀ t d, agent (k t d) = r_agent r ∧ operation (k t d) = r_operation r ∧ cap (k t d) = capab ∧
          cost (k t d) = c ∧ token (k t d) = t ∧ decision (k t d) = d) →
  checked_cost (r_cost r) = Ok c →
  admits r x (
    admitted ← catch
      (v ← admit_transaction x (r_agent r) capab c (r_target r) (r_operation r) scope
             (r_principal r) dec None;
       mret (inr v))
      (fun err => match err with AdmissionRejected why _ => Some (mret (inl why)) | _ => None end);
    match admitted with
    | inl why => deny_with who why None r capab x
    | inr (t, d) => mret (k t d)
    end).
Proof.
  intros Hk Hc s o s'. rewrite run_bind. unfold catch. rewrite run_bind.
  destruct (admit_transaction _ _ _ _ _ _ _ _ _ _ s) as [[[t d]|err] s1] eqn:Ht.
  - intros [= <- <-]. right. destruct (Hk t d) as (E1 & E2 & E3 & E4 & E5 & E6).
    exists (k t d), s, dec, scope. rewrite E1, E2, E3, E4, E5, E6. by split_and!.
  - assert (s1 = s) as ->.
    { unfold Gateway.admit_transaction in Ht. simpl in Ht. by apply atomic_Raise in Ht. }
    destruct err; try (intros [= <- <-]; left; split; [done|by eexists]).
    simpl. intros Hd. by apply (admits_deny r x) in Hd.
Qed.

Lemma admit_cases r x : admits r x (admit_call r x).
Proof.
  unfold Gateway.admit_call, admit_guarded. apply admits_lift. intros _ _.
  apply admits_lift. intros _ _. apply admits_lift. intros c Hc.
  apply admits_bind; [apply quietly_reads, principal_reads|]. intros who.
  apply admits_lift. intros a_src _. apply admits_lift. intros _ _.
  apply admits_lift. intros canonical _.
  apply admits_bind; [apply quietly_reads, authority_reads|]. intros _.
  apply admits_lift. intros _ _. apply admits_bind; [auto with agentbridge|]. intros _.
  match goal with |- admits _ _ (if ?b then _ else _) => destruct b; [apply admits_deny|] end.
  apply admits_bind; [auto with agentbridge|]. intros s0. apply admits_lift. intros proved _.
  match goal with |- admits _ _ (if ?b then _ else _) => destruct b; [apply admits_deny|] end.
  apply admits_bind; [destruct (r_operation r); unfold get_operation; by auto with agentbridge|]. intros [row|]; [apply admits_raise|].
  apply admits_bind; [apply authorize_quietly|]. intros dec.
  match goal with |- admits _ _ (if ?b then _ else _) => destruct b end.
  - apply admits_bind; [|intros; apply admits_deny].
    match goal with |- keeps_accounts _ (if ?b then _ else _) => destruct b end;
      [by intros s o s' [= <- <-]|auto with agentbridge].
  - apply admits_lift. intros dst_wire _.
    apply (admits_transaction r x c (Protocols.capability canonical) dec _
      (fun tok dec => mkAdmission (r_agent r) (r_src r) (r_dst r)
         (Protocols.capability canonical) c tok (r_operation r) dst_wire dec who)); [|done].
    done.
Qed.

(** ** The admission transaction *)

Lemma hook_effect x p ag o fp c s u s' :
  quota_hook owner_json auth x p ag o fp c s = (Ok u, s') → g_led s' = g_led s ∧ g_bud s' = g_bud s.
Proof.
  unfold quota_hook. destruct auth; [|by intros [= <- <-]]. destruct p; [|by intros [= <- <-]].
  unfold catch. destruct (Quotas.admit_quota _ _ _ _ _ _ _ _ _ s) as [[[]|err] s1] eqn:Ha.
  2:{ destruct err; by intros [= <- <-]. }
  intros [= <- <-]. unfold Quotas.admit_quota, admit_record in Ha. minv.
  match goal with H : (if ?b then _ else _) _ = _ |- _ => destruct b end; minv; by injection Ha as <-.
Qed.

(** A new operation row, still without reservation. *)
Lemma claim_effect x p ag o fp c s u s' :
  claim_operation auth x p ag o fp None (quota_hook owner_json auth x p ag o fp c) s = (Ok u, s') →
  g_bud s' = g_bud s ∧ ops (g_led s) !! (ag, o) = None ∧
  ops (g_led s') = <[(ag, o) := mkOp fp unknown (now x)]> (ops (g_led s)) ∧
  reservations (g_led s') = reservations (g_led s).
Proof.
  unfold claim_operation, claim. intros Hr. minv.
  destruct (ops (g_led s) !! (ag, o)) as [row|] eqn:Hrow; minv.
  match goal with H : quota_hook _ _ _ _ _ _ _ _ _ = _ |- _ => apply hook_effect in H as [Hl Hb] end.
  unfold led, modify_ledger, modify in *. simpl in *.
  match goal with H : (Ok tt, _) = (Ok tt, _) |- _ => injection H as <- end.
  match goal with H : match ?b with Some _ => _ | None => _ end _ = _ |- _ => destruct b end; minv;
    unfold modify_ledger, modify in *; simpl in *;
    repeat match goal with H : (Ok tt, _) = (Ok tt, _) |- _ => injection H as <- end; simpl;
    rewrite Hl, Hb; done.
Qed.

Lemma attach_effect ag o tok s u s' :
  attach_reservation ag o tok s = (Ok u, s') →
  g_bud s' = g_bud s ∧ ops (g_led s') = ops (g_led s) ∧
  reservations (g_led s) !! (ag, o) = None ∧ attached ag tok (g_led s) = false ∧
  reservations (g_led s') = <[(ag, o) := tok]> (reservations (g_led s)).
Proof.
  unfold attach_reservation. intros Hr. minv. unfold modify_ledger, modify, led in *. simpl in *.
  injection Hr as <-. repeat match goal with H : bool_decide _ = true |- _ =>
    apply bool_decide_eq_true in H end. split_and!; try done. by apply negb_true_iff.
Qed.

Lemma reserve_effect ag c x s t why s' :
  zoom (Manager.reserve dflt ag (PFloat c) (now x) (token_uuid x)) s = (Ok (Some t, why), s') →
  g_led s' = g_led s ∧ t = token_uuid x ∧
  holds dflt ag (dict_set t c (held dflt (g_bud s) ag)) (g_bud s) (g_bud s').
Proof.
  unfold zoom. destruct (Manager.reserve _ _ _ _ _ _) as [o b] eqn:Hr. intros [= -> <-].
  apply reserve_holds in Hr as (-> & c' & Hc & Hh). simpl.
  assert (c' = c) as -> by (simpl in Hc; case_match; simplify_eq; done). done.
Qed.

Lemma consume_effect ag c sc s u s' :
  consume_grant eng ag c sc s = (Ok u, s') → g_led s' = g_led s ∧ g_bud s' = g_bud s.
Proof.
  unfold consume_grant. destruct (Policy.sensitive eng); [|by intros [= <- <-]].
  destruct (consume _ _ _ _). by intros [= <- <-].
Qed.

Lemma reads_Ok {A} (m : M gov A) s a s' : reads m → m s = (Ok a, s') → s' = s.
Proof. intros Hm Hr. specialize (Hm s). by rewrite Hr in Hm. Qed.

(** What a committed admission adds to the ledger. *)
Definition links (ag o tok : string) (l l' : ledger) : Prop :=
  ops l !! (ag, o) = None ∧ reservations l !! (ag, o) = None ∧ attached ag tok l = false ∧
  (∃ row, op_st row = unknown ∧ ops l' = <[(ag, o) := row]> (ops l)) ∧
  reservations l' = <[(ag, o) := tok]> (reservations l).

Lemma transaction_effect x ag c amount target op scope p dec s t d s' :
  admit_transaction x ag c amount target op scope p dec None s = (Ok (t, d), s') →
  t = token_uuid x ∧
  holds dflt ag (dict_set t amount (held dflt (g_bud s) ag)) (g_bud s) (g_bud s') ∧
  match op with
  | None => g_led s' = g_led s
  | Some o => links ag o t (g_led s) (g_led s')
  end.
Proof.
  unfold Gateway.admit_transaction. intros Hr.
  apply bind_Ok_inv in Hr as ([] & s0 & He & Hr). apply ensure_Ok_inv in He as [_ ->].
  apply (proj1 (atomic_Ok _ _ _ _)) in Hr.
  apply bind_Ok_inv in Hr as (u1 & s1 & Hclaim & Hr).
  apply bind_Ok_inv in Hr as (d' & s2 & Hd & Hr). injection Hd as <- <-.
  apply bind_Ok_inv in Hr as (t' & s3 & Hres & Hr).
  apply bind_Ok_inv in Hres as ([[t0|] why] & s4 & Hres & Ht); [|done]. injection Ht as <- <-.
  apply reserve_effect in Hres as (Hl3 & -> & Hh).
  apply bind_Ok_inv in Hr as (u4 & s5 & Hau & Hr).
  apply reads_Ok in Hau as ->; [|apply authority_reads].
  apply bind_Ok_inv in Hr as (u5 & s6 & Hatt & Hr).
  apply bind_Ok_inv in Hr as (u6 & s7 & Hcon & Hr).
  assert (g_led s7 = g_led s6 ∧ g_bud s7 = g_bud s6) as [Hl7 Hb7].
  { destruct (approval_required dec); [|by injection Hcon as _ <-].
    apply bind_Ok_inv in Hcon as (b & s8 & Hc & He). apply ensure_Ok_inv in He as [_ ->].
    by eapply consume_effect. }
  apply bind_Ok_inv in Hr as (u7 & s8 & Hlink & Hr). injection Hr as <- <- <-.
  apply bind_Ok_inv in Hlink as (u8 & s9 & Hau & Hlink). injection Hlink as _ <-.
  apply reads_Ok in Hau as ->; [|apply authority_reads].
  split; [done|]. rewrite Hl7, Hb7. destruct op as [o|].
  - apply claim_effect in Hclaim as (Hb1 & Hno & Hops & Hrs).
    apply attach_effect in Hatt as (Hb6 & Hops6 & Hr6 & Hat & Hrs6).
    rewrite Hl3 in *. rewrite Hb6. split.
    + by rewrite <-Hb1.
    + split_and!; try congruence.
      * unfold attached in *. by rewrite <-Hrs.
      * exists (mkOp scope unknown (now x)). split; [done|]. congruence.
  - injection Hclaim as _ <-. injection Hatt as _ <-. done.
Qed.

(** ** Outcomes *)

Lemma finish_effect ag o out t s u s' :
  finish ag o out t s = (Ok u, s') →
  g_bud s' = g_bud s ∧ reservations (g_led s') = reservations (g_led s) ∧
  ∃ row row', ops (g_led s) !! (ag, o) = Some row ∧ op_st row' = out ∧
    fingerprint row' = fingerprint row ∧ ops (g_led s') = <[(ag, o) := row']> (ops (g_led s)).
Proof.
  unfold finish. rewrite run_bind. cbn [get]. unfold led. simpl.
  destruct (ops (g_led s) !! (ag, o)) as [row|] eqn:Hrow; [|done].
  intros [= <- <-]. simpl. split_and!; try done. exists row, (mkOp (fingerprint row) out t). by split_and!.
Qed.

Lemma lock_effect ag o s row s' :
  lock_unknown_operation ag o s = (Ok row, s') →
  s' = s ∧ ops (g_led s) !! (ag, o) = Some row ∧ op_st row = unknown.
Proof.
  unfold lock_unknown_operation. rewrite run_bind. cbn [get]. unfold led. simpl.
  destruct (ops (g_led s) !! (ag, o)) as [row'|]; [|done].
  case_bool_decide; [|done]. by intros [= <- <-].
Qed.

(** Operation [(ag, o)] leaves [unknown] for [out] and its token is returned. *)
Definition resolves (ag o tok : string) (out : op_state) (s s' : gov) : Prop :=
  out ≠ unknown ∧
  (∃ row row', ops (g_led s) !! (ag, o) = Some row ∧ op_st row = unknown ∧ op_st row' = out ∧
     fingerprint row' = fingerprint row ∧ ops (g_led s') = <[(ag, o) := row']> (ops (g_led s))) ∧
  reservations (g_led s') = reservations (g_led s) ∧
  holds dflt ag (dict_pop tok (held dflt (g_bud s) ag)) (g_bud s) (g_bud s').

(** A token outside the ledger is returned. *)
Definition returns (ag tok : string) (s s' : gov) : Prop :=
  g_led s' = g_led s ∧ holds dflt ag (dict_pop tok (held dflt (g_bud s) ag)) (g_bud s) (g_bud s').

Lemma holds_quiet ag l s s1 s2 :
  holds dflt ag l (g_bud s) (g_bud s1) → quiet s1 s2 → holds dflt ag l (g_bud s) (g_bud s2).
Proof.
  intros [Hh Hs] (_ & _ & Hq & Hqs). split; [intros ag'; by rewrite Hq, Hh|auto].
Qed.

Lemma resolves_quiet ag o tok out s s1 s2 :
  resolves ag o tok out s s1 → quiet s1 s2 → resolves ag o tok out s s2.
Proof.
  intros (Ho & Hops & Hr & Hh) Hq. pose proof (holds_quiet _ _ _ _ _ Hh Hq) as Hh'.
  destruct Hq as (Hl & _). unfold resolves. rewrite Hl. done.
Qed.

Lemma owned_effect ag o tok out expected t s c s' :
  ops (g_led s) !! (ag, o) ≫= (fun row => Some (op_st row)) = Some unknown →
  settle_owned_reservation dflt ag o tok out expected t s = (Ok c, s') →
  reservations (g_led s) !! (ag, o) = Some tok ∧ resolves ag o tok out s s'.
Proof.
  intros Hun Hr. unfold settle_owned_reservation in Hr.
  apply bind_Ok_inv in Hr as ([] & s0 & He & Hr). apply ensure_Ok_inv in He as [Hout%bool_decide_eq_true ->].
  rewrite run_bind in Hr. cbn [get] in Hr.
  apply bind_Ok_inv in Hr as ([] & s0 & He & Hr). apply ensure_Ok_inv in He as [Hres%bool_decide_eq_true ->].
  split; [done|]. destruct (dict_get tok (reserved_of ag s)) as [amount|]; [|done].
  apply bind_Ok_inv in Hr as (c' & s0 & Hl & Hr). apply lift_Ok_inv in Hl as [_ ->].
  apply bind_Ok_inv in Hr as ([] & s0 & He & Hr). apply ensure_Ok_inv in He as [_ ->].
  apply bind_Ok_inv in Hr as (ch & s1 & Hch & Hr).
  apply bind_Ok_inv in Hr as ([] & s2 & He & Hr). apply ensure_Ok_inv in He as [-> ->].
  apply bind_Ok_inv in Hr as ([] & s3 & Hfin & Hr). injection Hr as _ <-.
  assert (g_led s1 = g_led s ∧
    holds dflt ag (dict_pop tok (held dflt (g_bud s) ag)) (g_bud s) (g_bud s1)) as [Hl Hh].
  { destruct (bool_decide (out = succeeded)); unfold zoom in Hch.
    - destruct (Manager.commit _ _ _ _ _) as [r b] eqn:Hc. injection Hch as -> <-.
      by apply commit_holds in Hc as [_ ?].
    - destruct (Manager.release _ _ _ _) as [r b] eqn:Hc. injection Hch as -> <-.
      by apply release_holds in Hc as [_ ?]. }
  apply finish_effect in Hfin as (Hb & Hrs & row & row' & Hrow & Hst & Hfp & Hops).
  rewrite Hl in *. unfold resolves. rewrite Hb, Hrs. split_and!; try done.
  exists row, row'. split_and!; try done. rewrite Hrow in Hun. simpl in Hun. congruence.
Qed.

Lemma release_effect ag tok s u s' :
  release_budget dflt ag tok s = (Ok u, s') → returns ag tok s s'.
Proof.
  unfold release_budget. intros Hr. apply bind_Ok_inv in Hr as (b & s1 & Hr & Hv).
  injection Hv as _ <-. unfold zoom in Hr.
  destruct (Manager.release _ _ _ _) as [r m] eqn:Hm. injection Hr as -> <-.
  by apply release_holds in Hm as [_ ?].
Qed.

Lemma admission_audit_quiet a v why c x s o s' : audit_admission a v why c x s = (o, s') → quiet s s'.
Proof.
  apply quietly_bind; [apply audit_quietly|auto with agentbridge].
Qed.

(** Settlement: all or nothing. *)
Lemma settle_effect a x s o s' :
  settle a x s = (o, s') →
  match o with
  | Raise _ => s' = s
  | Ok _ =>
      match operation a with
      | None => returns (agent a) (token a) s s' ∧ dict_mem (token a) (held dflt (g_bud s) (agent a)) = true
      | Some op => resolves (agent a) op (token a) succeeded s s'
      end
  end.
Proof.
  unfold Gateway.settle. rewrite run_bind.
  destruct (atomic_state true a _ s) as [[[]|err] s1] eqn:Hat.
  2:{ intros [= <- <-]. by apply atomic_Raise in Hat. }
  rewrite run_bind. destruct (zoom (Manager.get_budget dflt (agent a)) s1) as [r s2] eqn:Hgb.
  assert (quiet s1 s2) as Hq2.
  { eapply quietly_holds; [|done]. intros b o' b' Hb. exists (agent a). by eapply get_budget_holds. }
  assert (∃ b, r = Ok b) as [b ->].
  { unfold zoom, Manager.get_budget in Hgb. simpl in Hgb. injection Hgb as <- _. by eexists. }
  intros [= <- <-]. apply (proj1 (atomic_Ok _ _ _ _)) in Hat.
  apply bind_Ok_inv in Hat as (u0 & s0 & Hlock & Hat).
  apply bind_Ok_inv in Hat as (u1 & s3 & Hset & Haud). apply admission_audit_quiet in Haud as Hq.
  destruct (operation a) as [op|].
  - apply bind_Ok_inv in Hlock as (row & s4 & Hlock & Hv). injection Hv as _ <-.
    apply lock_effect in Hlock as (-> & Hrow & Hun).
    apply bind_Ok_inv in Hset as (c & s5 & Hset & Hv). injection Hv as _ <-.
    apply owned_effect in Hset as [_ Hres]; [|by rewrite Hrow; simpl; rewrite Hun].
    eapply resolves_quiet; [by eapply resolves_quiet|done].
  - injection Hlock as _ <-. apply bind_Ok_inv in Hset as (ok & s4 & Hc & He).
    apply ensure_Ok_inv in He as [-> ->]. unfold zoom in Hc.
    destruct (Manager.commit _ _ _ _ _) as [r m] eqn:Hm. injection Hc as -> <-.
    apply commit_holds in Hm as [[= Hmem] Hh]. split; [|done].
    pose proof (holds_quiet _ _ _ _ _ (holds_quiet _ _ s (update m s) _ Hh Hq) Hq2).
    destruct Hq2 as (Hl2 & _), Hq as (Hl & _). unfold returns. by rewrite Hl2, Hl.
Qed.

Lemma abort_effect a x s o s' :
  abort_admission a x s = (o, s') →
  match o with
  | Raise _ => s' = s
  | Ok _ =>
      match operation a with
      | None => returns (agent a) (token a) s s'
      | Some op => resolves (agent a) op (token a) failed s s'
      end
  end.
Proof.
  unfold Gateway.abort_admission. destruct o as [[]|err]; intros Hat; [|by apply atomic_Raise in Hat].
  apply (proj1 (atomic_Ok _ _ _ _)) in Hat. apply bind_Ok_inv in Hat as (u0 & s0 & Hlock & Hat).
  apply bind_Ok_inv in Hat as (u1 & s1 & Hrel & Hat).
  apply bind_Ok_inv in Hat as (u2 & s2 & Hfin & Haud). apply admission_audit_quiet in Haud as Hq.
  apply release_effect in Hrel as [Hl1 Hh1].
  destruct (operation a) as [op|].
  - apply bind_Ok_inv in Hlock as (row & s4 & Hlock & Hv). injection Hv as _ <-.
    apply lock_effect in Hlock as (-> & Hrow & Hun).
    apply finish_effect in Hfin as (Hb & Hrs & row1 & row' & Hrow1 & Hst & Hfp & Hops).
    eapply resolves_quiet; [|done]. rewrite Hl1 in *. unfold resolves. rewrite Hb, Hrs.
    split_and!; try done. exists row1, row'. split_and!; try done. congruence.
  - injection Hlock as _ <-. injection Hfin as _ <-. unfold returns.
    pose proof (holds_quiet _ _ _ _ _ Hh1 Hq). destruct Hq as (Hl & _). rewrite Hl. done.
Qed.

Lemma failed_effect a err x s o s' :
  invocation_failed a err x s = (o, s') →
  match operation a with
  | None => returns (agent a) (token a) s s'
  | Some _ => quiet s s'
  end.
Proof.
  unfold Gateway.invocation_failed. destruct (operation a); [apply admission_audit_quiet|].
  rewrite run_bind. destruct (release_budget dflt (agent a) (token a) s) as [[[]|e'] s1] eqn:Hr.
  - intros Hq%admission_audit_quiet. apply release_effect in Hr as [Hl Hh]. unfold returns.
    pose proof (holds_quiet _ _ _ _ _ Hh Hq). destruct Hq as (Hl2 & _). by rewrite Hl2.
  - unfold release_budget in Hr. rewrite run_bind in Hr. unfold zoom in Hr.
    rewrite Manager.release_run in Hr. done.
Qed.
End accounting.
