(* ===== verification/GatewayRuns.v ===== *)
(** * Runs of the gateway

    Workers over one shared SQL store, their transactions in any order.  An
    admission, once returned, may be settled, aborted or reported failed at any
    time, any number of times, or never (a crashed worker).  The invariant ties
    the operation ledger to the reserved budget tokens; the theorems say that a
    claimed operation is admitted once, keeps its outcome, and holds its
    reserved amount exactly while its outcome is unknown.  The operator may
    replace an agent's budget at any moment ([PUT /control/budgets]); the
    operations whose reservation that discards are tracked. *)

From stdpp Require Import base list gmap strings relations.
From Stdlib Require Import ZArith Lia.
From S2P Require Import Prelude PyFloat Budget AuditLog Approvals Identity PolicyRules Authority OperationLedger Quotas Policy Json Protocols Gateway GatewaySpec BudgetSpec AuditSpec.

Local Open Scope Z_scope.

(** ** The accounting invariant *)
Section invariant.
Context (dflt : Budget).
Local Notation held s := (held dflt (g_bud s)).

(** An admission and what the ledger knows of it. *)
Definition admission_ok (s : gov) (st : gset (string * string)) (a : Admission) : Prop :=
  checked_cost (PFloat (cost a)) = Ok (cost a) ∧
  match operation a with
  | None => ∀ o, reservations (g_led s) !! (agent a, o) ≠ Some (token a)
  | Some o =>
      reservations (g_led s) !! (agent a, o) = Some (token a) ∧
      ∃ row, ops (g_led s) !! (agent a, o) = Some row ∧
        (op_st row = unknown → (agent a, o) ∉ st → dict_get (token a) (held s (agent a)) = Some (cost a))
  end.

(** [st]: the operations whose reservation a replaced budget discarded. *)
Record accounted (s : gov) (adm : list Admission) (st : gset (string * string)) : Prop := {
  acc_steady : steady dflt (g_bud s);
  acc_keys ag : NoDup (dict_keys (held s ag));
  acc_owner ag o o' tok :
    reservations (g_led s) !! (ag, o) = Some tok →
    reservations (g_led s) !! (ag, o') = Some tok → o = o';
  (** every operation has a reservation, held exactly while it is unknown,
      unless it was discarded *)
  acc_exposure ag o row :
    ops (g_led s) !! (ag, o) = Some row →
    ∃ tok, reservations (g_led s) !! (ag, o) = Some tok ∧
      (dict_mem tok (held s ag) = true ↔ op_st row = unknown ∧ (ag, o) ∉ st);
  acc_discarded k : k ∈ st → is_Some (ops (g_led s) !! k);
  acc_rows k : is_Some (reservations (g_led s) !! k) → is_Some (ops (g_led s) !! k);
  acc_admissions : Forall (admission_ok s st) adm;
  (** admissions of one operation are one admission *)
  acc_once i j a b o :
    adm !! i = Some a → adm !! j = Some b → agent a = agent b →
    operation a = Some o → operation b = Some o → i = j;
}.

(** Ledger and held tokens as before. *)
Definition same_accounts (s s' : gov) : Prop :=
  g_led s' = g_led s ∧ (∀ ag, held s' ag = held s ag) ∧ steady dflt (g_bud s').

Lemma quiet_same s s' : steady dflt (g_bud s) → quiet dflt s s' → same_accounts s s'.
Proof. intros Hs (? & _ & ? & ?). split_and!; auto. Qed.

Lemma admission_ok_same s s' st a : same_accounts s s' → admission_ok s st a → admission_ok s' st a.
Proof. intros (Hl & Hh & _) (Hc & Ha). split; [done|]. rewrite Hl. case_match; [|done]. by rewrite Hh. Qed.

Lemma accounted_same s s' adm st : same_accounts s s' → accounted s adm st → accounted s' adm st.
Proof.
  intros Hsame [Hs Hk Ho He Hd Hr Ha H1]. pose proof Hsame as (Hl & Hh & Hst). split.
  - done.
  - intros ag. rewrite Hh. done.
  - rewrite Hl. done.
  - intros ag o row. rewrite Hl, Hh. apply He.
  - rewrite Hl. done.
  - rewrite Hl. done.
  - eapply Forall_impl; [done|]. intros a. by apply admission_ok_same.
  - done.
Qed.

(** Returning the token of an admission the ledger does not own. *)
Lemma accounted_returns s s' adm st a :
  a ∈ adm → operation a = None → returns dflt (agent a) (token a) s s' →
  accounted s adm st → accounted s' adm st.
Proof.
  intros Hin Hop (Hl & Hh & Hst) [Hs Hk Ho He Hd Hr Ha H1].
  assert (∀ o, reservations (g_led s) !! (agent a, o) ≠ Some (token a)) as Hfree.
  { rewrite Forall_forall in Ha. destruct (Ha _ Hin) as [_ Hx]. by rewrite Hop in Hx. }
  assert (∀ ag o tok, reservations (g_led s) !! (ag, o) = Some tok →
            dict_get tok (held s' ag) = dict_get tok (held s ag)) as Hkeep.
  { intros ag o tok Hres. rewrite Hh. case_decide as Hag; [|done]. subst ag.
    apply dict_get_pop_ne. intros ->. by eapply Hfree. }
  split; try by rewrite Hl.
  - auto.
  - intros ag. rewrite Hh. case_decide; [apply dict_pop_nodup|]; done.
  - intros ag o row. rewrite Hl. intros (tok & Hres & Hiff)%He. exists tok. split; [done|].
    unfold dict_mem. by rewrite (Hkeep _ _ _ Hres).
  - eapply Forall_impl; [done|]. intros b (Hc & Hb). split; [done|]. rewrite Hl.
    case_match; [|done]. destruct Hb as (Hres & row & Hrow & Hun). split; [done|].
    exists row. split; [done|]. by rewrite (Hkeep _ _ _ Hres).
  - done.
Qed.

(** An unknown operation gets its outcome and returns its own token. *)
Lemma accounted_resolves s s' adm st ag o tok out :
  reservations (g_led s) !! (ag, o) = Some tok → resolves dflt ag o tok out s s' →
  accounted s adm st → accounted s' adm st.
Proof.
  intros Htok (Hout & (row & row' & Hrow & Hun & Hst' & _ & Hops) & Hl & Hh & Hst)
    [Hs Hk Ho He Hd Hr Ha H1].
  assert (∀ ag1 o1 t1, reservations (g_led s) !! (ag1, o1) = Some t1 → (ag1, o1) ≠ (ag, o) →
            dict_get t1 (held s' ag1) = dict_get t1 (held s ag1)) as Hkeep.
  { intros ag1 o1 t1 Hres Hne. rewrite Hh. case_decide as Hag; [|done]. subst ag1.
    apply dict_get_pop_ne. intros ->. apply Hne. f_equal. by eapply Ho. }
  split; try by rewrite Hl.
  - auto.
  - intros ag1. rewrite Hh. case_decide; [apply dict_pop_nodup|]; done.
  - intros ag1 o1 r1. rewrite Hops, Hl. destruct (decide ((ag1, o1) = (ag, o))) as [[= -> ->]|Hne].
    + rewrite lookup_insert_eq. intros [= <-]. exists tok. split; [done|].
      rewrite Hh, decide_True by done. unfold dict_mem. rewrite dict_get_pop_eq by done.
      split; [done|intros [? _]; congruence].
    + rewrite lookup_insert_ne by congruence. intros (t1 & Hres & Hiff)%He. exists t1. split; [done|].
      unfold dict_mem. by rewrite (Hkeep _ _ _ Hres).
  - intros k Hin. rewrite Hops, lookup_insert_is_Some. destruct (decide ((ag, o) = k)); auto.
  - intros k. rewrite Hl, Hops, lookup_insert_is_Some. intros Hk1.
    destruct (decide ((ag, o) = k)); auto.
  - eapply Forall_impl; [done|]. intros b (Hc & Hb). split; [done|]. rewrite Hl, Hops.
    case_match eqn:Hob; [|done]. destruct Hb as (Hres & r & Hr1 & Hu1). split; [done|].
    destruct (decide ((agent b, s0) = (ag, o))) as [Heq|Hne].
    + rewrite Heq, lookup_insert_eq. exists row'. split; [done|]. congruence.
    + rewrite lookup_insert_ne by congruence. exists r. split; [done|].
      by rewrite (Hkeep _ _ _ Hres).
  - done.
Qed.

(** The value a fresh reservation token may not have. *)
Definition fresh_token (s : gov) (adm : list Admission) (ag tok : string) : Prop :=
  (∀ o, reservations (g_led s) !! (ag, o) ≠ Some tok) ∧
  ∀ a, a ∈ adm → agent a = ag → token a ≠ tok.

(** A committed admission transaction. *)
Definition opens (a : Admission) (s s' : gov) : Prop :=
  checked_cost (PFloat (cost a)) = Ok (cost a) ∧
  holds dflt (agent a) (dict_set (token a) (cost a) (held s (agent a))) (g_bud s) (g_bud s') ∧
  match operation a with
  | None => g_led s' = g_led s
  | Some o => links (agent a) o (token a) (g_led s) (g_led s')
  end.

Lemma opens_kept s s' adm a ag o tok :
  fresh_token s adm (agent a) (token a) → opens a s s' →
  reservations (g_led s) !! (ag, o) = Some tok →
  dict_get tok (held s' ag) = dict_get tok (held s ag).
Proof.
  intros [Hf _] (_ & [Hh _] & _) Hres. rewrite Hh. case_decide; [|done]. subst ag.
  apply dict_get_set_ne. intros ->. by eapply Hf.
Qed.

(** The ledger after an admission: at most its own key is new. *)
Lemma opens_ledger s s' a k :
  opens a s s' → (∀ o, operation a = Some o → k ≠ (agent a, o)) →
  ops (g_led s') !! k = ops (g_led s) !! k ∧
  reservations (g_led s') !! k = reservations (g_led s) !! k.
Proof.
  intros (_ & _ & Hl) Hk. destruct (operation a) as [o|]; [|by rewrite Hl].
  destruct Hl as (_ & _ & _ & (row & _ & ->) & ->).
  rewrite !lookup_insert_ne by (intros <-; by eapply Hk). done.
Qed.

Lemma opens_own s s' a o :
  opens a s s' → operation a = Some o →
  ops (g_led s) !! (agent a, o) = None ∧ reservations (g_led s) !! (agent a, o) = None ∧
  reservations (g_led s') !! (agent a, o) = Some (token a) ∧
  (∃ row, ops (g_led s') !! (agent a, o) = Some row ∧ op_st row = unknown) ∧
  dict_get (token a) (held s' (agent a)) = Some (cost a).
Proof.
  intros (_ & [Hh _] & Hl) Ho. rewrite Ho in Hl.
  destruct Hl as (Hn & Hr & _ & (row & Hu & Hops) & Hrs). rewrite Hops, Hrs, !lookup_insert_eq.
  split_and!; try done; [by exists row|]. rewrite Hh, decide_True by done. apply dict_get_set_eq.
Qed.

Lemma opens_is_own a k : (∃ o, operation a = Some o ∧ k = (agent a, o)) ∨
  (∀ o, operation a = Some o → k ≠ (agent a, o)).
Proof.
  destruct (operation a) as [o|]; [|by right].
  destruct (decide (k = (agent a, o))) as [->|Hne]; [left; by exists o|right]. by intros ? [= <-].
Qed.

Lemma admission_ok_opens s s' adm st a b :
  fresh_token s adm (agent a) (token a) → opens a s s' → b ∈ adm →
  admission_ok s st b → admission_ok s' st b.
Proof.
  intros Hf Hop Hb (Hc & Hok). split; [done|]. destruct (operation b) as [o|] eqn:Hob.
  - destruct Hok as (Hres & row & Hrow & Hun).
    destruct (opens_is_own a (agent b, o)) as [(o' & Ho' & Hk)|Hne].
    { destruct (opens_own _ _ _ _ Hop Ho') as (Hn & _). rewrite <-Hk in Hn. congruence. }
    destruct (opens_ledger _ _ _ _ Hop Hne) as [-> ->]. split; [done|]. exists row. split; [done|].
    by rewrite (opens_kept _ _ _ _ _ _ _ Hf Hop Hres).
  - intros o. destruct (opens_is_own a (agent b, o)) as [(o' & Ho' & [= Hag ->])|Hne].
    + destruct (opens_own _ _ _ _ Hop Ho') as (_ & _ & Hr & _). rewrite Hag, Hr. intros [= Ht].
      by apply (proj2 Hf _ Hb).
    + destruct (opens_ledger _ _ _ _ Hop Hne) as [_ ->]. apply Hok.
Qed.

Lemma admission_ok_own s s' adm st a :
  fresh_token s adm (agent a) (token a) → opens a s s' → admission_ok s' st a.
Proof.
  intros Hf Hop. split; [apply Hop|]. destruct (operation a) as [o|] eqn:Ho.
  - destruct (opens_own _ _ _ _ Hop Ho) as (_ & _ & Hr & (row & Hrow & _) & Hg).
    split; [done|]. by exists row.
  - intros o. destruct (opens_ledger _ _ _ (agent a, o) Hop) as [_ ->]; [congruence|]. apply Hf.
Qed.

Lemma accounted_opens s s' adm st a :
  fresh_token s adm (agent a) (token a) → opens a s s' →
  accounted s adm st → accounted s' (adm ++ [a]) st.
Proof.
  intros Hf Hop [Hs Hk Ho He Hd Hr Ha H1]. pose proof Hop as (Hc & [Hh Hst] & Hl).
  rewrite Forall_forall in Ha. split.
  - auto.
  - intros ag. rewrite Hh. case_decide; [apply dict_set_nodup|]; done.
  - intros ag o o' tok Hr1 Hr2.
    destruct (opens_is_own a (ag, o)) as [(o1 & Ho1 & Hk1)|Hne1];
    destruct (opens_is_own a (ag, o')) as [(o2 & Ho2 & Hk2)|Hne2]; simplify_eq; try done.
    + destruct (opens_own _ _ _ _ Hop Ho1) as (_ & _ & Hr' & _).
      destruct (opens_ledger _ _ _ _ Hop Hne2) as [_ E]. rewrite E in Hr2. simplify_eq.
      by destruct (proj1 Hf o').
    + destruct (opens_own _ _ _ _ Hop Ho2) as (_ & _ & Hr' & _).
      destruct (opens_ledger _ _ _ _ Hop Hne1) as [_ E]. rewrite E in Hr1. simplify_eq.
      by destruct (proj1 Hf o).
    + destruct (opens_ledger _ _ _ _ Hop Hne1) as [_ E1].
      destruct (opens_ledger _ _ _ _ Hop Hne2) as [_ E2]. rewrite E1 in Hr1. rewrite E2 in Hr2. eauto.
  - intros ag o row Hrow. destruct (opens_is_own a (ag, o)) as [(o1 & Ho1 & [= -> ->])|Hne1].
    + destruct (opens_own _ _ _ _ Hop Ho1) as (_ & _ & Hr' & (row' & Hrow' & Hu) & Hg).
      exists (token a). split; [done|]. unfold dict_mem. rewrite Hg. simplify_eq.
      split; [|done]. intros _. split; [done|]. intros [x Hx]%Hd.
      destruct (opens_own _ _ _ _ Hop Ho1) as (Hn & _). congruence.
    + destruct (opens_ledger _ _ _ _ Hop Hne1) as [E1 E2]. rewrite E1 in Hrow.
      apply He in Hrow as (tok & Hres & Hiff). exists tok. rewrite E2. split; [done|].
      unfold dict_mem. by rewrite (opens_kept _ _ _ _ _ _ _ Hf Hop Hres).
  - intros k [x Hx]%Hd. destruct (opens_is_own a k) as [(o1 & Ho1 & ->)|Hne1].
    + destruct (opens_own _ _ _ _ Hop Ho1) as (Hn & _). congruence.
    + destruct (opens_ledger _ _ _ _ Hop Hne1) as [-> _]. by exists x.
  - intros k Hsome. destruct (opens_is_own a k) as [(o1 & Ho1 & ->)|Hne1].
    + destruct (opens_own _ _ _ _ Hop Ho1) as (_ & _ & _ & (row' & -> & _) & _). done.
    + destruct (opens_ledger _ _ _ _ Hop Hne1) as [-> E2]. rewrite E2 in Hsome. auto.
  - rewrite Forall_app, Forall_singleton, Forall_forall. split; [|by eapply admission_ok_own].
    intros b Hb. eapply admission_ok_opens; eauto.
  - assert (∀ i b o, adm !! i = Some b → agent b = agent a → operation b = Some o →
              operation a = Some o → False) as Hold.
    { intros i b o Hb Hag Hob Hoa. apply list_elem_of_lookup_2, Ha in Hb as [_ Hb].
      rewrite Hob in Hb. destruct Hb as (Hres & _). destruct (opens_own _ _ _ _ Hop Hoa) as (_ & Hn & _).
      congruence. }
    intros i j b c o Hi Hj Hag Hob Hoc. rewrite lookup_snoc_Some in Hi, Hj.
    destruct Hi as [[_ Hi]|[-> <-]], Hj as [[_ Hj]|[-> <-]]; [by eauto| | |done];
      exfalso; eapply Hold; eauto.
Qed.

(** The unknown operations of an agent: those whose reservation its budget
    holds. *)
Definition pending (s : gov) (ag : string) : gset (string * string) :=
  dom (filter (fun kv : (string * string) * op_row => kv.1.1 = ag ∧ op_st kv.2 = unknown) (ops (g_led s))).

Lemma elem_of_pending s ag k :
  k ∈ pending s ag ↔ k.1 = ag ∧ ∃ row, ops (g_led s) !! k = Some row ∧ op_st row = unknown.
Proof.
  unfold pending. rewrite elem_of_dom. split.
  - intros [row (Hrow & Hag & Hun)%map_lookup_filter_Some]. eauto.
  - intros (Hag & row & Hrow & Hun). exists row. by rewrite map_lookup_filter_Some.
Qed.

(** The operator's new budget, which holds nothing, in place of the old. *)
Lemma accounted_replaced s adm st ag b :
  reserved b = [] → accounted s adm st →
  accounted (zoom (Manager.set_budget ag b) s).2 adm (st ∪ pending s ag).
Proof.
  intros Hb [Hs Hk Ho He Hd Hr Ha H1]. set (s' := (zoom (Manager.set_budget ag b) s).2).
  assert (∀ ag', held s' ag' = if decide (ag' = ag) then [] else held s ag') as Hh.
  { intros ag'. unfold GatewaySpec.held, Manager.current, s', zoom. simpl. case_decide as Hag.
    - subst ag'. rewrite lookup_insert_eq. done.
    - unfold Manager.seed. simpl. by rewrite !lookup_insert_ne by done. }
  assert (g_led s' = g_led s) as Hl by done. split; try by rewrite ?Hl.
  - intros ag' Hrow. rewrite Hh. case_decide; [done|]. apply Hs.
    unfold s', zoom in Hrow. simpl in Hrow. by rewrite lookup_insert_ne in Hrow by done.
  - intros ag'. rewrite Hh. case_decide; [apply NoDup_nil_2|done].
  - intros ag' o row Hrow. rewrite Hl in *. destruct (He _ _ _ Hrow) as (tok & Hres & Hiff).
    exists tok. split; [done|]. rewrite Hh. rewrite not_elem_of_union, elem_of_pending. simpl.
    case_decide as Hag; [|naive_solver]. split; [done|]. intros [Hun [_ []]]. eauto.
  - intros k. rewrite elem_of_union, elem_of_pending. intros [?|(_ & row & Hrow & _)]; [auto|]. by exists row.
  - eapply Forall_impl; [done|]. intros a (Hc & Hok). split; [done|]. rewrite Hl. case_match; [|done].
    destruct Hok as (Hres & row & Hrow & Hun). split; [done|]. exists row. split; [done|].
    intros Hu. rewrite not_elem_of_union, elem_of_pending, Hh. simpl. intros [Hn Hp].
    case_decide as Hag; [exfalso; apply Hp; eauto|auto].
Qed.
End invariant.

(** ** Runs *)
Section runs.
Context `{AuditCodec} `{Ed25519} `{SealScheme} `{Sha256} `{JsonText}.
Context (float_repr : float64 → string) (owner_json : string → string → string → string → string).
Context (e : env) (eng : engine) (auth : option authority) (dflt : Budget)
  (reg : list (string * adapter)).

Local Notation admit_call := (Gateway.admit_call float_repr owner_json e eng auth dflt reg true).
Local Notation settle := (Gateway.settle dflt true).
Local Notation abort_admission := (Gateway.abort_admission dflt true).
Local Notation invocation_failed := (Gateway.invocation_failed dflt).
Local Notation route_call := (Gateway.route_call float_repr owner_json e eng auth dflt reg true).

(** The store, every admission handed out so far, and the operations whose
    reservation a replaced budget discarded. *)
Record world := mkWorld { store : gov; admissions : list Admission; discarded : gset (string * string) }.

Inductive step : world → world → Prop :=
| step_admit r x s adm st a s' :
    admit_call r x s = (Ok a, s') → fresh_token s adm (agent a) (token_uuid x) →
    step (mkWorld s adm st) (mkWorld s' (adm ++ [a]) st)
| step_refuse r x s adm st err s' :
    admit_call r x s = (Raise err, s') → step (mkWorld s adm st) (mkWorld s' adm st)
| step_settle a x s adm st o s' :
    a ∈ adm → settle a x s = (o, s') → step (mkWorld s adm st) (mkWorld s' adm st)
| step_abort a x s adm st o s' :
    a ∈ adm → abort_admission a x s = (o, s') → step (mkWorld s adm st) (mkWorld s' adm st)
| step_failed a err x s adm st o s' :
    a ∈ adm → invocation_failed a err x s = (o, s') → step (mkWorld s adm st) (mkWorld s' adm st)
| step_reconciled ag o tok out s adm st s' :
    (* another participant settles an unknown operation's own reservation *)
    reservations (g_led s) !! (ag, o) = Some tok → resolves dflt ag o tok out s s' →
    step (mkWorld s adm st) (mkWorld s' adm st)
| step_replace_budget ag b s adm st :
    (* the operator's PUT /control/budgets *)
    reserved b = [] →
    step (mkWorld s adm st) (mkWorld (zoom (Manager.set_budget ag b) s).2 adm (st ∪ pending s ag))
| step_other s adm st s' :
    (* identities, approvals, policy, audit, quotas, budget windows *)
    same_accounts dflt s s' → step (mkWorld s adm st) (mkWorld s' adm st).

Definition wellformed (w : world) : Prop := accounted dflt (store w) (admissions w) (discarded w).

Lemma admit_opens r x s a s' :
  admit_call r x s = (Ok a, s') →
  ∃ s1, quiet dflt s s1 ∧ opens dflt a s1 s' ∧ token a = token_uuid x ∧
        agent a = r_agent r ∧ operation a = r_operation r.
Proof.
  intros Ha. apply admit_cases in Ha as [[_ [err He]]|(a' & s1 & dec & scope & Heq & Hq & Ht & Hag & Hop & Hc)];
    [done|]. injection Heq as <-.
  apply transaction_effect in Ht as (Htok & Hh & Hl). exists s1. split_and!; try done.
  unfold opens. split_and!; try done. by eapply checked_cost_idem.
Qed.

Lemma resolves_owned s adm st a o s' out :
  accounted dflt s adm st → a ∈ adm → operation a = Some o →
  resolves dflt (agent a) o (token a) out s s' → accounted dflt s' adm st.
Proof.
  intros Hacc Hin Ho Hres. eapply accounted_resolves; [|done|done].
  pose proof (acc_admissions _ _ _ _ Hacc) as Ha. rewrite Forall_forall in Ha.
  destruct (Ha _ Hin) as [_ Hb]. rewrite Ho in Hb. apply Hb.
Qed.

Lemma step_wellformed w w' : step w w' → wellformed w → wellformed w'.
Proof.
  unfold wellformed. intros Hstep Hw. pose proof (acc_steady _ _ _ _ Hw) as Hst.
  destruct Hstep as [r x s adm st a s' Ha Hf|r x s adm st err s' Ha|a x s adm st o s' Hin Ha|a x s adm st o s' Hin Ha
    |a err x s adm st o s' Hin Ha|ag o tok out s adm st s' Htok Ha|ag b s adm st Hb|s adm st s' Hs]; simpl in *.
  - apply admit_opens in Ha as (s1 & Hq & Hop & Htok & _). rewrite <-Htok in Hf.
    pose proof (quiet_same _ _ _ Hst Hq) as Hsame. eapply accounted_opens; [|done|by eapply accounted_same].
    destruct Hsame as (Hl & _). unfold fresh_token. by rewrite Hl.
  - apply admit_cases in Ha as [[Hq _]|(? & ? & ? & ? & ? & _)]; [|done].
    eapply accounted_same; [by apply quiet_same|done].
  - apply settle_effect in Ha. destruct o; [|by subst]. destruct (operation a) eqn:Ho.
    + by eapply resolves_owned.
    + eapply accounted_returns; [done|done|apply Ha|done].
  - apply abort_effect in Ha. destruct o; [|by subst]. destruct (operation a) eqn:Ho.
    + by eapply resolves_owned.
    + by eapply accounted_returns.
  - apply failed_effect in Ha. destruct (operation a) eqn:Ho.
    + eapply accounted_same; [by apply quiet_same|done].
    + by eapply accounted_returns.
  - by eapply accounted_resolves.
  - by apply accounted_replaced.
  - by eapply accounted_same.
Qed.

Lemma steps_wellformed w w' : rtc step w w' → wellformed w → wellformed w'.
Proof. induction 1; [done|]. intros. eauto using step_wellformed. Qed.

(** A store before its first admission. *)
Definition fresh_store (s : gov) : Prop :=
  ops (g_led s) = ∅ ∧ reservations (g_led s) = ∅ ∧ steady dflt (g_bud s) ∧
  ∀ ag, NoDup (dict_keys (held dflt (g_bud s) ag)).

Definition reachable (s : gov) (adm : list Admission) (st : gset (string * string)) : Prop :=
  ∃ s0, fresh_store s0 ∧ rtc step (mkWorld s0 [] ∅) (mkWorld s adm st).

Lemma reachable_accounted s adm st : reachable s adm st → accounted dflt s adm st.
Proof.
  intros (s0 & (Ho & Hr & Hs & Hk) & Hrun).
  apply (steps_wellformed _ _ Hrun). split; simpl.
  - done.
  - done.
  - rewrite Hr. intros ag o o' tok. by rewrite lookup_empty.
  - rewrite Ho. intros ag o row. by rewrite lookup_empty.
  - set_solver.
  - rewrite Hr. intros k [? Hk']. by rewrite lookup_empty in Hk'.
  - constructor.
  - done.
Qed.

(** ** Outcomes are final *)

(** What may happen to a row: it stays, or leaves [unknown] once. *)
Definition row_evolves (l l' : ledger) : Prop :=
  ∀ k row, ops l !! k = Some row →
  ∃ row', ops l' !! k = Some row' ∧ fingerprint row' = fingerprint row ∧
    (op_st row ≠ unknown → row' = row).

#[local] Instance row_evolves_preorder : PreOrder row_evolves.
Proof.
  split.
  - intros l k row Hk. exists row. by split_and!.
  - intros l1 l2 l3 Ha Hb k row Hk. destruct (Ha _ _ Hk) as (r2 & Hk2 & Hf2 & Hs2).
    destruct (Hb _ _ Hk2) as (r3 & Hk3 & Hf3 & Hs3). exists r3. split_and!; [done|congruence|].
    intros Hn. specialize (Hs2 Hn). subst. auto.
Qed.

Lemma resolves_evolves ag o tok out s s' :
  resolves dflt ag o tok out s s' → row_evolves (g_led s) (g_led s').
Proof.
  intros (_ & (row & row' & Hrow & Hun & _ & Hfp & Hops) & _) k r Hk. rewrite Hops.
  destruct (decide ((ag, o) = k)) as [<-|Hne].
  - rewrite lookup_insert_eq. exists row'. simplify_eq. by split_and!.
  - rewrite lookup_insert_ne by done. exists r. by split_and!.
Qed.

Lemma opens_evolves a s s' : opens dflt a s s' → row_evolves (g_led s) (g_led s').
Proof.
  intros Hop k row Hk. exists row. split; [|done].
  destruct (opens_is_own a k) as [(o & Ho & ->)|Hne].
  - destruct (opens_own _ _ _ _ _ Hop Ho) as (Hn & _). congruence.
  - destruct (opens_ledger _ _ _ _ _ Hop Hne) as [-> _]. done.
Qed.

Lemma step_evolves w w' : step w w' → row_evolves (g_led (store w)) (g_led (store w')).
Proof.
  destruct 1 as [r x s adm st a s' Ha Hf|r x s adm st err s' Ha|a x s adm st o s' Hin Ha|a x s adm st o s' Hin Ha
    |a err x s adm st o s' Hin Ha|ag o tok out s adm st s' Htok Ha|ag b s adm st Hb|s adm st s' Hs]; simpl in *.
  - apply admit_opens in Ha as (s1 & (Hl & _) & Hop & _). rewrite <-Hl. by eapply opens_evolves.
  - apply admit_cases in Ha as [[(-> & _) _]|(? & ? & ? & ? & ? & _)]; done.
  - apply settle_effect in Ha. destruct o; [|by subst]. destruct (operation a).
    + by eapply resolves_evolves.
    + destruct Ha as [(-> & _) _]. done.
  - apply abort_effect in Ha. destruct o; [|by subst]. destruct (operation a).
    + by eapply resolves_evolves.
    + destruct Ha as (-> & _). done.
  - apply failed_effect in Ha. destruct (operation a); destruct Ha as (-> & _); done.
  - by eapply resolves_evolves.
  - done.
  - destruct Hs as (-> & _). done.
Qed.

Lemma steps_evolve w w' : rtc step w w' → row_evolves (g_led (store w)) (g_led (store w')).
Proof. induction 1; [done|]. etrans; [by eapply step_evolves|done]. Qed.

(** ** Theorems *)

(** C1: in every run of interleaved admissions, settlements, aborts, failures,
    reconciliations, budget replacements by the operator and any work that
    touches neither the ledger nor the reservations, where each admission draws
    a reservation token never drawn before, an operation's reserved token is
    held exactly while its outcome is unknown and the agent's budget has not
    been replaced since it was admitted.  So only a replaced budget loses the
    exposure of an unknown operation, and no settled operation keeps it. *)
Theorem exposure_retained s adm st ag o row :
  reachable s adm st → ops (g_led s) !! (ag, o) = Some row →
  ∃ tok, reservations (g_led s) !! (ag, o) = Some tok ∧
    (dict_mem tok (held dflt (g_bud s) ag) = true ↔ op_st row = unknown ∧ (ag, o) ∉ st).
Proof. intros Hr%reachable_accounted. by apply (acc_exposure _ _ _ _ Hr). Qed.

(** C2: in every run, at most one admission is handed out for an operation id
    of an agent, whatever the retries, interleavings and budget replacements,
    where admissions draw reservation tokens never drawn before. *)
Theorem operation_admitted_once s adm st i j a b o :
  reachable s adm st → adm !! i = Some a → adm !! j = Some b → agent a = agent b →
  operation a = Some o → operation b = Some o → i = j.
Proof. intros Hr%reachable_accounted. by apply (acc_once _ _ _ _ Hr). Qed.

(** C5: a settled operation never changes again: in every run of the steps of
    C1 no step, a budget replacement included, forgets an operation or its
    request fingerprint, or rewrites one whose outcome is known. *)
Theorem outcome_final w w' k row :
  rtc step w w' → ops (g_led (store w)) !! k = Some row →
  ∃ row', ops (g_led (store w')) !! k = Some row' ∧ fingerprint row' = fingerprint row ∧
    (op_st row ≠ unknown → row' = row).
Proof. intros Hr. by apply (steps_evolve _ _ Hr). Qed.

(** A refused admission leaves the operation ledger, the quota records and
    every reserved token as they were. *)
Theorem refused_admission_quiet r x s err s' :
  admit_call r x s = (Raise err, s') → quiet dflt s s'.
Proof. intros [[Hq _]|(? & ? & ? & ? & ? & _)]%admit_cases; [exact Hq|done]. Qed.

(** [commit] of a held token charges its amount. *)
Lemma commit_charges ag tok c t m :
  dict_get tok (held dflt m ag) = Some c →
  ∃ m', Manager.commit dflt ag tok t m = (Ok true, m') ∧
    holds dflt ag (dict_pop tok (held dflt m ag)) m m' ∧
    spent (Manager.current dflt m' ag) = fadd (spent (Manager.current dflt m ag)) c.
Proof.
  intros Hg. eexists. split; [|split].
  - rewrite Manager.commit_run. unfold Manager.commit_mutator.
    change (reserved (Manager.current dflt m ag)) with (held dflt m ag). by rewrite Hg.
  - split; [|apply steady_store_settled]. intros ag'. by rewrite held_store_settled.
  - by rewrite Manager.current_store_eq.
Qed.

Lemma settle_owned_completes s ag o tok c t row :
  steady dflt (g_bud s) → reservations (g_led s) !! (ag, o) = Some tok →
  ops (g_led s) !! (ag, o) = Some row → dict_get tok (held dflt (g_bud s) ag) = Some c →
  checked_cost (PFloat c) = Ok c →
  ∃ s', settle_owned_reservation dflt ag o tok succeeded (Some c) t s = (Ok c, s') ∧
    g_aud s' = g_aud s ∧ ops (g_led s') !! (ag, o) = Some (mkOp (fingerprint row) succeeded t) ∧
    spent (Manager.current dflt (g_bud s') ag) = fadd (spent (Manager.current dflt (g_bud s) ag)) c.
Proof.
  intros Hs Hres Hrow Hg Hc. destruct (commit_charges ag tok c t _ Hg) as (m & Hm & _ & Hsp).
  eexists. split_and!.
  - unfold settle_owned_reservation. rewrite run_ensure by done. rewrite run_get.
    rewrite run_ensure by (by apply bool_decide_eq_true).
    rewrite (reserved_of_held dflt), Hg by done. rewrite (run_lift _ _ _ _ Hc).
    rewrite run_ensure by (apply checked_cost_Ok in Hc as (z & -> & _); apply Z.eqb_refl).
    rewrite (bool_decide_true (succeeded = succeeded)) by done.
    erewrite run_step; [|by unfold zoom; simpl view; rewrite Hm]. rewrite run_ensure by done.
    erewrite run_step; [done|]. unfold finish. rewrite run_get. unfold led. simpl. by rewrite Hrow.
  - done.
  - simpl. by rewrite lookup_insert_eq.
  - done.
Qed.

(** Settlement charges the amount reserved under the admission's token. *)
Lemma settle_charges a x s s' c :
  settle a x s = (Ok tt, s') → dict_get (token a) (held dflt (g_bud s) (agent a)) = Some c →
  spent (Manager.current dflt (g_bud s') (agent a)) = fadd (spent (Manager.current dflt (g_bud s) (agent a))) c.
Proof.
  intros Hs Hg. unfold Gateway.settle in Hs. apply bind_Ok_inv in Hs as ([] & s1 & Hat & Hs).
  apply bind_Ok_inv in Hs as (b & s2 & Hgb & Hs). injection Hs as <-.
  assert (Manager.current dflt (g_bud s2) (agent a) = Manager.current dflt (g_bud s1) (agent a)) as ->.
  { unfold zoom in Hgb. simpl in Hgb. injection Hgb as _ <-. unfold Manager.current, Manager.seed. simpl.
    destruct (Manager.rows (g_bud s1) !! agent a); [done|]. by rewrite lookup_insert_eq. }
  apply (proj1 (atomic_Ok _ _ _ _)) in Hat. apply bind_Ok_inv in Hat as (u0 & s0 & Hlock & Hat).
  apply bind_Ok_inv in Hat as (u1 & s3 & Hset & Haud).
  assert (g_bud s1 = g_bud s3) as ->.
  { unfold audit_admission, record_audit in Haud. apply bind_Ok_inv in Haud as (en & s4 & Hz & Hv).
    injection Hv as <-. unfold zoom in Hz. destruct (AuditLog.Sql.record _ _ _). by injection Hz as _ <-. }
  destruct (commit_charges (agent a) (token a) c (now x) _ Hg) as (m & Hm & _ & Hsp). rewrite <-Hsp.
  destruct (operation a) as [op|].
  - apply bind_Ok_inv in Hlock as (row & s4 & Hlock & Hv). injection Hv as _ <-.
    apply lock_effect in Hlock as (-> & _). apply bind_Ok_inv in Hset as (c' & s5 & Hset & Hv). injection Hv as _ <-.
    unfold settle_owned_reservation in Hset.
    rewrite run_ensure, run_get in Hset by done.
    apply bind_Ok_inv in Hset as ([] & s6 & He & Hset). apply ensure_Ok_inv in He as [_ ->].
    destruct (dict_get _ (reserved_of _ _)); [|done].
    apply bind_Ok_inv in Hset as (c1 & s6 & He & Hset). apply lift_Ok_inv in He as [_ ->].
    apply bind_Ok_inv in Hset as ([] & s6 & He & Hset). apply ensure_Ok_inv in He as [_ ->].
    rewrite bool_decide_true in Hset by done. unfold zoom in Hset at 1. simpl view in Hset.
    rewrite run_bind, Hm in Hset. apply bind_Ok_inv in Hset as ([] & s6 & He & Hset).
    apply ensure_Ok_inv in He as [_ ->]. apply bind_Ok_inv in Hset as ([] & s6 & Hfin & Hv). injection Hv as _ <-.
    by apply finish_effect in Hfin as (-> & _).
  - injection Hlock as _ <-. unfold zoom in Hset. simpl view in Hset. rewrite run_bind, Hm in Hset.
    apply ensure_Ok_inv in Hset as [_ ->]. done.
Qed.

(** The audit log accepts the settlement's entry. *)
Definition audit_accepts (a : Admission) (x : drawn) (s : gov) : Prop :=
  ∃ en db, AuditLog.Sql.record
    (AuditLog.mkEvent (actor a) "route_call" (src a) (dst a) (cap a) "allow" (reason (decision a)) (cost a))
    (stamp x) (g_aud s) = (Ok en, db).

(** C4: in every run of the steps of C1, settling an admission whose operation is
    still unknown succeeds if the audit log accepts the entry and the operator
    has not replaced the agent's budget since the admission (a replacement
    discards the reservation and settling then fails): the operation becomes
    [succeeded] and the agent is charged the admitted cost. *)
Theorem settle_completes s adm st a o x row :
  reachable s adm st → a ∈ adm → operation a = Some o →
  ops (g_led s) !! (agent a, o) = Some row → op_st row = unknown →
  (agent a, o) ∉ st → audit_accepts a x s →
  ∃ s', settle a x s = (Ok tt, s') ∧
    ops (g_led s') !! (agent a, o) = Some (mkOp (fingerprint row) succeeded (now x)) ∧
    spent (Manager.current dflt (g_bud s') (agent a)) =
      fadd (spent (Manager.current dflt (g_bud s) (agent a))) (cost a).
Proof.
  intros Hr%reachable_accounted Hin Ho Hrow Hun Hst (en & db & Haud).
  pose proof (acc_admissions _ _ _ _ Hr) as Ha. rewrite Forall_forall in Ha.
  destruct (Ha _ Hin) as [Hc Hb]. rewrite Ho in Hb. destruct Hb as (Hres & row1 & Hrow1 & Hg). simplify_eq.
  destruct (settle_owned_completes s _ _ _ _ (now x) row (acc_steady _ _ _ _ Hr) Hres Hrow (Hg Hun Hst) Hc)
    as (s1 & Hset & Hau & Hrow1' & Hsp).
  assert (lock_unknown_operation (agent a) o s = (Ok row, s)) as Hlock.
  { unfold lock_unknown_operation. rewrite run_get. unfold led. change (view s) with (g_led s).
    by rewrite Hrow, bool_decide_true. }
  assert (audit_admission a "allow" (reason (decision a)) (cost a) x s1 = (Ok tt, update db s1)) as Hlog.
  { unfold audit_admission. rewrite (run_step _ en s1 (update db s1)); [done|].
    unfold record_audit, zoom. simpl view. by rewrite Hau, Haud. }
  destruct (zoom (Manager.get_budget dflt (agent a)) (update db s1)) as [r s2] eqn:Hgb.
  unfold zoom in Hgb. simpl in Hgb. injection Hgb as <- <-.
  eexists. split; [|split].
  - unfold Gateway.settle, atomic_state. rewrite Ho.
    rewrite (run_step _ tt _ (update db s1)); [done|]. apply (proj2 (atomic_Ok _ _ _ _)).
    rewrite (run_step _ tt _ s); [|by rewrite (run_step _ _ _ _ _ Hlock)].
    rewrite (run_step _ tt _ s1); [exact Hlog|]. by rewrite (run_step _ _ _ _ _ Hset).
  - exact Hrow1'.
  - rewrite <-Hsp. f_equal. unfold Manager.current, Manager.seed. simpl.
    destruct (Manager.rows (g_bud s1) !! agent a); [done|]. by rewrite lookup_insert_eq.
Qed.

(** ** One call, end to end *)

(** The caller's view of a call against the ledger's row for its operation. *)
Definition reported (invoke : json → outcome json) (cn : cancellation) (out : outcome json)
    (st : option op_state) : Prop :=
  match st with
  | None => ∃ err, out = Raise err
  | Some unknown => ∃ err, out = Raise err
  | Some failed => cn = DuringAdmission ∧ out = Raise CancelledError
  | Some succeeded => ∃ w res, invoke w = Ok res ∧
      (out = Ok res ∧ cn = NotCanceled ∨ out = Raise CancelledError ∧ cn = DuringSettlement)
  end.

Definition state_of (s : gov) (k : string * string) : option op_state :=
  op_st <$> ops (g_led s) !! k.

Lemma state_quiet s s' k : quiet dflt s s' → state_of s' k = state_of s k.
Proof. intros (Hl & _). unfold state_of. by rewrite Hl. Qed.

Lemma state_resolves ag o tok out s s' :
  resolves dflt ag o tok out s s' → state_of s' (ag, o) = Some out.
Proof.
  intros (_ & (row & row' & _ & _ & Hst & _ & Hops) & _). unfold state_of.
  by rewrite Hops, lookup_insert_eq; simpl; rewrite Hst.
Qed.

Lemma failed_keeps a err x s o s' op k :
  operation a = Some op → invocation_failed a err x s = (o, s') → state_of s' k = state_of s k.
Proof. intros Ho Hf%failed_effect. rewrite Ho in Hf. by apply state_quiet. Qed.

Lemma failed_then_raise {A} a err err' x s (out : outcome A) s' op k :
  operation a = Some op → (_ ← invocation_failed a err x; raise err') s = (out, s') →
  state_of s' k = state_of s k ∧ ∃ err, out = Raise err.
Proof.
  intros Ho. rewrite run_bind. destruct (invocation_failed a err x s) as [[u|e1] s1] eqn:Hf;
    intros [= <- <-]; (split; [by eapply failed_keeps|by eexists]).
Qed.

Lemma settled_report a x x' s invoke cn w res (out : outcome json) s' op
    (err : pyexn → pyexn) (k : M gov json) :
  operation a = Some op → state_of s (agent a, op) = Some unknown → cn ≠ DuringAdmission →
  invoke w = Ok res →
  k = match cn with DuringSettlement => raise CancelledError | _ => mret res end →
  (_ ← catch (settle a x) (fun e => Some (_ ← invocation_failed a e x'; raise (err e))); k) s = (out, s') →
  reported invoke cn out (state_of s' (agent a, op)).
Proof.
  intros Ho Hun Hcn Hinv -> Hrun. rewrite run_bind in Hrun. unfold catch in Hrun.
  destruct (settle a x s) as [[[]|e1] s1] eqn:Hs; apply settle_effect in Hs.
  - rewrite Ho in Hs. apply state_resolves in Hs as Hst.
    destruct cn; [| done |]; injection Hrun as <- <-; rewrite Hst; exists w, res; auto.
  - subst s1. destruct ((_ ← invocation_failed a e1 x'; raise (err e1)) s) as [o1 s1] eqn:Hf.
    pose proof (failed_then_raise (A := unit) _ _ _ _ _ _ _ _ (agent a, op) Ho Hf) as [Hk [e2 ->]].
    injection Hrun as <- <-. rewrite Hk, Hun. by eexists.
Qed.

(** C3: what the caller of [route_call] sees agrees with the durable record.
    A result is returned only with the operation recorded [succeeded]; [failed]
    is recorded only for a call canceled before it was invoked; every other
    claimed call raises and stays [unknown], to be reconciled. *)
Theorem route_call_reports r invoke cn x0 x x' s out s' o :
  r_operation r = Some o → ops (g_led s) !! (r_agent r, o) = None →
  route_call r invoke cn x0 x x' s = (out, s') →
  reported invoke cn out (state_of s' (r_agent r, o)).
Proof.
  intros Hop Hnew Hrun. unfold Gateway.route_call in Hrun. rewrite run_bind in Hrun. unfold catch in Hrun.
  destruct (admit_call r x0 s) as [[a|err] s1] eqn:Ha.
  - apply admit_opens in Ha as (s2 & Hq & Hopen & _ & Hag & Hoa). rewrite Hop in Hoa.
    destruct (opens_own _ _ _ _ _ Hopen Hoa) as (_ & _ & _ & (row & Hrow & Hun) & _).
    assert (state_of s1 (agent a, o) = Some unknown) as Hst.
    { unfold state_of. rewrite Hrow. simpl. by rewrite Hun. }
    rewrite <-Hag. destruct cn.
    2:{ destruct (abort_admission a x s1) as [[[]|e1] s3] eqn:Hab; apply abort_effect in Hab;
        injection Hrun as <- <-.
        - rewrite Hoa in Hab. rewrite (state_resolves _ _ _ _ _ _ Hab). done.
        - simpl. subst s3. rewrite Hst. by eexists. }
    all: destruct (invoke (wire a)) as [res|e1] eqn:Hinv;
      [eapply settled_report; [exact Hoa|exact Hst|done|exact Hinv|reflexivity|exact Hrun]
      |destruct (failed_then_raise _ _ _ _ _ _ _ _ (agent a, o) Hoa Hrun) as [-> [e2 ->]];
       rewrite Hst; by eexists].
  - apply admit_cases in Ha as [[Hq _]|(? & ? & ? & ? & ? & _)]; [|done].
    assert (state_of s' (r_agent r, o) = None ∧ ∃ e1, out = Raise e1) as [-> Hout]; [|done].
    assert (state_of s1 (r_agent r, o) = None) as Hst.
    { rewrite (state_quiet _ _ _ Hq). unfold state_of. by rewrite Hnew. }
    destruct cn; injection Hrun as <- <-; eauto.
Qed.

(** A call that returns a result was admitted, carried out once and settled:
    the agent is charged the admitted cost and the operation is recorded. *)
Lemma route_call_settles r invoke cn x0 x x' s res s' :
  route_call r invoke cn x0 x x' s = (Ok res, s') →
  cn = NotCanceled ∧ ∃ a s1, admit_call r x0 s = (Ok a, s1) ∧ agent a = r_agent r ∧
    checked_cost (r_cost r) = Ok (cost a) ∧
    dict_get (token a) (held dflt (g_bud s1) (agent a)) = Some (cost a) ∧
    invoke (wire a) = Ok res ∧ settle a x s1 = (Ok tt, s') ∧
    spent (Manager.current dflt (g_bud s') (agent a)) = fadd (spent (Manager.current dflt (g_bud s1) (agent a))) (cost a) ∧
    ∀ o, r_operation r = Some o → state_of s1 (agent a, o) = Some unknown ∧ state_of s' (agent a, o) = Some succeeded.
Proof.
  intros Hrun. unfold Gateway.route_call in Hrun. rewrite run_bind in Hrun. unfold catch in Hrun at 1.
  destruct (admit_call r x0 s) as [[a|err] s1] eqn:Ha; [|by destruct cn].
  assert (checked_cost (r_cost r) = Ok (cost a)) as Hc.
  { pose proof Ha as [[_ [? ?]]|(? & ? & ? & ? & [= <-] & _ & _ & _ & _ & Hc)]%admit_cases; [done|exact Hc]. }
  pose proof Ha as (s2 & Hq & Hopen & _ & Hag & Hop)%admit_opens.
  assert (dict_get (token a) (held dflt (g_bud s1) (agent a)) = Some (cost a)) as Hheld.
  { destruct Hopen as (_ & [Hh _] & _). rewrite Hh, decide_True by done. apply dict_get_set_eq. }
  destruct cn; [|done|]; (destruct (invoke (wire a)) as [res'|e1] eqn:Hinv;
    [|by (rewrite run_bind in Hrun; destruct (invocation_failed a e1 x s1) as [[]])]);
    apply bind_Ok_inv in Hrun as ([] & s3 & Hset & Hrun); [|done]. injection Hrun as <- <-.
  unfold catch in Hset. destruct (settle a x s1) as [[[]|e1] s4] eqn:Hs;
    [|by (rewrite run_bind in Hset; destruct (invocation_failed a e1 x' s4) as [[]])]. injection Hset as <-.
  split; [done|]. exists a, s1. split_and!; try done; [by eapply settle_charges|]. intros o Ho. rewrite Ho in Hop.
  destruct (opens_own _ _ _ _ _ Hopen Hop) as (_ & _ & _ & (row & Hrow & Hun) & _).
  split; [unfold state_of; rewrite Hrow; simpl; by rewrite Hun|].
  apply settle_effect in Hs. rewrite Hop in Hs. by eapply state_resolves.
Qed.

Lemma failed_runs {A} a err err' x s adm st (out : outcome A) s' :
  a ∈ adm → (_ ← invocation_failed a err x; raise err') s = (out, s') →
  step (mkWorld s adm st) (mkWorld s' adm st).
Proof.
  intros Hin. rewrite run_bind. destruct (invocation_failed a err x s) as [[u|e1] s1] eqn:Hf;
    intros [= <- <-]; by eapply step_failed.
Qed.

Lemma settle_runs {A} a x x' s adm st (err : pyexn → pyexn) (k : M gov A) out s' :
  a ∈ adm → reads k →
  (_ ← catch (settle a x) (fun e => Some (_ ← invocation_failed a e x'; raise (err e))); k) s = (out, s') →
  rtc step (mkWorld s adm st) (mkWorld s' adm st).
Proof.
  intros Hin Hk. rewrite run_bind. unfold catch. destruct (settle a x s) as [[[]|e1] s1] eqn:Hs.
  - intros Hr. pose proof (Hk s1) as Hs1. rewrite Hr in Hs1. simpl in Hs1. subst s'.
    apply rtc_once. by eapply step_settle.
  - destruct ((_ ← invocation_failed a e1 x'; raise (err e1)) s1) as [o1 s2] eqn:Hf.
    pose proof Hf as Hst. eapply (failed_runs (A := unit)) in Hst; [|done].
    rewrite run_bind in Hf. destruct (invocation_failed a e1 x' s1) as [[u|e2] s3];
      injection Hf as <- <-; intros [= <- <-];
      (eapply rtc_l; [by eapply step_settle|by apply rtc_once]).
Qed.

(** Every [route_call], whatever its invocation, failures and
    cancellation do, is a sequence of the steps above, so the invariants of
    runs hold between and after any calls. *)
Theorem route_call_runs r invoke cn x0 x x' s adm st out s' :
  fresh_token s adm (r_agent r) (token_uuid x0) →
  route_call r invoke cn x0 x x' s = (out, s') →
  ∃ adm', (adm' = adm ∨ ∃ a, adm' = adm ++ [a]) ∧ rtc step (mkWorld s adm st) (mkWorld s' adm' st).
Proof.
  intros Hf Hrun. unfold Gateway.route_call in Hrun. rewrite run_bind in Hrun. unfold catch in Hrun at 1.
  destruct (admit_call r x0 s) as [[a|err] s1] eqn:Ha.
  - pose proof Ha as (_ & _ & _ & _ & Hag & _)%admit_opens. rewrite <-Hag in Hf.
    assert (a ∈ adm ++ [a]) as Hin by (apply elem_of_app; right; by apply list_elem_of_singleton).
    exists (adm ++ [a]). split; [right; by eexists|]. eapply rtc_l; [by eapply step_admit|].
    destruct cn.
    2:{ destruct (abort_admission a x s1) as [o1 s3] eqn:Hab. injection Hrun as <- <-.
        apply rtc_once. by eapply step_abort. }
    all: destruct (invoke (wire a)); [eapply settle_runs; [done| |exact Hrun]; auto with agentbridge
      |apply rtc_once; by eapply failed_runs].
  - exists adm. split; [by left|]. apply rtc_once.
    destruct cn; injection Hrun as <- <-; by eapply step_refuse.
Qed.
End runs.

(** ** A concrete run *)

#[local] Instance demo_digest : Sha256 | 0 := { sha256_hex _ := "digest" }.

Definition demo_env' : env := mkEnv false None "legacy_single_tenant".
Definition demo_engine' : engine := mkEngine false None ∅ None.

Definition demo_request : request :=
  mkRequest "al" "mcp" "agntcy" demo_wire (PFloat (FFin 9)) None (Some "op-1") None None None None None.

Definition demo_drawn (tok : string) : drawn :=
  mkDrawn (FFin 7) (fun _ => mkDatetime 0 12) tok "ap" "t0" demo_ids.

Definition demo_admit (tok : string) : M gov Admission :=
  Gateway.admit_call (fun _ => "") (fun _ _ _ _ => "") demo_env' demo_engine' None demo_budget
    default_registry true demo_request (demo_drawn tok).

Definition no_admission : Admission :=
  mkAdmission "" "" "" "" fzero "" None JNull (mkDecision false "" false false) "".

Definition admission_of (r : outcome Admission * gov) : Admission :=
  match r.1 with Ok a => a | Raise _ => no_admission end.

Definition demo_s1 : gov := (demo_admit "tok-1" demo_gov).2.
Definition demo_a1 : Admission := admission_of (demo_admit "tok-1" demo_gov).

Local Notation demo_reachable :=
  (reachable (fun _ => "") (fun _ _ _ _ => "") demo_env' demo_engine' None demo_budget default_registry).
Local Notation demo_step :=
  (step (fun _ => "") (fun _ _ _ _ => "") demo_env' demo_engine' None demo_budget default_registry).

Lemma demo_admitted : demo_admit "tok-1" demo_gov = (Ok demo_a1, demo_s1).
Proof. vm_compute. reflexivity. Qed.

Lemma demo_held ag : held demo_budget (g_bud demo_gov) ag = [].
Proof. reflexivity. Qed.

Lemma demo_fresh_store : fresh_store demo_budget demo_gov.
Proof.
  split_and!; [done|done| |].
  - intros ag _. apply demo_held.
  - intros ag. rewrite demo_held. apply NoDup_nil_2.
Qed.

Lemma demo_fresh : fresh_token demo_gov [] (r_agent demo_request) "tok-1".
Proof. split; [by intros o|intros a Ha; by apply elem_of_nil in Ha]. Qed.

Lemma demo_run_admit : demo_step (mkWorld demo_gov [] ∅) (mkWorld demo_s1 [demo_a1] ∅).
Proof.
  apply (step_admit _ _ _ _ _ _ _ demo_request (demo_drawn "tok-1") demo_gov [] ∅ demo_a1 demo_s1).
  - exact demo_admitted.
  - exact demo_fresh.
Qed.

Lemma demo_is_reachable : demo_reachable demo_s1 [demo_a1] ∅.
Proof. exists demo_gov. split; [exact demo_fresh_store|]. apply rtc_once, demo_run_admit. Qed.

Definition demo_row : op_row := mkOp "digest" unknown (FFin 7).

Lemma demo_unknown : ops (g_led demo_s1) !! ("al", "op-1") = Some demo_row.
Proof. vm_compute. reflexivity. Qed.

(** The operator then replaces the budget of the agent. *)
Definition demo_replaced : gov := (zoom (Manager.set_budget "al" demo_budget) demo_s1).2.

Lemma demo_replaced_reachable : demo_reachable demo_replaced [demo_a1] (∅ ∪ pending demo_s1 "al").
Proof.
  exists demo_gov. split; [exact demo_fresh_store|]. eapply rtc_l; [exact demo_run_admit|].
  apply rtc_once. by apply step_replace_budget.
Qed.

Lemma exposure_retained_witness :
  (∃ tok, reservations (g_led demo_s1) !! ("al", "op-1") = Some tok ∧
    (dict_mem tok (held demo_budget (g_bud demo_s1) "al") = true ↔
       unknown = unknown ∧ ("al", "op-1") ∉ (∅ : gset (string * string)))) ∧
  ∃ tok, reservations (g_led demo_replaced) !! ("al", "op-1") = Some tok ∧
    (dict_mem tok (held demo_budget (g_bud demo_replaced) "al") = true ↔
       unknown = unknown ∧ ("al", "op-1") ∉ ∅ ∪ pending demo_s1 "al").
Proof.
  split.
  - exact (exposure_retained _ _ _ _ _ _ _ demo_s1 [demo_a1] ∅ "al" "op-1" demo_row
      demo_is_reachable demo_unknown).
  - exact (exposure_retained _ _ _ _ _ _ _ demo_replaced [demo_a1] _ "al" "op-1" demo_row
      demo_replaced_reachable demo_unknown).
Defined.

Lemma operation_admitted_once_witness : operation demo_a1 = Some "op-1" ∧ 0%nat = 0%nat.
Proof.
  split; [reflexivity|].
  exact (operation_admitted_once _ _ _ _ _ _ _ demo_s1 [demo_a1] ∅ 0 0 demo_a1 demo_a1 "op-1"
    demo_is_reachable eq_refl eq_refl eq_refl eq_refl eq_refl).
Defined.

Lemma demo_accepts : audit_accepts demo_a1 (demo_drawn "") demo_s1.
Proof. eexists _, _. vm_compute. reflexivity. Qed.

Lemma settle_completes_witness :
  ∃ s', Gateway.settle demo_budget true demo_a1 (demo_drawn "") demo_s1 = (Ok tt, s') ∧
    ops (g_led s') !! ("al", "op-1") = Some (mkOp "digest" succeeded (FFin 7)) ∧
    spent (Manager.current demo_budget (g_bud s') "al") =
      fadd (spent (Manager.current demo_budget (g_bud demo_s1) "al")) (FFin 9).
Proof.
  exact (settle_completes _ _ _ _ _ _ _ demo_s1 [demo_a1] ∅ demo_a1 "op-1" (demo_drawn "") demo_row
    demo_is_reachable (list_elem_of_here _ _) eq_refl demo_unknown eq_refl (not_elem_of_empty _) demo_accepts).
Defined.

Definition demo_s2 : gov := (Gateway.settle demo_budget true demo_a1 (demo_drawn "") demo_s1).2.

(** A retry after settlement is refused. *)
Definition demo_retry : outcome Admission * gov := demo_admit "tok-2" demo_s2.

Lemma demo_refused :
  demo_retry = (Raise (OperationConflict "existing operation is succeeded; no automatic replay"),
                demo_retry.2).
Proof. vm_compute. reflexivity. Qed.

Lemma refused_admission_quiet_witness : quiet demo_budget demo_s2 demo_retry.2.
Proof.
  exact (refused_admission_quiet _ _ _ _ _ _ _ demo_request (demo_drawn "tok-2") demo_s2 _ _ demo_refused).
Defined.

Lemma demo_settled : ops (g_led demo_s2) !! ("al", "op-1") = Some (mkOp "digest" succeeded (FFin 7)).
Proof. vm_compute. reflexivity. Qed.

Lemma outcome_final_witness :
  ∃ row', ops (g_led demo_retry.2) !! ("al", "op-1") = Some row' ∧
    fingerprint row' = "digest" ∧ (succeeded ≠ unknown → row' = mkOp "digest" succeeded (FFin 7)).
Proof.
  apply (outcome_final (fun _ => "") (fun _ _ _ _ => "") demo_env' demo_engine' None demo_budget
    default_registry (mkWorld demo_s2 [demo_a1] ∅) (mkWorld demo_retry.2 [demo_a1] ∅) ("al", "op-1")
    (mkOp "digest" succeeded (FFin 7))); [|exact demo_settled].
  apply rtc_once. eapply step_refuse. exact demo_refused.
Defined.

Definition demo_route (cn : cancellation) : outcome json * gov :=
  Gateway.route_call (fun _ => "") (fun _ _ _ _ => "") demo_env' demo_engine' None demo_budget
    default_registry true demo_request (fun _ => Ok (JStr "done")) cn
    (demo_drawn "tok-1") (demo_drawn "") (demo_drawn "") demo_gov.

Lemma route_call_reports_witness :
  state_of (demo_route NotCanceled).2 ("al", "op-1") = Some succeeded ∧
  reported (fun _ => Ok (JStr "done")) NotCanceled (Ok (JStr "done")) (Some succeeded).
Proof.
  assert (demo_route NotCanceled = (Ok (JStr "done"), (demo_route NotCanceled).2)) as Hr
    by (vm_compute; reflexivity).
  assert (state_of (demo_route NotCanceled).2 ("al", "op-1") = Some succeeded) as Hs
    by (vm_compute; reflexivity).
  split; [exact Hs|]. rewrite <-Hs.
  exact (route_call_reports (fun _ => "") (fun _ _ _ _ => "") demo_env' demo_engine' None demo_budget
    default_registry demo_request (fun _ => Ok (JStr "done")) NotCanceled (demo_drawn "tok-1")
    (demo_drawn "") (demo_drawn "") demo_gov _ _ "op-1" eq_refl eq_refl Hr).
Defined.

Lemma route_call_runs_witness :
  ∃ adm', (adm' = [] ∨ ∃ a, adm' = [] ++ [a]) ∧
    rtc demo_step (mkWorld demo_gov [] ∅) (mkWorld (demo_route DuringSettlement).2 adm' ∅).
Proof.
  assert (demo_route DuringSettlement = (Raise CancelledError, (demo_route DuringSettlement).2)) as Hr
    by (vm_compute; reflexivity).
  exact (route_call_runs (fun _ => "") (fun _ _ _ _ => "") demo_env' demo_engine' None demo_budget
    default_registry demo_request (fun _ => Ok (JStr "done")) DuringSettlement (demo_drawn "tok-1")
    (demo_drawn "") (demo_drawn "") demo_gov [] ∅ _ _ demo_fresh Hr).
Defined.

(** ** A budget replaced meanwhile *)

(** C22: replacing an agent's budget ([PUT /control/budgets] stores a new one)
    discards the reservations of its unresolved operations: afterwards no
    outcome can be settled for them, and they stay unknown. *)
Theorem set_budget_strands_operation dflt (s : gov) ag o tok row b out expected t :
  reserved b = [] → ops (g_led s) !! (ag, o) = Some row →
  reservations (g_led s) !! (ag, o) = Some tok → out ≠ unknown →
  let s' := (zoom (Manager.set_budget ag b) s).2 in
  settle_owned_reservation dflt ag o tok out expected t s' = (Raise reservation_missing, s') ∧
  ops (g_led s') !! (ag, o) = Some row.
Proof.
  intros Hb Hrow Hres Hout s'. split; [|exact Hrow]. unfold settle_owned_reservation.
  rewrite run_ensure by (by apply bool_decide_eq_true). rewrite run_get.
  rewrite run_ensure by (by apply bool_decide_eq_true).
  assert (reserved_of ag s' = []) as ->; [|done].
  unfold reserved_of, budget_rows, s', zoom. simpl. rewrite lookup_insert_eq. simpl. by rewrite Hb.
Qed.

Lemma set_budget_strands_operation_witness :
  let s' := (zoom (Manager.set_budget "al" demo_budget) demo_s1).2 in
  settle_owned_reservation demo_budget "al" "op-1" "tok-1" succeeded None (FFin 8) s' =
    (Raise reservation_missing, s') ∧
  ops (g_led s') !! ("al", "op-1") = Some demo_row.
Proof.
  apply (set_budget_strands_operation demo_budget demo_s1 "al" "op-1" "tok-1" demo_row demo_budget);
    [reflexivity|exact demo_unknown|vm_compute; reflexivity|discriminate].
Defined.
