(* ===== verification/QuotaSpec.v ===== *)
(** * What tenant quotas guarantee

    The usage an admission is checked against counts every unresolved
    operation, whether or not it has a quota record; so an operation admitted
    under an enabled policy leaves the tenant within its limits. *)

From stdpp Require Import base list gmap strings.
From Stdlib Require Import ZArith Lia.
From S2P Require Import AuditSpec AuthoritySpec Prelude PyFloat Budget AuditLog Approvals Identity PolicyRules Authority OperationLedger Quotas Policy Json Protocols Gateway GatewaySpec.

Local Open Scope Z_scope.

Definition unknown_ops (l : ledger) : gmap (string * string) op_row :=
  filter (fun x => op_st x.2 = unknown) (ops l).

(** Operations of [o] with a record in [m]. *)
Definition recorded (m : gmap (string * string) record) (o : gmap (string * string) op_row) :=
  filter (fun x => is_Some (m !! x.1) ∧ is_unknown x.2 = true) o.

Definition join (m : list ((string * string) * record)) (o : gmap (string * string) op_row)
  : list ((string * string) * record * op_row) :=
  omap (fun p => (fun r => (p, r)) <$> o !! p.1) m.

Lemma recorded_empty o : recorded ∅ o = ∅.
Proof.
  apply map_eq. intros k. rewrite lookup_empty. apply map_lookup_filter_None_2. right.
  intros r _ [[? Hs] _]. by rewrite lookup_empty in Hs.
Qed.

Lemma recorded_insert_skip k r m o :
  (∀ row, o !! k = Some row → is_unknown row = false) → recorded (<[k := r]> m) o = recorded m o.
Proof.
  intros Hk. apply map_filter_ext. intros k' row Hrow. simpl.
  destruct (decide (k' = k)) as [->|Hne].
  - rewrite (Hk _ Hrow). naive_solver.
  - by rewrite lookup_insert_ne by done.
Qed.

Lemma recorded_insert k r m o row :
  o !! k = Some row → is_unknown row = true →
  recorded (<[k := r]> m) o = <[k := row]> (recorded m o).
Proof.
  intros Hrow Hun. apply map_eq. intros k'. destruct (decide (k' = k)) as [->|Hne].
  - rewrite lookup_insert_eq. apply map_lookup_filter_Some_2; [done|]. simpl.
    split; [|done]. by rewrite lookup_insert_eq.
  - rewrite lookup_insert_ne by done. unfold recorded. apply option_eq. intros row'.
    rewrite !map_lookup_filter_Some. simpl. by rewrite lookup_insert_ne by done.
Qed.

Lemma recorded_fresh k m o : m !! k = None → recorded m o !! k = None.
Proof.
  intros Hm. apply map_lookup_filter_None_2. right. intros r _ [[? Hs] _]. simpl in Hs. congruence.
Qed.

(** The join has one row for each recorded unresolved operation. *)
Lemma join_count m o :
  length (filter (fun x => is_unknown x.2 = true) (join (map_to_list m) o)) = size (recorded m o).
Proof.
  induction m as [|k r m Hm IH] using map_ind.
  - by rewrite map_to_list_empty, recorded_empty.
  - assert (join (map_to_list (<[k := r]> m)) o ≡ₚ join ((k, r) :: map_to_list m) o) as Hp.
    { unfold join. by rewrite (map_to_list_insert m k r Hm). }
    rewrite Hp. clear Hp.
    assert (join ((k, r) :: map_to_list m) o = match o !! k with
              | Some row => ((k, r), row) :: join (map_to_list m) o
              | None => join (map_to_list m) o
              end) as -> by (unfold join; simpl; by destruct (o !! k)).
    destruct (o !! k) as [row|] eqn:Hrow.
    + rewrite filter_cons. case_decide as Hun; simpl in Hun.
      * rewrite (recorded_insert _ _ _ _ row), map_size_insert_None by (done || by apply recorded_fresh).
        simpl. by rewrite IH.
      * rewrite IH, recorded_insert_skip; [done|]. intros row' ?. simplify_eq. by apply not_true_is_false.
    + rewrite IH, recorded_insert_skip; [done|]. congruence.
Qed.

Lemma count_split (m : gmap (string * string) record) (o : gmap (string * string) op_row) :
  size (filter (fun x => op_st x.2 = unknown) o) =
  (size (recorded m o) + size (filter (fun x => m !! x.1 = None ∧ is_unknown x.2 = true) o))%nat.
Proof.
  rewrite <-map_size_disj_union.
  - f_equal. apply map_eq. intros k. apply option_eq. intros row.
    rewrite lookup_union_Some_raw. unfold recorded. rewrite map_lookup_filter_None, !map_lookup_filter_Some.
    simpl. unfold is_unknown. rewrite bool_decide_eq_true.
    split; [|naive_solver]. intros [Hrow Hun]. destruct (m !! k) eqn:Hk; [left; by eauto|right].
    split; [|done]. right. intros r _ [[? Hs] _]. done.
  - apply map_disjoint_spec. intros k r1 r2. unfold recorded. rewrite !map_lookup_filter_Some.
    simpl. intros (_ & [? Hs] & _) (_ & Hn & _). congruence.
Qed.

Section quotas.
Context `{AuditCodec} `{Ed25519} `{SealScheme} `{Sha256} `{JsonText}.
Context (float_repr : float64 → string) (owner_json : string → string → string → string → string).
Context (e : env) (eng : engine) (a : authority) (dflt : Budget) (reg : list (string * adapter)).

Local Notation admit_call := (Gateway.admit_call float_repr owner_json e eng (Some a) dflt reg true).
Local Notation transaction := (Gateway.admit_transaction owner_json eng (Some a) dflt true).

Lemma usage_active w t l (s : gov) u :
  get_usage w t l s = Ok u → u_active u = Z.of_nat (size (unknown_ops (g_led s))).
Proof.
  unfold get_usage. intros (total & _ & Hu)%outcome_bind_Ok. injection Hu as <-. simpl.
  unfold count_rows, count_legacy, unknown_ops. rewrite (count_split (records (g_quo s))).
  rewrite <-join_count. rewrite Nat2Z.inj_add. done.
Qed.

(** What an enabled policy [l] allows at the time of an admission. *)
Definition within_limits (l : QuotaLimits) (s : gov) (c : float64) : Prop :=
  Z.of_nat (size (unknown_ops (g_led s))) + 1 <= max_active l ∧
  ∃ total, budget_total fzero (map_to_list (Manager.rows (g_bud s))) = Ok total ∧
    fgtb (fadd total c) (num_value (spend_limit l)) = false.

Lemma record_effect tenant p ag o fp c t (s : gov) u s' :
  admit_record owner_json tenant p ag o fp (PFloat c) t s = (Ok u, s') →
  g_led s' = g_led s ∧
  ∃ l, current_policy (g_quo s) = Ok l ∧ policy_table (g_quo s') = policy_table (g_quo s) ∧
    Z.of_nat (size (records (g_quo s'))) <= max_records l ∧
    (∃ w, records (g_quo s') !! (ag, o) = Some (mkRecord fp w c t)) ∧
    (enabled l = true → within_limits l s c).
Proof.
  unfold admit_record. intros Hr.
  apply bind_Ok_inv in Hr as (u0 & s0 & He & Hr). apply ensure_Ok_inv in He as [_ ->].
  apply bind_Ok_inv in Hr as (c' & s0 & Hc & Hr). apply lift_Ok_inv in Hc as [Hc ->].
  assert (c' = c) as -> by (apply checked_cost_Ok in Hc as Hz; destruct Hz as (z & -> & _);
    simpl in Hc; case_match; simplify_eq; done).
  apply bind_Ok_inv in Hr as (w & s0 & Hw & Hr). apply lift_Ok_inv in Hw as [_ ->].
  rewrite run_get in Hr.
  apply bind_Ok_inv in Hr as (l & s0 & Hl & Hr). apply lift_Ok_inv in Hl as [Hl ->].
  apply bind_Ok_inv in Hr as (u1 & s0 & He & Hr). apply ensure_Ok_inv in He as [Hmax%Z.ltb_lt ->].
  apply bind_Ok_inv in Hr as (u2 & s0 & Hlim & Hr).
  assert (s0 = s ∧ (enabled l = true → within_limits l s c)) as [-> Hwithin].
  { destruct (enabled l); [|by injection Hlim as _ <-].
    apply bind_Ok_inv in Hlim as (us & s1 & Hus & Hlim). apply lift_Ok_inv in Hus as [Hus ->]. minv.
    split; [done|]. intros _. split.
    - rewrite <-(usage_active _ _ _ _ _ Hus). by apply Z.leb_le.
    - unfold get_usage in Hus. apply outcome_bind_Ok in Hus as (total & Htot & Hus).
      exists total. split; [done|]. injection Hus as <-. by apply negb_true_iff. }
  minv. unfold modify in Hr. injection Hr as <-. simpl. split; [done|]. exists l.
  match goal with Hb : bool_decide _ = true |- _ => apply bool_decide_eq_true in Hb end.
  split_and!; try done.
  - rewrite map_size_insert_None by done. unfold quo in Hmax. simpl in Hmax. lia.
  - exists w. by rewrite lookup_insert_eq.
Qed.

(** An admitted claim went through the quota check. *)
Definition metered (ag o fp : string) (c : float64) (t : float64) (s s' : gov) : Prop :=
  ∃ l, current_policy (g_quo s) = Ok l ∧
    Z.of_nat (size (records (g_quo s'))) <= max_records l ∧
    (∃ w, records (g_quo s') !! (ag, o) = Some (mkRecord fp w c t)) ∧
    (∃ row, ops (g_led s') !! (ag, o) = Some row ∧ fingerprint row = fp ∧ op_st row = unknown) ∧
    (enabled l = true →
       within_limits l s c ∧ Z.of_nat (size (unknown_ops (g_led s'))) <= max_active l).

Lemma claim_metered x p ag o fp c s u s' :
  claim_operation (Some a) x (Some p) ag o fp None
    (quota_hook owner_json (Some a) x (Some p) ag o fp c) s = (Ok u, s') →
  metered ag o fp c (now x) s s'.
Proof.
  intros Hr. pose proof Hr as (_ & Hnew & Hops & _)%claim_effect.
  unfold claim_operation, claim in Hr.
  apply bind_Ok_inv in Hr as (u0 & s0 & He & Hr). apply ensure_Ok_inv in He as [_ ->].
  apply bind_Ok_inv in Hr as (u0' & s0 & He & Hr). apply ensure_Ok_inv in He as [_ ->].
  apply bind_Ok_inv in Hr as (u0'' & s0 & He & Hr). apply ensure_Ok_inv in He as [_ ->].
  apply (proj1 (atomic_Ok _ _ _ _)) in Hr. rewrite run_get in Hr. unfold led in Hr. simpl in Hr.
  rewrite Hnew in Hr. apply bind_Ok_inv in Hr as (u1 & s1 & Hhook & Hr).
  assert (admit_record owner_json (tenant_of (Some a)) p ag o fp (PFloat c) (now x) s = (Ok u1, s1)) as Hrec.
  { unfold quota_hook, catch in Hhook. unfold Quotas.admit_quota in Hhook. rewrite run_ensure in Hhook by done.
    destruct (admit_record _ _ _ _ _ _ _ _ s) as [[[]|err] s2]; [by destruct u1|].
    destruct err; done. }
  apply record_effect in Hrec as (Hl1 & l & Hl & _ & Hmax & Hrecd & Hlim).
  assert (g_quo s' = g_quo s1) as Hq.
  { minv. unfold modify_ledger, modify in *. simpl in *.
    repeat match goal with Hx : (Ok tt, _) = (Ok tt, _) |- _ => injection Hx as <- end. done. }
  exists l. rewrite Hq. split_and!; try done.
  - exists (mkOp fp unknown (now x)). by rewrite Hops, lookup_insert_eq.
  - intros Hen. specialize (Hlim Hen). split; [done|]. destruct Hlim as [Hact _].
    unfold unknown_ops in *. rewrite Hops, map_filter_insert_True by done.
    rewrite map_size_insert_None by (apply map_lookup_filter_None_2; by left). lia.
Qed.

Lemma transaction_metered x ag c amount target o scope p dec s t d s' :
  transaction x ag c amount target (Some o) scope p dec None s = (Ok (t, d), s') →
  metered ag o scope amount (now x) s s'.
Proof.
  unfold Gateway.admit_transaction. intros Hr.
  apply bind_Ok_inv in Hr as (u0 & s0 & He & Hr). apply ensure_Ok_inv in He as [_ ->].
  apply (proj1 (atomic_Ok _ _ _ _)) in Hr.
  apply bind_Ok_inv in Hr as (u1 & s1 & Hclaim & Hr).
  apply bind_Ok_inv in Hr as (d' & s2 & Hd & Hr). injection Hd as <- <-.
  apply bind_Ok_inv in Hr as (t' & s3 & Hres & Hr).
  apply bind_Ok_inv in Hres as ([[t0|] why] & s4 & Hres & Ht); [|done]. injection Ht as <- <-.
  apply bind_Ok_inv in Hr as (u4 & s5 & Hau & Hr).
  destruct p as [p|]; [|done]. apply claim_metered in Hclaim as (l & Hl & Hm & Hrec & Hrow & Hlim).
  assert (g_quo s' = g_quo s1 ∧ ops (g_led s') = ops (g_led s1)) as [Hq Ho].
  2:{ exists l. rewrite Hq. unfold unknown_ops. rewrite Ho. done. }
  assert (g_quo s4 = g_quo s1 ∧ g_led s4 = g_led s1) as [Hq4 Hl4].
  { unfold zoom in Hres. destruct (Manager.reserve _ _ _ _ _ _). by injection Hres as _ <-. }
  apply reads_Ok in Hau as ->; [|apply authority_reads].
  apply bind_Ok_inv in Hr as (u5 & s6 & Hatt & Hr).
  assert (g_quo s6 = g_quo s4 ∧ ops (g_led s6) = ops (g_led s4)) as [Hq6 Hl6].
  { unfold attach_reservation, modify_ledger, modify in Hatt. minv. by injection Hatt as <-. }
  apply bind_Ok_inv in Hr as (u6 & s7 & Hcon & Hr).
  assert (g_quo s7 = g_quo s6 ∧ g_led s7 = g_led s6) as [Hq7 Hl7].
  { destruct (approval_required dec); [|by injection Hcon as _ <-].
    apply bind_Ok_inv in Hcon as (b & s8 & Hc & He). apply ensure_Ok_inv in He as [_ ->].
    unfold consume_grant in Hc. destruct (Policy.sensitive eng); [|by injection Hc as _ <-].
    destruct (consume _ _ _ _). by injection Hc as _ <-. }
  apply bind_Ok_inv in Hr as (u7 & s8 & Hlink & Hr). injection Hr as _ _ <-.
  apply bind_Ok_inv in Hlink as (u8 & s9 & Hau & Hlink). injection Hlink as _ <-.
  apply reads_Ok in Hau as ->; [|apply authority_reads]. split; congruence.
Qed.

(** C20: an operation admitted for a tenant has a quota record for exactly its
    request and cost, within the record capacity; under an enabled policy the
    tenant then has at most [max_active] unresolved operations and its spent,
    reserved and new amounts stay within the spend limit. *)
Theorem quota_bounds_admission r x s adm s' o :
  admit_call r x s = (Ok adm, s') → operation adm = Some o →
  ∃ scope s1, quiet dflt s s1 ∧ metered (agent adm) o scope (cost adm) (now x) s1 s'.
Proof.
  intros Ha Ho. apply admit_cases in Ha as [[_ [err He]]|(a' & s1 & dec & scope & Heq & Hq & Ht & _)]; [done|].
  injection Heq as <-. rewrite Ho in Ht. exists scope, s1. split; [done|]. by eapply transaction_metered.
Qed.
End quotas.

(** ** A concrete tenant *)

#[local] Instance tenant_digest : Sha256 | 0 := { sha256_hex _ := "digest" }.
#[local] Existing Instance hex_ed25519 | 0.

Definition tenant_wire : json :=
  JObj [("id", JInt 7); ("method", JStr "tools/call");
        ("params", JObj [("name", JStr "read"); ("arguments", JObj [("q", JStr "x")])])].

Definition tenant_nonce : string := "1:0123456789abcdef".
Definition tenant_op : string := "operation-000001".

Definition tenant_body : string :=
  json_dumps (JObj [("src", JStr "mcp"); ("dst", JStr "agntcy"); ("wire", tenant_wire);
                    ("target_id", JStr "t1"); ("operation_id", JStr tenant_op)]).

(** The agent signs in for this body. *)
Definition tenant_bot : Principal :=
  match exec "k" demo_verifiers demo_parse demo_encode now1
          (RAgent "acme" "bot" tenant_nonce tenant_body demo_signature None) (dir demo_w2) with
  | (Ok (Some p), _) => p
  | _ => nobody
  end.

Definition tenant_authority : authority := mkAuthority "acme" (dir demo_w2) "k".

Definition tenant_gov : gov :=
  mkGov {["bot" := mkIdRow AuthoritySpec.demo_key false]} (Manager.mkManager ∅ ∅) demo_table
    (AuditLog.Sql.mkDb [] None) (mkLedger ∅ ∅ ∅)
    (mkQuota (Some (mkPolicyRow 1 (Some (mkLimits true (PFloat (FFin 90)) (PFloat (FFin 50)) 5 5 60 2 1 3)))) ∅).

Definition tenant_request : request :=
  mkRequest "bot" "mcp" "agntcy" tenant_wire (PFloat (FFin 9)) (Some "t1") (Some tenant_op) None None
    (Some tenant_body) (Some tenant_nonce) (Some tenant_bot).

Definition tenant_drawn : drawn :=
  mkDrawn (FFin 1) (fun _ => mkDatetime 0 12) "tok-1" "ap" "t0" demo_ids.

Definition tenant_admit : outcome Admission * gov :=
  Gateway.admit_call (fun _ => "") (fun _ _ _ _ => "") (mkEnv false None "multi_tenant")
    (mkEngine false None ∅ None) (Some tenant_authority) demo_budget default_registry true
    tenant_request tenant_drawn tenant_gov.

Definition admitted_as (o ag : string) (c : float64) (r : outcome Admission * gov) : bool :=
  match r.1 with
  | Ok adm => bool_decide (operation adm = Some o ∧ agent adm = ag ∧ cost adm = c)
  | Raise _ => false
  end.

Lemma admitted_as_spec o ag c r :
  admitted_as o ag c r = true →
  ∃ adm, r = (Ok adm, r.2) ∧ operation adm = Some o ∧ agent adm = ag ∧ cost adm = c.
Proof.
  unfold admitted_as. destruct r as [[adm|] s']; simpl; [|done].
  intros Hb%bool_decide_eq_true. by exists adm.
Qed.

Lemma tenant_admitted : admitted_as tenant_op "bot" (FFin 9) tenant_admit = true.
Proof. vm_compute. reflexivity. Qed.

Lemma quota_bounds_admission_witness :
  ∃ scope s1, quiet demo_budget tenant_gov s1 ∧
    metered "bot" tenant_op scope (FFin 9) (FFin 1) s1 tenant_admit.2.
Proof.
  destruct (admitted_as_spec _ _ _ _ tenant_admitted) as (adm & Hr & Ho & Hag & Hc).
  unfold tenant_admit at 1 in Hr.
  pose proof (quota_bounds_admission (fun _ => "") (fun _ _ _ _ => "") (mkEnv false None "multi_tenant")
    (mkEngine false None ∅ None) tenant_authority demo_budget default_registry
    tenant_request tenant_drawn tenant_gov adm tenant_admit.2 tenant_op Hr Ho) as Hq.
  rewrite Hag, Hc in Hq. exact Hq.
Defined.
