(* ===== verification/Evidence.v ===== *)
(** * Settlement evidence

    Models the version 1 evidence of src/governance/destination_receipts.py,
    readback_attestations.py and operator_review.py: a receipt signed by the
    destination, a state readback signed by an independent observer, and the
    reviewing operator's signature over both digests.  An envelope is a [json]
    value; [json.dumps] with sorted keys is [canonical_dumps]. *)

From stdpp Require Import base list gmap strings.
From Stdlib Require Import ZArith Lia.
From S2P Require Import Prelude PyFloat Identity Authority Json.

Local Open Scope Z_scope.

(** ** Envelopes *)

Definition field (k : string) (m : list (string * json)) : json := obj_get k JNull m.

(** [set(m) == set(names)]. *)
Definition keys_are (names : list string) (m : list (string * json)) : bool :=
  forallb (fun k => bool_decide (k ∈ names)) m.*1 && forallb (fun k => bool_decide (k ∈ m.*1)) names.

(** A nonempty text of at most 512 characters. *)
Definition bounded_text (j : json) : bool :=
  match j with JStr s => negb (bool_decide (s = "")) && (strlen s <=? 512) | _ => false end.

Definition text_of_len (n : Z) (j : json) : bool :=
  match j with JStr s => strlen s =? n | _ => false end.

Definition is_lower_hex (c : Ascii.ascii) : bool :=
  ((48 <=? code c) && (code c <=? 57)) || ((97 <=? code c) && (code c <=? 102)).

(** 64 lower-case hexadecimal digits. *)
Definition sha256_text (s : string) : bool := (strlen s =? 64) && str_forallb is_lower_hex s.

Definition is_outcome (j : json) : bool := is_text "succeeded" j || is_text "failed" j.

Definition text_or_empty (j : json) : string := match j with JStr s => s | _ => "" end.

(** [{name: m[name] for name in names}]. *)
Definition selected (names : list string) (m : list (string * json)) : json :=
  JObj ((fun k => (k, field k m)) <$> names).

(** [bytes.fromhex]: pairs of digits, white space between pairs skipped. *)
Definition hex_value (c : Ascii.ascii) : option Z :=
  let n := code c in
  if (48 <=? n) && (n <=? 57) then Some (n - 48)
  else if (97 <=? n) && (n <=? 102) then Some (n - 87)
  else if (65 <=? n) && (n <=? 70) then Some (n - 55)
  else None.

Definition ascii_space (c : Ascii.ascii) : bool :=
  let n := code c in ((9 <=? n) && (n <=? 13)) || (n =? 32).

Fixpoint from_hex (s : string) : option (list Z) :=
  match s with
  | EmptyString => Some []
  | String c s' =>
      if ascii_space c then from_hex s'
      else match s' with
           | EmptyString => None
           | String d s'' =>
               hi ← hex_value c; lo ← hex_value d; rest ← from_hex s''; Some (16 * hi + lo :: rest)
           end
  end.

Section evidence.
Context `{Ed25519} `{Sha256} `{JsonText}.

(** ** Destination receipts *)

Definition RECEIPT_FIELDS : list string :=
  ["agent_id"; "operation_id"; "fingerprint"; "outcome"; "external_reference"].

Definition canonical_receipt_payload (m : list (string * json)) : string :=
  canonical_dumps (selected RECEIPT_FIELDS m).

Definition verify_destination_receipt (receipt : json) (ag op fp : string) (key : string) : outcome string :=
  match receipt with
  | JObj m =>
      _ ← guard_or (keys_are (RECEIPT_FIELDS ++ ["signature_hex"]) m)
                   (UntrustedReceipt "unexpected or missing receipt fields");
      _ ← guard_or (forallb (fun k => bounded_text (field k m))
                      ["agent_id"; "operation_id"; "fingerprint"; "external_reference"])
                   (UntrustedReceipt "invalid receipt identifiers");
      _ ← guard_or (text_of_len 128 (field "signature_hex" m))
                   (UntrustedReceipt "invalid signature encoding");
      _ ← guard_or (is_text ag (field "agent_id" m) && is_text op (field "operation_id" m) &&
                    is_text fp (field "fingerprint" m) && is_outcome (field "outcome" m))
                   (UntrustedReceipt "destination receipt does not match claimed operation");
      let signature := text_or_empty (field "signature_hex" m) in
      _ ← guard_or (public_key_ok key && hex_ok signature)
                   (UntrustedReceipt "malformed destination receipt");
      _ ← guard_or (ed_verify key (canonical_receipt_payload m) signature)
                   (UntrustedReceipt "invalid destination signature");
      Ok (sha256_hex (canonical_receipt_payload m))
  | _ => Raise (UntrustedReceipt "missing trusted destination configuration")
  end.

(** ** State readbacks *)

Definition READBACK_FIELDS : list string :=
  ["agent_id"; "operation_id"; "fingerprint"; "outcome"; "external_reference"; "observed_at"; "source";
   "source_evidence_sha256"; "destination_receipt_sha256"].

Definition canonical_readback_payload (m : list (string * json)) : string :=
  canonical_dumps (selected READBACK_FIELDS m).

Definition sha256_field (j : json) : bool := match j with JStr s => sha256_text s | _ => false end.

Definition key_bytes (key : string) : option (list Z) :=
  b ← from_hex key; guard (length b = 32%nat);; Some b.

(** [now] is [int(time.time())]. *)
Definition verify_readback_attestation (proof : json) (ag op fp outcome_text reference receipt_sha256 : string)
    (readback_key destination_key : string) (now : Z) : outcome string :=
  match proof with
  | JObj m =>
      _ ← guard_or (keys_are (READBACK_FIELDS ++ ["signature_hex"]) m)
                   (UntrustedReadback "missing or unrecognized readback fields");
      _ ← guard_or (forallb (fun k => bounded_text (field k m))
                      ["agent_id"; "operation_id"; "fingerprint"; "external_reference"; "source"])
                   (UntrustedReadback "invalid readback identity/source");
      _ ← guard_or (is_outcome (field "outcome" m)) (UntrustedReadback "invalid readback outcome");
      match field "observed_at" m with
      | JInt observed =>
          _ ← guard_or (sha256_field (field "source_evidence_sha256" m) &&
                        sha256_field (field "destination_receipt_sha256" m))
                       (UntrustedReadback "invalid readback evidence digest");
          _ ← guard_or (text_of_len 128 (field "signature_hex" m))
                       (UntrustedReadback "invalid readback signature encoding");
          _ ← guard_or (is_text ag (field "agent_id" m) && is_text op (field "operation_id" m) &&
                        is_text fp (field "fingerprint" m) && is_text outcome_text (field "outcome" m) &&
                        is_text reference (field "external_reference" m) &&
                        is_text receipt_sha256 (field "destination_receipt_sha256" m))
                       (UntrustedReadback "readback not bound to the exact destination receipt");
          match key_bytes readback_key, key_bytes destination_key with
          | Some rk, Some dk =>
              _ ← guard_or (negb (bool_decide (rk = dk)))
                           (UntrustedReadback "readback signer must be an independent trust root");
              _ ← guard_or ((now - 300 <=? observed) && (observed <=? now + 30))
                           (UntrustedReadback "readback attestation is stale or from the future");
              let signature := text_or_empty (field "signature_hex" m) in
              _ ← guard_or (public_key_ok readback_key && hex_ok signature &&
                            ed_verify readback_key (canonical_readback_payload m) signature)
                           (UntrustedReadback "readback attestation signature invalid");
              Ok (sha256_hex (canonical_readback_payload m))
          | _, _ => Raise (UntrustedReadback "malformed readback or destination public key")
          end
      | _ => Raise (UntrustedReadback "readback observation must have integer epoch seconds")
      end
  | _ => Raise (UntrustedReadback "missing or unrecognized readback fields")
  end.

(** ** Operator review *)

Definition review_payload (reviewer ag op fp outcome_text reference receipt_sha256 readback_sha256 : string)
  : string :=
  ("agentbridge-operator-review-v1:" +:+ canonical_dumps (JObj
    [("reviewer", JStr reviewer); ("agent_id", JStr ag); ("operation_id", JStr op);
     ("fingerprint", JStr fp); ("outcome", JStr outcome_text); ("external_reference", JStr reference);
     ("destination_receipt_sha256", JStr receipt_sha256); ("readback_sha256", JStr readback_sha256)]))%string.

Definition verify_operator_review
    (reviewer ag op fp outcome_text reference receipt_sha256 readback_sha256 : string)
    (signature : option string) (operators_json : option string) : outcome unit :=
  match operators_json with
  | None => Raise (UntrustedReviewer "reconciliation operator registry required")
  | Some text =>
      match json_loads text with
      | Raise _ => Raise (UntrustedReviewer "operator registry invalid")
      | Ok (JObj allowed) =>
          _ ← guard_or (negb (bool_decide (allowed.*1 = [])))
                       (UntrustedReviewer "operator registry empty or invalid");
          match field reviewer allowed, signature with
          | JStr key, Some sg =>
              _ ← guard_or ((strlen key =? 64) && (strlen sg =? 128))
                           (UntrustedReviewer "reviewer not enrolled or signature missing");
              guard_or (bool_decide (length <$> from_hex key = Some 32%nat) &&
                        bool_decide (length <$> from_hex sg = Some 64%nat) && public_key_ok key &&
                        ed_verify key (review_payload reviewer ag op fp outcome_text reference
                                         receipt_sha256 readback_sha256) sg)
                       (UntrustedReviewer "reviewer signature invalid")
          | _, _ => Raise (UntrustedReviewer "reviewer not enrolled or signature missing")
          end
      | Ok _ => Raise (UntrustedReviewer "operator registry empty or invalid")
      end
  end.

(** ** What an accepted envelope says *)

Lemma receipt_accepted receipt ag op fp key digest :
  verify_destination_receipt receipt ag op fp key = Ok digest →
  ∃ m, receipt = JObj m ∧ digest = sha256_hex (canonical_receipt_payload m) ∧
    is_text ag (field "agent_id" m) = true ∧ is_text op (field "operation_id" m) = true ∧
    is_text fp (field "fingerprint" m) = true ∧
    ed_verify key (canonical_receipt_payload m) (text_or_empty (field "signature_hex" m)) = true.
Proof.
  unfold verify_destination_receipt. destruct receipt as [| | | | | |m]; try done. intros Hv.
  repeat (apply outcome_bind_Ok in Hv as (? & ?%guard_or_Ok & Hv)). injection Hv as <-.
  repeat match goal with Hx : _ && _ = true |- _ => apply andb_true_iff in Hx as [? ?] end.
  by exists m.
Qed.

Lemma readback_accepted proof ag op fp x reference rd rk dk now digest :
  verify_readback_attestation proof ag op fp x reference rd rk dk now = Ok digest →
  ∃ m, proof = JObj m ∧ digest = sha256_hex (canonical_readback_payload m) ∧
    is_text op (field "operation_id" m) = true ∧ is_text fp (field "fingerprint" m) = true ∧
    is_text x (field "outcome" m) = true ∧
    is_text rd (field "destination_receipt_sha256" m) = true ∧
    key_bytes rk ≠ key_bytes dk ∧
    ed_verify rk (canonical_readback_payload m) (text_or_empty (field "signature_hex" m)) = true.
Proof.
  unfold verify_readback_attestation. destruct proof as [| | | | | |m]; try done. intros Hv.
  do 3 apply outcome_bind_Ok in Hv as (? & ?%guard_or_Ok & Hv).
  destruct (field "observed_at" m); try done.
  do 3 apply outcome_bind_Ok in Hv as (? & ?%guard_or_Ok & Hv).
  destruct (key_bytes rk) as [rb|]; [|done]. destruct (key_bytes dk) as [db|]; [|done].
  repeat (apply outcome_bind_Ok in Hv as (? & ?%guard_or_Ok & Hv)). injection Hv as <-.
  repeat match goal with Hx : _ && _ = true |- _ => apply andb_true_iff in Hx as [? ?] end.
  exists m. split_and!; try done. intros [= ->].
  match goal with Hx : negb _ = true |- _ => by rewrite bool_decide_true in Hx end.
Qed.

Lemma review_accepted reviewer ag op fp x reference rd bd sg ops :
  verify_operator_review reviewer ag op fp x reference rd bd sg ops = Ok tt →
  ∃ text allowed key sig, ops = Some text ∧ json_loads text = Ok (JObj allowed) ∧ sg = Some sig ∧
    field reviewer allowed = JStr key ∧
    ed_verify key (review_payload reviewer ag op fp x reference rd bd) sig = true.
Proof.
  unfold verify_operator_review. destruct ops as [text|]; [|done].
  destruct (json_loads text) as [[| | | | | |allowed]|] eqn:Hj; try done. intros Hv.
  apply outcome_bind_Ok in Hv as (? & _ & Hv).
  destruct (field reviewer allowed) as [| | | |key| |] eqn:Hf; try done. destruct sg as [sig|]; [|done].
  apply outcome_bind_Ok in Hv as (? & _ & Hv%guard_or_Ok).
  apply andb_true_iff in Hv as [_ Hv]. by exists text, allowed, key, sig.
Qed.
End evidence.
