(* ===== verification/AuditTrust.v ===== *)
(** * Audit checkpoints kept and witnessed

    governance/audit_trust.py: durable legal holds and the append-only registry
    of signed checkpoints, each checked against the stored audit chain.
    governance/external_anchor.py: a witness statement, signed by an independent
    party over the digest of a checkpoint, and its verification against an
    exported history.  governance/witness_journal.py: the witness's own journal,
    which accepts only checkpoints that extend what it has already witnessed.

    A checkpoint and a witness statement are typed; their JSON text is a codec
    with a digest ([AnchorCodec]).  [AuditCodec] and [SignatureScheme] are the
    audit log's interfaces to hashing and Ed25519. *)

From stdpp Require Import base list gmap strings.
From Stdlib Require Import ZArith Lia.
From S2P Require Import Prelude PyFloat Authority Evidence AuditLog RetainedCapacity.

#[local] Open Scope Z_scope.

(** ** Witness statements *)

Record witness := mkWitness {
  wi_version : Z;
  wi_id : string;
  wi_checkpoint_sha256 : string;
  wi_seq : Z;
  wi_head_hash : string;
  wi_witnessed_at : string;
  wi_reference : string;
  wi_signature_hex : string;
}.

(** The canonical JSON of a checkpoint, hashed; the bytes a witness signs; and
    the texts stored in the journals. *)
Class AnchorCodec := {
  checkpoint_digest : checkpoint → string;
  witness_payload : witness → string;
  checkpoint_text : checkpoint → string;
}.

Definition anchor_hex (n : Z) (s : string) : bool := (strlen s =? n) && str_forallb is_lower_hex s.

Definition metadata_ok (s : string) : bool := negb (bool_decide (s = "")) && (strlen s <=? 512).

Section anchor.
Context `{AuditCodec} `{SignatureScheme} `{AnchorCodec}.

(** [create_witness_statement]; [sg] is what the signing service returns. *)
Definition create_witness_statement (ck : checkpoint) (id at_ reference : string) (sg : string → string)
    : outcome witness :=
  _ ← guard_or (verify_checkpoint ck) (AnchorVerificationError "checkpoint signature invalid");
  _ ← guard_or (metadata_ok id && metadata_ok at_ && metadata_ok reference)
               (AnchorVerificationError "invalid witness metadata");
  let unsigned := mkWitness 1 id (checkpoint_digest ck) (ck_seq ck) (ck_head_hash ck) at_ reference "" in
  let signature := sg (witness_payload unsigned) in
  _ ← guard_or (strlen signature =? 128) (AnchorVerificationError "witness signature must be Ed25519");
  Ok (mkWitness 1 id (checkpoint_digest ck) (ck_seq ck) (ck_head_hash ck) at_ reference signature).

(** [records[seq - 1]["entry_hash"]], or the genesis value. *)
Definition head_at (n : Z) (records : list AuditEntry) : option string :=
  if n =? 0 then Some GENESIS else entry_hash <$> records !! Z.to_nat (n - 1).

Record anchored := mkAnchored {
  an_witness_id : string;
  an_sequence : Z;
  an_head_hash : string;
  an_entries : Z;
}.

(** [verify_anchored_audit]. *)
Definition verify_anchored_audit (records : list AuditEntry) (ck : checkpoint) (w : witness)
    (checkpoint_key witness_key : string) : outcome anchored :=
  _ ← guard_or (wi_version w =? 1) (AnchorVerificationError "unsupported witness version");
  _ ← guard_or (metadata_ok (wi_id w) && metadata_ok (wi_witnessed_at w) && metadata_ok (wi_reference w))
               (AnchorVerificationError "invalid witness metadata");
  _ ← guard_or (0 <=? wi_seq w) (AnchorVerificationError "invalid witness sequence");
  _ ← guard_or (anchor_hex 64 (wi_checkpoint_sha256 w) && anchor_hex 64 (wi_head_hash w))
               (AnchorVerificationError "invalid witness digest");
  _ ← guard_or (anchor_hex 128 (wi_signature_hex w)) (AnchorVerificationError "invalid witness signature");
  _ ← guard_or (anchor_hex 64 checkpoint_key && anchor_hex 64 witness_key)
               (AnchorVerificationError "trusted keys must be canonical Ed25519 hex");
  _ ← guard_or (negb (bool_decide (checkpoint_key = witness_key)))
               (AnchorVerificationError "independent witness key required");
  _ ← guard_or (bool_decide (ck_public_key_hex ck = checkpoint_key) && verify_checkpoint ck)
               (AnchorVerificationError "checkpoint not signed by pinned issuer");
  _ ← guard_or (bool_decide (wi_checkpoint_sha256 w = checkpoint_digest ck) && (wi_seq w =? ck_seq ck) &&
                bool_decide (wi_head_hash w = ck_head_hash ck))
               (AnchorVerificationError "witness does not match checkpoint");
  _ ← guard_or (verify witness_key (wi_signature_hex w) (witness_payload w))
               (AnchorVerificationError "invalid independent witness signature");
  _ ← guard_or (verify_chain records true)
               (AnchorVerificationError "audit chain invalid or not complete from genesis");
  match head_at (wi_seq w) records with
  | None => Raise (AnchorVerificationError "audit was truncated or rolled back behind witness")
  | Some expected =>
      _ ← guard_or (bool_decide (expected = wi_head_hash w))
                   (AnchorVerificationError "audit history forked from witnessed checkpoint");
      Ok (mkAnchored (wi_id w) (wi_seq w) expected (Z.of_nat (length records)))
  end.

(** ** The witness's journal *)

Record journal_row := mkJournalRow {
  jr_seq : Z;
  jr_digest : string;
  jr_head : string;
  jr_checkpoint : checkpoint;
  jr_receipt : witness;
}.

(** The rows of one witness, by primary key; the last is the latest. *)
Notation witness_table := (gmap Z journal_row).

(** [ORDER BY seq DESC LIMIT 1]. *)
Definition latest_row (t : witness_table) : option journal_row :=
  map_fold (fun n r acc => match acc with
                           | Some r' => if jr_seq r' <? n then Some r else acc
                           | None => Some r
                           end) None t.

Record journal_config := mkJournalConfig {
  jc_checkpoint_key : string;
  jc_witness_key : string;
  jc_witness_id : string;
}.

(** [latest]. *)
Definition latest (t : witness_table) : option (checkpoint * witness) :=
  (fun r => (jr_checkpoint r, jr_receipt r)) <$> latest_row t.

(** [accept]: whether the checkpoint was already journalled. *)
Definition accept (c : journal_config) (records : list AuditEntry) (ck : checkpoint) (w : witness)
    : M witness_table (bool * Z) :=
  a ← lift (verify_anchored_audit records ck w (jc_checkpoint_key c) (jc_witness_key c));
  _ ← ensure (bool_decide (wi_id w = jc_witness_id c)) (AnchorVerificationError "witness identity not pinned");
  let n := an_sequence a in
  let row := mkJournalRow n (checkpoint_digest ck) (an_head_hash a) ck w in
  atomic (
    t ← get;
    match latest_row t with
    | None => _ ← put (<[n := row]> t); mret (false, n)
    | Some prior =>
        _ ← ensure (jr_seq prior <=? n) (AnchorVerificationError "rollback behind journal head");
        if n =? jr_seq prior then
          _ ← ensure (bool_decide (checkpoint_digest ck = jr_digest prior))
                     (AnchorVerificationError "conflicting checkpoint at same sequence");
          mret (true, n)
        else
          match head_at (jr_seq prior) records with
          | None => raise (AnchorVerificationError "history truncated before prior witness")
          | Some previous =>
              _ ← ensure (bool_decide (previous = jr_head prior))
                         (AnchorVerificationError "fork detected against previous witness");
              _ ← put (<[n := row]> t);
              mret (false, n)
          end
    end).

(** ** Holds and saved checkpoints *)

Record trust_store := mkTrust {
  ts_audit : Sql.audit_db;
  ts_holds : gmap string bool;
  ts_checkpoints : table Z;
}.

#[global] Program Instance trust_checkpoints : Lens trust_store (table Z) := {
  view s := ts_checkpoints s;
  update t s := mkTrust (ts_audit s) (ts_holds s) t;
}.
Next Obligation. done. Qed.
Next Obligation. by intros []. Qed.
Next Obligation. done. Qed.

#[global] Program Instance trust_audit : Lens trust_store Sql.audit_db := {
  view s := ts_audit s;
  update d s := mkTrust d (ts_holds s) (ts_checkpoints s);
}.
Next Obligation. done. Qed.
Next Obligation. by intros []. Qed.
Next Obligation. done. Qed.

Definition set_hold (name : string) (enabled : bool) : M trust_store unit :=
  _ ← ensure (negb (bool_decide (name = ""))) (AuditTrustError "legal-hold identifier required");
  modify (fun s => mkTrust (ts_audit s) (<[name := enabled]> (ts_holds s)) (ts_checkpoints s)).

(** The enabled holds; callers look only at their presence. *)
Definition holds (s : trust_store) : list string := (map_to_list (filter (fun p => p.2 = true) (ts_holds s))).*1.

(** [truncate_audit_before] of the store, with the holds of this store. *)
Definition truncate_audit (prod : bool) (guard : outcome unit) (n : Z) : M trust_store Z :=
  s ← get;
  zoom (Sql.truncate_audit_before prod (holds s) guard n).

Definition save_checkpoint (ck : checkpoint) (trusted : string) : M trust_store Z :=
  _ ← ensure (bool_decide (ck_public_key_hex ck = trusted)) (AuditTrustError "checkpoint signer not pinned");
  _ ← ensure (verify_checkpoint ck) (AuditTrustError "checkpoint signature invalid");
  _ ← ensure (0 <=? ck_seq ck) (AuditTrustError "bad checkpoint sequence");
  atomic (
    s ← get;
    let records := Sql.rows (ts_audit s) in
    _ ← ensure (verify_chain records true) (AuditTrustError "stored audit chain failed verification");
    match head_at (ck_seq ck) records with
    | None => raise (AuditTrustError "checkpoint beyond current audit history")
    | Some expected =>
        _ ← ensure (bool_decide (ck_head_hash ck = expected))
                   (AuditTrustError "checkpoint signature does not match the stored audit history");
        _ ← zoom (insert_checkpoint (ck_seq ck) (checkpoint_text ck));
        mret (ck_seq ck)
    end).

(** [set_checkpoint_capacity] and [set_capacity]. *)
Definition set_checkpoint_capacity (l : limits) (audit : M trust_store unit) : M trust_store (limits * Z * Z) :=
  set_capacity checkpoint_retention l audit.

Definition set_audit_capacity (l : Z * Z * Z) : M trust_store Sql.capacity := zoom (Sql.policy (Some l)).
End anchor.
