(* ===== verification/AuditTrustSpec.v ===== *)
(** * What witnessing guarantees

    Every history the witness's journal accepts keeps all that it has witnessed
    before, entry for entry; and in production a saved checkpoint agrees with the
    stored chain for good. *)

From stdpp Require Import base list gmap strings relations.
From Stdlib Require Import ZArith Lia.
From S2P Require Import Prelude PyFloat Authority Evidence AuditLog AuditSpec RetainedCapacity AuditTrust.

#[local] Open Scope Z_scope.

#[local] Notation witness_table := (gmap Z journal_row).

(** ** The latest row *)

Definition keyed (t : witness_table) : Prop := map_Forall (fun n r => jr_seq r = n) t.

Lemma latest_row_spec t :
  keyed t →
  match latest_row t with
  | None => t = ∅
  | Some r => t !! jr_seq r = Some r ∧ ∀ m, is_Some (t !! m) → m ≤ jr_seq r
  end.
Proof.
  unfold latest_row. apply (map_fold_weak_ind (fun acc t => keyed t → match acc with
    | None => t = ∅ | Some r => t !! jr_seq r = Some r ∧ ∀ m, is_Some (t !! m) → m ≤ jr_seq r end)); [done|].
  intros n r t' acc Hn IH Hk. apply map_Forall_insert in Hk as [Hr Hk]; [|done]. specialize (IH Hk).
  assert (∀ m, is_Some (<[n := r]> t' !! m) → m = n ∨ is_Some (t' !! m)) as Hm.
  { intros m [x Hx]. destruct (decide (n = m)) as [->|Hne]; [by left|]. rewrite lookup_insert_ne in Hx by done. right. by exists x. }
  destruct acc as [r'|].
  - destruct IH as [Hin Hmax]. destruct (Z.ltb_spec (jr_seq r') n).
    + subst n. rewrite lookup_insert_eq. split; [done|]. intros m [->|Hx]%Hm; [done|]. specialize (Hmax m Hx). lia.
    + rewrite lookup_insert_ne by (intros ->; congruence). split; [done|]. intros m [->|Hx]%Hm; [lia|by apply Hmax].
  - subst t' n. rewrite lookup_insert_eq. split; [done|]. intros m [->|Hx]%Hm; [done|]. by destruct Hx as [y Hy%lookup_empty_Some].
Qed.

Lemma latest_row_insert t n r :
  keyed t → jr_seq r = n → (∀ m, is_Some (t !! m) → m < n) → latest_row (<[n := r]> t) = Some r.
Proof.
  intros Hk Hr Hlt. assert (keyed (<[n := r]> t)) as Hk' by (by apply map_Forall_insert_2).
  pose proof (latest_row_spec _ Hk') as Hs. destruct (latest_row (<[n := r]> t)) as [r'|].
  - destruct Hs as [Hin Hmax]. assert (n ≤ jr_seq r') as Hle by (apply Hmax; exists r; apply lookup_insert_eq).
    destruct (decide (n = jr_seq r')) as [->|Hne]; [by rewrite lookup_insert_eq in Hin|].
    rewrite lookup_insert_ne in Hin by done. pose proof (Hlt (jr_seq r') (mk_is_Some _ _ Hin)). lia.
  - by apply insert_non_empty in Hs.
Qed.

(** A checkpoint's digest determines it, as SHA-256 of its canonical JSON does. *)
Class AnchorCollisionFree `{AnchorCodec} := {
  checkpoint_digest_inj ck ck' : checkpoint_digest ck = checkpoint_digest ck' → ck = ck';
}.

Section spec.
Context `{AC : AuditCodec} `{CF : !CollisionFree} `{SignatureScheme} `{AnchorCodec} `{AF : !AnchorCollisionFree}.
Context (c : journal_config).

(** The pinned issuer signs a checkpoint of a history: the entry whose hash it
    names stands right before the checkpoint's position. *)
Definition issuer_honest : Prop :=
  ∀ ck e, ck_public_key_hex ck = jc_checkpoint_key c → verify_checkpoint ck = true →
    compute_hash e = ck_head_hash ck → seq e = ck_seq ck - 1.

(** The complete history [records] has an entry with hash [h] just before [n]. *)
Definition anchors (n : Z) (h : string) (records : list AuditEntry) : Prop :=
  complete (sort_by_seq records) ∧
  (n = 0 ∨ ∃ i e, Z.of_nat i = n - 1 ∧ sort_by_seq records !! i = Some e ∧ entry_hash e = h).

Lemma complete_hash l e : complete l → e ∈ l → compute_hash e = entry_hash e.
Proof.
  intros Hc He. apply list_elem_of_split in He as (l1 & l2 & ->). apply verify_loop_app in Hc as [_ Hc].
  by apply verify_loop_cons in Hc as (_ & _ & Hh & _).
Qed.

(** The positions two anchored histories share. *)
Lemma anchors_prefix n h r r' :
  anchors n h r → anchors n h r' → take (Z.to_nat n) (sort_by_seq r) = take (Z.to_nat n) (sort_by_seq r').
Proof using CF.
  intros [Hc [->|(i & e & Hi & He & Hh)]] [Hc' Ha]; [done|]. destruct Ha as [->|(i' & e' & Hi' & He' & Hh')]; [lia|].
  assert (i' = i) as -> by lia. replace (Z.to_nat n) with (S i) by lia.
  pose proof (complete_take (S i) _ Hc) as Ht. pose proof (complete_take (S i) _ Hc') as Ht'.
  rewrite (take_S_r _ _ _ He), (take_S_r _ _ _ He') in *. apply complete_same_head; [done|done|congruence].
Qed.

Lemma anchors_below n h m k r r' :
  anchors n h r → anchors n h r' → 0 ≤ m ≤ n → anchors m k r → anchors m k r'.
Proof using CF.
  intros Hn Hn' Hm [_ Ha]. pose proof (anchors_prefix _ _ _ _ Hn Hn') as Hp. destruct Hn' as [Hc' _]. split; [done|].
  destruct Ha as [->|(i & e & Hi & He & Hh)]; [by left|]. right. exists i, e. split_and!; [done| |done].
  assert (i < Z.to_nat n)%nat as Hlt by lia.
  rewrite <-(lookup_take_lt _ (Z.to_nat n)), <-Hp, lookup_take_lt by done. done.
Qed.

(** A checkpoint of the pinned issuer, in a row or about to become one. *)
Definition issued (ck : checkpoint) : Prop :=
  ck_public_key_hex ck = jc_checkpoint_key c ∧ verify_checkpoint ck = true ∧ 0 ≤ ck_seq ck.

Lemma head_at_anchors ck records :
  issuer_honest → issued ck → verify_chain records true = true → head_at (ck_seq ck) records = Some (ck_head_hash ck) →
  anchors (ck_seq ck) (ck_head_hash ck) records.
Proof.
  intros Hh (Hk & Hv & Hpos) Hc Hat. apply verify_complete in Hc. split; [done|]. unfold head_at in Hat.
  destruct (Z.eqb_spec (ck_seq ck) 0) as [|Hne]; [by left|]. right. apply fmap_Some in Hat as (e & He & Hhash).
  assert (e ∈ sort_by_seq records) as Hin by (rewrite sort_by_seq_perm; by eapply list_elem_of_lookup_2).
  pose proof (complete_hash _ _ Hc Hin) as Hcomp. apply list_elem_of_lookup in Hin as [i Hi]. exists i, e.
  split_and!; [|done|done]. rewrite <-(complete_lookup _ _ _ Hc Hi). apply Hh; congruence.
Qed.

Lemma verify_anchored_Ok records ck w a :
  verify_anchored_audit records ck w (jc_checkpoint_key c) (jc_witness_key c) = Ok a →
  issued ck ∧ verify_chain records true = true ∧ an_sequence a = ck_seq ck ∧ an_head_hash a = ck_head_hash ck ∧
  head_at (ck_seq ck) records = Some (ck_head_hash ck).
Proof.
  unfold verify_anchored_audit. intros Hv. do 2 apply outcome_bind_Ok in Hv as (? & _ & Hv).
  apply outcome_bind_Ok in Hv as (? & Hpos%guard_or_Ok%Z.leb_le & Hv). do 4 apply outcome_bind_Ok in Hv as (? & _ & Hv).
  apply outcome_bind_Ok in Hv as (? & [Hk%bool_decide_eq_true Hck]%guard_or_Ok%andb_true_iff & Hv).
  apply outcome_bind_Ok in Hv as (? & [[_ Hs%Z.eqb_eq]%andb_true_iff Hh%bool_decide_eq_true]%guard_or_Ok%andb_true_iff & Hv).
  apply outcome_bind_Ok in Hv as (? & _ & Hv). apply outcome_bind_Ok in Hv as (? & Hc%guard_or_Ok & Hv).
  destruct (head_at (wi_seq w) records) as [hx|] eqn:Hat; [|done].
  apply outcome_bind_Ok in Hv as (? & Hx%guard_or_Ok%bool_decide_eq_true & Hv). injection Hv as <-. cbn.
  rewrite Hs in *. subst hx. split_and!; try done; congruence.
Qed.

(** ** Runs of the journal *)

Inductive wstep : witness_table → witness_table → Prop :=
| w_accept t records ck w : wstep t (accept c records ck w t).2.

Definition row_ok (n : Z) (r : journal_row) : Prop :=
  issued (jr_checkpoint r) ∧ jr_seq r = n ∧ ck_seq (jr_checkpoint r) = n ∧
  jr_head r = ck_head_hash (jr_checkpoint r) ∧ jr_digest r = checkpoint_digest (jr_checkpoint r).

Definition rows_ok (t : witness_table) : Prop := map_Forall row_ok t.

Lemma rows_keyed t : rows_ok t → keyed t.
Proof. intros Ht. eapply map_Forall_impl; [exact Ht|]. by intros n r (_ & ? & _). Qed.

Lemma latest_ok t r : rows_ok t → latest_row t = Some r → row_ok (jr_seq r) r ∧ ∀ m, is_Some (t !! m) → m ≤ jr_seq r.
Proof.
  intros Ht Hr. pose proof (latest_row_spec _ (rows_keyed _ Ht)) as Hs. rewrite Hr in Hs. destruct Hs as [Hin Hmax].
  split; [|done]. by apply (Ht _ _ Hin).
Qed.

(** What an acceptance did: the checkpoint is the latest one again, or it is
    appended to a journal whose latest row the history contains. *)
Lemma acceptance_inv records ck w t x t' :
  issuer_honest → rows_ok t → accept c records ck w t = (Ok x, t') →
  rows_ok t' ∧ anchors (ck_seq ck) (ck_head_hash ck) records ∧
  ∃ r, latest_row t' = Some r ∧ jr_seq r = ck_seq ck ∧ jr_head r = ck_head_hash ck ∧
    (latest_row t = None ∨
     ∃ prior, latest_row t = Some prior ∧
       (t' = t ∧ prior = r ∨ jr_seq prior < jr_seq r ∧ anchors (jr_seq prior) (jr_head prior) records)).
Proof using CF AF.
  intros Hh Ht Ha. unfold accept in Ha. apply bind_Ok_inv in Ha as (a & t1 & Hv & Ha). apply lift_Ok_inv in Hv as [Hv ->].
  apply verify_anchored_Ok in Hv as (Hi & Hc & Hsq & Hhd & Hat).
  apply bind_Ok_inv in Ha as (u & t1 & He & Ha). apply ensure_Ok_inv in He as [_ ->].
  apply (proj1 (atomic_Ok _ _ _ _)) in Ha. rewrite run_get, Hsq, Hhd in Ha.
  set (row := mkJournalRow _ _ _ _ _) in Ha. pose proof (head_at_anchors _ _ Hh Hi Hc Hat) as Hanc.
  assert (row_ok (ck_seq ck) row) as Hrow by done.
  pose proof (latest_row_spec _ (rows_keyed _ Ht)) as Hs. destruct (latest_row t) as [prior|] eqn:Hl.
  - destruct (latest_ok _ _ Ht Hl) as [Hp Hmax]. apply bind_Ok_inv in Ha as (u2 & t1 & He & Ha).
    apply ensure_Ok_inv in He as [Hle%Z.leb_le ->]. destruct (Z.eqb_spec (ck_seq ck) (jr_seq prior)) as [Heq|Hne].
    + apply bind_Ok_inv in Ha as (u3 & t1 & He & Ha). apply ensure_Ok_inv in He as [Hdg%bool_decide_eq_true ->].
      apply mret_Ok_inv in Ha as [_ ->]. split_and!; [done|done|]. exists prior. destruct Hp as (_ & _ & _ & Hph & Hpd).
      rewrite Hpd in Hdg. apply checkpoint_digest_inj in Hdg. rewrite Hph, <-Hdg. split_and!; [done|done|done|].
      right. exists prior. split; [done|by left].
    + destruct (head_at (jr_seq prior) records) as [prev|] eqn:Hpat; [|done].
      apply bind_Ok_inv in Ha as (u3 & t1 & He & Ha). apply ensure_Ok_inv in He as [Hpv%bool_decide_eq_true ->].
      apply bind_Ok_inv in Ha as (u4 & t1 & Hput & Ha). apply put_Ok_inv in Hput as ->. apply mret_Ok_inv in Ha as [_ ->].
      split_and!; [by apply map_Forall_insert_2|done|]. exists row.
      rewrite latest_row_insert; [|by apply rows_keyed|done|intros m Hm; specialize (Hmax m Hm); lia].
      split_and!; [done|done|done|]. right. exists prior. split; [done|]. right. split; [cbn; lia|].
      destruct Hp as (Hpi & _ & Hps & Hph & _). rewrite Hph, <-Hps. apply head_at_anchors; [done|done|done|].
      rewrite Hps, Hpat, Hpv, Hph. done.
  - apply bind_Ok_inv in Ha as (u4 & t1 & Hput & Ha). apply put_Ok_inv in Hput as ->. apply mret_Ok_inv in Ha as [_ ->].
    subst t. split_and!; [by apply map_Forall_insert_2|done|]. exists row.
    rewrite latest_row_insert; [|by apply rows_keyed|done|intros m [y Hy]; by rewrite lookup_empty in Hy]. eauto 8.
Qed.

Lemma accept_raise records ck w t e t' : accept c records ck w t = (Raise e, t') → t' = t.
Proof.
  apply (rolls_back_bind _ _ (reads_lift _)). intros a. apply (rolls_back_bind _ _ (reads_ensure _ _)). intros u.
  apply rolls_back_atomic.
Qed.

Lemma wstep_ok t t' : issuer_honest → wstep t t' → rows_ok t → rows_ok t'.
Proof using CF AF.
  intros Hh [t0 records ck w] Ht. destruct (accept c records ck w t0) as [[x|e] t1] eqn:Ha; cbn [snd].
  - by eapply acceptance_inv in Ha as [Ha _].
  - by apply accept_raise in Ha as ->.
Qed.

(** The journal has witnessed [h] at [n]: a history that agrees with its latest
    row has an entry with hash [h] before [n]. *)
Definition holds_at (n : Z) (h : string) (t : witness_table) : Prop :=
  rows_ok t ∧ ∃ r, latest_row t = Some r ∧ n ≤ jr_seq r ∧
    ∀ records, anchors (jr_seq r) (jr_head r) records → anchors n h records.

(** An acceptance over such a journal is of a history that has the entry, and
    the journal still has witnessed it. *)
Lemma accept_holds n h records ck w t x t' :
  issuer_honest → 0 ≤ n → holds_at n h t → accept c records ck w t = (Ok x, t') →
  holds_at n h t' ∧ n ≤ ck_seq ck ∧ anchors n h records.
Proof using CF AF.
  intros Hh Hn (Ht & r & Hl & Hle & Himp) Ha. apply acceptance_inv in Ha as (Ht' & Hanc & r' & Hl' & Hs & Hd & Hor); [|done..].
  rewrite Hl in Hor. destruct Hor as [Hor|(prior & [= <-] & [[-> ->]|[Hlt Hp]])]; [done| |].
  - rewrite <-Hs, <-Hd in Hanc. split_and!; [|lia|by apply Himp]. split; [done|]. by exists r'.
  - split_and!; [|lia|by apply Himp]. split; [done|]. exists r'. split_and!; [done|lia|].
    intros rec2 Hrec2. rewrite Hs, Hd in Hrec2. apply Himp.
    eapply (anchors_below (ck_seq ck) (ck_head_hash ck)); [exact Hanc|exact Hrec2| |done].
    destruct (latest_ok _ _ Ht Hl) as [(Hi & _ & Hsr & _) _]. destruct Hi as (_ & _ & Hpos). lia.
Qed.

Lemma wsteps_hold n h t t' :
  issuer_honest → 0 ≤ n → rtc wstep t t' → holds_at n h t → holds_at n h t'.
Proof using CF AF.
  intros Hh Hn. induction 1 as [|t1 t2 t3 [t0 records ck w] _ IH]; [done|]. intros Hr. apply IH.
  destruct (accept c records ck w t0) as [[x|e] t4] eqn:Ha; cbn [snd].
  - by eapply accept_holds in Ha as [Ha _].
  - by apply accept_raise in Ha as ->.
Qed.

(** C31: the witness's journal never forgets: once it has accepted a checkpoint of
    one history, every history it accepts later, presented by anyone, is at
    least as long up to its checkpoint and has the same entries up to the first
    checkpoint.  (Assumed: collision-free digests, and an issuer whose
    checkpoints name the position of their head.) *)
Theorem witnessed_history_kept t0 t1 t2 t3 records1 ck1 w1 x1 records2 ck2 w2 x2 :
  issuer_honest →
  rtc wstep ∅ t0 → accept c records1 ck1 w1 t0 = (Ok x1, t1) →
  rtc wstep t1 t2 → accept c records2 ck2 w2 t2 = (Ok x2, t3) →
  ck_seq ck1 ≤ ck_seq ck2 ∧
  take (Z.to_nat (ck_seq ck1)) (sort_by_seq records1) = take (Z.to_nat (ck_seq ck1)) (sort_by_seq records2).
Proof using CF AF.
  intros Hh Hr0 Ha1 Hr1 Ha2.
  assert (rows_ok t0) as Ht0.
  { clear -Hh Hr0 CF AF. revert Hr0. generalize (map_Forall_empty row_ok : rows_ok ∅). generalize (∅ : witness_table).
    intros t Ht Hr. revert Ht. induction Hr as [|a b d Hs _ IH]; [done|]. intros Ha. apply IH. by eapply wstep_ok. }
  apply acceptance_inv in Ha1 as (Ht1 & Hanc1 & r & Hl & Hs & Hd & _); [|done..].
  assert (0 ≤ ck_seq ck1) as Hpos by (destruct (latest_ok _ _ Ht1 Hl) as [(Hi & _ & Hsr & _) _]; destruct Hi as (_ & _ & Hi); lia).
  assert (holds_at (ck_seq ck1) (ck_head_hash ck1) t1) as Hhold.
  { split; [done|]. exists r. rewrite Hs, Hd. split_and!; [done|lia|done]. }
  eapply wsteps_hold in Hr1; [|done|done|exact Hhold]. eapply accept_holds in Ha2 as (_ & Hle & Hanc2); [|done..].
  split; [done|]. by eapply anchors_prefix.
Qed.
End spec.

(** ** Saved checkpoints *)

Section saved.
Context `{AC : AuditCodec} `{SignatureScheme} `{AnchorCodec}.

(** Everything a production store does: records entries, saves checkpoints,
    sets holds and capacities, and is asked to delete history. *)
Inductive tstep : trust_store → trust_store → Prop :=
| t_record s ev now : tstep s (zoom (Sql.record ev now) s).2
| t_save s ck trusted : tstep s (save_checkpoint ck trusted s).2
| t_hold s name b : tstep s (set_hold name b s).2
| t_delete s guard n : tstep s (truncate_audit true guard n s).2
| t_capacity s l : tstep s (set_checkpoint_capacity l (mret tt) s).2
| t_audit_capacity s l : tstep s (set_audit_capacity l s).2.

(** The saved row is the text of a signed checkpoint that names the hash of the
    stored chain at its position. *)
Definition agrees (rs : list AuditEntry) (row : Z * string) : Prop :=
  ∃ ck, row = (ck_seq ck, checkpoint_text ck) ∧ verify_checkpoint ck = true ∧
    head_at (ck_seq ck) rs = Some (ck_head_hash ck).

Definition trust_inv (s : trust_store) : Prop :=
  audit_inv true (ts_audit s) ∧ Forall (agrees (Sql.rows (ts_audit s))) (rows (ts_checkpoints s)).

Lemma agrees_grows rs rs' row : agrees rs row → agrees (rs ++ rs') row.
Proof.
  intros (ck & Hr & Hv & Hh). exists ck. split_and!; [done..|]. unfold head_at in *.
  destruct (ck_seq ck =? 0); [done|]. apply fmap_Some in Hh as (e & He & Hh). apply fmap_Some. exists e.
  split; [by apply lookup_app_l_Some|done].
Qed.

Lemma audit_grows d d' :
  audit_inv true d → audit_step true d d' → ∃ new, Sql.rows d' = Sql.rows d ++ new.
Proof.
  intros (Hc & Hn & _) Hs. destruct Hs as [ev now d|l d|hs guard n d].
  - destruct (Sql.record ev now d) as [r d'] eqn:Hr. destruct (record_cases _ _ _ _ _ Hc Hn Hr) as [[-> _]|(_ & Hrows & _)].
    + exists []. by rewrite app_nil_r.
    + by eexists.
  - exists []. rewrite app_nil_r. by apply policy_preserves.
  - exists []. by rewrite app_nil_r.
Qed.

Lemma save_checkpoint_inv ck trusted s r s' :
  save_checkpoint ck trusted s = (Ok r, s') →
  verify_checkpoint ck = true ∧ head_at (ck_seq ck) (Sql.rows (ts_audit s)) = Some (ck_head_hash ck) ∧
  ts_audit s' = ts_audit s ∧ rows (ts_checkpoints s') = rows (ts_checkpoints s) ++ [(ck_seq ck, checkpoint_text ck)].
Proof.
  unfold save_checkpoint. intros Hs. apply bind_Ok_inv in Hs as (u1 & s1 & He & Hs). apply ensure_Ok_inv in He as [_ ->].
  apply bind_Ok_inv in Hs as (u2 & s1 & He & Hs). apply ensure_Ok_inv in He as [Hv ->].
  apply bind_Ok_inv in Hs as (u3 & s1 & He & Hs). apply ensure_Ok_inv in He as [_ ->].
  apply (proj1 (atomic_Ok _ _ _ _)) in Hs. rewrite run_get in Hs.
  apply bind_Ok_inv in Hs as (u4 & s1 & He & Hs). apply ensure_Ok_inv in He as [_ ->].
  destruct (head_at _ _) as [h|] eqn:Hh; [|done].
  apply bind_Ok_inv in Hs as (u5 & s1 & He & Hs). apply ensure_Ok_inv in He as [->%bool_decide_eq_true ->].
  apply bind_Ok_inv in Hs as (u6 & s1 & Hi & Hs). apply mret_Ok_inv in Hs as [_ ->]. revert Hi. unfold zoom.
  cbn [view trust_checkpoints]. destruct (insert_checkpoint _ _ _) as [r' t] eqn:Hi. intros [= -> <-]. cbn [update ts_audit ts_checkpoints].
  apply insert_row_inv in Hi as (_ & _ & -> & _). done.
Qed.

Lemma save_checkpoint_raise ck trusted s e s' : save_checkpoint ck trusted s = (Raise e, s') → s' = s.
Proof.
  do 3 (apply (rolls_back_bind _ _ (reads_ensure _ _)); intros ?). apply rolls_back_atomic.
Qed.

Lemma capacity_audit l s : ts_audit (set_checkpoint_capacity l (mret tt) s).2 = ts_audit s.
Proof.
  unfold set_checkpoint_capacity, set_capacity. rewrite run_bind. unfold lift.
  destruct (make_limits _ l) as [l'|]; [|done]. unfold policy.
  destruct (atomic _ s) as [[x|x] s'] eqn:Hp; cbn [snd]; [|by apply atomic_Raise in Hp as ->].
  apply (proj1 (atomic_Ok _ _ _ _)) in Hp. rewrite run_get in Hp.
  apply bind_Ok_inv in Hp as (cur & s1 & Hc & Hp). apply lift_Ok_inv in Hc as [_ ->].
  apply bind_Ok_inv in Hp as (u & s1 & Hu & Hp). apply put_Ok_inv in Hu as ->.
  apply bind_Ok_inv in Hp as (u2 & s1 & Hau & Hp). apply mret_Ok_inv in Hau as [_ ->]. rewrite run_get in Hp.
  apply bind_Ok_inv in Hp as (x2 & s2 & Hl & Hp). apply lift_Ok_inv in Hl as [_ ->]. by apply mret_Ok_inv in Hp as [_ ->].
Qed.

Lemma capacity_rows l s : rows (ts_checkpoints (set_checkpoint_capacity l (mret tt) s).2) = rows (ts_checkpoints s).
Proof.
  unfold set_checkpoint_capacity, set_capacity. rewrite run_bind. unfold lift. destruct (make_limits _ l) as [l'|]; [|done].
  exact (policy_keeps_rows checkpoint_retention (S := trust_store) (Some l') (mret tt) s (fun _ => eq_refl)).
Qed.

(** A step of the audit log inside the trust store. *)
Lemma audit_inside s d : trust_inv s → audit_step true (ts_audit s) d → trust_inv (mkTrust d (ts_holds s) (ts_checkpoints s)).
Proof.
  intros [Ha Hf] Hs. split; [by eapply audit_step_inv|]. cbn. destruct (audit_grows _ _ Ha Hs) as [new ->].
  eapply Forall_impl; [exact Hf|]. intros row. apply agrees_grows.
Qed.

Lemma tstep_inv s s' : tstep s s' → trust_inv s → trust_inv s'.
Proof.
  destruct 1 as [s ev now|s ck trusted|s name b|s guard n|s l|s l]; intros Hi.
  - unfold zoom. cbn [view trust_audit]. pose proof (as_record true ev now (ts_audit s)) as Hs.
    destruct (Sql.record ev now (ts_audit s)) as [r d]. by apply audit_inside.
  - destruct (save_checkpoint ck trusted s) as [[r|e] s'] eqn:Hs; cbn [snd]; [|by apply save_checkpoint_raise in Hs as ->].
    apply save_checkpoint_inv in Hs as (Hv & Hh & Ha & Hr). destruct Hi as [Hi Hf]. split; rewrite Ha; [done|]. rewrite Hr.
    apply Forall_app. split; [done|]. apply Forall_singleton. by exists ck.
  - unfold set_hold. rewrite run_bind. unfold ensure. destruct (negb _); [|done]. exact Hi.
  - unfold truncate_audit. rewrite run_get. unfold zoom. cbn [view trust_audit].
    pose proof (as_truncate true (holds s) guard n (ts_audit s)) as Hs.
    destruct (Sql.truncate_audit_before true (holds s) guard n (ts_audit s)) as [r d]. by apply audit_inside.
  - destruct Hi as [Hi Hf]. split; rewrite capacity_audit; [done|]. by rewrite capacity_rows.
  - unfold set_audit_capacity, zoom. cbn [view trust_audit]. pose proof (as_policy true (Some l) (ts_audit s)) as Hs.
    destruct (Sql.policy (Some l) (ts_audit s)) as [r d]. by apply audit_inside.
Qed.

Definition new_store : trust_store := mkTrust (Sql.mkDb [] None) ∅ (mkTable [] None).

(** In production every checkpoint ever saved is the text of a validly signed
    checkpoint whose head is the hash the stored audit chain has at its position,
    now and after any further use of the store. *)
Theorem saved_checkpoints_agree s : rtc tstep new_store s → Forall (agrees (Sql.rows (ts_audit s))) (rows (ts_checkpoints s)).
Proof.
  intros Hr. enough (trust_inv s) as [_ Hf] by done.
  refine (rtc_ind_r trust_inv new_store _ _ s Hr); [|intros y z _ Hs Hy; by eapply tstep_inv].
  split; [|constructor]. apply audit_reach_inv. reflexivity.
Qed.
End saved.
