(* ===== verification/AuditTrustExample.v ===== *)
(** * Two witnessed histories

    A log of one entry and its extension by a second, each with its checkpoint:
    the witnessing theorems are applied to them.  The digest is injective and
    has the form of SHA-256 on the entries used. *)

From stdpp Require Import base list gmap strings pretty relations.
From Stdlib Require Import ZArith Lia Ascii.
From S2P Require Import Prelude PyFloat Codec Authority Evidence AuditLog AuditSpec RetainedCapacity AuditTrust AuditTrustSpec.

#[local] Open Scope Z_scope.

(** ** The payload of a checkpoint determines it *)

Fixpoint no_colon (s : string) : bool :=
  match s with EmptyString => true | String c s' => negb (Ascii.eqb c ":"%char) && no_colon s' end.

Lemma colon_split p p' s s' :
  no_colon p = true → no_colon p' = true → p +:+ ":" +:+ s = p' +:+ ":" +:+ s' → p = p' ∧ s = s'.
Proof.
  revert p'. induction p as [|a p IH]; intros [|b p'] Hp Hp' E.
  - by injection E.
  - injection E as <- _. done.
  - injection E as -> _. done.
  - apply andb_true_iff in Hp as [_ Hp], Hp' as [_ Hp']. injection E as -> E. by destruct (IH p' Hp Hp' E) as [-> ->].
Qed.

Lemma pretty_N_no_colon x s : no_colon s = true → no_colon (pretty_N_go x s) = true.
Proof.
  revert s. induction (N.lt_wf_0 x) as [x _ IH]; intros s Hs. assert (x = 0 ∨ 0 < x)%N as [->|Hx] by lia.
  - by rewrite pretty_N_go_0.
  - rewrite pretty_N_go_step by done. apply IH; [by apply N.div_lt|]. simpl. rewrite Hs. unfold pretty_N_char.
    by repeat case_match.
Qed.

Lemma pretty_Z_no_colon (z : Z) : no_colon (pretty z) = true.
Proof.
  assert (∀ n : N, no_colon (pretty n) = true) as Hn.
  { intros n. unfold pretty, pretty_N. case_decide; [done|]. by apply pretty_N_no_colon. }
  destruct z as [|p|p]; [done|apply Hn|]. unfold pretty, pretty_Z. simpl. apply Hn.
Qed.

Lemma checkpoint_payload_inj s h s' h' : checkpoint_payload s h = checkpoint_payload s' h' → s = s' ∧ h = h'.
Proof.
  unfold checkpoint_payload. intros E. apply (inj (String.append "agentbridge-audit-checkpoint:")) in E.
  destruct (colon_split _ _ _ _ (pretty_Z_no_colon s) (pretty_Z_no_colon s') E) as [Hp ->].
  by apply (inj pretty) in Hp.
Qed.

(** ** The log *)

Fixpoint copies (n : nat) (c : ascii) : string := match n with O => "" | S n' => String c (copies n' c) end.

Definition first_hash : string := copies 64 "1"%char.
Definition second_hash : string := copies 64 "2"%char.

Definition entry1 : AuditEntry := mkEntry 0 "t0" "al" "route_call" "mcp" "a2a" "search" "allow" "ok" fzero GENESIS first_hash.
Definition entry2 : AuditEntry := mkEntry 1 "t1" "bob" "route_call" "mcp" "a2a" "search" "allow" "ok" fzero first_hash second_hash.

Definition hash_text (t : string) : string :=
  if decide (t = entry_text entry1) then first_hash
  else if decide (t = entry_text entry2) then second_hash else String "z" t.

Lemma hash_text_inj t t' : hash_text t = hash_text t' → t = t'.
Proof. unfold hash_text. repeat case_decide; intros; subst; try done; congruence. Qed.

#[local] Instance hex_codec : AuditCodec | 0 := {
  payload_digest e := hash_text (entry_text e);
  entry_bytes e := 200 + strlen (reason e);
  entry_bytes_pos e := ltac:(unfold strlen; lia);
}.

#[local] Instance hex_collision_free : CollisionFree | 0.
Proof. constructor. intros e e' Hd%hash_text_inj. by apply (digest_inj (CollisionFree := demo_collision_free)). Qed.

Definition issuer_key : string := copies 64 "a"%char.
Definition witness_key : string := copies 64 "b"%char.
Definition some_signature : string := copies 128 "c"%char.

Definition checkpoint1 : checkpoint := mkCheckpoint 1 first_hash issuer_key some_signature.
Definition checkpoint2 : checkpoint := mkCheckpoint 2 second_hash issuer_key some_signature.

(** The issuer signed these two checkpoints and nothing else. *)
#[local] Instance two_signatures : SignatureScheme | 0 := {
  sign _ _ := some_signature;
  verify key _ m := negb (bool_decide (key = issuer_key)) ||
    bool_decide (m = checkpoint_payload 1 first_hash) || bool_decide (m = checkpoint_payload 2 second_hash);
}.

Definition checkpoint_fields (ck : checkpoint) : string :=
  chunks [pretty (ck_seq ck); ck_head_hash ck; ck_public_key_hex ck; ck_signature_hex ck].

Lemma checkpoint_fields_inj ck ck' : checkpoint_fields ck = checkpoint_fields ck' → ck = ck'.
Proof. destruct ck, ck'. intros E%chunks_inj. simpl in E. simplify_eq. by f_equal. Qed.

Definition digest_text (t : string) : string :=
  if decide (t = checkpoint_fields checkpoint1) then copies 64 "d"%char
  else if decide (t = checkpoint_fields checkpoint2) then copies 64 "e"%char else String "z" t.

#[local] Instance hex_anchors : AnchorCodec | 0 := {
  checkpoint_digest ck := digest_text (checkpoint_fields ck);
  witness_payload w := wi_checkpoint_sha256 w;
  checkpoint_text ck := checkpoint_fields ck;
}.

#[local] Instance hex_anchors_free : AnchorCollisionFree | 0.
Proof.
  constructor. intros ck ck' E. apply checkpoint_fields_inj. revert E. simpl. unfold digest_text.
  repeat case_decide; intros; subst; try done; congruence.
Qed.

Definition ex_config : journal_config := mkJournalConfig issuer_key witness_key "w1".

Definition statement (ck : checkpoint) : witness :=
  mkWitness 1 "w1" (checkpoint_digest ck) (ck_seq ck) (ck_head_hash ck) "now" "ref" some_signature.

Lemma ex_honest : issuer_honest ex_config.
Proof.
  intros ck e Hk Hv He. unfold verify_checkpoint in Hv. cbn [verify two_signatures] in Hv. rewrite Hk in Hv.
  rewrite bool_decide_eq_true_2 in Hv by done. apply orb_true_iff in Hv as [Hv|Hv%bool_decide_eq_true].
  - apply bool_decide_eq_true, checkpoint_payload_inj in Hv as [-> Hh]. rewrite Hh in He.
    change first_hash with (hash_text (entry_text entry1)) in He. apply hash_text_inj in He.
    apply chunk_inj in He as [Hs _]. by apply (inj pretty) in Hs.
  - apply checkpoint_payload_inj in Hv as [-> Hh]. rewrite Hh in He.
    change second_hash with (hash_text (entry_text entry2)) in He. apply hash_text_inj in He.
    apply chunk_inj in He as [Hs _]. by apply (inj pretty) in Hs.
Qed.

Notation accept1 := (accept ex_config [entry1] checkpoint1 (statement checkpoint1) ∅).

Lemma accepted_first : accept1 = (Ok (false, 1), accept1.2).
Proof. vm_compute. reflexivity. Qed.

Lemma accepted_second :
  accept ex_config [entry1; entry2] checkpoint2 (statement checkpoint2) accept1.2 =
  (Ok (false, 2), (accept ex_config [entry1; entry2] checkpoint2 (statement checkpoint2) accept1.2).2).
Proof. vm_compute. reflexivity. Qed.

Lemma witnessed_history_kept_witness : take 1 (sort_by_seq [entry1]) = take 1 (sort_by_seq [entry1; entry2]).
Proof.
  exact (proj2 (witnessed_history_kept ex_config ∅ accept1.2 accept1.2 _ [entry1] checkpoint1 (statement checkpoint1) (false, 1)
    [entry1; entry2] checkpoint2 (statement checkpoint2) (false, 2) ex_honest (rtc_refl _ _) accepted_first (rtc_refl _ _)
    accepted_second)).
Defined.

(** A production store that records an entry and saves its checkpoint. *)
Definition recorded_store : trust_store := (zoom (Sql.record (mkEvent "al" "route_call" "mcp" "a2a" "search" "allow" "ok" fzero) "t0") new_store).2.
Definition saved_store : trust_store := (save_checkpoint checkpoint1 issuer_key recorded_store).2.

Lemma saved_one : rows (ts_checkpoints saved_store) = [(1, checkpoint_fields checkpoint1)].
Proof. vm_compute. reflexivity. Qed.

Lemma saved_checkpoints_agree_witness : Forall (agrees (Sql.rows (ts_audit saved_store))) (rows (ts_checkpoints saved_store)).
Proof.
  apply (saved_checkpoints_agree saved_store). eapply rtc_l; [|eapply rtc_l; [|reflexivity]].
  - apply t_record.
  - apply t_save.
Defined.
