(* ===== verification/SigningTrust.v ===== *)
(** * Signing keys and their controller-signed history

    governance/observer_key_registry.py: a registry of public keys that are
    staged, active or revoked, and the transitions between two registries.
    governance/signing_trust_journal.py: the append-only history of registries of
    a domain (destinations, readback observers), each revision signed by the
    domain's pinned controller and linked to its predecessor by digest; a
    settlement resolves its keys in the latest revision.  Each journal instance
    keeps the least revision it may accept.  An envelope is a [json] value. *)

From stdpp Require Import base list gmap strings.
From Stdlib Require Import ZArith Lia Sorted.
From S2P Require Import Prelude PyFloat Json Sorting Identity Authority Evidence RetainedCapacity.

#[local] Open Scope Z_scope.

(** ** Registries *)

(** The dataclass as it is built from a JSON row: its fields are not typed. *)
Record ObserverKey := mkKey {
  key_id : json;
  key_hex : json;
  key_state : json;
}.

Inductive lifecycle := staged | active | revoked.

#[global] Instance lifecycle_eq_dec : EqDecision lifecycle.
Proof. solve_decision. Defined.

Definition state_of (j : json) : option lifecycle :=
  if is_text "staged" j then Some staged else if is_text "active" j then Some active
  else if is_text "revoked" j then Some revoked else None.

Record entry := mkEntry {
  e_hex : string;
  e_state : lifecycle;
}.

#[global] Instance entry_eq_dec : EqDecision entry.
Proof. solve_decision. Defined.

(** [ObserverTrustRegistry._keys], in insertion order. *)
Definition registry : Type := list (string * entry).

Definition hex_digit (c : Ascii.ascii) : bool := match hex_value c with Some _ => true | None => false end.

Section trust.
Context `{Ed25519} `{Sha256} `{JsonText}.

(** One turn of the constructor's loop; [seen] are the key bytes so far. *)
Definition add_key (acc : registry * list (list Z)) (k : ObserverKey) : outcome (registry * list (list Z)) :=
  let '(reg, seen) := acc in
  let bad := ObserverKeyDenied "invalid or duplicate observer key identity" in
  match key_id k, state_of (key_state k) with
  | JStr i, Some st =>
      _ ← guard_or (negb (bool_decide (i = "")) && (strlen i <=? 128) && negb (dict_mem i reg)) bad;
      match key_hex k with
      | JStr h =>
          match from_hex h with
          | Some raw =>
              _ ← guard_or ((strlen h =? 64) && str_forallb hex_digit h && public_key_ok h)
                           (ObserverKeyDenied "invalid observer public key");
              _ ← guard_or (bool_decide (raw ∉ seen))
                           (ObserverKeyDenied "public key reused under another observer identity");
              Ok (reg ++ [(i, mkEntry h st)], raw :: seen)
          | None => Raise (ObserverKeyDenied "invalid observer public key")
          end
      | _ => Raise (ObserverKeyDenied "invalid observer public key")
      end
  | _, _ => Raise bad
  end.

Fixpoint add_keys (acc : registry * list (list Z)) (l : list ObserverKey) : outcome (registry * list (list Z)) :=
  match l with
  | [] => Ok acc
  | k :: l' => acc' ← add_key acc k; add_keys acc' l'
  end.

(** [ObserverTrustRegistry(entries)]. *)
Definition make_registry (l : list ObserverKey) : outcome registry :=
  _ ← guard_or (negb (bool_decide (length l = 0%nat))) (ObserverKeyDenied "explicit trusted observer keys required");
  fst <$> add_keys ([], []) l.

Definition resolve_active (reg : registry) (i : string) : outcome string :=
  match dict_get i reg with
  | Some (mkEntry h active) => Ok h
  | _ => Raise (ObserverKeyDenied "observer key not active or has been revoked")
  end.

Definition allowed (old new : lifecycle) : bool :=
  match old, new with
  | staged, _ => true
  | active, staged => false
  | active, _ => true
  | revoked, revoked => true
  | revoked, _ => false
  end.

Fixpoint check_kept (new : registry) (old : registry) : outcome unit :=
  match old with
  | [] => Ok tt
  | (i, e) :: old' =>
      match dict_get i new with
      | None => Raise (ObserverKeyDenied "observer key cannot disappear from trust history")
      | Some e' =>
          _ ← guard_or (bool_decide (str_lower (e_hex e) = str_lower (e_hex e')))
                       (ObserverKeyDenied "observer key material cannot be reassigned");
          _ ← guard_or (allowed (e_state e) (e_state e'))
                       (ObserverKeyDenied "observer key lifecycle regression or resurrection");
          check_kept new old'
      end
  end.

Fixpoint check_new (old : registry) (new : registry) : outcome unit :=
  match new with
  | [] => Ok tt
  | (i, e) :: new' =>
      _ ← guard_or (dict_mem i old || bool_decide (e_state e = staged))
                   (ObserverKeyDenied "new keys require staging before activation");
      check_new old new'
  end.

Definition has_active (reg : registry) : bool := existsb (fun p => bool_decide (e_state p.2 = active)) reg.

Definition in_state (st : lifecycle) (reg : registry) : list string :=
  sort_by String.leb (filter (fun p => e_state p.2 = st) reg).*1.

Definition validate_rotation (old new : registry) : outcome (list string * list string * list string) :=
  _ ← check_kept new old;
  _ ← check_new old new;
  _ ← guard_or (negb (has_active old) || has_active new)
               (ObserverKeyDenied "rotation cannot leave an active trust domain empty");
  Ok (in_state staged new, in_state active new, in_state revoked new).

(** ** Envelopes *)

(** [_hex]. *)
Definition lower_hex_text (n : Z) (j : json) : bool :=
  match j with JStr s => (strlen s =? n) && str_forallb is_lower_hex s | _ => false end.

Definition SIGNED_FIELDS : list string := ["domain"; "revision"; "previous_sha256"; "keys"].
Definition ENVELOPE_FIELDS : list string := SIGNED_FIELDS ++ ["signature_hex"].

Definition canonical_registry_payload (m : list (string * json)) : string :=
  "agentbridge-signing-registry-v1:" +:+ canonical_dumps (selected SIGNED_FIELDS m).

Definition registry_digest (m : list (string * json)) : string := sha256_hex (canonical_registry_payload m).

Record controllers := mkControllers {
  destination_controller : string;
  readback_controller : string;
}.

Definition controller_of (c : controllers) (domain : string) : option string :=
  if decide (domain = "destination") then Some (destination_controller c)
  else if decide (domain = "readback") then Some (readback_controller c) else None.

(** The key of a row that has exactly its three fields. *)
Definition key_of (j : json) : option ObserverKey :=
  match j with
  | JObj m => if keys_are ["key_id"; "public_key_hex"; "state"] m
              then Some (mkKey (field "key_id" m) (field "public_key_hex" m) (field "state" m)) else None
  | _ => None
  end.

(** [row["key_id"]] of the rows, and whether they are in order. *)
Definition ids_of (l : list ObserverKey) : list string := (fun k => text_or_empty (key_id k)) <$> l.
Definition ids_sorted (l : list ObserverKey) : bool := bool_decide (ids_of l = sort_by String.leb (ids_of l)).

Definition revision_of (m : list (string * json)) : Z := match field "revision" m with JInt n => n | _ => 0 end.

Definition untrusted : pyexn := TrustJournalDenied "untrusted registry signature or keys".

Section journal.
Context (c : controllers).

(** [_verify]: the registry of a signed envelope. *)
Definition verify_envelope (envelope : json) : outcome registry :=
  match envelope with
  | JObj m =>
      _ ← guard_or (keys_are ENVELOPE_FIELDS m) (TrustJournalDenied "unexpected registry fields");
      key ← match field "domain" m with
            | JStr d => match controller_of c d with
                        | Some key => Ok key
                        | None => Raise (TrustJournalDenied "unknown registry domain")
                        end
            | _ => Raise (TrustJournalDenied "unknown registry domain")
            end;
      _ ← match field "revision" m with
          | JInt n => guard_or ((1 <=? n) && (n <=? 2147483647)) (TrustJournalDenied "invalid registry revision")
          | _ => Raise (TrustJournalDenied "invalid registry revision")
          end;
      _ ← guard_or (lower_hex_text 64 (field "previous_sha256" m) && lower_hex_text 128 (field "signature_hex" m))
                   (TrustJournalDenied "invalid registry signature or predecessor");
      rows ← match field "keys" m with
             | JArr l => if bool_decide (1 ≤ length l ≤ 128)%nat then Ok l
                         else Raise (TrustJournalDenied "bounded registry key list required")
             | _ => Raise (TrustJournalDenied "bounded registry key list required")
             end;
      keys ← match mapM key_of rows with
             | Some keys => Ok keys
             | None => Raise (TrustJournalDenied "invalid registry key fields")
             end;
      match make_registry keys with
      | Raise _ => Raise untrusted
      | Ok reg =>
          _ ← guard_or (ids_sorted keys && public_key_ok key && hex_ok (text_or_empty (field "signature_hex" m)) &&
                        ed_verify key (canonical_registry_payload m) (text_or_empty (field "signature_hex" m)))
                       untrusted;
          Ok reg
      end
  | _ => Raise (TrustJournalDenied "unexpected registry fields")
  end.

(** ** The journal *)

Definition trust_table : Type := table (string * Z).

(** [SELECT revision,envelope ... WHERE domain=? ORDER BY revision]. *)
Definition history (domain : string) (t : trust_table) : list (Z * string) :=
  sort_by (fun x y => x.1 <=? y.1)
    (omap (fun '((d, n), text) => if decide (d = domain) then Some (n, text) else None) (rows t)).

Definition ZERO_DIGEST : string := "0000000000000000000000000000000000000000000000000000000000000000".

(** The latest verified envelope and its registry. *)
Definition current : Type := option (list (string * json) * registry).

Definition expected_revision (p : current) : Z := match p with None => 1 | Some (m, _) => revision_of m + 1 end.
Definition expected_predecessor (p : current) : string :=
  match p with None => ZERO_DIGEST | Some (m, _) => registry_digest m end.

Definition members (j : json) : list (string * json) := match j with JObj m => m | _ => [] end.

Definition rotation_ok (p : current) (reg : registry) : outcome unit :=
  match p with
  | None => Ok tt
  | Some (_, old) =>
      match validate_rotation old reg with
      | Ok _ => Ok tt
      | Raise _ => Raise (TrustJournalDenied "invalid signed key transition")
      end
  end.

(** One turn of [_load]'s loop. *)
Definition load_row (domain : string) (p : current) (row : Z * string) : outcome current :=
  j ← match json_loads row.2 with
      | Ok j => Ok j
      | Raise _ => Raise (TrustJournalDenied "corrupt registry history")
      end;
  reg ← verify_envelope j;
  let m := members j in
  _ ← guard_or ((row.1 =? expected_revision p) && (revision_of m =? expected_revision p) &&
                is_text domain (field "domain" m) && is_text (expected_predecessor p) (field "previous_sha256" m))
               (TrustJournalDenied "registry history was forked or truncated");
  _ ← rotation_ok p reg;
  Ok (Some (m, reg)).

Fixpoint load_rows (domain : string) (p : current) (l : list (Z * string)) : outcome current :=
  match l with
  | [] => Ok p
  | row :: l' => p' ← load_row domain p row; load_rows domain p' l'
  end.

(** The instance's state: the shared table, and its least accepted revisions. *)
Record journal := mkJournal {
  j_table : trust_table;
  j_floors : gmap string Z;
}.

Definition floor_of (s : journal) (domain : string) : Z := default 1 (j_floors s !! domain).

Definition set_floor (domain : string) (n : Z) (s : journal) : journal :=
  mkJournal (j_table s) (<[domain := n]> (j_floors s)).

(** [__init__] (the arguments' checks). *)
Definition make_journal (floors : gmap string Z) (t : trust_table) : outcome journal :=
  _ ← guard_or (lower_hex_text 64 (JStr (destination_controller c)) && lower_hex_text 64 (JStr (readback_controller c)))
               (TrustJournalDenied "canonical controller public keys required");
  _ ← guard_or (bool_decide (map_Forall (fun d n => d ∈ ["destination"; "readback"] ∧ 1 ≤ n) floors))
               (TrustJournalDenied "positive minimum registry revisions required");
  Ok (mkJournal t floors).

(** [_load]. *)
Definition load (domain : string) (enforce_floor : bool) (s : journal) : outcome current :=
  p ← load_rows domain None (history domain (j_table s));
  _ ← guard_or (negb (enforce_floor &&
                      match p with None => true | Some (m, _) => revision_of m <? floor_of s domain end))
               (TrustJournalDenied "registry is missing or behind pinned minimum revision");
  Ok p.

#[global] Program Instance journal_table : Lens journal trust_table := {
  view s := j_table s;
  update t s := mkJournal t (j_floors s);
}.
Next Obligation. done. Qed.
Next Obligation. by intros []. Qed.
Next Obligation. done. Qed.

(** The transaction of [publish]: [inl] digest of the current revision when it is
    published again, [inr] the revision just appended. *)
Definition publish_revision (envelope : json) (candidate : registry) : M journal (string + Z) :=
  let m := members envelope in
  let domain := text_or_empty (field "domain" m) in
  atomic (
    s ← get;
    p ← lift (load domain false s);
    _ ← ensure (match p with Some (prev, _) => floor_of s domain <=? revision_of prev | None => true end)
               (TrustJournalDenied "cannot append to rolled-back registry");
    if match p with Some (prev, _) => json_eqb envelope (JObj prev) | None => false end
    then mret (inl (expected_predecessor p))
    else
      _ ← ensure ((revision_of m =? expected_revision p) && is_text (expected_predecessor p) (field "previous_sha256" m))
                 (TrustJournalDenied "stale or conflicting registry publication");
      _ ← ensure (floor_of s domain <=? revision_of m) (TrustJournalDenied "registry publication behind pinned minimum");
      _ ← lift (rotation_ok p candidate);
      let encoded := json_dumps (sort_keys envelope) in
      _ ← catch (zoom (admit_row signing_retention encoded))
            (fun x => match x with SigningJournalCapacityDenied e => Some (raise (TrustJournalDenied e)) | _ => None end);
      _ ← zoom (insert_revision (domain, expected_revision p) encoded);
      mret (inr (expected_revision p))).

Definition publish (envelope : json) : M journal string :=
  _ ← ensure (json_finite envelope) (TrustJournalDenied "invalid registry envelope");
  candidate ← lift (verify_envelope envelope);
  let m := members envelope in
  let domain := text_or_empty (field "domain" m) in
  done ← publish_revision envelope candidate;
  match done with
  | inl digest => mret digest
  | inr n =>
      _ ← modify (fun s => set_floor domain (Z.max (floor_of s domain) n) s);
      mret (registry_digest m)
  end.

(** ** Settlement *)

Record signing_key := mkSigningKey {
  sk_hex : string;
  sk_registry_sha256 : string;
  sk_revision : Z;
}.

(** One domain of [settlement_keys]. *)
Definition settlement_key (domain i : string) : M journal signing_key :=
  s ← get;
  p ← lift (load domain true s);
  match p with
  | None => raise (TrustJournalDenied "registry is missing or behind pinned minimum revision")
  | Some (m, reg) =>
      hex ← lift (match resolve_active reg i with
                  | Ok h => Ok h
                  | Raise _ => Raise (TrustJournalDenied "signing key staged, revoked or unknown")
                  end);
      _ ← modify (set_floor domain (revision_of m));
      mret (mkSigningKey hex (registry_digest m) (revision_of m))
  end.

(** [in_transaction]: the cursor is this store's and its transaction is open. *)
Definition settlement_keys (in_transaction : bool) (destination_key_id observer_key_id : string)
    : M journal (signing_key * signing_key) :=
  _ ← ensure in_transaction (TrustJournalDenied "signing policy requires an active transaction");
  d ← settlement_key "destination" destination_key_id;
  o ← settlement_key "readback" observer_key_id;
  mret (d, o).

Definition set_journal_capacity (l : limits) (audit : M journal unit) : M journal (limits * Z * Z) :=
  set_capacity signing_retention l audit.
End journal.
End trust.
