(* ===== verification/SigningSpec.v ===== *)
(** * What the signing journal guarantees

    A publication that succeeds is what the next settlement reads; along a
    history a key only moves from staged to active to revoked and keeps its
    material; and an instance that has once pinned a revision never settles with
    a key that revision revokes, even over a database restored to an older or a
    different history. *)

From stdpp Require Import base list gmap strings relations.
From Stdlib Require Import ZArith Lia Sorted.
From S2P Require Import Prelude PyFloat Json Sorting Identity Authority Evidence RetainedCapacity SigningTrust.

#[local] Open Scope Z_scope.

(** [sort_keys=True] writes the members of every object in key order, so the
    order in which they were given does not show in the canonical text; and
    [json.loads] returns dictionaries, whose keys are unique. *)
Class StandardJson `{JsonText} := {
  canonical_sorted j : canonical_dumps (sort_keys j) = canonical_dumps j;
  loads_wf s j : json_loads s = Ok j → json_wf j = true;
}.

(** ** Transitions *)

(** [new] has every key of [old], with the same material and a state that may
    follow. *)
Definition evolves (old new : registry) : Prop :=
  ∀ i e, dict_get i old = Some e →
    ∃ e', dict_get i new = Some e' ∧ str_lower (e_hex e') = str_lower (e_hex e) ∧
          allowed (e_state e) (e_state e') = true.

Lemma allowed_refl x : allowed x x = true.
Proof. by destruct x. Qed.

Lemma allowed_trans x y z : allowed x y = true → allowed y z = true → allowed x z = true.
Proof. by destruct x, y, z. Qed.

#[export] Instance evolves_preorder : PreOrder evolves.
Proof.
  split.
  - intros reg i e Hi. exists e. split_and!; [done..|]. apply allowed_refl.
  - intros r1 r2 r3 H12 H23 i e Hi. destruct (H12 i e Hi) as (e2 & H2 & Hx2 & Ha2).
    destruct (H23 i e2 H2) as (e3 & H3 & Hx3 & Ha3). exists e3. split_and!; [done|congruence|]. by eapply allowed_trans.
Qed.

Lemma check_kept_Ok new old u : check_kept new old = Ok u → evolves old new.
Proof.
  induction old as [|[i e] old IH]; intros Hc j x; [done|]. simpl in *.
  destruct (dict_get i new) as [e'|] eqn:Hn; [|done]. apply outcome_bind_Ok in Hc as (u1 & H1%guard_or_Ok%bool_decide_eq_true & Hc).
  apply outcome_bind_Ok in Hc as (u2 & H2%guard_or_Ok & Hc). case_decide as Hj; [|by apply IH].
  intros [= <-]. subst j. by exists e'.
Qed.

Lemma validate_rotation_Ok old new x : validate_rotation old new = Ok x → evolves old new.
Proof. unfold validate_rotation. intros (u & Hc & _)%outcome_bind_Ok. by eapply check_kept_Ok. Qed.

Lemma rotation_evolves m old new u : rotation_ok (Some (m, old)) new = Ok u → evolves old new.
Proof.
  unfold rotation_ok. destruct (validate_rotation old new) as [x|] eqn:Hv; [|done]. intros _.
  by eapply validate_rotation_Ok.
Qed.

Section spec.
Context `{Ed25519} `{Sha256} `{JT : JsonText} `{SJ : !StandardJson}.
Context (c : controllers).
Notation verify := (verify_envelope c).
Notation load_rows := (load_rows c).
Notation load := (load c).

(** ** Histories *)

Lemma load_rows_app d p l l' : load_rows d p (l ++ l') = (p' ← load_rows d p l; load_rows d p' l').
Proof.
  revert p. induction l as [|row l IH]; intros p; [done|]. simpl. unfold mbind, outcome_bind in *.
  destruct (load_row c d p row) as [p1|]; [apply IH|done].
Qed.

Lemma load_row_Ok d p row p' :
  load_row c d p row = Ok p' →
  ∃ j reg, json_loads row.2 = Ok j ∧ verify j = Ok reg ∧ p' = Some (members j, reg) ∧
    row.1 = expected_revision p ∧ revision_of (members j) = expected_revision p ∧
    field "domain" (members j) = JStr d ∧ field "previous_sha256" (members j) = JStr (expected_predecessor p) ∧
    rotation_ok p reg = Ok tt.
Proof.
  unfold load_row. intros (j & Hj & Hr)%outcome_bind_Ok. destruct (json_loads row.2) as [j'|] eqn:Hl; [|done].
  injection Hj as <-. apply outcome_bind_Ok in Hr as (reg & Hv & Hr).
  apply outcome_bind_Ok in Hr as (u & Hg%guard_or_Ok & Hr). apply outcome_bind_Ok in Hr as ([] & Hrot & Hr).
  injection Hr as <-. rewrite !andb_true_iff, !Z.eqb_eq in Hg. destruct Hg as [[[Hr1 Hr2] Hd] Hp].
  exists j', reg. unfold is_text in *. repeat case_match; simplify_eq; try done.
  apply bool_decide_eq_true in Hd as ->. apply bool_decide_eq_true in Hp as ->. done.
Qed.

(** What a successful load over a current revision says of the result. *)
Lemma load_rows_Some d m0 reg0 l p :
  load_rows d (Some (m0, reg0)) l = Ok p →
  ∃ m reg, p = Some (m, reg) ∧ revision_of m = revision_of m0 + Z.of_nat (length l) ∧ evolves reg0 reg ∧
    Forall (fun row => row.1 ≤ revision_of m) l.
Proof.
  revert m0 reg0. induction l as [|row l IH]; intros m0 reg0 Hl.
  - injection Hl as <-. exists m0, reg0. split_and!; [done|simpl; lia|done|constructor].
  - simpl in Hl. apply outcome_bind_Ok in Hl as (p' & Hr & Hl). apply load_row_Ok in Hr as (j & reg & _ & _ & -> & H1 & H2 & _ & _ & Hrot).
    simpl in H1, H2. destruct (IH _ _ Hl) as (m & reg' & -> & Hrev & Hev & Hf). exists m, reg'.
    apply rotation_evolves in Hrot. split_and!; [done|simpl; lia|by etrans|]. constructor; [lia|done].
Qed.

Lemma load_rows_revisions d l p :
  load_rows d None l = Ok p →
  Forall (fun row => row.1 < expected_revision p) l ∧ expected_revision p = 1 + Z.of_nat (length l).
Proof.
  destruct l as [|row l]; simpl; [by intros [= <-]|]. intros (p' & Hr & Hl)%outcome_bind_Ok.
  apply load_row_Ok in Hr as (j & reg & _ & _ & -> & H1 & H2 & _). simpl in H1, H2.
  apply load_rows_Some in Hl as (m & reg' & -> & Hrev & _ & Hf). simpl. split; [|lia].
  constructor; [lia|]. eapply Forall_impl; [exact Hf|]. intros; simpl in *; lia.
Qed.

(** Every revision up to the latest was itself loaded, and the latest evolved
    from it. *)
Lemma load_rows_revision d l m reg n :
  load_rows d None l = Ok (Some (m, reg)) → 1 ≤ n ≤ revision_of m →
  ∃ j regn, json_wf j = true ∧ verify j = Ok regn ∧ field "domain" (members j) = JStr d ∧ revision_of (members j) = n ∧ evolves regn reg.
Proof.
  intros Hl Hn. pose proof (load_rows_revisions _ _ _ Hl) as [_ Hlen]. simpl in Hlen.
  assert (∃ row, l !! Z.to_nat (n - 1) = Some row) as [row Hrow] by (apply lookup_lt_is_Some_2; lia).
  rewrite <-(take_drop_middle _ _ _ Hrow), load_rows_app in Hl. apply outcome_bind_Ok in Hl as (p & Hp & Hl).
  simpl in Hl. apply outcome_bind_Ok in Hl as (p' & Hr & Hl).
  pose proof (load_rows_revisions _ _ _ Hp) as [_ Hk]. rewrite length_take in Hk.
  apply load_row_Ok in Hr as (j & regn & Hj%loads_wf & Hv & -> & _ & Hrev & Hd & _).
  apply load_rows_Some in Hl as (m' & reg' & [= <- <-] & _ & Hev & _). exists j, regn. split_and!; try done.
  rewrite Hrev, Hk. lia.
Qed.

(** ** The key lifecycle *)

Lemma load_inv d b s p : load d b s = Ok p → load_rows d None (history d (j_table s)) = Ok p.
Proof. unfold SigningTrust.load. intros (p' & Hp & Hr)%outcome_bind_Ok. apply outcome_bind_Ok in Hr as (u & _ & Hr). by injection Hr as <-. Qed.

Lemma load_floor d s m reg : load d true s = Ok (Some (m, reg)) → floor_of s d ≤ revision_of m.
Proof.
  unfold SigningTrust.load. intros (p' & Hp & Hr)%outcome_bind_Ok. apply outcome_bind_Ok in Hr as (u & Hg%guard_or_Ok & Hr).
  injection Hr as ->. apply negb_true_iff in Hg. simpl in Hg. by apply Z.ltb_ge in Hg.
Qed.

(** ** Instances over a database that may be restored *)

(** An instance publishes, settles and changes the capacity; between its
    operations the table may become any other: other instances publish, and the
    database may be restored from a backup or forged. *)
Inductive jstep : journal → journal → Prop :=
| j_publish s e : jstep s (publish c e s).2
| j_settle s b i o : jstep s (settlement_keys c b i o s).2
| j_capacity s l : jstep s (set_journal_capacity l (mret tt) s).2
| j_restored s t : jstep s (mkJournal t (j_floors s)).

Lemma settlement_key_inv d i s r s' :
  settlement_key c d i s = (Ok r, s') →
  ∃ m reg, load d true s = Ok (Some (m, reg)) ∧ resolve_active reg i = Ok (sk_hex r) ∧
    sk_registry_sha256 r = registry_digest m ∧ sk_revision r = revision_of m ∧ s' = set_floor d (revision_of m) s.
Proof.
  unfold settlement_key. rewrite run_get. intros Hr. apply bind_Ok_inv in Hr as (p & s1 & Hp & Hr).
  apply lift_Ok_inv in Hp as [Hp ->]. destruct p as [[m reg]|]; [|done].
  apply bind_Ok_inv in Hr as (h & s1 & Hh & Hr). apply lift_Ok_inv in Hh as [Hh ->].
  injection Hr as <- <-. exists m, reg. destruct (resolve_active reg i); [|done]. by injection Hh as ->.
Qed.

Lemma set_floor_of d n s d' : floor_of (set_floor d n s) d' = if decide (d = d') then n else floor_of s d'.
Proof.
  unfold floor_of, set_floor. simpl. case_decide; [subst; by rewrite lookup_insert_eq|by rewrite lookup_insert_ne].
Qed.

Lemma settlement_key_floor d i s d' : floor_of s d' ≤ floor_of (settlement_key c d i s).2 d'.
Proof.
  destruct (settlement_key c d i s) as [[r|x] s'] eqn:Hs; cbn [snd].
  - apply settlement_key_inv in Hs as (m & reg & Hl & _ & _ & _ & ->). rewrite set_floor_of.
    case_decide; [subst; by eapply load_floor|done].
  - revert Hs. unfold settlement_key. rewrite run_get, run_bind. unfold lift at 1. destruct (load d true s) as [[[m reg]|]|];
      [|by intros [= _ <-]..]. rewrite run_bind. unfold lift. destruct (resolve_active reg i); [done|]. by intros [= _ <-].
Qed.

Lemma settlement_keys_floor b i o s d : floor_of s d ≤ floor_of (settlement_keys c b i o s).2 d.
Proof.
  unfold settlement_keys. destruct b; [|done]. rewrite run_ensure, run_bind by done.
  pose proof (settlement_key_floor "destination" i s d) as H1'.
  destruct (settlement_key c "destination" i s) as [[k1|x] s1]; cbn [snd] in *; [|done]. rewrite run_bind.
  pose proof (settlement_key_floor "readback" o s1 d) as H2'.
  destruct (settlement_key c "readback" o s1) as [[k2|x] s2]; cbn [snd] in *; unfold mret, M_ret; cbn [snd]; lia.
Qed.

Lemma zoom_floors {A} (m : M trust_table A) s r s' : zoom m s = (r, s') → j_floors s' = j_floors s.
Proof. unfold zoom. destruct (m (view s)) as [x t]. by intros [= _ <-]. Qed.

(** The transaction of a publication leaves the instance's pins alone. *)
Lemma publish_revision_floors e reg s : j_floors (publish_revision c e reg s).2 = j_floors s.
Proof.
  destruct (publish_revision c e reg s) as [[x|x] s'] eqn:Hp; cbn [snd].
  - apply (proj1 (atomic_Ok _ _ _ _)) in Hp. rewrite run_get in Hp.
    apply bind_Ok_inv in Hp as (p & s1 & Hl & Hp). apply lift_Ok_inv in Hl as [_ ->].
    apply bind_Ok_inv in Hp as (u & s1 & He & Hp). apply ensure_Ok_inv in He as [_ ->].
    destruct (match p with Some _ => _ | None => false end); [by apply mret_Ok_inv in Hp as [_ ->]|].
    apply bind_Ok_inv in Hp as (u1 & s1 & He & Hp). apply ensure_Ok_inv in He as [_ ->].
    apply bind_Ok_inv in Hp as (u2 & s1 & He & Hp). apply ensure_Ok_inv in He as [_ ->].
    apply bind_Ok_inv in Hp as (u3 & s1 & He & Hp). apply lift_Ok_inv in He as [_ ->].
    apply bind_Ok_inv in Hp as (u4 & s1 & Hc & Hp). apply bind_Ok_inv in Hp as (u5 & s2 & Hi & Hp).
    apply mret_Ok_inv in Hp as [_ ->]. apply zoom_floors in Hi as ->. revert Hc. unfold catch.
    destruct (zoom (admit_row _ _) s) as [[v|x'] s3] eqn:Hz; apply zoom_floors in Hz; [by intros [= _ <-]|].
    destruct x'; try by intros [= _ <-].
  - unfold publish_revision in Hp. by apply atomic_Raise in Hp as ->.
Qed.

Lemma publish_floor e s d : floor_of s d ≤ floor_of (publish c e s).2 d.
Proof.
  unfold publish. destruct (json_finite e); [|done]. rewrite run_ensure, run_bind by done. unfold lift.
  destruct (verify e) as [reg|]; [|done]. rewrite run_bind. pose proof (publish_revision_floors e reg s) as Hf.
  destruct (publish_revision c e reg s) as [[[dg|n]|x] s1]; cbn [snd] in *; unfold floor_of in *.
  - unfold mret, M_ret. cbn [snd]. by rewrite Hf.
  - rewrite run_bind. unfold modify, mret, M_ret, set_floor, floor_of. cbn [snd j_floors]. rewrite <-Hf.
    destruct (decide (text_or_empty (field "domain" (members e)) = d)) as [->|Hd].
    + rewrite lookup_insert_eq. simpl. lia.
    + by rewrite lookup_insert_ne.
  - by rewrite Hf.
Qed.

Lemma capacity_floors l s : j_floors (set_journal_capacity l (mret tt) s).2 = j_floors s.
Proof.
  unfold set_journal_capacity, set_capacity. rewrite run_bind. unfold lift.
  destruct (make_limits signing_retention l) as [l'|]; [|done]. unfold policy.
  destruct (atomic _ s) as [[x|x] s'] eqn:Hp; cbn [snd]; [|by apply atomic_Raise in Hp as ->].
  apply (proj1 (atomic_Ok _ _ _ _)) in Hp. rewrite run_get in Hp.
  apply bind_Ok_inv in Hp as (cur & s1 & Hc & Hp). apply lift_Ok_inv in Hc as [_ ->].
  apply bind_Ok_inv in Hp as (u & s1 & Hu & Hp). apply put_Ok_inv in Hu as ->.
  apply bind_Ok_inv in Hp as (u2 & s1 & Hau & Hp). apply mret_Ok_inv in Hau as [_ ->]. rewrite run_get in Hp.
  apply bind_Ok_inv in Hp as (x2 & s2 & Hl & Hp). apply lift_Ok_inv in Hl as [_ ->]. by apply mret_Ok_inv in Hp as [_ ->].
Qed.

Lemma jstep_floor s s' d : jstep s s' → floor_of s d ≤ floor_of s' d.
Proof.
  destruct 1 as [s e|s b i o|s l|s t].
  - apply publish_floor.
  - apply settlement_keys_floor.
  - unfold floor_of. by rewrite capacity_floors.
  - done.
Qed.

Lemma jsteps_floor s s' d : rtc jstep s s' → floor_of s d ≤ floor_of s' d.
Proof. induction 1 as [|s1 s2 s3 Hs _ IH]; [done|]. pose proof (jstep_floor _ _ d Hs). lia. Qed.

(** The controller of a domain signs at most one key list per revision. *)
Definition signs_once : Prop :=
  ∀ j j' reg reg', json_wf j = true → json_wf j' = true → verify j = Ok reg → verify j' = Ok reg' →
    field "domain" (members j) = field "domain" (members j') →
    revision_of (members j) = revision_of (members j') → reg = reg'.

Lemma resolve_active_inv reg i h : resolve_active reg i = Ok h → ∃ e, dict_get i reg = Some e ∧ e_state e = active.
Proof. unfold resolve_active. destruct (dict_get i reg) as [[h' []]|] eqn:Hi; try done. intros _. by eexists. Qed.

Lemma settlement_key_revoked d i e j reg s r s' :
  signs_once → json_wf j = true → verify j = Ok reg → field "domain" (members j) = JStr d → 1 ≤ revision_of (members j) →
  dict_get i reg = Some e → e_state e = revoked → revision_of (members j) ≤ floor_of s d →
  settlement_key c d i s ≠ (Ok r, s').
Proof.
  intros Honce Hw Hv Hd Hpos Hi He Hfl (m & regm & Hl & Ha & _)%settlement_key_inv.
  pose proof (load_floor _ _ _ _ Hl) as Hm. apply load_inv in Hl.
  destruct (load_rows_revision _ _ _ _ (revision_of (members j)) Hl) as (jn & regn & Hwn & Hvn & Hdn & Hn & Hev); [lia|].
  assert (regn = reg) as -> by (eapply Honce; [exact Hwn|exact Hw|done|done|congruence|congruence]).
  destruct (Hev _ _ Hi) as (e' & Hi' & _ & Hal). rewrite He in Hal.
  apply resolve_active_inv in Ha as (e2 & Hi2 & Hact). simplify_eq. by rewrite Hact in Hal.
Qed.

Lemma verify_revision j reg : verify j = Ok reg → 1 ≤ revision_of (members j).
Proof.
  unfold verify_envelope, revision_of. destruct j as [| | | | | |m]; try done. simpl.
  intros (u & _ & Hv)%outcome_bind_Ok. apply outcome_bind_Ok in Hv as (k & _ & Hv).
  apply outcome_bind_Ok in Hv as (u2 & Hg & _). destruct (field "revision" m); try done.
  apply guard_or_Ok, andb_true_iff in Hg as [Hg%Z.leb_le _]. done.
Qed.

(** C30: once an instance has pinned a revision that revokes a key (by publishing
    it or by settling over it), no later settlement of that instance resolves
    the key, whatever the instance does and however the database is restored,
    replaced or rolled back, provided the controller signs one key list per
    revision. *)
Theorem revoked_key_never_settles j reg d i e s s' b k o :
  signs_once →
  json_wf j = true → verify j = Ok reg → field "domain" (members j) = JStr d →
  dict_get i reg = Some e → e_state e = revoked →
  revision_of (members j) ≤ floor_of s d →
  rtc jstep s s' →
  (d = "destination" ∧ k = i) ∨ (d = "readback" ∧ o = i) →
  is_ok (settlement_keys c b k o s').1 = false.
Proof.
  intros Honce Hw Hv Hd Hi He Hfl Hr Hk. pose proof (verify_revision _ _ Hv) as Hpos. pose proof (jsteps_floor _ _ d Hr) as Hmono.
  destruct (settlement_keys c b k o s') as [[ks|x] s2] eqn:Hs; [exfalso|done]. unfold settlement_keys in Hs.
  apply bind_Ok_inv in Hs as (u & s1 & He' & Hs). apply ensure_Ok_inv in He' as [_ ->].
  apply bind_Ok_inv in Hs as (k1 & s1 & H1' & Hs). apply bind_Ok_inv in Hs as (k2 & s3 & H2' & _).
  destruct Hk as [[-> ->]|[-> ->]].
  - by eapply (settlement_key_revoked "destination" i e j reg s'); try done; lia.
  - pose proof (settlement_key_floor "destination" k s' "readback") as Hf. rewrite H1' in Hf. cbn [snd] in Hf.
    by eapply (settlement_key_revoked "readback" i e j reg s1); try done; lia.
Qed.

(** ** Publication *)

(** The key of a row whose members are sorted. *)
Definition sorted_key (k : ObserverKey) : ObserverKey :=
  mkKey (sort_keys (key_id k)) (sort_keys (key_hex k)) (sort_keys (key_state k)).

Lemma field_sorted k m : NoDup (dict_keys m) → field k (sort_members m) = sort_keys (field k m).
Proof. intros Hn. unfold field, obj_get. rewrite sort_members_get by done. by destruct (dict_get k m). Qed.

Lemma keys_are_sorted names m : keys_are names (sort_members m) = keys_are names m.
Proof.
  assert (∀ k, k ∈ (sort_members m).*1 ↔ k ∈ m.*1) as He.
  { intros k. pose proof (sort_members_keys m) as Hp. unfold dict_keys in Hp. by rewrite Hp. }
  unfold keys_are. f_equal.
  - apply eq_true_iff_eq. rewrite !forallb_Forall, !Forall_forall. by setoid_rewrite He.
  - apply eq_true_iff_eq. rewrite !forallb_Forall, !Forall_forall. setoid_rewrite bool_decide_eq_true. by setoid_rewrite He.
Qed.

Lemma key_of_sorted j k : json_wf j = true → key_of j = Some k → key_of (sort_keys j) = Some (sorted_key k).
Proof.
  intros Hw Hk. destruct j as [| | | | | |m]; try done. simpl in *. fold (sort_members m). rewrite keys_are_sorted.
  destruct (keys_are _ m); [|done]. injection Hk as <-.
  apply andb_true_iff in Hw as [Hn%bool_decide_eq_true _]. by rewrite !field_sorted.
Qed.

Lemma keys_of_sorted (l : list json) (ks : list ObserverKey) :
  forallb json_wf l = true → mapM key_of l = Some ks → mapM key_of (sort_keys <$> l) = Some (sorted_key <$> ks).
Proof.
  revert ks. induction l as [|j l IH]; intros ks Hw Hk; simpl in *; [by injection Hk as <-|].
  apply andb_true_iff in Hw as [Hj Hl]. destruct (key_of j) as [k|] eqn:Hkj; [|done]. simpl in Hk.
  destruct (mapM key_of l) as [ks'|] eqn:Hks; [|done]. injection Hk as <-.
  specialize (IH ks' Hl eq_refl). unfold fmap in IH. by rewrite (key_of_sorted _ _ Hj Hkj), IH.
Qed.

Lemma add_key_sorted acc k : add_key acc (sorted_key k) = add_key acc k.
Proof.
  destruct acc as [reg seen], k as [i h st]. unfold add_key, sorted_key. cbn [key_id key_hex key_state].
  assert (state_of (sort_keys st) = state_of st) as -> by (by destruct st).
  by destruct i, (state_of st), h.
Qed.

Lemma make_registry_sorted (ks : list ObserverKey) : make_registry (sorted_key <$> ks) = make_registry ks.
Proof.
  unfold make_registry. rewrite length_fmap. destruct (guard_or _ _); [|done]. simpl. f_equal.
  generalize (([], []) : registry * list (list Z)) as acc. induction ks as [|k ks IH]; intros acc; simpl; [done|]. rewrite add_key_sorted.
  unfold mbind, outcome_bind. destruct (add_key acc k); [apply IH|done].
Qed.

Lemma ids_sorted_sorted (ks : list ObserverKey) : ids_sorted (sorted_key <$> ks) = ids_sorted ks.
Proof.
  unfold ids_sorted, ids_of. rewrite <-list_fmap_compose.
  rewrite (list_fmap_ext _ (fun k => text_or_empty (key_id k)) ks); [done|]. intros i [id h st] _. simpl. by destruct id.
Qed.

Lemma payload_sorted m : NoDup (dict_keys m) → canonical_registry_payload (sort_members m) = canonical_registry_payload m.
Proof.
  intros Hn. unfold canonical_registry_payload. f_equal. rewrite <-(canonical_sorted (selected _ (sort_members m))),
    <-(canonical_sorted (selected _ m)). f_equal. unfold selected. simpl. by rewrite !field_sorted, !sort_keys_idem by done.
Qed.

(** Sorting the members of a signed envelope leaves it signed, with the same
    registry. *)
Lemma verify_sorted j reg : json_wf j = true → verify j = Ok reg → verify (sort_keys j) = Ok reg.
Proof.
  intros Hw Hv. destruct j as [| | | | | |m]; try done. simpl in Hw. apply andb_true_iff in Hw as [Hn%bool_decide_eq_true Hf].
  change (sort_keys (JObj m)) with (JObj (sort_members m)). unfold verify_envelope in *.
  rewrite keys_are_sorted, payload_sorted, !field_sorted by done.
  destruct (keys_are ENVELOPE_FIELDS m); [|done]. simpl in Hv |- *.
  destruct (field "domain" m); try done. simpl. destruct (controller_of c s) as [key|]; [|done]. simpl in Hv |- *.
  destruct (field "revision" m); try done. simpl in Hv |- *. destruct (guard_or (_ && (n <=? _)) _); [|done]. simpl in Hv |- *.
  destruct (field "previous_sha256" m); try done. destruct (field "signature_hex" m); try (by rewrite andb_false_r in Hv).
  simpl in Hv |- *. destruct (guard_or (_ && _) _); [|done]. simpl in Hv |- *.
  assert (json_wf (field "keys" m) = true) as Hk.
  { unfold field, obj_get. destruct (dict_get "keys" m) as [v|] eqn:Hg; [|done]. simpl.
    rewrite forallb_Forall, Forall_forall in Hf. apply (Hf ("keys", v)). by apply dict_get_Some_In. }
  destruct (field "keys" m) as [| | | | |l|]; try done. simpl in Hk |- *. rewrite length_fmap.
  destruct (bool_decide _); [|done]. simpl in Hv |- *. destruct (mapM key_of l) as [ks|] eqn:Hks; [|done].
  rewrite (keys_of_sorted _ _ Hk Hks). simpl in Hv |- *. by rewrite make_registry_sorted, ids_sorted_sorted.
Qed.

Lemma history_append d n text t l :
  Forall (fun row => row.1 < n) (history d t) →
  history d (mkTable (rows t ++ [((d, n), text)]) l) = history d t ++ [(n, text)].
Proof.
  intros Hf. unfold history in *. cbn [rows]. rewrite omap_app. simpl. rewrite decide_True by done. apply sort_by_last.
  rewrite (sort_by_perm _ _) in Hf. eapply Forall_impl; [exact Hf|]. intros row Hrow. simpl in *. apply Z.leb_le. lia.
Qed.

Lemma sorted_members j : members (sort_keys j) = sort_members (members j).
Proof. by destruct j. Qed.

Lemma verify_members j reg : verify j = Ok reg → json_wf j = true → NoDup (dict_keys (members j)).
Proof.
  destruct j as [| | | | | |m]; try done. simpl. intros _ Hw. by apply andb_true_iff in Hw as [Hn%bool_decide_eq_true _].
Qed.

Lemma verify_domain j reg : verify j = Ok reg → ∃ d, field "domain" (members j) = JStr d.
Proof.
  unfold verify_envelope. destruct j as [| | | | | |m]; try done. simpl.
  intros (u & _ & Hv)%outcome_bind_Ok. apply outcome_bind_Ok in Hv as (k & Hk & _).
  destruct (field "domain" m); try done. eauto.
Qed.

(** The revision a publication appends, as the next load reads it. *)
Lemma appended_row_loads d e reg p :
  json_wf e = true → verify e = Ok reg → field "domain" (members e) = JStr d →
  revision_of (members e) = expected_revision p → is_text (expected_predecessor p) (field "previous_sha256" (members e)) = true →
  rotation_ok p reg = Ok tt →
  load_row c d p (expected_revision p, json_dumps (sort_keys e)) = Ok (Some (sort_members (members e), reg)).
Proof.
  intros Hw Hv Hd Hn Hp Hr. pose proof (verify_members _ _ Hv Hw) as Hnd. unfold load_row. cbn [fst snd].
  rewrite loads_dumps by (by apply sort_keys_wf). cbn [mbind outcome_bind]. rewrite (verify_sorted _ _ Hw Hv), sorted_members.
  cbn [mbind outcome_bind]. unfold revision_of in *. rewrite !field_sorted, Hd by done.
  destruct (field "revision" (members e)) as [| |n| | | |] eqn:Hrev;
    try (exfalso; pose proof (verify_revision _ _ Hv) as Hpos; unfold revision_of in Hpos; by rewrite Hrev in Hpos).
  destruct (field "previous_sha256" (members e)) as [| | | |h| |]; try done. cbn [sort_keys]. cbn [is_text] in *.
  rewrite Hn, Z.eqb_refl, Hp, bool_decide_eq_true_2 by done. cbn. by rewrite Hr.
Qed.

Lemma zoom_table_inv {A} (m : M trust_table A) (s : journal) a s' :
  zoom m s = (Ok a, s') → ∃ t, m (j_table s) = (Ok a, t) ∧ s' = mkJournal t (j_floors s).
Proof. unfold zoom. cbn [view journal_table]. destruct (m (j_table s)) as [x t]. intros [= -> <-]. by exists t. Qed.

(** What the transaction of a publication did. *)
Lemma publish_revision_inv e reg s x s' :
  publish_revision c e reg s = (Ok x, s') →
  let m := members e in let d := text_or_empty (field "domain" m) in
  ∃ p, load d false s = Ok p ∧
  match x with
  | inl digest => s' = s ∧ ∃ prev old, p = Some (prev, old) ∧ json_eqb e (JObj prev) = true ∧
                  digest = registry_digest prev ∧ floor_of s d ≤ revision_of prev
  | inr n => n = expected_revision p ∧ revision_of m = n ∧ floor_of s d ≤ n ∧
             is_text (expected_predecessor p) (field "previous_sha256" m) = true ∧ rotation_ok p reg = Ok tt ∧
             s' = mkJournal (mkTable (rows (j_table s) ++ [((d, n), json_dumps (sort_keys e))])
                    (Some (limits_in_force signing_retention (j_table s)))) (j_floors s)
  end.
Proof.
  intros Hp m d. apply (proj1 (atomic_Ok _ _ _ _)) in Hp. rewrite run_get in Hp. fold m d in Hp.
  apply bind_Ok_inv in Hp as (p & s1 & Hl & Hp). apply lift_Ok_inv in Hl as [Hl ->]. exists p. split; [done|].
  apply bind_Ok_inv in Hp as (u & s1 & He & Hp). apply ensure_Ok_inv in He as [Hfl ->].
  destruct (match p with Some _ => _ | None => false end) eqn:Hdup.
  - apply mret_Ok_inv in Hp as [-> ->]. split; [done|]. destruct p as [[prev old]|]; [|done].
    apply Z.leb_le in Hfl. by exists prev, old.
  - apply bind_Ok_inv in Hp as (u1 & s1 & He & Hp). apply ensure_Ok_inv in He as [[Hn%Z.eqb_eq Hpre]%andb_true_iff ->].
    apply bind_Ok_inv in Hp as (u2 & s1 & He & Hp). apply ensure_Ok_inv in He as [Hf%Z.leb_le ->].
    apply bind_Ok_inv in Hp as ([] & s1 & He & Hp). apply lift_Ok_inv in He as [Hrot ->].
    apply bind_Ok_inv in Hp as (u4 & s1 & Hc & Hp). apply bind_Ok_inv in Hp as (u5 & s2 & Hi & Hp).
    apply mret_Ok_inv in Hp as [-> ->]. revert Hc. unfold catch.
    destruct (zoom (admit_row _ _) s) as [[[]|x'] s3] eqn:Hz; [|destruct x'; done]. intros [= _ <-].
    apply zoom_table_inv in Hz as (t1 & Ha & ->).
    eapply (admitted_row_inserts signing_retention (d, expected_revision p)) in Ha as [-> _]; [|done].
    apply zoom_table_inv in Hi as (t2 & Hi & ->). cbn [j_table j_floors] in *.
    apply insert_row_inv in Hi as (_ & _ & -> & _). split_and!; try done. lia.
Qed.

(** A publication that succeeds is the registry the instance reads next: the
    history loads under the instance's own pin, its digest is the one returned,
    and it is the verified envelope just appended (the pin now at its revision)
    or the latest revision, published again. *)
Theorem published_is_current e s sha s' :
  json_wf e = true → publish c e s = (Ok sha, s') →
  ∃ d m reg, field "domain" (members e) = JStr d ∧ load d true s' = Ok (Some (m, reg)) ∧ registry_digest m = sha ∧
    ((m = sort_members (members e) ∧ verify e = Ok reg ∧ floor_of s' d = revision_of (members e)) ∨
     (s' = s ∧ json_eqb e (JObj m) = true)).
Proof.
  intros Hw Hp. unfold publish in Hp. apply bind_Ok_inv in Hp as (u & s1 & He & Hp). apply ensure_Ok_inv in He as [_ ->].
  apply bind_Ok_inv in Hp as (cand & s1 & Hv & Hp). apply lift_Ok_inv in Hv as [Hv ->].
  destruct (verify_domain _ _ Hv) as [d Hd]. apply bind_Ok_inv in Hp as (x & s1 & Hr & Hp).
  apply publish_revision_inv in Hr as (p & Hl & Hx). rewrite Hd in *. cbn [text_or_empty] in *. exists d.
  destruct x as [digest|n].
  - destruct Hx as (-> & prev & old & -> & Heq & -> & Hf). apply mret_Ok_inv in Hp as [-> ->].
    exists prev, old. split_and!; [done| |done|by right]. apply load_inv in Hl. unfold SigningTrust.load. rewrite Hl. cbn.
    by rewrite (proj2 (Z.ltb_ge _ _) Hf).
  - destruct Hx as (-> & Hrev & Hf & Hpre & Hrot & ->). injection Hp as <- <-.
    exists (sort_members (members e)), cand. pose proof (verify_members _ _ Hv Hw) as Hn.
    assert (revision_of (sort_members (members e)) = revision_of (members e)) as Hs.
    { unfold revision_of. rewrite field_sorted by done. by destruct (field "revision" (members e)). }
    apply load_inv in Hl. destruct (load_rows_revisions _ _ _ Hl) as [Hrows _].
    split_and!; [done| |unfold registry_digest; by rewrite payload_sorted|left; split_and!; [done..|]].
    + unfold SigningTrust.load. cbn [j_table set_floor]. rewrite history_append, load_rows_app, Hl by done.
      cbn [mbind outcome_bind SigningTrust.load_rows]. rewrite (appended_row_loads d e cand p) by done. cbn [mbind outcome_bind].
      rewrite Hs, set_floor_of, decide_True, Hrev by done. unfold floor_of in *. cbn [j_floors].
      rewrite Z.max_r by done. by rewrite Z.ltb_irrefl.
    + rewrite set_floor_of, decide_True, Hrev by done. unfold floor_of in *. cbn [j_floors]. by rewrite Z.max_r.
Qed.

(** ** Staging *)

Lemma check_new_Ok old new u i e :
  check_new old new = Ok u → dict_get i new = Some e → dict_mem i old = true ∨ e_state e = staged.
Proof.
  induction new as [|[k x] new IH]; intros Hc Hi; [done|]. simpl in *.
  apply outcome_bind_Ok in Hc as (u1 & Hg%guard_or_Ok & Hc). case_decide as Hk; [|by apply IH].
  injection Hi as <-. subst k. apply orb_true_iff in Hg as [Hg|Hg%bool_decide_eq_true]; auto.
Qed.

Lemma rotation_staged m old new u i e :
  rotation_ok (Some (m, old)) new = Ok u → dict_get i new = Some e → e_state e ≠ staged → ∃ e0, dict_get i old = Some e0.
Proof.
  unfold rotation_ok. destruct (validate_rotation old new) as [x|] eqn:Hv; [|done]. intros _ Hi Hst.
  unfold validate_rotation in Hv. apply outcome_bind_Ok in Hv as (u1 & _ & Hv). apply outcome_bind_Ok in Hv as (u2 & Hn & _).
  destruct (check_new_Ok _ _ _ _ _ Hn Hi) as [Hm|Hm]; [|done]. unfold dict_mem in Hm.
  destruct (dict_get i old) as [e0|]; [by exists e0|done].
Qed.

(** The key [i] stood in the [n]-th loaded revision as [e]. *)
Definition stood (d : string) (l : list (Z * string)) (n : nat) (i : string) (e : entry) : Prop :=
  ∃ m reg, load_rows d None (take n l) = Ok (Some (m, reg)) ∧ revision_of m = Z.of_nat n ∧ dict_get i reg = Some e.

Lemma loaded_key_origin d l m reg i e :
  load_rows d None l = Ok (Some (m, reg)) → dict_get i reg = Some e → e_state e ≠ staged →
  ∃ n e0, (1 ≤ n ≤ length l)%nat ∧ stood d l n i e0 ∧ (n = 1%nat ∨ e_state e0 = staged).
Proof.
  revert m reg e. induction l as [|row l IH] using rev_ind; intros m reg e Hl Hi Hst; [done|].
  pose proof (load_rows_revisions _ _ _ Hl) as [_ Hrev]. simpl in Hrev.
  pose proof Hl as Hall. rewrite load_rows_app in Hl. apply outcome_bind_Ok in Hl as (p & Hp & Hl).
  simpl in Hl. apply outcome_bind_Ok in Hl as (p' & Hr & Hl). injection Hl as ->.
  apply load_row_Ok in Hr as (j & regn & _ & _ & [= <- <-] & _ & _ & _ & _ & Hrot).
  pose proof (load_rows_revisions _ _ _ Hp) as [_ Hlen].
  destruct p as [[m0 old]|].
  - destruct (rotation_staged _ _ _ _ _ _ Hrot Hi Hst) as [e0 Hi0]. simpl in Hlen.
    assert (0 < length l)%nat as Hpos.
    { destruct l; [discriminate Hp|simpl; lia]. }
    destruct (decide (e_state e0 = staged)) as [Hs|Hs].
    + exists (length l), e0. rewrite length_app. simpl. split_and!; [lia|lia| |by right]. exists m0, old.
      rewrite take_app_le, take_ge by lia. split_and!; [done|lia|done].
    + destruct (IH _ _ _ Hp Hi0 Hs) as (n & e1 & Hn & (m1 & reg1 & Hl1 & Hr1 & Hi1) & Hor). exists n, e1.
      rewrite length_app. split_and!; [lia|lia| |done]. exists m1, reg1. by rewrite take_app_le by lia.
  - simpl in Hlen. assert (length l = 0%nat) as Hz by lia. exists 1%nat, e. rewrite length_app in Hrev |- *. simpl in Hrev |- *.
    split_and!; [lia|lia| |by left]. exists m, reg.
    rewrite take_ge by (rewrite length_app; simpl; lia). split_and!; [done|lia|done].
Qed.

(** No key is active without having been announced: a key that is active in
    the revision a load returns was already in the domain's first revision, or an
    earlier revision of the same history listed it as staged. *)
Theorem active_key_was_staged d b s m reg i e :
  load d b s = Ok (Some (m, reg)) → dict_get i reg = Some e → e_state e = active →
  ∃ n e0, (1 ≤ n ≤ length (history d (j_table s)))%nat ∧ stood d (history d (j_table s)) n i e0 ∧
    (n = 1%nat ∨ e_state e0 = staged).
Proof. intros Hl%load_inv Hi He. eapply loaded_key_origin; [done|done|by rewrite He]. Qed.

(** ** Registries of equal key lists *)

Lemma verify_registry j reg :
  verify j = Ok reg →
  ∃ m l ks, j = JObj m ∧ field "keys" m = JArr l ∧ mapM key_of l = Some ks ∧ make_registry ks = Ok reg.
Proof.
  unfold verify_envelope. destruct j as [| | | | | |m]; try done.
  intros (u & _ & Hv)%outcome_bind_Ok. apply outcome_bind_Ok in Hv as (k & _ & Hv).
  apply outcome_bind_Ok in Hv as (u2 & _ & Hv). apply outcome_bind_Ok in Hv as (u3 & _ & Hv).
  apply outcome_bind_Ok in Hv as (l & Hl & Hv). apply outcome_bind_Ok in Hv as (ks & Hks & Hv).
  destruct (field "keys" m) as [| | | | |l'|] eqn:Hf; try done. destruct (bool_decide _); [|done]. injection Hl as ->.
  destruct (mapM key_of l) as [ks'|] eqn:Hm; [|done]. injection Hks as ->.
  destruct (make_registry ks) as [reg'|] eqn:Hr; [|done]. apply outcome_bind_Ok in Hv as (u4 & _ & [= ->]). eauto 8.
Qed.

Lemma wf_keys m l : json_wf (JObj m) = true → field "keys" m = JArr l → forallb json_wf l = true.
Proof.
  simpl. rewrite andb_true_iff, forallb_Forall, Forall_forall. intros [_ Hf] Hk. unfold field, obj_get in Hk.
  destruct (dict_get "keys" m) as [v|] eqn:Hg; [|done]. simpl in Hk. subst v. by apply (Hf ("keys", JArr l)), dict_get_Some_In.
Qed.

Lemma same_keys_registry j j' reg reg' :
  json_wf j = true → json_wf j' = true → verify j = Ok reg → verify j' = Ok reg' →
  sort_keys (field "keys" (members j)) = sort_keys (field "keys" (members j')) → reg = reg'.
Proof.
  intros Hw Hw' (m & l & ks & -> & Hf & Hm & Hr)%verify_registry (m' & l' & ks' & -> & Hf' & Hm' & Hr')%verify_registry Hk.
  cbn [members] in Hk. rewrite Hf, Hf' in Hk. injection Hk as Hk.
  pose proof (keys_of_sorted _ _ (wf_keys _ _ Hw Hf) Hm) as H1'. pose proof (keys_of_sorted _ _ (wf_keys _ _ Hw' Hf') Hm') as H2'.
  rewrite Hk, H2' in H1'. assert (sorted_key <$> ks = sorted_key <$> ks') as E by congruence.
  rewrite <-(make_registry_sorted ks), E, make_registry_sorted in Hr. congruence.
Qed.

(** A verified envelope carries its controller's signature. *)
Lemma verify_signed j reg :
  verify j = Ok reg →
  ∃ d key, field "domain" (members j) = JStr d ∧ controller_of c d = Some key ∧
    ed_verify key (canonical_registry_payload (members j)) (text_or_empty (field "signature_hex" (members j))) = true.
Proof.
  unfold verify_envelope. destruct j as [| | | | | |m]; try done.
  intros (u & _ & Hv)%outcome_bind_Ok. apply outcome_bind_Ok in Hv as (k & Hk & Hv).
  apply outcome_bind_Ok in Hv as (u2 & _ & Hv). apply outcome_bind_Ok in Hv as (u3 & _ & Hv).
  apply outcome_bind_Ok in Hv as (l & Hl & Hv). apply outcome_bind_Ok in Hv as (ks & Hks & Hv).
  cbn [members]. destruct (field "domain" m) as [| | | |d| |]; try done. exists d, k. split; [done|].
  destruct (controller_of c d) as [key|]; [|done]. injection Hk as ->. split; [done|].
  destruct (make_registry ks) as [reg'|]; [|done]. apply outcome_bind_Ok in Hv as (u4 & Hg%guard_or_Ok & _).
  by apply andb_true_iff in Hg as [_ Hg].
Qed.
End spec.
