(* ===== verification/SigningExample.v ===== *)
(** * A signing journal, run

    A controller that signs two revisions: the first lists an active key and a
    staged one, the second revokes the first key and activates the other.  The
    journal's theorems are applied to this run. *)

From stdpp Require Import base list gmap strings countable relations.
From Stdlib Require Import ZArith Lia Ascii.
From S2P Require Import Prelude PyFloat Json Sorting Identity Authority Evidence RetainedCapacity SigningTrust SigningSpec.

#[local] Open Scope Z_scope.

(** A text format that sorts for the canonical text and refuses duplicates. *)
#[local] Instance trust_json : JsonText | 0.
Proof.
  refine {|
    json_loads s := match json_read s with
                    | Some j => if json_wf j then Ok j else Raise (ValueError "invalid JSON")
                    | None => Raise (ValueError "invalid JSON")
                    end;
    json_dumps := json_write;
    canonical_dumps j := json_write (sort_keys j);
    py_repr := json_write;
  |}.
  intros j Hj. by rewrite json_read_write, Hj.
Defined.

#[local] Instance trust_standard : StandardJson.
Proof.
  split.
  - intros j. simpl. by rewrite sort_keys_idem.
  - intros s j. simpl. destruct (json_read s) as [t|]; [|done]. destruct (json_wf t) eqn:Hw; [|done].
    by intros [= <-].
Qed.

Lemma json_write_inj j j' : json_write j = json_write j' → j = j'.
Proof. apply (inj_of json_write json_read json_read_write). Qed.

Fixpoint repeated (n : nat) (c : Ascii.ascii) : string := match n with O => "" | S n' => String c (repeated n' c) end.

#[local] Instance trust_digest : Sha256 | 0 := { sha256_hex _ := repeated 64 "d"%char }.

Definition key_row (i hex st : string) : json :=
  JObj [("key_id", JStr i); ("public_key_hex", JStr hex); ("state", JStr st)].

Definition envelope_of (n : Z) (previous : string) (keys : list json) : list (string * json) :=
  [("domain", JStr "destination"); ("revision", JInt n); ("previous_sha256", JStr previous); ("keys", JArr keys);
   ("signature_hex", JStr (repeated 128 "a"%char))].

Definition first_members : list (string * json) :=
  envelope_of 1 ZERO_DIGEST [key_row "k1" (repeated 64 "1"%char) "active"; key_row "k2" (repeated 64 "2"%char) "staged"].
Definition second_members : list (string * json) :=
  envelope_of 2 (repeated 64 "d"%char) [key_row "k1" (repeated 64 "1"%char) "revoked"; key_row "k2" (repeated 64 "2"%char) "active"].

Definition controller_key : string := repeated 64 "c"%char.

(** The controller's signature is good on its two revisions only. *)
#[local] Instance trust_ed25519 : Ed25519 | 0.
Proof.
  refine {|
    public_of k := String "p" k;
    ed_sign k m := (k +:+ "/" +:+ m)%string;
    public_key_ok _ := true;
    hex_ok _ := true;
    ed_verify p m s :=
      if bool_decide (p = controller_key)
      then bool_decide (m ∈ [canonical_registry_payload first_members; canonical_registry_payload second_members])
      else bool_decide (String "p" s = p +:+ "/" +:+ m)%string;
  |}; try done.
  intros k m. rewrite bool_decide_eq_false_2 by done. by apply bool_decide_eq_true_2.
Defined.

Definition ex_controllers : controllers := mkControllers controller_key controller_key.

Lemma payload_keys m m' :
  canonical_registry_payload m = canonical_registry_payload m' →
  sort_keys (field "revision" m) = sort_keys (field "revision" m') ∧
  sort_keys (field "keys" m) = sort_keys (field "keys" m').
Proof.
  unfold canonical_registry_payload. intros E. assert (sort_keys (selected SIGNED_FIELDS m) = sort_keys (selected SIGNED_FIELDS m')) as Es.
  { apply json_write_inj. apply (inj (String.append "agentbridge-signing-registry-v1:")). exact E. }
  pose proof (f_equal members Es) as Em. rewrite !sorted_members in Em. unfold selected in Em. cbn [members] in Em.
  split; [apply (f_equal (dict_get "revision")) in Em|apply (f_equal (dict_get "keys")) in Em];
    rewrite !sort_members_get in Em by (by apply (bool_decide_unpack _)); simpl in Em; by injection Em.
Qed.

Lemma verified_payload j reg :
  verify_envelope ex_controllers j = Ok reg →
  canonical_registry_payload (members j) = canonical_registry_payload first_members ∨
  canonical_registry_payload (members j) = canonical_registry_payload second_members.
Proof.
  intros (d & key & _ & Hk & Hv)%verify_signed.
  assert (key = controller_key) as ->.
  { clear Hv. unfold controller_of in Hk. repeat case_decide; [..|done]; injection Hk as <-; reflexivity. }
  cbn [ed_verify trust_ed25519] in Hv. rewrite bool_decide_eq_true_2 in Hv by done. apply bool_decide_eq_true in Hv.
  apply elem_of_cons in Hv as [Hv|Hv]; [left; exact Hv|]. apply list_elem_of_singleton in Hv. right. exact Hv.
Qed.

Lemma revision_sorted m m' : sort_keys (field "revision" m) = sort_keys (field "revision" m') → revision_of m = revision_of m'.
Proof. unfold revision_of. destruct (field "revision" m), (field "revision" m'); simpl; by intros [=]. Qed.

Lemma ex_signs_once : signs_once ex_controllers.
Proof.
  intros j j' reg reg' Hw Hw' Hv Hv' _ Hn. apply (same_keys_registry ex_controllers j j'); try done.
  destruct (verified_payload _ _ Hv) as [E|E], (verified_payload _ _ Hv') as [E'|E'];
    apply payload_keys in E as [Er Ek]; apply payload_keys in E' as [Er' Ek']; try congruence;
    apply revision_sorted in Er, Er'; rewrite Hn, Er' in Er; done.
Qed.

(** ** The run *)

Definition ex_empty : journal := mkJournal (mkTable [] None) ∅.
Notation ex_published1 := (publish ex_controllers (JObj first_members) ex_empty).
Definition ex_published2 : outcome string * journal := publish ex_controllers (JObj second_members) ex_published1.2.

Definition ex_digest : string := repeated 64 "d"%char.

Lemma ran {A S} (p : outcome A * S) a : p.1 = Ok a → p = (Ok a, p.2).
Proof. by destruct p as [x s]; intros [= ->]. Qed.

Lemma ex_first_publication : ex_published1 = (Ok ex_digest, ex_published1.2).
Proof. apply ran. vm_compute. reflexivity. Qed.

Lemma ex_first_wf : json_wf (JObj first_members) = true.
Proof. vm_compute. reflexivity. Qed.

Lemma published_is_current_witness :
  ∃ d m reg, load ex_controllers d true ex_published1.2 = Ok (Some (m, reg)) ∧
    registry_digest m = ex_digest.
Proof.
  destruct (published_is_current ex_controllers (JObj first_members) ex_empty ex_digest ex_published1.2 ex_first_wf ex_first_publication)
    as (d & m & reg & _ & Hl & Hd & _).
  exists d, m, reg. split; [exact Hl|exact Hd].
Defined.

Definition ex_registry : registry := [("k1", mkEntry (repeated 64 "1"%char) revoked); ("k2", mkEntry (repeated 64 "2"%char) active)].

Lemma ex_second_verified : verify_envelope ex_controllers (JObj second_members) = Ok ex_registry.
Proof. vm_compute. reflexivity. Qed.

Lemma ex_second_wf : json_wf (JObj second_members) = true.
Proof. vm_compute. reflexivity. Qed.

Lemma ex_pinned : revision_of second_members ≤ floor_of ex_published2.2 "destination".
Proof. vm_compute. done. Qed.

(** The second revision revokes [k1]; the database is then restored to the time
    of the first, in which [k1] is still active. *)
Lemma revoked_key_never_settles_witness :
  is_ok (settlement_keys ex_controllers true "k1" "o1" (mkJournal (j_table ex_published1.2) (j_floors ex_published2.2))).1 = false.
Proof.
  exact (revoked_key_never_settles ex_controllers (JObj second_members) ex_registry "destination" "k1"
    (mkEntry (repeated 64 "1"%char) revoked) ex_published2.2 _ true "k1" "o1" ex_signs_once ex_second_wf ex_second_verified
    eq_refl eq_refl eq_refl ex_pinned (rtc_once _ _ (j_restored ex_controllers ex_published2.2 (j_table ex_published1.2)))
    (or_introl (conj eq_refl eq_refl))).
Defined.

Definition ex_second_sorted : list (string * json) := sort_members second_members.

Lemma ex_loaded : load ex_controllers "destination" true ex_published2.2 = Ok (Some (ex_second_sorted, ex_registry)).
Proof. vm_compute. reflexivity. Qed.

Lemma active_key_was_staged_witness :
  ∃ n e0, (1 ≤ n ≤ 2)%nat ∧ stood ex_controllers "destination" (history "destination" (j_table ex_published2.2)) n "k2" e0 ∧
    (n = 1%nat ∨ e_state e0 = staged).
Proof.
  exact (active_key_was_staged ex_controllers "destination" true ex_published2.2 _ _ "k2" _ ex_loaded eq_refl eq_refl).
Defined.
