(* ===== verification/Reconciliation.v ===== *)
(** * Manual reconciliation

    Models [Reconciliation.record] of src/governance/reconciliation.py for a
    deployment without a signing trust journal: an operator settles an unknown
    operation, in production only with a destination receipt, an independent
    readback and a signed review.  [bundle_guard] stands for the capacity check
    of src/governance/evidence_journal_capacity.py, which may refuse a bundle.

    [record] uses a budget manager of its own over the shared store: it starts
    with an empty cache and its own default budget. *)

From stdpp Require Import base list gmap strings.
From Stdlib Require Import ZArith Lia.
From S2P Require Import Prelude PyFloat Budget AuditLog Approvals Identity PolicyRules Authority OperationLedger Quotas Policy Json Evidence Gateway GatewaySpec AuditSpec AuthoritySpec GatewayRuns.

Local Open Scope Z_scope.

Record settlement := mkSettlement {
  s_result : op_state;
  s_reference : string;
  s_evidence : string;
  s_reviewer : string;
  s_created : float64;
}.

(** The governance store with the reconciliation tables. *)
Record recon := mkRecon {
  base : gov;
  operation_reconciliations : gmap (string * string) settlement;
  reconciliation_readbacks : gmap (string * string) string;
  reconciliation_evidence : gmap (string * string) string;
  (** [None]: no [task_operation_links_v1] table *)
  task_links : option (gset (string * string));
}.

#[global] Program Instance lens_base : Lens recon gov := {
  view := base;
  update x s := mkRecon x (operation_reconciliations s) (reconciliation_readbacks s)
                  (reconciliation_evidence s) (task_links s) }.
Solve All Obligations with by intros; try destruct s.

Record recon_env := mkReconEnv {
  e_prod : bool;
  destination_key : option string;
  readback_key : option string;
  operator_keys : option string;
  tenant_store : bool;
}.

Record review := mkReview {
  v_agent : string;
  v_operation : string;
  v_result : op_state;
  v_reference : string;
  v_evidence : string;
  v_reviewer : string;
  v_receipt : json;
  v_readback : json;
  v_signature : option string;
}.

(** What one call reads from outside. *)
Record reading := mkReading { r_time : float64; r_seconds : Z; r_stamp : string }.

(** [not x.strip() or len(x) > 512]. *)
Definition present (s : string) : bool := negb (bool_decide (strip s = "")) && (strlen s <=? 512).

(** A trusted key from the environment: unset and empty are the same. *)
Definition env_key (k : option string) : option string :=
  match k with Some "" | None => None | Some s => Some s end.

(** [BudgetManager(store)]: run [m] with a fresh manager's empty cache. *)
Definition own_manager {A} (m : M gov A) : M gov A := fun s =>
  let '(o, s') := m (update (Manager.mkManager (Manager.rows (g_bud s)) ∅) s) in
  (o, update (Manager.mkManager (Manager.rows (g_bud s')) (Manager.cache (g_bud s))) s').

Section reconciliation.
Context `{AuditCodec} `{Ed25519} `{Sha256} `{JsonText}.
Context (e : recon_env) (bundle_guard : string → recon → outcome unit).

(** [BudgetManager]'s default budget. *)
Context (dflt : Budget).

Definition err {A} (msg : string) : outcome A := Raise (ReconciliationError msg).

Definition reraise {A} (o : outcome A) (msg : string) : outcome A :=
  match o with Ok a => Ok a | Raise _ => err msg end.

(** [_verify_evidence]: the readback digest, [None] outside production. *)
Definition verify_evidence (v : review) (fp : string) (now : Z) : outcome (option string) :=
  if negb (e_prod e) then Ok None
  else
    match env_key (destination_key e), v_receipt v with
    | Some key, JObj receipt =>
        digest ← reraise (verify_destination_receipt (JObj receipt) (v_agent v) (v_operation v) fp key)
                   "untrusted destination receipt";
        _ ← guard_or (is_text (state_text (v_result v)) (field "outcome" receipt) &&
                      is_text (v_reference v) (field "external_reference" receipt) &&
                      bool_decide (v_evidence v = digest))
                     (ReconciliationError "destination receipt does not match settlement");
        match env_key (readback_key e), v_readback v with
        | Some rkey, JObj readback =>
            rdigest ← reraise (verify_readback_attestation (JObj readback) (v_agent v) (v_operation v) fp
                                 (state_text (v_result v)) (v_reference v) digest rkey key now)
                        "untrusted independent state readback";
            _ ← reraise (verify_operator_review (v_reviewer v) (v_agent v) (v_operation v) fp
                           (state_text (v_result v)) (v_reference v) digest rdigest (v_signature v)
                           (operator_keys e))
                  "authorized signed operator review required";
            Ok (Some rdigest)
        | _, _ => err "independent state-readback attestation required in production"
        end
    | _, _ => err "verified destination receipt required in production"
    end.

Definition bundle_json (v : review) : json :=
  JObj [("destination_receipt", v_receipt v); ("readback_attestation", v_readback v);
        ("reviewer_signature_hex", match v_signature v with Some s => JStr s | None => JNull end);
        ("trust_context", JObj [])].

(** The audit entry's reason. *)
Definition settlement_reason (v : review) (readback : option string) (bundle_digest : string) : string :=
  json_dumps (JObj
    [("agent_id", JStr (v_agent v)); ("destination_receipt_sha256", JStr (v_evidence v));
     ("evidence_bundle_sha256", JStr bundle_digest); ("external_reference", JStr (v_reference v));
     ("operation_id", JStr (v_operation v));
     ("readback_sha256", match readback with Some d => JStr d | None => JNull end);
     ("trust_context", JObj [])]).

Definition key_of (v : review) : string * string := (v_agent v, v_operation v).

(** [_append_settlement_evidence]. *)
Definition append_evidence (v : review) (readback : option string) (x : reading) : M recon unit :=
  _ ← ensure (json_finite (bundle_json v)) (ValueError "Out of range float values are not JSON compliant");
  let text := canonical_dumps (bundle_json v) in
  s ← get;
  _ ← lift (bundle_guard text s);
  _ ← ensure (bool_decide (reconciliation_evidence s !! key_of v = None))
             (IntegrityError "reconciliation_evidence");
  _ ← put (mkRecon (base s) (operation_reconciliations s) (reconciliation_readbacks s)
             (<[key_of v := text]> (reconciliation_evidence s)) (task_links s));
  _ ← zoom (S := recon) (T := gov) (zoom (AuditLog.Sql.record
         (AuditLog.mkEvent (v_reviewer v) "reconcile_operation" "operator" "destination"
            "settle_unknown_operation" (state_text (v_result v))
            (settlement_reason v readback (sha256_hex text)) fzero) (r_stamp x)));
  mret tt.

(** The settlement proper: the operation's own reservation if it has one. *)
Definition settle_reviewed (v : review) (t : float64) : M gov unit :=
  s ← get;
  match reservations (g_led s) !! key_of v with
  | Some tok =>
      catch (_ ← own_manager (settle_owned_reservation dflt (v_agent v) (v_operation v) tok (v_result v) None t);
             mret tt)
        (fun x => if is_value_error x || match x with OperationConflict _ => true | _ => false end
                  then Some (raise (ReconciliationError "reserved budget token missing; cannot settle"))
                  else None)
  | None => finish (v_agent v) (v_operation v) (v_result v) t
  end.

Definition locked (v : review) : M gov op_row :=
  catch (lock_unknown_operation (v_agent v) (v_operation v))
    (fun x => match x with
              | OperationConflict _ => Some (raise (ReconciliationError "operation missing or no longer unknown"))
              | _ => None
              end).

Definition task_linked (v : review) (s : recon) : bool :=
  tenant_store e && match task_links s with Some l => bool_decide (key_of v ∈ l) | None => false end.

Definition record (v : review) (x : reading) : M recon (option string) :=
  _ ← ensure (bool_decide (v_result v ≠ unknown))
             (ReconciliationError "operator must determine succeeded or failed");
  _ ← ensure (forallb present [v_agent v; v_operation v; v_reference v; v_reviewer v])
             (ReconciliationError "missing reviewer or external reference");
  _ ← ensure (sha256_text (v_evidence v))
             (ReconciliationError "independent evidence SHA256 digest required");
  atomic (
    row ← zoom (locked v);
    s ← get;
    _ ← ensure (negb (task_linked v s))
               (ReconciliationError "task-linked operation requires task-aware verified reconciliation");
    readback ← lift (verify_evidence v (fingerprint row) (r_seconds x));
    _ ← ensure (bool_decide (operation_reconciliations s !! key_of v = None))
               (IntegrityError "operation_reconciliations");
    _ ← put (mkRecon (base s)
               (<[key_of v := mkSettlement (v_result v) (v_reference v) (v_evidence v) (v_reviewer v) (r_time x)]>
                  (operation_reconciliations s))
               (reconciliation_readbacks s) (reconciliation_evidence s) (task_links s));
    _ ← zoom (settle_reviewed v (r_time x));
    _ ← match readback with
        | None => mret tt
        | Some d =>
            s ← get;
            _ ← ensure (bool_decide (reconciliation_readbacks s !! key_of v = None))
                       (IntegrityError "reconciliation_readbacks");
            put (mkRecon (base s) (operation_reconciliations s)
                   (<[key_of v := d]> (reconciliation_readbacks s)) (reconciliation_evidence s) (task_links s))
        end;
    _ ← append_evidence v readback x;
    mret readback).

(** ** Effects *)

(** The budget row a settlement leaves behind. *)
Lemma settle_owned_row ag o tok out expected t s c s' :
  settle_owned_reservation dflt ag o tok out expected t s = (Ok c, s') →
  ∃ b row row', Manager.rows (g_bud s') = <[ag := state b]> (Manager.rows (g_bud s)) ∧
    reserved b = dict_pop tok (reserved_of ag s) ∧ out ≠ unknown ∧
    ops (g_led s) !! (ag, o) = Some row ∧ op_st row' = out ∧ fingerprint row' = fingerprint row ∧
    ops (g_led s') = <[(ag, o) := row']> (ops (g_led s)) ∧
    reservations (g_led s') = reservations (g_led s).
Proof.
  intros Hr. unfold settle_owned_reservation in Hr.
  apply bind_Ok_inv in Hr as (u0 & s0 & He & Hr). apply ensure_Ok_inv in He as [Hout%bool_decide_eq_true ->].
  rewrite run_get in Hr.
  apply bind_Ok_inv in Hr as (u1 & s0 & He & Hr). apply ensure_Ok_inv in He as [_ ->].
  destruct (dict_get tok (reserved_of ag s)) as [amount|] eqn:Hg; [|done].
  assert (∃ r, Manager.rows (g_bud s) !! ag = Some r) as [r Hrow].
  { unfold reserved_of, budget_rows in Hg. simpl in Hg.
    destruct (Manager.rows (g_bud s) !! ag); [by eexists|done]. }
  assert (reserved (Manager.current dflt (g_bud s) ag) = reserved_of ag s) as Hres.
  { unfold Manager.current, Manager.seed, reserved_of, budget_rows. simpl. by rewrite Hrow. }
  apply bind_Ok_inv in Hr as (c' & s0 & Hl & Hr). apply lift_Ok_inv in Hl as [_ ->].
  apply bind_Ok_inv in Hr as (u2 & s0 & He & Hr). apply ensure_Ok_inv in He as [_ ->].
  apply bind_Ok_inv in Hr as (ch & s1 & Hch & Hr).
  apply bind_Ok_inv in Hr as (u3 & s2 & He & Hr). apply ensure_Ok_inv in He as [-> ->].
  apply bind_Ok_inv in Hr as (u4 & s3 & Hfin & Hr). injection Hr as _ <-.
  apply finish_effect in Hfin as (Hb & Hrs & row & row' & Hop & Hst & Hfp & Hops).
  assert (g_led s1 = g_led s ∧ ∃ b, reserved b = dict_pop tok (reserved_of ag s) ∧
            Manager.rows (g_bud s1) = <[ag := state b]> (Manager.rows (g_bud s))) as (Hl & b & Hrb & Hrows).
  { unfold zoom in Hch. destruct (bool_decide (out = succeeded)).
    - rewrite Manager.commit_run in Hch. injection Hch as _ <-. split; [done|].
      exists (Manager.commit_mutator tok t (Manager.current dflt (g_bud s) ag)).2. split; [|done].
      unfold Manager.commit_mutator. by rewrite Hres, Hg.
    - rewrite Manager.release_run in Hch. injection Hch as _ <-. split; [done|].
      exists (Manager.release_mutator tok (Manager.current dflt (g_bud s) ag)).2. split; [|done].
      unfold Manager.release_mutator. by rewrite Hres, Hg. }
  exists b, row, row'. rewrite Hl in *. rewrite Hb. split_and!; done.
Qed.

(** Settling through a manager of its own resolves the operation for every
    other manager of the store, whatever its default budget. *)
Lemma own_manager_resolves gw ag o tok out expected t s c s' row :
  steady gw (g_bud s) → ops (g_led s) !! (ag, o) = Some row → op_st row = unknown →
  own_manager (settle_owned_reservation dflt ag o tok out expected t) s = (Ok c, s') →
  resolves gw ag o tok out s s'.
Proof.
  intros Hs Hop Hun. unfold own_manager.
  destruct (settle_owned_reservation _ _ _ _ _ _ _ _) as [r s1] eqn:Hset. intros [= -> <-].
  apply settle_owned_row in Hset as (b & row0 & row' & Hrows & Hrb & Hout & Hop0 & Hst & Hfp & Hops & Hrs).
  simpl in *. split_and!; [done| |done|].
  - exists row0, row'. split_and!; try done. congruence.
  - assert (Manager.mkManager (Manager.rows (g_bud s1)) (Manager.cache (g_bud s)) =
            Manager.store_row ag b (g_bud s)) as -> by (unfold Manager.store_row; by rewrite Hrows).
    split; [|apply steady_store_row]. intros ag'. cbn [g_bud]. rewrite held_store_row. case_decide; [|done].
    rewrite Hrb, <-(reserved_of_held gw s ag Hs). done.
Qed.

Lemma locked_effect v s row s' :
  locked v s = (Ok row, s') → s' = s ∧ ops (g_led s) !! key_of v = Some row ∧ op_st row = unknown.
Proof.
  unfold locked, catch. destruct (lock_unknown_operation _ _ s) as [[r|x] s1] eqn:Hl.
  - intros [= <- <-]. by apply lock_effect in Hl.
  - destruct x; done.
Qed.

Lemma settle_reviewed_resolves gw v t s u s' tok row :
  steady gw (g_bud s) → reservations (g_led s) !! key_of v = Some tok →
  ops (g_led s) !! key_of v = Some row → op_st row = unknown →
  settle_reviewed v t s = (Ok u, s') →
  resolves gw (v_agent v) (v_operation v) tok (v_result v) s s'.
Proof.
  intros Hs Htok Hop Hun. unfold settle_reviewed. rewrite run_get, Htok. unfold catch.
  rewrite run_bind. destruct (own_manager _ s) as [[c|x] s1] eqn:Hown.
  - intros [= <- <-]. by eapply own_manager_resolves.
  - match goal with |- context [if ?b then _ else _] => destruct b end; discriminate.
Qed.

Lemma append_evidence_base v rb x (s : recon) u s' :
  append_evidence v rb x s = (Ok u, s') →
  g_led (base s') = g_led (base s) ∧ g_bud (base s') = g_bud (base s) ∧
  operation_reconciliations s' = operation_reconciliations s ∧
  reconciliation_readbacks s' = reconciliation_readbacks s ∧
  reconciliation_evidence s' !! key_of v = Some (canonical_dumps (bundle_json v)).
Proof.
  unfold append_evidence. intros Hr.
  apply bind_Ok_inv in Hr as (u0 & s0 & He & Hr). apply ensure_Ok_inv in He as [_ ->].
  rewrite run_get in Hr. apply bind_Ok_inv in Hr as (u1 & s0 & He & Hr). apply lift_Ok_inv in He as [_ ->].
  apply bind_Ok_inv in Hr as (u2 & s0 & He & Hr). apply ensure_Ok_inv in He as [_ ->].
  apply bind_Ok_inv in Hr as (u3 & s0 & Hp & Hr). apply put_Ok_inv in Hp as ->.
  apply bind_Ok_inv in Hr as (en & s0 & Ha & Hr). injection Hr as _ <-.
  unfold zoom in Ha. destruct (AuditLog.Sql.record _ _ _) as [r db]. injection Ha as _ <-. simpl.
  split_and!; try done. by rewrite lookup_insert_eq.
Qed.

(** Everything a successful [record] went through. *)
Lemma record_runs v x s rb s' :
  record v x s = (Ok rb, s') →
  ∃ row s1 g2, ops (g_led (base s)) !! key_of v = Some row ∧ op_st row = unknown ∧
    verify_evidence v (fingerprint row) (r_seconds x) = Ok rb ∧
    base s1 = base s ∧ settle_reviewed v (r_time x) (base s) = (Ok tt, g2) ∧
    g_led (base s') = g_led g2 ∧ g_bud (base s') = g_bud g2 ∧
    operation_reconciliations s' !! key_of v =
      Some (mkSettlement (v_result v) (v_reference v) (v_evidence v) (v_reviewer v) (r_time x)) ∧
    reconciliation_evidence s' !! key_of v = Some (canonical_dumps (bundle_json v)).
Proof.
  unfold record. intros Hr.
  apply bind_Ok_inv in Hr as (u0 & s0 & He & Hr). apply ensure_Ok_inv in He as [_ ->].
  apply bind_Ok_inv in Hr as (u1 & s0 & He & Hr). apply ensure_Ok_inv in He as [_ ->].
  apply bind_Ok_inv in Hr as (u2 & s0 & He & Hr). apply ensure_Ok_inv in He as [_ ->].
  apply (proj1 (atomic_Ok _ _ _ _)) in Hr.
  apply bind_Ok_inv in Hr as (row & s0 & Hlock & Hr).
  unfold zoom in Hlock. destruct (locked v _) as [o g0] eqn:Hl. injection Hlock as -> <-.
  apply locked_effect in Hl as (-> & Hop & Hun). simpl in Hop.
  rewrite run_get in Hr.
  apply bind_Ok_inv in Hr as (u3 & s0 & He & Hr). apply ensure_Ok_inv in He as [_ ->].
  apply bind_Ok_inv in Hr as (rb' & s0 & He & Hr). apply lift_Ok_inv in He as [Hev ->].
  apply bind_Ok_inv in Hr as (u4 & s0 & He & Hr). apply ensure_Ok_inv in He as [_ ->].
  apply bind_Ok_inv in Hr as (u5 & s0 & Hp & Hr). apply put_Ok_inv in Hp as ->.
  apply bind_Ok_inv in Hr as (u6 & s1 & Hset & Hr). unfold zoom in Hset. simpl in Hset.
  destruct (settle_reviewed v (r_time x) (base s)) as [o g2] eqn:Hs. injection Hset as -> <-. destruct u6.
  apply bind_Ok_inv in Hr as (u7 & s2 & Hrb & Hr). apply bind_Ok_inv in Hr as (u8 & s3 & Happ & Hr).
  injection Hr as <- <-.
  assert (base s2 = g2 ∧ operation_reconciliations s2 = <[key_of v := mkSettlement (v_result v) (v_reference v)
            (v_evidence v) (v_reviewer v) (r_time x)]> (operation_reconciliations s)) as [Hb2 Ho2].
  { destruct rb' as [d|]; [|by injection Hrb as _ <-]. rewrite run_get in Hrb.
    apply bind_Ok_inv in Hrb as (u9 & s4 & He & Hp). apply ensure_Ok_inv in He as [_ ->].
    by apply put_Ok_inv in Hp as ->. }
  apply append_evidence_base in Happ as (Hl3 & Hb3 & Ho3 & _ & Hev3).
  exists row, s, g2. rewrite Hl3, Hb3, Ho3, Ho2, Hb2, lookup_insert_eq. done.
Qed.

(** A manual reconciliation settles exactly the operation it names: the
    unknown operation gets the reviewed outcome once, its own reservation and
    nothing else is returned, and the settlement and its evidence are recorded;
    any refusal leaves the store untouched. *)
Theorem reconciliation_settles gw v x s o s' tok :
  steady gw (g_bud (base s)) → reservations (g_led (base s)) !! key_of v = Some tok →
  record v x s = (o, s') →
  match o with
  | Raise _ => s' = s
  | Ok _ =>
      resolves gw (v_agent v) (v_operation v) tok (v_result v) (base s) (base s') ∧
      operation_reconciliations s' !! key_of v =
        Some (mkSettlement (v_result v) (v_reference v) (v_evidence v) (v_reviewer v) (r_time x)) ∧
      reconciliation_evidence s' !! key_of v = Some (canonical_dumps (bundle_json v))
  end.
Proof.
  intros Hs Htok Hr. destruct o as [rb|err1].
  - apply record_runs in Hr as (row & s1 & g2 & Hop & Hun & _ & _ & Hset & Hl & Hb & Ho & Hev).
    split; [|done]. eapply settle_reviewed_resolves in Hset; [|done..].
    destruct Hset as (Hne & Hrows & Hrs & Hh). unfold resolves. rewrite Hl, Hb. done.
  - unfold record in Hr. revert Hr. do 3 (apply rolls_back_bind; [auto with agentbridge|intros _]).
    auto with agentbridge.
Qed.

Lemma reraise_Ok {A} (o : outcome A) msg a : reraise o msg = Ok a → o = Ok a.
Proof. by destruct o. Qed.

(** C18: in production an operation is only settled by hand with a receipt
    signed by the trusted destination for this very request and outcome, a
    readback of that receipt signed by a different trusted key, and a signature
    of an enrolled operator over both. *)
Theorem production_settlement_evidence v x s rb s' :
  e_prod e = true → record v x s = (Ok rb, s') →
  ∃ row key rkey receipt readback allowed okey sig,
    ops (g_led (base s)) !! key_of v = Some row ∧
    env_key (destination_key e) = Some key ∧ env_key (readback_key e) = Some rkey ∧
    key_bytes rkey ≠ key_bytes key ∧
    v_receipt v = JObj receipt ∧ v_readback v = JObj readback ∧
    is_text (v_operation v) (field "operation_id" receipt) = true ∧
    is_text (fingerprint row) (field "fingerprint" receipt) = true ∧
    is_text (state_text (v_result v)) (field "outcome" receipt) = true ∧
    ed_verify key (canonical_receipt_payload receipt) (text_or_empty (field "signature_hex" receipt)) = true ∧
    v_evidence v = sha256_hex (canonical_receipt_payload receipt) ∧
    is_text (v_evidence v) (field "destination_receipt_sha256" readback) = true ∧
    ed_verify rkey (canonical_readback_payload readback)
      (text_or_empty (field "signature_hex" readback)) = true ∧
    (json_loads <$> operator_keys e) = Some (Ok (JObj allowed)) ∧
    field (v_reviewer v) allowed = JStr okey ∧ v_signature v = Some sig ∧
    ed_verify okey (review_payload (v_reviewer v) (v_agent v) (v_operation v) (fingerprint row)
      (state_text (v_result v)) (v_reference v) (v_evidence v)
      (sha256_hex (canonical_readback_payload readback))) sig = true.
Proof.
  intros Hprod Hr. apply record_runs in Hr as (row & s1 & g2 & Hop & _ & Hev & _).
  unfold verify_evidence in Hev. rewrite Hprod in Hev. cbn [negb] in Hev.
  destruct (env_key (destination_key e)) as [key|] eqn:Hk; [|done].
  destruct (v_receipt v) as [| | | | | |receipt] eqn:Hrc; try done.
  apply outcome_bind_Ok in Hev as (digest & Hvd%reraise_Ok & Hev). apply receipt_accepted in Hvd as (m & [= <-] & Hdg & Ha1 & Ha2 & Ha3 & Ha4).
  apply outcome_bind_Ok in Hev as (u1 & Hm%guard_or_Ok & Hev).
  apply andb_true_iff in Hm as [[Hm1 Hm2]%andb_true_iff Hm3%bool_decide_eq_true].
  destruct (env_key (readback_key e)) as [rkey|] eqn:Hrk; [|done].
  destruct (v_readback v) as [| | | | | |readback] eqn:Hrb; try done.
  apply outcome_bind_Ok in Hev as (rdigest & Hvr%reraise_Ok & Hev). apply readback_accepted in Hvr as (m & [= <-] & Hrd & Hb1 & Hb2 & Hb3 & Hb4 & Hb5 & Hb6).
  apply outcome_bind_Ok in Hev as ([] & Hvo%reraise_Ok & Hev). apply review_accepted in Hvo as (text & allowed & okey & sig & Ho1 & Ho2 & Ho3 & Ho4 & Ho5).
  exists row, key, rkey, receipt, readback, allowed, okey, sig.
  rewrite Ho1. simpl. rewrite Ho2. subst digest rdigest. rewrite Hm3. split_and!; done.
Qed.
End reconciliation.

(** ** A concrete settlement *)

Definition repeat_text (c : string) : string := String.concat EmptyString (replicate 64 c).

#[local] Instance recon_digest : Sha256 | 0 := { sha256_hex _ := repeat_text "d" }.
#[local] Existing Instance hex_ed25519 | 0.

Definition demo_recon : recon := mkRecon demo_s1 ∅ ∅ ∅ None.

Definition demo_receipt : json :=
  JObj [("agent_id", JStr "al"); ("operation_id", JStr "op-1"); ("fingerprint", JStr "digest");
        ("outcome", JStr "failed"); ("external_reference", JStr "ref");
        ("signature_hex", JStr demo_signature)].

Definition demo_readback : json :=
  JObj [("agent_id", JStr "al"); ("operation_id", JStr "op-1"); ("fingerprint", JStr "digest");
        ("outcome", JStr "failed"); ("external_reference", JStr "ref"); ("observed_at", JInt 100);
        ("source", JStr "sql"); ("source_evidence_sha256", JStr (repeat_text "c"));
        ("destination_receipt_sha256", JStr (repeat_text "d")); ("signature_hex", JStr demo_signature)].

Definition demo_recon_env : recon_env :=
  mkReconEnv true (Some (repeat_text "a")) (Some (repeat_text "b"))
    (Some (json_dumps (JObj [("ann", JStr (repeat_text "e"))]))) false.

Definition demo_review : review :=
  mkReview "al" "op-1" failed "ref" (repeat_text "d") "ann" demo_receipt demo_readback (Some demo_signature).

Definition demo_reading : reading := mkReading (FFin 8) 100 "t1".

Definition demo_record : outcome (option string) * recon :=
  record demo_recon_env (fun _ _ => Ok tt) (mkBudget (FFin 5) 5 (FFin 60) fzero [] [])
    demo_review demo_reading demo_recon.

Lemma demo_recorded : demo_record = (Ok (Some (repeat_text "d")), demo_record.2).
Proof. vm_compute. reflexivity. Qed.

Lemma demo_steady : steady demo_budget (g_bud (base demo_recon)).
Proof. exact (acc_steady _ _ _ _ (reachable_accounted _ _ _ _ _ _ _ _ _ _ demo_is_reachable)). Qed.

Lemma reconciliation_settles_witness :
  resolves demo_budget "al" "op-1" "tok-1" failed (base demo_recon) (base demo_record.2).
Proof.
  exact (proj1 (reconciliation_settles demo_recon_env (fun _ _ => Ok tt)
    (mkBudget (FFin 5) 5 (FFin 60) fzero [] []) demo_budget demo_review demo_reading demo_recon
    (Ok (Some (repeat_text "d"))) demo_record.2 "tok-1" demo_steady eq_refl demo_recorded)).
Defined.

Lemma production_settlement_evidence_witness :
  ∃ key rkey, key_bytes rkey ≠ key_bytes key ∧
    env_key (destination_key demo_recon_env) = Some key ∧ env_key (readback_key demo_recon_env) = Some rkey.
Proof.
  destruct (production_settlement_evidence demo_recon_env (fun _ _ => Ok tt)
    (mkBudget (FFin 5) 5 (FFin 60) fzero [] []) demo_review demo_reading demo_recon
    (Some (repeat_text "d")) demo_record.2 eq_refl demo_recorded)
    as (row & key & rkey & rest). destruct rest as (receipt & readback & allowed & okey & sig & _ & Hk & Hr & Hne & _).
  by exists key, rkey.
Defined.
