(* ===== verification/Fencing.v ===== *)
(** * Fencing

    Models src/governance/pg_fencing.py, the fenced effects of
    src/governance/fenced_postgres_destination.py and the version 1 lease and
    commit of src/governance/fenced_sqlite_destination.py: a lease with a
    monotonic epoch, checked by the destination in the transaction that writes
    the effect.

    PostgreSQL times are microseconds, SQLite times are floats.  Each operation
    reads the database clock once, after it holds the row. *)

From stdpp Require Import base list gmap strings relations.
From Stdlib Require Import ZArith Lia.
From S2P Require Import Prelude PyFloat Identity Json Evidence.

Local Open Scope Z_scope.

Record fence (T : Type) := mkFence { f_owner : string; f_epoch : Z; f_expires : T }.
Arguments mkFence {T} _ _ _.
Arguments f_owner {T} _.
Arguments f_epoch {T} _.
Arguments f_expires {T} _.

Record effect_row := mkEffect {
  ef_fingerprint : string;
  ef_outcome : string;
  ef_reference : string;
  ef_receipt : json;
}.

(** A destination: its fences by scope, its effects by agent and operation. *)
Record destination (T : Type) := mkDestination {
  fences : gmap string (fence T);
  effects : gmap (string * string) effect_row;
}.
Arguments mkDestination {T} _ _.
Arguments fences {T} _.
Arguments effects {T} _.

Definition empty_destination {T} : destination T := mkDestination ∅ ∅.

Definition bounded (n : Z) (s : string) : bool := (1 <=? strlen s) && (strlen s <=? n).

(** One effect an operator asks for. *)
Record action := mkAction {
  a_scope : string;
  a_owner : string;
  a_epoch : Z;
  a_agent : string;
  a_operation : string;
  a_fingerprint : string;
  lose_ack : bool;
}.

Definition action_key (a : action) : string * string := (a_agent a, a_operation a).

Definition receipt_fields (a : action) (reference : string) : list (string * json) :=
  [("agent_id", JStr (a_agent a)); ("operation_id", JStr (a_operation a));
   ("fingerprint", JStr (a_fingerprint a)); ("outcome", JStr "succeeded");
   ("external_reference", JStr reference)].

Section receipts.
Context `{JsonText}.

(** The destination's signing callback; a signature is 64 bytes, in hex here. *)
Context (sign : string → outcome string).

Definition signed_receipt (a : action) (reference why : string) : outcome json :=
  let fields := receipt_fields a reference in
  s ← sign (canonical_receipt_payload fields);
  _ ← guard_or (strlen s =? 128) (ValueError why);
  Ok (JObj (fields ++ [("signature_hex", JStr s)])).

Definition effect_of (a : action) (reference : string) (receipt : json) : effect_row :=
  mkEffect (a_fingerprint a) "succeeded" reference receipt.

(** [if lose_ack: raise TimeoutError(...)] after the commit. *)
Definition acknowledge {S} (a : action) (receipt : json) (why : string) : M S json :=
  if lose_ack a then raise (TimeoutError why) else mret receipt.
End receipts.

(** ** PostgreSQL *)
Module Pg.
Section pg.
(** [ttl * interval '1 second'], in microseconds. *)
Context (interval : pynum → Z).

Definition validate (scope owner : string) : outcome unit :=
  guard_or (bounded 128 scope && bounded 128 owner)
           (FenceDenied "scope and owner must be nonempty bounded identities").

(** A finite number in [0.5, 3600], not a bool. *)
Definition ttl_ok (ttl : pynum) : bool :=
  match ttl with
  | PInt n => (1 <=? n) && (n <=? 3600)
  | PFloat f => fisfinite f && fleb (FFin (2 ^ 1073)) f && fleb f (fl 3600)
  | _ => false
  end.

Definition acquire (scope owner : string) (ttl : pynum) (now : Z) : M (destination Z) Z :=
  _ ← lift (validate scope owner);
  _ ← ensure (ttl_ok ttl) (FenceDenied "invalid bounded lease duration");
  d ← get;
  match fences d !! scope with
  | None =>
      _ ← put (mkDestination (<[scope := mkFence owner 1 (now + interval ttl)]> (fences d)) (effects d));
      mret 1
  | Some f =>
      if f_expires f <=? now then
        _ ← put (mkDestination (<[scope := mkFence owner (f_epoch f + 1) (now + interval ttl)]> (fences d))
                   (effects d));
        mret (f_epoch f + 1)
      else raise (FenceDenied "leadership already held")
  end.

Definition live (f : fence Z) (owner : string) (epoch now : Z) : bool :=
  bool_decide (f_owner f = owner) && (f_epoch f =? epoch) && (now <? f_expires f).

Definition renew (scope owner : string) (epoch : Z) (ttl : pynum) (now : Z) : M (destination Z) Z :=
  _ ← lift (validate scope owner);
  _ ← ensure ((1 <=? epoch) && ttl_ok ttl) (FenceDenied "invalid fence token or lease duration");
  d ← get;
  match fences d !! scope with
  | Some f =>
      if live f owner epoch now then
        _ ← put (mkDestination (<[scope := mkFence owner epoch (now + interval ttl)]> (fences d)) (effects d));
        mret epoch
      else raise (FenceDenied "stale or expired fencing epoch")
  | None => raise (FenceDenied "stale or expired fencing epoch")
  end.

Definition check (scope owner : string) (epoch : Z) (now : Z) : M (destination Z) bool :=
  _ ← lift (validate scope owner);
  gets (fun d => if epoch <? 1 then false
                 else match fences d !! scope with
                      | Some f => live f owner epoch now
                      | None => false
                      end).

(** [FencedPostgresDestination.commit]: sign first, then fence and effect in
    one transaction. *)
Definition commit `{JsonText} (sign : string → outcome string) (a : action) (now : Z)
  : M (destination Z) json :=
  _ ← ensure (forallb (bounded 256) [a_scope a; a_owner a; a_agent a; a_operation a; a_fingerprint a])
             (ValueError "exact destination identifiers required");
  _ ← ensure (1 <=? a_epoch a) (ValueError "valid fencing epoch required");
  let reference := ("pg-fenced-effect:" +:+ a_operation a)%string in
  receipt ← lift (signed_receipt sign a reference "invalid destination signer");
  _ ← atomic (
    d ← get;
    match fences d !! a_scope a with
    | None => raise (StaleDestinationLeader "destination rejected stale or expired fence")
    | Some f =>
        _ ← ensure (live f (a_owner a) (a_epoch a) now)
                   (StaleDestinationLeader "destination rejected stale or expired fence");
        _ ← ensure (bool_decide (effects d !! action_key a = None))
                   (DuplicateDestinationAction "effect already committed; no second write allowed");
        put (mkDestination (fences d) (<[action_key a := effect_of a reference receipt]> (effects d)))
    end);
  acknowledge a receipt "destination commit succeeded but ACK was lost".
End pg.
End Pg.

(** ** SQLite, version 1 contract *)
Module Sqlite.
Definition acquire (scope owner : string) (ttl : Z) (now : float64) : M (destination float64) Z :=
  _ ← ensure (bounded 128 scope && bounded 128 owner) (ValueError "bounded scope and owner required");
  _ ← ensure ((1 <=? ttl) && (ttl <=? 3600)) (ValueError "bounded integer TTL required");
  atomic (
    d ← get;
    let row := fences d !! scope in
    _ ← ensure (match row with None => true | Some f => negb (fgtb (f_expires f) now) end)
               (SqliteFenceDenied "an authoritative destination owner is already live");
    let epoch := match row with None => 1 | Some f => f_epoch f + 1 end in
    _ ← put (mkDestination (<[scope := mkFence owner epoch (fadd now (fl ttl))]> (fences d)) (effects d));
    mret epoch).

Definition live (f : fence float64) (owner : string) (epoch : Z) (now : float64) : bool :=
  bool_decide (f_owner f = owner) && (f_epoch f =? epoch) && negb (fleb (f_expires f) now).

(** [queued] says the file is a queued-only destination. *)
Definition commit `{JsonText} (sign : string → outcome string) (queued : bool) (a : action) (now : float64)
  : M (destination float64) json :=
  _ ← ensure (negb queued) (ValueError "queued-only destination rejects the v1 commit contract");
  _ ← ensure (forallb (bounded 128) [a_scope a; a_owner a; a_agent a; a_operation a; a_fingerprint a])
             (ValueError "exact bounded operation identity required");
  _ ← ensure (1 <=? a_epoch a) (ValueError "valid monotonic destination epoch required");
  let reference := ("sqlite-fenced-effect:" +:+ a_operation a)%string in
  receipt ← atomic (
    d ← get;
    _ ← ensure (match fences d !! a_scope a with
                | Some f => live f (a_owner a) (a_epoch a) now
                | None => false
                end)
               (SqliteFenceDenied "stale, expired or unauthorized destination epoch");
    _ ← ensure (bool_decide (effects d !! action_key a = None))
               (SqliteDuplicateEffect "operation was already executed at the destination");
    receipt ← lift (signed_receipt sign a reference "destination signature invalid");
    _ ← put (mkDestination (fences d) (<[action_key a := effect_of a reference receipt]> (effects d)));
    mret receipt);
  acknowledge a receipt "committed SQLite destination effect; acknowledgement dropped".
End Sqlite.

(** ** What fencing guarantees *)

Inductive fevent :=
| EAcquire (scope owner : string) (epoch : Z)
| ECommit (scope owner : string) (epoch : Z) (key : string * string).

(** The latest holder of a scope in a log. *)
Fixpoint leader (scope : string) (log : list fevent) : option (string * Z) :=
  match log with
  | [] => None
  | ev :: log' =>
      match leader scope log' with
      | Some x => Some x
      | None => match ev with
                | EAcquire sc ow ep => if decide (sc = scope) then Some (ow, ep) else None
                | ECommit _ _ _ _ => None
                end
      end
  end.

Definition commits_key (k : string * string) (ev : fevent) : Prop :=
  match ev with ECommit _ _ _ k' => k' = k | EAcquire _ _ _ => False end.

(** Each acquisition takes the next epoch of its scope; each effect is written
    for the scope's latest holder, and once. *)
Definition fenced_event (past : list fevent) (ev : fevent) : Prop :=
  match ev with
  | EAcquire sc _ ep => ep = match leader sc past with Some (_, e) => e + 1 | None => 1 end
  | ECommit sc ow ep k => leader sc past = Some (ow, ep) ∧ Forall (fun e => ¬ commits_key k e) past
  end.

Definition fenced (log : list fevent) : Prop :=
  ∀ l1 ev l2, log = l1 ++ ev :: l2 → fenced_event l1 ev.

Lemma leader_snoc scope log ev :
  leader scope (log ++ [ev]) =
    match ev with
    | EAcquire sc ow ep => if decide (sc = scope) then Some (ow, ep) else leader scope log
    | ECommit _ _ _ _ => leader scope log
    end.
Proof.
  induction log as [|e log IH]; simpl.
  - by destruct ev; [case_decide|].
  - rewrite IH. destruct ev; [|done]. by case_decide.
Qed.

Lemma fenced_snoc log ev : fenced log → fenced_event log ev → fenced (log ++ [ev]).
Proof.
  intros Hl Hev l1 x l2 Heq. destruct l2 as [|y l2 _] using rev_ind.
  - apply app_inj_tail in Heq as [-> ->]. done.
  - rewrite app_comm_cons, app_assoc in Heq. apply app_inj_tail in Heq as [-> _]. by eapply Hl.
Qed.

Section runs.
Context {T : Type}.
Implicit Types d : destination T.

(** What an operation may do to a destination, with the events it adds. *)
Inductive fstep : destination T → list fevent → destination T → Prop :=
| fs_same d : fstep d [] d
| fs_acquire d scope owner epoch x :
    epoch = match fences d !! scope with Some f => f_epoch f + 1 | None => 1 end →
    fstep d [EAcquire scope owner epoch]
      (mkDestination (<[scope := mkFence owner epoch x]> (fences d)) (effects d))
| fs_renew d scope f x :
    fences d !! scope = Some f →
    fstep d [] (mkDestination (<[scope := mkFence (f_owner f) (f_epoch f) x]> (fences d)) (effects d))
| fs_commit d scope f k row :
    fences d !! scope = Some f → effects d !! k = None →
    fstep d [ECommit scope (f_owner f) (f_epoch f) k]
      (mkDestination (fences d) (<[k := row]> (effects d))).

Record tracked d (log : list fevent) : Prop := {
  tr_leader scope : leader scope log = (fun f => (f_owner f, f_epoch f)) <$> fences d !! scope;
  tr_effects k : Exists (commits_key k) log ↔ is_Some (effects d !! k);
  tr_fenced : fenced log;
}.

Lemma tracked_empty : tracked empty_destination [].
Proof.
  split.
  - done.
  - intros k. split; [intros Hx; inversion Hx|]. by intros [row Hx].
  - intros l1 ev l2 Heq. by destruct l1.
Qed.

Lemma fstep_tracked d evs d' log : fstep d evs d' → tracked d log → tracked d' (log ++ evs).
Proof.
  destruct 1 as [d|d scope owner epoch x Hep|d scope f x Hf|d scope f k row Hf Hk]; intros [Hl He Hfen].
  - by rewrite app_nil_r.
  - split; simpl.
    + intros sc. rewrite leader_snoc. case_decide as Heq.
      * subst sc. by rewrite lookup_insert_eq.
      * rewrite lookup_insert_ne by done. apply Hl.
    + intros k. rewrite <-He, Exists_app, Exists_cons, Exists_nil. simpl. tauto.
    + apply fenced_snoc; [done|]. simpl. rewrite Hl, Hep. by destruct (fences d !! scope).
  - rewrite app_nil_r. split; [|done|done]. intros sc. simpl. rewrite Hl.
    destruct (decide (scope = sc)) as [<-|Hne]; [|by rewrite lookup_insert_ne].
    by rewrite lookup_insert_eq, Hf.
  - split; simpl.
    + intros sc. rewrite leader_snoc. apply Hl.
    + intros k'. rewrite Exists_app, Exists_cons, Exists_nil, He, lookup_insert_is_Some'. simpl. naive_solver.
    + apply fenced_snoc; [done|]. simpl. split; [by rewrite Hl, Hf|].
      apply Forall_forall. intros ev Hin Hc. assert (is_Some (effects d !! k)) as [? Hs].
      { apply He, Exists_exists. by exists ev. }
      congruence.
Qed.

Lemma fstep_keeps d evs d' : fstep d evs d' → effects d ⊆ effects d'.
Proof. destruct 1; simpl; [done..|]. by apply insert_subseteq. Qed.

(** A machine whose every step is one of these, on a destination and its log. *)
Context {O : Type} (stp : destination T * list fevent → O → destination T * list fevent).
Hypothesis stp_fstep : ∀ w o, ∃ evs, fstep w.1 evs (stp w o).1 ∧ (stp w o).2 = w.2 ++ evs.

Lemma fsteps_tracked ops w : tracked w.1 w.2 → tracked (foldl stp w ops).1 (foldl stp w ops).2.
Proof using stp_fstep.
  revert w. induction ops as [|o ops IH]; intros w Hw; simpl; [done|]. apply IH.
  destruct (stp_fstep w o) as (evs & Hs & ->). by eapply fstep_tracked.
Qed.

Lemma fsteps_keep ops w : effects w.1 ⊆ effects (foldl stp w ops).1.
Proof using stp_fstep.
  revert w. induction ops as [|o ops IH]; intros w; simpl; [done|].
  destruct (stp_fstep w o) as (evs & Hs & _). etrans; [by eapply fstep_keeps|apply IH].
Qed.
End runs.

(** ** Any workers, any order *)

(** What a finished operation adds to the log. *)
Definition acquired (scope owner : string) (r : outcome Z) : list fevent :=
  match r with Ok epoch => [EAcquire scope owner epoch] | Raise _ => [] end.

(** A commit that wrote an effect where there was none, or was acknowledged. *)
Definition written {T} (a : action) (r : outcome json) (d d' : destination T) : list fevent :=
  if bool_decide (effects d !! action_key a = None ∧ is_Some (effects d' !! action_key a)) ||
     match r with Ok _ => true | Raise _ => false end
  then [ECommit (a_scope a) (a_owner a) (a_epoch a) (action_key a)] else [].

Lemma written_same {T} a x (d : destination T) : written a (Raise x) d d = [].
Proof. unfold written. rewrite bool_decide_eq_false_2; [done|]. intros [Hn [? Hs]]. congruence. Qed.

Lemma written_new {T} a r (d : destination T) row :
  effects d !! action_key a = None →
  written a r d (mkDestination (fences d) (<[action_key a := row]> (effects d))) =
    [ECommit (a_scope a) (a_owner a) (a_epoch a) (action_key a)].
Proof.
  intros Hn. unfold written. rewrite bool_decide_eq_true_2; [done|]. simpl. by rewrite lookup_insert_eq.
Qed.

Lemma acknowledge_state {S} a receipt why (s : S) r s' : acknowledge a receipt why s = (r, s') → s' = s.
Proof. unfold acknowledge. destruct (lose_ack a); by intros [= <- <-]. Qed.

Section pg_runs.
Context (interval : pynum → Z) `{JsonText} (sign : string → outcome string).

Inductive pg_op :=
| PgAcquire (scope owner : string) (ttl : pynum) (now : Z)
| PgRenew (scope owner : string) (epoch : Z) (ttl : pynum) (now : Z)
| PgCommit (a : action) (now : Z).

Definition pg_step (w : destination Z * list fevent) (o : pg_op) : destination Z * list fevent :=
  let '(d, log) := w in
  match o with
  | PgAcquire scope owner ttl now =>
      let '(r, d') := Pg.acquire interval scope owner ttl now d in (d', log ++ acquired scope owner r)
  | PgRenew scope owner epoch ttl now => ((Pg.renew interval scope owner epoch ttl now d).2, log)
  | PgCommit a now => let '(r, d') := Pg.commit sign a now d in (d', log ++ written a r d d')
  end.

Definition pg_runs (ops : list pg_op) : destination Z * list fevent :=
  foldl pg_step (empty_destination, []) ops.

Lemma pg_acquire_step scope owner ttl now d r d' :
  Pg.acquire interval scope owner ttl now d = (r, d') → fstep d (acquired scope owner r) d'.
Proof.
  unfold Pg.acquire. rewrite run_bind. unfold lift. destruct (Pg.validate scope owner) as [[]|x].
  2:{ intros [= <- <-]. constructor. }
  rewrite run_bind. unfold ensure. destruct (Pg.ttl_ok ttl); [|intros [= <- <-]; constructor].
  simpl. rewrite run_get. destruct (fences d !! scope) as [f|] eqn:Hf.
  - destruct (f_expires f <=? now); intros [= <- <-]; [|constructor]. apply fs_acquire. by rewrite Hf.
  - intros [= <- <-]. apply fs_acquire. by rewrite Hf.
Qed.

Lemma live_eq f owner epoch now : Pg.live f owner epoch now = true → f_owner f = owner ∧ f_epoch f = epoch.
Proof.
  unfold Pg.live. rewrite !andb_true_iff. intros [[?%bool_decide_eq_true ?%Z.eqb_eq] _]. done.
Qed.

Lemma pg_renew_step scope owner epoch ttl now d :
  fstep d [] (Pg.renew interval scope owner epoch ttl now d).2.
Proof.
  unfold Pg.renew. rewrite run_bind. unfold lift. destruct (Pg.validate scope owner) as [[]|x]; [|constructor].
  rewrite run_bind. unfold ensure. destruct (_ && _); [|constructor]. simpl. rewrite run_get.
  destruct (fences d !! scope) as [f|] eqn:Hf; [|constructor].
  destruct (Pg.live f owner epoch now) eqn:Hlive; [|constructor].
  apply live_eq in Hlive as [<- <-]. by apply fs_renew.
Qed.

Lemma pg_commit_step a now d r d' :
  Pg.commit sign a now d = (r, d') → fstep d (written a r d d') d'.
Proof.
  unfold Pg.commit. rewrite run_bind. unfold ensure. destruct (forallb _ _).
  2:{ intros [= <- <-]. rewrite written_same. constructor. }
  simpl. rewrite run_bind. destruct (1 <=? a_epoch a).
  2:{ intros [= <- <-]. rewrite written_same. constructor. }
  simpl. rewrite run_bind. unfold lift. destruct (signed_receipt _ _ _ _) as [rc|x].
  2:{ intros [= <- <-]. rewrite written_same. constructor. }
  rewrite run_bind. unfold atomic at 1. rewrite run_get.
  destruct (fences d !! a_scope a) as [f|] eqn:Hf.
  2:{ intros [= <- <-]. rewrite written_same. constructor. }
  rewrite run_bind. destruct (Pg.live f (a_owner a) (a_epoch a) now) eqn:Hlive; simpl.
  2:{ intros [= <- <-]. rewrite written_same. constructor. }
  rewrite run_bind. case_bool_decide as Hn; simpl.
  2:{ intros [= <- <-]. rewrite written_same. constructor. }
  intros ->%acknowledge_state. rewrite written_new by done.
  apply live_eq in Hlive as [<- <-]. by apply fs_commit.
Qed.

Lemma pg_step_fstep w o : ∃ evs, fstep w.1 evs (pg_step w o).1 ∧ (pg_step w o).2 = w.2 ++ evs.
Proof.
  destruct w as [d log], o as [scope owner ttl now|scope owner epoch ttl now|a now]; simpl.
  - destruct (Pg.acquire _ _ _ _ _ d) as [r d'] eqn:Ha. eexists. split; [by eapply pg_acquire_step|done].
  - exists []. split; [apply pg_renew_step|]. by rewrite app_nil_r.
  - destruct (Pg.commit _ _ _ d) as [r d'] eqn:Ha. eexists. split; [by eapply pg_commit_step|done].
Qed.

(** C19: on PostgreSQL, whatever leases and effects any workers attempt in any
    order, each new lease of a scope takes the next epoch; every effect was
    written for the scope's latest lease holder; no operation's effect is
    written or acknowledged twice; the destination holds exactly the effects
    that were logged, and none of them is ever changed or lost by what comes
    after. *)
Theorem pg_effects_fenced ops ops' :
  fenced (pg_runs ops).2 ∧
  (∀ scope, leader scope (pg_runs ops).2 = (fun f => (f_owner f, f_epoch f)) <$> fences (pg_runs ops).1 !! scope) ∧
  (∀ k, Exists (commits_key k) (pg_runs ops).2 ↔ is_Some (effects (pg_runs ops).1 !! k)) ∧
  effects (pg_runs ops).1 ⊆ effects (pg_runs (ops ++ ops')).1.
Proof.
  unfold pg_runs. rewrite foldl_app.
  destruct (fsteps_tracked pg_step pg_step_fstep ops (empty_destination, []) tracked_empty) as [Hl He Hf].
  split_and!; [exact Hf|exact Hl|exact He|]. apply (fsteps_keep pg_step pg_step_fstep).
Qed.
End pg_runs.

Section sqlite_runs.
Context `{JsonText} (sign : string → outcome string) (queued : bool).

Inductive sqlite_op :=
| SqliteAcquire (scope owner : string) (ttl : Z) (now : float64)
| SqliteCommit (a : action) (now : float64).

Definition sqlite_step (w : destination float64 * list fevent) (o : sqlite_op)
  : destination float64 * list fevent :=
  let '(d, log) := w in
  match o with
  | SqliteAcquire scope owner ttl now =>
      let '(r, d') := Sqlite.acquire scope owner ttl now d in (d', log ++ acquired scope owner r)
  | SqliteCommit a now => let '(r, d') := Sqlite.commit sign queued a now d in (d', log ++ written a r d d')
  end.

Definition sqlite_runs (ops : list sqlite_op) : destination float64 * list fevent :=
  foldl sqlite_step (empty_destination, []) ops.

Lemma sqlite_acquire_step scope owner ttl now d r d' :
  Sqlite.acquire scope owner ttl now d = (r, d') → fstep d (acquired scope owner r) d'.
Proof.
  unfold Sqlite.acquire. rewrite run_bind. unfold ensure.
  destruct (bounded 128 scope && bounded 128 owner); [|intros [= <- <-]; constructor].
  simpl. rewrite run_bind. destruct (_ && _); [|intros [= <- <-]; constructor].
  simpl. unfold atomic. rewrite run_get. rewrite run_bind.
  match goal with |- context [(if ?b then mret tt else _) d] => destruct b end; simpl;
    intros [= <- <-]; [|constructor]. by apply fs_acquire.
Qed.

Lemma sqlite_commit_step a now d r d' :
  Sqlite.commit sign queued a now d = (r, d') → fstep d (written a r d d') d'.
Proof.
  unfold Sqlite.commit. rewrite run_bind. unfold ensure. destruct (negb queued).
  2:{ intros [= <- <-]. rewrite written_same. constructor. }
  simpl. rewrite run_bind. match goal with |- context [(if ?b then mret tt else _) d] => destruct b end.
  2:{ intros [= <- <-]. rewrite written_same. constructor. }
  simpl. rewrite run_bind. destruct (1 <=? a_epoch a).
  2:{ intros [= <- <-]. rewrite written_same. constructor. }
  simpl. rewrite run_bind. unfold atomic at 1. rewrite run_get, run_bind.
  destruct (fences d !! a_scope a) as [f|] eqn:Hf; simpl.
  2:{ intros [= <- <-]. rewrite written_same. constructor. }
  destruct (Sqlite.live f (a_owner a) (a_epoch a) now) eqn:Hlive; simpl.
  2:{ intros [= <- <-]. rewrite written_same. constructor. }
  rewrite run_bind. case_bool_decide as Hn; simpl.
  2:{ intros [= <- <-]. rewrite written_same. constructor. }
  rewrite run_bind. unfold lift. destruct (signed_receipt _ _ _ _) as [rc|x].
  2:{ intros [= <- <-]. rewrite written_same. constructor. }
  simpl. intros ->%acknowledge_state. rewrite written_new by done.
  unfold Sqlite.live in Hlive. rewrite !andb_true_iff in Hlive.
  destruct Hlive as [[<-%bool_decide_eq_true <-%Z.eqb_eq] _]. by apply fs_commit.
Qed.

Lemma sqlite_step_fstep w o : ∃ evs, fstep w.1 evs (sqlite_step w o).1 ∧ (sqlite_step w o).2 = w.2 ++ evs.
Proof.
  destruct w as [d log], o as [scope owner ttl now|a now]; simpl.
  - destruct (Sqlite.acquire _ _ _ _ d) as [r d'] eqn:Ha. eexists. split; [by eapply sqlite_acquire_step|done].
  - destruct (Sqlite.commit _ _ _ _ d) as [r d'] eqn:Ha. eexists. split; [by eapply sqlite_commit_step|done].
Qed.

(** The same for the SQLite destination. *)
Theorem sqlite_effects_fenced ops ops' :
  fenced (sqlite_runs ops).2 ∧
  (∀ scope, leader scope (sqlite_runs ops).2 =
    (fun f => (f_owner f, f_epoch f)) <$> fences (sqlite_runs ops).1 !! scope) ∧
  (∀ k, Exists (commits_key k) (sqlite_runs ops).2 ↔ is_Some (effects (sqlite_runs ops).1 !! k)) ∧
  effects (sqlite_runs ops).1 ⊆ effects (sqlite_runs (ops ++ ops')).1.
Proof.
  unfold sqlite_runs. rewrite foldl_app.
  destruct (fsteps_tracked sqlite_step sqlite_step_fstep ops (empty_destination, []) tracked_empty) as [Hl He Hf].
  split_and!; [exact Hf|exact Hl|exact He|]. apply (fsteps_keep sqlite_step sqlite_step_fstep).
Qed.
End sqlite_runs.

(** ** A takeover *)

Definition demo_action (owner : string) (epoch : Z) (op : string) : action :=
  mkAction "s" owner epoch "al" op "fp" true.

Definition demo_sign (_ : string) : outcome string := Ok (String.concat EmptyString (replicate 128 "a")).

Definition demo_interval (x : pynum) : Z := match x with PInt n => n | _ => 0 end.

(** The first owner's lease expires; after the second takes over, the first can
    write no more, and a lost acknowledgement is not written again. *)
Example pg_takeover :
  (pg_runs demo_interval demo_sign
     [PgAcquire "s" "a" (PInt 5) 0; PgCommit (demo_action "a" 1 "op-1") 3; PgAcquire "s" "b" (PInt 5) 4;
      PgAcquire "s" "b" (PInt 5) 6; PgCommit (demo_action "a" 1 "op-2") 7;
      PgCommit (demo_action "b" 2 "op-1") 8; PgCommit (demo_action "b" 2 "op-2") 9]).2 =
  [EAcquire "s" "a" 1; ECommit "s" "a" 1 ("al", "op-1"); EAcquire "s" "b" 2;
   ECommit "s" "b" 2 ("al", "op-2")].
Proof. vm_compute. reflexivity. Qed.
