(* ===== verification/StreamLeases.v ===== *)
(** * Shared stream allocations

    Models src/governance/durable_stream_leases.py and [binding_owner] of
    src/governance/tenant_kernel.py: leases on a fleet-wide stream capacity,
    bounded per tenant and per owner.  The database clock and the random
    identity of a new lease are arguments; the authority directory is only read
    (the guard holds it). *)

From stdpp Require Import base list gmap strings.
From Stdlib Require Import ZArith Lia.
From S2P Require Import AuthoritySpec Prelude PyFloat Budget Identity Authority OperationLedger Quotas Json.

Local Open Scope Z_scope.

Record FleetStreamLimits := mkFleet {
  max_streams : Z;
  max_per_tenant : Z;
  max_per_owner : Z;
  lease_seconds : pynum;
  max_seconds : pynum;
}.

#[global] Instance pynum_eq_dec : EqDecision pynum.
Proof. solve_decision. Defined.
#[global] Instance FleetStreamLimits_eq_dec : EqDecision FleetStreamLimits.
Proof. solve_decision. Defined.

(** 0.05 as a float: 0x3fa999999999999a. *)
Definition five_hundredths : float64 := FFin (7205759403792794 * 2 ^ (1074 - 57)).

Definition timing_ok (x : pynum) (hi : Z) : bool :=
  is_number x && fisfinite (num_value x) && fleb five_hundredths (num_value x) && fleb (num_value x) (fl hi).

(** [FleetStreamLimits.__post_init__]. *)
Definition validated_limits (l : FleetStreamLimits) : outcome FleetStreamLimits :=
  _ ← guard_or (within (max_streams l) 10000 && within (max_per_tenant l) 10000 &&
                within (max_per_owner l) 10000)
               (ValueError "bounded fleet stream capacity required");
  _ ← guard_or (timing_ok (lease_seconds l) 30 && timing_ok (max_seconds l) 3600)
               (ValueError "bounded fleet stream timing required");
  _ ← guard_or (negb (fgtb (num_value (lease_seconds l)) (num_value (max_seconds l))))
               (ValueError "lease must fit stream lifetime");
  Ok l.

Record StreamLease := mkLease { l_identity : string; l_tenant : string; l_owner : string; l_scope : string }.

Record lease_row := mkLeaseRow {
  w_tenant : string;
  w_owner : string;
  w_scope : string;
  w_expires : float64;
  w_deadline : float64;
}.

(** [stream_lease_policy_v1] and [stream_leases_v1]; [None] before they exist. *)
Record lease_db := mkLeases {
  lease_policy : option (Z * FleetStreamLimits);
  leases : gmap string lease_row;
}.

Definition set_leases x d := mkLeases (lease_policy d) x.

Section leases.
Context `{SealScheme} `{Sha256} `{JsonText}.
Context (owner_json : string → string → string → string → string).
(** This replica's limits. *)
Context (limits : FleetStreamLimits).

(** [binding_owner]. *)
Definition binding_owner (p : Principal) : outcome string :=
  let material :=
    _ ← guard_or (is_agent_kind (kind p)) (ValueError "agent resource owner required");
    _ ← guard_or ((1 <=? strlen (issuer p)) && (strlen (issuer p) <=? 2048) && printable (issuer p))
                 (ValueError "invalid issuer");
    t ← match tenant_id p with
        | Some t => identifier t "tenant_id"
        | None => Raise (ValueError "invalid bounded tenant_id")
        end;
    s ← check_subject (subject p);
    ag ← match p_agent_id p with
         | Some a => identifier a "agent_id"
         | None => Raise (ValueError "invalid bounded agent_id")
         end;
    caps ← scopes (capabilities p);
    tgts ← scopes (targets p);
    Ok (sha256_hex (canonical_dumps (JObj
      [("domain", JStr "agentbridge.resource-owner.v2"); ("tenant_id", JStr t); ("kind", JStr (kind p));
       ("issuer", JStr (issuer p)); ("subject", JStr s); ("agent_id", JStr ag);
       ("capabilities", JArr (JStr <$> caps)); ("targets", JArr (JStr <$> tgts))]))) in
  match material with
  | Raise x => if is_value_error x
               then Raise (AuthorityDenied "resource ownership is incomplete or unavailable")
               else Raise x
  | Ok d => Ok d
  end.

Definition check_policy (d : lease_db) : outcome unit :=
  guard_or (bool_decide (lease_policy d = Some (1, limits)))
           (StreamCapacity "stream policy missing, changed or unsupported").

(** [__init__]: the first replica records its limits, later ones must agree. *)
Definition start_leases : M lease_db unit :=
  _ ← lift (validated_limits limits);
  atomic (
    d ← get;
    _ ← match lease_policy d with
        | None => put (mkLeases (Some (1, limits)) ∅)
        | Some _ => mret tt
        end;
    d ← get;
    lift (check_policy d)).

Definition expired (now : float64) (r : lease_row) : bool :=
  fleb (w_expires r) now || fleb (w_deadline r) now.

Definition prune_expired (now : float64) (m : gmap string lease_row) : gmap string lease_row :=
  filter (fun x => expired now x.2 = false) m.

Definition tenant_leases (t : string) (m : gmap string lease_row) : gmap string lease_row :=
  filter (fun x => w_tenant x.2 = t) m.
Definition owner_leases (w : string) (m : gmap string lease_row) : gmap string lease_row :=
  filter (fun x => w_owner x.2 = w) m.

Definition count (m : gmap string lease_row) : Z := Z.of_nat (size m).

(** [current] is the guard's authority check. *)
Definition acquire_lease (key : string) (dir : directory) (auth_now : float64) (p : Principal)
    (now : float64) (fresh : string) : M lease_db StreamLease :=
  _ ← lift (current key auth_now p dir);
  atomic (
    owner ← lift (quota_owner owner_json p);
    scope ← lift (binding_owner p);
    d ← get;
    _ ← lift (check_policy d);
    let kept := prune_expired now (leases d) in
    let tenant := default "" (tenant_id p) in
    _ ← ensure (negb ((max_streams limits <=? count kept) ||
                      (max_per_tenant limits <=? count (tenant_leases tenant kept)) ||
                      (max_per_owner limits <=? count (owner_leases owner kept))))
               (StreamCapacity "shared stream capacity reached");
    _ ← ensure (bool_decide (kept !! fresh = None)) (IntegrityError "stream_leases_v1");
    _ ← put (set_leases (<[fresh := mkLeaseRow tenant owner scope
                              (fadd now (num_value (lease_seconds limits)))
                              (fadd now (num_value (max_seconds limits)))]> kept) d);
    mret (mkLease fresh tenant owner scope)).

Definition row_of (l : StreamLease) (r : lease_row) : bool :=
  bool_decide (w_tenant r = l_tenant l ∧ w_owner r = l_owner l ∧ w_scope r = l_scope l).

Definition renew_lease (key : string) (dir : directory) (auth_now : float64) (p : Principal)
    (l : StreamLease) (now : float64) : M lease_db unit :=
  _ ← lift (current key auth_now p dir);
  atomic (
    d ← get;
    _ ← lift (check_policy d);
    let unavailable := AuthorityDenied "stream allocation scope unavailable" in
    _ ← ensure (bool_decide (tenant_id p = Some (l_tenant l))) unavailable;
    owner ← lift (quota_owner owner_json p);
    _ ← ensure (bool_decide (owner = l_owner l)) unavailable;
    scope ← lift (binding_owner p);
    _ ← ensure (bool_decide (scope = l_scope l)) unavailable;
    match leases d !! l_identity l with
    | Some r =>
        _ ← ensure (row_of l r && fgtb (w_expires r) now && fgtb (w_deadline r) now)
                   (StreamCapacity "stream allocation expired or released");
        put (set_leases (<[l_identity l := mkLeaseRow (w_tenant r) (w_owner r) (w_scope r)
                             (fmin (fadd now (num_value (lease_seconds limits))) (w_deadline r))
                             (w_deadline r)]> (leases d)) d)
    | None => raise (StreamCapacity "stream allocation expired or released")
    end).

Definition release_lease (l : StreamLease) : M lease_db unit :=
  atomic (
    d ← get;
    put (set_leases (filter (fun x => ¬ (x.1 = l_identity l ∧ row_of l x.2 = true)) (leases d)) d)).

Definition lease_usage (now : float64) : M lease_db Z :=
  d ← get;
  _ ← lift (check_policy d);
  mret (count (filter (fun x => fgtb (w_expires x.2) now = true ∧ fgtb (w_deadline x.2) now = true) (leases d))).

(** ** Capacity *)

Inductive lease_op :=
| LAcquire (key : string) (dir : directory) (auth_now : float64) (p : Principal) (now : float64) (fresh : string)
| LRenew (key : string) (dir : directory) (auth_now : float64) (p : Principal) (l : StreamLease) (now : float64)
| LRelease (l : StreamLease).

Definition lease_step (d : lease_db) (o : lease_op) : lease_db :=
  match o with
  | LAcquire key dir an p now fresh => (acquire_lease key dir an p now fresh d).2
  | LRenew key dir an p l now => (renew_lease key dir an p l now d).2
  | LRelease l => (release_lease l d).2
  end.

Definition capped (m : gmap string lease_row) : Prop :=
  count m <= max_streams limits ∧
  (∀ t, count (tenant_leases t m) <= max_per_tenant limits) ∧
  (∀ w, count (owner_leases w m) <= max_per_owner limits).

Lemma count_filter (P : string * lease_row → Prop) `{∀ x, Decision (P x)} m : count (filter P m) <= count m.
Proof. unfold count. pose proof (map_subseteq_size _ _ (map_filter_subseteq P m)). lia. Qed.

(** Dropping rows keeps the caps. *)
Lemma capped_filter (P : string * lease_row → Prop) `{∀ x, Decision (P x)} m : capped m → capped (filter P m).
Proof.
  intros (Ha & Ht & Ho). split_and!.
  - pose proof (count_filter P m). lia.
  - intros t. specialize (Ht t). unfold tenant_leases in *. rewrite map_filter_comm.
    pose proof (count_filter P (filter (fun x => w_tenant x.2 = t) m)). lia.
  - intros w. specialize (Ho w). unfold owner_leases in *. rewrite map_filter_comm.
    pose proof (count_filter P (filter (fun x => w_owner x.2 = w) m)). lia.
Qed.

Lemma count_insert_filter (P : string * lease_row → Prop) `{∀ x, Decision (P x)} k r m :
  m !! k = None →
  count (filter P (<[k := r]> m)) = count (filter P m) + (if decide (P (k, r)) then 1 else 0).
Proof.
  intros Hk. unfold count. case_decide as Hp.
  - rewrite map_filter_insert_True by done.
    rewrite map_size_insert_None by (apply map_lookup_filter_None_2; by left). lia.
  - rewrite map_filter_insert_False by done. rewrite delete_id by done. lia.
Qed.

Lemma capped_insert k r m :
  capped m → m !! k = None → count m < max_streams limits →
  count (tenant_leases (w_tenant r) m) < max_per_tenant limits →
  count (owner_leases (w_owner r) m) < max_per_owner limits → capped (<[k := r]> m).
Proof.
  intros (Ha & Ht & Ho) Hk Hc1 Hc2 Hc3. split_and!.
  - unfold count in *. rewrite map_size_insert_None by done. lia.
  - intros t. unfold tenant_leases in *. rewrite count_insert_filter by done.
    case_decide as Hp; [simpl in Hp; subst t; lia|]. specialize (Ht t). lia.
  - intros w. unfold owner_leases in *. rewrite count_insert_filter by done.
    case_decide as Hp; [simpl in Hp; subst w; lia|]. specialize (Ho w). lia.
Qed.

(** Replacing a row by one of the same tenant and owner keeps the counts. *)
Lemma count_replace (P : string * lease_row → Prop) `{∀ x, Decision (P x)} k r r' m :
  m !! k = Some r → (P (k, r') → P (k, r)) → count (filter P (<[k := r']> m)) <= count (filter P m).
Proof.
  intros Hk Hp. unfold count. destruct (decide (P (k, r'))) as [Hy|Hn].
  - rewrite map_filter_insert_True by done. rewrite map_size_insert_Some; [lia|].
    exists r. apply map_lookup_filter_Some_2; auto.
  - rewrite map_filter_insert_False by done. rewrite map_filter_delete, map_size_delete.
    match goal with |- Z.of_nat ((match ?o with Some _ => _ | None => _ end) _) <= _ => destruct o end;
      unfold id; lia.
Qed.

Lemma capped_replace k r r' m :
  capped m → m !! k = Some r → w_tenant r' = w_tenant r → w_owner r' = w_owner r → capped (<[k := r']> m).
Proof.
  intros (Ha & Ht & Ho) Hk Et Eo. split_and!.
  - unfold count in *. rewrite map_size_insert_Some by (by rewrite Hk). lia.
  - intros t. specialize (Ht t). unfold tenant_leases in *.
    pose proof (count_replace (fun x => w_tenant x.2 = t) k r r' m Hk ltac:(simpl; congruence)). lia.
  - intros w. specialize (Ho w). unfold owner_leases in *.
    pose proof (count_replace (fun x => w_owner x.2 = w) k r r' m Hk ltac:(simpl; congruence)). lia.
Qed.

Lemma acquire_capped key dir an p now fresh d :
  capped (leases d) → capped (leases (acquire_lease key dir an p now fresh d).2).
Proof.
  intros Hd. destruct (acquire_lease key dir an p now fresh d) as [[l|x] d'] eqn:Hr; simpl.
  - unfold acquire_lease in Hr. apply bind_Ok_inv in Hr as (u0 & d0 & Hc & Hr).
    apply lift_Ok_inv in Hc as [_ ->]. apply (proj1 (atomic_Ok _ _ _ _)) in Hr.
    apply bind_Ok_inv in Hr as (w & d0 & Hw & Hr). apply lift_Ok_inv in Hw as [_ ->].
    apply bind_Ok_inv in Hr as (sc & d0 & Hs & Hr). apply lift_Ok_inv in Hs as [_ ->].
    rewrite run_get in Hr. apply bind_Ok_inv in Hr as (u1 & d0 & Hp & Hr). apply lift_Ok_inv in Hp as [_ ->].
    apply bind_Ok_inv in Hr as (u2 & d0 & He & Hr). apply ensure_Ok_inv in He as [Hcap ->].
    apply bind_Ok_inv in Hr as (u3 & d0 & He & Hr). apply ensure_Ok_inv in He as [Hn%bool_decide_eq_true ->].
    apply bind_Ok_inv in Hr as (u4 & d0 & Hp & Hr). apply put_Ok_inv in Hp as ->. injection Hr as _ <-.
    rewrite negb_true_iff, !orb_false_iff, !Z.leb_gt in Hcap. destruct Hcap as [[H1' H2'] H3'].
    simpl. apply capped_insert; try done. by apply capped_filter.
  - enough (d' = d) as -> by done. revert Hr. unfold acquire_lease.
    apply rolls_back_bind; auto with agentbridge.
Qed.

Lemma renew_capped key dir an p l now d :
  capped (leases d) → capped (leases (renew_lease key dir an p l now d).2).
Proof.
  intros Hd. destruct (renew_lease key dir an p l now d) as [[u|x] d'] eqn:Hr; simpl.
  - unfold renew_lease in Hr. apply bind_Ok_inv in Hr as (u0 & d0 & Hc & Hr).
    apply lift_Ok_inv in Hc as [_ ->]. apply (proj1 (atomic_Ok _ _ _ _)) in Hr. rewrite run_get in Hr.
    apply bind_Ok_inv in Hr as (u1 & d0 & Hp & Hr). apply lift_Ok_inv in Hp as [_ ->].
    apply bind_Ok_inv in Hr as (u2 & d0 & He & Hr). apply ensure_Ok_inv in He as [_ ->].
    apply bind_Ok_inv in Hr as (w & d0 & Hw & Hr). apply lift_Ok_inv in Hw as [_ ->].
    apply bind_Ok_inv in Hr as (u3 & d0 & He & Hr). apply ensure_Ok_inv in He as [_ ->].
    apply bind_Ok_inv in Hr as (sc & d0 & Hs & Hr). apply lift_Ok_inv in Hs as [_ ->].
    apply bind_Ok_inv in Hr as (u4 & d0 & He & Hr). apply ensure_Ok_inv in He as [_ ->].
    destruct (leases d !! l_identity l) as [r|] eqn:Hrow; [|done].
    apply bind_Ok_inv in Hr as (u5 & d0 & He & Hr). apply ensure_Ok_inv in He as [_ ->].
    apply put_Ok_inv in Hr as ->. simpl. by eapply capped_replace.
  - enough (d' = d) as -> by done. revert Hr. unfold renew_lease.
    apply rolls_back_bind; auto with agentbridge.
Qed.

(** Whatever replicas acquire, renew and release in any order, the fleet
    never holds more stream allocations than its limit, nor a tenant or an owner
    more than theirs. *)
Theorem stream_caps_hold ops :
  validated_limits limits = Ok limits →
  capped (leases (foldl lease_step (mkLeases (Some (1, limits)) ∅) ops)).
Proof.
  unfold validated_limits, within. intros (u & Hv%guard_or_Ok & _)%outcome_bind_Ok.
  rewrite !andb_true_iff, !Z.leb_le in Hv.
  assert (capped (leases (mkLeases (Some (1, limits)) ∅))) as Hinit.
  { simpl. unfold capped, count, tenant_leases, owner_leases. split_and!.
    - rewrite map_size_empty. lia.
    - intros t. rewrite map_filter_empty, map_size_empty. lia.
    - intros w. rewrite map_filter_empty, map_size_empty. lia. }
  revert Hinit. generalize (mkLeases (Some (1, limits)) ∅).
  induction ops as [|o ops IH]; intros d Hd; simpl; [done|]. apply IH.
  destruct o; simpl; [by apply acquire_capped|by apply renew_capped|]. by apply capped_filter.
Qed.

End leases.

(** ** A concrete fleet *)

Definition demo_limits : FleetStreamLimits := mkFleet 4 2 1 (PInt 5) (PInt 60).

Definition demo_lease_ops : list lease_op :=
  [LAcquire "k" (dir demo_w4) (FFin 1) demo_bot (FFin 1) "l1";
   LAcquire "k" (dir demo_w4) (FFin 1) demo_bot (FFin 2) "l2";
   LRelease (mkLease "l1" "acme" "someone" "else")].

Definition demo_fleet : lease_db :=
  foldl (lease_step (fun _ _ _ _ => "owner") demo_limits) (mkLeases (Some (1, demo_limits)) ∅) demo_lease_ops.

(** The owner's second allocation is refused, and a forged release frees nothing. *)
Lemma demo_fleet_count : count (leases demo_fleet) = 1.
Proof. vm_compute. reflexivity. Qed.

Lemma stream_caps_hold_witness : capped demo_limits (leases demo_fleet).
Proof.
  exact (stream_caps_hold (fun _ _ _ _ => "owner") demo_limits demo_lease_ops eq_refl).
Defined.
