(* ===== verification/TaskLifecycle.v ===== *)
(** * Task lifecycle

    Models src/protocols/task_lifecycle.py and the durable store of
    src/protocols/durable_task_lifecycle.py: the task state machine, snapshots
    and append-only events with their task, event and byte capacities.

    A row keeps the task its [snapshot] column encodes ([encode]); events are
    grouped by (owner, task) in sequence order.  [max_active] and [max_events]
    are the service's constructor arguments.  [guarded] says whether the insert
    triggers of a tenant namespace are installed. *)

From stdpp Require Import base list gmap strings pretty.
From Stdlib Require Import ZArith Lia.
From S2P Require Import Prelude PyFloat Json.

Local Open Scope Z_scope.

Inductive TaskState :=
  SUBMITTED | WORKING | INPUT_REQUIRED | AUTH_REQUIRED | COMPLETED | FAILED | CANCELED | REJECTED.

#[global] Instance TaskState_eq_dec : EqDecision TaskState.
Proof. solve_decision. Defined.

Definition state_value (x : TaskState) : string :=
  match x with
  | SUBMITTED => "submitted" | WORKING => "working" | INPUT_REQUIRED => "input-required"
  | AUTH_REQUIRED => "auth-required" | COMPLETED => "completed" | FAILED => "failed"
  | CANCELED => "canceled" | REJECTED => "rejected"
  end.

Definition all_states : list TaskState :=
  [SUBMITTED; WORKING; INPUT_REQUIRED; AUTH_REQUIRED; COMPLETED; FAILED; CANCELED; REJECTED].

(** [TaskState(value)]. *)
Definition state_of_value (s : string) : option TaskState :=
  list_find (fun x => state_value x = s) all_states ≫= fun p => Some p.2.

Definition TERMINAL : list TaskState := [COMPLETED; FAILED; CANCELED; REJECTED].

Definition TRANSITIONS (x : TaskState) : list TaskState :=
  match x with
  | SUBMITTED => [WORKING; INPUT_REQUIRED; AUTH_REQUIRED; FAILED; CANCELED; REJECTED]
  | WORKING => [INPUT_REQUIRED; AUTH_REQUIRED; COMPLETED; FAILED; CANCELED; REJECTED]
  | INPUT_REQUIRED => [WORKING; CANCELED; FAILED]
  | AUTH_REQUIRED => [WORKING; CANCELED; REJECTED; FAILED]
  | COMPLETED | FAILED | CANCELED | REJECTED => []
  end.

Definition identifier_ok (s : string) : bool :=
  (1 <=? strlen s) && (strlen s <=? 128) && bool_decide (strip s = s).

(** [_identifier]; a stripped nonempty text that equals itself stripped. *)
Definition identifier (s label : string) : outcome string :=
  if identifier_ok s then Ok s
  else Raise (LifecycleRejected (label +:+ " must be a bounded nonempty identifier")).

Record TaskLifecycle := mkTask {
  task_id : string;
  context_id : string;
  source_protocol : string;
  state : TaskState;
  sequence : Z;
}.

#[global] Instance TaskLifecycle_eq_dec : EqDecision TaskLifecycle.
Proof. solve_decision. Defined.

(** [TaskLifecycle(...)]: [__post_init__]. *)
Definition make_task (i c p : string) (x : TaskState) (n : Z) : outcome TaskLifecycle :=
  _ ← identifier i "task_id";
  _ ← identifier c "context_id";
  _ ← identifier p "source_protocol";
  _ ← guard_or (bool_decide (p ∈ ["a2a"; "agentbridge"]))
               (LifecycleRejected "only reviewed A2A and native task provenance is supported");
  _ ← guard_or (0 <=? n) (LifecycleRejected "invalid lifecycle state or sequence");
  Ok (mkTask i c p x n).

Definition terminal (t : TaskLifecycle) : bool := bool_decide (state t ∈ TERMINAL).

(** [TaskLifecycle.transition]. *)
Definition transition_task (x : TaskState) (n : Z) (t : TaskLifecycle) : outcome TaskLifecycle :=
  _ ← guard_or (sequence t <? n) (LifecycleRejected "stale or replayed lifecycle event sequence");
  _ ← guard_or (bool_decide (x ∈ TRANSITIONS (state t)))
               (LifecycleRejected "illegal or terminal task lifecycle transition");
  make_task (task_id t) (context_id t) (source_protocol t) x n.

(** An identifier taken from a wire. *)
Definition wire_identifier (j : json) (label : string) : outcome string :=
  match j with
  | JStr s => identifier s label
  | _ => Raise (LifecycleRejected (label +:+ " must be a bounded nonempty identifier"))
  end.

(** [from_a2a_task]. *)
Definition from_a2a_task (task : json) : outcome TaskLifecycle :=
  match task with
  | JObj m =>
      _ ← guard_or (is_text "task" (obj_get "kind" JNull m))
                   (LifecycleRejected "A2A lifecycle requires a task object");
      match obj_get "status" JNull m with
      | JObj raw =>
          match obj_get "state" JNull raw with
          | JStr s =>
              x ← match state_of_value s with
                  | Some x => Ok x
                  | None => Raise (LifecycleRejected "unknown A2A task state")
                  end;
              md ← match obj_get "metadata" JNull m with
                   | JNull => Ok []
                   | JObj md => Ok md
                   | _ => Raise (LifecycleRejected "task metadata must be an object")
                   end;
              i ← wire_identifier (obj_get "id" JNull m) "task_id";
              c ← wire_identifier (obj_get "contextId" JNull m) "context_id";
              match obj_get "agentbridge_sequence" (JInt 0) md with
              | JInt n => make_task i c "a2a" x n
              | _ => Raise (LifecycleRejected "invalid lifecycle state or sequence")
              end
          | _ => Raise (LifecycleRejected "A2A task state is required")
          end
      | _ => Raise (LifecycleRejected "A2A task state is required")
      end
  | _ => Raise (LifecycleRejected "A2A lifecycle requires a task object")
  end.

(** ** Encoding *)

(** [json.dumps] of one character, [ensure_ascii] on: bytes written. *)
Definition escaped_bytes (c : Ascii.ascii) : Z :=
  let n := Z.of_nat (Ascii.nat_of_ascii c) in
  if (n =? 34) || (n =? 92) then 2
  else if (32 <=? n) && (n <=? 126) then 1
  else if bool_decide (n ∈ [8; 9; 10; 12; 13]) then 2
  else 6.

Fixpoint text_bytes (s : string) : Z :=
  match s with
  | EmptyString => 0
  | String c s' => escaped_bytes c + text_bytes s'
  end.

(** The length of [_encode(task)]: sorted keys, no spaces. *)
Definition snapshot_bytes (t : TaskLifecycle) : Z :=
  strlen "{'context_id':''" + text_bytes (context_id t) +
  strlen ",'sequence':" + strlen (pretty (sequence t)) +
  strlen ",'source_protocol':''" + text_bytes (source_protocol t) +
  strlen ",'state':''" + text_bytes (state_value (state t)) +
  strlen ",'task_id':''}" + text_bytes (task_id t).

(** ** The tables *)

Record snapshot_row := mkSnapshot { snap : TaskLifecycle; is_terminal : bool }.

(** A singleton capacity policy: the version in its meta table, and its own
    (version, limit) row. *)
Record policy := mkPolicy { meta_version : option Z; policy_row : option (Z * Z) }.

Record task_db := mkTasks {
  snapshots : gmap (string * string) snapshot_row;
  events : gmap (string * string) (list TaskLifecycle);
  history_policy_v1 : policy;
  event_policy_v1 : policy;
}.

Definition set_snapshots x d := mkTasks x (events d) (history_policy_v1 d) (event_policy_v1 d).
Definition set_events x d := mkTasks (snapshots d) x (history_policy_v1 d) (event_policy_v1 d).
Definition set_history x d := mkTasks (snapshots d) (events d) x (event_policy_v1 d).
Definition set_event_policy x d := mkTasks (snapshots d) (events d) (history_policy_v1 d) x.

(** The policy row joined with meta version 1. *)
Definition joined_policy (p : policy) : option (Z * Z) :=
  match meta_version p with Some 1 => policy_row p | _ => None end.

Definition history_count (d : task_db) : Z := Z.of_nat (size (snapshots d)).

Definition history_policy (d : task_db) : outcome Z :=
  match joined_policy (history_policy_v1 d) with
  | Some (1, n) => if (1 <=? n) && (n <=? 1000000) then Ok n
                   else Raise (LifecycleCapacity "missing or unsupported historical-task capacity policy")
  | _ => Raise (LifecycleCapacity "missing or unsupported historical-task capacity policy")
  end.

Definition validate_event_limit (n : Z) : outcome Z :=
  if (4096 <=? n) && (n <=? 1073741824) then Ok n
  else Raise (LifecycleRejected "event-byte limit must be an integer in [4096,1073741824]").

Definition event_policy (d : task_db) : outcome Z :=
  match joined_policy (event_policy_v1 d) with
  | Some (1, n) =>
      match validate_event_limit n with
      | Ok n => Ok n
      | Raise _ => Raise (LifecycleCapacity "missing or unsupported event-byte capacity policy")
      end
  | _ => Raise (LifecycleCapacity "missing or unsupported event-byte capacity policy")
  end.

(** [_event_reserve]. *)
Definition event_reserve (t : TaskLifecycle) : Z :=
  if terminal t then 0
  else if bool_decide (state t ∈ [INPUT_REQUIRED; AUTH_REQUIRED]) then 4096 else 8192.

(** [_reserve_sql]: the same from a row's columns. *)
Definition row_reserve (r : snapshot_row) : Z :=
  if is_terminal r then 0
  else if bool_decide (state (snap r) ∈ [INPUT_REQUIRED; AUTH_REQUIRED]) then 4096 else 8192.

Definition sum_map {K A} `{Countable K} (f : A → Z) (m : gmap K A) : Z :=
  map_fold (fun _ x acc => f x + acc) 0 m.

Definition sum_bytes (l : list TaskLifecycle) : Z := foldr (fun t acc => snapshot_bytes t + acc) 0 l.

(** [_event_usage]: bytes used by events, bytes reserved by snapshots. *)
Definition event_usage (d : task_db) : Z * Z :=
  (sum_map sum_bytes (events d), sum_map row_reserve (snapshots d)).

Definition check_event_append (t : TaskLifecycle) (reserve_delta : Z) (d : task_db) : outcome unit :=
  let size := snapshot_bytes t in
  _ ← guard_or (size <=? 4096)
               (LifecycleRejected "canonical task event exceeds reserved terminal payload bound");
  let '(used, reserved) := event_usage d in
  cap ← event_policy d;
  guard_or (used + size + reserved + reserve_delta <=? cap)
           (LifecycleCapacity "event-byte capacity reached; recovery and terminal capacity are reserved").

(** ** Insert triggers of a tenant namespace *)

(** [agentbridge_task_history_capacity_v1]. *)
Definition history_guard (d : task_db) : outcome unit :=
  match meta_version (history_policy_v1 d), policy_row (history_policy_v1 d) with
  | Some 1, Some (1, n) =>
      guard_or ((1 <=? n) && (history_count d <? n))
               (IntegrityError "historical-task capacity reached or policy unavailable")
  | _, _ => Raise (IntegrityError "historical-task capacity reached or policy unavailable")
  end.

(** The byte triggers; [adjustment] is the change of the reserved bytes. *)
Definition bytes_guard (t : TaskLifecycle) (adjustment : Z) (d : task_db) : outcome unit :=
  match meta_version (event_policy_v1 d), policy_row (event_policy_v1 d) with
  | Some 1, Some (1, cap) =>
      let '(used, reserved) := event_usage d in
      guard_or ((4096 <=? cap) && (snapshot_bytes t <=? 4096) &&
                (used + reserved + adjustment + snapshot_bytes t <=? cap))
               (IntegrityError "event-byte capacity reached or policy unavailable")
  | _, _ => Raise (IntegrityError "event-byte capacity reached or policy unavailable")
  end.

Section store.
Context (max_active max_events : Z) (guarded : bool).

Definition guard (o : outcome unit) : M task_db unit := if guarded then lift o else mret tt.

Definition insert_snapshot (k : string * string) (t : TaskLifecycle) : M task_db unit :=
  d ← get;
  _ ← guard (history_guard d);
  _ ← guard (bytes_guard t (row_reserve (mkSnapshot t false)) d);
  _ ← ensure (bool_decide (snapshots d !! k = None)) (IntegrityError "task_lifecycle_snapshots");
  put (set_snapshots (<[k := mkSnapshot t false]> (snapshots d)) d).

Definition prior_reserve (k : string * string) (d : task_db) : Z :=
  match snapshots d !! k with Some r => row_reserve r | None => 0 end.

Definition task_events (k : string * string) (d : task_db) : list TaskLifecycle :=
  default [] (events d !! k).

(** Sequences arrive in increasing order, so the new row is the last. *)
Definition insert_event (k : string * string) (t : TaskLifecycle) : M task_db unit :=
  d ← get;
  _ ← guard (bytes_guard t (event_reserve t - prior_reserve k d) d);
  _ ← ensure (negb (existsb (fun e => sequence e =? sequence t) (task_events k d)))
             (IntegrityError "task_lifecycle_events");
  put (set_events (<[k := task_events k d ++ [t]]> (events d)) d).

(** ** Operations *)

Definition scope (owner i : string) : outcome (string * string) :=
  _ ← identifier owner "authenticated owner_id";
  _ ← identifier i "task_id";
  Ok (owner, i).

Definition get_task (k : string * string) (d : task_db) : outcome TaskLifecycle :=
  match snapshots d !! k with
  | None => Raise (LifecycleRejected "task unavailable for authenticated owner")
  | Some r => Ok (snap r)
  end.

(** Unfinished tasks of an owner. *)
Definition active (owner : string) (d : task_db) : Z :=
  Z.of_nat (size (filter (fun x => x.1.1 = owner ∧ is_terminal x.2 = false) (snapshots d))).

Definition create (owner : string) (t : TaskLifecycle) : M task_db TaskLifecycle :=
  _ ← ensure (bool_decide (state t = SUBMITTED) && (sequence t =? 0))
             (LifecycleRejected "new task must start submitted at sequence zero");
  k ← lift (scope owner (task_id t));
  atomic (
    d ← get;
    _ ← ensure (bool_decide (snapshots d !! k = None))
               (LifecycleRejected "task identity already exists; no replay or replacement");
    cap ← lift (history_policy d);
    _ ← ensure (history_count d <? cap)
               (LifecycleCapacity "historical-task capacity reached; reviewed capacity increase required");
    _ ← ensure (active owner d <? max_active)
               (LifecycleCapacity "active-task capacity reached; retry after terminal status");
    _ ← lift (check_event_append t (event_reserve t) d);
    _ ← insert_snapshot k t;
    _ ← insert_event k t;
    mret t).

Definition get_snapshot (owner i : string) : M task_db TaskLifecycle :=
  k ← lift (scope owner i);
  d ← get;
  lift (get_task k d).

Definition transition (owner i : string) (x : TaskState) (expected : Z) : M task_db TaskLifecycle :=
  k ← lift (scope owner i);
  _ ← ensure ((0 <=? expected) && (expected <? 2 ^ 63 - 1))
             (LifecycleRejected "invalid expected lifecycle sequence");
  atomic (
    d ← get;
    current ← lift (get_task k d);
    _ ← ensure (sequence current =? expected)
               (LifecycleRejected "stale lifecycle sequence; reload before updating");
    updated ← lift (transition_task x (sequence current + 1) current);
    let count := Z.of_nat (length (task_events k d)) in
    _ ← ensure (negb ((max_events <=? count) || (negb (terminal updated) && (max_events - 1 <=? count))))
               (LifecycleCapacity "task event capacity reached; terminal update required");
    _ ← lift (check_event_append updated (event_reserve updated - event_reserve current) d);
    _ ← insert_event k updated;
    d ← get;
    _ ← put (set_snapshots (<[k := mkSnapshot updated (terminal updated)]> (snapshots d)) d);
    mret updated).

Definition cancel (owner i : string) (expected : Z) : M task_db TaskLifecycle :=
  transition owner i CANCELED expected.

(** Events after [cursor], at most [limit]. *)
Definition page (cursor limit : Z) (l : list TaskLifecycle) : list TaskLifecycle :=
  take (Z.to_nat limit) (filter (fun t => cursor < sequence t) l).

Definition list_events (owner i : string) (after limit : Z) : M task_db (list TaskLifecycle) :=
  k ← lift (scope owner i);
  _ ← ensure ((-1 <=? after) && (after <? 2 ^ 63)) (LifecycleRejected "invalid recovery cursor");
  _ ← ensure ((1 <=? limit) && (limit <=? 100))
             (LifecycleRejected "event page limit must be in [1,100]");
  d ← get;
  current ← lift (get_task k d);
  _ ← ensure (after <=? sequence current)
             (LifecycleRejected "recovery cursor is ahead of durable history");
  mret (page after limit (task_events k d)).

(** ** Watching *)

(** What one page yields: up to and with the first terminal task; the flag says
    the watcher is done. *)
Fixpoint watch_page (cursor : Z) (l : list TaskLifecycle) : list TaskLifecycle * Z * bool :=
  match l with
  | [] => ([], cursor, false)
  | t :: l' =>
      if terminal t then ([t], sequence t, true)
      else let '(ys, c, fin) := watch_page (sequence t) l' in (t :: ys, c, fin)
  end.

(** One turn of [watch]'s loop: the tasks yielded, the new cursor, and whether
    the iterator returns. *)
Definition watch_turn (owner i : string) (cursor page_size : Z) : M task_db (list TaskLifecycle * Z * bool) :=
  l ← list_events owner i cursor page_size;
  let '(ys, c, fin) := watch_page cursor l in
  match l with
  | [] => t ← get_snapshot owner i; mret (ys, c, terminal t)
  | _ => mret (ys, c, fin)
  end.

(** ** Capacities *)

Definition history_capacity : M task_db (Z * Z) :=
  d ← get; cap ← lift (history_policy d); mret (cap, history_count d).

(** [audit] is the caller's audit append, in the same transaction. *)
Definition set_history_capacity (n : Z) (audit : M task_db unit) : M task_db unit :=
  _ ← ensure ((1 <=? n) && (n <=? 1000000)) (LifecycleRejected "bounded historical-task capacity required");
  atomic (
    d ← get;
    _ ← lift (history_policy d);
    _ ← ensure (history_count d <=? n)
               (LifecycleCapacity "capacity cannot discard retained task history");
    _ ← put (set_history (mkPolicy (meta_version (history_policy_v1 d)) (Some (1, n))) d);
    audit).

Definition event_capacity : M task_db (Z * Z * Z) :=
  d ← get;
  let '(used, reserved) := event_usage d in
  cap ← lift (event_policy d);
  mret (cap, used, reserved).

Definition set_event_capacity (n : Z) (audit : M task_db unit) : M task_db unit :=
  _ ← lift (validate_event_limit n);
  atomic (
    d ← get;
    _ ← lift (event_policy d);
    let '(used, reserved) := event_usage d in
    _ ← ensure (used + reserved <=? n)
               (LifecycleCapacity "event-byte capacity cannot discard history or control reservations");
    _ ← put (set_event_policy (mkPolicy (meta_version (event_policy_v1 d)) (Some (1, n))) d);
    audit).

(** [__init__]: the policies are created once, with their tables; [fresh] says
    the policy tables did not exist. *)
Definition bootstrap_history (fresh : bool) : M task_db unit :=
  _ ← (if fresh then modify (set_history (mkPolicy (Some 1) (Some (1, 10000)))) else mret tt);
  d ← get;
  _ ← lift (history_policy d);
  mret tt.

Definition bootstrap_events (fresh : bool) (initial : option Z) : M task_db unit :=
  _ ← match initial with None => mret tt | Some n => _ ← lift (validate_event_limit n); mret tt end;
  _ ← (if fresh then modify (set_event_policy (mkPolicy (Some 1) (Some (1, default 67108864 initial))))
       else mret tt);
  d ← get;
  cap ← lift (event_policy d);
  _ ← ensure (fresh || match initial with None => true | Some n => n =? cap end)
             (LifecycleCapacity "initial event-byte limit cannot overwrite persisted policy");
  let '(used, reserved) := event_usage d in
  ensure (used + reserved <=? cap)
         (LifecycleCapacity "existing event history requires reviewed event-byte capacity recovery").

Definition start (fresh_history fresh_events : bool) (initial : option Z) : M task_db unit :=
  _ ← ensure ((1 <=? max_active) && (max_active <=? 10000)) (LifecycleRejected "invalid bounded lifecycle capacity");
  _ ← ensure ((3 <=? max_events) && (max_events <=? 10000)) (LifecycleRejected "invalid bounded lifecycle capacity");
  atomic (
    _ ← bootstrap_history fresh_history;
    bootstrap_events fresh_events initial).
End store.
