(* ===== verification/TaskSpec.v ===== *)
(** * What the durable task lifecycle guarantees

    Every task's events are a legal history from [submitted], append-only and
    numbered from zero; capacities are never exceeded; and the capacity held
    back for an unfinished task is enough to end it. *)

From stdpp Require Import base list gmap strings pretty relations.
From Stdlib Require Import ZArith Lia.
From S2P Require Import Prelude PyFloat Json TaskLifecycle.

Local Open Scope Z_scope.

(** ** Sums over tables *)
Section sums.
Context {K A : Type} `{Countable K}.
Implicit Types (f : A → Z) (m : gmap K A).

Lemma sum_map_empty f : sum_map f (∅ : gmap K A) = 0.
Proof. apply map_fold_empty. Qed.

Lemma sum_map_insert f m k x : m !! k = None → sum_map f (<[k := x]> m) = f x + sum_map f m.
Proof.
  intros Hk. unfold sum_map. rewrite map_fold_insert_L; [done| |done].
  intros j1 j2 z1 z2 y _ _ _. lia.
Qed.

Lemma sum_map_lookup f m k x : m !! k = Some x → sum_map f m = f x + sum_map f (delete k m).
Proof. intros Hk. rewrite <-(insert_delete_id m k x Hk) at 1. apply sum_map_insert, lookup_delete_eq. Qed.

Lemma sum_map_replace f m k x y :
  m !! k = Some x → sum_map f (<[k := y]> m) = sum_map f m - f x + f y.
Proof.
  intros Hk. rewrite (sum_map_lookup f m k x Hk), <-insert_delete_eq.
  rewrite sum_map_insert by apply lookup_delete_eq. lia.
Qed.

Lemma sum_map_nonneg f m : (∀ k x, m !! k = Some x → 0 <= f x) → 0 <= sum_map f m.
Proof.
  induction m as [|k x m Hk IH] using map_ind; intros Hf; [by rewrite sum_map_empty|].
  rewrite sum_map_insert by done. specialize (Hf k x) as Hx. rewrite lookup_insert_eq in Hx.
  enough (0 <= sum_map f m) by (specialize (Hx eq_refl); lia). apply IH. intros k' x' Hk'.
  apply (Hf k'). rewrite lookup_insert_ne by congruence. done.
Qed.
End sums.

Lemma sum_bytes_snoc l t : sum_bytes (l ++ [t]) = sum_bytes l + snapshot_bytes t.
Proof. induction l; simpl; lia. Qed.

(** ** Sizes *)

Lemma escaped_bound c : 1 <= escaped_bytes c <= 6.
Proof. unfold escaped_bytes. repeat case_match; lia. Qed.

Lemma text_bound s : 0 <= text_bytes s <= 6 * strlen s.
Proof.
  unfold strlen. induction s as [|c s IH]; simpl String.length; cbn [text_bytes]; [lia|].
  pose proof (escaped_bound c). lia.
Qed.

Lemma pretty_bound n : 0 <= n <= 10000 → strlen (pretty n) <= 5.
Proof.
  intros Hn. assert (Forall (fun z => strlen (pretty z) <= 5) (seqZ 0 10001)) as Hall.
  { apply (bool_decide_unpack _). vm_compute. reflexivity. }
  rewrite Forall_forall in Hall. apply Hall, elem_of_seqZ. lia.
Qed.

(** A valid task numbered within the event capacity fits the reserved slot. *)
Lemma snapshot_fits t :
  identifier_ok (task_id t) = true → identifier_ok (context_id t) = true →
  source_protocol t ∈ ["a2a"; "agentbridge"] → 0 <= sequence t <= 10000 →
  snapshot_bytes t <= 4096.
Proof.
  unfold identifier_ok. rewrite !andb_true_iff, !Z.leb_le. intros [[_ Hi] _] [[_ Hc] _] Hp Hs.
  pose proof (pretty_bound _ Hs). pose proof (text_bound (task_id t)). pose proof (text_bound (context_id t)).
  assert (text_bytes (source_protocol t) <= 66).
  { set_unfold in Hp. destruct Hp as [->|[->|[]]]; vm_compute; congruence. }
  assert (text_bytes (state_value (state t)) <= 84) by (destruct (state t); vm_compute; congruence).
  unfold snapshot_bytes.
  change (strlen "{'context_id':''") with 16. change (strlen ",'sequence':") with 12.
  change (strlen ",'source_protocol':''") with 21. change (strlen ",'state':''") with 11.
  change (strlen ",'task_id':''}") with 14. lia.
Qed.

(** ** The invariant *)
Section invariant.
Context (max_active max_events : Z) (guarded : bool).
Context (active_range : 1 <= max_active <= 10000) (events_range : 3 <= max_events <= 10000).

Local Notation create := (TaskLifecycle.create max_active guarded).
Local Notation transition := (TaskLifecycle.transition max_events guarded).

(** One event follows another. *)
Definition follows (a b : TaskLifecycle) : Prop :=
  state b ∈ TRANSITIONS (state a) ∧ sequence b = sequence a + 1 ∧
  task_id b = task_id a ∧ context_id b = context_id a ∧ source_protocol b = source_protocol a.

(** A legal history: it starts submitted at zero, and each event follows the
    one before. *)
Inductive legal : list TaskLifecycle → Prop :=
| legal_start t : state t = SUBMITTED → sequence t = 0 → legal [t]
| legal_next l a b : legal (l ++ [a]) → follows a b → legal (l ++ [a; b]).

Definition valid_ids (t : TaskLifecycle) : Prop :=
  identifier_ok (task_id t) = true ∧ identifier_ok (context_id t) = true ∧
  source_protocol t ∈ ["a2a"; "agentbridge"].

Record history_ok (k : string * string) (r : snapshot_row) (l : list TaskLifecycle) : Prop := {
  h_legal : legal l;
  h_last : last l = Some (snap r);
  h_flag : is_terminal r = terminal (snap r);
  h_ids : valid_ids (snap r);
  h_owner : identifier_ok k.1 = true;
  h_key : task_id (snap r) = k.2;
  (** one slot is kept for the terminal event *)
  h_count : Z.of_nat (length l) <= max_events - (if terminal (snap r) then 0 else 1);
}.

Record tasks_ok (d : task_db) : Prop := {
  t_rows k r : snapshots d !! k = Some r → ∃ l, events d !! k = Some l ∧ history_ok k r l;
  t_events k : is_Some (events d !! k) → is_Some (snapshots d !! k);
  t_bytes cap : event_policy d = Ok cap → (event_usage d).1 + (event_usage d).2 <= cap;
  t_history cap : history_policy d = Ok cap → history_count d <= cap;
  t_active owner : active owner d <= max_active;
}.

Lemma legal_last_sequence l t : legal l → last l = Some t → sequence t = Z.of_nat (length l) - 1.
Proof.
  intros Hl. revert t. induction Hl as [t Hs Hn|l a b Hl IH Hf]; intros t' Ht.
  - injection Ht as <-. simpl. lia.
  - change [a; b] with ([a] ++ [b]) in Ht. rewrite app_assoc, last_snoc in Ht. injection Ht as <-.
    destruct Hf as (_ & -> & _). rewrite (IH a) by apply last_snoc. rewrite !length_app. simpl. lia.
Qed.

Lemma legal_index l i t : legal l → l !! i = Some t → sequence t = Z.of_nat i.
Proof.
  intros Hl. revert i t. induction Hl as [t0 Hs Hn|l a b Hl IH Hf]; intros i t Hi.
  - destruct i; [|done]. injection Hi as <-. done.
  - change [a; b] with ([a] ++ [b]) in Hi. rewrite app_assoc, lookup_snoc_Some in Hi.
    destruct Hi as [[_ Hi]|[-> <-]]; [by apply IH|]. destruct Hf as (_ & -> & _).
    rewrite (legal_last_sequence _ a Hl) by apply last_snoc. rewrite !length_app. simpl. lia.
Qed.

Lemma legal_snoc l a b : legal l → last l = Some a → follows a b → legal (l ++ [b]).
Proof.
  intros Hl Ha Hf. apply last_Some in Ha as [l' ->]. rewrite <-app_assoc. by apply legal_next.
Qed.

Lemma reserve_agrees k r l : history_ok k r l → row_reserve r = event_reserve (snap r).
Proof. intros Hh. unfold row_reserve, event_reserve. by rewrite (h_flag _ _ _ Hh). Qed.

(** ** What the two writers do *)

(** The new history of a task appended to, and its new row. *)
Definition appends (k : string * string) (l : list TaskLifecycle) (t : TaskLifecycle) (b : bool)
    (d : task_db) : task_db :=
  mkTasks (<[k := mkSnapshot t b]> (snapshots d)) (<[k := l ++ [t]]> (events d))
    (history_policy_v1 d) (event_policy_v1 d).

Lemma guard_Ok o (s : task_db) u s' : guard guarded o s = (Ok u, s') → s' = s.
Proof. unfold guard, lift. destruct guarded; intros Hg; by injection Hg. Qed.

Lemma scope_Ok owner i k :
  scope owner i = Ok k → k = (owner, i) ∧ identifier_ok owner = true ∧ identifier_ok i = true.
Proof.
  unfold scope, identifier. intros (a & Ha & H)%outcome_bind_Ok. apply outcome_bind_Ok in H as (b & Hb & H).
  destruct (identifier_ok owner), (identifier_ok i); simplify_eq. done.
Qed.

Lemma check_Ok t delta d u :
  check_event_append t delta d = Ok u →
  ∃ cap, event_policy d = Ok cap ∧ snapshot_bytes t <= 4096 ∧
    (event_usage d).1 + snapshot_bytes t + (event_usage d).2 + delta <= cap.
Proof.
  unfold check_event_append. intros (u1 & H1%guard_or_Ok & H)%outcome_bind_Ok.
  destruct (event_usage d) as [used res]. apply outcome_bind_Ok in H as (cap & Hc & H%guard_or_Ok).
  exists cap. split_and!; [done|by apply Z.leb_le|by apply Z.leb_le].
Qed.

Lemma create_effect owner t d t' d' :
  create owner t d = (Ok t', d') →
  let k := (owner, task_id t) in
  t' = t ∧ state t = SUBMITTED ∧ sequence t = 0 ∧ identifier_ok owner = true ∧
  snapshots d !! k = None ∧ (∀ cap, history_policy d = Ok cap → history_count d < cap) ∧
  active owner d < max_active ∧ check_event_append t (event_reserve t) d = Ok tt ∧
  d' = appends k (task_events k d) t false d.
Proof.
  unfold TaskLifecycle.create. intros Hr.
  apply bind_Ok_inv in Hr as (u0 & d0 & He & Hr). apply ensure_Ok_inv in He as [He ->].
  apply andb_true_iff in He as [Hst%bool_decide_eq_true Hsq%Z.eqb_eq].
  apply bind_Ok_inv in Hr as (k & d0 & Hk & Hr). apply lift_Ok_inv in Hk as [Hk ->].
  apply scope_Ok in Hk as (-> & Ho & Hi).
  apply (proj1 (atomic_Ok _ _ _ _)) in Hr. rewrite run_get in Hr.
  apply bind_Ok_inv in Hr as (u1 & d0 & He & Hr). apply ensure_Ok_inv in He as [Hn%bool_decide_eq_true ->].
  apply bind_Ok_inv in Hr as (cap & d0 & Hc & Hr). apply lift_Ok_inv in Hc as [Hc ->].
  apply bind_Ok_inv in Hr as (u2 & d0 & He & Hr). apply ensure_Ok_inv in He as [Hcap%Z.ltb_lt ->].
  apply bind_Ok_inv in Hr as (u3 & d0 & He & Hr). apply ensure_Ok_inv in He as [Hact%Z.ltb_lt ->].
  apply bind_Ok_inv in Hr as ([] & d0 & He & Hr). apply lift_Ok_inv in He as [Hchk ->].
  apply bind_Ok_inv in Hr as (u4 & d1 & Hs & Hr). apply bind_Ok_inv in Hr as (u5 & d2 & He & Hr).
  injection Hr as <- <-.
  unfold insert_snapshot in Hs. rewrite run_get in Hs.
  apply bind_Ok_inv in Hs as (u6 & d3 & Hg%guard_Ok & Hs). subst d3.
  apply bind_Ok_inv in Hs as (u7 & d3 & Hg%guard_Ok & Hs). subst d3.
  apply bind_Ok_inv in Hs as (u8 & d3 & Hg & Hs). apply ensure_Ok_inv in Hg as [_ ->].
  apply put_Ok_inv in Hs as ->.
  unfold insert_event in He. rewrite run_get in He.
  apply bind_Ok_inv in He as (u9 & d3 & Hg%guard_Ok & He). subst d3.
  apply bind_Ok_inv in He as (u10 & d3 & Hg & He). apply ensure_Ok_inv in Hg as [_ ->].
  apply put_Ok_inv in He as ->. split_and!; try done. intros cap' Hc'. congruence.
Qed.

Lemma transition_task_Ok x n t t' :
  transition_task x n t = Ok t' →
  t' = mkTask (task_id t) (context_id t) (source_protocol t) x n ∧ x ∈ TRANSITIONS (state t) ∧
  sequence t < n.
Proof.
  unfold transition_task, make_task. intros (u1 & H1%guard_or_Ok & H)%outcome_bind_Ok.
  apply outcome_bind_Ok in H as (u2 & H2%guard_or_Ok & H).
  repeat (apply outcome_bind_Ok in H as (? & _ & H)). injection H as <-.
  split_and!; [done|by apply bool_decide_eq_true in H2|by apply Z.ltb_lt].
Qed.

Lemma transition_effect owner i x n d t' d' :
  transition owner i x n d = (Ok t', d') →
  let k := (owner, i) in
  ∃ r, snapshots d !! k = Some r ∧ sequence (snap r) = n ∧
    transition_task x (n + 1) (snap r) = Ok t' ∧
    Z.of_nat (length (task_events k d)) + 1 <= max_events - (if terminal t' then 0 else 1) ∧
    check_event_append t' (event_reserve t' - event_reserve (snap r)) d = Ok tt ∧
    d' = appends k (task_events k d) t' (terminal t') d.
Proof.
  unfold TaskLifecycle.transition. intros Hr.
  apply bind_Ok_inv in Hr as (k & d0 & Hk & Hr). apply lift_Ok_inv in Hk as [Hk ->].
  apply scope_Ok in Hk as (-> & _ & _).
  apply bind_Ok_inv in Hr as (u0 & d0 & He & Hr). apply ensure_Ok_inv in He as [_ ->].
  apply (proj1 (atomic_Ok _ _ _ _)) in Hr. rewrite run_get in Hr.
  apply bind_Ok_inv in Hr as (cur & d0 & Hg & Hr). apply lift_Ok_inv in Hg as [Hg ->].
  unfold get_task in Hg. destruct (snapshots d !! (owner, i)) as [r|] eqn:Hrow; [|done].
  injection Hg as <-.
  apply bind_Ok_inv in Hr as (u1 & d0 & He & Hr). apply ensure_Ok_inv in He as [Hseq%Z.eqb_eq ->].
  apply bind_Ok_inv in Hr as (up & d0 & Ht & Hr). apply lift_Ok_inv in Ht as [Ht ->].
  apply bind_Ok_inv in Hr as (u2 & d0 & He & Hr). apply ensure_Ok_inv in He as [Hcnt ->].
  apply bind_Ok_inv in Hr as ([] & d0 & Hc & Hr). apply lift_Ok_inv in Hc as [Hchk ->].
  apply bind_Ok_inv in Hr as (u3 & d1 & He & Hr). rewrite run_get in Hr.
  apply bind_Ok_inv in Hr as (u4 & d2 & Hp & Hr). apply put_Ok_inv in Hp as ->. injection Hr as <- <-.
  unfold insert_event in He. rewrite run_get in He.
  apply bind_Ok_inv in He as (u9 & d3 & Hg%guard_Ok & He). subst d3.
  apply bind_Ok_inv in He as (u10 & d3 & Hg & He). apply ensure_Ok_inv in Hg as [_ ->].
  apply put_Ok_inv in He as ->. exists r. rewrite Hseq in Ht. split_and!; try done.
  apply negb_true_iff, orb_false_iff in Hcnt as [H1%Z.leb_gt H2].
  destruct (terminal up); [lia|]. simpl in H2. apply Z.leb_gt in H2. lia.
Qed.

(** ** Preservation *)

Lemma usage_fresh k t b d :
  snapshots d !! k = None → events d !! k = None →
  event_usage (appends k [] t b d) =
    ((event_usage d).1 + snapshot_bytes t, (event_usage d).2 + row_reserve (mkSnapshot t b)).
Proof.
  intros Hs He. unfold event_usage, appends. simpl. rewrite !sum_map_insert by done. simpl. f_equal; lia.
Qed.

Lemma usage_next k r l t b d :
  snapshots d !! k = Some r → events d !! k = Some l →
  event_usage (appends k l t b d) =
    ((event_usage d).1 + snapshot_bytes t,
     (event_usage d).2 - row_reserve r + row_reserve (mkSnapshot t b)).
Proof.
  intros Hs He. unfold event_usage, appends. simpl.
  rewrite (sum_map_replace _ _ _ _ _ Hs), (sum_map_replace _ _ _ _ _ He), sum_bytes_snoc. f_equal; lia.
Qed.

Definition is_active (owner : string) (x : string * string * snapshot_row) : Prop :=
  x.1.1 = owner ∧ is_terminal x.2 = false.

#[local] Instance is_active_dec owner x : Decision (is_active owner x).
Proof. unfold is_active. apply _. Defined.

Lemma active_fresh owner k t d :
  snapshots d !! k = None →
  active owner (appends k [] t false d) = active owner d + (if decide (k.1 = owner) then 1 else 0).
Proof.
  intros Hk. unfold active, appends. simpl snapshots. case_decide as Ho.
  - rewrite map_filter_insert_True by done.
    rewrite map_size_insert_None by (apply map_lookup_filter_None_2; by left). lia.
  - rewrite map_filter_insert_False by (simpl; tauto). rewrite delete_id by done. lia.
Qed.

Lemma active_next owner k r l t b d :
  snapshots d !! k = Some r → is_terminal r = false →
  active owner (appends k l t b d) <= active owner d.
Proof.
  intros Hk Hr. unfold active, appends. simpl snapshots.
  destruct (decide (k.1 = owner ∧ b = false)) as [[Ho ->]|Hno].
  - rewrite map_filter_insert_True by done. rewrite map_size_insert_Some; [lia|].
    exists r. by apply map_lookup_filter_Some_2.
  - rewrite map_filter_insert_False by (simpl; tauto). rewrite map_filter_delete, map_size_delete.
    match goal with |- Z.of_nat ((match ?o with Some _ => _ | None => _ end) _) <= _ => destruct o end;
      unfold id; lia.
Qed.

Lemma row_reserve_eq t b : b = terminal t → row_reserve (mkSnapshot t b) = event_reserve t.
Proof. by intros ->. Qed.

Lemma task_events_fresh k d : tasks_ok d → snapshots d !! k = None → events d !! k = None.
Proof.
  intros Hd Hk. destruct (events d !! k) as [l|] eqn:He; [|done].
  destruct (t_events _ Hd k) as [r Hr]; [by rewrite He|]. congruence.
Qed.

(** Rows and events of the other tasks are as before. *)
Lemma appends_rows k l t b d :
  tasks_ok d → history_ok k (mkSnapshot t b) (l ++ [t]) →
  (∀ k' r, snapshots (appends k l t b d) !! k' = Some r →
     ∃ l', events (appends k l t b d) !! k' = Some l' ∧ history_ok k' r l') ∧
  (∀ k', is_Some (events (appends k l t b d) !! k') → is_Some (snapshots (appends k l t b d) !! k')).
Proof.
  intros Hd Hnew. unfold appends. simpl. split.
  - intros k' r. destruct (decide (k = k')) as [<-|Hne].
    + rewrite !lookup_insert_eq. intros [= <-]. by eexists.
    + rewrite !lookup_insert_ne by done. apply (t_rows _ Hd).
  - intros k'. rewrite !lookup_insert_is_Some. intros [->|[Hne He]]; [by left|right].
    split; [done|]. by apply (t_events _ Hd).
Qed.

Lemma create_ok owner t d t' d' :
  valid_ids t → create owner t d = (Ok t', d') → tasks_ok d → tasks_ok d'.
Proof.
  intros Hv (_ & Hst & Hsq & Ho & Hk & Hcap & Hact & Hchk & ->)%create_effect Hd.
  set (k := (owner, task_id t)) in *.
  pose proof (task_events_fresh _ _ Hd Hk) as He.
  assert (task_events k d = []) as -> by (unfold task_events; by rewrite He).
  assert (terminal t = false) as Hterm by (unfold terminal; by rewrite Hst).
  assert (history_ok k (mkSnapshot t false) ([] ++ [t])) as Hh.
  { split; simpl; try done. - by apply legal_start. - rewrite Hterm. lia. }
  destruct (appends_rows k [] t false d Hd Hh) as [Hrows Hev]. split; [done|done| | |].
  - intros cap Hc. rewrite usage_fresh, row_reserve_eq by done. cbn [fst snd].
    apply check_Ok in Hchk as (cap' & Hc' & _ & Hle). change (event_policy d = Ok cap) in Hc.
    assert (cap' = cap) as -> by congruence. lia.
  - intros cap Hc. specialize (Hcap cap Hc). unfold history_count, appends in *. simpl.
    rewrite map_size_insert_None by done. lia.
  - intros o. rewrite active_fresh by done. case_decide as Hok; [subst o; simpl; lia|].
    pose proof (t_active _ Hd o). lia.
Qed.

Lemma nonterminal t x : x ∈ TRANSITIONS (state t) → terminal t = false.
Proof. unfold terminal. destruct (state t); simpl; try done; intros Hx; by apply elem_of_nil in Hx. Qed.

Lemma transition_ok owner i x n d t' d' :
  transition owner i x n d = (Ok t', d') → tasks_ok d → tasks_ok d'.
Proof.
  intros (r & Hr & Hn & Ht & Hcnt & Hchk & ->)%transition_effect Hd.
  set (k := (owner, i)) in *. destruct (t_rows _ Hd _ _ Hr) as (l & Hl & Hh).
  assert (task_events k d = l) as El by (unfold task_events; by rewrite Hl). rewrite El in *.
  apply transition_task_Ok in Ht as (-> & Hx & _). pose proof (nonterminal _ _ Hx) as Hnt.
  set (t' := mkTask _ _ _ _ _) in *.
  assert (history_ok k (mkSnapshot t' (terminal t')) (l ++ [t'])) as Hh'.
  { destruct Hh as [Hlegal Hlast Hflag (Hi & Hc & Hp) Howner Hkey Hlen]. split; simpl; try done.
    - eapply legal_snoc; [done|done|]. unfold follows. simpl. by rewrite Hn.
    - by rewrite last_snoc.
    - rewrite length_app. simpl. lia. }
  destruct (appends_rows k l t' (terminal t') d Hd Hh') as [Hrows Hev].
  assert (is_terminal r = false) as Hrt by (by rewrite (h_flag _ _ _ Hh)).
  split; [done|done| | |].
  - intros cap Hc. rewrite (usage_next _ r), row_reserve_eq by done. cbn [fst snd].
    apply check_Ok in Hchk as (cap' & Hc' & _ & Hle). change (event_policy d = Ok cap) in Hc.
    assert (cap' = cap) as -> by congruence. rewrite (reserve_agrees _ _ _ Hh). lia.
  - intros cap Hc. pose proof (t_history _ Hd cap Hc). unfold history_count, appends in *. simpl.
    rewrite map_size_insert_Some by (by rewrite Hr). lia.
  - intros o. pose proof (active_next o _ r l t' (terminal t') d Hr Hrt). pose proof (t_active _ Hd o). lia.
Qed.

Lemma make_task_valid i c p x n t : make_task i c p x n = Ok t → valid_ids t ∧ t = mkTask i c p x n.
Proof.
  unfold make_task, identifier. intros (u1 & H1 & H)%outcome_bind_Ok.
  apply outcome_bind_Ok in H as (u2 & H2 & H). apply outcome_bind_Ok in H as (u3 & H3 & H).
  apply outcome_bind_Ok in H as (u4 & H4%guard_or_Ok & H). apply outcome_bind_Ok in H as (u5 & _ & H).
  injection H as <-. apply bool_decide_eq_true in H4. unfold valid_ids. simpl.
  destruct (identifier_ok i), (identifier_ok c); simplify_eq. done.
Qed.

Lemma set_history_effect n audit d u d' :
  reads audit → set_history_capacity n audit d = (Ok u, d') →
  1 <= n <= 1000000 ∧ history_count d <= n ∧
  d' = set_history (mkPolicy (meta_version (history_policy_v1 d)) (Some (1, n))) d.
Proof.
  intros Ha. unfold set_history_capacity. intros Hr.
  apply bind_Ok_inv in Hr as (u0 & d0 & He & Hr). apply ensure_Ok_inv in He as [He ->].
  apply andb_true_iff in He as [H1%Z.leb_le H2%Z.leb_le].
  apply (proj1 (atomic_Ok _ _ _ _)) in Hr. rewrite run_get in Hr.
  apply bind_Ok_inv in Hr as (c & d0 & Hc & Hr). apply lift_Ok_inv in Hc as [_ ->].
  apply bind_Ok_inv in Hr as (u1 & d0 & He & Hr). apply ensure_Ok_inv in He as [Hle%Z.leb_le ->].
  apply bind_Ok_inv in Hr as (u2 & d0 & Hp & Hr). apply put_Ok_inv in Hp as ->.
  pose proof (Ha (set_history (mkPolicy (meta_version (history_policy_v1 d)) (Some (1, n))) d)) as Hs.
  rewrite Hr in Hs. simpl in Hs. by subst d'.
Qed.

Lemma set_event_effect n audit d u d' :
  reads audit → set_event_capacity n audit d = (Ok u, d') →
  4096 <= n <= 1073741824 ∧ (∃ cap, event_policy d = Ok cap) ∧
  (event_usage d).1 + (event_usage d).2 <= n ∧
  d' = set_event_policy (mkPolicy (meta_version (event_policy_v1 d)) (Some (1, n))) d.
Proof.
  intros Ha. unfold set_event_capacity. intros Hr.
  apply bind_Ok_inv in Hr as (n' & d0 & He & Hr). apply lift_Ok_inv in He as [He ->].
  unfold validate_event_limit in He. destruct ((4096 <=? n) && (n <=? 1073741824)) eqn:Hb; [|done].
  apply andb_true_iff in Hb as [H1%Z.leb_le H2%Z.leb_le].
  apply (proj1 (atomic_Ok _ _ _ _)) in Hr. rewrite run_get in Hr.
  apply bind_Ok_inv in Hr as (c & d0 & Hc & Hr). apply lift_Ok_inv in Hc as [Hc ->].
  destruct (event_usage d) as [used res].
  apply bind_Ok_inv in Hr as (u1 & d0 & Hg & Hr). apply ensure_Ok_inv in Hg as [Hle%Z.leb_le ->].
  apply bind_Ok_inv in Hr as (u2 & d0 & Hp & Hr). apply put_Ok_inv in Hp as ->.
  pose proof (Ha (set_event_policy (mkPolicy (meta_version (event_policy_v1 d)) (Some (1, n))) d)) as Hs.
  rewrite Hr in Hs. simpl in Hs. subst d'. split_and!; try done. by exists c.
Qed.

(** ** Runs of the service *)

(** Any operation of any worker, successful or not.  A task object exists only
    if its constructor accepted it. *)
Inductive task_step : task_db → task_db → Prop :=
| ts_create owner i c p x n t d r d' :
    make_task i c p x n = Ok t → create owner t d = (r, d') → task_step d d'
| ts_transition owner i x n d r d' : transition owner i x n d = (r, d') → task_step d d'
| ts_history n audit d r d' :
    reads audit → set_history_capacity n audit d = (r, d') → task_step d d'
| ts_bytes n audit d r d' :
    reads audit → set_event_capacity n audit d = (r, d') → task_step d d'.

Lemma create_raise owner t d err d' : create owner t d = (Raise err, d') → d' = d.
Proof.
  unfold TaskLifecycle.create. apply rolls_back_bind; [auto with agentbridge|intros _].
  apply rolls_back_bind; auto with agentbridge.
Qed.

Lemma transition_raise owner i x n d err d' : transition owner i x n d = (Raise err, d') → d' = d.
Proof.
  unfold TaskLifecycle.transition. apply rolls_back_bind; [auto with agentbridge|intros k].
  apply rolls_back_bind; auto with agentbridge.
Qed.

(** Every step either leaves the tables alone, appends one event, or changes a
    capacity within what is stored. *)
Inductive change (d : task_db) : task_db → Prop :=
| ch_none : change d d
| ch_create owner t t' d' : valid_ids t → create owner t d = (Ok t', d') → change d d'
| ch_next owner i x n t' d' : transition owner i x n d = (Ok t', d') → change d d'
| ch_history n : 1 <= n <= 1000000 → history_count d <= n →
    change d (set_history (mkPolicy (meta_version (history_policy_v1 d)) (Some (1, n))) d)
| ch_bytes n cap : 4096 <= n <= 1073741824 → event_policy d = Ok cap →
    (event_usage d).1 + (event_usage d).2 <= n →
    change d (set_event_policy (mkPolicy (meta_version (event_policy_v1 d)) (Some (1, n))) d).

Lemma step_change d d' : task_step d d' → change d d'.
Proof.
  destruct 1 as [owner i c p x n t d [u|err] d' Hm Hr|owner i x n d [u|err] d' Hr
    |n audit d [u|err] d' Ha Hr|n audit d [u|err] d' Ha Hr].
  - eapply ch_create; [by eapply make_task_valid|done].
  - apply create_raise in Hr as ->. constructor.
  - by eapply ch_next.
  - apply transition_raise in Hr as ->. constructor.
  - apply set_history_effect in Hr as (? & ? & ->); [by constructor|done].
  - assert (d' = d) as ->; [|constructor]. unfold set_history_capacity in Hr.
    revert Hr. apply rolls_back_bind; auto with agentbridge.
  - apply set_event_effect in Hr as (? & [cap ?] & ? & ->); [by econstructor|done].
  - assert (d' = d) as ->; [|constructor]. unfold set_event_capacity in Hr.
    revert Hr. apply rolls_back_bind; auto with agentbridge.
Qed.

Lemma change_ok d d' : change d d' → tasks_ok d → tasks_ok d'.
Proof.
  destruct 1 as [|owner t t' d' Hv Hr|owner i x n t' d' Hr|n Hn Hc|n cap Hn Hp Hu]; intros Hd.
  - done.
  - by eapply create_ok.
  - by eapply transition_ok.
  - destruct Hd as [H1 H2 H3 H4 H5]. split; try done. intros cap. unfold history_policy, joined_policy. simpl.
    intros Hcap. repeat case_match; simplify_eq; done.
  - destruct Hd as [H1 H2 H3 H4 H5]. split; try done. intros cap'. unfold event_policy, joined_policy. simpl.
    unfold validate_event_limit. intros Hcap. repeat case_match; simplify_eq; done.
Qed.

Definition empty_tasks : task_db := mkTasks ∅ ∅ (mkPolicy None None) (mkPolicy None None).

(** A service started on an empty database, and then any steps. *)
Definition running (d : task_db) : Prop :=
  ∃ initial d0, start max_active max_events true true initial empty_tasks = (Ok tt, d0) ∧
    rtc task_step d0 d.

Lemma start_effect initial d0 :
  start max_active max_events true true initial empty_tasks = (Ok tt, d0) →
  ∃ n, 4096 <= n <= 1073741824 ∧
    d0 = mkTasks ∅ ∅ (mkPolicy (Some 1) (Some (1, 10000))) (mkPolicy (Some 1) (Some (1, n))).
Proof.
  unfold start. intros Hr.
  apply bind_Ok_inv in Hr as (u0 & d1 & He & Hr). apply ensure_Ok_inv in He as [_ ->].
  apply bind_Ok_inv in Hr as (u1 & d1 & He & Hr). apply ensure_Ok_inv in He as [_ ->].
  apply (proj1 (atomic_Ok _ _ _ _)) in Hr. apply bind_Ok_inv in Hr as (u2 & d1 & Hh & Hr).
  unfold bootstrap_history in Hh. cbn in Hh. injection Hh as _ <-.
  unfold bootstrap_events in Hr. apply bind_Ok_inv in Hr as (u3 & d1 & Hi & Hr).
  assert (d1 = set_history (mkPolicy (Some 1) (Some (1, 10000))) empty_tasks) as ->.
  { destruct initial; [|by injection Hi as _ <-]. apply bind_Ok_inv in Hi as (? & d2 & Hl & Hi).
    apply lift_Ok_inv in Hl as [_ ->]. by injection Hi as _ <-. }
  rewrite (run_step _ tt _ (set_event_policy (mkPolicy (Some 1) (Some (1, default 67108864 initial)))
    (set_history (mkPolicy (Some 1) (Some (1, 10000))) empty_tasks))) in Hr by done.
  rewrite run_get in Hr. apply bind_Ok_inv in Hr as (cap & d2 & Hc & Hr). apply lift_Ok_inv in Hc as [Hc ->].
  assert (4096 <= default 67108864 initial <= 1073741824) as Hrange.
  { unfold event_policy, joined_policy in Hc. simpl in Hc. unfold validate_event_limit in Hc.
    destruct ((4096 <=? default 67108864 initial) && (default 67108864 initial <=? 1073741824)) eqn:Hb; [|done].
    apply andb_true_iff in Hb as [H1%Z.leb_le H2%Z.leb_le]. lia. }
  exists (default 67108864 initial). split; [done|]. minv.
  repeat match goal with Hx : context [let '(_, _) := event_usage ?d in _] |- _ =>
    destruct (event_usage d) end. minv. done.
Qed.

Definition metered_ok (d : task_db) : Prop := tasks_ok d ∧ ∃ cap, event_policy d = Ok cap.

Lemma change_metered d d' : change d d' → metered_ok d → metered_ok d'.
Proof.
  intros Hc [Hd [cap Hp]]. split; [by eapply change_ok|].
  destruct Hc as [|owner t t' d' Hv Hr|owner i x n t' d' Hr|n Hn Hc|n cap' Hn Hp' Hu].
  - by exists cap.
  - apply create_effect in Hr as (_ & _ & _ & _ & _ & _ & _ & _ & ->). by exists cap.
  - apply transition_effect in Hr as (r & _ & _ & _ & _ & _ & ->). by exists cap.
  - by exists cap.
  - exists n. unfold event_policy, joined_policy in *. simpl.
    destruct (meta_version (event_policy_v1 d)) as [[|[]|]|]; try done.
    unfold validate_event_limit. assert ((4096 <=? n) && (n <=? 1073741824) = true) as ->; [|done].
    apply andb_true_iff. rewrite !Z.leb_le. lia.
Qed.

Lemma running_metered d : running d → metered_ok d.
Proof.
  intros (initial & d0 & (n & Hn & ->)%start_effect & Hrun).
  set (d0 := mkTasks ∅ ∅ _ _) in *. assert (event_policy d0 = Ok n) as Hpol.
  { unfold event_policy, joined_policy, validate_event_limit. simpl.
    assert ((4096 <=? n) && (n <=? 1073741824) = true) as ->; [|done].
    apply andb_true_iff. rewrite !Z.leb_le. lia. }
  assert (metered_ok d0) as Hinit.
  { split.
    - split; simpl.
      + intros k r. by rewrite lookup_empty.
      + intros k [l Hl]. by rewrite lookup_empty in Hl.
      + intros cap. rewrite Hpol. intros [= <-]. unfold event_usage. simpl. rewrite !sum_map_empty. lia.
      + intros cap [= <-]. unfold history_count. simpl. rewrite map_size_empty. lia.
      + intros owner. unfold active. simpl. rewrite map_filter_empty, map_size_empty. lia.
    - by exists n. }
  clear Hpol. induction Hrun as [|d1 d2 d3 Hs%step_change Hrun IH]; [done|]. apply IH. by eapply change_metered.
Qed.

(** C17: in every run, each task's stored events are a legal history ending in
    its snapshot, and task, event and byte capacities hold, reserved bytes
    included. *)
Theorem task_invariant d : running d → tasks_ok d.
Proof. by intros [? _]%running_metered. Qed.

(** ** Histories only grow *)

Definition extends (d d' : task_db) : Prop :=
  ∀ k l, events d !! k = Some l → ∃ l', events d' !! k = Some (l ++ l') ∧
    (∀ t, last l = Some t → terminal t = true → l' = []).

Lemma extends_refl d : extends d d.
Proof. intros k l Hk. exists []. by rewrite app_nil_r. Qed.

Lemma extends_trans d1 d2 d3 : extends d1 d2 → extends d2 d3 → extends d1 d3.
Proof.
  intros H1 H2 k l Hk. destruct (H1 _ _ Hk) as (l1 & Hk1 & Ht1). destruct (H2 _ _ Hk1) as (l2 & Hk2 & Ht2).
  exists (l1 ++ l2). rewrite app_assoc. split; [done|]. intros t Hl Hterm.
  specialize (Ht1 t Hl Hterm). subst l1. rewrite app_nil_r in *. simpl. eauto.
Qed.

Lemma appends_extends k l t b d :
  default [] (events d !! k) = l → (∀ a, last l = Some a → terminal a = false) → extends d (appends k l t b d).
Proof.
  intros Hl Ha k' l' Hk'. simpl. destruct (decide (k = k')) as [<-|Hne].
  - rewrite lookup_insert_eq. rewrite Hk' in Hl. simpl in Hl. subst l'. exists [t]. split; [done|].
    intros a Hlast Hterm. rewrite (Ha a Hlast) in Hterm. done.
  - rewrite lookup_insert_ne by done. exists []. by rewrite app_nil_r.
Qed.

Lemma change_extends d d' : change d d' → tasks_ok d → extends d d'.
Proof.
  destruct 1 as [|owner t t' d' Hv Hr|owner i x n t' d' Hr|n Hn Hc|n cap Hn Hp Hu]; intros Hd;
    [apply extends_refl| | |exact (extends_refl d)|exact (extends_refl d)].
  - apply create_effect in Hr as (_ & _ & _ & _ & Hk & _ & _ & _ & ->). apply appends_extends; [done|].
    unfold task_events. rewrite (task_events_fresh _ _ Hd Hk). done.
  - apply transition_effect in Hr as (r & Hk & _ & Ht & _ & _ & ->).
    destruct (t_rows _ Hd _ _ Hk) as (l & Hl & Hh). apply appends_extends; [done|].
    unfold task_events. rewrite Hl. simpl. rewrite (h_last _ _ _ Hh). intros a [= <-].
    apply transition_task_Ok in Ht as (_ & Hx & _). by eapply nonterminal.
Qed.

Lemma steps_extend d d' : rtc task_step d d' → tasks_ok d → extends d d' ∧ tasks_ok d'.
Proof.
  induction 1 as [|d1 d2 d3 Hs%step_change Hrun IH]; intros Hd; [split; [apply extends_refl|done]|].
  destruct IH as [He Hd3]; [by eapply change_ok|]. split; [|done].
  eapply extends_trans; [by eapply change_extends|done].
Qed.

(** Whatever runs later, a task's recorded events stay as they are and only
    grow, and a finished task never gets another. *)
Theorem history_append_only d d' k l :
  running d → rtc task_step d d' → events d !! k = Some l →
  ∃ l', events d' !! k = Some (l ++ l') ∧
    (∀ t, last l = Some t → terminal t = true → l' = []).
Proof. intros [Hd _]%running_metered Hrun. by apply (steps_extend _ _ Hrun Hd). Qed.

(** ** An unfinished task can be ended *)

Lemma ending_allowed x y : x ∈ [FAILED; CANCELED] → y ∉ TERMINAL → x ∈ TRANSITIONS y.
Proof. intros Hx Hy. set_unfold in Hx. destruct y; simpl in *; set_solver. Qed.

Lemma event_policy_row d cap :
  event_policy d = Ok cap →
  meta_version (event_policy_v1 d) = Some 1 ∧ policy_row (event_policy_v1 d) = Some (1, cap) ∧ 4096 <= cap.
Proof.
  unfold event_policy, joined_policy, validate_event_limit.
  destruct (meta_version _) as [[|[]|]|]; try done. destruct (policy_row _) as [[[|[]|] n]|]; try done.
  destruct ((4096 <=? n) && (n <=? 1073741824)) eqn:Hb; [|done]. intros [= <-].
  apply andb_true_iff in Hb as [?%Z.leb_le _]. done.
Qed.

(** The triggers agree with the check the code makes before inserting. *)
Lemma bytes_guard_agrees t delta d :
  check_event_append t delta d = Ok tt → bytes_guard t delta d = Ok tt.
Proof.
  intros (cap & (Hm & Hp & Hcap)%event_policy_row & Hsz & Hle)%check_Ok. unfold bytes_guard.
  rewrite Hm, Hp. destruct (event_usage d) as [used res]. simpl in Hle. apply guard_or_Ok.
  rewrite !andb_true_iff, !Z.leb_le. lia.
Qed.

Lemma guard_passes {B} o (k : unit → M task_db B) d :
  o = Ok tt → (guard guarded o ≫= k) d = k tt d.
Proof. intros ->. unfold guard. by destruct guarded. Qed.

Lemma fresh_sequence l t : legal l → sequence t = Z.of_nat (length l) →
  existsb (fun e => sequence e =? sequence t) l = false.
Proof.
  intros Hl Ht. apply not_true_is_false. rewrite existsb_exists. intros (e & Hin & He%Z.eqb_eq).
  apply list_elem_of_In, list_elem_of_lookup in Hin as [i Hi].
  pose proof (legal_index _ _ _ Hl Hi). apply lookup_lt_Some in Hi. lia.
Qed.

Lemma ending_fits k r l x d cap :
  tasks_ok d → event_policy d = Ok cap → snapshots d !! k = Some r → events d !! k = Some l →
  history_ok k r l → terminal (snap r) = false → x ∈ TERMINAL →
  let t := mkTask (task_id (snap r)) (context_id (snap r)) (source_protocol (snap r)) x
             (sequence (snap r) + 1) in
  check_event_append t (event_reserve t - event_reserve (snap r)) d = Ok tt.
Proof.
  intros Hd Hcap Hr Hl Hh Hnt Hx t.
  pose proof (legal_last_sequence _ _ (h_legal _ _ _ Hh) (h_last _ _ _ Hh)) as Hseq.
  pose proof (h_count _ _ _ Hh) as Hcnt. rewrite Hnt in Hcnt.
  assert (last l <> None) as Hne by (rewrite (h_last _ _ _ Hh); done).
  destruct l as [|e0 l0]; [done|]. cbn [length] in *.
  assert (snapshot_bytes t <= 4096) as Hsz.
  { destruct (h_ids _ _ _ Hh) as (? & ? & ?). apply snapshot_fits; simpl; try done. lia. }
  assert (event_reserve t = 0) as -> by (unfold event_reserve, terminal; by rewrite bool_decide_eq_true_2).
  assert (4096 <= event_reserve (snap r)) by (unfold event_reserve; rewrite Hnt; case_match; lia).
  unfold check_event_append. revert Hsz. generalize (snapshot_bytes t). intros sz Hsz.
  rewrite (proj2 (Z.leb_le _ _) Hsz). cbn [guard_or mbind outcome_bind].
  pose proof (t_bytes _ Hd _ Hcap) as Hb. destruct (event_usage d) as [used res]. simpl in Hb.
  rewrite Hcap. simpl. apply guard_or_Ok, Z.leb_le. lia.
Qed.

(** C16: in every run, an unfinished task can be failed or canceled: whatever
    the load, its reserved event slot and bytes are still there, and the insert
    triggers agree. *)
Theorem task_can_always_end d owner i r x :
  running d → snapshots d !! (owner, i) = Some r → terminal (snap r) = false →
  x ∈ [FAILED; CANCELED] →
  ∃ t d', transition owner i x (sequence (snap r)) d = (Ok t, d') ∧ terminal t = true ∧ state t = x.
Proof.
  intros [Hd [cap Hcap]]%running_metered Hr Hnt Hx. destruct (t_rows _ Hd _ _ Hr) as (l & Hl & Hh).
  assert (x ∈ TERMINAL) as Hterm by (set_unfold in Hx; destruct Hx as [->|[->|[]]]; set_solver).
  pose proof (ending_fits _ _ _ _ _ _ Hd Hcap Hr Hl Hh Hnt Hterm) as Hfit.
  set (t := mkTask _ _ _ _ _) in Hfit.
  pose proof (legal_last_sequence _ _ (h_legal _ _ _ Hh) (h_last _ _ _ Hh)) as Hseq.
  pose proof (h_count _ _ _ Hh) as Hcnt. rewrite Hnt in Hcnt.
  assert (length l ≠ 0%nat) by (intros Hz%nil_length_inv; pose proof (h_last _ _ _ Hh); by subst).
  destruct (h_ids _ _ _ Hh) as (Hi & Hc & Hp). pose proof (h_key _ _ _ Hh) as Hkey. simpl in Hkey.
  pose proof (h_owner _ _ _ Hh) as Howner. simpl in Howner.
  assert (identifier_ok i = true) as Hii by congruence.
  assert (terminal t = true) as Htt by (by apply bool_decide_eq_true_2).
  assert (transition_task x (sequence (snap r) + 1) (snap r) = Ok t) as Ht.
  { unfold transition_task, make_task, identifier. rewrite (proj2 (Z.ltb_lt (sequence (snap r)) (sequence (snap r) + 1))) by lia. simpl.
    rewrite (bool_decide_eq_true_2 (x ∈ TRANSITIONS (state (snap r)))) by (apply ending_allowed; [done|];
      unfold terminal in Hnt; by apply bool_decide_eq_false in Hnt). simpl.
    rewrite Hi, Hc. simpl.
    assert (identifier_ok (source_protocol (snap r)) = true) as ->.
    { set_unfold in Hp. destruct Hp as [->|[->|[]]]; done. }
    rewrite (bool_decide_eq_true_2 _ Hp). simpl. rewrite (proj2 (Z.leb_le 0 (sequence (snap r) + 1))) by lia. done. }
  exists t. eexists. split; [|done].
  unfold TaskLifecycle.transition. rewrite (run_lift _ (owner, i)).
  2:{ unfold scope, identifier. by rewrite Howner, Hii. }
  rewrite run_ensure; cycle 1.
  { apply andb_true_iff. rewrite Z.leb_le, Z.ltb_lt. lia. }
  apply (proj2 (atomic_Ok _ _ _ _)). rewrite run_get.
  rewrite (run_lift _ (snap r)) by (unfold get_task; by rewrite Hr).
  rewrite run_ensure by apply Z.eqb_refl. rewrite (run_lift _ _ _ _ Ht).
  assert (task_events (owner, i) d = l) as Hel by (unfold task_events; by rewrite Hl).
  rewrite Hel. rewrite run_ensure.
  2:{ rewrite Htt. simpl. rewrite orb_false_r. apply negb_true_iff, Z.leb_gt. lia. }
  rewrite (run_lift _ _ _ _ Hfit). rewrite (run_step _ tt _ (set_events (<[(owner, i) := l ++ [t]]> (events d)) d)).
  2:{ unfold insert_event. rewrite run_get, guard_passes.
      - rewrite Hel, run_ensure; [done|]. apply negb_true_iff, fresh_sequence; [apply (h_legal _ _ _ Hh)|].
        simpl. lia.
      - apply bytes_guard_agrees. unfold prior_reserve. rewrite Hr, (reserve_agrees _ _ _ Hh). done. }
  done.
Qed.

(** ** Watching *)

(** Events numbered from [c + 1] to [c']. *)
Definition segment (c c' : Z) (l : list TaskLifecycle) : list TaskLifecycle :=
  take (Z.to_nat (c' - c)) (drop (Z.to_nat (c + 1)) l).

(** A watcher whose turns see the states [dbs]. *)
Fixpoint watch_over (owner i : string) (page_size : Z) (dbs : list task_db) (c : Z)
  : outcome (list TaskLifecycle * Z * bool) :=
  match dbs with
  | [] => Ok ([], c, false)
  | d :: dbs' =>
      match (watch_turn owner i c page_size d).1 with
      | Raise e => Raise e
      | Ok (ys, c', true) => Ok (ys, c', true)
      | Ok (ys, c', false) =>
          match watch_over owner i page_size dbs' c' with
          | Raise e => Raise e
          | Ok (zs, c'', fin) => Ok (ys ++ zs, c'', fin)
          end
      end
  end.

Lemma filter_after l c off :
  (∀ j t, l !! j = Some t → sequence t = off + Z.of_nat j) →
  filter (fun t => c < sequence t) l = drop (Z.to_nat (c + 1 - off)) l.
Proof.
  revert off. induction l as [|t l IH]; intros off Hl; [by rewrite drop_nil|].
  pose proof (Hl 0%nat t eq_refl) as Ht. rewrite filter_cons.
  assert (filter (fun t => c < sequence t) l = drop (Z.to_nat (c + 1 - (off + 1))) l) as Hrest.
  { apply IH. intros j u Hj. rewrite (Hl (S j) u Hj). lia. }
  case_decide as Hc.
  - assert (Z.to_nat (c + 1 - off) = 0%nat) as -> by lia. rewrite Hrest.
    assert (Z.to_nat (c + 1 - (off + 1)) = 0%nat) as -> by lia. done.
  - assert (Z.to_nat (c + 1 - off) = S (Z.to_nat (c + 1 - (off + 1)))) as -> by lia. done.
Qed.

Lemma watch_page_spec l c ys c' fin off :
  (∀ j t, l !! j = Some t → sequence t = off + Z.of_nat j) → c = off - 1 →
  watch_page c l = (ys, c', fin) →
  c' = c + Z.of_nat (length ys) ∧ (length ys <= length l)%nat ∧ ys = take (length ys) l ∧
  (if fin then ∃ t, last ys = Some t ∧ terminal t = true else ys = l).
Proof.
  revert c ys c' fin off. induction l as [|t l IH]; intros c ys c' fin off Hl Hc; simpl.
  - intros [= <- <- <-]. simpl. split_and!; [lia|lia|done|done].
  - pose proof (Hl 0%nat t eq_refl) as Ht. destruct (terminal t) eqn:Hterm.
    + intros [= <- <- <-]. simpl. split_and!; [lia|lia|by rewrite take_0|by exists t].
    + destruct (watch_page (sequence t) l) as [[ys1 c1] fin1] eqn:Hw. intros [= <- <- <-].
      apply (IH _ _ _ _ (off + 1)) in Hw as (E1 & E2 & E3 & E4).
      2:{ intros j u Hj. rewrite (Hl (S j) u Hj). lia. }
      2:{ lia. }
      simpl. split_and!; [lia|lia|by f_equal|]. destruct fin1; [|by f_equal].
      destruct E4 as (u & Hu & Hut). exists u. split; [|done]. destruct ys1; done.
Qed.

Lemma legal_terminal_last l j t : legal l → l !! j = Some t → terminal t = true → S j = length l.
Proof.
  intros Hl. revert j t. induction Hl as [t0 Hs Hn|l a b Hl IH Hf]; intros j t Hj Hterm.
  - destruct j; [done|done].
  - change [a; b] with ([a] ++ [b]) in *. rewrite app_assoc in *. rewrite lookup_snoc_Some in Hj.
    rewrite length_app. simpl. destruct Hj as [[Hlt Hj]|[-> <-]]; [|lia].
    pose proof (IH _ _ Hj Hterm) as Hlen. exfalso.
    assert (t = a) as ->.
    { rewrite length_app in Hlen. simpl in Hlen. assert (j = length l) as -> by lia.
      rewrite lookup_app_r, Nat.sub_diag in Hj by done. by injection Hj. }
    destruct Hf as (Hx & _). apply nonterminal in Hx. congruence.
Qed.

(** A page is the piece of the history right after the cursor. *)
Lemma list_events_Ok owner i c ps d l p d' :
  tasks_ok d → events d !! (owner, i) = Some l → -1 <= c → list_events owner i c ps d = (Ok p, d') →
  d' = d ∧ p = take (Z.to_nat ps) (drop (Z.to_nat (c + 1)) l) ∧ 1 <= ps ∧ scope owner i = Ok (owner, i) ∧
  ∃ r, snapshots d !! (owner, i) = Some r ∧ history_ok (owner, i) r l ∧ c <= sequence (snap r).
Proof.
  intros Hd Hl Hc Hp. unfold list_events in Hp.
  apply bind_Ok_inv in Hp as (k & d2 & Hk & Hp). apply lift_Ok_inv in Hk as [Hk ->].
  pose proof Hk as (-> & Ho & Hi)%scope_Ok.
  apply bind_Ok_inv in Hp as (u1 & d2 & He & Hp). apply ensure_Ok_inv in He as [_ ->].
  apply bind_Ok_inv in Hp as (u2 & d2 & He & Hp). apply ensure_Ok_inv in He as [Hlim ->].
  apply andb_true_iff in Hlim as [Hlim%Z.leb_le _]. rewrite run_get in Hp.
  apply bind_Ok_inv in Hp as (cur & d2 & Hg & Hp). apply lift_Ok_inv in Hg as [Hg ->].
  apply bind_Ok_inv in Hp as (u3 & d2 & He & Hp). apply ensure_Ok_inv in He as [Hahead%Z.leb_le ->].
  injection Hp as <- <-. unfold task_events. rewrite Hl. simpl.
  unfold get_task in Hg. destruct (snapshots d !! (owner, i)) as [r|] eqn:Hr; [|done].
  injection Hg as <-. destruct (t_rows _ Hd _ _ Hr) as (l' & Hl' & Hh).
  assert (l' = l) as -> by congruence. split_and!; [done| |done|done|by exists r].
  unfold page. rewrite (filter_after l c 0); [by rewrite Z.sub_0_r|].
  intros j t Hj. by rewrite (legal_index _ _ _ (h_legal _ _ _ Hh) Hj).
Qed.

(** One turn yields the events right after the cursor. *)
Lemma turn_spec owner i c ps d l ys c' fin d' :
  tasks_ok d → events d !! (owner, i) = Some l → -1 <= c →
  watch_turn owner i c ps d = (Ok (ys, c', fin), d') →
  c <= c' ∧ c' + 1 <= Z.of_nat (length l) ∧ ys = segment c c' l ∧
  (fin = true → ∃ t, last l = Some t ∧ terminal t = true ∧ sequence t = c').
Proof.
  intros Hd Hl Hc Hw. unfold watch_turn in Hw.
  apply bind_Ok_inv in Hw as (p & d1 & Hp & Hw).
  destruct (list_events_Ok _ _ _ _ _ _ _ _ Hd Hl Hc Hp) as (-> & Epage & Hlim & Hk & r & Hr & Hh & Hahead).
  pose proof (h_legal _ _ _ Hh) as Hlegal.
  pose proof (legal_last_sequence _ _ Hlegal (h_last _ _ _ Hh)) as Hseq.
  assert (get_task (owner, i) d = Ok (snap r)) as Hg' by (unfold get_task; by rewrite Hr).
  destruct (watch_page c p) as [[ys1 c1] fin1] eqn:Hwp.
  apply (watch_page_spec _ _ _ _ _ (c + 1)) in Hwp as (E1 & E2 & E3 & E4).
  2:{ intros j t Hj. rewrite Epage, lookup_take_Some, lookup_drop in Hj. destruct Hj as [Hj _].
      rewrite (legal_index _ _ _ Hlegal Hj). lia. }
  2:{ lia. }
  assert (length p <= length l - Z.to_nat (c + 1))%nat as Elen
    by (rewrite Epage, length_take, length_drop; lia).
  assert (ys1 = segment c c1 l) as Eys.
  { unfold segment. replace (Z.to_nat (c1 - c)) with (length ys1) by lia.
    rewrite E3 at 1. rewrite Epage, take_take. f_equal.
    rewrite Epage, length_take in E2. lia. }
  assert (c <= c1) by lia.
  assert (c1 + 1 <= Z.of_nat (length l)) by lia.
  assert (∀ t, last l = Some t → sequence t = Z.of_nat (length l) - 1) as Hls
    by (intros t Ht; by apply legal_last_sequence).
  destruct p as [|t0 p0] eqn:Ep.
  - apply bind_Ok_inv in Hw as (t & d2 & Ht & Hw). injection Hw as <- <- <- <-.
    split_and!; try done. intros Hterm. unfold get_snapshot in Ht.
    rewrite (run_lift _ _ _ _ Hk), run_get in Ht. rewrite Hg' in Ht. injection Ht as <- _.
    exists (snap r). split_and!; [apply (h_last _ _ _ Hh)|done|].
    assert (length (take (Z.to_nat ps) (drop (Z.to_nat (c + 1)) l)) = 0%nat) as Hz by (by rewrite <-Epage).
    rewrite length_take, length_drop in Hz. simpl in E2. lia.
  - injection Hw as <- <- <- <-. split_and!; try done. intros ->. destruct E4 as (t & Ht & Hterm).
    rewrite last_lookup in Ht. rewrite Eys in Ht. unfold segment in Ht. rewrite <-Eys in Ht at 1.
    rewrite lookup_take_Some, lookup_drop in Ht. destruct Ht as [Ht Hlt].
    pose proof (legal_terminal_last _ _ _ Hlegal Ht Hterm) as Hend.
    exists t. split_and!; [|done|].
    + rewrite last_lookup, <-Hend. done.
    + rewrite (legal_index _ _ _ Hlegal Ht). lia.
Qed.

Lemma segment_prefix c c' l l' :
  -1 <= c → c' + 1 <= Z.of_nat (length l) → segment c c' (l ++ l') = segment c c' l.
Proof.
  intros Hc Hlen. unfold segment. destruct (decide (c <= c')) as [Hle|Hgt].
  - rewrite drop_app_le by lia. rewrite take_app_le; [done|]. rewrite length_drop. lia.
  - assert (Z.to_nat (c' - c) = 0%nat) as -> by lia. done.
Qed.

Lemma segment_app c c1 c2 l :
  -1 <= c → c <= c1 <= c2 → segment c c1 l ++ segment c1 c2 l = segment c c2 l.
Proof.
  intros Hc Hle. unfold segment.
  replace (Z.to_nat (c1 + 1)) with (Z.to_nat (c + 1) + Z.to_nat (c1 - c))%nat by lia.
  rewrite <-drop_drop. replace (Z.to_nat (c2 - c)) with (Z.to_nat (c1 - c) + Z.to_nat (c2 - c1))%nat by lia.
  generalize (drop (Z.to_nat (c + 1)) l). intros m.
  rewrite <-(take_drop (Z.to_nat (c1 - c)) m) at 3.
  destruct (decide (Z.to_nat (c1 - c) <= length m)%nat) as [Hm|Hm].
  - rewrite take_app_add'; [done|]. rewrite length_take. lia.
  - rewrite (drop_ge m) by lia. rewrite take_nil, !app_nil_r, take_take.
    f_equal. lia.
Qed.

(** A watcher whose turns interleave with any other work, reconnecting
    from cursor [c], receives exactly the events numbered [c + 1] to its new
    cursor, in order, none twice and none missing; when it returns, the task is
    finished and its last event was delivered. *)
Theorem watch_complete owner i ps dbs c ys c' fin df l :
  Forall (fun d => running d ∧ rtc task_step d df) dbs → -1 <= c →
  (∀ d, d ∈ dbs → is_Some (events d !! (owner, i))) →
  events df !! (owner, i) = Some l →
  watch_over owner i ps dbs c = Ok (ys, c', fin) →
  c <= c' ∧ ys = segment c c' l ∧
  (fin = true → ∃ t, last l = Some t ∧ terminal t = true ∧ sequence t = c').
Proof.
  intros Hdbs. revert c ys c' fin. induction Hdbs as [|d dbs [Hrun Hlater] Hdbs IH]; intros c ys c' fin Hc Hev Hl.
  - simpl. intros [= <- <- <-]. split_and!; [lia| |done]. unfold segment. by rewrite Z.sub_diag.
  - simpl. destruct (watch_turn owner i c ps d) as [[[[ys1 c1] fin1]|err] d1] eqn:Hw; [|done].
    assert (is_Some (events d !! (owner, i))) as [ld Hld] by (apply Hev, list_elem_of_here).
    apply running_metered in Hrun as [Hd _].
    pose proof (turn_spec _ _ _ _ _ _ _ _ _ _ Hd Hld Hc Hw) as (H1 & H2 & Eys & H4). rewrite Eys.
    destruct (proj1 (steps_extend _ _ Hlater Hd) _ _ Hld) as (l' & Hl' & Hfinal).
    assert (l = ld ++ l') as -> by congruence. simpl.
    rewrite <-(segment_prefix c c1 ld l') by lia. destruct fin1.
    + intros [= <- <- <-]. split_and!; [done|done|]. intros _.
      destruct (H4 eq_refl) as (t & Ht & Hterm & Hsq). rewrite (Hfinal t Ht Hterm), app_nil_r. by exists t.
    + destruct (watch_over owner i ps dbs c1) as [[[zs c2] fin2]|] eqn:Hrest; [|done].
      intros [= <- <- <-]. apply IH in Hrest as (G1 & -> & G3); [|lia| |done].
      * split_and!; [lia| |done]. apply segment_app; lia.
      * intros d2 Hd2. apply Hev. by apply list_elem_of_further.
Qed.
End invariant.

(** ** A concrete run *)

Definition demo_task : TaskLifecycle := mkTask "t1" "c1" "a2a" SUBMITTED 0.
Definition demo_d0 : task_db := (start 2 4 true true None empty_tasks).2.
Definition demo_d1 : task_db := (create 2 true "own" demo_task demo_d0).2.
Definition demo_d2 : task_db := (transition 4 true "own" "t1" WORKING 0 demo_d1).2.
Definition demo_d3 : task_db := (transition 4 true "own" "t1" COMPLETED 1 demo_d2).2.

Local Notation demo_step := (task_step 2 4 true).

Lemma demo_step1 : demo_step demo_d0 demo_d1.
Proof.
  apply (ts_create 2 4 true "own" "t1" "c1" "a2a" SUBMITTED 0 demo_task demo_d0
    (create 2 true "own" demo_task demo_d0).1 demo_d1); [reflexivity|].
  apply surjective_pairing.
Qed.

Lemma demo_step2 : demo_step demo_d1 demo_d2.
Proof. eapply ts_transition, surjective_pairing. Qed.

Lemma demo_step3 : demo_step demo_d2 demo_d3.
Proof. eapply ts_transition, surjective_pairing. Qed.

Lemma demo_start : start 2 4 true true None empty_tasks = (Ok tt, demo_d0).
Proof. vm_compute. reflexivity. Qed.

Lemma demo_running1 : running 2 4 true demo_d1.
Proof. exists None, demo_d0. split; [exact demo_start|]. apply rtc_once, demo_step1. Qed.

Lemma demo_running2 : running 2 4 true demo_d2.
Proof.
  exists None, demo_d0. split; [exact demo_start|].
  eapply rtc_l; [exact demo_step1|]. apply rtc_once, demo_step2.
Qed.

Lemma demo_running3 : running 2 4 true demo_d3.
Proof.
  exists None, demo_d0. split; [exact demo_start|].
  eapply rtc_l; [exact demo_step1|]. eapply rtc_l; [exact demo_step2|]. apply rtc_once, demo_step3.
Qed.

Lemma demo_range_active : 1 <= 2 <= 10000.
Proof. lia. Qed.
Lemma demo_range_events : 3 <= 4 <= 10000.
Proof. lia. Qed.

Lemma task_invariant_witness : tasks_ok 2 4 demo_d3.
Proof. exact (task_invariant 2 4 true demo_range_active demo_range_events demo_d3 demo_running3). Defined.

Definition demo_event (x : TaskState) (n : Z) : TaskLifecycle := mkTask "t1" "c1" "a2a" x n.

Lemma history_append_only_witness :
  ∃ l', events demo_d3 !! ("own", "t1") = Some ([demo_task; demo_event WORKING 1] ++ l') ∧
    (∀ t, last [demo_task; demo_event WORKING 1] = Some t → terminal t = true → l' = []).
Proof.
  apply (history_append_only 2 4 true demo_range_active demo_range_events demo_d2 demo_d3);
    [exact demo_running2|apply rtc_once, demo_step3|vm_compute; reflexivity].
Defined.

Lemma task_can_always_end_witness :
  ∃ t d', transition 4 true "own" "t1" CANCELED 1 demo_d2 = (Ok t, d') ∧
    terminal t = true ∧ state t = CANCELED.
Proof.
  apply (task_can_always_end 2 4 true demo_range_active demo_range_events demo_d2 "own" "t1"
    (mkSnapshot (demo_event WORKING 1) false) CANCELED);
    [exact demo_running2|vm_compute; reflexivity|reflexivity|apply list_elem_of_further, list_elem_of_here].
Defined.

Lemma watch_complete_witness :
  -1 <= 2 ∧
  [demo_task; demo_event WORKING 1; demo_event COMPLETED 2] =
    segment (-1) 2 [demo_task; demo_event WORKING 1; demo_event COMPLETED 2] ∧
  (true = true → ∃ t, last [demo_task; demo_event WORKING 1; demo_event COMPLETED 2] = Some t ∧
     terminal t = true ∧ sequence t = 2).
Proof.
  apply (watch_complete 2 4 true demo_range_active demo_range_events "own" "t1" 16
    [demo_d1; demo_d2; demo_d3] (-1) _ 2 true demo_d3 _);
    [|lia| |vm_compute; reflexivity|vm_compute; reflexivity].
  - repeat constructor; try exact demo_running1; try exact demo_running2; try exact demo_running3;
      eauto using rtc_l, rtc_once, demo_step2, demo_step3, rtc_refl.
  - intros d Hd. set_unfold in Hd. destruct Hd as [->|[->|[->|[]]]]; eexists; vm_compute; reflexivity.
Defined.
