(* ===== verification/TaskIntents.v ===== *)
(** * Queued task intents

    [governance/task_intents.py]: the bounded, immutable record of a task that an
    authenticated agent submitted for later execution.  Accepting an intent
    writes its row and creates its SUBMITTED task in one transaction of the
    tenant's store.  A record is typed; its canonical JSON text is a codec
    (ASCII, so its length is its byte count).  Task snapshots are the lifecycle
    component's decoded values. *)

From stdpp Require Import base list gmap strings.
From Stdlib Require Import ZArith Lia.
From S2P Require Import Evidence Prelude PyFloat Json Identity Authority OperationLedger StreamLeases TaskLifecycle.

#[local] Open Scope Z_scope.

Record TaskSubmission := mkSubmission {
  sub_task : string;
  sub_context : string;
  sub_src : string;
  sub_dst : string;
  sub_wire : json;
  sub_operation : string;
  sub_target : string;
}.

(** What the authenticated session vouches for. *)
Record provenance := mkProvenance {
  authentication : string;
  prov_authority : Principal;
  authorization_expires_at : float64;
  request_body : string;
  body_sha256 : string;
  prov_nonce : string;
  signer_public_key_hex : string;
  prov_capability : string;
  operator_cost : float64;
  target_configuration_sha256 : string;
  approval_required_at_submission : bool;
}.

Record intent_record := mkIntentRecord {
  domain : string;
  submission : TaskSubmission;
  prov : provenance;
  accepted_at : float64;
  phase : string;
  execution_admitted : bool;
}.

(** The canonical text of a record, and [json.loads] of a stored one;
    [strict_loads] is [json.loads] that refuses duplicate members and
    non-finite numbers. *)
Class IntentCodec := {
  record_text : intent_record → string;
  record_of : string → option intent_record;
  strict_loads : string → outcome json;
  record_of_text r : record_of (record_text r) = Some r;
}.

(** ** Submissions *)

Definition text_field (lo hi : Z) (k : string) (o : list (string * json)) : outcome string :=
  match dict_get k o with
  | Some (JStr s) => if (lo <=? strlen s) && (strlen s <=? hi) then Ok s
                     else Raise (ValueError k)
  | _ => Raise (ValueError k)
  end.

Definition submission_fields : list string :=
  ["request_scope"; "task_id"; "context_id"; "src"; "dst"; "wire"; "operation_id"; "target_id"].

(** [TaskSubmission.model_validate]: strict, no extra member. *)
Definition validate_submission (j : json) : outcome TaskSubmission :=
  match j with
  | JObj o =>
      _ ← guard_or (forallb (fun k => bool_decide (k ∈ submission_fields)) (dict_keys o)) (ValueError "extra");
      _ ← guard_or (is_text "task.submit" (obj_get "request_scope" JNull o)) (ValueError "request_scope");
      t ← text_field 1 128 "task_id" o;
      c ← text_field 1 128 "context_id" o;
      s ← text_field 1 32 "src" o;
      d ← text_field 1 32 "dst" o;
      w ← match dict_get "wire" o with Some (JObj w) => Ok (JObj w) | _ => Raise (ValueError "wire") end;
      op ← text_field 16 128 "operation_id" o;
      tgt ← text_field 1 128 "target_id" o;
      Ok (mkSubmission t c s d w op tgt)
  | _ => Raise (ValueError "dict_type")
  end.

Section intents.
Context `{JsonText} `{Sha256} `{IntentCodec}.

(** [parse_submission]: every failure is one [ValueError]. *)
Definition parse_submission (body : string) : outcome TaskSubmission :=
  if 1048576 <? strlen body then Raise (ValueError "bounded signed JSON request required")
  else
    let checked :=
      j ← strict_loads body;
      sub ← validate_submission j;
      _ ← identifier (sub_src sub) "src";
      _ ← identifier (sub_dst sub) "dst";
      _ ← identifier (sub_target sub) "target_id";
      _ ← identifier (sub_operation sub) "operation_id";
      _ ← make_task (sub_task sub) (sub_context sub) "agentbridge" SUBMITTED 0;
      Ok sub in
    match checked with Ok sub => Ok sub | Raise _ => Raise (ValueError "invalid task submission") end.

(** [_json(submission.model_dump())]. *)
Definition submission_text (sub : TaskSubmission) : string :=
  canonical_dumps (JObj
    [("context_id", JStr (sub_context sub)); ("dst", JStr (sub_dst sub));
     ("operation_id", JStr (sub_operation sub)); ("request_scope", JStr "task.submit");
     ("src", JStr (sub_src sub)); ("target_id", JStr (sub_target sub)); ("task_id", JStr (sub_task sub));
     ("wire", sub_wire sub)]).

(** ** Limits *)

Record IntentLimits := mkIntentLimits {
  max_intent_bytes : Z;
  max_result_bytes : Z;
  max_intents : Z;
  max_retained_bytes : Z;
}.

Definition default_intent_limits : IntentLimits := mkIntentLimits 65536 65536 1024 134217728.

Definition bounded_by (lo hi x : Z) : bool := (lo <=? x) && (x <=? hi).

Definition limits_valid (l : IntentLimits) : bool :=
  bounded_by 256 1048576 (max_intent_bytes l) && bounded_by 1 1048576 (max_result_bytes l) &&
  bounded_by 1 1000000 (max_intents l) && bounded_by 256 1073741824 (max_retained_bytes l).

(** [IntentLimits.validated]. *)
Definition validated (l : IntentLimits) : outcome IntentLimits :=
  if limits_valid l then Ok l else Raise (ValueError "invalid bounded intent capacity").

(** ** The tables *)

Record intent_row := mkIntentRow {
  i_agent : string;
  i_operation : string;
  i_fingerprint : string;
  i_record : string;
  i_result_limit : Z;
}.

(** Keys are (owner_id, task_id); the policy with its version, and the version
    in the meta table. *)
Record intent_db := mkIntents {
  task_intents : gmap (string * string) intent_row;
  intent_policy : option (Z * IntentLimits);
  intent_meta : option Z;
}.

Definition row_bytes (r : intent_row) : Z := strlen (i_record r) + i_result_limit r.

(** [_usage]. *)
Definition used_intents (d : intent_db) : Z := Z.of_nat (size (task_intents d)).
Definition used_retained_bytes (d : intent_db) : Z := sum_map row_bytes (task_intents d).

Definition no_policy : pyexn := TaskIntentCapacity "missing or unsupported persisted intent policy".

(** [_policy]. *)
Definition persisted_policy (d : intent_db) : outcome IntentLimits :=
  match intent_meta d, intent_policy d with
  | Some 1, Some (1, l) => if limits_valid l then Ok l else Raise no_policy
  | _, _ => Raise no_policy
  end.

(** [__init__]: [fresh] when the tables did not exist. *)
Definition start_intents (fresh : bool) : M intent_db unit :=
  _ ← (if fresh then modify (fun d => mkIntents (task_intents d) (Some (1, default_intent_limits)) (Some 1))
       else mret tt);
  d ← get;
  _ ← lift (persisted_policy d);
  mret tt.

(** [task_intent_bounds_v1]: the insert trigger. *)
Definition intent_bounds (r : intent_row) (d : intent_db) : bool :=
  match intent_meta d, intent_policy d with
  | Some 1, Some (1, l) =>
      limits_valid l && (strlen (i_record r) <=? max_intent_bytes l) &&
      (i_result_limit r =? max_result_bytes l) && (used_intents d <? max_intents l) &&
      (used_retained_bytes d + row_bytes r <=? max_retained_bytes l)
  | _, _ => false
  end.

Definition operation_taken (ag op : string) (d : intent_db) : bool :=
  bool_decide (map_Exists (fun _ r => i_agent r = ag ∧ i_operation r = op) (task_intents d)).

(** [INSERT INTO task_intents_v1]: the column check, the trigger and the keys. *)
Definition insert_intent (k : string * string) (r : intent_row) : M intent_db unit :=
  d ← get;
  _ ← ensure (bounded_by 1 1048576 (i_result_limit r)) (IntegrityError "result_limit_bytes");
  _ ← ensure (intent_bounds r d) (IntegrityError "intent capacity reached or policy unavailable");
  _ ← ensure (bool_decide (task_intents d !! k = None) && negb (operation_taken (i_agent r) (i_operation r) d))
             (IntegrityError "task_intents_v1");
  put (mkIntents (<[k := r]> (task_intents d)) (intent_policy d) (intent_meta d)).

(** ** The store *)

Section store.
Context {S : Type} `{!Lens S intent_db} `{!Lens S task_db} `{!Lens S ledger}.
(** The tenant of the store, and its lifecycle store's limits. *)
Context (tenant : string) (max_active max_events : Z).

Definition intents_of (s : S) : intent_db := view s.
Definition tasks_of (s : S) : task_db := view s.

Definition capacity : M S (IntentLimits * Z * Z) :=
  s ← get;
  l ← lift (persisted_policy (intents_of s));
  mret (l, used_intents (intents_of s), used_retained_bytes (intents_of s)).

Definition set_capacity (l : IntentLimits) (audit : M S unit) : M S unit :=
  _ ← lift (validated l);
  atomic (
    s ← get;
    let d := intents_of s in
    _ ← lift (persisted_policy d);
    _ ← ensure (negb ((max_intents l <? used_intents d) || (max_retained_bytes l <? used_retained_bytes d)))
               (TaskIntentCapacity "capacity cannot discard retained intent history or result allowances");
    _ ← put (update (mkIntents (task_intents d)
               (match intent_policy d with Some (v, _) => Some (v, l) | None => None end) (intent_meta d)) s);
    audit).

(** The record of an accepted submission. *)
Definition queued_record (sub : TaskSubmission) (p : provenance) (now : float64) : intent_record :=
  mkIntentRecord "agentbridge.queued-task-intent.v1" sub p now "queued" false.

Definition intent_conflict : pyexn :=
  TaskIntentConflict "retained task or operation identity already exists; no replacement".

(** [_accept]; [now] is the database clock. *)
Definition accept (owner : string) (sub : TaskSubmission) (p : provenance) (audit : string → M S unit)
    (now : float64) : M S intent_row :=
  atomic (
    s ← get;
    let d := intents_of s in
    l ← lift (persisted_policy d);
    let ag := default "" (p_agent_id (prov_authority p)) in
    let k := (owner, sub_task sub) in
    _ ← ensure (bool_decide (task_intents d !! k = None) && negb (operation_taken ag (sub_operation sub) d) &&
                bool_decide (snapshots (tasks_of s) !! k = None) &&
                bool_decide (ops (led s) !! (ag, sub_operation sub) = None)) intent_conflict;
    let raw := record_text (queued_record sub p now) in
    let fp := sha256_hex raw in
    _ ← ensure (negb ((max_intent_bytes l <? strlen raw) || (max_intents l <=? used_intents d) ||
                      (max_retained_bytes l <? used_retained_bytes d + strlen raw + max_result_bytes l)))
               (TaskIntentCapacity "retained intent capacity reached; reviewed capacity increase required");
    let row := mkIntentRow ag (sub_operation sub) fp raw (max_result_bytes l) in
    _ ← zoom (insert_intent k row);
    t ← lift (make_task (sub_task sub) (sub_context sub) "agentbridge" SUBMITTED 0);
    _ ← catch (_ ← zoom (create max_active true owner t); mret tt)
          (fun x => match x with
                    | LifecycleCapacity _ =>
                        Some (raise (TaskIntentCapacity "task lifecycle capacity unavailable for queued intent"))
                    | _ => None
                    end);
    _ ← audit fp;
    mret row).

(** [get]. *)
Definition get_intent (owner i : string) : M S intent_row :=
  _ ← lift (identifier owner "authenticated owner_id");
  _ ← lift (identifier i "task_id");
  s ← get;
  match task_intents (intents_of s) !! (owner, i) with
  | None => raise (AuthorityDenied "task intent unavailable for authenticated owner")
  | Some r => mret r
  end.

(** ** Reading back for execution *)

Record stored_intent := mkStored {
  st_owner : string;
  st_task : string;
  st_agent : string;
  st_operation : string;
  st_sha256 : string;
  st_record : string;
  st_result_limit : Z;
}.

Definition unavailable : pyexn :=
  AuthorityDenied "retained queued intent integrity or ownership unavailable".

(** The retained fields the loader insists on. *)
Definition record_intact (owner i : string) (row : intent_row) (r : intent_record) (sub : TaskSubmission) : bool :=
  let p := prov r in
  bool_decide (domain r = "agentbridge.queued-task-intent.v1") && bool_decide (phase r = "queued") &&
  negb (execution_admitted r) && bool_decide (authentication p = "enrolled-tenant-request-v2") &&
  fisfinite (authorization_expires_at p) && fisfinite (accepted_at r) &&
  fltb fzero (accepted_at r) && fltb (accepted_at r) (authorization_expires_at p) &&
  bool_decide (sha256_hex (request_body p) = body_sha256 p) &&
  bool_decide (submission_text sub = submission_text (submission r)) &&
  bool_decide (tenant_id (prov_authority p) = Some tenant) &&
  bool_decide (p_agent_id (prov_authority p) = Some (i_agent row)) &&
  is_agent_kind (kind (prov_authority p)) && bool_decide (binding_owner (prov_authority p) = Ok owner) &&
  bool_decide (sub_task sub = i) && bool_decide (sub_operation sub = i_operation row) &&
  bounded_by 1 1048576 (i_result_limit row).

(** [_load_immutable]: the intent, its task as created and as it is now. *)
Definition load_immutable (owner i sha : string) : M S (stored_intent * TaskLifecycle * TaskLifecycle) :=
  _ ← lift (identifier owner "authenticated owner_id");
  _ ← lift (identifier i "task_id");
  _ ← ensure (sha256_text sha) (AuthorityDenied "exact retained intent digest required");
  s ← get;
  lift (
    let k := (owner, i) in
    match task_intents (intents_of s) !! k with
    | None => Raise unavailable
    | Some row =>
        if negb (bool_decide (i_fingerprint row = sha) && bool_decide (sha256_hex (i_record row) = sha))
        then Raise unavailable
        else match record_of (i_record row) with
        | None => Raise unavailable
        | Some r =>
            match parse_submission (request_body (prov r)) with
            | Raise _ => Raise unavailable
            | Ok sub =>
                if negb (record_intact owner i row r sub) then Raise unavailable
                else match head (filter (fun e => sequence e = 0) (task_events k (tasks_of s))),
                           snapshots (tasks_of s) !! k with
                | Some initial, Some current =>
                    if bool_decide (Ok initial = make_task i (sub_context sub) "agentbridge" SUBMITTED 0)
                    then Ok (mkStored owner i (i_agent row) (i_operation row) sha (i_record row)
                               (i_result_limit row), initial, snap current)
                    else Raise unavailable
                | _, _ => Raise unavailable
                end
            end
        end
    end).

(** [_load_for_execution]. *)
Definition load_for_execution (owner i sha : string) : M S stored_intent :=
  '(intent, initial, current) ← load_immutable owner i sha;
  _ ← ensure (bool_decide (current = initial)) unavailable;
  mret intent.
End store.
End intents.
