(* ===== verification/QueuedDestination.v ===== *)
(** * The queued destination

    The version 2 contract of a supervised SQLite destination:
    [governance/queued_destination_contract.py], the queued envelopes of
    [destination_receipts.py], [readback_attestations.py] and [trust_sdk.py],
    [commit_queued] of [fenced_sqlite_destination.py] and [observe_queued] of
    [sandbox_readback.py].

    Envelopes are typed records, so their field sets are exact by construction;
    their canonical JSON texts are a codec.  The qualification of the SQL schema
    is one flag of the destination's state.  [commit_queued] reads the
    destination's clock twice. *)

From stdpp Require Import base list gmap strings.
From Stdlib Require Import ZArith Lia.
From S2P Require Import Prelude PyFloat Identity Authority Json Evidence Fencing.

#[local] Open Scope Z_scope.

(** ** Values *)

(** UTF-8 length of text whose code points are below 256. *)
Fixpoint utf8_len (s : string) : Z :=
  match s with
  | EmptyString => 0
  | String c s' => (if code c <? 128 then 1 else 2) + utf8_len s'
  end.

Definition no_nul (s : string) : bool := str_forallb (fun c => negb (code c =? 0)) s.

Definition queued_identifier (s : string) : bool :=
  (1 <=? strlen s) && (strlen s <=? 128) && no_nul s && negb (bool_decide (strip s = "")) &&
  bool_decide (strip s = s) && (utf8_len s <=? 512).

Definition queued_hex (size : Z) (s : string) : bool := (strlen s =? size) && str_forallb is_lower_hex s.

Definition queued_seconds (x : float64) : bool :=
  fltb fzero x && fleb x (fl 253402300800) && fisfinite x.

Definition MAX_ACTION_BYTES : Z := 4096.
Definition MAX_VALUE_BYTES : Z := 1024.
Definition MAX_AUTHORIZATION_BYTES : Z := 8192.
Definition MAX_RECEIPT_BYTES : Z := 16384.
Definition MAX_READBACK_BYTES : Z := 16384.
Definition MAX_RESULT_BYTES : Z := 512.
Definition QUEUED_RESULT_ENVELOPE_LIMIT_BYTES : Z := 65536.

Record descriptor := mkDescriptor {
  de_kind : string;
  de_protocol : string;
  de_tenant : string;
  de_target : string;
  de_destination : string;
  de_path : string;
  de_schema : string;
  de_authorizer_id : string;
  de_authorizer_hex : string;
  de_signer_id : string;          (* [destination_key_id] *)
  de_signer_hex : string;
  de_observer_id : string;
  de_observer_hex : string;
  de_timeout : float64;
  de_max_action : Z;
}.

#[global] Instance descriptor_eq_dec : EqDecision descriptor.
Proof. solve_decision. Defined.

Record authorization := mkAuthorization {
  z_tenant : string;
  z_store : string;
  z_owner : string;
  z_agent : string;
  z_authority_sha : string;
  z_task : string;
  z_context : string;
  z_intent_sha : string;
  z_link_sha : string;
  z_fingerprint : string;
  z_original_sha : string;
  z_target : string;
  z_target_sha : string;
  z_destination : string;
  z_operation : string;
  z_action_sha : string;
  z_result_limit : Z;
  z_attempt : string;
  z_fence_scope : string;
  z_fence_owner : string;
  z_fence_epoch : Z;
  z_issued : float64;
  z_expires : float64;
  z_authorizer_id : string;
  z_signature : string;
}.

#[global] Instance authorization_eq_dec : EqDecision authorization.
Proof. solve_decision. Defined.

(** [agentbridge.demo-result.v1]. *)
Record demo_outcome := mkOutcome { stored_sha256 : string; stored_bytes : Z; effect_id : string }.

#[global] Instance demo_outcome_eq_dec : EqDecision demo_outcome.
Proof. solve_decision. Defined.

(** The fields a receipt and a readback share. *)
Record commitment := mkCommitment {
  c_authorization_sha : string;
  c_tenant : string;
  c_agent : string;
  c_operation : string;
  c_fingerprint : string;
  c_target : string;
  c_destination : string;
  c_attempt : string;
  c_epoch : Z;
  c_action_sha : string;
  c_outcome : string;
  c_reference : string;
  c_committed : float64;
  c_result_sha : string;
}.

#[global] Instance commitment_eq_dec : EqDecision commitment.
Proof. solve_decision. Defined.

Record receipt := mkReceipt { rc_fields : commitment; rc_key_id : string; rc_signature : string }.

#[global] Instance receipt_eq_dec : EqDecision receipt.
Proof. solve_decision. Defined.

Record readback := mkReadback {
  rb_fields : commitment;
  rb_receipt_sha : string;
  rb_observed : Z;
  rb_source : string;
  rb_source_sha : string;
  rb_key_id : string;
  rb_signature : string;
}.

(** Canonical JSON texts; the payloads are the texts that are signed, and leave
    the signature out.  A text determines its value, and the text of an envelope
    is its four parts after their keys. *)
Class QueuedCodec := {
  descriptor_text : descriptor → string;
  authorization_payload : authorization → string;
  authorization_text : authorization → string;
  result_text : demo_outcome → string;
  receipt_payload : receipt → string;
  receipt_text : receipt → string;
  readback_payload : readback → string;
  readback_text : readback → string;
  source_text : authorization → string → demo_outcome → receipt → string;
  envelope_text : authorization → demo_outcome → receipt → readback → string;
  authorization_text_inj a b : authorization_text a = authorization_text b → a = b;
  result_text_inj a b : result_text a = result_text b → a = b;
  readback_payload_unsigned f sha n so ev k sg :
    readback_payload (mkReadback f sha n so ev k sg) = readback_payload (mkReadback f sha n so ev k "");
  envelope_length a r rc rb : strlen (envelope_text a r rc rb) =
    strlen (authorization_text a) + strlen (result_text r) + strlen (receipt_text rc) + strlen (readback_text rb) + 75;
}.

Section contract.
Context `{JsonText} `{Sha256} `{Ed25519} `{QueuedCodec}.
(** [Path(path).is_absolute()], and [str(Path(path).resolve())] when it
    resolves. *)
Context (absolute : string → bool) (resolve_path : string → option string).

(** ** The destination's configuration *)

Definition bad_descriptor {A} (msg : string) : outcome A := Raise (ValueError msg).

Definition path_text_ok (path : string) : bool :=
  negb (bool_decide (path = "")) && (strlen path <=? 1024) && no_nul path &&
  negb (bool_decide (path = ":memory:")) && negb (String.prefix "file:" path) &&
  negb (String.prefix "\\" path) && negb (String.prefix "//" path) && absolute path.

Definition with_path (path : string) (d : descriptor) : descriptor :=
  mkDescriptor (de_kind d) (de_protocol d) (de_tenant d) (de_target d) (de_destination d) path (de_schema d)
    (de_authorizer_id d) (de_authorizer_hex d) (de_signer_id d) (de_signer_hex d) (de_observer_id d)
    (de_observer_hex d) (de_timeout d) (de_max_action d).

Definition normalize_queued_descriptor (d : descriptor) : outcome descriptor :=
  if negb (bool_decide (de_kind d = "queued_fenced_sqlite_v2") && bool_decide (de_protocol d = "mcp") &&
           bool_decide (de_schema d = "agentbridge.demo.append.v1") && (de_max_action d =? MAX_ACTION_BYTES))
  then bad_descriptor "unsupported queued demonstration contract"
  else if negb (forallb queued_identifier [de_tenant d; de_target d; de_destination d; de_authorizer_id d;
                                           de_signer_id d; de_observer_id d])
  then bad_descriptor "bounded queued destination identity required"
  else if negb (forallb (queued_hex 64) [de_authorizer_hex d; de_signer_hex d; de_observer_hex d])
  then bad_descriptor "canonical 32-byte Ed25519 trust roots required"
  else if negb (bool_decide (NoDup [de_authorizer_hex d; de_signer_hex d; de_observer_hex d]))
  then bad_descriptor "authorization, destination and observer trust roots must be distinct"
  else if negb (bool_decide (NoDup [de_authorizer_id d; de_signer_id d; de_observer_id d]))
  then bad_descriptor "signing key identities must be distinct"
  else if negb (fltb fzero (de_timeout d) && fleb (de_timeout d) (fl 10) && fisfinite (de_timeout d))
  then bad_descriptor "queued destination timeout must be finite and at most ten seconds"
  else if negb (path_text_ok (de_path d)) then bad_descriptor "dedicated absolute SQLite destination path required"
  else match resolve_path (de_path d) with
       | None => bad_descriptor "invalid destination path"
       | Some path =>
           if (4096 <? utf8_len path) || (1024 <? strlen path)
           then bad_descriptor "destination path exceeds bounds"
           else let d' := with_path path d in
                if 8192 <? strlen (descriptor_text d')
                then bad_descriptor "normalized queued descriptor exceeds byte limit"
                else Ok d'
       end.

Definition queued_descriptor_sha256 (d : descriptor) : outcome string :=
  d ← normalize_queued_descriptor d; Ok (sha256_hex (descriptor_text d)).

(** ** The action *)

(** The value of the only supported wire. *)
Definition demo_value (wire : json) : outcome string :=
  match wire with
  | JObj w =>
      if negb (keys_are ["method"; "params"] w && is_text "tools/call" (field "method" w))
      then Raise (ValueError "exact queued MCP tools/call required")
      else match field "params" w with
      | JObj params =>
          if negb (keys_are ["name"; "arguments"] params && is_text "write" (field "name" params))
          then Raise (ValueError "only the bounded demonstration write tool is supported")
          else match field "arguments" params with
          | JObj args =>
              if negb (keys_are ["value"] args) then Raise (ValueError "one demonstration string value required")
              else match field "value" args with
                   | JStr v => Ok v
                   | _ => Raise (ValueError "one demonstration string value required")
                   end
          | _ => Raise (ValueError "one demonstration string value required")
          end
      | _ => Raise (ValueError "only the bounded demonstration write tool is supported")
      end
  | _ => Raise (ValueError "exact queued MCP tools/call required")
  end.

Definition canonical_demo_action (wire : json) : outcome string :=
  v ← demo_value wire;
  _ ← guard_or (utf8_len v <=? MAX_VALUE_BYTES) (ValueError "demonstration value exceeds UTF-8 byte limit");
  let raw := canonical_dumps wire in
  _ ← guard_or (strlen raw <=? MAX_ACTION_BYTES) (ValueError "demonstration action exceeds canonical byte limit");
  Ok raw.

Definition parse_demo_action (action : string) : outcome json :=
  _ ← guard_or ((1 <=? strlen action) && (strlen action <=? MAX_ACTION_BYTES))
               (ValueError "bounded canonical action bytes required");
  wire ← json_loads action;
  raw ← canonical_demo_action wire;
  _ ← guard_or (bool_decide (raw = action)) (ValueError "action is not its exact canonical encoding");
  Ok wire.

Definition queued_effect_id (authorization_sha : string) : outcome string :=
  _ ← guard_or (queued_hex 64 authorization_sha) (ValueError "exact queued authorization digest required");
  Ok ("sqlite-queued-effect-v2:" +:+ authorization_sha)%string.

Definition demo_result (action authorization_sha : string) : outcome demo_outcome :=
  wire ← parse_demo_action action;
  v ← demo_value wire;
  effect ← queued_effect_id authorization_sha;
  Ok (mkOutcome (sha256_hex v) (utf8_len v) effect).

(** ** Envelopes *)

Definition untrusted {A} (msg : string) : outcome A := Raise (UntrustedReceipt msg).

(** [except (ValueError, ...)]: an error that is not already [UntrustedReceipt]
    becomes one. *)
Definition as_untrusted {A} (msg : string) (o : outcome A) : outcome A :=
  match o with
  | Ok a => Ok a
  | Raise (UntrustedReceipt m) => Raise (UntrustedReceipt m)
  | Raise _ => untrusted msg
  end.

Definition queued_authorization_sha256 (a : authorization) : string := sha256_hex (authorization_text a).

Definition verify_queued_signature (signature payload public_hex label : string) : outcome unit :=
  _ ← guard_or (queued_hex 128 signature) (UntrustedReceipt ("invalid " +:+ label +:+ " signature encoding"));
  guard_or (public_key_ok public_hex && ed_verify public_hex payload signature)
           (UntrustedReceipt ("invalid " +:+ label +:+ " signature")).

Definition authorization_identifiers (a : authorization) : list string :=
  [z_tenant a; z_store a; z_owner a; z_agent a; z_task a; z_context a; z_target a; z_destination a;
   z_operation a; z_attempt a; z_fence_scope a; z_fence_owner a; z_authorizer_id a].

Definition authorization_digests (a : authorization) : list string :=
  [z_authority_sha a; z_intent_sha a; z_link_sha a; z_fingerprint a; z_original_sha a; z_target_sha a; z_action_sha a].

(** The signed window, and [now] within it when given. *)
Definition window_ok (a : authorization) (timeout : float64) (now : option float64) : outcome unit :=
  _ ← guard_or (queued_seconds (z_issued a) && queued_seconds (z_expires a) && fltb (z_issued a) (z_expires a) &&
                negb (fgtb (z_expires a) (fadd (z_issued a) timeout)))
               (UntrustedReceipt "invalid queued authorization window");
  guard_or (match now with
            | None => true
            | Some t => queued_seconds t && fleb (z_issued a) t && fltb t (z_expires a)
            end)
           (UntrustedReceipt "queued execution authorization is expired or not yet valid").

Definition verify_queued_authorization (a : authorization) (d : descriptor) (action : string)
    (now : option float64) : outcome string :=
  _ ← as_untrusted "malformed queued authorization or destination configuration" (
    d ← normalize_queued_descriptor d;
    _ ← parse_demo_action action;
    _ ← guard_or (strlen (authorization_text a) <=? MAX_AUTHORIZATION_BYTES)
                 (UntrustedReceipt "queued authorization exceeds byte limit");
    _ ← guard_or (forallb queued_identifier (authorization_identifiers a))
                 (UntrustedReceipt "invalid queued authorization identifier");
    _ ← guard_or (forallb (queued_hex 64) (authorization_digests a))
                 (UntrustedReceipt "invalid queued authorization digest");
    sha ← queued_descriptor_sha256 d;
    _ ← guard_or (bool_decide (z_tenant a = de_tenant d) && bool_decide (z_target a = de_target d) &&
                  bool_decide (z_destination a = de_destination d) &&
                  bool_decide (z_authorizer_id a = de_authorizer_id d) &&
                  bool_decide (z_target_sha a = sha) && bool_decide (z_action_sha a = sha256_hex action))
                 (UntrustedReceipt "queued authorization disagrees with configured destination or action");
    _ ← guard_or ((1 <=? z_fence_epoch a) && (z_fence_epoch a <=? 9223372036854775807) &&
                  (1 <=? z_result_limit a) && (z_result_limit a <=? 1048576))
                 (UntrustedReceipt "invalid queued authorization epoch or result limit");
    _ ← window_ok a (de_timeout d) now;
    verify_queued_signature (z_signature a) (authorization_payload a) (de_authorizer_hex d) "queued authorization");
  Ok (queued_authorization_sha256 a).

(** The fields of a receipt for [a], its result and its commit time. *)
Definition commitment_of (a : authorization) (sha : string) (result : demo_outcome) (committed : float64)
  : commitment :=
  mkCommitment sha (z_tenant a) (z_agent a) (z_operation a) (z_fingerprint a) (z_target a) (z_destination a)
    (z_attempt a) (z_fence_epoch a) (z_action_sha a) "succeeded" (effect_id result) committed
    (sha256_hex (result_text result)).

Definition verify_queued_destination_receipt (r : receipt) (a : authorization) (action : string)
    (d : descriptor) (result : demo_outcome) : outcome string :=
  sha ← verify_queued_authorization a d action None;
  _ ← as_untrusted "malformed queued destination receipt or result" (
    d ← normalize_queued_descriptor d;
    _ ← guard_or (strlen (receipt_text r) <=? MAX_RECEIPT_BYTES) (UntrustedReceipt "queued receipt exceeds byte limit");
    expected ← demo_result action sha;
    _ ← guard_or (bool_decide (result_text result = result_text expected) &&
                  (strlen (result_text result) <=? MAX_RESULT_BYTES))
                 (UntrustedReceipt "queued result is not the exact bounded demonstration effect");
    let committed := c_committed (rc_fields r) in
    _ ← guard_or (bool_decide (rc_fields r = commitment_of a sha result committed) &&
                  bool_decide (rc_key_id r = de_signer_id d))
                 (UntrustedReceipt "queued receipt does not match exact authorization and result");
    _ ← guard_or (queued_seconds committed && fleb (z_issued a) committed && fltb committed (z_expires a))
                 (UntrustedReceipt "queued receipt commit is outside signed execution window");
    verify_queued_signature (rc_signature r) (receipt_payload r) (de_signer_hex d) "queued destination");
  Ok (sha256_hex (receipt_text r)).

Definition QUEUED_READBACK_SOURCE : string := "queued-sqlite:read-only-authoritative-sql-v2".

Definition untrusted_readback {A} (msg : string) : outcome A := Raise (UntrustedReadback msg).

Definition as_untrusted_readback {A} (o : outcome A) : outcome A :=
  match o with
  | Ok a => Ok a
  | Raise (UntrustedReadback m) => Raise (UntrustedReadback m)
  | Raise _ => untrusted_readback "untrusted queued readback evidence"
  end.

(** [now] is the verifier's clock; the readback may be 300 seconds old. *)
Definition verify_queued_readback_attestation (p : readback) (a : authorization) (action : string)
    (d : descriptor) (result : demo_outcome) (r : receipt) (now : Z) : outcome string :=
  _ ← as_untrusted_readback (
    d ← normalize_queued_descriptor d;
    receipt_sha ← verify_queued_destination_receipt r a action d result;
    _ ← guard_or (strlen (readback_text p) <=? MAX_READBACK_BYTES) (UntrustedReadback "queued readback exceeds byte limit");
    _ ← guard_or (bool_decide (rb_fields p = rc_fields r) && bool_decide (rb_receipt_sha p = receipt_sha) &&
                  bool_decide (rb_source p = QUEUED_READBACK_SOURCE) &&
                  bool_decide (rb_key_id p = de_observer_id d) &&
                  bool_decide (rb_source_sha p = sha256_hex (source_text a action result r)))
                 (UntrustedReadback "queued readback disagrees with exact committed evidence");
    _ ← guard_or (queued_seconds (fl (rb_observed p)) && (now - 300 <=? rb_observed p) && (rb_observed p <=? now + 30) &&
                  negb (fgtb (c_committed (rb_fields p)) (fl (rb_observed p + 30))))
                 (UntrustedReadback "queued readback is stale or from the future");
    _ ← guard_or (queued_hex 128 (rb_signature p)) (UntrustedReadback "invalid queued readback signature encoding");
    guard_or (public_key_ok (de_observer_hex d) && ed_verify (de_observer_hex d) (readback_payload p) (rb_signature p))
             (ValueError "signature"));
  Ok (sha256_hex (readback_text p)).

(** [VerifiedQueuedActionEvidence]: the authorization's identity with the
    digests of the evidence. *)
Record verified_evidence := mkVerified {
  ve_authorization : authorization;
  ve_receipt_sha : string;
  ve_readback_sha : string;
  ve_outcome : string;
  ve_reference : string;
  ve_committed : float64;
}.

Definition verify_queued_action_evidence (a : authorization) (action : string) (d : descriptor)
    (result : demo_outcome) (r : receipt) (p : readback) (now : Z) : outcome verified_evidence :=
  receipt_sha ← verify_queued_destination_receipt r a action d result;
  readback_sha ← verify_queued_readback_attestation p a action d result r now;
  _ ← guard_or (strlen (envelope_text a result r p) <=? Z.min (z_result_limit a) QUEUED_RESULT_ENVELOPE_LIMIT_BYTES)
               (ValueError "queued result and evidence exceed immutable result allowance");
  Ok (mkVerified a receipt_sha readback_sha "succeeded" (effect_id result) (c_committed (rc_fields r))).

(** ** The destination's tables *)

Record effect := mkQueuedEffect {
  e_authorization : authorization;
  e_authorization_sha : string;
  e_action : string;
  e_result : demo_outcome;
  e_receipt : receipt;
  e_receipt_sha : string;
}.

Record qdest := mkQdest {
  q_lease : destination float64;                          (* the fences *)
  q_effects : gmap (string * string * string) effect;     (* by tenant, agent, operation *)
  q_binding : option descriptor;
  q_schema : bool;                                        (* the schema is the expected one *)
}.

#[global] Program Instance lens_lease : Lens qdest (destination float64) := {
  view := q_lease;
  update x s := mkQdest x (q_effects s) (q_binding s) (q_schema s) }.
Solve All Obligations with by intros; try destruct s.

(** [_qualify_queued_destination]. *)
Definition qualify (d : descriptor) (q : qdest) : outcome unit :=
  _ ← guard_or (q_schema q) (ValueError "partial, unqualified or unexpected queued destination schema");
  match q_binding q with
  | Some b => guard_or (bool_decide (descriptor_text b = descriptor_text d))
                       (ValueError "queued destination binding is missing, changed or unsupported")
  | None => Raise (ValueError "queued destination binding is missing, oversized or unsupported")
  end.

(** [_initialize_queued]: a fresh file is bound to its descriptor. *)
Definition initialize_queued (fresh : bool) (d : descriptor) : M qdest unit :=
  atomic (
    _ ← (if fresh then modify (fun q => mkQdest (q_lease q) (q_effects q) (Some d) true) else mret tt);
    q ← get;
    lift (qualify d q)).

Definition effect_key (a : authorization) : string * string * string := (z_tenant a, z_agent a, z_operation a).

Definition attempt_taken (a : authorization) (q : qdest) : bool :=
  bool_decide (map_Exists (fun k e => k.1.1 = z_tenant a ∧ z_attempt (e_authorization e) = z_attempt a) (q_effects q)).

(** The fence's row still grants [a] at [now]. *)
Definition fence_grants (a : authorization) (now : float64) (q : qdest) : bool :=
  match fences (q_lease q) !! z_fence_scope a with
  | Some f => Sqlite.live f (z_fence_owner a) (z_fence_epoch a) now && negb (fgtb (z_expires a) (f_expires f))
  | None => false
  end.

(** The [CHECK]s of [ab_queued_effects_v2]. *)
Definition effect_checks (e : effect) : bool :=
  let a := e_authorization e in
  forallb (bounded 128) [z_tenant a; z_agent a; z_operation a; z_attempt a; z_fence_scope a; z_fence_owner a] &&
  forallb (fun s => strlen s =? 64) [e_authorization_sha e; z_fingerprint a; z_action_sha a;
    c_result_sha (rc_fields (e_receipt e)); e_receipt_sha e] &&
  bounded MAX_ACTION_BYTES (e_action e) && bounded MAX_AUTHORIZATION_BYTES (authorization_text a) &&
  bounded MAX_RESULT_BYTES (result_text (e_result e)) && bounded MAX_RECEIPT_BYTES (receipt_text (e_receipt e)) &&
  (strlen (effect_id (e_result e)) =? 88) &&
  fltb fzero (c_committed (rc_fields (e_receipt e))) &&
  fleb (c_committed (rc_fields (e_receipt e))) (fl 253402300800) && (1 <=? z_fence_epoch a).

Definition insert_effect (e : effect) : M qdest unit :=
  q ← get;
  let a := e_authorization e in
  _ ← ensure (effect_checks e) (IntegrityError "ab_queued_effects_v2");
  _ ← ensure (bool_decide (q_effects q !! effect_key a = None) && negb (attempt_taken a q))
             (IntegrityError "ab_queued_effects_v2");
  put (mkQdest (q_lease q) (<[effect_key a := e]> (q_effects q)) (q_binding q) (q_schema q)).

Definition lost_fence : pyexn := SqliteFenceDenied "stale, expired or unauthorized queued destination fence".

(** The transaction of [commit_queued]; [sign] is the destination's signer,
    [now] the clock read under the write lock and [now'] the one read after
    signing. *)
Definition commit_locked (sign : string → outcome string) (d : descriptor) (a : authorization) (action : string)
    (now now' : float64) : M qdest (demo_outcome * receipt) :=
  q ← get;
  _ ← lift (qualify d q);
  _ ← ensure (bool_decide (is_Some (fences (q_lease q) !! z_fence_scope a)))
             (SqliteFenceDenied "missing authoritative queued destination fence");
  sha ← lift (verify_queued_authorization a d action (Some now));
  _ ← ensure (fence_grants a now q) lost_fence;
  _ ← ensure (QUEUED_RESULT_ENVELOPE_LIMIT_BYTES <=? z_result_limit a)
             (ValueError "immutable result allowance cannot hold bounded queued evidence");
  _ ← ensure (bool_decide (q_effects q !! effect_key a = None) && negb (attempt_taken a q))
             (SqliteDuplicateEffect "queued operation or attempt already executed; no replay");
  result ← lift (demo_result action sha);
  let unsigned := mkReceipt (commitment_of a sha result now) (de_signer_id d) "" in
  signature ← lift (sign (receipt_payload unsigned));
  _ ← ensure (strlen signature =? 128) (ValueError "destination signature invalid");
  let r := mkReceipt (rc_fields unsigned) (rc_key_id unsigned) signature in
  receipt_sha ← lift (verify_queued_destination_receipt r a action d result);
  _ ← ensure (fence_grants a now' q) (SqliteFenceDenied "queued destination fence expired or changed while signing");
  _ ← lift (verify_queued_authorization a d action (Some now'));
  _ ← insert_effect (mkQueuedEffect a sha action result r receipt_sha);
  mret (result, r).

(** [commit_queued]: a structural check first, then the transaction; with
    [lose_ack] the caller does not learn that it committed. *)
Definition commit_queued (sign : string → outcome string) (d : descriptor) (a : authorization) (action : string)
    (lose_ack : bool) (now now' : float64) : M qdest (demo_outcome * receipt) :=
  _ ← lift (verify_queued_authorization a d action None);
  out ← atomic (commit_locked sign d a action now now');
  if lose_ack then raise (TimeoutError "committed queued SQLite destination effect; acknowledgement dropped")
  else mret out.

(** ** The read-only observer *)

Definition unobserved {A} (msg : string) : outcome A := Raise (ObservationUnavailable msg).

Definition as_unobserved {A} (o : outcome A) : outcome A :=
  match o with
  | Ok a => Ok a
  | Raise (ObservationUnavailable m) => unobserved m
  | Raise _ => unobserved "authoritative queued state is unavailable or untrusted"
  end.

(** [observe_queued]; the observer was opened on [path] with the destination's
    key [signer_hex]; [now] is its clock in whole seconds. *)
Definition observe_queued (sign : string → outcome string) (path signer_hex : string) (a : authorization)
    (action : string) (d : descriptor) (now : Z) (q : qdest) : outcome (demo_outcome * receipt * readback) :=
  as_unobserved (
    d ← normalize_queued_descriptor d;
    _ ← guard_or (bool_decide (resolve_path path = resolve_path (de_path d)) && bool_decide (de_signer_hex d = signer_hex))
                 (ObservationUnavailable "observer does not bind the configured queued destination");
    sha ← verify_queued_authorization a d action None;
    _ ← qualify d q;
    match q_effects q !! effect_key a with
    | None => unobserved "no authoritative queued record; outcome unknown"
    | Some e =>
        _ ← guard_or (bounded MAX_ACTION_BYTES (e_action e) &&
                      bounded MAX_AUTHORIZATION_BYTES (authorization_text (e_authorization e)) &&
                      bounded MAX_RESULT_BYTES (result_text (e_result e)) &&
                      bounded MAX_RECEIPT_BYTES (receipt_text (e_receipt e)))
                     (ObservationUnavailable "authoritative queued record exceeds bounds");
        let r := e_receipt e in
        let result := e_result e in
        _ ← guard_or (bool_decide (authorization_text (e_authorization e) = authorization_text a) &&
                      bool_decide (e_action e = action) && bool_decide (e_authorization_sha e = sha))
                     (ObservationUnavailable "persisted queued authorization, action or encoding disagrees");
        receipt_sha ← verify_queued_destination_receipt r a action d result;
        _ ← guard_or (bool_decide (e_receipt_sha e = receipt_sha))
                     (ObservationUnavailable "queued committed record and signed receipt disagree");
        let unsigned := mkReadback (rc_fields r) receipt_sha now QUEUED_READBACK_SOURCE
          (sha256_hex (source_text a action result r)) (de_observer_id d) "" in
        signature ← sign (readback_payload unsigned);
        _ ← guard_or (strlen signature =? 128)
                     (ObservationUnavailable "queued observer signer did not issue a valid signature");
        let p := mkReadback (rb_fields unsigned) (rb_receipt_sha unsigned) now (rb_source unsigned)
          (rb_source_sha unsigned) (rb_key_id unsigned) signature in
        _ ← verify_queued_readback_attestation p a action d result r now;
        Ok (result, r, p)
    end).
End contract.
