(* ===== verification/QueuedDestinationSpec.v ===== *)
(** * What the queued destination guarantees

    Any number of dispatchers, live and stale, acquire fences and commit at one
    destination in any order, with acknowledgements lost or not.  Every effect
    in its table is one signed authorization carried out once, inside its signed
    window and under the fence it names; effects are never changed; and the
    read-only observer reports a committed effect, and nothing else. *)

From stdpp Require Import base list gmap strings.
From Stdlib Require Import ZArith Lia Ascii.
From S2P Require Import Prelude PyFloat Identity Authority AuthoritySpec Json Evidence Fencing QueuedDestination.

#[local] Open Scope Z_scope.

Section spec.
Context `{JsonText} `{Sha256} `{Ed25519} `{QueuedCodec}.
Context (absolute : string → bool) (resolve_path : string → option string).
Notation normalize := (normalize_queued_descriptor absolute resolve_path).
Notation authorized := (verify_queued_authorization absolute resolve_path).
Notation receipted := (verify_queued_destination_receipt absolute resolve_path).
Notation attested := (verify_queued_readback_attestation absolute resolve_path).
Notation evidenced := (verify_queued_action_evidence absolute resolve_path).
Notation commit := (commit_queued absolute resolve_path).
Notation observe := (observe_queued absolute resolve_path).

(** ** Authorizations *)

Lemma as_untrusted_Ok {A} msg (o : outcome A) x : as_untrusted msg o = Ok x ↔ o = Ok x.
Proof. destruct o as [|[]]; simpl; naive_solver. Qed.

Lemma as_readback_Ok {A} (o : outcome A) x : as_untrusted_readback o = Ok x ↔ o = Ok x.
Proof. destruct o as [|[]]; simpl; naive_solver. Qed.

Lemma as_unobserved_Ok {A} (o : outcome A) x : as_unobserved o = Ok x ↔ o = Ok x.
Proof. destruct o as [|[]]; simpl; naive_solver. Qed.

(** Running a successful check. *)
Lemma pass_guard {A} b e (k : unit → outcome A) : b = true → (guard_or b e ≫= k) = k tt.
Proof. by intros ->. Qed.

Lemma pass {A B} (o : outcome A) a (k : A → outcome B) : o = Ok a → (o ≫= k) = k a.
Proof. by intros ->. Qed.

(** Invert every successful check among the hypotheses. *)
Ltac checked :=
  repeat match goal with
  | u : unit |- _ => destruct u
  | Hm : (_ ≫= _) = Ok _ |- _ =>
      let a := fresh "a" in let E := fresh "Ho" in apply outcome_bind_Ok in Hm as (a & E & Hm)
  | Hm : guard_or _ _ = Ok _ |- _ => apply (proj1 (guard_or_Ok _ _ _)) in Hm
  | Hm : as_untrusted _ _ = Ok _ |- _ => apply (proj1 (as_untrusted_Ok _ _ _)) in Hm
  | Hm : as_untrusted_readback _ = Ok _ |- _ => apply (proj1 (as_readback_Ok _ _)) in Hm
  | Hm : as_unobserved _ = Ok _ |- _ => apply (proj1 (as_unobserved_Ok _ _)) in Hm
  | Hm : Ok _ = Ok _ |- _ => injection Hm as Hm
  end.

Lemma authorized_sha a d action now sha :
  authorized a d action now = Ok sha → sha = queued_authorization_sha256 a.
Proof. unfold verify_queued_authorization. intros Hv. checked. congruence. Qed.

(** What a current authorization says. *)
Record within (a : authorization) (d : descriptor) (action : string) (now : float64) : Prop := {
  wi_tenant : z_tenant a = de_tenant d;
  wi_destination : z_destination a = de_destination d;
  wi_action : z_action_sha a = sha256_hex action;
  wi_signed : ed_verify (de_authorizer_hex d) (authorization_payload a) (z_signature a) = true;
  wi_from : fleb (z_issued a) now = true;
  wi_until : fltb now (z_expires a) = true;
}.

Lemma authorized_within a d action now sha :
  normalize d = Ok d → authorized a d action (Some now) = Ok sha → within a d action now.
Proof.
  intros Hd. unfold verify_queued_authorization, window_ok, verify_queued_signature. rewrite Hd. intros Hv. checked.
  repeat match goal with
  | Hx : _ && _ = true |- _ => apply andb_true_iff in Hx as [? ?]
  | Hx : bool_decide _ = true |- _ => apply bool_decide_eq_true in Hx
  end.
  simpl in *. checked.
  assert (a0 = d) as -> by congruence. by split.
Qed.

(** ** Commits *)

Definition committed_at (e : effect) : float64 := c_committed (rc_fields (e_receipt e)).

(** The effect is exactly what its signed authorization allows, and its receipt
    certifies it. *)
Record genuine (d : descriptor) (e : effect) : Prop := {
  ge_authorized : authorized (e_authorization e) d (e_action e) (Some (committed_at e)) = Ok (e_authorization_sha e);
  ge_result : demo_result (e_action e) (e_authorization_sha e) = Ok (e_result e);
  ge_receipt : receipted (e_receipt e) (e_authorization e) (e_action e) d (e_result e) = Ok (e_receipt_sha e);
  ge_allowance : QUEUED_RESULT_ENVELOPE_LIMIT_BYTES ≤ z_result_limit (e_authorization e);
  ge_checks : effect_checks e = true;
}.

Definition with_effect (e : effect) (q : qdest) : qdest :=
  mkQdest (q_lease q) (<[effect_key (e_authorization e) := e]> (q_effects q)) (q_binding q) (q_schema q).

(** A new effect of [q], for [a] under its fence. *)
Record admissible (d : descriptor) (q : qdest) (e : effect) : Prop := {
  ad_genuine : genuine d e;
  ad_fresh : q_effects q !! effect_key (e_authorization e) = None;
  ad_attempt : attempt_taken (e_authorization e) q = false;
  ad_fence : fence_grants (e_authorization e) (committed_at e) q = true;
}.

Lemma locked_commit_effect sign d a action now now' q out q' :
  commit_locked absolute resolve_path sign d a action now now' q = (Ok out, q') →
  ∃ e, e_authorization e = a ∧ e_action e = action ∧ committed_at e = now ∧ out = (e_result e, e_receipt e) ∧
    admissible d q e ∧ q' = with_effect e q.
Proof.
  unfold commit_locked, insert_effect. intros Hc. minv.
  match goal with Hx : effect_checks ?e = true |- _ => exists e end.
  repeat match goal with
  | Hx : _ && _ = true |- _ => apply andb_true_iff in Hx as [? ?]
  | Hx : bool_decide (_ = _) = true |- _ => apply bool_decide_eq_true in Hx
  | Hx : negb _ = true |- _ => apply negb_true_iff in Hx
  | Hx : (_ <=? _) = true |- _ => apply Z.leb_le in Hx
  end.
  by split_and!.
Qed.

(** [commit_queued] writes one admissible effect or nothing; when it answers,
    it answers with that effect. *)
Lemma commit_effect sign d a action lose now now' q r q' :
  commit sign d a action lose now now' q = (r, q') →
  (∃ x, r = Raise x ∧ q' = q) ∨
  ∃ e, e_authorization e = a ∧ e_action e = action ∧ committed_at e = now ∧
    admissible d q e ∧ q' = with_effect e q ∧ (if lose then is_ok r = false else r = Ok (e_result e, e_receipt e)).
Proof.
  unfold commit_queued. rewrite run_bind. unfold lift at 1. destruct (authorized _ _ _ None) as [sha|x].
  2:{ intros [= <- <-]. eauto. }
  rewrite run_bind. destruct (atomic _ q) as [[out|x] q1] eqn:Hm.
  - apply atomic_Ok, locked_commit_effect in Hm as (e & He & Ha & Hn & -> & Had & ->). intros Hr. right. exists e.
    destruct lose; injection Hr as <- <-; by split_and!.
  - apply atomic_Raise in Hm as ->. intros [= <- <-]. eauto.
Qed.

(** ** Any dispatchers, any order *)

(** One call at the destination of [d], by anyone and at any clock reading. *)
Inductive dstep (d : descriptor) (q : qdest) : qdest → Prop :=
| d_acquire scope owner ttl now : dstep d q (zoom (Sqlite.acquire scope owner ttl now) q).2
| d_commit sign a action lose now now' : dstep d q (commit sign d a action lose now now' q).2
| d_open : dstep d q (initialize_queued false d q).2.

(** The latest epoch of a scope. *)
Definition epoch_of (q : qdest) (scope : string) : Z :=
  match fences (q_lease q) !! scope with Some f => f_epoch f | None => 0 end.

Definition grantor (e : effect) (q : qdest) : Prop :=
  ∃ f, fences (q_lease q) !! z_fence_scope (e_authorization e) = Some f ∧
    z_fence_epoch (e_authorization e) ≤ f_epoch f ∧
    (z_fence_epoch (e_authorization e) = f_epoch f → z_fence_owner (e_authorization e) = f_owner f).

Record sound (d : descriptor) (q : qdest) : Prop := {
  so_key k e : q_effects q !! k = Some e → k = effect_key (e_authorization e);
  so_genuine k e : q_effects q !! k = Some e → genuine d e;
  so_grantor k e : q_effects q !! k = Some e → grantor e q;
  so_attempt k1 e1 k2 e2 : q_effects q !! k1 = Some e1 → q_effects q !! k2 = Some e2 →
    k1.1.1 = k2.1.1 → z_attempt (e_authorization e1) = z_attempt (e_authorization e2) → k1 = k2;
}.

(** What one call does: nothing, a new holder of a scope, or an effect. *)
Inductive dchange (d : descriptor) (q : qdest) : qdest → Prop :=
| dc_same : dchange d q q
| dc_acquire scope f :
    f_epoch f = epoch_of q scope + 1 →
    dchange d q (mkQdest (mkDestination (<[scope := f]> (fences (q_lease q))) (effects (q_lease q)))
                   (q_effects q) (q_binding q) (q_schema q))
| dc_effect e : admissible d q e → dchange d q (with_effect e q).

Lemma acquire_change d q scope owner ttl now : dchange d q (zoom (Sqlite.acquire scope owner ttl now) q).2.
Proof.
  destruct q as [lease fx b sc]. unfold zoom, Sqlite.acquire. cbn [view lens_lease].
  rewrite run_bind. unfold ensure. destruct (_ && _); [|apply dc_same].
  cbn [mret M_ret]. rewrite run_bind. destruct (_ && _); [|apply dc_same].
  cbn [mret M_ret]. unfold atomic. rewrite run_get, run_bind.
  match goal with |- context [(if ?c then mret tt else _) _] => destruct c end; [|apply dc_same].
  cbn. apply (dc_acquire d (mkQdest lease fx b sc)). unfold epoch_of. simpl. by destruct (fences lease !! scope).
Qed.

Lemma dstep_change d q q' : dstep d q q' → dchange d q q'.
Proof.
  destruct 1 as [scope owner ttl now|sign a action lose now now'|].
  - apply acquire_change.
  - destruct (commit _ _ _ _ _ _ _ q) as [r q'] eqn:Hc. cbn [snd].
    apply commit_effect in Hc as [(x & _ & ->)|(e & _ & _ & _ & Had & -> & _)]; [apply dc_same|by apply dc_effect].
  - unfold initialize_queued, atomic. rewrite run_bind. cbn [mret M_ret]. rewrite run_get. unfold lift.
    destruct (qualify d q); apply dc_same.
Qed.

Lemma fence_grants_inv a now q :
  fence_grants a now q = true →
  ∃ f, fences (q_lease q) !! z_fence_scope a = Some f ∧ f_owner f = z_fence_owner a ∧ f_epoch f = z_fence_epoch a.
Proof.
  unfold fence_grants, Sqlite.live. destruct (fences (q_lease q) !! z_fence_scope a) as [f|]; [|done].
  rewrite !andb_true_iff. intros [[[Ho%bool_decide_eq_true He%Z.eqb_eq] _] _]. by exists f.
Qed.

Lemma grantor_acquire e q scope f :
  grantor e q → f_epoch f = epoch_of q scope + 1 →
  grantor e (mkQdest (mkDestination (<[scope := f]> (fences (q_lease q))) (effects (q_lease q)))
               (q_effects q) (q_binding q) (q_schema q)).
Proof.
  intros (g & Hg & Hle & How) Hf. unfold grantor. simpl.
  destruct (decide (scope = z_fence_scope (e_authorization e))) as [->|Hne].
  - unfold epoch_of in Hf. rewrite Hg in Hf. exists f. rewrite lookup_insert_eq. split_and!; [done|lia|]. intros. lia.
  - exists g. by rewrite lookup_insert_ne.
Qed.

Lemma attempt_free a q k e :
  attempt_taken a q = false → q_effects q !! k = Some e → k.1.1 = z_tenant a →
  z_attempt (e_authorization e) ≠ z_attempt a.
Proof. intros Ht%bool_decide_eq_false Hk Hten Hat. apply Ht. by exists k, e. Qed.

Lemma dchange_sound d q q' : dchange d q q' → sound d q → sound d q'.
Proof.
  destruct 1 as [|scope f Hf|e [Hge Hfr Hat Hfe]]; intros [Hk Hg Hgr Hu]; [done|..].
  - split; simpl; [done|done| |done]. intros k e He. by eapply grantor_acquire, Hf; eauto.
  - apply fence_grants_inv in Hfe as (f & Hff & Ho & Hep).
    split; simpl.
    + intros k x [[<- <-]|[_ Hx]]%lookup_insert_Some; eauto.
    + intros k x [[<- <-]|[_ Hx]]%lookup_insert_Some; eauto.
    + intros k x [[<- <-]|[_ Hx]]%lookup_insert_Some; [|by eapply Hgr]. exists f. rewrite Ho. split_and!; [done|lia|done].
    + intros k1 e1 k2 e2 [[<- <-]|[Hn1 H1']]%lookup_insert_Some [[<- <-]|[Hn2 H2']]%lookup_insert_Some Hten Ha; [done|..].
      * exfalso. eapply attempt_free; eauto.
      * exfalso. eapply attempt_free; eauto.
      * by eapply Hu.
Qed.

Lemma sound_empty d q : q_effects q = ∅ → sound d q.
Proof. intros He. split; rewrite He; intros *; rewrite lookup_empty; done. Qed.

Lemma dsteps_sound d q q' : rtc (dstep d) q q' → sound d q → sound d q'.
Proof. induction 1; [done|]. intros Hs. eauto using dchange_sound, dstep_change. Qed.

(** Later effects carry the scope's latest epoch, and effects stay. *)
Record later (q q' : qdest) : Prop := {
  la_effects : q_effects q ⊆ q_effects q';
  la_epochs scope : epoch_of q scope ≤ epoch_of q' scope;
  la_new k e : q_effects q' !! k = Some e → q_effects q !! k = None →
    epoch_of q (z_fence_scope (e_authorization e)) ≤ z_fence_epoch (e_authorization e);
}.

Lemma later_refl q : later q q.
Proof. split; [done|lia|congruence]. Qed.

Lemma later_trans q1 q2 q3 : later q1 q2 → later q2 q3 → later q1 q3.
Proof.
  intros [A1 B1 C1] [A2 B2 C2]. split; [by etrans|intros sc; specialize (B1 sc); specialize (B2 sc); lia|].
  intros k e Hk Hn. destruct (q_effects q2 !! k) as [e'|] eqn:H2'.
  - pose proof (lookup_weaken _ _ _ _ H2' A2). apply (C1 k); congruence.
  - specialize (C2 k e Hk H2'). specialize (B1 (z_fence_scope (e_authorization e))). lia.
Qed.

Lemma dchange_later d q q' : dchange d q q' → later q q'.
Proof.
  destruct 1 as [|scope f Hf|e [Hge Hfr Hat Hfe]]; [apply later_refl|..].
  - split; simpl; [done| |congruence]. intros sc. unfold epoch_of in *. simpl.
    destruct (decide (scope = sc)) as [<-|Hne]; [rewrite lookup_insert_eq; lia|by rewrite lookup_insert_ne].
  - split; simpl; [by apply insert_subseteq|done|].
    intros k x [[<- <-]|[_ Hx]]%lookup_insert_Some Hn; [|congruence].
    apply fence_grants_inv in Hfe as (f & Hff & _ & Hep). unfold epoch_of. rewrite Hff. lia.
Qed.

Lemma dsteps_later d q q' : rtc (dstep d) q q' → later q q'.
Proof. induction 1; [apply later_refl|]. eauto using later_trans, dchange_later, dstep_change. Qed.

(** C23: every effect of a reachable destination is one signed authorization of
    its tenant and destination, carried out exactly, at a time inside the signed
    window, with a receipt that verifies; it is the only effect of its operation
    and of its attempt; no later call changes it; and a later effect of the same
    fence scope never comes from an older epoch. *)
Theorem queued_effects_exact d q0 q k e :
  normalize d = Ok d → q_effects q0 = ∅ → rtc (dstep d) q0 q → q_effects q !! k = Some e →
  k = effect_key (e_authorization e) ∧
  within (e_authorization e) d (e_action e) (committed_at e) ∧
  demo_result (e_action e) (queued_authorization_sha256 (e_authorization e)) = Ok (e_result e) ∧
  receipted (e_receipt e) (e_authorization e) (e_action e) d (e_result e) = Ok (e_receipt_sha e) ∧
  (∀ k' e', q_effects q !! k' = Some e' → k'.1.1 = k.1.1 →
     z_attempt (e_authorization e') = z_attempt (e_authorization e) → k' = k) ∧
  (∀ q', rtc (dstep d) q q' → q_effects q' !! k = Some e ∧
     ∀ k' e', q_effects q' !! k' = Some e' → q_effects q !! k' = None →
       z_fence_scope (e_authorization e') = z_fence_scope (e_authorization e) →
       z_fence_epoch (e_authorization e) ≤ z_fence_epoch (e_authorization e')).
Proof.
  intros Hd Hempty Hq He. pose proof (dsteps_sound _ _ _ Hq (sound_empty _ _ Hempty)) as [Hk Hg Hgr Hu].
  destruct (Hg _ _ He) as [Ha Hr Hrc _ _]. pose proof (authorized_sha _ _ _ _ _ Ha) as Hsha. rewrite Hsha in *.
  split_and!; [eauto|by eapply authorized_within|done|done|eauto|].
  intros q' Hq'. destruct (dsteps_later _ _ _ Hq') as [Hsub _ Hnew]. split; [by eapply lookup_weaken|].
  intros k' e' He' Hn Hsc. specialize (Hnew _ _ He' Hn). rewrite Hsc in Hnew.
  destruct (Hgr _ _ He) as (f & Hf & Hle & _). unfold epoch_of in Hnew. rewrite Hf in Hnew. lia.
Qed.

(** ** The observer *)

Lemma window_None a timeout now : window_ok a timeout (Some now) = Ok tt → window_ok a timeout None = Ok tt.
Proof.
  unfold window_ok. intros Hw. checked. apply outcome_bind_Ok. exists tt. split; [|done]. by apply guard_or_Ok.
Qed.

Lemma authorized_None a d action now sha : authorized a d action (Some now) = Ok sha → authorized a d action None = Ok sha.
Proof.
  unfold verify_queued_authorization. intros (u & Hv%as_untrusted_Ok & Hs)%outcome_bind_Ok.
  apply outcome_bind_Ok. exists u. split; [|done]. apply as_untrusted_Ok.
  repeat (apply outcome_bind_Ok in Hv as (? & ? & Hv); apply outcome_bind_Ok; eexists; split; [eassumption|]).
  apply outcome_bind_Ok in Hv as ([] & Hw & Hv). apply outcome_bind_Ok. exists tt. split; [by eapply window_None|done].
Qed.

(** The attestation the observer of [d] signs for [e] at [now]. *)
Definition readback_of (d : descriptor) (e : effect) (now : Z) (signature : string) : readback :=
  mkReadback (rc_fields (e_receipt e)) (e_receipt_sha e) now QUEUED_READBACK_SOURCE
    (sha256_hex (source_text (e_authorization e) (e_action e) (e_result e) (e_receipt e))) (de_observer_id d) signature.

(** What a report says is what the table holds. *)
Lemma observed_effect sign path signer a action d now q result r p :
  normalize d = Ok d → observe sign path signer a action d now q = Ok (result, r, p) →
  ∃ e, q_effects q !! effect_key a = Some e ∧ e_authorization e = a ∧ e_action e = action ∧
    e_result e = result ∧ e_receipt e = r ∧ receipted r a action d result = Ok (e_receipt_sha e) ∧
    p = readback_of d e now (rb_signature p) ∧ ∃ sha, attested p a action d result r now = Ok sha.
Proof.
  intros Hd. unfold observe_queued. rewrite Hd. intros Ho. checked. cbn [mbind outcome_bind] in Ho. checked.
  destruct (q_effects q !! effect_key a) as [e|]; [|done]. checked.
  repeat match goal with
  | Hx : _ && _ = true |- _ => apply andb_true_iff in Hx as [? ?]
  | Hx : bool_decide (_ = _) = true |- _ => apply bool_decide_eq_true in Hx
  end. simplify_eq.
  match goal with Hx : authorization_text _ = authorization_text _ |- _ => apply authorization_text_inj in Hx end.
  subst a. exists e. by split_and!; eauto.
Qed.

(** What the observer reports is accepted as settlement evidence. *)
Theorem observed_evidence_accepted sign path signer a action d q0 q now result r p :
  normalize d = Ok d → q_effects q0 = ∅ → rtc (dstep d) q0 q →
  observe sign path signer a action d now q = Ok (result, r, p) →
  ∃ rsha psha, evidenced a action d result r p now =
    Ok (mkVerified a rsha psha "succeeded" (effect_id result) (c_committed (rc_fields r))).
Proof.
  intros Hd Hempty Hq (e & He & Ha & Hact & Hres & Hrc & Hrv & Hp & psha & Hat)%observed_effect; [|done].
  exists (e_receipt_sha e), psha. unfold verify_queued_action_evidence. rewrite Hrv, Hat. simpl.
  pose proof (dsteps_sound _ _ _ Hq (sound_empty _ _ Hempty)) as [_ Hg _ _].
  destruct (Hg _ _ He) as [_ _ _ Hlim Hck].
  assert (strlen (readback_text p) ≤ MAX_READBACK_BYTES) as Hrb.
  { revert Hat. unfold verify_queued_readback_attestation. rewrite Hd. intros Hat. checked. cbn [mbind outcome_bind] in *.
    checked. by apply Z.leb_le. }
  unfold effect_checks in Hck. rewrite !andb_true_iff in Hck. unfold bounded in Hck. rewrite !andb_true_iff in Hck.
  rewrite (proj2 (guard_or_Ok _ _ tt)); [done|]. rewrite envelope_length. apply Z.leb_le. subst.
  unfold MAX_READBACK_BYTES, MAX_RECEIPT_BYTES, MAX_RESULT_BYTES, MAX_AUTHORIZATION_BYTES,
    QUEUED_RESULT_ENVELOPE_LIMIT_BYTES in *. rewrite !Z.leb_le in Hck. lia.
Qed.

(** An observer that is bound to the destination of [d], signs with the key [d]
    trusts, and whose clock is not behind the destination's by more than 30
    seconds. *)
Record healthy_observer (sign : string → outcome string) (path signer : string) (d : descriptor) (now : Z)
    (q : qdest) : Prop := {
  ho_path : resolve_path path = resolve_path (de_path d);
  ho_signer : de_signer_hex d = signer;
  ho_key : public_key_ok (de_observer_hex d) = true;
  ho_signs m : ∃ s, sign m = Ok s ∧ queued_hex 128 s = true ∧ ed_verify (de_observer_hex d) m s = true;
  ho_seconds : queued_seconds (fl now) = true;
  ho_clock k e : q_effects q !! k = Some e → fgtb (committed_at e) (fl (now + 30)) = false;
  ho_size k e s : q_effects q !! k = Some e → strlen s = 128 → strlen (readback_text (readback_of d e now s)) ≤ MAX_READBACK_BYTES;
  ho_qualified : qualify d q = Ok tt;
}.

Lemma effect_attested sign path signer d now q k e s :
  normalize d = Ok d → genuine d e → healthy_observer sign path signer d now q → q_effects q !! k = Some e →
  queued_hex 128 s = true → ed_verify (de_observer_hex d) (readback_payload (readback_of d e now "")) s = true →
  ∃ sha, attested (readback_of d e now s) (e_authorization e) (e_action e) d (e_result e) (e_receipt e) now = Ok sha.
Proof.
  intros Hd [Hau _ Hrc _ _] Hh He Hhex Hsig. unfold verify_queued_readback_attestation.
  assert (strlen s = 128) as Hlen by (unfold queued_hex in Hhex; rewrite andb_true_iff, Z.eqb_eq in Hhex; tauto).
  eexists. apply outcome_bind_Ok. exists tt. split; [|done]. apply as_readback_Ok.
  rewrite (pass _ d), (pass _ (e_receipt_sha e)) by done.
  rewrite pass_guard by (apply Z.leb_le; eapply ho_size; eauto).
  rewrite pass_guard by (by rewrite !bool_decide_eq_true_2).
  rewrite pass_guard.
  2:{ cbn [rb_observed rb_fields readback_of]. change (c_committed _) with (committed_at e).
      rewrite (ho_seconds _ _ _ _ _ _ Hh), (ho_clock _ _ _ _ _ _ Hh _ _ He), !andb_true_iff, !Z.leb_le. simpl. lia. }
  rewrite pass_guard by done. apply guard_or_Ok. rewrite (ho_key _ _ _ _ _ _ Hh). unfold readback_of.
  by rewrite readback_payload_unsigned.
Qed.

(** In a reachable destination a healthy observer reports the result and the
    receipt of an authorization exactly when the destination has committed that
    authorization for that action, and with those. *)
Theorem observed_iff_committed sign path signer a action d q0 q now result r :
  normalize d = Ok d → q_effects q0 = ∅ → rtc (dstep d) q0 q → healthy_observer sign path signer d now q →
  (∃ p, observe sign path signer a action d now q = Ok (result, r, p)) ↔
  ∃ e, q_effects q !! effect_key a = Some e ∧ e_authorization e = a ∧ e_action e = action ∧
    e_result e = result ∧ e_receipt e = r.
Proof.
  intros Hd Hempty Hq Hh. split.
  - intros [p (e & He & Ha & Hact & Hres & Hrc & _)%observed_effect]; [|done]. by exists e.
  - intros (e & He & <- & <- & <- & <-). pose proof (dsteps_sound _ _ _ Hq (sound_empty _ _ Hempty)) as [_ Hg _ _].
    pose proof (Hg _ _ He) as Hge. destruct Hge as [Hau Hres Hrc Hlim Hck].
    destruct (ho_signs _ _ _ _ _ _ Hh (readback_payload (readback_of d e now ""))) as (s & Hs & Hhex & Hv).
    destruct (effect_attested _ _ _ _ _ _ _ _ s Hd (Hg _ _ He) Hh He Hhex Hv) as [sha Hat].
    exists (readback_of d e now s). unfold observe_queued. apply as_unobserved_Ok.
    rewrite (pass _ d) by done.
    rewrite pass_guard by (by rewrite (ho_path _ _ _ _ _ _ Hh), (ho_signer _ _ _ _ _ _ Hh), !bool_decide_eq_true_2).
    rewrite (pass _ (e_authorization_sha e)) by (by eapply authorized_None).
    rewrite (pass _ tt), He by apply (ho_qualified _ _ _ _ _ _ Hh).
    unfold effect_checks in Hck. rewrite !andb_true_iff in Hck.
    rewrite pass_guard by (rewrite !andb_true_iff; tauto).
    rewrite pass_guard by (by rewrite !bool_decide_eq_true_2).
    rewrite (pass _ (e_receipt_sha e)) by done. rewrite pass_guard by (by rewrite bool_decide_eq_true_2).
    rewrite (pass _ s) by done. rewrite pass_guard by (unfold queued_hex in Hhex; rewrite andb_true_iff in Hhex; tauto).
    by rewrite (pass _ sha).
Qed.
End spec.

(** ** A concrete codec *)

(** Fields one after the other, and their reader; [acc] is the current field,
    reversed. *)
Definition marked_all (l : list string) : string := foldr field_text EmptyString l.

Fixpoint unmarked (s acc : string) : option (list string) :=
  match s with
  | EmptyString => match acc with EmptyString => Some [] | String _ _ => None end
  | String c s' =>
      if Ascii.eqb c tilde then (cons (str_rev acc EmptyString)) <$> unmarked s' EmptyString
      else if Ascii.eqb c bang then
        match s' with EmptyString => None | String d s'' => unmarked s'' (String d acc) end
      else unmarked s' (String c acc)
  end.

Lemma unmarked_field s k acc : unmarked (field_text s k) acc = (cons (str_rev acc s)) <$> unmarked k EmptyString.
Proof.
  revert acc. induction s as [|c s IH]; intros acc; [done|]. cbn [field_text].
  destruct (Ascii.eqb c tilde) eqn:Ht; cbn [orb]; [cbn; by rewrite IH|].
  destruct (Ascii.eqb c bang) eqn:Hb; [cbn; by rewrite IH|]. cbn [unmarked]. by rewrite Ht, Hb, IH.
Qed.

Lemma unmarked_all l : unmarked (marked_all l) EmptyString = Some l.
Proof.
  induction l as [|s l IH]; [done|]. change (marked_all (s :: l)) with (field_text s (marked_all l)).
  by rewrite unmarked_field, IH.
Qed.

#[global] Instance marked_all_inj : Inj (=) (=) marked_all := inj_of _ (fun s => unmarked s EmptyString) unmarked_all.
#[global] Instance int_text_inj : Inj (=) (=) int_text := inj_of _ _ int_of_text.
#[global] Instance real_text_inj : Inj (=) (=) real_text := inj_of _ _ real_of_text.

Definition authorization_parts (a : authorization) : list string :=
  [z_tenant a; z_store a; z_owner a; z_agent a; z_authority_sha a; z_task a; z_context a; z_intent_sha a;
   z_link_sha a; z_fingerprint a; z_original_sha a; z_target a; z_target_sha a; z_destination a; z_operation a;
   z_action_sha a; int_text (z_result_limit a); z_attempt a; z_fence_scope a; z_fence_owner a;
   int_text (z_fence_epoch a); real_text (z_issued a); real_text (z_expires a); z_authorizer_id a; z_signature a].

Definition demo_envelope (a : authorization) (r : demo_outcome) (rc : receipt) (rb : readback) : list string :=
  [marked_all (authorization_parts a); marked_all [stored_sha256 r; int_text (stored_bytes r); effect_id r];
   rc_signature rc; rb_signature rb; String.concat EmptyString (replicate 75 "k")].

Lemma strlen_append s s' : strlen (String.append s s') = strlen s + strlen s'.
Proof.
  unfold strlen. induction s as [|c s IH]; [done|].
  change (String.append (String c s) s') with (String c (String.append s s')). cbn [String.length]. lia.
Qed.

#[local] Program Instance demo_queued_codec : QueuedCodec := {
  descriptor_text d := marked_all [de_tenant d; de_destination d; de_path d];
  authorization_payload a := z_operation a;
  authorization_text a := marked_all (authorization_parts a);
  result_text r := marked_all [stored_sha256 r; int_text (stored_bytes r); effect_id r];
  receipt_payload r := c_operation (rc_fields r);
  receipt_text r := rc_signature r;
  readback_payload p := c_operation (rb_fields p);
  readback_text p := rb_signature p;
  source_text a _ _ _ := z_operation a;
  envelope_text a r rc rb := foldr String.append EmptyString (demo_envelope a r rc rb);
}.
Next Obligation.
  intros a b Heq%(inj marked_all). unfold authorization_parts in Heq.
  destruct a, b; simpl in Heq. injection Heq as <- <- <- <- <- <- <- <- <- <- <- <- <- <- <- <- H1 <- <- <- H2 H3 H4 <- <-.
  apply (inj int_text) in H1 as <-. apply (inj int_text) in H2 as <-. apply (inj real_text) in H3 as <-.
  by apply (inj real_text) in H4 as <-.
Qed.
Next Obligation.
  intros [] [] [= -> Hb%(inj int_text) ->]%(inj marked_all). by simplify_eq.
Qed.
Next Obligation. done. Qed.
Next Obligation.
  intros a r rc rb. unfold demo_envelope. cbn [foldr]. rewrite !strlen_append. change (strlen EmptyString) with 0.
  change (strlen (String.concat _ _)) with 75. lia.
Qed.

(** ** A concrete destination *)

#[local] Existing Instance hex_ed25519 | 0.
Definition sixty_four (c : string) : string := String.concat EmptyString (replicate 64 c).

#[local] Instance queued_digest : Sha256 | 0 := { sha256_hex _ := sixty_four "d" }.

Definition demo_descriptor : descriptor :=
  mkDescriptor "queued_fenced_sqlite_v2" "mcp" "acme" "target" "dest" "/d" "agentbridge.demo.append.v1"
    "auth-key" (sixty_four "a") "dest-key" (sixty_four "b") "obs-key" (sixty_four "c") (FFin 10) 4096.

Definition demo_action_text : string :=
  canonical_dumps (JObj [("method", JStr "tools/call");
    ("params", JObj [("name", JStr "write"); ("arguments", JObj [("value", JStr "v")])])]).

Definition demo_authorization : authorization :=
  mkAuthorization "acme" "store" "own" "al" (sixty_four "d") "task" "ctx" (sixty_four "d") (sixty_four "d")
    (sixty_four "d") (sixty_four "d") "target" (sixty_four "d") "dest" "op-1" (sixty_four "d") 65536 "try-1"
    "scope" "worker" 1 (FFin 1000) (FFin 1009) "auth-key" demo_signature.

Definition demo_q0 : qdest := mkQdest empty_destination ∅ (Some demo_descriptor) true.
Definition demo_q1 : qdest := (zoom (Sqlite.acquire "scope" "worker" 60 (FFin 1000)) demo_q0).2.

Definition demo_resolve : string → option string := Some.
Definition demo_absolute (_ : string) : bool := true.
Definition demo_signs (_ : string) : outcome string := Ok demo_signature.

Definition demo_commit : outcome (demo_outcome * receipt) * qdest :=
  commit_queued demo_absolute demo_resolve demo_signs demo_descriptor demo_authorization demo_action_text true
    (FFin 1001) (FFin 1002) demo_q1.
Definition demo_q2 : qdest := demo_commit.2.

Definition no_effect : effect :=
  mkQueuedEffect demo_authorization "" "" (mkOutcome "" 0 "")
    (mkReceipt (commitment_of demo_authorization "" (mkOutcome "" 0 "") fzero) "" "") "".
Definition demo_effect : effect := default no_effect (q_effects demo_q2 !! ("acme", "al", "op-1")).

Lemma demo_normal : normalize_queued_descriptor demo_absolute demo_resolve demo_descriptor = Ok demo_descriptor.
Proof. vm_compute. reflexivity. Qed.

Lemma demo_steps : rtc (dstep demo_absolute demo_resolve demo_descriptor) demo_q0 demo_q2.
Proof.
  apply (rtc_l _ _ demo_q1); [apply d_acquire|]. apply rtc_once. apply d_commit.
Qed.

Lemma demo_stored : q_effects demo_q2 !! effect_key demo_authorization = Some demo_effect.
Proof. vm_compute. reflexivity. Qed.

Lemma queued_effects_exact_witness :
  within demo_authorization demo_descriptor demo_action_text (FFin 1001) ∧ is_ok demo_commit.1 = false.
Proof.
  split; [|vm_compute; reflexivity].
  exact (proj1 (proj2 (queued_effects_exact demo_absolute demo_resolve demo_descriptor demo_q0 demo_q2 _ _
    demo_normal eq_refl demo_steps demo_stored))).
Defined.

Lemma demo_committed_at k e : q_effects demo_q2 !! k = Some e → committed_at e = FFin 1001.
Proof.
  unfold demo_q2, demo_commit.
  destruct (commit_queued _ _ _ _ _ _ _ _ _ demo_q1) as [r q'] eqn:Hc. cbn [snd].
  apply commit_effect in Hc as [(x & _ & ->)|(e' & Ha & _ & Hn & _ & -> & _)].
  - change (q_effects demo_q1) with (∅ : gmap (string * string * string) effect). by rewrite lookup_empty.
  - cbn [with_effect q_effects]. change (q_effects demo_q1) with (∅ : gmap (string * string * string) effect).
    intros [[_ <-]|[_ Hx]]%lookup_insert_Some; [done|]. by rewrite lookup_empty in Hx.
Qed.

Lemma demo_observer : healthy_observer demo_resolve demo_signs "/d" (sixty_four "b") demo_descriptor 1 demo_q2.
Proof.
  split; try (vm_compute; reflexivity).
  - intros m. exists demo_signature. split_and!; vm_compute; reflexivity.
  - intros k e ->%demo_committed_at. vm_compute. reflexivity.
  - intros k e s _ Hs. change (strlen s ≤ 16384). lia.
Qed.

Lemma observed_iff_committed_witness :
  ∃ p, observe_queued demo_absolute demo_resolve demo_signs "/d" (sixty_four "b") demo_authorization demo_action_text
    demo_descriptor 1 demo_q2 = Ok (e_result demo_effect, e_receipt demo_effect, p).
Proof.
  apply (observed_iff_committed demo_absolute demo_resolve demo_signs "/d" (sixty_four "b") demo_authorization
    demo_action_text demo_descriptor demo_q0 demo_q2 1 _ _ demo_normal eq_refl demo_steps demo_observer).
  exists demo_effect. split; [exact demo_stored|]. split_and!; vm_compute; reflexivity.
Defined.

Definition demo_report : outcome (demo_outcome * receipt * readback) :=
  observe_queued demo_absolute demo_resolve demo_signs "/d" (sixty_four "b") demo_authorization demo_action_text
    demo_descriptor 1 demo_q2.

Lemma demo_reported : demo_report =
  Ok (e_result demo_effect, e_receipt demo_effect, readback_of demo_descriptor demo_effect 1 demo_signature).
Proof. vm_compute. reflexivity. Qed.

Lemma observed_evidence_accepted_witness :
  ∃ rsha psha, verify_queued_action_evidence demo_absolute demo_resolve demo_authorization demo_action_text
    demo_descriptor (e_result demo_effect) (e_receipt demo_effect)
    (readback_of demo_descriptor demo_effect 1 demo_signature) 1 =
    Ok (mkVerified demo_authorization rsha psha "succeeded" (effect_id (e_result demo_effect))
         (c_committed (rc_fields (e_receipt demo_effect)))).
Proof.
  exact (observed_evidence_accepted demo_absolute demo_resolve demo_signs "/d" (sixty_four "b") demo_authorization
    demo_action_text demo_descriptor demo_q0 demo_q2 1 _ _ _ demo_normal eq_refl demo_steps demo_reported).
Defined.
