(* ===== verification/QueuedStore.v ===== *)
(** * The tenant's store of queued work

    One tenant database: the governance tables, the task lifecycle, the retained
    intents, the admission links of [governance/task_admission.py] and the
    execution history of [governance/task_execution_store.py].  Links, decisions,
    results and cancellation requests are inserted under triggers and never
    updated or deleted.  Their canonical JSON texts are a codec; snapshots are
    the lifecycle component's decoded values.  Temporary shadow tables, schema
    qualification and the PostgreSQL guards (which state the same conditions)
    are left out; the store's lock is the atomicity of each operation, and every
    insert here runs inside the caller's transaction. *)

From stdpp Require Import base list gmap strings.
From Stdlib Require Import ZArith Lia.
From S2P Require Import Prelude PyFloat Json Identity Authority Budget AuditLog Approvals OperationLedger Quotas Policy Evidence Fencing TaskLifecycle TaskIntents QueuedDestination.

#[local] Open Scope Z_scope.

(** ** Records *)

(** [metadata] of [_link]; its constant members are implied. *)
Record link_meta := mkLinkMeta {
  l_tenant : string;
  l_owner : string;
  l_task : string;
  l_context : string;
  l_agent : string;
  l_operation : string;
  l_intent_sha : string;
  l_action_sha : string;
  l_original_sha : string;
  l_token : string;
  l_sequence : Z;
  l_state : string;
  l_target : string;
  l_target_sha : string;
  l_cost : float64;
  l_approval : bool;
  l_limit : Z;
  l_expires : float64;
  l_admitted : float64;
}.

(** [_base]. *)
Record base := mkBase {
  b_owner : string;
  b_task : string;
  b_agent : string;
  b_operation : string;
  b_link_sha : string;
}.

#[global] Instance base_eq_dec : EqDecision base.
Proof. solve_decision. Defined.

Inductive exec_decision :=
| Attempt (attempt_id : string) (z : authorization) (d : descriptor)
| Closed (reason : string).

(** [agentbridge.task-execution-decision.v1]. *)
Record decision_record := mkDecisionRecord { dr_base : base; dr_decision : exec_decision }.

Definition decision_kind (x : exec_decision) : string :=
  match x with Attempt _ _ _ => "attempt" | Closed _ => "closed" end.

(** [agentbridge.task-execution-result.v1]; the trust context is its two key
    identifiers when a signing trust journal is configured. *)
Record result_record := mkResultRecord {
  rr_base : base;
  rr_outcome : string;
  rr_decision_sha : string;
  rr_authorization : authorization;
  rr_result : demo_outcome;
  rr_receipt : receipt;
  rr_readback : readback;
  rr_review : option (string * string);
  rr_operator : option Principal;
  rr_previous : option string;
}.

(** [agentbridge.task-cancellation-request.v1]. *)
Record control_record := mkControlRecord { cr_base : base; cr_reason : string }.

(** The canonical text of each record and [json.loads] of a stored one. *)
Class HistoryCodec := {
  link_text : link_meta → string;
  link_of : string → option link_meta;
  decision_text : decision_record → string;
  decision_of : string → option decision_record;
  result_record_text : result_record → string;
  result_record_of : string → option result_record;
  control_text : control_record → string;
  control_of : string → option control_record;
  link_of_text x : link_of (link_text x) = Some x;
  decision_of_text x : decision_of (decision_text x) = Some x;
  result_record_of_text x : result_record_of (result_record_text x) = Some x;
  control_of_text x : control_of (control_text x) = Some x;
}.

(** ** Tables *)

(** [task_operation_links_v1], by (owner_id, task_id). *)
Record link_row := mkLinkRow {
  k_agent : string;
  k_operation : string;
  k_intent_sha : string;
  k_action_sha : string;
  k_token : string;
  k_sequence : Z;
  k_snapshot : TaskLifecycle;
  k_record : string;
  k_sha : string;
}.

(** A row of the three execution tables, by (owner_id, task_id). *)
Record history_row := mkHistory {
  h_agent : string;
  h_operation : string;
  h_link_sha : string;
  h_kind : string;
  h_record : string;
  h_sha : string;
}.

Definition history := gmap (string * string) history_row.

Record exec_db := mkExec {
  decisions : history;
  results : history;
  controls : history;
}.

Record tenant_db := mkTenant {
  td_gov : gov;
  td_tasks : task_db;
  td_intents : intent_db;
  td_links : gmap (string * string) link_row;
  td_exec : exec_db;
}.

#[global] Program Instance lens_gov : Lens tenant_db gov := {
  view := td_gov;
  update x s := mkTenant x (td_tasks s) (td_intents s) (td_links s) (td_exec s) }.
Solve All Obligations with by intros; try destruct s.
#[global] Program Instance lens_tasks : Lens tenant_db task_db := {
  view := td_tasks;
  update x s := mkTenant (td_gov s) x (td_intents s) (td_links s) (td_exec s) }.
Solve All Obligations with by intros; try destruct s.
#[global] Program Instance lens_intents : Lens tenant_db intent_db := {
  view := td_intents;
  update x s := mkTenant (td_gov s) (td_tasks s) x (td_links s) (td_exec s) }.
Solve All Obligations with by intros; try destruct s.
#[global] Program Instance lens_exec : Lens tenant_db exec_db := {
  view := td_exec;
  update x s := mkTenant (td_gov s) (td_tasks s) (td_intents s) (td_links s) x }.
Solve All Obligations with by intros; try destruct s.

(** A part of the governance tables is a part of the tenant's store. *)
#[global] Program Instance lens_through_gov {T} `{!Lens gov T} : Lens tenant_db T | 10 := {
  view s := view (td_gov s);
  update x s := mkTenant (update x (td_gov s)) (td_tasks s) (td_intents s) (td_links s) (td_exec s) }.
Next Obligation. intros. apply view_update. Qed.
Next Obligation. intros T HL [g ts i l x]. simpl. by rewrite update_view. Qed.
Next Obligation. intros. simpl. by rewrite update_update. Qed.

Section store.
Context `{Sha256} `{HistoryCodec}.

(** ** Admission links *)

(** [length(x) BETWEEN 1 AND 128 AND bytes(x) <= 512]. *)
Definition column_ok (s : string) : bool := bounded 128 s && (utf8_len s <=? 512).
Definition digest_ok (s : string) : bool := strlen s =? 64.

(** The [EXISTS] of [task_link_bounds_v1]: the retained intent, its unresolved
    operation and reservation, and the task's WORKING event and snapshot. *)
Definition link_relation (k : string * string) (r : link_row) (s : tenant_db) : bool :=
  match task_intents (td_intents s) !! k, ops (g_led (td_gov s)) !! (k_agent r, k_operation r),
        reservations (g_led (td_gov s)) !! (k_agent r, k_operation r), snapshots (td_tasks s) !! k with
  | Some i, Some o, Some tok, Some sn =>
      bool_decide (i_agent i = k_agent r) && bool_decide (i_operation i = k_operation r) &&
      bool_decide (i_fingerprint i = k_intent_sha r) && bool_decide (fingerprint o = k_action_sha r) &&
      bool_decide (op_st o = unknown) && bool_decide (tok = k_token r) &&
      existsb (fun e => (sequence e =? k_sequence r) && bool_decide (e = k_snapshot r)) (task_events k (td_tasks s)) &&
      bool_decide (snap sn = k_snapshot r) && negb (is_terminal sn) && (k_sequence r =? 1)
  | _, _, _, _ => false
  end.

Definition link_bounds (k : string * string) (r : link_row) (s : tenant_db) : bool :=
  (strlen (k_record r) <=? 8192) && (snapshot_bytes (k_snapshot r) <=? 4096) &&
  forallb column_ok [k.1; k.2; k_agent r; k_operation r; k_token r] &&
  forallb digest_ok [k_intent_sha r; k_action_sha r; k_sha r] && link_relation k r s.

Definition link_operation_taken (r : link_row) (s : tenant_db) : bool :=
  bool_decide (map_Exists (fun _ x => k_agent x = k_agent r ∧ k_operation x = k_operation r) (td_links s)).

(** [TaskAdmissionStore._insert]: the receipt is the metadata and its digest. *)
Definition insert_link (m : link_meta) (snapshot : TaskLifecycle) : M tenant_db (link_meta * string) :=
  s ← get;
  let raw := link_text m in
  let digest := sha256_hex raw in
  let k := (l_owner m, l_task m) in
  let r := mkLinkRow (l_agent m) (l_operation m) (l_intent_sha m) (l_action_sha m) (l_token m) (l_sequence m)
             snapshot raw digest in
  _ ← ensure (link_bounds k r s) (IntegrityError "invalid or unbounded task admission link");
  _ ← ensure (l_sequence m =? 1) (IntegrityError "event_sequence");
  _ ← ensure (bool_decide (td_links s !! k = None) && negb (link_operation_taken r s))
             (IntegrityError "task_operation_links_v1");
  _ ← put (mkTenant (td_gov s) (td_tasks s) (td_intents s) (<[k := r]> (td_links s)) (td_exec s));
  mret (m, digest).

Definition no_link : pyexn := AuthorityDenied "admission link unavailable for exact retained intent".

(** [TaskAdmissionStore.get]. *)
Definition get_link (owner i sha : string) : M tenant_db (link_meta * string) :=
  _ ← lift (identifier owner "owner_id");
  _ ← lift (identifier i "task_id");
  _ ← ensure (sha256_text sha) (AuthorityDenied "exact retained intent digest required");
  s ← get;
  lift (match td_links s !! (owner, i) with
        | None => Raise no_link
        | Some r =>
            if negb (bool_decide (k_intent_sha r = sha) && bool_decide (sha256_hex (k_record r) = k_sha r))
            then Raise no_link
            else match link_of (k_record r) with
                 | None => Raise (ValueError "invalid JSON")
                 | Some m => Ok (m, k_sha r)
                 end
        end).

(** ** Execution history *)

(** The columns of every table, and the admission link they name. *)
Definition history_link (k : string * string) (r : history_row) (s : tenant_db) : bool :=
  forallb column_ok [k.1; k.2; h_agent r; h_operation r] && forallb digest_ok [h_link_sha r; h_sha r] &&
  match td_links s !! k with
  | Some l => bool_decide (k_agent l = h_agent r) && bool_decide (k_operation l = h_operation r) &&
              bool_decide (k_sha l = h_link_sha r)
  | None => false
  end.

(** Results and controls need the attempt they are about. *)
Definition has_attempt (k : string * string) (r : history_row) (s : tenant_db) : bool :=
  match decisions (td_exec s) !! k with
  | Some d => bool_decide (h_link_sha d = h_link_sha r) && bool_decide (h_kind d = "attempt")
  | None => false
  end.

Definition DECISION_BYTES : Z := 32768.
Definition CONTROL_BYTES : Z := 4096.

Definition decision_bounds (k : string * string) (r : history_row) (s : tenant_db) : bool :=
  history_link k r s && bool_decide (h_kind r ∈ ["attempt"; "closed"]) && (strlen (h_record r) <=? DECISION_BYTES).

Definition result_bounds (k : string * string) (r : history_row) (s : tenant_db) : bool :=
  history_link k r s && has_attempt k r s && bool_decide (h_kind r ∈ ["succeeded"; "failed"]) &&
  match task_intents (td_intents s) !! k with
  | Some i => strlen (h_record r) <=? i_result_limit i
  | None => false
  end.

Definition control_bounds (k : string * string) (r : history_row) (s : tenant_db) : bool :=
  history_link k r s && has_attempt k r s && bool_decide (h_kind r = "cancel-request") &&
  (strlen (h_record r) <=? CONTROL_BYTES).

Definition history_taken (r : history_row) (t : history) : bool :=
  bool_decide (map_Exists (fun _ x => h_agent x = h_agent r ∧ h_operation x = h_operation r) t).

Definition bad_history : pyexn := IntegrityError "invalid or unbounded task execution history".

(** The row [_put] inserts, and its digest. *)
Definition history_of (b : base) (kind raw : string) : history_row :=
  mkHistory (b_agent b) (b_operation b) (b_link_sha b) kind raw (sha256_hex raw).

Definition base_key (b : base) : string * string := (b_owner b, b_task b).

(** [_put]: [bounds] is the table's trigger, [rows] and [store] read and write
    the table. *)
Definition put_history (bounds : string * string → history_row → tenant_db → bool) (rows : exec_db → history)
    (store : history → exec_db → exec_db) (b : base) (kind raw : string) : M tenant_db string :=
  s ← get;
  let r := history_of b kind raw in
  let k := base_key b in
  _ ← ensure (bounds k r s) bad_history;
  _ ← ensure (bool_decide (rows (td_exec s) !! k = None) && negb (history_taken r (rows (td_exec s))))
             (IntegrityError "task execution history");
  _ ← put (update (store (<[k := r]> (rows (td_exec s))) (td_exec s)) s);
  mret (h_sha r).

Definition insert_decision (x : decision_record) : M tenant_db string :=
  put_history decision_bounds decisions (fun t e => mkExec t (results e) (controls e))
    (dr_base x) (decision_kind (dr_decision x)) (decision_text x).

Definition insert_result (x : result_record) : M tenant_db string :=
  put_history result_bounds results (fun t e => mkExec (decisions e) t (controls e))
    (rr_base x) (rr_outcome x) (result_record_text x).

Definition insert_cancellation (x : control_record) : M tenant_db string :=
  put_history control_bounds controls (fun t e => mkExec (decisions e) (results e) t)
    (cr_base x) "cancel-request" (control_text x).

Definition no_history : pyexn := AuthorityDenied "task execution history unavailable".

(** [_get]: the decoded record with its digest, when the row is intact. *)
Definition read_history {A} (decode : string → option A) (base_of : A → base) (rows : exec_db → history)
    (owner i : string) : M tenant_db (option (A * string)) :=
  _ ← lift (identifier owner "owner_id");
  _ ← lift (identifier i "task_id");
  s ← get;
  match rows (td_exec s) !! (owner, i) with
  | None => mret None
  | Some r =>
      match decode (h_record r) with
      | None => raise no_history
      | Some x =>
          _ ← ensure (bool_decide (sha256_hex (h_record r) = h_sha r) &&
                      bool_decide (base_of x = mkBase owner i (h_agent r) (h_operation r) (h_link_sha r))) no_history;
          mret (Some (x, h_sha r))
      end
  end.

Definition get_decision := read_history decision_of dr_base decisions.
Definition get_result := read_history result_record_of rr_base results.
Definition get_cancellation := read_history control_of cr_base controls.
End store.
