(* ===== verification/IntentSpec.v ===== *)
(** * What retaining an intent guarantees

    The retained intents of a tenant never exceed the limits the tenant has set,
    are never changed, and an accepted intent reads back for execution exactly as
    it was accepted, with its task created in the same transaction. *)

From stdpp Require Import base list gmap sets strings.
From Stdlib Require Import ZArith Lia.
From S2P Require Import Prelude PyFloat Json Identity Authority OperationLedger Policy StreamLeases Evidence TaskLifecycle TaskSpec TaskIntents QueuedStore.

#[local] Open Scope Z_scope.

Section spec.
Context `{JsonText} `{Sha256} `{IntentCodec}.
Context (tenant : string) (max_active : Z).
Implicit Types s : tenant_db.

(** The audit record of an acceptance or a change of capacity is a write of the
    governance tables. *)
Notation accepts owner sub p g now := (accept max_active owner sub p (fun fp => zoom (T := gov) (g fp)) now : M tenant_db intent_row).
Notation sets l g := (set_capacity l (zoom (T := gov) g) : M tenant_db unit).

Definition agent_of (p : provenance) : string := default "" (p_agent_id (prov_authority p)).

(** What an acceptance wrote. *)
Record accepted (owner : string) (sub : TaskSubmission) (p : provenance) (now : float64) (s : tenant_db)
    (row : intent_row) (s' : tenant_db) : Prop := {
  ac_row : ∃ l, persisted_policy (td_intents s) = Ok l ∧
    row = mkIntentRow (agent_of p) (sub_operation sub) (sha256_hex (record_text (queued_record sub p now)))
            (record_text (queued_record sub p now)) (max_result_bytes l);
  ac_fresh : task_intents (td_intents s) !! (owner, sub_task sub) = None;
  ac_bounds : intent_bounds row (td_intents s) = true;
  ac_result : bounded_by 1 1048576 (i_result_limit row) = true;
  ac_intents : td_intents s' = mkIntents (<[(owner, sub_task sub) := row]> (task_intents (td_intents s)))
    (intent_policy (td_intents s)) (intent_meta (td_intents s));
  ac_task : ∃ t, make_task (sub_task sub) (sub_context sub) "agentbridge" SUBMITTED 0 = Ok t ∧
    create max_active true owner t (td_tasks s) = (Ok t, td_tasks s');
  ac_rest : td_links s' = td_links s ∧ td_exec s' = td_exec s;
}.

Lemma create_Ok owner t d x d' : create max_active true owner t d = (Ok x, d') → x = t.
Proof.
  unfold create. intros Hc. do 2 mstep Hc. apply (proj1 (atomic_Ok _ _ _ _)) in Hc. do 8 mstep Hc.
  by apply mret_Ok_inv in Hc as [-> _].
Qed.

Lemma zoom_Ok_inv {S T A} `{!Lens S T} (m : M T A) (s : S) a (s' : S) :
  zoom m s = (Ok a, s') → ∃ t, m (view s) = (Ok a, t) ∧ s' = update t s.
Proof. unfold zoom. destruct (m (view s)) as [r t]. intros [= -> <-]. by exists t. Qed.

Lemma catch_Ok_inv {S A} (m : M S A) h (s : S) a (s' : S) :
  (∀ x k, h x = Some k → ∀ (s1 : S) b (s2 : S), k s1 ≠ (Ok b, s2)) → catch m h s = (Ok a, s') → m s = (Ok a, s').
Proof.
  intros Hh. unfold catch. destruct (m s) as [[b|x] s1]; [done|]. destruct (h x) as [k|] eqn:Hk; [|done].
  intros Hr. by destruct (Hh _ _ Hk _ _ _ Hr).
Qed.

Lemma insert_intent_inv k r d u d' :
  insert_intent k r d = (Ok u, d') →
  bounded_by 1 1048576 (i_result_limit r) = true ∧ intent_bounds r d = true ∧ task_intents d !! k = None ∧
  d' = mkIntents (<[k := r]> (task_intents d)) (intent_policy d) (intent_meta d).
Proof.
  unfold insert_intent. intros Hi. minv.
  match goal with Hx : _ && negb _ = true |- _ => apply andb_true_iff in Hx as [Hn%bool_decide_eq_true _] end. done.
Qed.

Lemma accept_inv owner sub p g now s row s' :
  accepts owner sub p g now s = (Ok row, s') → accepted owner sub p now s row s'.
Proof.
  unfold accept. intros Ha. apply (proj1 (atomic_Ok _ _ _ _)) in Ha. rewrite run_get in Ha.
  apply bind_Ok_inv in Ha as (l & s1 & Hl & Ha). apply lift_Ok_inv in Hl as [Hl ->].
  apply bind_Ok_inv in Ha as (u1 & s1 & He & Ha). apply ensure_Ok_inv in He as [_ ->].
  apply bind_Ok_inv in Ha as (u2 & s1 & He & Ha). apply ensure_Ok_inv in He as [_ ->].
  apply bind_Ok_inv in Ha as (u3 & s1 & Hi & Ha). apply zoom_Ok_inv in Hi as (d' & Hi & ->).
  apply insert_intent_inv in Hi as (Hb & Hbd & Hn & ->).
  apply bind_Ok_inv in Ha as (t & s1 & Ht & Ha). apply lift_Ok_inv in Ht as [Ht ->].
  apply bind_Ok_inv in Ha as (u4 & s1 & Hc & Ha).
  apply catch_Ok_inv in Hc; [|intros x k Hk; destruct x; simplify_eq; done].
  apply bind_Ok_inv in Hc as (t' & s2 & Hc & Hr). apply mret_Ok_inv in Hr as [_ ->].
  apply zoom_Ok_inv in Hc as (td & Hc & ->). pose proof (create_Ok _ _ _ _ _ Hc) as ->.
  apply bind_Ok_inv in Ha as (u5 & s2 & Hau & Ha). apply zoom_Ok_inv in Hau as (gv & _ & ->).
  apply mret_Ok_inv in Ha as [-> ->]. split; try done; eauto.
Qed.

(** ** Capacity *)

(** The persisted policy is readable and covers what is retained. *)
Definition within_limits (d : intent_db) : Prop :=
  ∃ l, persisted_policy d = Ok l ∧ used_intents d ≤ max_intents l ∧ used_retained_bytes d ≤ max_retained_bytes l.

Inductive istep : tenant_db → tenant_db → Prop :=
| i_accept s owner sub p g now : istep s (accepts owner sub p g now s).2
| i_capacity s l g : istep s (sets l g s).2
| i_other s s' : td_intents s' = td_intents s → istep s s'.   (* any other use of the store *)

Lemma persisted_policy_inv d l :
  persisted_policy d = Ok l → intent_meta d = Some 1 ∧ intent_policy d = Some (1, l) ∧ limits_valid l = true.
Proof.
  unfold persisted_policy. intros Hp. destruct (intent_meta d) as [v|]; [|done]. destruct (decide (v = 1)) as [->|Hv].
  2:{ repeat case_match; done. }
  destruct (intent_policy d) as [[v' l']|]; [|done]. destruct (decide (v' = 1)) as [->|Hv']; [|repeat case_match; done].
  destruct (limits_valid l') eqn:Hl; [|done]. by injection Hp as <-.
Qed.

Lemma accepted_within owner sub p now s row s' : accepted owner sub p now s row s' → within_limits (td_intents s').
Proof.
  intros [(l & Hl & _) Hf Hb _ Hi _ _]. exists l. destruct (persisted_policy_inv _ _ Hl) as (Hm & Hp & Hv). rewrite Hi.
  unfold intent_bounds in Hb. rewrite Hm, Hp, !andb_true_iff, Z.ltb_lt, !Z.leb_le in Hb.
  unfold persisted_policy, used_intents, used_retained_bytes in *. cbn [task_intents intent_policy intent_meta].
  rewrite Hm, Hp, Hv, map_size_insert_None, sum_map_insert by done. split; [done|]. lia.
Qed.

Lemma set_capacity_inv l g s u s' :
  sets l g s = (Ok u, s') →
  limits_valid l = true ∧ task_intents (td_intents s') = task_intents (td_intents s) ∧
  used_intents (td_intents s) ≤ max_intents l ∧ used_retained_bytes (td_intents s) ≤ max_retained_bytes l ∧
  persisted_policy (td_intents s') = Ok l.
Proof.
  unfold set_capacity, validated. intros Hs. apply bind_Ok_inv in Hs as (l' & s1 & Hv & Hs). apply lift_Ok_inv in Hv as [Hv ->].
  destruct (limits_valid l) eqn:Hval; [|done]. apply (proj1 (atomic_Ok _ _ _ _)) in Hs. rewrite run_get in Hs.
  apply bind_Ok_inv in Hs as (l0 & s1 & Hp & Hs). apply lift_Ok_inv in Hp as [Hp ->]. apply persisted_policy_inv in Hp as (Hm & Hp & _).
  apply bind_Ok_inv in Hs as (u1 & s1 & He & Hs). apply ensure_Ok_inv in He as [He%negb_true_iff ->].
  apply orb_false_iff in He as [H1'%Z.ltb_ge H2'%Z.ltb_ge].
  apply bind_Ok_inv in Hs as (u2 & s1 & Hput & Hs). apply put_Ok_inv in Hput as ->. apply zoom_Ok_inv in Hs as (gv & _ & ->).
  unfold intents_of in *. cbn in *. unfold persisted_policy. cbn. rewrite Hm, Hp, Hval. done.
Qed.

Lemma istep_within s s' :
  istep s s' → within_limits (td_intents s) →
  within_limits (td_intents s') ∧ task_intents (td_intents s) ⊆ task_intents (td_intents s').
Proof.
  destruct 1 as [s owner sub p g now|s l g|s s' He]; intros Hw.
  - destruct (accepts owner sub p g now s) as [[row|x] s'] eqn:Ha; cbn [snd].
    + apply accept_inv in Ha. split; [by eapply accepted_within|]. rewrite (ac_intents _ _ _ _ _ _ _ Ha).
      apply insert_subseteq, Ha.
    + unfold accept in Ha. by apply atomic_Raise in Ha as ->.
  - destruct (sets l g s) as [[u|x] s'] eqn:Hs; cbn [snd].
    + apply set_capacity_inv in Hs as (Hv & Ht & H1' & H2' & Hp). split; [|by rewrite Ht]. exists l.
      unfold used_intents, used_retained_bytes in *. by rewrite Ht.
    + revert Hs. unfold set_capacity. rewrite run_bind. unfold lift. destruct (validated l); [|by intros [= _ <-]].
      intros Hs. by apply atomic_Raise in Hs as ->.
  - by rewrite He.
Qed.

(** Retained intents and their result allowances stay within the limits in
    force, whatever is accepted and however the limits are changed, and a
    retained intent is never changed or dropped. *)
Theorem intents_within_limits s s' :
  within_limits (td_intents s) → rtc istep s s' →
  within_limits (td_intents s') ∧ task_intents (td_intents s) ⊆ task_intents (td_intents s').
Proof.
  intros Hw Hr. revert Hw. induction Hr as [|s1 s2 s3 Hs _ IH]; intros Hw; [done|].
  destruct (istep_within _ _ Hs Hw) as [Hw2 Hsub]. destruct (IH Hw2) as [Hw3 Hsub3]. split; [done|]. by etrans.
Qed.

(** ** Reading an accepted intent back *)

(** What an authenticated session vouches for when it hands a submission over:
    the signed body is the submission, it was signed by an enrolled agent of
    this tenant, and the authorization outlives the acceptance. *)
Record vouched (owner ag : string) (sub : TaskSubmission) (p : provenance) (now : float64) : Prop := {
  vo_authentication : authentication p = "enrolled-tenant-request-v2";
  vo_finite : fisfinite (authorization_expires_at p) = true ∧ fisfinite now = true;
  vo_current : fltb fzero now = true ∧ fltb now (authorization_expires_at p) = true;
  vo_body : sha256_hex (request_body p) = body_sha256 p;
  vo_signed : parse_submission (request_body p) = Ok sub;
  vo_tenant : tenant_id (prov_authority p) = Some tenant;
  vo_agent : p_agent_id (prov_authority p) = Some ag ∧ is_agent_kind (kind (prov_authority p)) = true;
  vo_owner : binding_owner (prov_authority p) = Ok owner;
}.

(** The row as the loader returns it. *)
Definition stored_of (owner i : string) (row : intent_row) : stored_intent :=
  mkStored owner i (i_agent row) (i_operation row) (i_fingerprint row) (i_record row) (i_result_limit row).

Lemma accepted_intact owner ag sub p now s row s' :
  vouched owner ag sub p now → accepted owner sub p now s row s' →
  record_intact tenant owner (sub_task sub) row (queued_record sub p now) sub = true.
Proof.
  intros [Hau [Hf1 Hf2] [Hc1 Hc2] Hb Hs Ht [Ha Hk] Ho] [(l & _ & Hrow) _ _ Hres _ _ _].
  unfold record_intact. rewrite Hres, Hrow.
  cbn [prov queued_record domain phase execution_admitted accepted_at submission i_agent i_operation]. unfold agent_of.
  rewrite Hau, Hf1, Hf2, Hc1, Hc2, Hb, Ht, Ha, Hk, Ho. cbn [default]. by rewrite !bool_decide_eq_true_2 by done.
Qed.

Lemma make_task_Ok i c p st n t :
  make_task i c p st n = Ok t → t = mkTask i c p st n ∧ identifier_ok i = true.
Proof.
  unfold make_task, identifier. intros (a & Ha & Ht)%outcome_bind_Ok.
  apply outcome_bind_Ok in Ht as (b & _ & Ht). apply outcome_bind_Ok in Ht as (c' & _ & Ht).
  apply outcome_bind_Ok in Ht as (u & _ & Ht). apply outcome_bind_Ok in Ht as (u' & _ & Ht).
  destruct (identifier_ok i); by simplify_eq.
Qed.

Lemma loads_back max_events owner ag sub p g now s row s' :
  (∀ x, sha256_text (sha256_hex x) = true) →
  tasks_ok max_active max_events (td_tasks s) →
  vouched owner ag sub p now →
  accepts owner sub p g now s = (Ok row, s') →
  load_for_execution tenant owner (sub_task sub) (i_fingerprint row) s' =
    (Ok (stored_of owner (sub_task sub) row), s').
Proof.
  intros Hsha Hd Hv Ha%accept_inv. pose proof (accepted_intact _ _ _ _ _ _ _ _ Hv Ha) as Hok.
  destruct Ha as [(l & _ & Hrow) Hf _ _ Hi (t & Ht & Hc) _].
  destruct (make_task_Ok _ _ _ _ _ _ Ht) as [Et Hid].
  apply create_effect in Hc as (_ & _ & _ & Ho & Hn & _ & _ & _ & Htd).
  subst t. cbn [task_id] in Hn, Htd. pose proof (task_events_fresh _ _ _ _ Hd Hn) as He.
  assert (task_events (owner, sub_task sub) (td_tasks s) = []) as Hev by (unfold task_events; by rewrite He).
  assert (sha256_text (i_fingerprint row) = true) as Hfp by (rewrite Hrow; apply Hsha).
  assert (load_immutable tenant owner (sub_task sub) (i_fingerprint row) s' =
    (Ok (stored_of owner (sub_task sub) row, mkTask (sub_task sub) (sub_context sub) "agentbridge" SUBMITTED 0,
         mkTask (sub_task sub) (sub_context sub) "agentbridge" SUBMITTED 0), s')) as Hload.
  { unfold load_immutable, TaskLifecycle.identifier. rewrite Ho, Hid.
    rewrite (run_lift _ owner), (run_lift _ (sub_task sub)), run_ensure, run_get by done. unfold lift. f_equal.
    unfold intents_of, tasks_of. cbn [view lens_intents lens_tasks]. rewrite Hi, Htd, Hev. cbn [task_intents].
    unfold appends, task_events. cbn [snapshots events]. rewrite !lookup_insert_eq. cbn [app default].
    assert (record_of (i_record row) = Some (queued_record sub p now)) as Hro by (rewrite Hrow; apply record_of_text).
    rewrite Hro. cbn [prov queued_record]. rewrite (vo_signed _ _ _ _ _ Hv), Hok, Ht. cbn.
    assert (sha256_hex (i_record row) = i_fingerprint row) as Hs by (by rewrite Hrow).
    rewrite Hs, (bool_decide_eq_true_2 (i_fingerprint row = i_fingerprint row)) by done. cbn.
    rewrite decide_True by done. cbn. by rewrite bool_decide_eq_true_2 by done. }
  unfold load_for_execution. rewrite run_bind, Hload. cbn. by rewrite run_ensure by (by apply bool_decide_eq_true_2).
Qed.

(** An accepted intent reads back for execution: the loader, given the digest
    the acceptance returned, finds the record intact, the task it was accepted
    with still as created, and returns exactly the stored intent. *)
Theorem accepted_intent_loads max_events owner ag sub p g now s row s' :
  (∀ x, sha256_text (sha256_hex x) = true) →
  tasks_ok max_active max_events (td_tasks s) →
  vouched owner ag sub p now →
  accepts owner sub p g now s = (Ok row, s') →
  load_for_execution tenant owner (sub_task sub) (i_fingerprint row) s' =
    (Ok (stored_of owner (sub_task sub) row), s').
Proof. apply loads_back. Qed.
End spec.
