(* ===== verification/QueuedPreparation.v ===== *)
(** * Preparing queued work

    [governance/queued_intent_preparation.py] and [resolve_queued_target] of
    [api/trusted_targets.py]: the authority that the enrolment tables still give
    a retained intent, and the plan its action, target, cost and policy yield
    now.  The authority directory is in a database of its own, locked by the
    guard, so it is an argument ([Policy.authority]); so is the clock of each
    check.  Leases and process seals identify a guard that is still open; here
    the guard is the function that holds the authority value. *)

From stdpp Require Import base list gmap strings.
From Stdlib Require Import ZArith Lia.
From S2P Require Import Prelude PyFloat Json Identity Authority Budget PolicyRules OperationLedger Policy Protocols Gateway TaskLifecycle TaskIntents QueuedDestination QueuedStore.

#[local] Open Scope Z_scope.

(** [except (KeyError, TypeError, ValueError, AttributeError, OverflowError)]. *)
Definition as_denied {A} (msg : string) (o : outcome A) : outcome A :=
  match o with
  | Ok a => Ok a
  | Raise e =>
      if is_value_error e ||
         match e with KeyError _ | TypeError _ | AttributeError _ | OverflowError _ => true | _ => false end
      then Raise (AuthorityDenied msg) else Raise e
  end.

(** What a guard holds: the intent, its current principal and the deadline of
    the original request. *)
Record queued_authority := mkQueuedAuthority {
  qa_intent : stored_intent;
  qa_principal : Principal;
  qa_deadline : float64;
}.

(** An entry of [AGENTBRIDGE_TARGETS_JSON]: a queued destination, or another
    transport with what [resolve_target] answers for it. *)
Record target_entry := mkEntry {
  te_protocol : string;
  te_capabilities : list string;
  te_agents : option (list string);
  te_target : descriptor + outcome json;
}.

(** The plan of [_plan]; [qp_target] is the resolved target. *)
Record queued_plan := mkPlan {
  qp_owner : string;
  qp_task : string;
  qp_context : string;
  qp_operation : string;
  qp_intent_sha : string;
  qp_src : string;
  qp_dst : string;
  qp_wire : json;
  qp_capability : string;
  qp_cost : float64;
  qp_target_id : string;
  qp_target : descriptor + json;
  qp_target_sha : string;
  qp_expires : float64;
  qp_limit : Z;
  qp_approval_now : bool;
}.

(** The operator's configuration of one tenant. *)
Record tenant_config := mkTenantConfig {
  tc_tenant : string;
  tc_store : string;                          (* [store_id] *)
  tc_registry : list (string * adapter);
  tc_costs : gmap string pynum;
  tc_targets : gmap string target_entry;
  tc_adapters : gmap string descriptor;       (* the provisioned adapters *)
  tc_rules : list Rule;
  tc_sensitive : gset string;
  tc_prod : bool;
}.

Section preparation.
Context `{JsonText} `{Sha256} `{Ed25519} `{SealScheme} `{IntentCodec} `{QueuedCodec}.
Context (absolute : string → bool) (resolve_path : string → option string).
Context (parse_float : string → option float64) (float_repr : float64 → string).
Context (cfg : tenant_config) (auth : authority).

(** [intent.record]. *)
Definition retained (i : stored_intent) : outcome intent_record :=
  match record_of (st_record i) with Some r => Ok r | None => Raise (ValueError "invalid JSON") end.

Definition lost_authority : string := "queued intent authority or original deadline unavailable".

(** The stamp of the original request's nonce. *)
Definition nonce_stamp (nonce : string) : outcome float64 :=
  match split_colon nonce with
  | None => Raise (ValueError "not enough values to unpack")
  | Some (stamp, rand) =>
      match parse_float stamp with
      | None => Raise (ValueError "could not convert string to float")
      | Some ts =>
          if (256 <? strlen nonce) || negb (fisfinite ts) || (strlen rand <? 16)
          then Raise (ValueError "invalid original nonce") else Ok ts
      end
  end.

(** [_derive]: the principal the enrolment rows give the intent at [now]; [ids]
    are the tenant's identities. *)
Definition derive (i : stored_intent) (until now : float64) (ids : gmap string identity_row)
  : outcome (Principal * float64) :=
  as_denied lost_authority (
    r ← retained i;
    let p := prov r in
    let b := prov_authority p in
    let d := auth_dir auth in
    let t := Some (tc_tenant cfg) in
    let ag := Some (st_agent i) in
    stamp ← nonce_stamp (prov_nonce p);
    tenant ← active_tenant t d;
    agent ← active_agent t ag d;
    grant ← (if bool_decide (kind b = "delegated_human")
             then row ← current_grant now t (delegation_id b) ag agent d;
                  Ok (Some (default "" (delegation_id b), row))
             else Ok None);
    let deadline := match grant with
                    | Some (_, g) => fmin (fadd stamp (fl 300)) (d_expires_at g)
                    | None => fadd stamp (fl 300)
                    end in
    _ ← guard_or (feqb (authorization_expires_at p) deadline && negb (fgeb now deadline))
                 (ValueError "original authorization expired or changed");
    let principal := agent_principal (auth_key auth) (tc_tenant cfg) (st_agent i) tenant agent grant
                       (fmin until deadline) "" "" in
    _ ← guard_or (bool_decide (canonical_dumps (binding_json principal) = canonical_dumps (binding_json b)) &&
                  bool_decide (g_key agent = signer_public_key_hex p))
                 (ValueError "accepted enrollment binding changed");
    _ ← guard_or (match ids !! st_agent i with
                  | Some row => negb (row_revoked row) && bool_decide (row_key row = g_key agent)
                  | None => false
                  end)
                 (ValueError "tenant identity and enrollment disagree");
    _ ← current (auth_key auth) now principal d;
    Ok (principal, deadline)).

Definition changed_lifetime : pyexn := AuthorityDenied "queued admission scope or lifetime changed".

(** [_assert_queued_lifetime] at [now]. *)
Definition assert_lifetime (a : queued_authority) (now : float64) (s : tenant_db) : outcome unit :=
  _ ← current (auth_key auth) now (qa_principal a) (auth_dir auth);
  '(p, deadline) ← derive (qa_intent a) (valid_until (qa_principal a)) now (g_ids (td_gov s));
  guard_or (bool_decide (proof p = proof (qa_principal a)) && feqb deadline (qa_deadline a)) changed_lifetime.

Definition same_intent (a b : stored_intent) : bool :=
  bool_decide (st_owner a = st_owner b) && bool_decide (st_task a = st_task b) &&
  bool_decide (st_agent a = st_agent b) && bool_decide (st_operation a = st_operation b) &&
  bool_decide (st_sha256 a = st_sha256 b) && bool_decide (st_record a = st_record b) &&
  (st_result_limit a =? st_result_limit b).

(** [_assert_queued_intent]: the intent is still the retained, unstarted one. *)
Definition assert_intent (a : queued_authority) (now : float64) : M tenant_db unit :=
  _ ← lift (current (auth_key auth) now (qa_principal a) (auth_dir auth));
  i ← load_for_execution (tc_tenant cfg) (st_owner (qa_intent a)) (st_task (qa_intent a)) (st_sha256 (qa_intent a));
  _ ← ensure (same_intent i (qa_intent a)) (AuthorityDenied "retained queued intent changed");
  s ← get;
  '(p, deadline) ← lift (derive i (valid_until (qa_principal a)) now (g_ids (td_gov s)));
  ensure (bool_decide (proof p = proof (qa_principal a)) && feqb deadline (qa_deadline a))
         (AuthorityDenied "queued intent scope or lifetime changed").

(** ** The plan *)

Definition bad_target {A} (msg : string) : outcome A := Raise (SecurityConfigurationError msg).

(** [resolve_queued_target] for a named target. *)
Definition resolve_queued_target (target protocol capab ag : string) (w : json) : outcome (descriptor + json) :=
  if bool_decide (strip target = "") then bad_target "target_id must be a nonempty string"
  else match tc_targets cfg !! target with
  | None => bad_target "target_id not registered by operator"
  | Some e =>
      _ ← guard_or (bool_decide (te_protocol e = protocol)) (SecurityConfigurationError "destination protocol mismatch");
      _ ← guard_or (negb (bool_decide (te_capabilities e = [])) && bool_decide (capab ∈ te_capabilities e))
                   (SecurityConfigurationError "capability not authorized for target");
      _ ← guard_or (negb (tc_prod cfg) ||
                    match te_agents e with Some l => bool_decide (ag ∈ l) | None => false end)
                   (SecurityConfigurationError "agent not authorized for target");
      match te_target e with
      | inr generic => j ← generic; Ok (inr j)
      | inl d =>
          _ ← guard_or (negb (tc_prod cfg)) (SecurityConfigurationError "queued demonstration destination is nonproduction only");
          _ ← guard_or (bool_decide (capab = "write") &&
                        match te_agents e with Some l => bool_decide (ag ∈ l) | None => false end)
                       (SecurityConfigurationError "queued demonstration requires the exact allowed agent and write capability");
          d ← normalize_queued_descriptor absolute resolve_path d;
          _ ← canonical_demo_action w;
          _ ← guard_or (bool_decide (de_tenant d = tc_tenant cfg) && bool_decide (de_target d = target))
                       (SecurityConfigurationError "invalid bounded queued demonstration target or action");
          Ok (inl d)
      end
  end.

(** [_queued_adapter]: the adapter provisioned for exactly this descriptor. *)
Definition queued_adapter (target : string) (d : descriptor) : outcome unit :=
  guard_or (negb (tc_prod cfg) && bool_decide (tc_adapters cfg !! target = Some d))
           (AuthorityDenied "current operator-bound nonproduction queued adapter required").

Definition target_text (x : descriptor + json) : string :=
  match x with inl d => descriptor_text d | inr j => canonical_dumps j end.

Definition stale_plan : string := "queued intent action, target, cost or current policy changed".

(** [_plan] at [now]; [ids] are drawn by the translation, [clock] is the policy
    rules'. *)
Definition plan (a : queued_authority) (gen : ids) (clock : nat → datetime) (now : float64) : outcome queued_plan :=
  let i := qa_intent a in
  as_denied stale_plan (
    r ← retained i;
    let p := prov r in
    let sub := submission r in
    _ ← get_adapter (tc_registry cfg) (sub_dst sub);
    src ← get_adapter (tc_registry cfg) (sub_src sub);
    c ← to_canonical_call src (gen_call gen) (sub_wire sub);
    _ ← translate_call (tc_registry cfg) gen (sub_wire sub) (sub_src sub) (sub_dst sub);
    let capab := Protocols.capability c in
    _ ← (Authority.authorize (auth_key auth) now (qa_principal a) capab (Some (sub_target sub)) (auth_dir auth)).1;
    cost ← match tc_costs cfg !! capab with
           | None => Raise (KeyError capab)
           | Some n => checked_cost n
           end;
    operator ← checked_cost (PFloat (operator_cost p));
    _ ← guard_or (bool_decide (capab = prov_capability p) && feqb cost operator)
                 (ValueError "accepted capability or operator cost changed");
    target ← resolve_queued_target (sub_target sub) (sub_dst sub) capab (st_agent i) (sub_wire sub);
    _ ← match target with inl d => queued_adapter (sub_target sub) d | inr _ => Ok tt end;
    let digest := sha256_hex (target_text target) in
    _ ← guard_or (bool_decide (digest = target_configuration_sha256 p))
                 (ValueError "accepted target configuration changed");
    let rule := evaluate float_repr clock (tc_rules cfg)
                  (mkContext (st_agent i) capab cost (Some (sub_src sub)) (Some (sub_dst sub)) None) in
    _ ← guard_or (PolicyRules.allowed rule) (ValueError "current declarative policy denies intent preparation");
    Ok (mkPlan (st_owner i) (st_task i) (sub_context sub) (st_operation i) (st_sha256 i) (sub_src sub) (sub_dst sub)
          (sub_wire sub) capab cost (sub_target sub) target digest (qa_deadline a) (st_result_limit i)
          (PolicyRules.needs_approval rule || bool_decide (capab ∈ tc_sensitive cfg)))).

Definition same_target (x y : descriptor + json) : bool :=
  match x, y with
  | inl a, inl b => bool_decide (a = b)
  | inr a, inr b => json_eqb a b
  | _, _ => false
  end.

(** Plans are compared as JSON values. *)
Definition same_plan (p q : queued_plan) : bool :=
  bool_decide (qp_owner p = qp_owner q) && bool_decide (qp_task p = qp_task q) &&
  bool_decide (qp_context p = qp_context q) && bool_decide (qp_operation p = qp_operation q) &&
  bool_decide (qp_intent_sha p = qp_intent_sha q) && bool_decide (qp_src p = qp_src q) &&
  bool_decide (qp_dst p = qp_dst q) && json_eqb (qp_wire p) (qp_wire q) &&
  bool_decide (qp_capability p = qp_capability q) && feqb (qp_cost p) (qp_cost q) &&
  bool_decide (qp_target_id p = qp_target_id q) && same_target (qp_target p) (qp_target q) &&
  bool_decide (qp_target_sha p = qp_target_sha q) && feqb (qp_expires p) (qp_expires q) &&
  (qp_limit p =? qp_limit q) && Bool.eqb (qp_approval_now p) (qp_approval_now q).

(** ** Guards *)

(** [_guard_queued_intent] and [_prepare]: the guarded authority of an unstarted
    intent, and its plan. *)
Definition prepare (owner i sha : string) (gen : ids) (clock : nat → datetime) (now : float64)
  : M tenant_db (queued_authority * queued_plan) :=
  intent ← load_for_execution (tc_tenant cfg) owner i sha;
  s ← get;
  '(p, deadline) ← lift (derive intent (fadd now (fl 30)) now (g_ids (td_gov s)));
  let a := mkQueuedAuthority intent p deadline in
  _ ← assert_intent a now;
  pl ← lift (plan a gen clock now);
  mret (a, pl).

(** [_assert_prepared]. *)
Definition assert_prepared (a : queued_authority) (pl : queued_plan) (gen : ids) (clock : nat → datetime)
    (now : float64) : M tenant_db unit :=
  _ ← assert_intent a now;
  again ← lift (plan a gen clock now);
  ensure (same_plan again pl) (AuthorityDenied "queued preparation changed").
End preparation.
