(* ===== verification/QueuedAdmission.v ===== *)
(** * Admitting queued work

    [governance/task_admission.py] ([_action_scope], [_queued_scope], [_link])
    and the queued path of [governance/gateway.py] ([_queued_policy],
    [_admit_transaction] with a preparation, [_admit_queued_intent]).  The claim,
    the quota, the reservation, the consumed approval, the WORKING event and the
    link are one transaction of the tenant's store.  A tenant gateway always has
    one shared SQL store and an authority.  One admission reads the clock once. *)

From stdpp Require Import base list gmap strings.
From Stdlib Require Import ZArith Lia.
From S2P Require Import Prelude PyFloat Json Identity Authority Budget AuditLog Approvals PolicyRules OperationLedger Quotas Policy Protocols Gateway TaskLifecycle TaskIntents QueuedDestination QueuedStore QueuedPreparation.

#[local] Open Scope Z_scope.

Section admission.
Context `{AuditCodec} `{JsonText} `{Sha256} `{Ed25519} `{SealScheme} `{IntentCodec} `{QueuedCodec} `{HistoryCodec}.
Context (absolute : string → bool) (resolve_path : string → option string).
Context (parse_float : string → option float64) (float_repr : float64 → string).
Context (owner_json : string → string → string → string → string).
Context (cfg : tenant_config) (auth : authority) (e : env) (eng : engine) (dflt : Budget) (max_events : Z).

(** [_action_scope]. *)
Definition action_scope (ag a_src a_dst : string) (w : json) (c : float64) (target op : string) (b : Principal)
  : string :=
  sha256_hex (canonical_dumps (JObj
    [("agent_id", JStr ag); ("src", JStr a_src); ("dst", JStr a_dst); ("wire", w); ("cost", JFloat c);
     ("target_id", JStr target); ("operation_id", JStr op); ("authority", binding_json b)])).

(** The queued action's digest over the original one. *)
Definition scope_digest (owner i intent_sha original : string) : string :=
  sha256_hex (canonical_dumps (JObj
    [("domain", JStr "agentbridge.queued-action.v1"); ("owner_id", JStr owner); ("task_id", JStr i);
     ("intent_sha256", JStr intent_sha); ("original_action_sha256", JStr original)])).

Definition original_scope (a : queued_authority) (pl : queued_plan) : string :=
  action_scope (st_agent (qa_intent a)) (qp_src pl) (qp_dst pl) (qp_wire pl) (qp_cost pl) (qp_target_id pl)
    (qp_operation pl) (qa_principal a).

(** [_queued_scope]. *)
Definition queued_scope (a : queued_authority) (pl : queued_plan) : string :=
  scope_digest (qp_owner pl) (qp_task pl) (qp_intent_sha pl) (original_scope a pl).

Definition principal_actor (p : Principal) : string :=
  ("principal:v1:" +:+ canonical_dumps (binding_json p))%string.

Definition audit_task (who action a_src a_dst capab verdict why stamp : string) : M tenant_db unit :=
  _ ← zoom (AuditLog.Sql.record (AuditLog.mkEvent who action a_src a_dst capab verdict why fzero) stamp); mret tt.

Notation prepared a pl x := (assert_prepared absolute resolve_path parse_float float_repr cfg auth a pl (call_ids x) (clock x) (now x)).

(** The metadata [_link] writes. *)
Definition link_record (a : queued_authority) (pl : queued_plan) (scope tok : string) (t : TaskLifecycle)
    (approval : bool) (at_ : float64) : link_meta :=
  mkLinkMeta (tc_tenant cfg) (qp_owner pl) (qp_task pl) (qp_context pl) (st_agent (qa_intent a)) (qp_operation pl)
    (qp_intent_sha pl) scope (original_scope a pl) tok (sequence t) (state_value (state t)) (qp_target_id pl)
    (qp_target_sha pl) (qp_cost pl) approval (qp_limit pl) (qp_expires pl) at_.

(** [_link]. *)
Definition link_admission (a : queued_authority) (pl : queued_plan) (scope tok : string) (d : Decision) (x : drawn)
  : M tenant_db (link_meta * string) :=
  atomic (
    _ ← prepared a pl x;
    t ← zoom (transition max_events true (qp_owner pl) (qp_task pl) WORKING 0);
    '(m, sha) ← insert_link (link_record a pl scope tok t (approval_required d) (now x)) t;
    _ ← audit_task (principal_actor (qa_principal a)) "task.admit" (qp_src pl) (qp_dst pl) (qp_capability pl) "allow"
          ("admitted queued action sha256:" +:+ scope +:+ "; link sha256:" +:+ sha)%string (stamp x);
    s ← get;
    _ ← lift (assert_lifetime parse_float cfg auth a (now x) s);
    mret (m, sha)).

(** [_queued_policy]: the tenant needs an operator budget; an approval that was
    required at submission stays required. *)
Definition queued_policy (a : queued_authority) (pl : queued_plan) (scope : string) (x : drawn) : M tenant_db Decision :=
  _ ← prepared a pl x;
  s ← get;
  let ag := st_agent (qa_intent a) in
  if negb (bool_decide (is_Some (Manager.rows (g_bud (td_gov s)) !! ag)))
  then mret (deny "operator budget required for queued admission")
  else
    d ← zoom (Policy.authorize float_repr e eng (Some auth) dflt (now x) (clock x)
          (Policy.mkCall ag (qp_capability pl) (qp_cost pl) (Some (qp_src pl)) (Some (qp_dst pl)) (Some scope) None None
             (Some (qa_principal a)) (Some (qp_target_id pl))));
    r ← lift (retained (qa_intent a));
    if Policy.allowed d && approval_required_at_submission (prov r) && negb (approval_required d)
    then
      s ← get;
      if match Policy.sensitive eng with
         | Some _ => is_granted ag (qp_capability pl) (Some scope) (g_apr (td_gov s))
         | None => false
         end
      then mret (mkDecision true (reason d) false true)
      else mret (mkDecision false "original queued approval required" true false)
    else mret d.

(** [_admit_transaction] of a prepared intent. *)
Definition admit_queued_transaction (a : queued_authority) (pl : queued_plan) (scope : string) (x : drawn)
  : M tenant_db (link_meta * string) :=
  let ag := st_agent (qa_intent a) in
  let op := qp_operation pl in
  let p := Some (qa_principal a) in
  atomic (
    _ ← zoom (claim_operation (Some auth) x p ag op scope None
                (quota_hook owner_json (Some auth) x p ag op scope (qp_cost pl)));
    d ← queued_policy a pl scope x;
    _ ← ensure (allowed d) (AdmissionRejected (reason d) (needs_approval d));
    '(tok, why) ← zoom (Manager.reserve dflt ag (PFloat (qp_cost pl)) (now x) (token_uuid x));
    match tok with
    | None => raise (AdmissionRejected why false)
    | Some t =>
        _ ← zoom (authority_authorize (Some auth) (now x) p (qp_capability pl) (Some (qp_target_id pl)));
        _ ← attach_reservation ag op t;
        _ ← (if approval_required d then
               b ← zoom (consume_grant eng ag (qp_capability pl) (Some scope));
               ensure b (AdmissionRejected "approval grant already consumed" false)
             else mret tt);
        _ ← zoom (authority_authorize (Some auth) (now x) p (qp_capability pl) (Some (qp_target_id pl)));
        link_admission a pl scope t d x
    end).

(** A refused admission: its pending approval and denial are one transaction. *)
Definition refuse_queued (a : queued_authority) (pl : queued_plan) (scope why : string) (needs : bool) (x : drawn)
  : M tenant_db (link_meta * string) :=
  approval ← atomic (
    _ ← prepared a pl x;
    approval ← (if needs && bool_decide (is_Some (Policy.sensitive eng))
                then fun s =>
                  let '(req, t) := Approvals.request (approval_uuid x) (stamp x) (st_agent (qa_intent a))
                                     (qp_capability pl) (qp_cost pl) (Some scope) (g_apr (td_gov s)) in
                  (Ok (Some (Approvals.id req)), update t s)
                else mret None);
    _ ← audit_task (principal_actor (qa_principal a)) "task.admit" (qp_src pl) (qp_dst pl) (qp_capability pl) "deny"
          (why +:+ "; queued action sha256:" +:+ scope)%string (stamp x);
    mret approval);
  raise (GovernanceError why approval).

(** [_admit_queued_intent] of an open preparation. *)
Definition admit_prepared (a : queued_authority) (pl : queued_plan) (x : drawn) : M tenant_db (link_meta * string) :=
  _ ← prepared a pl x;
  let scope := queued_scope a pl in
  r ← catch (v ← admit_queued_transaction a pl scope x; mret (inr v))
        (fun err => match err with AdmissionRejected why needs => Some (mret (inl (why, needs))) | _ => None end);
  match r with
  | inr v => mret v
  | inl (why, needs) => refuse_queued a pl scope why needs x
  end.

(** [TenantKernel._admit_queued_intent]. *)
Definition admit_queued_intent (owner i sha : string) (x : drawn) : M tenant_db (link_meta * string) :=
  '(a, pl) ← prepare absolute resolve_path parse_float float_repr cfg auth owner i sha (call_ids x) (clock x) (now x);
  admit_prepared a pl x.
End admission.
