(* ===== verification/QueuedDispatch.v ===== *)
(** * Dispatching queued work

    [governance/queued_task_dispatch.py] over [QueuedSqliteAdapter]
    ([governance/queued_sqlite_adapter.py]).  A [world] is the tenant's store and
    the destination of the tenant's provisioned adapter: two databases, with no
    transaction across them.  Each step below is one transaction of one of them,
    and [dispatch_once], [recover] and [cancel] compose them as the code does.

    The clock is read where the code reads it.  The adapter's signers answer the
    hex text of their 64 bytes.  [seal] is the HMAC of a readback under the
    kernel's private key.  No signing trust journal is configured, and the
    operator's session of a reviewed settlement is the verdict [op_session]. *)

From stdpp Require Import base list gmap strings.
From Stdlib Require Import ZArith Lia.
From S2P Require Import Prelude PyFloat Json Identity Authority Budget AuditLog Approvals PolicyRules OperationLedger Quotas Policy Protocols Gateway Evidence Fencing TaskLifecycle TaskIntents QueuedDestination QueuedStore QueuedPreparation QueuedAdmission.

#[local] Open Scope Z_scope.

Record world := mkWorld { w_tenant : tenant_db; w_dest : qdest }.

#[global] Program Instance lens_w_tenant : Lens world tenant_db := {
  view := w_tenant;
  update x s := mkWorld x (w_dest s) }.
Solve All Obligations with by intros; try destruct s.
#[global] Program Instance lens_w_dest : Lens world qdest := {
  view := w_dest;
  update x s := mkWorld (w_tenant s) x }.
Solve All Obligations with by intros; try destruct s.

(** What a caller names: owner, task, intent digest and link digest. *)
Record refs := mkRefs { f_owner : string; f_task : string; f_intent : string; f_link : string }.

(** The exact immutable linkage of an admitted task. *)
Record linkage := mkLinkage {
  li_intent : stored_intent;
  li_record : intent_record;
  li_link : link_meta;
  li_link_sha : string;
  li_initial : TaskLifecycle;
  li_current : TaskLifecycle;
  li_operation : op_row;
}.

(** [_Readback]. *)
Record completion := mkCompletion {
  co_refs : refs;
  co_decision_sha : string;
  co_result : demo_outcome;
  co_receipt : receipt;
  co_readback : readback;
  co_proof : string;
}.

(** [_status]. *)
Record task_status := mkStatus {
  ts_state : string;
  ts_decision_sha : option string;
  ts_result : option result_record;
}.

(** A reviewed settlement: the reviewer and signature, the operators' registry,
    the operator, and whether the session is current on entry and on commit. *)
Record operator_review := mkOperatorReview {
  op_reviewer : string;
  op_signature : string;
  op_registry : option string;
  op_principal : Principal;
  op_session : outcome unit;
  op_sealed : outcome unit;
}.

(** [math.ceil] of a finite float. *)
Definition fceil (x : float64) : Z :=
  match x with FFin z => - ((- z) / 2 ^ 1074) | _ => 0 end.

Section dispatch.
Context `{AuditCodec} `{JsonText} `{Sha256} `{Ed25519} `{SealScheme} `{IntentCodec} `{QueuedCodec} `{HistoryCodec}.
Context (absolute : string → bool) (resolve_path : string → option string).
Context (parse_float : string → option float64) (float_repr : float64 → string).
Context (cfg : tenant_config) (auth : authority) (e : env) (eng : engine) (dflt : Budget) (max_events : Z).
(** The provisioned adapter: its normalized descriptor and three signers. *)
Context (dd : descriptor) (authorizer_sign destination_sign observer_sign : string → outcome string).
Context (seal : refs → string → demo_outcome → receipt → readback → string).

(** ** Linkage *)

Definition event_at (n : Z) (k : string * string) (d : task_db) : option TaskLifecycle :=
  head (filter (fun t => sequence t = n) (task_events k d)).

Definition link_matches (f : refs) (i : stored_intent) (r : intent_record) (initial : TaskLifecycle) (l : link_meta)
  : bool :=
  bool_decide (l_tenant l = tc_tenant cfg) && bool_decide (l_owner l = f_owner f) && bool_decide (l_task l = f_task f) &&
  bool_decide (l_context l = context_id initial) && bool_decide (l_agent l = st_agent i) &&
  bool_decide (l_operation l = st_operation i) && bool_decide (l_intent_sha l = f_intent f) &&
  (l_limit l =? st_result_limit i) && feqb (l_expires l) (authorization_expires_at (prov r)) &&
  feqb (l_cost l) (operator_cost (prov r)) && (l_sequence l =? 1).

(** [_linked_history]. *)
Definition linked_history (f : refs) : M tenant_db linkage :=
  '(i, initial, current) ← load_immutable (tc_tenant cfg) (f_owner f) (f_task f) (f_intent f);
  '(l, sha) ← get_link (f_owner f) (f_task f) (f_intent f);
  _ ← ensure (bool_decide (sha = f_link f)) (AuthorityDenied "exact immutable admission link required");
  s ← get;
  let k := (f_owner f, f_task f) in
  expected ← lift (transition_task WORKING 1 initial);
  _ ← ensure (match td_links s !! k, event_at 1 k (td_tasks s) with
              | Some row, Some ev => bool_decide (k_snapshot row = ev) && bool_decide (ev = expected)
              | _, _ => false
              end)
             (AuthorityDenied "admission event linkage unavailable");
  r ← lift (retained i);
  let p := prov r in
  let sub := submission r in
  let original := action_scope (st_agent i) (sub_src sub) (sub_dst sub) (sub_wire sub) (operator_cost p)
                    (sub_target sub) (st_operation i) (prov_authority p) in
  _ ← ensure (bool_decide (l_action_sha l = scope_digest (f_owner f) (f_task f) (f_intent f) original) &&
              bool_decide (l_original_sha l = original) &&
              bool_decide (l_target_sha l = target_configuration_sha256 p))
             (AuthorityDenied "admission action or target binding unavailable");
  _ ← ensure (link_matches f i r initial l) (AuthorityDenied "admission does not match immutable accepted intent");
  operation ← get_operation (st_agent i) (st_operation i);
  b ← authority_binding (Some (tc_tenant cfg)) (st_agent i) (st_operation i);
  match operation, b with
  | Some o, Some b =>
      _ ← ensure (bool_decide (fingerprint o = l_action_sha l) &&
                  bool_decide (canonical_dumps (binding_json b) = canonical_dumps (binding_json (prov_authority p))))
                 (AuthorityDenied "admission operation or authority binding unavailable");
      mret (mkLinkage i r l sha initial current o)
  | _, _ => raise (AuthorityDenied "admission operation or authority binding unavailable")
  end.

Definition consumed_grant (ag capab : string) (s : tenant_db) : bool :=
  existsb (fun a => bool_decide (Approvals.agent_id a = ag ∧ Approvals.capability a = capab ∧ st a = consumed))
    (g_apr (td_gov s)).

(** [_load_admitted]. *)
Definition load_admitted (f : refs) : M tenant_db linkage :=
  x ← linked_history f;
  expected ← lift (transition_task WORKING 1 (li_initial x));
  _ ← ensure (bool_decide (li_current x = expected) && bool_decide (op_st (li_operation x) = unknown))
             (AuthorityDenied "first dispatch requires the unchanged admitted task and UNKNOWN operation");
  s ← get;
  let i := li_intent x in
  let l := li_link x in
  _ ← ensure (bool_decide (reservations (g_led (td_gov s)) !! (st_agent i, st_operation i) = Some (l_token l)) &&
              match dict_get (l_token l) (reserved_of (st_agent i) s) with
              | Some amount => feqb amount (l_cost l)
              | None => false
              end)
             (AuthorityDenied "exact already-held admission reservation required");
  _ ← ensure (negb (l_approval l) ||
              consumed_grant (st_agent i) (prov_capability (prov (li_record x)) +:+ "|" +:+ l_action_sha l)%string s)
             (AuthorityDenied "exact admission-scoped consumed grant unavailable");
  mret x.

(** ** Guard and current checks *)

(** [_guard_admitted]: the authority at [now]; [deadline] is the kernel's
    [deadline_seconds]. *)
Definition guard_admitted (f : refs) (deadline now : float64) : M tenant_db queued_authority :=
  x ← load_admitted f;
  s ← get;
  '(p, original) ← lift (derive parse_float cfg auth (li_intent x) (fadd now (fmin (fl 30) deadline)) now (g_ids (td_gov s)));
  mret (mkQueuedAuthority (li_intent x) p original).

Definition check_lifetime (a : queued_authority) (now : float64) : M tenant_db unit :=
  s ← get; lift (assert_lifetime parse_float cfg auth a now s).

(** [_current]: the linkage, the plan and its queued destination. *)
Definition current_checks (a : queued_authority) (f : refs) (gen : ids) (clock : nat → datetime) (now : float64)
  : M tenant_db (linkage * queued_plan * descriptor) :=
  _ ← check_lifetime a now;
  x ← load_admitted f;
  _ ← ensure (same_intent (li_intent x) (qa_intent a)) (AuthorityDenied "admitted intent changed under execution guard");
  pl ← lift (plan absolute resolve_path float_repr cfg auth a gen clock now);
  match qp_target pl with
  | inr _ => raise (AuthorityDenied "explicit queued-only destination required")
  | inl d =>
      dec ← zoom (current_dispatch_policy float_repr e eng (Some auth) now clock
              (Policy.mkCall (st_agent (li_intent x)) (qp_capability pl) (qp_cost pl) (Some (qp_src pl)) (Some (qp_dst pl))
                 None None None (Some (qa_principal a)) (Some (qp_target_id pl))));
      _ ← ensure (Policy.allowed dec && negb (approval_required dec && negb (l_approval (li_link x))))
                 (AuthorityDenied "current policy requires an admission-scoped consumed approval");
      mret (x, pl, d)
  end.

(** ** Records *)

Definition base_of (x : linkage) : base :=
  mkBase (st_owner (li_intent x)) (st_task (li_intent x)) (st_agent (li_intent x)) (st_operation (li_intent x)) (li_link_sha x).

Definition audit_execution (x : linkage) (action why stamp : string) : M tenant_db unit :=
  audit_task ("queued-task:" +:+ st_owner (li_intent x))%string action "mcp" "mcp"
    (prov_capability (prov (li_record x))) "allow" why stamp.

(** [_status]. *)
Definition status_of (owner i : string) : M tenant_db task_status :=
  d ← get_decision owner i;
  r ← get_result owner i;
  let st := match r, d with
            | Some (x, _), _ => rr_outcome x
            | None, Some (x, _) => match dr_decision x with Closed _ => "closed" | Attempt _ _ _ => "unknown" end
            | None, None => "unknown"
            end in
  mret (mkStatus st (snd <$> d) (fst <$> r)).

(** The task ends with [x], unless it has ended already. *)
Definition end_task (owner i : string) (x : TaskState) : M tenant_db unit :=
  t ← zoom (get_snapshot owner i);
  if terminal t then mret tt
  else _ ← zoom (transition max_events true owner i x (sequence t)); mret tt.

(** [_close]. *)
Definition close_task (x : linkage) (why : string) (terminal_state : TaskState) (now : float64) (stamp : string)
  : M tenant_db unit :=
  let i := li_intent x in
  d ← get_decision (st_owner i) (st_task i);
  _ ← ensure (match d with None => true | Some _ => false end) (AuthorityDenied "execution decision already exists");
  _ ← insert_decision (mkDecisionRecord (base_of x) (Closed why));
  _ ← settle_owned_reservation dflt (st_agent i) (st_operation i) (l_token (li_link x)) failed
        (Some (l_cost (li_link x))) now;
  _ ← end_task (st_owner i) (st_task i) terminal_state;
  audit_execution x "task.closed-before-dispatch" why stamp.

(** ** The adapter *)

(** [QueuedSqliteAdapter.acquire]: the target is opened and qualified, the fence
    taken for a second more than a call may last. *)
Definition adapter_acquire (scope owner : string) (now : float64) : M qdest (Z * float64) :=
  _ ← initialize_queued false dd;
  epoch ← zoom (Sqlite.acquire scope owner (fceil (de_timeout dd) + 1) now);
  q ← get;
  match fences (q_lease q) !! scope with
  | Some f => mret (epoch, f_expires f)
  | None => raise (TypeError "'NoneType' object is not subscriptable")
  end.

(** [QueuedSqliteAdapter.authorize]. *)
Definition adapter_authorize (z : authorization) : outcome authorization :=
  signature ← authorizer_sign (authorization_payload z);
  _ ← guard_or (strlen signature =? 128) (ValueError "operator authorizer did not issue a valid signature");
  Ok (mkAuthorization (z_tenant z) (z_store z) (z_owner z) (z_agent z) (z_authority_sha z) (z_task z) (z_context z)
        (z_intent_sha z) (z_link_sha z) (z_fingerprint z) (z_original_sha z) (z_target z) (z_target_sha z)
        (z_destination z) (z_operation z) (z_action_sha z) (z_result_limit z) (z_attempt z) (z_fence_scope z)
        (z_fence_owner z) (z_fence_epoch z) (z_issued z) (z_expires z) (z_authorizer_id z) signature).

(** [QueuedSqliteAdapter.commit]. *)
Definition adapter_commit (z : authorization) (action : string) (lose_ack : bool) (now now' : float64)
  : M qdest (demo_outcome * receipt) :=
  _ ← initialize_queued false dd;
  commit_queued absolute resolve_path destination_sign dd z action lose_ack now now'.

(** [QueuedSqliteAdapter.observe]. *)
Definition adapter_observe (z : authorization) (action : string) (now : Z) (q : qdest)
  : outcome (demo_outcome * receipt * readback) :=
  observe_queued absolute resolve_path observer_sign (de_path dd) (de_signer_hex dd) z action dd now q.

(** ** First dispatch *)

(** The readings of one dispatch: the attempt's identifier, and the clock of the
    guard, the fence, the transaction, its stamp, the send and its two readings
    at the destination. *)
Record readings := mkReadings {
  rd_attempt : string;
  rd_deadline : float64;            (* the kernel's [deadline_seconds] *)
  rd_guard : float64;
  rd_fence : float64;
  rd_locked : float64;
  rd_stamp : float64;
  rd_final : float64;
  rd_send : float64;
  rd_entry : float64;
  rd_signed : float64;
  rd_text : string;                 (* the audit time stamp *)
  rd_ids : ids;
  rd_clock : nat → datetime;
  rd_lose_ack : bool;
}.

Definition fence_scope_of (i : stored_intent) : string :=
  sha256_hex (canonical_dumps (JObj
    [("tenant", JStr (tc_tenant cfg)); ("store", JStr (tc_store cfg)); ("agent", JStr (st_agent i));
     ("operation", JStr (st_operation i))])).

(** The authorization of an attempt, before it is signed. *)
Definition unsigned_authorization (x : linkage) (pl : queued_plan) (action : string) (epoch : Z) (expires : float64)
    (r : readings) : authorization :=
  let i := li_intent x in
  let scope := fence_scope_of i in
  mkAuthorization (tc_tenant cfg) (tc_store cfg) (st_owner i) (st_agent i)
    (sha256_hex (canonical_dumps (binding_json (prov_authority (prov (li_record x)))))) (st_task i) (qp_context pl)
    (st_sha256 i) (li_link_sha x) (l_action_sha (li_link x)) (l_original_sha (li_link x)) (qp_target_id pl)
    (qp_target_sha pl) (de_destination dd) (st_operation i) (sha256_hex action) (st_result_limit i) (rd_attempt r)
    scope (rd_attempt r) epoch (rd_stamp r) expires (de_authorizer_id dd) "".

(** Its deadline. *)
Definition attempt_deadline (a : queued_authority) (fence_expiry : float64) (r : readings) : float64 :=
  fmin (fmin (fmin (qa_deadline a) (valid_until (qa_principal a))) fence_expiry) (fadd (rd_stamp r) (de_timeout dd)).

(** The transaction that refuses an intent whose result allowance is too small. *)
Definition reject_small (a : queued_authority) (f : refs) (r : readings) : M tenant_db unit :=
  atomic (
    _ ← lock_unknown_operation (st_agent (qa_intent a)) (st_operation (qa_intent a));
    '(x, _, _) ← current_checks a f (rd_ids r) (rd_clock r) (rd_locked r);
    _ ← close_task x "immutable result allowance is insufficient for queued evidence" REJECTED (rd_stamp r) (rd_text r);
    check_lifetime a (rd_final r)).

(** The transaction that commits the attempt; it answers the signed
    authorization. *)
Definition commit_attempt (a : queued_authority) (f : refs) (pl : queued_plan) (action : string) (epoch : Z)
    (fence_expiry : float64) (r : readings) : M tenant_db authorization :=
  atomic (
    _ ← lock_unknown_operation (st_agent (qa_intent a)) (st_operation (qa_intent a));
    '(x, locked, _) ← current_checks a f (rd_ids r) (rd_clock r) (rd_locked r);
    d ← get_decision (f_owner f) (f_task f);
    _ ← ensure (same_plan locked pl && match d with None => true | Some _ => false end)
               (AuthorityDenied "queued decision or current plan changed");
    let deadline := attempt_deadline a fence_expiry r in
    _ ← ensure (negb (fgeb (rd_stamp r) deadline)) (AuthorityDenied "queued dispatch deadline expired");
    z ← lift (adapter_authorize (unsigned_authorization x pl action epoch deadline r));
    _ ← insert_decision (mkDecisionRecord (base_of x) (Attempt (rd_attempt r) z dd));
    _ ← audit_execution x "task.attempt-committed" ("one-shot attempt " +:+ rd_attempt r)%string (rd_text r);
    _ ← check_lifetime a (rd_final r);
    mret z).

(** The one call of the attempt; whatever it raises is swallowed. *)
Definition send (a : queued_authority) (z : authorization) (action : string) (r : readings) : M world unit := fun w =>
  match (_ ← zoom (check_lifetime a (rd_send r));
         _ ← ensure (negb (fgeb (rd_send r) (z_expires z))) (AuthorityDenied "attempt expired before destination entry");
         _ ← zoom (adapter_commit z action (rd_lose_ack r) (rd_entry r) (rd_signed r)); mret tt) w with
  | (_, w') => (Ok tt, w')
  end.

(** ** Readback and settlement *)

(** The provisioned adapter for a descriptor; there is one destination. *)
Definition adapter_for (target : string) (d : descriptor) : outcome unit :=
  _ ← queued_adapter cfg target d;
  guard_or (bool_decide (d = dd)) (AuthorityDenied "current operator-bound nonproduction queued adapter required").

(** [_observe]. *)
Definition observe_attempt (f : refs) (d : decision_record) (dsha : string) (now : Z) : M world completion :=
  x ← zoom (linked_history f);
  match dr_decision d with
  | Closed _ => raise (KeyError "descriptor")
  | Attempt _ z de =>
      let sub := submission (li_record x) in
      _ ← lift (adapter_for (sub_target sub) de);
      target ← lift (resolve_queued_target absolute resolve_path cfg (sub_target sub) (sub_dst sub)
                 (prov_capability (prov (li_record x))) (st_agent (li_intent x)) (sub_wire sub));
      _ ← ensure (match target with inl t => bool_decide (t = de) | inr _ => false end &&
                  bool_decide (z_link_sha z = li_link_sha x))
                 (AuthorityDenied "current queued readback configuration changed");
      action ← lift (canonical_demo_action (sub_wire sub));
      w ← get;
      '(result, rc, p) ← lift (adapter_observe z action now (w_dest w));
      mret (mkCompletion f dsha result rc p (seal f dsha result rc p))
  end.

(** The authorization is the admitted task's. *)
Definition identifies (x : linkage) (attempt : string) (z : authorization) : bool :=
  let i := li_intent x in
  bool_decide (z_tenant z = tc_tenant cfg) && bool_decide (z_store z = tc_store cfg) &&
  bool_decide (z_owner z = st_owner i) && bool_decide (z_agent z = st_agent i) && bool_decide (z_task z = st_task i) &&
  bool_decide (z_operation z = st_operation i) && bool_decide (z_intent_sha z = st_sha256 i) &&
  bool_decide (z_link_sha z = li_link_sha x) && bool_decide (z_fingerprint z = fingerprint (li_operation x)) &&
  bool_decide (z_attempt z = attempt).

(** [verify_operator_review] over the verified evidence. *)
Definition check_review (o : operator_review) (z : authorization) (v : verified_evidence) : outcome unit :=
  verify_operator_review (op_reviewer o) (z_agent z) (z_operation z) (z_fingerprint z) (ve_outcome v) (ve_reference v)
    (ve_receipt_sha v) (ve_readback_sha v) (Some (op_signature o)) (op_registry o).

(** The accounting of verified evidence, under the operation's lock. *)
Definition settle_verified (c : completion) (attempt : string) (z : authorization) (de : descriptor) (dsha : string)
    (review : option operator_review) (now : float64) (now_s : Z) (stamp : string) : M tenant_db unit :=
  x ← linked_history (co_refs c);
  action ← lift (canonical_demo_action (sub_wire (submission (li_record x))));
  v ← lift (verify_queued_action_evidence absolute resolve_path z action de (co_result c) (co_receipt c) (co_readback c) now_s);
  _ ← ensure (identifies x attempt z) (AuthorityDenied "verified result does not match the admitted task");
  _ ← lift (match review with None => Ok tt | Some o => check_review o z v end);
  let t := li_current x in
  _ ← insert_result (mkResultRecord (base_of x) (ve_outcome v) dsha z (co_result c) (co_receipt c) (co_readback c)
        ((fun o => (op_reviewer o, op_signature o)) <$> review) ((fun o => binding (op_principal o)) <$> review)
        (if terminal t then Some (state_value (state t)) else None));
  _ ← settle_owned_reservation dflt (st_agent (li_intent x)) (st_operation (li_intent x)) (l_token (li_link x))
        succeeded (Some (l_cost (li_link x))) now;
  _ ← (if terminal t then mret tt
       else _ ← zoom (transition max_events true (f_owner (co_refs c)) (f_task (co_refs c)) COMPLETED (sequence t)); mret tt);
  audit_execution x "task.verified-execution"
    ("independent readback sha256:" +:+ ve_readback_sha v +:+
     (if terminal t then "; preserved prior terminal status " +:+ state_value (state t) else ""))%string stamp.

(** [_finish_verified]: [settlement_atomic] and the settlement; a task that has
    its result is only reported. *)
Definition finish_verified (c : completion) (review : option operator_review) (now : float64) (now_s : Z) (stamp : string)
  : M tenant_db task_status :=
  _ ← ensure (bool_decide (co_proof c = seal (co_refs c) (co_decision_sha c) (co_result c) (co_receipt c) (co_readback c)))
             (AuthorityDenied "actual bound read-only observation required");
  let owner := f_owner (co_refs c) in
  let i := f_task (co_refs c) in
  _ ← lift (match review with None => Ok tt | Some o => op_session o end);
  _ ← atomic (
    d ← get_decision owner i;
    match d with
    | Some (mkDecisionRecord _ (Attempt attempt z de), dsha) =>
        _ ← ensure (bool_decide (dsha = co_decision_sha c)) (AuthorityDenied "exact immutable attempt required for settlement");
        x ← linked_history (co_refs c);
        existing ← get_result owner i;
        _ ← match existing with
            | Some _ => mret tt
            | None =>
                _ ← lift (adapter_for (sub_target (submission (li_record x))) de);
                _ ← lock_unknown_operation (st_agent (li_intent x)) (st_operation (li_intent x));
                settle_verified c attempt z de dsha review now now_s stamp
            end;
        lift (match review with None => Ok tt | Some o => op_sealed o end)
    | _ => raise (AuthorityDenied "exact immutable attempt required for settlement")
    end);
  status_of owner i.

(** [recover]: evidence that is missing, stale or refused leaves the task as it
    is. *)
Definition recover (f : refs) (now_s : Z) (now : float64) (stamp : string) : M world task_status :=
  _ ← zoom (linked_history f);
  d ← zoom (get_decision (f_owner f) (f_task f));
  r ← zoom (get_result (f_owner f) (f_task f));
  match d, r with
  | Some (x, dsha), None =>
      match dr_decision x with
      | Closed _ => zoom (status_of (f_owner f) (f_task f))
      | Attempt _ _ _ =>
          catch (c ← observe_attempt f x dsha now_s; zoom (finish_verified c None now now_s stamp))
            (fun _ => Some (zoom (status_of (f_owner f) (f_task f))))
      end
  | _, _ => zoom (status_of (f_owner f) (f_task f))
  end.

(** The clock of the recovery that follows a dispatch. *)
Record recovery := mkRecovery { rv_seconds : Z; rv_now : float64; rv_text : string }.

(** The guarded part of [dispatch_once]. *)
Definition dispatch_guarded (f : refs) (r : readings) (v : recovery) : M world task_status :=
  a ← zoom (guard_admitted f (rd_deadline r) (rd_guard r));
  '(x, pl, d) ← zoom (current_checks a f (rd_ids r) (rd_clock r) (rd_guard r));
  _ ← lift (adapter_for (qp_target_id pl) d);
  if st_result_limit (li_intent x) <? QUEUED_RESULT_ENVELOPE_LIMIT_BYTES then
    _ ← zoom (reject_small a f r); zoom (status_of (f_owner f) (f_task f))
  else
    fence ← catch (v ← zoom (adapter_acquire (fence_scope_of (li_intent x)) (rd_attempt r) (rd_fence r)); mret (Some v))
              (fun err => match err with SqliteFenceDenied _ => Some (mret None) | _ => None end);
    match fence with
    | None => zoom (status_of (f_owner f) (f_task f))
    | Some (epoch, expiry) =>
        action ← lift (canonical_demo_action (qp_wire pl));
        z ← zoom (commit_attempt a f pl action epoch expiry r);
        _ ← send a z action r;
        recover f (rv_seconds v) (rv_now v) (rv_text v)
    end.

(** [dispatch_once]; [slot] is whether the kernel's one worker slot was free. *)
Definition dispatch_once (f : refs) (slot : bool) (r : readings) (v : recovery) : M world task_status :=
  _ ← zoom (linked_history f);
  d ← zoom (get_decision (f_owner f) (f_task f));
  match d with
  | Some _ => recover f (rv_seconds v) (rv_now v) (rv_text v)
  | None =>
      _ ← ensure slot (AuthorityDenied "bounded queued worker is busy");
      catch (dispatch_guarded f r v)
        (fun err => match err with
                    | AuthorityDenied _ | OperationConflict _ =>
                        Some (d ← zoom (get_decision (f_owner f) (f_task f));
                              match d with
                              | Some _ => recover f (rv_seconds v) (rv_now v) (rv_text v)
                              | None => raise err
                              end)
                    | _ => None
                    end)
  end.

(** ** Cancellation *)

Definition reason_ok (why : string) : bool := negb (bool_decide (strip why = "")) && (utf8_len why <=? 200).

(** [cancel]: before an attempt the task is closed, after it the request is
    recorded. *)
Definition cancel_task (f : refs) (why : string) (now : float64) (stamp : string) : M tenant_db task_status :=
  _ ← ensure (reason_ok why) (ValueError "bounded cancellation reason required");
  _ ← atomic (
    x ← linked_history f;
    d ← get_decision (f_owner f) (f_task f);
    r ← get_result (f_owner f) (f_task f);
    if match r with Some _ => true | None => false end ||
       match d with Some (y, _) => match dr_decision y with Closed _ => true | _ => false end | None => false end
    then mret tt
    else
      _ ← lock_unknown_operation (st_agent (li_intent x)) (st_operation (li_intent x));
      x ← linked_history f;
      d ← get_decision (f_owner f) (f_task f);
      match d with
      | None => close_task x why CANCELED now stamp
      | Some _ =>
          c ← get_cancellation (f_owner f) (f_task f);
          match c with
          | Some _ => mret tt
          | None =>
              _ ← insert_cancellation (mkControlRecord (base_of x) why);
              audit_execution x "task.cancellation-requested" (why +:+ "; attempt remains unresolved")%string stamp
          end
      end);
  status_of (f_owner f) (f_task f).
End dispatch.
