(* ===== verification/QueuedSpec.v ===== *)
(** * What the queue guarantees

    Workers, recoveries, reviews, cancellations and everything else the tenant's
    store is used for run in any order; workers crash between a committed attempt
    and its call, and calls lose their answers.  The destination acts only for an
    attempt that the tenant's store committed first, once per operation; a task
    closed before dispatch has no effect, ever; and a recorded result is the
    effect the destination holds. *)

From stdpp Require Import base list gmap sets strings.
From Stdlib Require Import ZArith Lia.
From S2P Require Import Prelude PyFloat Json Identity Authority Budget AuditLog Approvals PolicyRules OperationLedger Quotas Policy Protocols Gateway Evidence Fencing TaskLifecycle TaskIntents QueuedDestination QueuedDestinationSpec QueuedStore QueuedPreparation QueuedAdmission QueuedDispatch.

#[local] Open Scope Z_scope.

(** ** Steps that leave the execution history alone *)

Definition quiet {A} (m : M tenant_db A) : Prop := ∀ s, td_exec (m s).2 = td_exec s.

(** A part of the store apart from the execution history. *)
Class Aside (T : Type) `{!Lens tenant_db T} := aside t s : td_exec (update t s) = td_exec s.
#[global] Instance aside_gov : Aside gov.
Proof. done. Qed.
#[global] Instance aside_tasks : Aside task_db.
Proof. done. Qed.
#[global] Instance aside_through {T} `{!Lens gov T} : Aside T.
Proof. done. Qed.

Lemma quiet_reads {A} (m : M tenant_db A) : reads m → quiet m.
Proof. intros Hm s. by rewrite Hm. Qed.
Lemma quiet_bind {A B} (f : A → M tenant_db B) (m : M tenant_db A) :
  quiet m → (∀ a, quiet (f a)) → quiet (m ≫= f).
Proof.
  intros Hm Hf s. rewrite run_bind. specialize (Hm s). destruct (m s) as [[a|x] s1]; cbn [snd] in *; [|done].
  by rewrite Hf.
Qed.
Lemma quiet_zoom {A T} `{!Lens tenant_db T} `{!Aside T} (m : M T A) : quiet (zoom m).
Proof. intros s. unfold zoom. destruct (m (view s)) as [r t]. apply aside. Qed.
Lemma quiet_atomic {A} (m : M tenant_db A) : quiet m → quiet (atomic m).
Proof. intros Hm s. unfold atomic. specialize (Hm s). by destruct (m s) as [[a|x] s1]. Qed.
Lemma quiet_modify {T} `{!Lens tenant_db T} `{!Aside T} (f : tenant_db → T) : quiet (modify (fun s => update (f s) s)).
Proof. intros s. apply aside. Qed.

Create HintDb quiet.

(** Close a [quiet] goal, splitting on the matches of the program. *)
Ltac quiet_tac :=
  repeat first
    [ assumption
    | apply quiet_reads; solve [auto with agentbridge]
    | solve [trivial with quiet]
    | apply quiet_zoom
    | apply quiet_modify
    | apply quiet_atomic
    | apply quiet_bind; [|intros ?]
    | match goal with |- quiet (match ?x with _ => _ end) => destruct x end ].

Lemma quiet_finish ag op x now : quiet (finish ag op x now).
Proof. unfold finish, modify_ledger. quiet_tac. Qed.
Lemma quiet_settle dflt ag op tok out c now : quiet (settle_owned_reservation dflt ag op tok out c now).
Proof. unfold settle_owned_reservation. quiet_tac; apply quiet_finish. Qed.
Lemma quiet_lock ag op : quiet (lock_unknown_operation ag op).
Proof. unfold lock_unknown_operation. quiet_tac. Qed.
#[export] Hint Resolve quiet_settle quiet_lock : quiet.

(** Close a [reads] goal the same way. *)
Ltac reads_tac :=
  repeat first
    [ solve [auto with agentbridge]
    | apply reads_bind; [|intros ?]
    | match goal with |- reads (match ?x with _ => _ end) => destruct x end ].

Section spec.
Context `{AuditCodec} `{JsonText} `{Sha256} `{Ed25519} `{SealScheme} `{IntentCodec} `{QueuedCodec} `{HistoryCodec}.
Context (absolute : string → bool) (resolve_path : string → option string).
Context (parse_float : string → option float64) (float_repr : float64 → string).
Context (cfg : tenant_config) (auth : authority) (e : env) (eng : engine) (dflt : Budget) (max_events : Z).
Context (dd : descriptor) (authorizer_sign destination_sign observer_sign : string → outcome string).
Context (seal : refs → string → demo_outcome → receipt → readback → string).

Notation linked := (linked_history cfg).
Notation checks := (current_checks absolute resolve_path parse_float float_repr cfg auth e eng).
Notation lifetime := (check_lifetime parse_float cfg auth).
Notation attempt := (commit_attempt absolute resolve_path parse_float float_repr cfg auth e eng dd authorizer_sign).
Notation reject := (reject_small absolute resolve_path parse_float float_repr cfg auth e eng dflt max_events).
Notation finish := (finish_verified absolute resolve_path cfg dflt max_events dd seal).
Notation observed := (observe_attempt absolute resolve_path cfg dd observer_sign seal).
Notation call := (adapter_commit absolute resolve_path dd destination_sign).
Notation cancels := (cancel_task cfg dflt max_events).
Notation genuine := (genuine absolute resolve_path).

Lemma reads_load t owner i sha : reads (load_immutable t owner i sha : M tenant_db _).
Proof. unfold load_immutable. reads_tac. Qed.
Lemma reads_link owner i sha : reads (get_link owner i sha).
Proof. unfold get_link. reads_tac. Qed.
Lemma reads_history {A} (decode : string → option A) b rows owner i : reads (read_history decode b rows owner i).
Proof. unfold read_history. reads_tac. Qed.
Hint Resolve reads_load reads_link reads_history : agentbridge.

Lemma reads_linked f : reads (linked f).
Proof. unfold linked_history, get_operation, authority_binding. reads_tac. Qed.
Lemma reads_decision owner i : reads (get_decision owner i).
Proof. apply reads_history. Qed.
Lemma reads_result owner i : reads (get_result owner i).
Proof. apply reads_history. Qed.
Lemma reads_control owner i : reads (get_cancellation owner i).
Proof. apply reads_history. Qed.
Hint Resolve reads_linked reads_decision reads_result reads_control : agentbridge.
Lemma reads_admitted f : reads (load_admitted cfg f).
Proof. unfold load_admitted. reads_tac. Qed.
Lemma reads_lifetime a now : reads (lifetime a now).
Proof. unfold check_lifetime. reads_tac. Qed.
Hint Resolve reads_admitted reads_lifetime : agentbridge.
Lemma reads_status owner i : reads (status_of owner i).
Proof. unfold status_of. reads_tac. Qed.
Hint Resolve reads_status : agentbridge.

Lemma quiet_checks a f gen clock now : quiet (checks a f gen clock now).
Proof. unfold current_checks. quiet_tac. Qed.
Lemma quiet_audit x action why stamp : quiet (audit_execution x action why stamp).
Proof. unfold audit_execution, audit_task. quiet_tac. Qed.
Lemma quiet_end owner i x : quiet (end_task max_events owner i x).
Proof. unfold end_task. quiet_tac. Qed.
Hint Resolve quiet_checks quiet_audit quiet_end : quiet.

(** ** What each transaction writes *)

Lemma run_reads {A} (m : M tenant_db A) s r s' : reads m → m s = (r, s') → s' = s.
Proof. intros Hm Hr. specialize (Hm s). by rewrite Hr in Hm. Qed.

Lemma run_quiet {A} (m : M tenant_db A) s r s' : quiet m → m s = (r, s') → td_exec s' = td_exec s.
Proof. intros Hm Hr. specialize (Hm s). by rewrite Hr in Hm. Qed.

Lemma put_history_inv bounds rows store b kind raw s sha s' :
  put_history bounds rows store b kind raw s = (Ok sha, s') →
  sha = sha256_hex raw ∧ bounds (base_key b) (history_of b kind raw) s = true ∧
  rows (td_exec s) !! base_key b = None ∧ history_taken (history_of b kind raw) (rows (td_exec s)) = false ∧
  td_exec s' = store (<[base_key b := history_of b kind raw]> (rows (td_exec s))) (td_exec s).
Proof.
  unfold put_history. intros Hp. minv.
  match goal with Hx : _ && _ = true |- _ => apply andb_true_iff in Hx as [Hn%bool_decide_eq_true Ht%negb_true_iff] end.
  done.
Qed.

Lemma load_names t owner i sha (s : tenant_db) x a b s' :
  load_immutable t owner i sha s = (Ok (x, a, b), s') → st_owner x = owner ∧ st_task x = i.
Proof.
  unfold load_immutable. intros Hl. do 4 mstep Hl. apply lift_Ok_inv in Hl as [Hl _].
  destruct (task_intents _ !! _) as [row|]; [|done]. destruct (negb _); [done|].
  destruct (record_of _) as [r|]; [|done]. destruct (parse_submission _) as [sub|]; [|done].
  destruct (negb _); [done|]. destruct (head _) as [ini|]; [|done]. destruct (snapshots _ !! _) as [cur|]; [|done].
  destruct (bool_decide _); [|done]. by injection Hl as <- _ _.
Qed.

Lemma linked_names f s x s' :
  linked f s = (Ok x, s') → s' = s ∧ st_owner (li_intent x) = f_owner f ∧ st_task (li_intent x) = f_task f.
Proof.
  intros Hl. split; [by apply (run_reads _ _ _ _ (reads_linked f) Hl)|]. unfold linked_history in Hl.
  apply bind_Ok_inv in Hl as ([[i a] b] & s1 & Hi & Hl). apply load_names in Hi.
  apply bind_Ok_inv in Hl as ([l sha] & s2 & _ & Hl). do 7 mstep Hl.
  apply bind_Ok_inv in Hl as (op & sx & _ & Hl). apply bind_Ok_inv in Hl as (bb & sy & _ & Hl).
  destruct op as [o|]; [|done]. destruct bb as [bb|]; [|done]. mstep Hl.
  apply mret_Ok_inv in Hl as [-> _]. done.
Qed.

(** A row of the decisions table, decoded. *)
Record decided (k : string * string) (row : history_row) (x : exec_decision) : Prop := {
  de_row : row = history_of (mkBase k.1 k.2 (h_agent row) (h_operation row) (h_link_sha row)) (decision_kind x)
             (decision_text (mkDecisionRecord (mkBase k.1 k.2 (h_agent row) (h_operation row) (h_link_sha row)) x));
  de_attempt id z d : x = Attempt id z d → d = dd ∧ z_attempt z = id ∧ z_tenant z = tc_tenant cfg ∧
    z_agent z = h_agent row ∧ z_operation z = h_operation row ∧ z_link_sha z = h_link_sha row;
}.

Lemma history_of_base b kind raw :
  history_of (mkBase (base_key b).1 (base_key b).2 (h_agent (history_of b kind raw)) (h_operation (history_of b kind raw))
    (h_link_sha (history_of b kind raw))) kind raw = history_of b kind raw.
Proof. by destruct b. Qed.

Lemma decided_new b x :
  (∀ id z d, x = Attempt id z d → d = dd ∧ z_attempt z = id ∧ z_tenant z = tc_tenant cfg ∧
    z_agent z = b_agent b ∧ z_operation z = b_operation b ∧ z_link_sha z = b_link_sha b) →
  decided (base_key b) (history_of b (decision_kind x) (decision_text (mkDecisionRecord b x))) x.
Proof. intros Hx. split; [|done]. by destruct b. Qed.

(** A new decision for [k], of the operation it names. *)
Record new_decision (x : exec_decision) (k : string * string) (t t' : tenant_db) (row : history_row) : Prop := {
  nd_row : decided k row x;
  nd_fresh : decisions (td_exec t) !! k = None;
  nd_taken : history_taken row (decisions (td_exec t)) = false;
  nd_exec : td_exec t' = mkExec (<[k := row]> (decisions (td_exec t))) (results (td_exec t)) (controls (td_exec t));
}.

Lemma insert_decision_inv b x s sha s' :
  insert_decision (mkDecisionRecord b x) s = (Ok sha, s') →
  (∀ id z d, x = Attempt id z d → d = dd ∧ z_attempt z = id ∧ z_tenant z = tc_tenant cfg ∧
    z_agent z = b_agent b ∧ z_operation z = b_operation b ∧ z_link_sha z = b_link_sha b) →
  new_decision x (base_key b) s s' (history_of b (decision_kind x) (decision_text (mkDecisionRecord b x))).
Proof. unfold insert_decision. intros (_ & _ & Hf & Ht & He)%put_history_inv Hx. split; [by apply decided_new|done..]. Qed.

Lemma new_decision_frame x k s0 s1 s2 s3 row :
  td_exec s1 = td_exec s0 → td_exec s3 = td_exec s2 → new_decision x k s1 s2 row → new_decision x k s0 s3 row.
Proof. intros H0' H3' [? ? ? ?]. split; congruence. Qed.

Lemma authorized_as z z' : adapter_authorize authorizer_sign z = Ok z' →
  z_tenant z' = z_tenant z ∧ z_agent z' = z_agent z ∧ z_operation z' = z_operation z ∧ z_attempt z' = z_attempt z ∧
  z_link_sha z' = z_link_sha z.
Proof.
  unfold adapter_authorize. intros (sg & _ & Hz)%outcome_bind_Ok. apply outcome_bind_Ok in Hz as ([] & _ & [= <-]). done.
Qed.

(** Facts about the intermediate states of a run. *)
Ltac exec_facts :=
  repeat match goal with
  | Hm : lock_unknown_operation _ _ _ = _ |- _ => apply (run_quiet _ _ _ _ (quiet_lock _ _)) in Hm
  | Hm : checks _ _ _ _ _ _ = _ |- _ => apply (run_quiet _ _ _ _ (quiet_checks _ _ _ _ _)) in Hm
  | Hm : audit_execution _ _ _ _ _ = _ |- _ => apply (run_quiet _ _ _ _ (quiet_audit _ _ _ _)) in Hm
  | Hm : settle_owned_reservation _ _ _ _ _ _ _ _ = _ |- _ => apply (run_quiet _ _ _ _ (quiet_settle _ _ _ _ _ _ _)) in Hm
  | Hm : end_task _ _ _ _ _ = _ |- _ => apply (run_quiet _ _ _ _ (quiet_end _ _ _)) in Hm
  | Hm : lifetime _ _ _ = _ |- _ => apply (run_reads _ _ _ _ (reads_lifetime _ _)) in Hm
  | Hm : get_decision _ _ _ = _ |- _ => apply (run_reads _ _ _ _ (reads_decision _ _)) in Hm
  end.

Lemma checks_names a f gen clock now s x pl d s' :
  checks a f gen clock now s = (Ok (x, pl, d), s') →
  td_exec s' = td_exec s ∧ st_owner (li_intent x) = f_owner f ∧ st_task (li_intent x) = f_task f.
Proof.
  intros Hc. split; [by apply (run_quiet _ _ _ _ (quiet_checks _ _ _ _ _) Hc)|]. unfold current_checks in Hc.
  mstep Hc. apply bind_Ok_inv in Hc as (x' & s2 & Hl & Hc). mstep Hc. apply bind_Ok_inv in Hc as (pl' & s4 & _ & Hc).
  destruct (qp_target pl') as [d'|]; [|done]. apply bind_Ok_inv in Hc as (dec & s5 & _ & Hc). mstep Hc.
  apply mret_Ok_inv in Hc as [[= <- <- <-] _]. unfold load_admitted in Hl.
  apply bind_Ok_inv in Hl as (y & s6 & Hy & Hl). apply linked_names in Hy as (_ & Ho & Ht). do 5 mstep Hl.
  apply mret_Ok_inv in Hl as [<- _]. done.
Qed.

(** A committed attempt is a new decision with the authorization it answers. *)
Lemma attempt_inv a f pl action epoch expiry r s z s' :
  attempt a f pl action epoch expiry r s = (Ok z, s') →
  ∃ row, new_decision (Attempt (rd_attempt r) z dd) (f_owner f, f_task f) s s' row.
Proof.
  unfold commit_attempt. intros Ha. apply (proj1 (atomic_Ok _ _ _ _)) in Ha. mstep Ha. apply bind_Ok_inv in Ha as ([[x lp] d0] & s2 & Hx & Ha).
  apply checks_names in Hx as (Hx & Ho & Ht). mstep Ha. do 2 mstep Ha. apply bind_Ok_inv in Ha as (z' & s6 & Hz & Ha).
  apply lift_Ok_inv in Hz as [Hz ->]. apply authorized_as in Hz as (Hz1 & Hz2 & Hz3 & Hz4 & Hz5).
  apply bind_Ok_inv in Ha as (sha & s7 & Hi & Ha). do 2 mstep Ha. apply mret_Ok_inv in Ha as [-> ->].
  apply insert_decision_inv in Hi.
  2:{ intros id z'' d1 [= <- <- <-]. by rewrite Hz1, Hz2, Hz3, Hz4, Hz5. }
  unfold base_key in Hi. cbn [b_owner b_task base_of] in Hi. rewrite Ho, Ht in Hi.
  eexists. eapply new_decision_frame; [| |exact Hi]; minv; exec_facts; congruence.
Qed.

Lemma close_inv x why st now stamp s u s' :
  close_task dflt max_events x why st now stamp s = (Ok u, s') →
  ∃ row, new_decision (Closed why) (st_owner (li_intent x), st_task (li_intent x)) s s' row.
Proof.
  unfold close_task. intros Hc. mstep Hc. mstep Hc. apply bind_Ok_inv in Hc as (sha & s3 & Hi & Hc).
  apply bind_Ok_inv in Hc as (am & s4 & Hse & Hc). apply bind_Ok_inv in Hc as (u' & s5 & Hen & Hc).
  apply insert_decision_inv in Hi; [|done]. eexists. eapply new_decision_frame; [| |exact Hi]; minv; exec_facts; congruence.
Qed.

Lemma reject_inv a f r s u s' :
  reject a f r s = (Ok u, s') → ∃ why row, new_decision (Closed why) (f_owner f, f_task f) s s' row.
Proof.
  unfold reject_small. intros Hr. apply (proj1 (atomic_Ok _ _ _ _)) in Hr. mstep Hr. apply bind_Ok_inv in Hr as ([[x pl] d0] & s2 & Hx & Hr).
  apply checks_names in Hx as (Hx & Ho & Ht). apply bind_Ok_inv in Hr as (u' & s3 & Hc & Hr).
  apply close_inv in Hc as (row & Hc). rewrite Ho, Ht in Hc. eexists _, row.
  eapply new_decision_frame; [| |exact Hc]; exec_facts; congruence.
Qed.

Lemma read_history_inv {A} (decode : string → option A) b rows owner i s x sha s' :
  read_history decode b rows owner i s = (Ok (Some (x, sha)), s') →
  s' = s ∧ ∃ row, rows (td_exec s) !! (owner, i) = Some row ∧ decode (h_record row) = Some x ∧ sha = h_sha row.
Proof.
  unfold read_history. intros Hr. mstep Hr. mstep Hr. minv. destruct (rows _ !! _) as [row|] eqn:Hrow; [|by minv].
  destruct (decode _) as [y|] eqn:Hy; [|done]. minv. naive_solver.
Qed.

(** The decision of a decoded row. *)
Lemma decided_read k row x y : decided k row x → decision_of (h_record row) = Some y → dr_decision y = x.
Proof.
  intros [Hr _] Hy. rewrite Hr in Hy. cbn [h_record history_of] in Hy. rewrite decision_of_text in Hy. by simplify_eq.
Qed.

Lemma cancel_inv f why now stamp s r s' :
  cancels f why now stamp s = (r, s') →
  (∃ ctl, td_exec s' = mkExec (decisions (td_exec s)) (results (td_exec s)) ctl) ∨
  ∃ row, new_decision (Closed why) (f_owner f, f_task f) s s' row.
Proof.
  assert (∀ t t', td_exec t' = td_exec t → ∃ ctl, td_exec t' = mkExec (decisions (td_exec t)) (results (td_exec t)) ctl)
    as Hsame by (intros t t' ->; exists (controls (td_exec t)); by destruct (td_exec t)).
  unfold cancel_task. rewrite run_bind. destruct (reason_ok why); cbn [ensure]; [|intros [= <- <-]; left; by apply Hsame].
  cbn [mret M_ret]. rewrite run_bind. destruct (atomic _ s) as [[u|err] s1] eqn:Ha.
  2:{ apply atomic_Raise in Ha as ->. intros [= <- <-]. left. by apply Hsame. }
  intros Hs. apply (run_reads _ _ _ _ (reads_status _ _)) in Hs as ->. clear r.
  apply (proj1 (atomic_Ok _ _ _ _)) in Ha.
  apply bind_Ok_inv in Ha as (x & s2 & Hx & Ha). apply linked_names in Hx as (-> & _ & _).
  apply bind_Ok_inv in Ha as (d & s2 & Hd & Ha). apply (run_reads _ _ _ _ (reads_decision _ _)) in Hd as ->.
  apply bind_Ok_inv in Ha as (r & s2 & Hr & Ha). apply (run_reads _ _ _ _ (reads_result _ _)) in Hr as ->.
  destruct (_ || _); [apply mret_Ok_inv in Ha as [_ ->]; left; by apply Hsame|].
  apply bind_Ok_inv in Ha as (o & s2 & Hlk & Ha). apply (run_quiet _ _ _ _ (quiet_lock _ _)) in Hlk.
  apply bind_Ok_inv in Ha as (y & s3 & Hy & Ha). apply linked_names in Hy as (-> & Ho & Ht).
  apply bind_Ok_inv in Ha as (d' & s3 & Hd & Ha). apply (run_reads _ _ _ _ (reads_decision _ _)) in Hd as ->.
  destruct d' as [d'|].
  - left. apply bind_Ok_inv in Ha as (c & s3 & Hc & Ha). apply (run_reads _ _ _ _ (reads_control _ _)) in Hc as ->.
    destruct c as [c|]; [apply mret_Ok_inv in Ha as [_ ->]; by apply Hsame|].
    apply bind_Ok_inv in Ha as (sha & s4 & Hi & Ha). unfold insert_cancellation in Hi.
    apply put_history_inv in Hi as (_ & _ & _ & _ & He). apply (run_quiet _ _ _ _ (quiet_audit _ _ _ _)) in Ha.
    rewrite Ha, He, Hlk. eauto.
  - right. apply close_inv in Ha as (row & Ha). rewrite Ho, Ht in Ha. exists row.
    by eapply new_decision_frame; [exact Hlk|reflexivity|].
Qed.

(** A recorded result, with the attempt it answers and the evidence it keeps. *)
Record new_result (c : completion) (t t' : tenant_db) (x : result_record) : Prop := {
  nr_key : base_key (rr_base x) = (f_owner (co_refs c), f_task (co_refs c));
  nr_evidence : rr_result x = co_result c ∧ rr_receipt x = co_receipt c ∧ rr_outcome x = "succeeded";
  nr_fresh : results (td_exec t) !! base_key (rr_base x) = None;
  nr_decision : ∃ drow b id de, decisions (td_exec t) !! base_key (rr_base x) = Some drow ∧
    h_sha drow = co_decision_sha c ∧ decision_of (h_record drow) = Some (mkDecisionRecord b (Attempt id (rr_authorization x) de));
  nr_exec : td_exec t' = mkExec (decisions (td_exec t))
    (<[base_key (rr_base x) := history_of (rr_base x) (rr_outcome x) (result_record_text x)]> (results (td_exec t)))
    (controls (td_exec t));
}.

Lemma evidence_outcome z action d result r p now v :
  verify_queued_action_evidence absolute resolve_path z action d result r p now = Ok v → ve_outcome v = "succeeded".
Proof.
  unfold verify_queued_action_evidence. intros (a & _ & Hv)%outcome_bind_Ok.
  apply outcome_bind_Ok in Hv as (b & _ & Hv). apply outcome_bind_Ok in Hv as ([] & _ & [= <-]). done.
Qed.

Lemma settle_verified_inv c id z de dsha review now ns stamp s u s' :
  settle_verified absolute resolve_path cfg dflt max_events c id z de dsha review now ns stamp s = (Ok u, s') →
  ∃ x, base_key (rr_base x) = (f_owner (co_refs c), f_task (co_refs c)) ∧ rr_authorization x = z ∧
    rr_result x = co_result c ∧ rr_receipt x = co_receipt c ∧ rr_outcome x = "succeeded" ∧
    results (td_exec s) !! base_key (rr_base x) = None ∧
    td_exec s' = mkExec (decisions (td_exec s))
      (<[base_key (rr_base x) := history_of (rr_base x) (rr_outcome x) (result_record_text x)]> (results (td_exec s)))
      (controls (td_exec s)).
Proof.
  unfold settle_verified. intros Hs. apply bind_Ok_inv in Hs as (x & s1 & Hx & Hs). apply linked_names in Hx as (-> & Ho & Ht).
  apply bind_Ok_inv in Hs as (action & s2 & Hact & Hs). apply lift_Ok_inv in Hact as [_ ->].
  apply bind_Ok_inv in Hs as (v & s2 & Hv & Hs). apply lift_Ok_inv in Hv as [Hv%evidence_outcome ->].
  apply bind_Ok_inv in Hs as (u1 & s2 & He & Hs). apply ensure_Ok_inv in He as [_ ->].
  apply bind_Ok_inv in Hs as (u2 & s2 & He & Hs). apply lift_Ok_inv in He as [_ ->].
  apply bind_Ok_inv in Hs as (sha & s2 & Hi & Hs). apply bind_Ok_inv in Hs as (am & s3 & Hse & Hs).
  apply bind_Ok_inv in Hs as (u3 & s4 & Hen & Hs).
  unfold insert_result in Hi. apply put_history_inv in Hi as (_ & _ & Hf & _ & He).
  assert (td_exec s4 = td_exec s3) as Hen'.
  { destruct (terminal _); [by apply mret_Ok_inv in Hen as [_ ->]|]. eapply run_quiet; [|exact Hen]. quiet_tac. }
  apply (run_quiet _ _ _ _ (quiet_audit _ _ _ _)) in Hs. apply (run_quiet _ _ _ _ (quiet_settle _ _ _ _ _ _ _)) in Hse.
  eexists. split_and!; [| | | | | |by rewrite Hs, Hen', Hse, He]; try done.
  unfold base_key. cbn. by rewrite Ho, Ht.
Qed.

Lemma finish_inv c review now ns stamp s r s' :
  finish c review now ns stamp s = (r, s') → td_exec s' = td_exec s ∨ ∃ x, new_result c s s' x.
Proof.
  unfold finish_verified. rewrite run_bind. destruct (bool_decide _); cbn [ensure]; [|intros [= <- <-]; by left].
  cbn [mret M_ret]. rewrite run_bind. unfold lift at 1. destruct (match review with None => _ | _ => _ end); [|intros [= <- <-]; by left].
  rewrite run_bind. destruct (atomic _ s) as [[u|err] s1] eqn:Ha.
  2:{ apply atomic_Raise in Ha as ->. intros [= <- <-]. by left. }
  intros Hs. apply (run_reads _ _ _ _ (reads_status _ _)) in Hs as ->. clear r.
  apply (proj1 (atomic_Ok _ _ _ _)) in Ha. apply bind_Ok_inv in Ha as ([[[b [id z de|why]] dsha]|] & s2 & Hd & Ha); [|done..].
  apply read_history_inv in Hd as (-> & drow & Hdrow & Hdec & ->).
  apply bind_Ok_inv in Ha as (u1 & s2 & He & Ha). apply ensure_Ok_inv in He as [Hsha%bool_decide_eq_true ->].
  apply bind_Ok_inv in Ha as (x & s2 & Hx & Ha). apply linked_names in Hx as (-> & _ & _).
  apply bind_Ok_inv in Ha as (ex & s2 & Hex & Ha). apply (run_reads _ _ _ _ (reads_result _ _)) in Hex as ->.
  apply bind_Ok_inv in Ha as (u2 & s2 & Hset & Ha). apply lift_Ok_inv in Ha as [_ ->].
  destruct ex as [ex|]; [apply mret_Ok_inv in Hset as [_ ->]; by left|]. right.
  apply bind_Ok_inv in Hset as (u3 & s3 & He & Hset). apply lift_Ok_inv in He as [_ ->].
  apply bind_Ok_inv in Hset as (o & s3 & Hlk & Hset). apply (run_quiet _ _ _ _ (quiet_lock _ _)) in Hlk.
  apply settle_verified_inv in Hset as (y & Hk & <- & Hres & Hrc & Hout & Hf & He). exists y.
  rewrite Hlk in *. split; try done. rewrite Hk. by exists drow, b, id, de.
Qed.

(** ** Any workers, any order *)

(** The two databases, the committed attempts whose call has not been made, and
    the readbacks that have been taken. *)
Record system := mkSystem {
  sy_tenant : tenant_db;
  sy_dest : qdest;
  sy_pending : list (authorization * string);
  sy_found : list completion;
}.

Inductive qstep : system → system → Prop :=
| q_other t t' q ps cs :                       (* anything else the store is used for *)
    td_exec t' = td_exec t → qstep (mkSystem t q ps cs) (mkSystem t' q ps cs)
| q_acquire t q ps cs scope owner now :
    qstep (mkSystem t q ps cs) (mkSystem t (adapter_acquire dd scope owner now q).2 ps cs)
| q_attempt t q ps cs a f pl action epoch expiry r res t' :
    attempt a f pl action epoch expiry r t = (res, t') →
    qstep (mkSystem t q ps cs)
      (mkSystem t' q (match res with Ok z => (z, action) :: ps | Raise _ => ps end) cs)
| q_reject t q ps cs a f r : qstep (mkSystem t q ps cs) (mkSystem (reject a f r t).2 q ps cs)
| q_send t q ps1 ps2 cs z action lose now now' :
    qstep (mkSystem t q (ps1 ++ (z, action) :: ps2) cs) (mkSystem t (call z action lose now now' q).2 (ps1 ++ ps2) cs)
| q_crash t q ps cs ps' : ps' ⊆ ps → qstep (mkSystem t q ps cs) (mkSystem t q ps' cs)
| q_observe t q ps cs f x dsha now c w' :
    (get_decision (f_owner f) (f_task f) t).1 = Ok (Some (x, dsha)) →
    observed f x dsha now (mkWorld t q) = (Ok c, w') →
    qstep (mkSystem t q ps cs) (mkSystem t q ps (c :: cs))
| q_finish t q ps cs c review now ns stamp :
    c ∈ cs → qstep (mkSystem t q ps cs) (mkSystem (finish c review now ns stamp t).2 q ps cs)
| q_cancel t q ps cs f why now stamp :
    qstep (mkSystem t q ps cs) (mkSystem (cancels f why now stamp t).2 q ps cs).

(** The store has committed the attempt [z] for the task [k]. *)
Definition attempted (k : string * string) (z : authorization) (t : tenant_db) : Prop :=
  ∃ row id, decisions (td_exec t) !! k = Some row ∧ decided k row (Attempt id z dd).

(** The destination holds the effect of [z], with this result and receipt. *)
Definition carried_out (z : authorization) (result : demo_outcome) (r : receipt) (q : qdest) : Prop :=
  ∃ x, q_effects q !! effect_key z = Some x ∧ e_authorization x = z ∧ e_result x = result ∧ e_receipt x = r.

Record consistent (y : system) : Prop := {
  cs_decided k row : decisions (td_exec (sy_tenant y)) !! k = Some row → ∃ x, decided k row x;
  cs_operation k1 row1 k2 row2 :
    decisions (td_exec (sy_tenant y)) !! k1 = Some row1 → decisions (td_exec (sy_tenant y)) !! k2 = Some row2 →
    h_agent row1 = h_agent row2 → h_operation row1 = h_operation row2 → k1 = k2;
  cs_pending z action : (z, action) ∈ sy_pending y → ∃ k, attempted k z (sy_tenant y);
  cs_effects k x : q_effects (sy_dest y) !! k = Some x →
    k = effect_key (e_authorization x) ∧ ∃ k', attempted k' (e_authorization x) (sy_tenant y);
  cs_found c : c ∈ sy_found y → ∃ row id z,
    decisions (td_exec (sy_tenant y)) !! (f_owner (co_refs c), f_task (co_refs c)) = Some row ∧
    decided (f_owner (co_refs c), f_task (co_refs c)) row (Attempt id z dd) ∧
    carried_out z (co_result c) (co_receipt c) (sy_dest y);
  cs_results k row : results (td_exec (sy_tenant y)) !! k = Some row → ∃ x,
    row = history_of (rr_base x) (rr_outcome x) (result_record_text x) ∧ rr_outcome x = "succeeded" ∧
    attempted k (rr_authorization x) (sy_tenant y) ∧
    carried_out (rr_authorization x) (rr_result x) (rr_receipt x) (sy_dest y);
}.

(** Decisions and effects only grow. *)
Lemma attempted_mono k z t t' : decisions (td_exec t) ⊆ decisions (td_exec t') → attempted k z t → attempted k z t'.
Proof. intros Hs (row & id & Hr & Hd). exists row, id. split; [by eapply lookup_weaken|done]. Qed.

Lemma carried_out_mono z result r q q' : q_effects q ⊆ q_effects q' → carried_out z result r q → carried_out z result r q'.
Proof. intros Hs (x & Hx & ?). exists x. split; [by eapply lookup_weaken|done]. Qed.

(** The invariant survives a store whose decisions are the same or one more. *)
Lemma consistent_tenant t t' q ps cs :
  consistent (mkSystem t q ps cs) →
  decisions (td_exec t') = decisions (td_exec t) → results (td_exec t') = results (td_exec t) →
  consistent (mkSystem t' q ps cs).
Proof.
  intros [C1 C2 C3 C4 C5 C6] Hd Hr. unfold attempted in *. cbn [sy_tenant sy_dest sy_pending sy_found] in *.
  rewrite <- Hd in C1, C2, C3, C4, C5, C6. rewrite <- Hr in C6. by split.
Qed.

Lemma consistent_decision x k row t t' q ps cs :
  consistent (mkSystem t q ps cs) → new_decision x k t t' row → consistent (mkSystem t' q ps cs).
Proof.
  intros [C1 C2 C3 C4 C5 C6] [Hrow Hfr Htk He].
  cbn [sy_tenant sy_dest sy_pending sy_found] in *.
  assert (decisions (td_exec t) ⊆ decisions (td_exec t')) as Hsub by (rewrite He; by apply insert_subseteq).
  assert (decisions (td_exec t') = <[k := row]> (decisions (td_exec t))) as Hd by by rewrite He.
  assert (∀ k1 row1, decisions (td_exec t) !! k1 = Some row1 → h_agent row1 = h_agent row → h_operation row1 = h_operation row → False) as Hne.
  { intros k1 row1 Hk1 Ha Ho. apply bool_decide_eq_false in Htk. apply Htk. by exists k1, row1. }
  split; cbn [sy_tenant sy_dest sy_pending sy_found].
  - intros k1 row1. rewrite Hd. intros [[<- <-]|[_ Hk]]%lookup_insert_Some; eauto.
  - intros k1 row1 k2 row2. rewrite Hd. intros [[<- <-]|[Hn1 Hk1]]%lookup_insert_Some [[<- <-]|[Hn2 Hk2]]%lookup_insert_Some Ha Ho;
      [done|by edestruct Hne|by edestruct Hne|eauto].
  - intros z action Hz. destruct (C3 _ _ Hz) as (k' & Hk'). eauto using attempted_mono.
  - intros k' e' Hk'. destruct (C4 _ _ Hk') as (? & k'' & Hk''). eauto using attempted_mono.
  - intros c Hc. destruct (C5 _ Hc) as (row' & id & z & Hk' & ?). exists row', id, z. split; [by eapply lookup_weaken|done].
  - intros k' row'. rewrite He. cbn [results]. intros Hk'. destruct (C6 _ _ Hk') as (y & ? & ? & ? & ?).
    exists y. eauto using attempted_mono.
Qed.

Lemma open_same q : (initialize_queued false dd q).2 = q.
Proof.
  unfold initialize_queued, atomic. rewrite run_bind. cbn [mret M_ret]. rewrite run_get. unfold lift.
  by destruct (qualify dd q).
Qed.

Lemma acquire_effects scope owner now q : q_effects (adapter_acquire dd scope owner now q).2 = q_effects q.
Proof.
  unfold adapter_acquire. rewrite run_bind. pose proof (open_same q) as Ho. destruct (initialize_queued false dd q) as [[u|x] q1];
    cbn [snd] in Ho; subst q1; [|done].
  rewrite run_bind. unfold zoom. destruct (Sqlite.acquire _ _ _ _ _) as [[ep|x] l]; [|done].
  rewrite run_get. by destruct (fences _ !! _).
Qed.

Lemma call_effect z action lose now now' q :
  (call z action lose now now' q).2 = q ∨
  ∃ x, e_authorization x = z ∧ q_effects q !! effect_key z = None ∧
    q_effects (call z action lose now now' q).2 = <[effect_key z := x]> (q_effects q).
Proof.
  unfold adapter_commit. rewrite run_bind. pose proof (open_same q) as Ho. destruct (initialize_queued false dd q) as [[u|x] q1];
    cbn [snd] in Ho; subst q1; [|by left].
  destruct (commit_queued _ _ _ _ _ _ _ _ _ q) as [r q'] eqn:Hc. cbn [snd].
  apply commit_effect in Hc as [(x & _ & ->)|(x & Hz & _ & _ & Had & -> & _)]; [by left|right].
  exists x. split; [done|]. subst z. split; [apply Had|done].
Qed.

Lemma observed_inv f x dsha now t q c w' :
  normalize_queued_descriptor absolute resolve_path dd = Ok dd →
  observed f x dsha now (mkWorld t q) = (Ok c, w') →
  co_refs c = f ∧ ∃ id z, dr_decision x = Attempt id z dd ∧ carried_out z (co_result c) (co_receipt c) q.
Proof.
  intros Hn. unfold observe_attempt. intros Hob. apply bind_Ok_inv in Hob as (y & w1 & Hy & Hob).
  unfold zoom in Hy. cbn [view lens_w_tenant w_tenant] in Hy. destruct (linked f t) as [[y'|err] t1] eqn:Hl; [|done].
  apply linked_names in Hl as (-> & _ & _). injection Hy as -> <-.
  destruct (dr_decision x) as [id z de|why]; [|done].
  apply bind_Ok_inv in Hob as ([] & w1 & Ha & Hob). apply lift_Ok_inv in Ha as [Ha ->].
  unfold adapter_for in Ha. apply outcome_bind_Ok in Ha as (u & _ & Ha%guard_or_Ok%bool_decide_eq_true). subst de.
  apply bind_Ok_inv in Hob as (tg & w1 & Htg & Hob). apply lift_Ok_inv in Htg as [_ ->].
  apply bind_Ok_inv in Hob as (u1 & w1 & He & Hob). apply ensure_Ok_inv in He as [_ ->].
  apply bind_Ok_inv in Hob as (action & w1 & He & Hob). apply lift_Ok_inv in He as [_ ->].
  rewrite run_get in Hob. apply bind_Ok_inv in Hob as ([[result rc] p] & w1 & He & Hob).
  apply lift_Ok_inv in He as [He ->]. apply mret_Ok_inv in Hob as [-> _]. split; [done|]. exists id, z. split; [done|].
  unfold adapter_observe in He. apply observed_effect in He as (ef & ? & ? & ? & ? & ? & _); [|done].
  by exists ef.
Qed.

Lemma read_found f t x dsha :
  (get_decision (f_owner f) (f_task f) t).1 = Ok (Some (x, dsha)) →
  ∃ row, decisions (td_exec t) !! (f_owner f, f_task f) = Some row ∧ decision_of (h_record row) = Some x.
Proof.
  destruct (get_decision _ _ t) as [r t'] eqn:Hd. cbn [fst]. intros ->.
  apply read_history_inv in Hd as (_ & row & ? & ? & _). by exists row.
Qed.

(** The invariant when the destination has gained at most the effect of a
    pending attempt. *)
Lemma consistent_dest t q q' ps ps' cs :
  consistent (mkSystem t q ps cs) → ps' ⊆ ps → q_effects q ⊆ q_effects q' →
  (∀ k x, q_effects q' !! k = Some x → q_effects q !! k = None →
     k = effect_key (e_authorization x) ∧ ∃ action, (e_authorization x, action) ∈ ps) →
  consistent (mkSystem t q' ps' cs).
Proof.
  intros [C1 C2 C3 C4 C5 C6] Hps Hsub Hnew. split; cbn [sy_tenant sy_dest sy_pending sy_found] in *; try done.
  - intros z action Hz. apply (C3 z action). by apply Hps.
  - intros k x Hx. destruct (q_effects q !! k) as [x'|] eqn:Hk.
    + pose proof (lookup_weaken _ _ _ _ Hk Hsub). simplify_eq. eauto.
    + destruct (Hnew _ _ Hx Hk) as (? & action & Ha). split; [done|]. by eapply C3.
  - intros c Hc. destruct (C5 _ Hc) as (row & id & z & ? & ? & ?). exists row, id, z. eauto using carried_out_mono.
  - intros k row Hk. destruct (C6 _ _ Hk) as (x & ? & ? & ? & ?). exists x. eauto using carried_out_mono.
Qed.

Lemma consistent_result c x t t' q ps cs :
  consistent (mkSystem t q ps cs) → c ∈ cs → new_result c t t' x → consistent (mkSystem t' q ps cs).
Proof.
  intros [C1 C2 C3 C4 C5 C6] Hc [Hk (Hr1 & Hr2 & Hr3) Hf (drow & b & id & de & Hd & _ & Hdec) He].
  unfold attempted in *. cbn [sy_tenant sy_dest sy_pending sy_found] in *.
  assert (decisions (td_exec t') = decisions (td_exec t)) as Hdd by by rewrite He.
  split; cbn [sy_tenant sy_dest sy_pending sy_found]; unfold attempted; rewrite Hdd; try done.
  intros k row. rewrite He. cbn [results]. intros [[<- <-]|[_ Hkr]]%lookup_insert_Some; [|by apply C6].
  exists x. destruct (C5 _ Hc) as (row & id' & z & Hrow & Hdz & Hco). rewrite Hk in *. rewrite Hd in Hrow. injection Hrow as <-.
  pose proof (decided_read _ _ _ _ Hdz Hdec) as Hz. cbn in Hz. injection Hz as -> -> ->.
  split_and!; [done..| |by rewrite Hr1, Hr2]. by exists drow, id'.
Qed.

Section runs.
Hypothesis normal : normalize_queued_descriptor absolute resolve_path dd = Ok dd.

Lemma qstep_consistent y y' : qstep y y' → consistent y → consistent y'.
Proof.
  destruct 1 as [t t' q ps cs He|t q ps cs scope owner now|t q ps cs a f pl action epoch expiry r res t' Ha|t q ps cs a f r
    |t q ps1 ps2 cs z action lose now now'|t q ps cs ps' Hsub|t q ps cs f x dsha now c w' Hd Hob
    |t q ps cs c review now ns stamp Hc|t q ps cs f why now stamp]; intros C.
  - eapply consistent_tenant; [exact C|by rewrite He..].
  - eapply consistent_dest; [exact C|done|by rewrite acquire_effects|]. rewrite acquire_effects. congruence.
  - destruct res as [z|err].
    + apply attempt_inv in Ha as (row & Hn). pose proof (consistent_decision _ _ _ _ _ _ _ _ C Hn) as [D1 D2 D3 D4 D5 D6].
      split; try done. intros z' action' [[= -> ->]|Hz]%elem_of_cons; [|by eapply D3].
      destruct Hn as [Hrow Hfr _ He]. eexists _, row, _. split; [|exact Hrow]. cbn [sy_tenant]. rewrite He.
      apply lookup_insert_eq.
    + unfold commit_attempt in Ha. by apply atomic_Raise in Ha as ->.
  - destruct (reject a f r t) as [[u|err] t'] eqn:Hr; cbn [snd].
    + apply reject_inv in Hr as (why & row & Hn). by eapply consistent_decision.
    + unfold reject_small in Hr. by apply atomic_Raise in Hr as ->.
  - destruct (call_effect z action lose now now' q) as [Hq|(x & Hx & Hn & Hq)].
    + rewrite Hq. eapply consistent_dest; [exact C|set_solver|done|congruence].
    + eapply consistent_dest; [exact C|set_solver|rewrite Hq; by apply insert_subseteq|].
      intros k x'. rewrite Hq. intros [[<- <-]|[_ Hk]]%lookup_insert_Some Hnone; [|congruence].
      rewrite Hx. split; [done|]. exists action. set_solver.
  - eapply consistent_dest; [exact C|done|done|congruence].
  - apply observed_inv in Hob as (Hf & id & z & Hz & Hco); [|done]. subst f. apply read_found in Hd as (row & Hrow & Hdec).
    destruct C as [C1 C2 C3 C4 C5 C6]. split; try done. cbn [sy_found sy_tenant sy_dest] in *.
    intros c' [->|Hc']%elem_of_cons; [|by apply C5]. exists row, id, z. split; [done|]. split; [|done].
    destruct (C1 _ _ Hrow) as (xd & Hxd). pose proof (decided_read _ _ _ _ Hxd Hdec). congruence.
  - destruct (finish c review now ns stamp t) as [r t'] eqn:Hf. cbn [snd].
    apply finish_inv in Hf as [He|(x & Hn)]; [by eapply consistent_tenant; [exact C|rewrite He..]|by eapply consistent_result].
  - destruct (cancels f why now stamp t) as [r t'] eqn:Hf. cbn [snd].
    apply cancel_inv in Hf as [(ctl & He)|(row & Hn)]; [by eapply consistent_tenant; [exact C|rewrite He..]|by eapply consistent_decision].
Qed.

(** A queue that has not been used. *)
Record unused (y : system) : Prop := {
  un_exec : td_exec (sy_tenant y) = mkExec ∅ ∅ ∅;
  un_effects : q_effects (sy_dest y) = ∅;
  un_pending : sy_pending y = [];
  un_found : sy_found y = [];
}.

Lemma unused_consistent y : unused y → consistent y.
Proof.
  destruct y as [t q ps cs]. intros [H0' H1' H2' H3']. cbn in *. subst ps cs. split; cbn; rewrite ?H0', ?H1'; cbn;
    intros *; rewrite ?lookup_empty, ?elem_of_nil; done.
Qed.

Lemma reachable_consistent y0 y : unused y0 → rtc qstep y0 y → consistent y.
Proof.
  intros Hu%unused_consistent Hr. revert Hu. induction Hr as [|y1 y2 y3 Hs _ IH]; [done|]. intros C.
  by eapply IH, qstep_consistent.
Qed.

(** The decision the store holds for a task, as its readers decode it. *)
Definition decision_at (task : string * string) (x : exec_decision) (t : tenant_db) : Prop :=
  ∃ row d, decisions (td_exec t) !! task = Some row ∧ decision_of (h_record row) = Some d ∧ dr_decision d = x.

Lemma decided_at task row x t : decisions (td_exec t) !! task = Some row → decided task row x → decision_at task x t.
Proof.
  intros Hrow Hd. exists row, (mkDecisionRecord (mkBase task.1 task.2 (h_agent row) (h_operation row) (h_link_sha row)) x).
  split_and!; [done| |done]. pose proof (f_equal h_record (de_row _ _ _ Hd)) as Hr. rewrite Hr. apply decision_of_text.
Qed.

(** C27: the destination acts only for an attempt that the tenant's store has
    committed: every effect has, in the store, the decision of one task with
    exactly that signed authorization, and no other task has a decision about
    that operation. *)
Theorem queued_effect_needs_attempt y0 y k x :
  unused y0 → rtc qstep y0 y → q_effects (sy_dest y) !! k = Some x →
  k = effect_key (e_authorization x) ∧
  ∃ task, decision_at task (Attempt (z_attempt (e_authorization x)) (e_authorization x) dd) (sy_tenant y) ∧
    ∀ task' row', decisions (td_exec (sy_tenant y)) !! task' = Some row' →
      h_agent row' = z_agent (e_authorization x) → h_operation row' = z_operation (e_authorization x) → task' = task.
Proof.
  intros Hu Hr Hx. destruct (reachable_consistent _ _ Hu Hr) as [_ C2 _ C4 _ _].
  destruct (C4 _ _ Hx) as (-> & task & row & id & Hrow & Hd). split; [done|]. exists task.
  destruct (de_attempt _ _ _ Hd _ _ _ eq_refl) as (_ & Hid & _ & Ha' & Ho' & _). subst id.
  split; [by eapply decided_at|]. intros task' row' Hrow' Ha Ho. eapply C2; [exact Hrow'|exact Hrow|congruence..].
Qed.

(** C28: a task that was closed before dispatch never acts: no reachable
    destination has an effect of its operation. *)
Theorem closed_task_never_acts y0 y task row d why :
  unused y0 → rtc qstep y0 y →
  decisions (td_exec (sy_tenant y)) !! task = Some row → decision_of (h_record row) = Some d → dr_decision d = Closed why →
  q_effects (sy_dest y) !! (tc_tenant cfg, h_agent row, h_operation row) = None.
Proof.
  intros Hu Hr Hrow Hdec Hcl. destruct (reachable_consistent _ _ Hu Hr) as [C1 C2 _ C4 _ _].
  destruct (q_effects _ !! _) as [x|] eqn:Hx; [exfalso|done].
  destruct (C4 _ _ Hx) as (Hk' & task' & row' & id & Hrow' & Hd). injection Hk' as _ Ha Ho.
  destruct (de_attempt _ _ _ Hd _ _ _ eq_refl) as (_ & _ & _ & Ha' & Ho' & _).
  assert (task = task') as <- by (eapply C2; [exact Hrow|exact Hrow'|congruence..]). rewrite Hrow in Hrow'. injection Hrow' as <-.
  pose proof (decided_read _ _ _ _ Hd Hdec). congruence.
Qed.

(** A recorded result is authoritative: it names the attempt the store
    committed for that task, and the destination holds the effect of that
    attempt with exactly the recorded result and receipt. *)
Theorem queued_result_is_effect y0 y task row :
  unused y0 → rtc qstep y0 y → results (td_exec (sy_tenant y)) !! task = Some row →
  ∃ x id, result_record_of (h_record row) = Some x ∧ rr_outcome x = "succeeded" ∧
    decision_at task (Attempt id (rr_authorization x) dd) (sy_tenant y) ∧
    carried_out (rr_authorization x) (rr_result x) (rr_receipt x) (sy_dest y).
Proof.
  intros Hu Hr Hrow. destruct (reachable_consistent _ _ Hu Hr) as [_ _ _ _ _ C6].
  destruct (C6 _ _ Hrow) as (x & -> & Ho & (drow & id & Hd & Hdd) & Hc). exists x, id.
  split_and!; [apply result_record_of_text|done|by eapply decided_at|done].
Qed.
End runs.

(** ** The code runs by these steps *)

Notation dispatched := (dispatch_once absolute resolve_path parse_float float_repr cfg auth e eng dflt max_events dd
  authorizer_sign destination_sign observer_sign seal).
Notation guarded := (dispatch_guarded absolute resolve_path parse_float float_repr cfg auth e eng dflt max_events dd
  authorizer_sign destination_sign observer_sign seal).
Notation recovers := (recover absolute resolve_path cfg dflt max_events dd observer_sign seal).
Notation sends := (send absolute resolve_path parse_float cfg auth dd destination_sign).

(** The run of [m] is a sequence of steps, whatever else is pending. *)
Definition by_steps {A} (m : M world A) : Prop := ∀ w ps cs, ∃ cs',
  rtc qstep (mkSystem (w_tenant w) (w_dest w) ps cs) (mkSystem (w_tenant (m w).2) (w_dest (m w).2) ps cs').

Lemma by_steps_bind {A B} (f : A → M world B) (m : M world A) : by_steps m → (∀ a, by_steps (f a)) → by_steps (m ≫= f).
Proof.
  intros Hm Hf w ps cs. rewrite run_bind. destruct (Hm w ps cs) as [cs1 H1']. destruct (m w) as [[a|x] w1]; cbn [snd] in *; [|eauto].
  destruct (Hf a w1 ps cs1) as [cs2 H2']. exists cs2. by etrans.
Qed.
Lemma by_steps_reads {A} (m : M world A) : reads m → by_steps m.
Proof. intros Hm w ps cs. rewrite Hm. by exists cs. Qed.
Lemma by_steps_tenant {A} (m : M tenant_db A) : (∀ t q ps cs, rtc qstep (mkSystem t q ps cs) (mkSystem (m t).2 q ps cs)) → by_steps (zoom m).
Proof.
  intros Hm [t q] ps cs. exists cs. unfold zoom. cbn [view lens_w_tenant w_tenant]. specialize (Hm t q ps cs).
  by destruct (m t) as [r t'].
Qed.
Lemma by_steps_quiet {A} (m : M tenant_db A) : quiet m → by_steps (zoom m).
Proof. intros Hm. apply by_steps_tenant. intros t q ps cs. apply rtc_once, q_other, Hm. Qed.
Lemma by_steps_catch {A} (m : M world A) h : by_steps m → (∀ x k, h x = Some k → by_steps k) → by_steps (catch m h).
Proof.
  intros Hm Hh w ps cs. unfold catch. destruct (Hm w ps cs) as [cs1 H1']. destruct (m w) as [[a|x] w1]; cbn [snd] in *; [eauto|].
  destruct (h x) as [k|] eqn:Hk; [|eauto]. destruct (Hh _ _ Hk w1 ps cs1) as [cs2 H2']. exists cs2. by etrans.
Qed.

Lemma by_steps_zoom_reads {A} (m : M tenant_db A) : reads m → by_steps (zoom m).
Proof. intros Hm. by apply by_steps_quiet, quiet_reads. Qed.

Lemma run_zoom_reads {A} (m : M tenant_db A) (w : world) : reads m → zoom m w = ((m (w_tenant w)).1, w).
Proof.
  intros Hm. unfold zoom. cbn [view lens_w_tenant]. specialize (Hm (w_tenant w)). destruct (m (w_tenant w)) as [r t].
  cbn in *. subst t. by destruct w.
Qed.

(** A read leads on with what it answered. *)
Lemma by_steps_read {A B} (m : M tenant_db A) (f : A → M world B) (w : world) ps cs :
  reads m →
  (∀ a, (m (w_tenant w)).1 = Ok a → ∃ cs', rtc qstep (mkSystem (w_tenant w) (w_dest w) ps cs)
     (mkSystem (w_tenant (f a w).2) (w_dest (f a w).2) ps cs')) →
  ∃ cs', rtc qstep (mkSystem (w_tenant w) (w_dest w) ps cs)
     (mkSystem (w_tenant ((zoom m ≫= f) w).2) (w_dest ((zoom m ≫= f) w).2) ps cs').
Proof.
  intros Hm Hf. rewrite run_bind, run_zoom_reads by done. destruct (m (w_tenant w)).1 as [a|x]; [by apply Hf|by exists cs].
Qed.

Lemma reads_observed f x dsha now : reads (observed f x dsha now).
Proof.
  unfold observe_attempt. apply reads_bind; [intros w; by rewrite run_zoom_reads by apply reads_linked|]. intros y.
  destruct (dr_decision x); reads_tac.
Qed.

Lemma observe_finish_steps f x dsha ns now stamp (w : world) ps cs :
  (get_decision (f_owner f) (f_task f) (w_tenant w)).1 = Ok (Some (x, dsha)) →
  let m := c ← observed f x dsha ns; zoom (finish c None now ns stamp) in
  ∃ cs', rtc qstep (mkSystem (w_tenant w) (w_dest w) ps cs) (mkSystem (w_tenant (m w).2) (w_dest (m w).2) ps cs').
Proof.
  intros Hd m. subst m. rewrite run_bind. destruct (observed f x dsha ns w) as [[c|err] w1] eqn:Hob.
  2:{ pose proof (reads_observed f x dsha ns w) as Hr. rewrite Hob in Hr. cbn in Hr. subst w1. by exists cs. }
  pose proof (reads_observed f x dsha ns w) as Hr. rewrite Hob in Hr. cbn in Hr. subst w1. destruct w as [t q].
  exists (c :: cs). eapply rtc_l; [by eapply q_observe|]. unfold zoom. cbn [view lens_w_tenant w_tenant w_dest] in *.
  pose proof (q_finish t q ps (c :: cs) c None now ns stamp) as Hf. destruct (finish c None now ns stamp t) as [r t'].
  apply rtc_once, Hf. set_solver.
Qed.

Lemma recover_steps f ns now stamp : by_steps (recovers f ns now stamp).
Proof.
  intros w ps cs. unfold recover. apply by_steps_read; [apply reads_linked|]. intros y _.
  apply by_steps_read; [apply reads_decision|]. intros d Hd.
  apply by_steps_read; [apply reads_result|]. intros res _.
  assert (by_steps (zoom (status_of (f_owner f) (f_task f)))) as Hst by apply by_steps_zoom_reads, reads_status.
  destruct d as [[x dsha]|]; [|by apply Hst]. destruct res as [res|]; [by apply Hst|].
  destruct (dr_decision x) as [id z de|why]; [|by apply Hst]. unfold catch.
  pose proof (observe_finish_steps f x dsha ns now stamp w ps cs Hd) as [cs1 H1']. cbv zeta in H1'.
  destruct (mbind (M := M world) _ _ w) as [[a|err] w1]; cbn [snd] in *; [eauto|].
  destruct (Hst w1 ps cs1) as [cs2 H2']. exists cs2. by etrans.
Qed.

(** The call of a pending attempt, made or not. *)
Lemma send_steps a z action r t q ps cs :
  rtc qstep (mkSystem t q ((z, action) :: ps) cs)
    (mkSystem (w_tenant (sends a z action r (mkWorld t q)).2) (w_dest (sends a z action r (mkWorld t q)).2) ps cs).
Proof.
  assert (rtc qstep (mkSystem t q ((z, action) :: ps) cs) (mkSystem t q ps cs)) as Hdrop.
  { apply rtc_once, q_crash. set_solver. }
  unfold send. rewrite run_bind, run_zoom_reads by apply reads_lifetime. cbn [w_tenant].
  destruct (lifetime a (rd_send r) t).1; [|exact Hdrop]. rewrite run_bind.
  destruct (negb _); cbn [ensure]; [|exact Hdrop]. cbn [mret M_ret]. rewrite run_bind. unfold zoom.
  cbn [view update lens_w_dest w_dest w_tenant].
  pose proof (q_send t q [] ps cs z action (rd_lose_ack r) (rd_entry r) (rd_signed r)) as Hs. cbn [app] in Hs.
  destruct (call z action _ _ _ q) as [[o|x] q']; by apply rtc_once.
Qed.

Lemma attempt_send_steps a f pl action epoch expiry r {B} (k : M world B) :
  by_steps k → by_steps (z ← zoom (attempt a f pl action epoch expiry r); _ ← sends a z action r; k).
Proof.
  intros Hk [t q] ps cs. rewrite run_bind. unfold zoom. cbn [view update lens_w_tenant w_tenant w_dest].
  destruct (attempt a f pl action epoch expiry r t) as [[z|x] t'] eqn:Ha.
  - rewrite run_bind. pose proof (send_steps a z action r t' q ps cs) as Hs.
    assert ((sends a z action r (mkWorld t' q)).1 = Ok tt) as Hok by (unfold send; by destruct (mbind (M := M world) _ _ _)).
    destruct (sends a z action r (mkWorld t' q)) as [o w1]. cbn in Hok, Hs. subst o. destruct (Hk w1 ps cs) as [cs2 H2'].
    exists cs2. eapply rtc_l; [by eapply q_attempt|]. cbn. by etrans.
  - exists cs. cbn. apply rtc_once. by apply (q_attempt t q ps cs a f pl action epoch expiry r (Raise x) t').
Qed.

Lemma acquire_steps {B} scope owner now (g : Z * float64 → B) :
  by_steps (v ← zoom (adapter_acquire dd scope owner now); mret (g v)).
Proof.
  apply by_steps_bind; [|intros v; by apply by_steps_reads]. intros [t q] ps cs. exists cs. unfold zoom.
  cbn [view update lens_w_dest w_dest w_tenant]. pose proof (q_acquire t q ps cs scope owner now) as Ha.
  destruct (adapter_acquire dd scope owner now q) as [o q']. by apply rtc_once.
Qed.

Lemma guarded_steps f r v : by_steps (guarded f r v).
Proof.
  assert (by_steps (zoom (status_of (f_owner f) (f_task f)))) as Hst by apply by_steps_zoom_reads, reads_status.
  unfold dispatch_guarded. apply by_steps_bind.
  { apply by_steps_quiet. unfold guard_admitted. quiet_tac. }
  intros a. apply by_steps_bind; [apply by_steps_quiet, quiet_checks|]. intros [[x pl] d].
  apply by_steps_bind; [apply by_steps_reads, reads_lift|]. intros _. destruct (_ <? _).
  - apply by_steps_bind; [|done]. apply by_steps_tenant. intros t q ps cs. apply rtc_once, q_reject.
  - apply by_steps_bind.
    + apply by_steps_catch; [apply acquire_steps|]. intros err k Hk. destruct err; simplify_eq. by apply by_steps_reads.
    + intros [[epoch expiry]|]; [|done]. apply by_steps_bind; [apply by_steps_reads, reads_lift|]. intros action.
      apply attempt_send_steps, recover_steps.
Qed.

Lemma dispatch_steps f slot r v : by_steps (dispatched f slot r v).
Proof.
  unfold dispatch_once.
  apply by_steps_bind; [apply by_steps_zoom_reads, reads_linked|]. intros _.
  apply by_steps_bind; [apply by_steps_zoom_reads, reads_decision|]. intros [d|]; [apply recover_steps|].
  apply by_steps_bind; [apply by_steps_reads, reads_ensure|]. intros _. apply by_steps_catch; [apply guarded_steps|].
  intros err k Hk. destruct err; simplify_eq; (apply by_steps_bind; [apply by_steps_zoom_reads, reads_decision|]);
    intros [d|]; (apply recover_steps || apply by_steps_reads, reads_raise).
Qed.

(** C29: a dispatch, with all its checks, its early returns and its failures, is a
    sequence of the steps above: nothing it does escapes what holds of them. *)
Theorem dispatch_refines f slot r v w ps cs :
  ∃ cs', rtc qstep (mkSystem (w_tenant w) (w_dest w) ps cs)
    (mkSystem (w_tenant (dispatched f slot r v w).2) (w_dest (dispatched f slot r v w).2) ps cs').
Proof. apply dispatch_steps. Qed.
End spec.
