(* ===== verification/QueuedExample.v ===== *)
(** * One queued task, end to end

    Concrete codecs for the queue's records, and a tenant in which an agent's
    task is accepted, admitted, dispatched and settled: the queue's operations
    run here by evaluation, and the run instantiates the queue's theorems. *)

From stdpp Require Import base list gmap sets strings countable.
From Stdlib Require Import ZArith Lia Ascii.
From S2P Require Import Prelude PyFloat Json Identity Authority AuthoritySpec Budget AuditLog AuditSpec Approvals PolicyRules OperationLedger Quotas Policy Protocols Gateway Evidence Fencing TaskLifecycle TaskSpec TaskIntents QueuedDestination QueuedDestinationSpec QueuedStore IntentSpec QueuedPreparation QueuedAdmission QueuedDispatch QueuedSpec.

#[local] Open Scope Z_scope.

(** ** Texts of fields *)

Definition bool_text (b : bool) : string := if b then "t" else "f".
Definition bool_of (s : string) : option bool := Some (bool_decide (s = "t")).

Lemma bool_of_text b : bool_of (bool_text b) = Some b.
Proof. by destruct b. Qed.

Definition list_text (l : list string) : string := marked_all l.
Definition list_of (s : string) : option (list string) := unmarked s EmptyString.

Lemma list_of_text l : list_of (list_text l) = Some l.
Proof. apply unmarked_all. Qed.

Definition opt_text (o : option string) : string := match o with None => "" | Some s => String "s" s end.
Definition opt_of (s : string) : option (option string) :=
  Some (match s with EmptyString => None | String _ s' => Some s' end).

Lemma opt_of_text o : opt_of (opt_text o) = Some o.
Proof. by destruct o. Qed.

#[export] Hint Rewrite int_of_text real_of_text bool_of_text list_of_text opt_of_text json_read_write : codec.

(** Decode a record's fields by rewriting with the laws of their parts. *)
Ltac decode_tac := simpl; rewrite ?unmarked_all; simpl; autorewrite with codec; simpl; done.

(** ** Texts of records *)

Definition principal_fields_text (p : Principal) : string :=
  list_text [opt_text (tenant_id p); subject p; issuer p; kind p; int_text (revision p); int_text (tenant_revision p);
    opt_text (p_agent_id p); int_text (agent_revision p); opt_text (delegation_id p); int_text (delegation_revision p);
    int_text (user_revision p); int_text (grantor_revision p); real_text (valid_until p); list_text (capabilities p);
    list_text (targets p); request_body_sha256 p; request_nonce p; proof p].

Definition principal_of (s : string) : option Principal :=
  match list_of s with
  | Some [t; sub; iss; kd; rv; tr; ag; ar; dg; dr; ur; gr; vu; cp; tg; body; nonce; pf] =>
      t ← opt_of t; rv ← int_of rv; tr ← int_of tr; ag ← opt_of ag; ar ← int_of ar; dg ← opt_of dg; dr ← int_of dr;
      ur ← int_of ur; gr ← int_of gr; vu ← real_of vu; cp ← list_of cp; tg ← list_of tg;
      Some (mkPrincipal t sub iss kd rv tr ag ar dg dr ur gr vu cp tg body nonce pf)
  | _ => None
  end.

Lemma principal_of_text p : principal_of (principal_fields_text p) = Some p.
Proof. unfold principal_of, principal_fields_text. rewrite list_of_text. autorewrite with codec. by destruct p. Qed.

Definition authorization_of (s : string) : option authorization :=
  match list_of s with
  | Some [tn; sr; ow; ag; au; tk; cx; it; lk; fp; og; tg; ts; de; op; ac; rl; at_; fs; fo; fe; is_; ex; ai; sg] =>
      rl ← int_of rl; fe ← int_of fe; is_ ← real_of is_; ex ← real_of ex;
      Some (mkAuthorization tn sr ow ag au tk cx it lk fp og tg ts de op ac rl at_ fs fo fe is_ ex ai sg)
  | _ => None
  end.

Lemma authorization_of_text z : authorization_of (list_text (authorization_parts z)) = Some z.
Proof. unfold authorization_of, authorization_parts. rewrite list_of_text. autorewrite with codec. by destruct z. Qed.

Definition descriptor_fields_text (d : descriptor) : string :=
  list_text [de_kind d; de_protocol d; de_tenant d; de_target d; de_destination d; de_path d; de_schema d;
    de_authorizer_id d; de_authorizer_hex d; de_signer_id d; de_signer_hex d; de_observer_id d; de_observer_hex d;
    real_text (de_timeout d); int_text (de_max_action d)].

Definition descriptor_of (s : string) : option descriptor :=
  match list_of s with
  | Some [kd; pr; tn; tg; de; pa; sc; ai; ah; si; sh; oi; oh; tm; mx] =>
      tm ← real_of tm; mx ← int_of mx; Some (mkDescriptor kd pr tn tg de pa sc ai ah si sh oi oh tm mx)
  | _ => None
  end.

Lemma descriptor_of_text d : descriptor_of (descriptor_fields_text d) = Some d.
Proof. unfold descriptor_of, descriptor_fields_text. rewrite list_of_text. autorewrite with codec. by destruct d. Qed.

Definition outcome_fields_text (r : demo_outcome) : string :=
  list_text [stored_sha256 r; int_text (stored_bytes r); effect_id r].
Definition outcome_of (s : string) : option demo_outcome :=
  match list_of s with Some [a; b; c] => b ← int_of b; Some (mkOutcome a b c) | _ => None end.

Lemma outcome_of_text r : outcome_of (outcome_fields_text r) = Some r.
Proof. unfold outcome_of, outcome_fields_text. rewrite list_of_text. autorewrite with codec. by destruct r. Qed.

Definition commitment_fields_text (c : commitment) : string :=
  list_text [c_authorization_sha c; c_tenant c; QueuedDestination.c_agent c; c_operation c; c_fingerprint c;
    QueuedDestination.c_target c; c_destination c; c_attempt c; int_text (c_epoch c); c_action_sha c; c_outcome c; c_reference c;
    real_text (c_committed c); c_result_sha c].
Definition commitment_of_fields (s : string) : option commitment :=
  match list_of s with
  | Some [a; t; ag; op; fp; tg; de; at_; ep; ac; ou; rf; co; rs] =>
      ep ← int_of ep; co ← real_of co; Some (mkCommitment a t ag op fp tg de at_ ep ac ou rf co rs)
  | _ => None
  end.

Lemma commitment_of_text c : commitment_of_fields (commitment_fields_text c) = Some c.
Proof. unfold commitment_of_fields, commitment_fields_text. rewrite list_of_text. autorewrite with codec. by destruct c. Qed.

Definition receipt_fields_text (r : receipt) : string :=
  list_text [commitment_fields_text (rc_fields r); rc_key_id r; rc_signature r].
Definition receipt_of (s : string) : option receipt :=
  match list_of s with Some [a; b; c] => a ← commitment_of_fields a; Some (mkReceipt a b c) | _ => None end.

Lemma receipt_of_text r : receipt_of (receipt_fields_text r) = Some r.
Proof. unfold receipt_of, receipt_fields_text. rewrite list_of_text, commitment_of_text. by destruct r. Qed.

Definition readback_fields_text (p : readback) : string :=
  list_text [commitment_fields_text (rb_fields p); rb_receipt_sha p; int_text (rb_observed p); rb_source p; rb_source_sha p;
    rb_key_id p; rb_signature p].
Definition readback_of_fields (s : string) : option readback :=
  match list_of s with
  | Some [a; b; c; d; x; f; g] => a ← commitment_of_fields a; c ← int_of c; Some (mkReadback a b c d x f g)
  | _ => None
  end.

Lemma readback_of_text p : readback_of_fields (readback_fields_text p) = Some p.
Proof.
  unfold readback_of_fields, readback_fields_text. rewrite list_of_text, commitment_of_text. autorewrite with codec.
  by destruct p.
Qed.

Definition submission_parts (x : TaskSubmission) : string :=
  list_text [sub_task x; sub_context x; sub_src x; sub_dst x; json_write (sub_wire x); sub_operation x; sub_target x].
Definition submission_of (s : string) : option TaskSubmission :=
  match list_of s with
  | Some [t; c; a; b; w; o; g] => w ← json_read w; Some (mkSubmission t c a b w o g)
  | _ => None
  end.
Lemma submission_of_text x : submission_of (submission_parts x) = Some x.
Proof. unfold submission_of, submission_parts. rewrite list_of_text. autorewrite with codec. by destruct x. Qed.

Definition provenance_parts (p : provenance) : string :=
  list_text [authentication p; principal_fields_text (prov_authority p); real_text (authorization_expires_at p);
    request_body p; body_sha256 p; prov_nonce p; signer_public_key_hex p; prov_capability p; real_text (operator_cost p);
    target_configuration_sha256 p; bool_text (approval_required_at_submission p)].
Definition provenance_of (s : string) : option provenance :=
  match list_of s with
  | Some [a; b; c; d; x; f; g; h; i; j; k] =>
      b ← principal_of b; c ← real_of c; i ← real_of i; k ← bool_of k; Some (mkProvenance a b c d x f g h i j k)
  | _ => None
  end.
Lemma provenance_of_text p : provenance_of (provenance_parts p) = Some p.
Proof.
  unfold provenance_of, provenance_parts. rewrite list_of_text, principal_of_text. autorewrite with codec. by destruct p.
Qed.

Definition intent_parts (r : intent_record) : string :=
  list_text [domain r; submission_parts (submission r); provenance_parts (prov r); real_text (accepted_at r); phase r;
    bool_text (execution_admitted r)].
Definition intent_of (s : string) : option intent_record :=
  match list_of s with
  | Some [a; b; c; d; x; f] =>
      b ← submission_of b; c ← provenance_of c; d ← real_of d; f ← bool_of f; Some (mkIntentRecord a b c d x f)
  | _ => None
  end.
Lemma intent_of_text r : intent_of (intent_parts r) = Some r.
Proof.
  unfold intent_of, intent_parts. rewrite list_of_text, submission_of_text, provenance_of_text. autorewrite with codec.
  by destruct r.
Qed.

#[local] Instance example_intents : IntentCodec := {
  record_text := intent_parts;
  record_of := intent_of;
  strict_loads s := json_loads s;
  record_of_text := intent_of_text;
}.

Definition base_parts (b : base) : string := list_text [b_owner b; b_task b; b_agent b; b_operation b; b_link_sha b].
Definition base_from (s : string) : option base :=
  match list_of s with Some [a; b; c; d; x] => Some (mkBase a b c d x) | _ => None end.
Lemma base_from_text b : base_from (base_parts b) = Some b.
Proof. unfold base_from, base_parts. rewrite list_of_text. by destruct b. Qed.

Definition link_parts (m : link_meta) : string :=
  list_text [l_tenant m; l_owner m; l_task m; l_context m; l_agent m; l_operation m; l_intent_sha m; l_action_sha m;
    l_original_sha m; l_token m; int_text (l_sequence m); l_state m; l_target m; l_target_sha m; real_text (l_cost m);
    bool_text (l_approval m); int_text (l_limit m); real_text (l_expires m); real_text (l_admitted m)].
Definition link_from (s : string) : option link_meta :=
  match list_of s with
  | Some [a; b; c; d; x; f; g; h; i; j; k; l; m; n; o; p; q; r; t] =>
      k ← int_of k; o ← real_of o; p ← bool_of p; q ← int_of q; r ← real_of r; t ← real_of t;
      Some (mkLinkMeta a b c d x f g h i j k l m n o p q r t)
  | _ => None
  end.
Lemma link_from_text m : link_from (link_parts m) = Some m.
Proof. unfold link_from, link_parts. rewrite list_of_text. autorewrite with codec. by destruct m. Qed.

Definition decision_parts (x : decision_record) : string :=
  match dr_decision x with
  | Attempt id z d => list_text [base_parts (dr_base x); id; list_text (authorization_parts z); descriptor_fields_text d]
  | Closed why => list_text [base_parts (dr_base x); why]
  end.
Definition decision_from (s : string) : option decision_record :=
  match list_of s with
  | Some [b; id; z; d] =>
      b ← base_from b; z ← authorization_of z; d ← descriptor_of d; Some (mkDecisionRecord b (Attempt id z d))
  | Some [b; why] => b ← base_from b; Some (mkDecisionRecord b (Closed why))
  | _ => None
  end.
Lemma decision_from_text x : decision_from (decision_parts x) = Some x.
Proof.
  unfold decision_from, decision_parts. destruct x as [b [id z d|why]]; cbn [dr_decision dr_base]; rewrite list_of_text, base_from_text;
    [rewrite authorization_of_text, descriptor_of_text|]; done.
Qed.

Definition review_parts (o : option (string * string)) : string :=
  match o with None => "" | Some (a, b) => list_text [a; b] end.
Definition review_from (s : string) : option (option (string * string)) :=
  match list_of s with Some [] => Some None | Some [a; b] => Some (Some (a, b)) | _ => None end.
Lemma review_from_text o : review_from (review_parts o) = Some o.
Proof. unfold review_from, review_parts. destruct o as [[a b]|]; [|done]. by rewrite list_of_text. Qed.

Definition operator_parts (o : option Principal) : string :=
  match o with None => "" | Some p => list_text [principal_fields_text p] end.
Definition operator_from (s : string) : option (option Principal) :=
  match list_of s with Some [] => Some None | Some [a] => p ← principal_of a; Some (Some p) | _ => None end.
Lemma operator_from_text o : operator_from (operator_parts o) = Some o.
Proof. unfold operator_from, operator_parts. destruct o as [p|]; [|done]. by rewrite list_of_text, principal_of_text. Qed.

Definition result_parts (x : result_record) : string :=
  list_text [base_parts (rr_base x); rr_outcome x; rr_decision_sha x; list_text (authorization_parts (rr_authorization x));
    outcome_fields_text (rr_result x); receipt_fields_text (rr_receipt x); readback_fields_text (rr_readback x);
    review_parts (rr_review x); operator_parts (rr_operator x); opt_text (rr_previous x)].
Definition result_from (s : string) : option result_record :=
  match list_of s with
  | Some [b; o; d; z; r; rc; p; rv; op; pv] =>
      b ← base_from b; z ← authorization_of z; r ← outcome_of r; rc ← receipt_of rc; p ← readback_of_fields p;
      rv ← review_from rv; op ← operator_from op; pv ← opt_of pv; Some (mkResultRecord b o d z r rc p rv op pv)
  | _ => None
  end.
Lemma result_from_text x : result_from (result_parts x) = Some x.
Proof.
  unfold result_from, result_parts. rewrite list_of_text, base_from_text, authorization_of_text, outcome_of_text,
    receipt_of_text, readback_of_text, review_from_text, operator_from_text, opt_of_text. by destruct x.
Qed.

Definition control_parts (x : control_record) : string := list_text [base_parts (cr_base x); cr_reason x].
Definition control_from (s : string) : option control_record :=
  match list_of s with Some [b; r] => b ← base_from b; Some (mkControlRecord b r) | _ => None end.
Lemma control_from_text x : control_from (control_parts x) = Some x.
Proof. unfold control_from, control_parts. rewrite list_of_text, base_from_text. by destruct x. Qed.

#[local] Instance example_history : HistoryCodec := {
  link_text := link_parts;
  link_of := link_from;
  decision_text := decision_parts;
  decision_of := decision_from;
  result_record_text := result_parts;
  result_record_of := result_from;
  control_text := control_parts;
  control_of := control_from;
  link_of_text := link_from_text;
  decision_of_text := decision_from_text;
  result_record_of_text := result_from_text;
  control_of_text := control_from_text;
}.

(** ** A tenant *)

#[local] Existing Instance hex_ed25519 | 0.
#[local] Existing Instance demo_queued_codec | 0.
#[local] Instance example_digest : Sha256 | 0 := { sha256_hex _ := sixty_four "d" }.

Definition ex_directory : directory :=
  mkDirectory {["acme" := Authority.mkTenant 1 true]} ∅ ∅
    {[("acme", "bot") := mkAgent (sixty_four "e") 1 true ["write"] ["target"]]} ∅ ∅.
Definition ex_authority : authority := mkAuthority "acme" ex_directory "k".

Definition ex_config : tenant_config :=
  mkTenantConfig "acme" "store" default_registry {["write" := PFloat (FFin 9)]}
    {["target" := mkEntry "mcp" ["write"] (Some ["bot"]) (inl demo_descriptor)]}
    {["target" := demo_descriptor]} [] ∅ false.

Definition ex_principal : Principal :=
  agent_principal "k" "acme" "bot" (Authority.mkTenant 1 true) (mkAgent (sixty_four "e") 1 true ["write"] ["target"])
    None (fl 300) "" "".

Definition ex_wire : json :=
  JObj [("method", JStr "tools/call"); ("params", JObj [("name", JStr "write"); ("arguments", JObj [("value", JStr "v")])])].

Definition ex_submission : TaskSubmission :=
  mkSubmission "task-1" "ctx" "mcp" "mcp" ex_wire "operation-000001" "target".

Definition ex_provenance : provenance :=
  mkProvenance "enrolled-tenant-request-v2" (binding ex_principal) (fl 300) (submission_text ex_submission)
    (sixty_four "d") "1000:0123456789abcdef" (sixty_four "e") "write" (FFin 9) (sixty_four "d") false.

Definition ex_owner : string := match StreamLeases.binding_owner ex_principal with Ok o => o | Raise _ => "" end.

Definition ex_budget : Budget := mkBudget (FFin 90) 5 (FFin 60) fzero [] [].

Definition ex_gov : gov :=
  mkGov {["bot" := mkIdRow (sixty_four "e") false]} (Manager.mkManager {["bot" := Budget.state ex_budget]} ∅) []
    (AuditLog.Sql.mkDb [] None) (mkLedger ∅ ∅ ∅)
    (mkQuota (Some (mkPolicyRow 1 (Some (mkLimits true (PFloat (FFin 90)) (PFloat (FFin 50)) 5 5 60 2 1 3)))) ∅).

Definition ex_tenant0 : tenant_db :=
  QueuedStore.mkTenant ex_gov (TaskLifecycle.start 2 4 true true None (mkTasks ∅ ∅ (mkPolicy None None) (mkPolicy None None))).2
    (start_intents true (mkIntents ∅ None None)).2 ∅ (mkExec ∅ ∅ ∅).

Definition ex_audit (_ : string) : M tenant_db unit := mret tt.

Definition ex_accept := accept 2 ex_owner ex_submission ex_provenance ex_audit (FFin 1001) ex_tenant0.
Definition ex_tenant1 : tenant_db := Eval vm_compute in ex_accept.2.
Definition ex_drawn (t : Z) : drawn := mkDrawn (FFin t) (fun _ => mkDatetime 0 12) "tok-1" "ap" "t0" demo_ids.
Definition ex_parse (_ : string) : option float64 := Some (FFin 1000).
Definition ex_admit := admit_queued_intent demo_absolute demo_resolve ex_parse (fun _ => "") (fun _ _ _ _ => "own")
  ex_config ex_authority (mkEnv false None "multi_tenant") (mkEngine false None ∅ None) ex_budget 4
  ex_owner "task-1" (sixty_four "d") (ex_drawn 1002) ex_tenant1.
Definition ex_tenant2 : tenant_db := Eval vm_compute in ex_admit.2.

Lemma ex_accepts : ex_accept.2 = ex_tenant1.
Proof. vm_compute. reflexivity. Qed.
Lemma ex_admits : ex_admit.2 = ex_tenant2.
Proof. vm_compute. reflexivity. Qed.

Definition ex_world0 : world := QueuedDispatch.mkWorld ex_tenant2 demo_q0.

Definition ex_refs : refs := mkRefs ex_owner "task-1" (sixty_four "d") (sixty_four "d").
Definition ex_readings : readings :=
  mkReadings "attempt-1" (FFin 30) (FFin 1003) (FFin 1003) (FFin 1004) (FFin 1004) (FFin 1004) (FFin 1005) (FFin 1005) (FFin 1006) "t1"
    demo_ids (fun _ => mkDatetime 0 12) true.
Definition ex_recovery : recovery := mkRecovery 1 (FFin 1007) "t2".
Definition ex_seal (_ : refs) (sha : string) (_ : demo_outcome) (_ : receipt) (_ : readback) : string := sha.

Definition ex_dispatch : M world task_status :=
  dispatch_once demo_absolute demo_resolve ex_parse (fun _ => "") ex_config ex_authority
    (mkEnv false None "multi_tenant") (mkEngine false None ∅ None) ex_budget 4 demo_descriptor demo_signs demo_signs
    demo_signs ex_seal ex_refs true ex_readings ex_recovery.

Definition ex_world1 : world := (ex_dispatch ex_world0).2.

Definition present {A} (o : option A) : bool := match o with Some _ => true | None => false end.

Lemma present_default {A} (d : A) o : present o = true → o = Some (default d o).
Proof. by destruct o. Qed.

Definition ex_key : string * string * string := ("acme", "bot", "operation-000001").

(** What a finished run looks like: the task succeeded, one effect at the
    destination and its result on record, the operation charged, nothing left
    reserved, the task completed. *)
Definition finished (r : outcome task_status * world) : bool :=
  let w := r.2 in
  bool_decide (ts_state <$> r.1 = Ok "succeeded") &&
  bool_decide (size (q_effects (w_dest w)) = 1%nat) && present (q_effects (w_dest w) !! ex_key) &&
  present (results (td_exec (w_tenant w)) !! (ex_owner, "task-1")) &&
  bool_decide (op_st <$> ops (g_led (td_gov (w_tenant w))) !! ("bot", "operation-000001") = Some succeeded) &&
  bool_decide (r_spent <$> Manager.rows (g_bud (td_gov (w_tenant w))) !! "bot" = Some (Some (FFin 9))) &&
  bool_decide (length (reserved_of "bot" (w_tenant w)) = 0%nat) &&
  bool_decide ((fun x => state (snap x)) <$> snapshots (td_tasks (w_tenant w)) !! (ex_owner, "task-1") = Some COMPLETED).

Lemma finished_present r :
  finished r = true →
  present (q_effects (w_dest r.2) !! ex_key) = true ∧ present (results (td_exec (w_tenant r.2)) !! (ex_owner, "task-1")) = true.
Proof. unfold finished. rewrite !andb_true_iff. tauto. Qed.

(** The call loses its answer; the readback finds the effect, the operation is
    charged and the task completed. *)
Example queued_task_runs : finished (ex_dispatch ex_world0) = true.
Proof. vm_compute. reflexivity. Qed.

(** ** The run among the reachable ones *)

Notation ex_step := (qstep demo_absolute demo_resolve ex_parse (fun _ => "") ex_config ex_authority
  (mkEnv false None "multi_tenant") (mkEngine false None ∅ None) ex_budget 4 demo_descriptor demo_signs demo_signs
  demo_signs ex_seal).

Definition ex_y0 : system := mkSystem ex_tenant2 demo_q0 [] [].

Lemma ex_unused : unused ex_y0.
Proof. split; vm_compute; reflexivity. Qed.

Lemma ex_reached : ∃ cs, rtc ex_step ex_y0 (mkSystem (w_tenant ex_world1) (w_dest ex_world1) [] cs).
Proof. exact (dispatch_steps _ _ _ _ _ _ _ _ _ _ _ _ _ _ _ ex_refs true ex_readings ex_recovery ex_world0 [] []). Qed.

Definition ex_effect : effect := default no_effect (q_effects (w_dest ex_world1) !! ex_key).

Lemma ex_acted : q_effects (w_dest ex_world1) !! ex_key = Some ex_effect.
Proof. exact (present_default _ _ (proj1 (finished_present _ queued_task_runs))). Qed.

Lemma queued_effect_needs_attempt_witness :
  ∃ task, decision_at task (Attempt (z_attempt (e_authorization ex_effect)) (e_authorization ex_effect) demo_descriptor)
    (w_tenant ex_world1).
Proof.
  destruct ex_reached as [cs Hr].
  destruct (queued_effect_needs_attempt _ _ _ _ _ _ _ _ _ _ _ _ _ _ _ demo_normal _ _ ex_key ex_effect ex_unused Hr ex_acted)
    as (_ & task & Ht & _).
  exists task. exact Ht.
Defined.

Definition no_row : history_row := mkHistory "" "" "" "" "" "".
Definition ex_result : history_row := default no_row (results (td_exec (w_tenant ex_world1)) !! (ex_owner, "task-1")).

Lemma ex_recorded : results (td_exec (w_tenant ex_world1)) !! (ex_owner, "task-1") = Some ex_result.
Proof. exact (present_default _ _ (proj2 (finished_present _ queued_task_runs))). Qed.

Lemma queued_result_is_effect_witness :
  ∃ x, result_record_of (h_record ex_result) = Some x ∧
    carried_out (rr_authorization x) (rr_result x) (rr_receipt x) (w_dest ex_world1).
Proof.
  destruct ex_reached as [cs Hr].
  destruct (queued_result_is_effect _ _ _ _ _ _ _ _ _ _ _ _ _ _ _ demo_normal _ _ _ ex_result ex_unused Hr ex_recorded)
    as (x & id & Hx & _ & _ & Hc).
  exists x. split; [exact Hx|exact Hc].
Defined.

(** The same task, cancelled before it was dispatched. *)
Definition ex_cancel : outcome task_status * tenant_db :=
  cancel_task ex_config ex_budget 4 ex_refs "not needed" (FFin 1003) "t1" ex_tenant2.
Definition ex_y1 : system := mkSystem ex_cancel.2 demo_q0 [] [].
Definition ex_closed : history_row := default no_row (decisions (td_exec ex_cancel.2) !! (ex_owner, "task-1")).
Definition no_decision : decision_record := mkDecisionRecord (mkBase "" "" "" "" "") (Closed "").
Definition ex_decision : decision_record := default no_decision (decision_of (h_record ex_closed)).

Lemma ex_closed_row : decisions (td_exec ex_cancel.2) !! (ex_owner, "task-1") = Some ex_closed.
Proof. apply present_default. vm_compute. reflexivity. Qed.
Lemma ex_closed_record : decision_of (h_record ex_closed) = Some ex_decision.
Proof. apply present_default. vm_compute. reflexivity. Qed.
Lemma ex_closed_decision : dr_decision ex_decision = Closed "not needed".
Proof. vm_compute. reflexivity. Qed.

Lemma closed_task_never_acts_witness : q_effects demo_q0 !! ("acme", h_agent ex_closed, h_operation ex_closed) = None.
Proof.
  exact (closed_task_never_acts demo_absolute demo_resolve ex_parse (fun _ => "") ex_config ex_authority
    (mkEnv false None "multi_tenant") (mkEngine false None ∅ None) ex_budget 4 demo_descriptor demo_signs demo_signs
    demo_signs ex_seal demo_normal ex_y0 ex_y1 _ ex_closed ex_decision "not needed" ex_unused
    (rtc_once _ _ (q_cancel _ _ _ _ _ _ _ _ _ _ _ _ _ _ _ ex_tenant2 demo_q0 [] [] ex_refs "not needed" (FFin 1003) "t1"))
    ex_closed_row ex_closed_record ex_closed_decision).
Defined.

(** ** Intents *)

Definition ex_accepted : outcome intent_row * tenant_db :=
  accept 2 ex_owner ex_submission ex_provenance (fun _ => zoom (T := gov) (mret tt)) (FFin 1001) ex_tenant0.
Definition no_intent : intent_row := mkIntentRow "" "" "" "" 0.
Definition ex_row : intent_row := match ex_accepted.1 with Ok r => r | Raise _ => no_intent end.

Lemma ex_accepted_Ok : ex_accepted = (Ok ex_row, ex_accepted.2).
Proof.
  assert (match ex_accepted.1 with Ok _ => true | Raise _ => false end = true) as Hok by (vm_compute; reflexivity).
  unfold ex_row. destruct ex_accepted as [[r|x] s']; done.
Qed.

Lemma ex_within : within_limits (td_intents ex_tenant0).
Proof. exists default_intent_limits. split; [reflexivity|]. vm_compute. done. Qed.

Lemma intents_within_limits_witness : within_limits (td_intents ex_accepted.2).
Proof.
  exact (proj1 (intents_within_limits 2 ex_tenant0 ex_accepted.2 ex_within
    (rtc_once _ _ (i_accept 2 ex_tenant0 ex_owner ex_submission ex_provenance (fun _ => mret tt) (FFin 1001))))).
Defined.

Lemma ex_tasks_ok : tasks_ok 2 4 (td_tasks ex_tenant0).
Proof.
  split.
  - intros k r Hk. vm_compute in Hk. done.
  - intros k [l Hl]. vm_compute in Hl. done.
  - intros cap Hc. vm_compute in Hc. injection Hc as <-. vm_compute. done.
  - intros cap Hc. vm_compute in Hc. injection Hc as <-. vm_compute. done.
  - intros o. unfold active. vm_compute. done.
Qed.

Lemma ex_vouched : vouched "acme" ex_owner "bot" ex_submission ex_provenance (FFin 1001).
Proof. split; try split; vm_compute; reflexivity. Qed.

Lemma accepted_intent_loads_witness :
  load_for_execution "acme" ex_owner "task-1" (i_fingerprint ex_row) ex_accepted.2 =
    (Ok (stored_of ex_owner "task-1" ex_row), ex_accepted.2).
Proof.
  exact (accepted_intent_loads "acme" 2 4 ex_owner "bot" ex_submission ex_provenance (fun _ => mret tt) (FFin 1001)
    ex_tenant0 ex_row ex_accepted.2 (fun _ => eq_refl) ex_tasks_ok ex_vouched ex_accepted_Ok).
Defined.
