(* ===== verification/Text.v ===== *)
(** * Text: splitting and decimal numerals *)

From stdpp Require Import base list strings pretty.
From Stdlib Require Import ZArith Lia Ascii.
From S2P Require Import Prelude.

#[local] Open Scope Z_scope.

(** [s.split(c)]: the first piece and the rest; [s.replace(c, c')]. *)
Fixpoint split_on (c : ascii) (s : string) : string * list string :=
  match s with
  | EmptyString => (EmptyString, [])
  | String a s =>
      let '(w, ws) := split_on c s in
      if Ascii.eqb a c then (EmptyString, w :: ws) else (String a w, ws)
  end.

Definition pieces (c : ascii) (s : string) : list string := let '(w, ws) := split_on c s in w :: ws.

Fixpoint replace_char (c c' : ascii) (s : string) : string :=
  match s with
  | EmptyString => EmptyString
  | String a s => String (if Ascii.eqb a c then c' else a) (replace_char c c' s)
  end.

(** Decimal digits: [s.isascii() and s.isdigit()], and [int(s)]. *)
Definition digit_value (c : ascii) : option Z :=
  let n := Z.of_nat (nat_of_ascii c) in if (48 <=? n) && (n <=? 57) then Some (n - 48) else None.

Fixpoint read_digits (acc : Z) (s : string) : option Z :=
  match s with
  | EmptyString => Some acc
  | String c s => d ← digit_value c; read_digits (10 * acc + d) s
  end.

Definition read_decimal (s : string) : option Z := match s with EmptyString => None | _ => read_digits 0 s end.

(** ** Lemmas *)

Fixpoint lacks (c : ascii) (s : string) : bool :=
  match s with EmptyString => true | String a s => negb (Ascii.eqb a c) && lacks c s end.

Lemma split_on_lacks c s : lacks c s = true → split_on c s = (s, []).
Proof.
  induction s as [|a s IH]; simpl; [done|]. intros [Ha%negb_true_iff Hs]%andb_true_iff. by rewrite (IH Hs), Ha.
Qed.

Lemma split_on_app c s t : lacks c s = true → split_on c (s +:+ String c t) = (s, pieces c t).
Proof.
  unfold pieces. induction s as [|a s IH]; simpl.
  - intros _. destruct (split_on c t). by rewrite Ascii.eqb_refl.
  - intros [Ha%negb_true_iff Hs]%andb_true_iff. rewrite (IH Hs), Ha. by destruct (split_on c t).
Qed.

Lemma pieces_lacks c s : lacks c s = true → pieces c s = [s].
Proof. intros Hs. unfold pieces. by rewrite split_on_lacks. Qed.

Lemma pieces_app c s t : lacks c s = true → pieces c (s +:+ String c t) = s :: pieces c t.
Proof. intros Hs. unfold pieces at 1. by rewrite split_on_app. Qed.

Lemma digit_char (x : N) : (x < 10)%N → digit_value (pretty_N_char x) = Some (Z.of_N x).
Proof. intros Hx. repeat (destruct x as [|x]; try done; repeat (destruct x as [x|x|]; try done)). Qed.

Lemma read_pretty_go (x : N) s : read_digits 0 (pretty_N_go x s) = read_digits (Z.of_N x) s.
Proof.
  revert s. induction (N.lt_wf_0 x) as [x _ IH]. intros s.
  destruct (decide (0 < x)%N) as [Hx|Hx].
  - rewrite pretty_N_go_step by done. rewrite IH by (apply N.div_lt; lia). simpl.
    rewrite digit_char by (by apply N.mod_lt). simpl. f_equal.
    pose proof (N.div_mod x 10). lia.
  - assert (x = 0)%N as -> by lia. done.
Qed.

Lemma pretty_N_nonempty (x : N) s : (0 < x)%N → pretty_N_go x s ≠ "".
Proof.
  revert s. induction (N.lt_wf_0 x) as [x _ IH]. intros s Hx. rewrite pretty_N_go_step by done.
  destruct (N.eq_0_gt_0_cases (x `div` 10)) as [->|Hd]; [by rewrite pretty_N_go_0|].
  apply IH; [apply N.div_lt; lia|done].
Qed.

Lemma pretty_nonneg (n : Z) : 0 < n → pretty n = pretty_N_go (Z.to_N n) "".
Proof. intros Hn. destruct n as [|p|]; try lia. unfold pretty, pretty_Z, pretty, pretty_positive. simpl. unfold pretty, pretty_N. by rewrite decide_False. Qed.

(** [int(str(n)) = n]. *)
Lemma read_pretty (n : Z) : 0 <= n → read_decimal (pretty n) = Some n.
Proof.
  intros Hn. destruct (decide (n = 0)) as [->|Hz]; [done|].
  rewrite pretty_nonneg by lia. pose proof (pretty_N_nonempty (Z.to_N n) "" ltac:(lia)) as Hne.
  unfold read_decimal. destruct (pretty_N_go (Z.to_N n) "") eqn:Hp; [done|]. rewrite <- Hp, read_pretty_go.
  simpl. f_equal. lia.
Qed.

Fixpoint all_digits (s : string) : bool :=
  match s with EmptyString => true | String c s => bool_decide (is_Some (digit_value c)) && all_digits s end.

Lemma read_digits_all acc s z : read_digits acc s = Some z → all_digits s = true.
Proof.
  revert acc. induction s as [|c s IH]; intros acc; simpl; [done|].
  destruct (digit_value c) eqn:Hc; simpl; [|done]. intros Hs. rewrite (IH _ Hs).
  done.
Qed.

Lemma digits_lack c s : digit_value c = None → all_digits s = true → lacks c s = true.
Proof.
  intros Hc. induction s as [|a s IH]; simpl; [done|]. intros [[d Hd]%bool_decide_eq_true Hs]%andb_true_iff.
  rewrite (IH Hs), andb_true_r, negb_true_iff. apply Ascii.eqb_neq. intros ->. congruence.
Qed.

(** A decimal numeral below [10^k] has at most [k] digits. *)
Lemma pretty_go_length (k : nat) (x : N) s :
  (x < 10 ^ N.of_nat k)%N → (String.length (pretty_N_go x s) <= k + String.length s)%nat.
Proof.
  revert x s. induction k as [|k IH]; intros x s Hx.
  - assert (x = 0)%N as -> by (simpl in Hx; lia). rewrite pretty_N_go_0. lia.
  - destruct (decide (0 < x)%N) as [Hp|Hp].
    + rewrite pretty_N_go_step by done. etransitivity; [apply IH|simpl; lia].
      apply N.Div0.div_lt_upper_bound. rewrite Nat2N.inj_succ, N.pow_succ_r' in Hx. lia.
    + assert (x = 0)%N as -> by lia. rewrite pretty_N_go_0. lia.
Qed.

Lemma pretty_length (n : Z) (k : nat) : 0 < n < 10 ^ Z.of_nat k → strlen (pretty n) <= Z.of_nat k.
Proof.
  intros Hn. rewrite pretty_nonneg by lia. unfold strlen.
  pose proof (pretty_go_length k (Z.to_N n) "") as Hl. simpl in Hl. rewrite Nat.add_0_r in Hl.
  apply Nat2Z.inj_le, Hl. apply N2Z.inj_lt. rewrite Z2N.id, N2Z.inj_pow, nat_N_Z by lia. simpl. lia.
Qed.

Lemma strlen_app (s t : string) : strlen (s +:+ t) = strlen s + strlen t.
Proof. unfold strlen. induction s as [|c s IH]; [done|]. simpl in *. lia. Qed.
