(* ===== verification/Url.v ===== *)
(** * URLs as [urllib.parse] splits them

    [urlparse] and the attributes of its result, on text of code points below
    256 (where the check of the authority's normal form never fires).  Whether
    the text between brackets is an address is the [ipaddress] module's, and an
    argument. *)

From stdpp Require Import base list strings.
From Stdlib Require Import ZArith Lia Ascii.
From S2P Require Import Prelude Text Authority.

#[local] Open Scope Z_scope.

(** ** Splitting *)

Definition at_sign : ascii := ascii_of_nat 64.
Definition open_bracket : ascii := ascii_of_nat 91.
Definition close_bracket : ascii := ascii_of_nat 93.
Definition colon_char : ascii := ascii_of_nat 58.
Definition slash_char : ascii := ascii_of_nat 47.
Definition question_char : ascii := ascii_of_nat 63.
Definition hash_char : ascii := ascii_of_nat 35.
Definition semicolon_char : ascii := ascii_of_nat 59.
Definition percent_char : ascii := ascii_of_nat 37.
Definition dot_char : ascii := ascii_of_nat 46.
Definition backslash_char : ascii := ascii_of_nat 92.

(** [s.partition(c)]: what precedes the first [c], and what follows it if there
    is one; [s.rpartition(c)], at the last [c]. *)
Fixpoint partition_at (c : ascii) (s : string) : string * option string :=
  match s with
  | EmptyString => (EmptyString, None)
  | String a s =>
      if Ascii.eqb a c then (EmptyString, Some s)
      else let '(x, y) := partition_at c s in (String a x, y)
  end.

Fixpoint rpartition_at (c : ascii) (s : string) : option string * string :=
  match s with
  | EmptyString => (None, EmptyString)
  | String a s =>
      match rpartition_at c s with
      | (Some b, t) => (Some (String a b), t)
      | (None, t) => if Ascii.eqb a c then (Some EmptyString, t) else (None, String a t)
      end
  end.

Definition has (c : ascii) (s : string) : bool := negb (lacks c s).

Fixpoint remove_chars (f : ascii → bool) (s : string) : string :=
  match s with EmptyString => EmptyString | String a s => if f a then remove_chars f s else String a (remove_chars f s) end.

Fixpoint drop_leading (f : ascii → bool) (s : string) : string :=
  match s with EmptyString => EmptyString | String a t => if f a then drop_leading f t else s end.

(** The longest prefix without a character of [f], and the rest. *)
Fixpoint break_on (f : ascii → bool) (s : string) : string * string :=
  match s with
  | EmptyString => (EmptyString, EmptyString)
  | String a t => if f a then (EmptyString, s) else let '(x, y) := break_on f t in (String a x, y)
  end.

Definition ends_with (suffix s : string) : bool := String.prefix (str_rev suffix "") (str_rev s "").

Definition is_ascii (s : string) : bool := str_forallb (fun c => code c <? 128) s.

(** ** [urlparse] *)

Record url := mkUrl { u_scheme : string; u_netloc : string; u_path : string; u_params : string; u_query : string; u_fragment : string }.

Definition is_alpha (c : ascii) : bool := ((65 <=? code c) && (code c <=? 90)) || ((97 <=? code c) && (code c <=? 122)).
Definition is_decimal (c : ascii) : bool := (48 <=? code c) && (code c <=? 57).
Definition scheme_char (c : ascii) : bool :=
  is_alpha c || is_decimal c || bool_decide (code c ∈ [43; 45; 46]).

Definition uses_params : list string :=
  [""; "ftp"; "hdl"; "prospero"; "http"; "https"; "shttp"; "rtsp"; "rtsps"; "sip"; "sips"; "mms"; "sftp"; "tel"].

Definition split_scheme (s : string) : string * string :=
  match partition_at colon_char s with
  | (String a w, Some rest) =>
      if is_alpha a && str_forallb scheme_char (String a w) then (str_lower (String a w), rest) else ("", s)
  | _ => ("", s)
  end.

Definition split_netloc (s : string) : option string * string :=
  match s with
  | String a (String b t) =>
      if Ascii.eqb a slash_char && Ascii.eqb b slash_char
      then let '(n, r) := break_on (fun c => Ascii.eqb c slash_char || Ascii.eqb c question_char || Ascii.eqb c hash_char) t in (Some n, r)
      else (None, s)
  | _ => (None, s)
  end.

(** [_splitparams]: the first [;] after the last [/]. *)
Definition split_params (s : string) : string * string :=
  match rpartition_at slash_char s with
  | (Some b, t) =>
      match partition_at semicolon_char t with
      | (x, Some y) => (b +:+ String slash_char x, y)
      | (_, None) => (s, "")
      end
  | (None, t) => match partition_at semicolon_char t with (x, Some y) => (x, y) | (_, None) => (s, "") end
  end.

Section urls.
(** [_check_bracketed_host] accepts the text between brackets. *)
Context (bracketed_ok : string → bool).

Definition bracketed_host (netloc : string) : string :=
  (partition_at close_bracket (default "" (partition_at open_bracket (rpartition_at at_sign netloc).2).2)).1.

Definition netloc_ok (netloc : string) : bool :=
  match has open_bracket netloc, has close_bracket netloc with
  | false, false => true
  | true, true => bracketed_ok (bracketed_host netloc)
  | _, _ => false
  end.

Definition urlparse (address : string) : outcome url :=
  let s := drop_leading (fun c => code c <=? 32) address in
  let s := remove_chars (fun c => bool_decide (code c ∈ [9; 10; 13])) s in
  let '(scheme, s) := split_scheme s in
  let '(netloc, s) := split_netloc s in
  let netloc := default "" netloc in
  if negb (netloc_ok netloc) then Raise (ValueError "Invalid IPv6 URL")
  else
    let '(s, fragment) := partition_at hash_char s in
    let '(s, query) := partition_at question_char s in
    let '(path, params) := if bool_decide (scheme ∈ uses_params) then split_params s else (s, "") in
    Ok (mkUrl scheme netloc path params (default "" query) (default "" fragment)).
End urls.

(** ** Attributes *)

(** [_hostinfo] and [_userinfo]. *)
Definition host_info (u : url) : string * option string :=
  let hostinfo := (rpartition_at at_sign (u_netloc u)).2 in
  let '(host, port) :=
    match partition_at open_bracket hostinfo with
    | (_, Some bracketed) => let '(h, rest) := partition_at close_bracket bracketed in (h, (partition_at colon_char (default "" rest)).2)
    | (_, None) => partition_at colon_char hostinfo
    end in
  (host, match port with Some (String _ _ as p) => Some p | _ => None end).

Definition hostname (u : url) : option string :=
  match (host_info u).1 with
  | EmptyString => None
  | h => match partition_at percent_char h with
         | (x, Some zone) => Some (str_lower x +:+ String percent_char zone)
         | (x, None) => Some (str_lower x)
         end
  end.

Definition port (u : url) : outcome (option Z) :=
  match (host_info u).2 with
  | None => Ok None
  | Some p =>
      match read_decimal p with
      | None => Raise (ValueError "Port could not be cast to integer value")
      | Some n => if n <=? 65535 then Ok (Some n) else Raise (ValueError "Port out of range 0-65535")
      end
  end.

Definition username (u : url) : option string :=
  userinfo ← (rpartition_at at_sign (u_netloc u)).1; Some (partition_at colon_char userinfo).1.

Definition password (u : url) : option string :=
  userinfo ← (rpartition_at at_sign (u_netloc u)).1; (partition_at colon_char userinfo).2.

(** Splitting loses nothing. *)
Lemma partition_at_eq c s : s = match partition_at c s with (x, Some y) => x +:+ String c y | (x, None) => x end.
Proof.
  induction s as [|a s IH]; simpl; [done|]. destruct (Ascii.eqb_spec a c) as [->|]; [done|].
  destruct (partition_at c s) as [x [y|]]; simpl; [|by f_equal]. change (String a s = String a (x +:+ String c y)). by f_equal.
Qed.

Example parsed_https :
  urlparse (fun _ => true) "HTTPS://u:p@Agents.Example:8443/a;b?c#d" =
  Ok (mkUrl "https" "u:p@Agents.Example:8443" "/a" "b" "c" "d").
Proof. vm_compute. reflexivity. Qed.

Example parsed_parts :
  let u := mkUrl "https" "u:p@Agents.Example:8443" "/a" "b" "c" "d" in
  hostname u = Some "agents.example" ∧ port u = Ok (Some 8443) ∧ username u = Some "u" ∧ password u = Some "p".
Proof. split_and!; vm_compute; reflexivity. Qed.
