(* ===== verification/TrustedTargets.v ===== *)
(** * Operator-owned targets and call costs

    [api/trusted_targets.py]: an agent names a target, and what the name stands
    for, whom it admits and what a call costs is the operator's configuration,
    read from the environment as JSON.  The theorem says so: whatever an agent
    sends, an invocation is the operator's record, and in production there is
    none at all. *)

From stdpp Require Import base list gmap strings.
From Stdlib Require Import ZArith Lia Ascii.
From S2P Require Import Prelude PyFloat Text Url Json Budget Authority.

#[local] Open Scope Z_scope.

Definition denied (msg : string) : pyexn := SecurityConfigurationError msg.

(** [validate_cost], on a number and on a JSON value. *)
Definition validate_cost (v : pynum) : outcome float64 :=
  match v with
  | PBool _ => Raise (denied "cost cannot be boolean")
  | _ =>
    match to_float v with
    | None => Raise (denied "cost must be a finite, nonnegative number")
    | Some f => if negb (fisfinite f) || fltb f fzero
                then Raise (denied "cost must be a finite, nonnegative number") else Ok f
    end
  end.

Section targets.
Context `{JsonText}.
(** [float(s)], [ipaddress.ip_address] of a host, and of one in brackets. *)
Context (parse_float : string → option float64) (ip_literal bracketed_ok : string → bool).

(** A JSON value as an argument of [float]. *)
Definition number_of (j : json) : pynum :=
  match j with
  | JBool b => PBool b
  | JInt n => PInt n
  | JFloat f => PFloat f
  | JStr s => PStr (parse_float s)
  | _ => POther
  end.

(** [os.environ]. *)
Notation environ := (string → option string).

Definition production (env : environ) : bool :=
  bool_decide (str_lower (default "" (env "AGENTBRIDGE_ENV")) ∈ ["prod"; "production"]).

Definition object_of (value : option string) (label : string) : outcome (list (string * json)) :=
  match value with
  | None | Some EmptyString => Ok []
  | Some text =>
      match json_loads text with
      | Ok (JObj m) => Ok m
      | Ok _ => Raise (denied (label +:+ " must be a JSON object"))
      | Raise (TypeError _) => Raise (denied (label +:+ " must be valid JSON"))
      | Raise e => Raise (if is_value_error e then denied (label +:+ " must be valid JSON") else e)
      end
  end.

Definition effective_call_cost (value : json) (capab : string) (env : environ) : outcome float64 :=
  requested ← validate_cost (number_of value);
  if negb (production env) then Ok requested
  else
    schedule ← object_of (env "AGENTBRIDGE_COST_SCHEDULE_JSON") "AGENTBRIDGE_COST_SCHEDULE_JSON";
    match dict_get capab schedule with
    | None => Raise (denied "production cost policy missing for capability")
    | Some v => validate_cost (number_of v)
    end.

Definition qualified_invocation (inv : list (string * json)) (env : environ) : outcome (list (string * json)) :=
  if production env
  then Raise (denied "production target execution requires destination-atomic authorization and fencing; generic transports are unqualified")
  else Ok inv.

(** A nonempty list of nonempty strings. *)
Definition allow_list (j : json) : option (list string) :=
  match j with
  | JArr ((_ :: _) as l) => mapM (fun x => match x with JStr (String _ _ as s) => Some s | _ => None end) l
  | _ => None
  end.

Definition target_record (target_id : json) (protocol capab : string) (env : environ) (ag : option string)
  : outcome (list (string * json)) :=
  match target_id with
  | JStr t =>
      if bool_decide (strip t = "") then Raise (denied "target_id must be a nonempty string")
      else
        targets ← object_of (env "AGENTBRIDGE_TARGETS_JSON") "AGENTBRIDGE_TARGETS_JSON";
        match dict_get t targets with
        | Some (JObj record) =>
            _ ← guard_or (is_text protocol (obj_get "protocol" JNull record)) (denied "destination protocol mismatch");
            match allow_list (obj_get "capabilities" JNull record) with
            | None => Raise (denied "target requires a nonempty capability allowlist")
            | Some caps =>
                _ ← guard_or (bool_decide (capab ∈ caps)) (denied "capability not authorized for target");
                if negb (production env) then Ok record
                else match allow_list (obj_get "allowed_agents" JNull record) with
                | None => Raise (denied "production target requires allowed_agents")
                | Some agents =>
                    _ ← guard_or (match ag with Some (String _ _ as a) => bool_decide (a ∈ agents) | _ => false end)
                                 (denied "agent not authorized for target");
                    Ok record
                end
            end
        | _ => Raise (denied "target_id not registered by operator")
        end
  | _ => Raise (denied "target_id must be a nonempty string")
  end.

Definition as_denied {A} (o : outcome A) (msg : string) : outcome A :=
  match o with Raise e => Raise (if is_value_error e then denied msg else e) | Ok a => Ok a end.

Definition unsafe_char (c : ascii) : bool := bool_decide (code c ∈ [92; 13; 10; 9]).

(** The checks on a production URL before the proxy's. *)
Definition unambiguous (address : string) (u : url) (host : string) (p : option Z) : bool :=
  negb (bool_decide (u_netloc u = "")) && str_forallb (fun c => negb (unsafe_char c)) address &&
  negb (has percent_char (u_netloc u)) && bool_decide (u_query u = "") && bool_decide (u_params u = "") &&
  negb ((match p with None | Some 0 => true | _ => false end) && has colon_char (u_netloc u)) &&
  negb (ends_with "." host) && is_ascii host.

Definition falsy (o : option string) : bool := match o with None | Some EmptyString => true | _ => false end.

Definition proxy_ok (text : string) (u : url) : bool :=
  bool_decide (u_scheme u ∈ ["http"; "https"]) && bool_decide (is_Some (hostname u)) &&
  falsy (username u) && falsy (password u) && bool_decide (u_path u ∈ [""; "/"]) &&
  bool_decide (u_query u = "") && bool_decide (u_fragment u = "") && negb (has percent_char (u_netloc u)) &&
  str_forallb (fun c => negb (unsafe_char c)) text.

(** [u.hostname.lower().rstrip(".")]. *)
Definition bare_host (host : string) : string :=
  str_rev (drop_leading (fun c => Ascii.eqb c dot_char) (str_rev (str_lower host) "")) "".

Definition private_host (host : string) : bool :=
  bool_decide (host ∈ ["localhost"; "localhost.localdomain"]) || negb (has dot_char host) ||
  ends_with ".local" host || ends_with ".internal" host || ends_with ".test" host.

(** What production demands of a URL; the proxy's URL is the value. *)
Definition production_url (address : string) (u : url) (host : string) (env : environ) : outcome string :=
  _ ← guard_or (bool_decide (u_scheme u = "https")) (denied "production target must use HTTPS");
  p ← as_denied (port u) "invalid destination port";
  _ ← guard_or (unambiguous address u host p) (denied "ambiguous production destination URL");
  match env "AGENTBRIDGE_EGRESS_PROXY_URL" with
  | None | Some EmptyString => Raise (denied "production HTTP requires configured outbound proxy URL")
  | Some text =>
      proxy ← urlparse bracketed_ok text;
      _ ← guard_or (proxy_ok text proxy) (denied "outbound proxy configuration invalid");
      pp ← as_denied (port proxy) "outbound proxy port invalid";
      _ ← guard_or (bool_decide (is_Some pp)) (denied "outbound proxy must specify port");
      _ ← guard_or (negb (ip_literal host)) (denied "literal IP target prohibited");
      _ ← guard_or (negb (private_host (bare_host host))) (denied "private or ambiguous DNS target prohibited");
      Ok text
  end.

Definition stdio_target (record : list (string * json)) (env : environ) : outcome (list (string * json)) :=
  let args := obj_get "args" (JArr []) record in
  match obj_get "command" JNull record, args with
  | JStr command, JArr l =>
      _ ← guard_or (negb (bool_decide (strip command = "")) && forallb (fun x => match x with JStr _ => true | _ => false end) l)
                   (denied "invalid administrator-defined executable or arguments");
      qualified_invocation [("kind", JStr "mcp_stdio"); ("command", JStr command); ("args", args)] env
  | _, _ => Raise (denied "invalid administrator-defined executable or arguments")
  end.

Definition http_target (kind : string) (record : list (string * json)) (env : environ) : outcome (list (string * json)) :=
  match obj_get "base_url" JNull record with
  | JStr address =>
      u ← urlparse bracketed_ok address;
      match hostname u with
      | Some host =>
          _ ← guard_or (bool_decide (u_scheme u ∈ ["http"; "https"]) && bool_decide (username u = None) &&
                        bool_decide (password u = None) && bool_decide (u_fragment u = ""))
                       (denied "target must be an absolute HTTP(S) URL without userinfo/fragment");
          proxy ← (if production env then (fun p => [("proxy_url", JStr p)]) <$> production_url address u host env else Ok []);
          name ← (if bool_decide (kind = "acp_http") then
                    match obj_get "agent_name" (JStr "agent") record with
                    | JStr (String _ _ as n) => Ok [("agent_name", JStr n)]
                    | _ => Raise (denied "invalid agent_name")
                    end
                  else Ok []);
          qualified_invocation ([("kind", JStr kind); ("base_url", JStr address)] ++ proxy ++ name) env
      | None => Raise (denied "target must be an absolute HTTP(S) URL without userinfo/fragment")
      end
  | _ => Raise (denied "target HTTP URL missing")
  end.

Definition transports : list (string * string) := [("mcp", "mcp_stdio"); ("a2a", "a2a_http"); ("acp", "acp_http")].

Definition resolve_target (target_id : json) (protocol capab : string) (env : environ) (ag : option string)
  : outcome (option (list (string * json))) :=
  match target_id with
  | JNull => Ok None
  | _ =>
      record ← target_record target_id protocol capab env ag;
      match obj_get "kind" JNull record with
      | JStr kind =>
          _ ← guard_or (bool_decide ((protocol, kind) ∈ transports)) (denied "unsupported target protocol/transport pair");
          Some <$> (if bool_decide (kind = "mcp_stdio") then stdio_target record env else http_target kind record env)
      | JArr _ | JObj _ => Raise (TypeError "unhashable type")
      | _ => Raise (denied "unsupported target protocol/transport pair")
      end
  end.

(** ** What an agent can make of a target *)

(** The members an invocation takes from the operator's record. *)
Definition member_of (record : list (string * json)) (k : string) : json :=
  obj_get k (if bool_decide (k = "args") then JArr [] else JStr "agent") record.

Definition operator_record (env : environ) (t protocol capab : string) (record : list (string * json)) : Prop :=
  ∃ targets caps,
    object_of (env "AGENTBRIDGE_TARGETS_JSON") "AGENTBRIDGE_TARGETS_JSON" = Ok targets ∧
    dict_get t targets = Some (JObj record) ∧ obj_get "protocol" JNull record = JStr protocol ∧
    allow_list (obj_get "capabilities" JNull record) = Some caps ∧ capab ∈ caps.

Lemma is_text_eq s j : is_text s j = true → j = JStr s.
Proof. destruct j; simpl; try done. by intros ->%bool_decide_eq_true. Qed.

Lemma target_record_Ok target_id protocol capab env ag record :
  target_record target_id protocol capab env ag = Ok record →
  ∃ t, target_id = JStr t ∧ operator_record env t protocol capab record.
Proof.
  destruct target_id as [| | | |t| |]; simpl; try done. case_bool_decide; [done|].
  destruct (object_of _ _) as [targets|] eqn:Ho; simpl; [|done].
  destruct (dict_get t targets) as [[| | | | | |r]|] eqn:Hg; try done.
  destruct (is_text _ _) eqn:Hp; simpl; [|done]. apply is_text_eq in Hp.
  destruct (allow_list _) as [caps|] eqn:Hc; simpl; [|done].
  case_bool_decide; simpl; [|done]. intros Hr. exists t. split; [done|].
  assert (record = r) as ->.
  { destruct (production env); simpl in Hr; [|by injection Hr].
    destruct (allow_list (obj_get "allowed_agents" _ _)); [|done].
    destruct (guard_or _ _); simpl in Hr; [by injection Hr|done]. }
  by exists targets, caps.
Qed.

Lemma qualified_Ok inv env r : qualified_invocation inv env = Ok r → production env = false ∧ r = inv.
Proof. unfold qualified_invocation. destruct (production env); [done|]. by intros [= ->]. Qed.

Lemma stdio_target_Ok record env inv :
  obj_get "kind" JNull record = JStr "mcp_stdio" → stdio_target record env = Ok inv →
  production env = false ∧ ∀ k v, (k, v) ∈ inv → member_of record k = v.
Proof.
  intros Hk. unfold stdio_target.
  destruct (obj_get "command" JNull record) as [| | | |command| |] eqn:Hc; try done.
  destruct (obj_get "args" (JArr []) record) as [| | | | |l|] eqn:Ha; try done.
  destruct (guard_or _ _); simpl; [|done]. intros [Hp ->]%qualified_Ok. split; [done|].
  intros k v Hin. rewrite !list_elem_of_In in Hin. simpl in Hin. unfold member_of.
  destruct Hin as [[= <- <-]|[[= <- <-]|[[= <- <-]|[]]]]; simpl.
  - unfold obj_get in *. destruct (dict_get "kind" record); [done|discriminate Hk].
  - unfold obj_get in *. destruct (dict_get "command" record); [done|discriminate Hc].
  - exact Ha.
Qed.

Lemma http_target_Ok kind record env inv :
  obj_get "kind" JNull record = JStr kind → http_target kind record env = Ok inv →
  production env = false ∧ ∀ k v, (k, v) ∈ inv → member_of record k = v.
Proof.
  intros Hk. unfold http_target.
  destruct (obj_get "base_url" JNull record) as [| | | |address| |] eqn:Hb; try done.
  destruct (urlparse _ _) as [u|]; simpl; [|done]. destruct (hostname u) as [host|]; [|done].
  destruct (guard_or _ _); simpl; [|done].
  destruct (if production env then _ else _) as [proxy|] eqn:Hx; simpl; [|done].
  destruct (if bool_decide (kind = "acp_http") then _ else _) as [name|] eqn:Hn; simpl; [|done].
  intros [Hp ->]%qualified_Ok. split; [done|]. rewrite Hp in Hx. injection Hx as <-.
  intros k v Hin. simpl in Hin. rewrite !elem_of_cons in Hin. unfold member_of.
  destruct Hin as [[= -> ->]|[[= -> ->]|Hin]]; simpl.
  - unfold obj_get in *. destruct (dict_get "kind" record); [done|discriminate Hk].
  - unfold obj_get in *. destruct (dict_get "base_url" record); [done|discriminate Hb].
  - case_bool_decide; [|injection Hn as <-; by apply elem_of_nil in Hin].
    destruct (obj_get "agent_name" _ record) as [| | | |[|ch n]| |] eqn:Ha; try done.
    injection Hn as <-. apply list_elem_of_singleton in Hin as [= -> ->]. exact Ha.
Qed.

Lemma named_target target_id protocol capab env ag :
  target_id ≠ JNull →
  resolve_target target_id protocol capab env ag =
  (record ← target_record target_id protocol capab env ag;
   match obj_get "kind" JNull record with
   | JStr kind =>
       _ ← guard_or (bool_decide ((protocol, kind) ∈ transports)) (denied "unsupported target protocol/transport pair");
       Some <$> (if bool_decide (kind = "mcp_stdio") then stdio_target record env else http_target kind record env)
   | JArr _ | JObj _ => Raise (TypeError "unhashable type")
   | _ => Raise (denied "unsupported target protocol/transport pair")
   end).
Proof. by destruct target_id. Qed.

(** Targets are the operator's.  Whatever an agent names and sends, what is
    resolved is nothing at all (no target named), or the invocation of the record
    that the operator's configuration holds under exactly that name, for that
    protocol and a capability the record lists, every member of it taken from
    the record; and in production a named target is never resolved. *)
Theorem target_operator_owned target_id protocol capab env ag o :
  resolve_target target_id protocol capab env ag = Ok o →
  match o with
  | None => target_id = JNull
  | Some inv => production env = false ∧ ∃ t record, target_id = JStr t ∧ operator_record env t protocol capab record ∧
                  ∀ k v, (k, v) ∈ inv → member_of record k = v
  end.
Proof.
  intros Hr. assert (target_id = JNull ∧ o = None ∨
    ∃ record kind inv, target_record target_id protocol capab env ag = Ok record ∧ obj_get "kind" JNull record = JStr kind ∧ o = Some inv ∧
      (if bool_decide (kind = "mcp_stdio") then stdio_target record env else http_target kind record env) = Ok inv) as Hcase.
  { assert (target_id = JNull ∨ target_id ≠ JNull) as [->|Hne] by (destruct target_id; auto); [left; simpl in Hr; by injection Hr as <-|right]. rewrite named_target in Hr by done.
    apply outcome_bind_Ok in Hr as (record & Ht & Hr). exists record.
    destruct (obj_get "kind" JNull record) as [| | | |kind| |] eqn:Hk; try done.
    apply outcome_bind_Ok in Hr as (_ & _ & Hr). destruct (if bool_decide _ then _ else _) as [inv|] eqn:Hi; [|done].
    injection Hr as <-. by exists kind, inv. }
  destruct Hcase as [[-> ->]|(record & kind & inv & (t & -> & Ho)%target_record_Ok & Hk & -> & Hi)]; [done|].
  assert (production env = false ∧ ∀ k v, (k, v) ∈ inv → member_of record k = v) as [Hp Hm].
  { case_bool_decide as Hs; [subst kind; by eapply stdio_target_Ok|by eapply http_target_Ok]. }
  split; [done|]. by exists t, record.
Qed.

Lemma validate_cost_Ok v f : validate_cost v = Ok f → ∃ z, f = FFin z ∧ 0 ≤ z.
Proof.
  intros H1. apply (checked_cost_Ok v). revert H1. unfold validate_cost, checked_cost.
  destruct v; try done; (destruct (to_float _); [|done]); by case_match.
Qed.

(** Where the cost of a call comes from. *)
Lemma effective_cost_source value capab env c :
  effective_call_cost value capab env = Ok c →
  if production env then
    ∃ schedule v,
      object_of (env "AGENTBRIDGE_COST_SCHEDULE_JSON") "AGENTBRIDGE_COST_SCHEDULE_JSON" = Ok schedule ∧
      dict_get capab schedule = Some v ∧ validate_cost (number_of v) = Ok c
  else validate_cost (number_of value) = Ok c.
Proof.
  unfold effective_call_cost. destruct (validate_cost (number_of value)) as [r|] eqn:Hv; simpl; [|done].
  destruct (production env); simpl; [|by intros [= <-]].
  destruct (object_of _ _) as [schedule|]; simpl; [|done]. destruct (dict_get capab schedule) as [v|] eqn:Hd; [|done].
  intros Hc. by exists schedule, v.
Qed.

Lemma effective_cost_Ok value capab env c : effective_call_cost value capab env = Ok c → ∃ z, c = FFin z ∧ 0 ≤ z.
Proof.
  unfold effective_call_cost. destruct (validate_cost (number_of value)) as [r|] eqn:Hv; simpl; [|done].
  destruct (negb _); [intros [= <-]; by eapply validate_cost_Ok|].
  destruct (object_of _ _); simpl; [|done]. destruct (dict_get _ _); [|done]. apply validate_cost_Ok.
Qed.
End targets.

(** ** An operator's configuration, by evaluation *)

Definition demo_targets : json :=
  JObj [("files", JObj [("protocol", JStr "acp"); ("kind", JStr "acp_http"); ("capabilities", JArr [JStr "read"]);
                        ("base_url", JStr "https://agents.example/run")])].

Definition demo_environ (k : string) : option string :=
  if bool_decide (k = "AGENTBRIDGE_TARGETS_JSON") then Some (json_dumps demo_targets) else None.

Definition demo_invocation : list (string * json) :=
  [("kind", JStr "acp_http"); ("base_url", JStr "https://agents.example/run"); ("agent_name", JStr "agent")].

Lemma demo_resolved :
  resolve_target (fun _ => false) (fun _ => false) (JStr "files") "acp" "read" demo_environ (Some "bot") =
  Ok (Some demo_invocation).
Proof. vm_compute. reflexivity. Qed.

Lemma target_operator_owned_witness :
  production demo_environ = false ∧ ∃ t record, JStr "files" = JStr t ∧ operator_record demo_environ t "acp" "read" record ∧
    ∀ k v, (k, v) ∈ demo_invocation → member_of record k = v.
Proof.
  exact (target_operator_owned (fun _ => false) (fun _ => false) (JStr "files") "acp" "read" demo_environ (Some "bot")
           (Some demo_invocation) demo_resolved).
Defined.
