(* ===== verification/TenantKernel.v ===== *)
(** * Tenant stores, kernel and sessions

    [governance/tenant_store.py] (the registry of tenant namespaces) and
    [governance/tenant_kernel.py] (the operator's configuration and the sessions
    of authenticated principals).  The authority directory is one database and
    each tenant's store another: a session method holds the directory's guard,
    so a method that raises rolls back what it wrote to the directory, while
    writes of the tenant's store are undone only inside [sql_atomic].  The kernel
    checks that runtime and store are the same object; here there is one value
    per tenant.  PostgreSQL's login and catalogue checks, table guards against
    legacy connections and the deadline of [route] are not modelled. *)

From stdpp Require Import base list gmap strings.
From Stdlib Require Import ZArith Lia.
From S2P Require Import Prelude PyFloat TrustedTargets Controls Json Identity Authority Budget AuditLog Approvals PolicyRules DurablePolicy OperationLedger Quotas Policy Protocols Gateway RetainedCapacity AuditTrust StreamLeases TaskLifecycle TaskIntents QueuedDestination QueuedStore QueuedPreparation.

#[local] Open Scope Z_scope.

(** ** Namespaces *)

Inductive namespace :=
| NsSqlite (dev ino : Z)
| NsPostgres (addr : option string) (port : option Z) (db schema : string).

#[global] Instance namespace_eq_dec : EqDecision namespace.
Proof. solve_decision. Defined.

(** The single row of [tenant_store_binding]. *)
Record binding_row := mkBindingRow { bi_tenant : string; bi_store : string; bi_version : Z }.

#[global] Instance binding_row_eq_dec : EqDecision binding_row.
Proof. solve_decision. Defined.

(** An open tenant store: what it was opened for, the [store_id] it found, and
    the schemas of the cluster its role may use. *)
Record store_handle := mkHandle {
  sh_tenant : string;
  sh_store : string;
  sh_namespace : namespace;
  sh_usable : list string;
}.

(** [_initialize_scope]: bind an empty file to the tenant, or find it bound;
    [populated] says that an unbound file has rows, [fresh] is the drawn id. *)
Definition initialize_scope (tenant fresh : string) (populated : bool) : M (option binding_row) string :=
  _ ← lift (Authority.identifier tenant "tenant_id");
  atomic (
    b ← get;
    _ ← match b with
        | Some _ => mret tt
        | None =>
            _ ← ensure (negb populated)
                  (AuthorityDenied "unassigned legacy rows require verified backup and explicit migration");
            put (Some (mkBindingRow tenant fresh 1))
        end;
    b ← get;
    match b with
    | Some r =>
        _ ← ensure (bool_decide (bi_tenant r = tenant) && (bi_version r =? 1))
              (AuthorityDenied "SQLite namespace is bound to different or unsupported authority");
        mret (bi_store r)
    | None => raise (AuthorityDenied "SQLite namespace is bound to different or unsupported authority")
    end).

(** [assert_scope]. *)
Definition assert_scope (h : store_handle) (b : option binding_row) : outcome unit :=
  guard_or (bool_decide (b = Some (mkBindingRow (sh_tenant h) (sh_store h) 1)))
           (AuthorityDenied "tenant storage binding changed").

Definition ns_schema (n : namespace) : option string :=
  match n with NsPostgres _ _ _ s => Some s | NsSqlite _ _ => None end.

(** The schemas a store's role must not be able to use. *)
Definition protected_schemas (auth : namespace) (own : string) (handles : list store_handle) : list string :=
  filter (fun s => s ≠ own) (omap (fun h => ns_schema (sh_namespace h)) handles ++ option_list (ns_schema auth)).

(** [_validate_separation]; [auth] is the directory's own namespace. *)
Fixpoint validate_separation (auth : namespace) (all rest : list store_handle) : outcome unit :=
  match rest with
  | [] => Ok tt
  | h :: rest =>
      _ ← guard_or (negb (bool_decide (sh_namespace h = auth)))
                   (AuthorityDenied "authority and tenant data must not share a namespace");
      _ ← match ns_schema (sh_namespace h) with
          | None => Ok tt
          | Some own =>
              guard_or (forallb (fun s => negb (bool_decide (s ∈ sh_usable h))) (protected_schemas auth own all))
                       (AuthorityDenied "tenant SQL role can access another tenant or authority namespace")
          end;
      validate_separation auth all rest
  end.

(** The loop of [TenantStoreRegistry.__init__]; [bindings] are the stores'
    current binding rows. *)
Fixpoint register_stores (bindings : gmap string binding_row) (stores : list (string * store_handle))
    (namespaces : list namespace) (ids : list string) : outcome unit :=
  match stores with
  | [] => Ok tt
  | (tenant, h) :: stores =>
      _ ← guard_or (bool_decide (sh_tenant h = tenant))
                   (AuthorityDenied "every configured namespace must have an exact tenant binding");
      _ ← assert_scope h (bindings !! tenant);
      _ ← guard_or (negb (bool_decide (sh_namespace h ∈ namespaces) || bool_decide (sh_store h ∈ ids)))
                   (AuthorityDenied "tenant namespaces must not share physical or restored storage");
      register_stores bindings stores (sh_namespace h :: namespaces) (sh_store h :: ids)
  end.

Definition registry_init (auth : namespace) (bindings : gmap string binding_row) (stores : list (string * store_handle))
  : outcome unit :=
  _ ← register_stores bindings stores [] [];
  validate_separation auth stores.*2 stores.*2.

(** ** State *)

Record tenant_state := mkTenantState {
  tn_db : tenant_db;
  tn_rules : list string;            (* [governance_rules] *)
  tn_sensitive : gset string;        (* [sensitive_capabilities] *)
  tn_holds : gmap string bool;
  tn_checkpoints : table Z;
  tn_binding : option binding_row;
}.

Record kernel_state := mkKernel { k_dir : directory; k_tenants : gmap string tenant_state }.

#[global] Program Instance lens_db : Lens tenant_state tenant_db := {
  view := tn_db;
  update x s := mkTenantState x (tn_rules s) (tn_sensitive s) (tn_holds s) (tn_checkpoints s) (tn_binding s) }.
Solve All Obligations with by intros; try destruct s.
#[global] Program Instance lens_rules : Lens tenant_state (list string) := {
  view := tn_rules;
  update x s := mkTenantState (tn_db s) x (tn_sensitive s) (tn_holds s) (tn_checkpoints s) (tn_binding s) }.
Solve All Obligations with by intros; try destruct s.
#[global] Program Instance lens_sensitive : Lens tenant_state (gset string) := {
  view := tn_sensitive;
  update x s := mkTenantState (tn_db s) (tn_rules s) x (tn_holds s) (tn_checkpoints s) (tn_binding s) }.
Solve All Obligations with by intros; try destruct s.
#[global] Program Instance lens_gov_state : Lens tenant_state gov := {
  view s := td_gov (tn_db s);
  update x s := update (update x (tn_db s)) s }.
Next Obligation. by intros ? []. Qed.
Next Obligation. by intros [[] ? ? ? ? ?]. Qed.
Next Obligation. by intros ? ? []. Qed.
#[global] Program Instance lens_trust : Lens tenant_state trust_store := {
  view s := mkTrust (g_aud (td_gov (tn_db s))) (tn_holds s) (tn_checkpoints s);
  update x s := let g := td_gov (tn_db s) in
    mkTenantState (update (mkGov (g_ids g) (g_bud g) (g_apr g) (ts_audit x) (g_led g) (g_quo g)) (tn_db s))
      (tn_rules s) (tn_sensitive s) (ts_holds x) (ts_checkpoints x) (tn_binding s) }.
Next Obligation. by intros [] []. Qed.
Next Obligation. by intros [[[] ? ? ? ?] ? ? ? ? ?]. Qed.
Next Obligation. by intros [] [] []. Qed.
#[global] Program Instance lens_dir : Lens kernel_state directory := {
  view := k_dir;
  update x k := mkKernel x (k_tenants k) }.
Solve All Obligations with by intros; try destruct s.

(** Run on one tenant's store. *)
Definition in_tenant {A} (t : string) (m : M tenant_state A) : M kernel_state A := fun k =>
  match k_tenants k !! t with
  | None => (Raise (KeyError t), k)
  | Some s => let '(r, s') := m s in (r, mkKernel (k_dir k) (<[t := s']> (k_tenants k)))
  end.

(** ** Configuration *)

(** The operator's configuration of one tenant, and of the kernel. *)
Record tenant_setup := mkSetup {
  su_handle : store_handle;
  su_costs : gmap string float64;
  su_targets : gmap string target_entry;
  su_adapters : gmap string descriptor;
}.

Record kernel_config := mkKernelConfig {
  kc_key : string;                   (* the directory's context key *)
  kc_registry : list (string * adapter);
  kc_prod : bool;
  kc_tenants : gmap string tenant_setup;
  kc_budget : Budget;
  kc_max_active : Z;
  kc_max_events : Z;
}.

(** [0.05 <= deadline_seconds <= 120]. *)
Definition deadline_ok (x : pynum) : bool :=
  match x with
  | PInt n => (1 <=? n) && (n <=? 120)
  | PFloat f => fisfinite f && fleb five_hundredths f && fleb f (fl 120)
  | _ => false
  end.

(** Of an adapter only the descriptor is kept; that its optional signing journal
    uses the tenant's own store is not checked here. *)
Definition exact_adapters (stores : gmap string store_handle) (tenant : string) (adapters : gmap string descriptor) : bool :=
  bool_decide (map_Forall (fun target d => is_Some (stores !! tenant) ∧ de_tenant d = tenant ∧ de_target d = target) adapters).

Fixpoint validate_schedule (schedule : list (string * pynum)) : outcome (gmap string float64) :=
  match schedule with
  | [] => Ok ∅
  | (c, v) :: schedule => f ← validate_cost v; s ← validate_schedule schedule; Ok (<[c := f]> s)
  end.

Fixpoint validate_costs (costs : list (string * list (string * pynum))) : outcome (gmap string (gmap string float64)) :=
  match costs with
  | [] => Ok ∅
  | (t, schedule) :: costs => s ← validate_schedule schedule; m ← validate_costs costs; Ok (<[t := s]> m)
  end.

(** [TenantKernel.__init__] up to the validated cost schedules: what follows
    builds the components over each store and refuses nothing. *)
Definition kernel_init (prod : bool) (deadline : pynum) (auth : namespace) (bindings : gmap string binding_row)
    (stores : list (string * store_handle)) (adapters : list (string * gmap string descriptor))
    (costs : list (string * list (string * pynum))) : outcome (gmap string (gmap string float64)) :=
  _ ← guard_or (deadline_ok deadline) (ValueError "bounded request deadline required");
  _ ← registry_init auth bindings stores;
  _ ← guard_or (bool_decide (adapters = []) || negb prod) (AuthorityDenied "queued demo dispatch is nonproduction only");
  _ ← guard_or (forallb (fun '(t, a) => exact_adapters (list_to_map stores) t a) adapters)
               (AuthorityDenied "exact operator-bound queued adapter required");
  validate_costs costs.

(** ** Sessions *)

Record session := mkSession { s_principal : Principal; s_tenant : string }.

Section kernel.
Context `{AuditCodec} `{JsonText} `{Sha256} `{Ed25519} `{SealScheme} `{IntentCodec} `{QueuedCodec}.
Context (absolute : string → bool) (resolve_path : string → option string).
Context (float_repr : float64 → string) (owner_json : string → string → string → string → string).
Context (kc : kernel_config).

Notation KM := (M kernel_state).

(** [directory.guard]: the principal is current; a raise undoes the directory's
    writes. *)
Definition guarded {A} (now : float64) (p : Principal) (m : KM A) : KM A := fun k =>
  match current (kc_key kc) now p (k_dir k) with
  | Raise e => (Raise e, k)
  | Ok _ =>
      match m k with
      | (Ok a, k') => (Ok a, k')
      | (Raise e, k') => (Raise e, mkKernel (k_dir k) (k_tenants k'))
      end
  end.

(** [TenantStoreRegistry.resolve]: the selected tenant's store. *)
Definition resolve (now : float64) (p : Principal) (tenant : option string) : KM string :=
  k ← get;
  _ ← lift (current (kc_key kc) now p (k_dir k));
  selected ← lift (
    if bool_decide (kind p = "platform_admin") then
      t ← match tenant with
          | Some t => Authority.identifier t "explicit platform target tenant"
          | None => Raise (ValueError "invalid bounded explicit platform target tenant")
          end;
      _ ← active_tenant (Some t) (k_dir k);
      Ok (Some t)
    else
      _ ← guard_or (match tenant with None => true | Some t => bool_decide (Some t = tenant_id p) end)
                   (AuthorityDenied "authenticated tenant conflicts with requested resource scope");
      Ok (tenant_id p));
  match selected ≫= (fun t => (t,.) <$> kc_tenants kc !! t) with
  | None => raise (AuthorityDenied "tenant storage is not explicitly configured")
  | Some (t, su) =>
      _ ← lift (assert_scope (su_handle su) (k_tenants k !! t ≫= tn_binding));
      mret t
  end.

(** [TenantKernel.session]. *)
Definition open_session (now : float64) (p : Principal) (tenant : option string) : KM session :=
  t ← resolve now p tenant;
  mret (mkSession p t).

Definition role_of (p : Principal) : option string :=
  dict_get (kind p)
    [("platform_admin", "admin"); ("tenant_admin", "admin"); ("tenant_operator", "operator"); ("tenant_viewer", "viewer")].

(** [_require_permission]. *)
Definition require_permission (p : Principal) (permission : string) : outcome unit :=
  match role_of p with
  | None => Raise (AuthorityDenied "operator authority required")
  | Some role => Rbac.require role permission
  end.

(** [_runtime]. *)
Definition runtime (now : float64) (s : session) (permission : option string) : KM unit :=
  _ ← resolve now (s_principal s) (Some (s_tenant s));
  lift (match permission with None => Ok tt | Some x => require_permission (s_principal s) x end).

Definition admin_actor (s : session) : string :=
  ("principal:v1:" +:+ canonical_dumps
     (match binding_json (s_principal s) with
      | JObj m => JObj (m ++ [("resource_tenant_id", JStr (s_tenant s))])
      | j => j
      end))%string.

(** [_audit]. *)
Definition audit_admin (s : session) (action stamp : string) : M tenant_state unit :=
  _ ← zoom (T := gov) (zoom (AuditLog.Sql.record
        (AuditLog.mkEvent (admin_actor s) action "mcp" "mcp" "administration" "allow" "" fzero) stamp));
  mret tt.

(** A guarded method with a permission, on the session's tenant. *)
Definition operate {A} (now : float64) (s : session) (permission : string) (m : M tenant_state A) : KM A :=
  guarded now (s_principal s) (_ ← runtime now s (Some permission); in_tenant (s_tenant s) m).

(** *** Identities *)

Definition list_identities (now : float64) (s : session) : KM (gmap string identity_row) :=
  operate now s "identities:read" (gets (fun t => g_ids (td_gov (tn_db t)))).

Definition set_identities (f : gmap string identity_row → gmap string identity_row) : M tenant_state unit :=
  zoom (T := gov) (zoom (modify f)).

Definition enroll_agent (now : float64) (stamp : string) (s : session) (ag key : string) (caps tgts : list string) : KM unit :=
  guarded now (s_principal s) (
    _ ← runtime now s (Some "identities:write");
    _ ← zoom (Authority.enroll_agent (kc_key kc) now (s_principal s) (s_tenant s) ag key caps tgts);
    in_tenant (s_tenant s) (
      _ ← set_identities (fun ids => Identity.rows (register_public_key ag (str_lower key) (registry_of ids)).2);
      audit_admin s "enroll_agent" stamp)).

Definition revoke_agent (now : float64) (stamp : string) (s : session) (ag : string) : KM unit :=
  guarded now (s_principal s) (
    _ ← runtime now s (Some "identities:write");
    _ ← zoom (Authority.revoke_agent (kc_key kc) now (s_principal s) (s_tenant s) ag);
    in_tenant (s_tenant s) (
      _ ← set_identities (fun ids => Identity.rows (revoke ag (registry_of ids)).2);
      audit_admin s "revoke_agent" stamp)).

(** *** Budgets and quotas *)

Definition set_limits (limit : float64) (rate window : Z) (b : Budget) : Budget :=
  mkBudget limit rate (fl window) (spent b) (calls b) (reserved b).

(** The mutator of [set_budget]. *)
Definition limit_mutator (limit : float64) (rate window : Z) (b : Budget) : outcome Budget :=
  _ ← guard_or (negb (fltb limit (fadd (spent b) (Manager.reserved_sum b))))
               (ValueError "spend limit cannot remove existing spend or outstanding exposure");
  Ok (set_limits limit rate window b).

Definition set_budget (now : float64) (stamp : string) (s : session) (ag : string) (limit : pynum) (rate window : Z) : KM unit :=
  guarded now (s_principal s) (
    _ ← runtime now s (Some "budgets:write");
    limit ← lift (checked_cost limit);
    _ ← ensure ((1 <=? rate) && (rate <=? 1000000) && (1 <=? window) && (window <=? 31536000))
          (ValueError "bounded budget rate/window required");
    in_tenant (s_tenant s) (
      _ ← zoom (T := gov) (zoom (
            m ← get;
            b ← lift (limit_mutator limit rate window (Manager.current (kc_budget kc) m ag));
            put (Manager.store_row ag b m)));
      audit_admin s "set_budget" stamp)).

Definition get_budget (now : float64) (s : session) (ag : string) : KM row :=
  operate now s "budgets:read" (b ← zoom (T := gov) (zoom (Manager.get_budget (kc_budget kc) ag)); mret (Budget.state b)).

(** [audit] runs inside the change's transaction. *)
Definition set_quotas (now : float64) (stamp : string) (s : session) (l : QuotaLimits) : KM unit :=
  operate now s "policy:write" (atomic (
    _ ← zoom (T := gov) (Quotas.set_policy l (mret tt));
    audit_admin s "set_quotas" stamp)).

Definition get_quotas (now : float64) (s : session) : KM (QuotaLimits * usage) :=
  operate now s "budgets:read" (zoom (T := gov) (Quotas.inspect now)).

(** *** Task capacities *)

Definition task_history_capacity (now : float64) (s : session) : KM (Z * Z) :=
  operate now s "budgets:read" (zoom (T := tenant_db) (zoom TaskLifecycle.history_capacity)).

Definition set_task_history_capacity (now : float64) (stamp : string) (s : session) (n : Z) : KM unit :=
  operate now s "policy:write" (atomic (
    _ ← zoom (T := tenant_db) (zoom (TaskLifecycle.set_history_capacity n (mret tt)));
    audit_admin s "set_task_history_capacity" stamp)).

Definition task_event_capacity (now : float64) (s : session) : KM (Z * Z * Z) :=
  operate now s "budgets:read" (zoom (T := tenant_db) (zoom TaskLifecycle.event_capacity)).

Definition set_task_event_capacity (now : float64) (stamp : string) (s : session) (n : Z) : KM unit :=
  operate now s "policy:write" (atomic (
    _ ← zoom (T := tenant_db) (zoom (TaskLifecycle.set_event_capacity n (mret tt)));
    audit_admin s "set_task_event_capacity" stamp)).

Definition task_intent_capacity (now : float64) (s : session) : KM (IntentLimits * Z * Z) :=
  operate now s "budgets:read" (zoom (T := tenant_db) TaskIntents.capacity).

Definition set_task_intent_capacity (now : float64) (stamp : string) (s : session) (l : IntentLimits) : KM unit :=
  operate now s "policy:write" (atomic (
    _ ← zoom (T := tenant_db) (TaskIntents.set_capacity l (mret tt));
    audit_admin s "set_task_intent_capacity" stamp)).

(** *** Approvals, policy, audit *)

Definition pending_approvals (now : float64) (s : session) : KM (list ApprovalRequest) :=
  operate now s "approvals:read" (gets (fun t => pending_requests (g_apr (td_gov (tn_db t))))).

Definition decide_approval (request_id : string) (granted : bool) : M gov bool := fun g =>
  let '(b, t) := (if granted then Approvals.approve request_id (g_apr g) else Approvals.deny request_id (g_apr g)) in
  (Ok b, update t g).

Definition approve (now : float64) (stamp : string) (s : session) (request_id : string) (granted : bool) : KM bool :=
  operate now s "approvals:write" (
    result ← zoom (T := gov) (decide_approval request_id granted);
    _ ← when result (audit_admin s (if granted then "approve" else "deny") stamp);
    mret result).

Definition mark_sensitive (now : float64) (stamp : string) (s : session) (c : string) : KM unit :=
  operate now s "policy:write" (atomic (
    _ ← zoom (T := gset string) (durable_mark_sensitive c);
    audit_admin s "mark_sensitive" stamp)).

Definition add_policy (now : float64) (stamp : string) (s : session) (r : given_rule) : KM unit :=
  operate now s "policy:write" (atomic (
    _ ← zoom (T := list string) (durable_add r);
    audit_admin s "add_policy" stamp)).

Definition policy_rules (now : float64) (s : session) : KM (list Rule) :=
  operate now s "policy:read" (zoom (T := list string) durable_rules).

Definition audit_records (now : float64) (s : session) : KM (list AuditEntry) :=
  operate now s "audit:read" (gets (fun t => AuditLog.Sql.rows (g_aud (td_gov (tn_db t))))).

(** [export_jsonl]: one sorted JSON object per line. *)
Definition entry_json (e : AuditEntry) : json :=
  JObj [("action", JStr (AuditLog.action e)); ("actor", JStr (AuditLog.actor e)); ("capability", JStr (AuditLog.capability e));
        ("cost", JFloat (AuditLog.cost e)); ("decision", JStr (AuditLog.decision e)); ("entry_hash", JStr (entry_hash e));
        ("prev_hash", JStr (prev_hash e)); ("reason", JStr (AuditLog.reason e)); ("seq", JInt (seq e));
        ("source_protocol", JStr (AuditLog.source_protocol e)); ("target_protocol", JStr (target_protocol e));
        ("timestamp", JStr (timestamp e))].

Definition newline : string := String (Ascii.ascii_of_nat 10) EmptyString.

Definition export_audit (now : float64) (s : session) : KM string :=
  operate now s "audit:export" (gets (fun t =>
    String.concat newline ((fun e => json_dumps (entry_json e)) <$> AuditLog.Sql.rows (g_aud (td_gov (tn_db t)))))).

Definition set_legal_hold (now : float64) (stamp : string) (s : session) (name : string) (on : bool) : KM unit :=
  operate now s "audit:export" (
    _ ← zoom (T := trust_store) (set_hold name on);
    audit_admin s "set_legal_hold" stamp).

(** *** Operations and tasks *)

Definition principal_owner (p : Principal) : outcome string := binding_owner (binding p).

Definition not_owned : pyexn := AuthorityDenied "operation unavailable for authenticated principal".

Definition operation (now : float64) (s : session) (ag op : string) : KM (op_row * option Principal) :=
  guarded now (s_principal s) (
    _ ← runtime now s None;
    _ ← (if is_agent_kind (kind (s_principal s)) then
           in_tenant (s_tenant s) (
             b ← zoom (T := gov) (authority_binding (Some (s_tenant s)) ag op);
             match b with
             | None => raise not_owned
             | Some b =>
                 theirs ← lift (binding_owner b);
                 mine ← lift (principal_owner (s_principal s));
                 ensure (bool_decide (theirs = mine)) not_owned
             end)
         else runtime now s (Some "audit:read"));
    in_tenant (s_tenant s) (
      row ← zoom (T := gov) (get_operation ag op);
      match row with
      | None => raise (AuthorityDenied "operation unavailable")
      | Some r => b ← zoom (T := gov) (authority_binding (Some (s_tenant s)) ag op); mret (r, b)
      end)).

(** A guarded read of the principal's own tasks. *)
Definition own {A} (now : float64) (s : session) (m : string → M tenant_db A) : KM A :=
  guarded now (s_principal s) (
    _ ← runtime now s None;
    owner ← lift (principal_owner (s_principal s));
    in_tenant (s_tenant s) (zoom (m owner))).

Definition task (now : float64) (s : session) (i : string) : KM TaskLifecycle :=
  own now s (fun owner => zoom (get_snapshot owner i)).

Definition task_events (now : float64) (s : session) (i : string) (after limit : Z) : KM (list TaskLifecycle) :=
  own now s (fun owner => zoom (list_events owner i after limit)).

Definition task_intent (now : float64) (s : session) (i : string) : KM intent_row :=
  own now s (fun owner => get_intent owner i).

(** *** Submission *)

Definition setup_of (t : string) : outcome tenant_setup :=
  match kc_tenants kc !! t with Some su => Ok su | None => Raise (KeyError t) end.

(** A tenant's configuration as queued work sees it. *)
Definition config_of (t : string) (su : tenant_setup) (rules : list Rule) (flagged : gset string) : tenant_config :=
  mkTenantConfig t (sh_store (su_handle su)) (kc_registry kc) (PFloat <$> su_costs su) (su_targets su) (su_adapters su)
    rules flagged (kc_prod kc).

(** [except (KeyError, TypeError, ValueError)], with [AttributeError] where
    [submit_task] adds it. *)
Definition malformed {A} (attribute : bool) (o : outcome A) : outcome A :=
  match o with
  | Raise e =>
      if is_value_error e || match e with KeyError _ | TypeError _ => true | AttributeError _ => attribute | _ => false end
      then Raise (ValueError "unsupported protocol or malformed action") else Raise e
  | Ok a => Ok a
  end.

Definition submitted_capability (gen : ids) (sub : TaskSubmission) : outcome string :=
  malformed true (
    _ ← get_adapter (kc_registry kc) (sub_dst sub);
    src ← get_adapter (kc_registry kc) (sub_src sub);
    c ← to_canonical_call src (gen_call gen) (sub_wire sub);
    _ ← translate_call (kc_registry kc) gen (sub_wire sub) (sub_src sub) (sub_dst sub);
    Ok (Protocols.capability c)).

(** The audit hook of an accepted submission; [d] is the guarded directory. *)
Definition audit_submission (now : float64) (stamp : string) (p : Principal) (d : directory) (sub : TaskSubmission)
    (capab fp : string) : M gov unit :=
  _ ← lift (Authority.authorize (kc_key kc) now p capab (Some (sub_target sub)) d).1;
  _ ← zoom (AuditLog.Sql.record
        (AuditLog.mkEvent ("principal:v1:" +:+ canonical_dumps (binding_json p)) "task.submit" (sub_src sub) (sub_dst sub) capab
           "allow" ("queued intent sha256:" +:+ fp +:+ "; fresh execution admission required") fzero) stamp);
  mret tt.

(** What the session vouches for. *)
Definition submission_provenance (p : Principal) (body nonce key capab : string) (cost : float64)
    (target : descriptor + json) (approval : bool) : provenance :=
  mkProvenance "enrolled-tenant-request-v2" (binding p) (valid_until p) body (sha256_hex body) nonce key capab cost
    (sha256_hex (target_text target)) approval.

(** The part of [submit_task] on the tenant's store; [enrolled] is the agent's
    row in the directory. *)
Definition submit_in_tenant (now db_now : float64) (stamp : string) (clock : nat → datetime) (p : Principal)
    (d : directory) (su : tenant_setup) (t body nonce : string) (sub : TaskSubmission) (capab : string) (enrolled : agent_row)
  : M tenant_state intent_row :=
  let ag := default "" (p_agent_id p) in
  s ← get;
  _ ← ensure (match g_ids (td_gov (tn_db s)) !! ag with
              | Some row => negb (row_revoked row) && bool_decide (row_key row = g_key enrolled)
              | None => false
              end) (AuthorityDenied "tenant identity and enrollment disagree");
  cost ← lift (match su_costs su !! capab with
               | Some c => Ok c
               | None => Raise (AuthorityDenied "operator-owned tenant cost schedule missing")
               end);
  let cfg := config_of t su in
  target ← lift (resolve_queued_target absolute resolve_path (cfg [] ∅) (sub_target sub) (sub_dst sub) capab ag (sub_wire sub));
  _ ← lift (match target with inl x => queued_adapter (cfg [] ∅) (sub_target sub) x | inr _ => Ok tt end);
  atomic (
    s ← get;
    rules ← lift (load_rules (tn_rules s));
    let rule := evaluate float_repr clock rules (mkContext ag capab cost (Some (sub_src sub)) (Some (sub_dst sub)) None) in
    _ ← ensure (PolicyRules.allowed rule) (AuthorityDenied "current declarative policy denies queued intent");
    owner ← lift (principal_owner p);
    let approval := PolicyRules.needs_approval rule || durable_requires_approval capab (tn_sensitive s) in
    zoom (T := tenant_db)
      (accept (kc_max_active kc) owner sub (submission_provenance p body nonce (g_key enrolled) capab cost target approval)
         (fun fp => zoom (T := gov) (audit_submission now stamp p d sub capab fp)) db_now)).

Definition submit_task (now db_now : float64) (stamp : string) (gen : ids) (clock : nat → datetime) (s : session)
    (body nonce : string) : KM intent_row :=
  let p := s_principal s in
  guarded now p (
    _ ← runtime now s None;
    k ← get;
    _ ← lift (assert_request (kc_key kc) now p (Some body) (Some nonce) (k_dir k)).1;
    sub ← lift (parse_submission body);
    capab ← lift (submitted_capability gen sub);
    _ ← lift (Authority.authorize (kc_key kc) now p capab (Some (sub_target sub)) (k_dir k)).1;
    enrolled ← lift (active_agent (Some (s_tenant s)) (p_agent_id p) (k_dir k));
    su ← lift (setup_of (s_tenant s));
    in_tenant (s_tenant s)
      (submit_in_tenant now db_now stamp clock p (k_dir k) su (s_tenant s) body nonce sub capab enrolled)).

(** *** Routing *)

(** [json.loads(body)] without a caller's authority or target configuration. *)
Definition route_request (t body : string) : outcome (list (string * json)) :=
  let refused := Raise (AuthorityDenied "caller-selected authority or target configuration prohibited") in
  match json_loads body with
  | Raise e => if is_value_error e then Raise (ValueError "JSON request required") else Raise e
  | Ok (JObj m) =>
      if dict_mem "target" m || dict_mem "principal" m ||
         match dict_get "tenant_id" m with Some j => negb (is_text t j) | None => false end
      then refused else Ok m
  | Ok _ => refused
  end.

(** The ingress has validated the members' types ([RouteBody]): [src] and [dst]
    are text, [target_id] and [operation_id] text or null. *)
Definition field_text (k : string) (m : list (string * json)) : outcome string :=
  match obj_get k JNull m with JStr s => Ok s | _ => Raise (KeyError k) end.

Definition optional_text (k : string) (m : list (string * json)) : outcome (option string) :=
  match obj_get k JNull m with JStr s => Ok (Some s) | JNull => Ok None | _ => Raise (TypeError k) end.

(** [resolve_target] of a named target, for the operator's configuration. *)
Definition resolve_target (su : tenant_setup) (target protocol capab ag : string) : outcome json :=
  if bool_decide (strip target = "") then Raise (SecurityConfigurationError "target_id must be a nonempty string")
  else match su_targets su !! target with
  | None => Raise (SecurityConfigurationError "target_id not registered by operator")
  | Some e =>
      _ ← guard_or (bool_decide (te_protocol e = protocol)) (SecurityConfigurationError "destination protocol mismatch");
      _ ← guard_or (negb (bool_decide (te_capabilities e = [])) && bool_decide (capab ∈ te_capabilities e))
                   (SecurityConfigurationError "capability not authorized for target");
      _ ← guard_or (negb (kc_prod kc) || match te_agents e with Some l => bool_decide (ag ∈ l) | None => false end)
                   (SecurityConfigurationError "agent not authorized for target");
      match te_target e with
      | inr generic => generic
      | inl _ => Raise (SecurityConfigurationError "unsupported target protocol/transport pair")
      end
  end.

(** The arguments of the gateway's [route_call]. *)
Definition route_arguments (p : Principal) (m : list (string * json)) (body nonce : string) (cost : float64) : outcome request :=
  a_src ← field_text "src" m;
  a_dst ← field_text "dst" m;
  target ← optional_text "target_id" m;
  op ← optional_text "operation_id" m;
  Ok (mkRequest (default "" (p_agent_id p)) a_src a_dst (obj_get "wire" JNull m) (PFloat cost) target op
        None None (Some body) (Some nonce) (Some p)).

(** [route]: the session's own checks at [now], then the gateway with the
    directory [d] it finds; [invoke] carries out the resolved target's call. *)
Definition route (now : float64) (e : env) (d : directory) (gen : ids) (s : session) (body nonce : string)
    (invoke : option json → json → outcome json) (cn : cancellation) (x0 x x' : drawn) : KM json :=
  let p := s_principal s in
  let ag := default "" (p_agent_id p) in
  _ ← runtime now s None;
  k ← get;
  _ ← lift (assert_request (kc_key kc) now p (Some body) (Some nonce) (k_dir k)).1;
  m ← lift (route_request (s_tenant s) body);
  '(dst, capab) ← lift (malformed false (
    dst ← field_text "dst" m;
    _ ← get_adapter (kc_registry kc) dst;
    src ← field_text "src" m;
    a ← get_adapter (kc_registry kc) src;
    c ← to_canonical_call a (gen_call gen) (obj_get "wire" JNull m);
    Ok (dst, Protocols.capability c)));
  target_id ← lift (optional_text "target_id" m);
  _ ← lift (Authority.authorize (kc_key kc) now p capab target_id (k_dir k)).1;
  su ← lift (setup_of (s_tenant s));
  cost ← lift (match su_costs su !! capab with
               | Some c => Ok c
               | None => Raise (AuthorityDenied "operator-owned tenant cost schedule missing")
               end);
  target ← lift (match target_id with
                 | None => Ok None
                 | Some t => Some <$> resolve_target su t dst capab ag
                 end);
  r ← lift (route_arguments p m body nonce cost);
  in_tenant (s_tenant s) (
    t ← get;
    rules ← lift (load_rules (tn_rules t));
    let eng := mkEngine true (Some rules) ∅ (Some (tn_sensitive t)) in
    zoom (T := gov)
      (route_call float_repr owner_json e eng (Some (mkAuthority (s_tenant s) d (kc_key kc))) (kc_budget kc) (kc_registry kc)
         true r (invoke target) cn x0 x x')).
End kernel.
