(* ===== verification/TenantSpec.v ===== *)
(** * What a tenant session may do

    Every method of a session acts on the session's own tenant, for a principal
    the directory still accepts and a role with the method's permission; an
    administrative change that succeeds is on the tenant's audit chain; a task
    submitted through a session is retained exactly as it was vouched for, loads
    for execution, and can be prepared as long as nothing it depends on changes. *)

From stdpp Require Import base list gmap sets strings.
From Stdlib Require Import ZArith Lia.
From S2P Require Import Prelude PyFloat TrustedTargets Controls Json Identity Authority AuthoritySpec Budget AuditLog AuditSpec Approvals PolicyRules DurablePolicy OperationLedger Quotas Policy Protocols Gateway RetainedCapacity AuditTrust StreamLeases Evidence TaskLifecycle TaskSpec TaskIntents QueuedDestination QueuedStore IntentSpec QueuedPreparation TenantKernel.

#[local] Open Scope Z_scope.

(** ** Configuration *)

Lemma validate_schedule_Ok l m : validate_schedule l = Ok m → map_Forall (fun _ f => ∃ z, f = FFin z ∧ 0 ≤ z) m.
Proof.
  revert m. induction l as [|[c v] l IH]; intros m Hm; simpl in Hm; [by simplify_eq|].
  destruct (validate_cost v) as [f|] eqn:Hv; simpl in Hm; [|done].
  destruct (validate_schedule l) as [m'|]; simpl in Hm; simplify_eq.
  apply map_Forall_insert_2; [by eapply validate_cost_Ok|by apply IH].
Qed.

Lemma validate_costs_Ok l m :
  validate_costs l = Ok m → ∀ t sch c f, m !! t = Some sch → sch !! c = Some f → ∃ z, f = FFin z ∧ 0 ≤ z.
Proof.
  revert m. induction l as [|[t' s'] l IH]; intros m Hm t sch c f Ht Hc; simpl in Hm; [by simplify_eq|].
  destruct (validate_schedule s') as [x|] eqn:Hx; simpl in Hm; [|done].
  destruct (validate_costs l) as [m'|]; simpl in Hm; simplify_eq.
  apply lookup_insert_Some in Ht as [[-> ->]|[_ Ht]]; [by eapply validate_schedule_Ok|by eapply IH].
Qed.

Lemma register_stores_Ok bindings stores ns ids :
  register_stores bindings stores ns ids = Ok tt →
  Forall (fun '(t, h) => sh_tenant h = t ∧ bindings !! t = Some (mkBindingRow t (sh_store h) 1)) stores ∧
  NoDup (sh_namespace <$> stores.*2) ∧ NoDup (sh_store <$> stores.*2) ∧
  (∀ n, n ∈ ns → n ∉ sh_namespace <$> stores.*2) ∧ (∀ i, i ∈ ids → i ∉ sh_store <$> stores.*2).
Proof.
  revert ns ids. induction stores as [|[t h] stores IH]; intros ns ids Hr; simpl in Hr.
  { repeat split; simpl; try constructor; intros; apply not_elem_of_nil. }
  apply outcome_bind_Ok in Hr as (? & <-%guard_or_Ok%bool_decide_eq_true & Hr).
  apply outcome_bind_Ok in Hr as (? & Hs%guard_or_Ok%bool_decide_eq_true & Hr).
  apply outcome_bind_Ok in Hr as (? & Hf%guard_or_Ok%negb_true_iff%orb_false_iff & Hr).
  destruct Hf as [Hf1%bool_decide_eq_false Hf2%bool_decide_eq_false].
  apply IH in Hr as (Hb & HN & HI & Hns & Hids).
  repeat split; simpl; try constructor; try done; set_solver.
Qed.

Lemma validate_separation_Ok auth all rest :
  validate_separation auth all rest = Ok tt →
  ∀ h, h ∈ rest → sh_namespace h ≠ auth ∧
    ∀ own o other, ns_schema (sh_namespace h) = Some own → o ∈ all → ns_schema (sh_namespace o) = Some other →
      other ≠ own → other ∉ sh_usable h.
Proof.
  induction rest as [|h rest IH]; intros Hv h' Hin; [by apply elem_of_nil in Hin|]. simpl in Hv.
  apply outcome_bind_Ok in Hv as (? & Hn%guard_or_Ok%negb_true_iff%bool_decide_eq_false & Hv).
  apply outcome_bind_Ok in Hv as (? & Hu & Hv).
  apply elem_of_cons in Hin as [->|Hin]; [|by apply IH].
  split; [done|]. intros own o other Ho Hoin Hother Hne Hus. rewrite Ho in Hu.
  apply guard_or_Ok in Hu. rewrite forallb_forall in Hu.
  specialize (Hu other). rewrite negb_true_iff, bool_decide_eq_false in Hu. apply Hu; [|done].
  apply list_elem_of_In, list_elem_of_filter. split; [done|]. apply elem_of_app; left.
  apply list_elem_of_omap. eauto.
Qed.

Lemma adapters_exact stores (adapters : list (string * gmap string descriptor)) t ads target d :
  forallb (fun '(t, a) => exact_adapters (list_to_map stores) t a) adapters = true →
  (t, ads) ∈ adapters → ads !! target = Some d →
  t ∈ stores.*1 ∧ de_tenant d = t ∧ de_target d = target.
Proof.
  intros Ha Hin Hd. rewrite forallb_forall in Ha. apply list_elem_of_In in Hin.
  specialize (Ha _ Hin). unfold exact_adapters in Ha. apply bool_decide_eq_true in Ha.
  destruct (Ha _ _ Hd) as ([h Hh] & Ht & Hg). split; [|done].
  apply elem_of_list_to_map_2 in Hh. apply list_elem_of_fmap. by exists (t, h).
Qed.

(** C32: A configuration the kernel accepts is well formed: the deadline is
    between 50 ms and two minutes; every store is bound to exactly the tenant it
    is registered for; no two tenants share a physical namespace or a restored
    copy of one, none shares the directory's namespace, and no tenant's SQL role
    may use another tenant's schema; queued adapters name their own tenant and
    target and exist only outside production; and every scheduled cost is a
    finite, nonnegative number. *)
Theorem accepted_configuration_well_formed prod deadline auth bindings stores adapters costs m :
  kernel_init prod deadline auth bindings stores adapters costs = Ok m →
  deadline_ok deadline = true ∧
  Forall (fun '(t, h) => sh_tenant h = t ∧ bindings !! t = Some (mkBindingRow t (sh_store h) 1)) stores ∧
  NoDup (sh_namespace <$> stores.*2) ∧ NoDup (sh_store <$> stores.*2) ∧
  (∀ h, h ∈ stores.*2 → sh_namespace h ≠ auth ∧
    ∀ own o other, ns_schema (sh_namespace h) = Some own → o ∈ stores.*2 → ns_schema (sh_namespace o) = Some other →
      other ≠ own → other ∉ sh_usable h) ∧
  (prod = true → adapters = []) ∧
  (∀ t ads target d, (t, ads) ∈ adapters → ads !! target = Some d →
     t ∈ stores.*1 ∧ de_tenant d = t ∧ de_target d = target) ∧
  (∀ t sch c f, m !! t = Some sch → sch !! c = Some f → ∃ z, f = FFin z ∧ 0 ≤ z).
Proof.
  intros Hk. apply outcome_bind_Ok in Hk as (? & Hd%guard_or_Ok & Hk).
  apply outcome_bind_Ok in Hk as ([] & ([] & Hr & Hv)%outcome_bind_Ok & Hk). 
  apply outcome_bind_Ok in Hk as (? & Hp%guard_or_Ok & Hk).
  apply outcome_bind_Ok in Hk as (? & Ha%guard_or_Ok & Hk).
  apply register_stores_Ok in Hr as (Hb & HN & HI & _). repeat split; try done.
  - by apply (validate_separation_Ok _ _ _ Hv).
  - by apply (validate_separation_Ok _ _ _ Hv).
  - intros ->. apply orb_true_iff in Hp as [Hp|Hp]; [by apply bool_decide_eq_true in Hp|done].
  - by eapply adapters_exact.
  - by eapply adapters_exact.
  - by eapply adapters_exact.
  - by apply (validate_costs_Ok _ _ Hk).
Qed.

Section spec.
Context `{AuditCodec} `{JsonText} `{Sha256} `{Ed25519} `{SealScheme} `{IntentCodec} `{QueuedCodec}.
Context (absolute : string → bool) (resolve_path : string → option string).
Context (float_repr : float64 → string) (kc : kernel_config).
Implicit Types (k : kernel_state) (s : session) (p : Principal).

Notation KM := (M kernel_state).

(** ** Calls *)

(** The methods that change the tenant's administration. *)
Inductive change :=
| ChEnroll (ag key : string) (caps tgts : list string)
| ChRevoke (ag : string)
| ChBudget (ag : string) (limit : pynum) (rate window : Z)
| ChQuotas (l : QuotaLimits)
| ChHistory (n : Z)
| ChEvents (n : Z)
| ChIntents (l : IntentLimits)
| ChApprove (request : string) (granted : bool)
| ChSensitive (c : string)
| ChPolicy (r : given_rule)
| ChHold (name : string) (on : bool).

(** The permission a change needs, and the action its audit record names. *)
Definition change_permission (c : change) : string :=
  match c with
  | ChEnroll _ _ _ _ | ChRevoke _ => "identities:write"
  | ChBudget _ _ _ _ => "budgets:write"
  | ChApprove _ _ => "approvals:write"
  | ChHold _ _ => "audit:export"
  | ChQuotas _ | ChHistory _ | ChEvents _ | ChIntents _ | ChSensitive _ | ChPolicy _ => "policy:write"
  end.

Definition change_action (c : change) : string :=
  match c with
  | ChEnroll _ _ _ _ => "enroll_agent"
  | ChRevoke _ => "revoke_agent"
  | ChBudget _ _ _ _ => "set_budget"
  | ChQuotas _ => "set_quotas"
  | ChHistory _ => "set_task_history_capacity"
  | ChEvents _ => "set_task_event_capacity"
  | ChIntents _ => "set_task_intent_capacity"
  | ChApprove _ granted => if granted then "approve" else "deny"
  | ChSensitive _ => "mark_sensitive"
  | ChPolicy _ => "add_policy"
  | ChHold _ _ => "set_legal_hold"
  end.

Definition done_ {A} (m : KM A) : KM bool := _ ← m; mret true.

(** Whether anything was changed: an unknown or decided approval is not. *)
Definition make_change (now : float64) (stamp : string) (s : session) (c : change) : KM bool :=
  match c with
  | ChEnroll ag key caps tgts => done_ (enroll_agent kc now stamp s ag key caps tgts)
  | ChRevoke ag => done_ (revoke_agent kc now stamp s ag)
  | ChBudget ag limit rate window => done_ (set_budget kc now stamp s ag limit rate window)
  | ChQuotas l => done_ (set_quotas kc now stamp s l)
  | ChHistory n => done_ (set_task_history_capacity kc now stamp s n)
  | ChEvents n => done_ (set_task_event_capacity kc now stamp s n)
  | ChIntents l => done_ (set_task_intent_capacity kc now stamp s l)
  | ChApprove i granted => approve kc now stamp s i granted
  | ChSensitive c => done_ (mark_sensitive kc now stamp s c)
  | ChPolicy r => done_ (add_policy kc now stamp s r)
  | ChHold name on => done_ (set_legal_hold kc now stamp s name on)
  end.

Inductive reading :=
| RdIdentities | RdBudget (ag : string) | RdQuotas | RdHistory | RdEvents | RdIntents | RdApprovals | RdPolicy
| RdAudit | RdExport | RdOperation (ag op : string) | RdTask (i : string) | RdTaskEvents (i : string) (after limit : Z)
| RdIntent (i : string).

Definition make_reading (now : float64) (s : session) (r : reading) : KM bool :=
  match r with
  | RdIdentities => done_ (list_identities kc now s)
  | RdBudget ag => done_ (get_budget kc now s ag)
  | RdQuotas => done_ (get_quotas kc now s)
  | RdHistory => done_ (task_history_capacity kc now s)
  | RdEvents => done_ (task_event_capacity kc now s)
  | RdIntents => done_ (task_intent_capacity kc now s)
  | RdApprovals => done_ (pending_approvals kc now s)
  | RdPolicy => done_ (policy_rules kc now s)
  | RdAudit => done_ (audit_records kc now s)
  | RdExport => done_ (export_audit kc now s)
  | RdOperation ag op => done_ (operation kc now s ag op)
  | RdTask i => done_ (task kc now s i)
  | RdTaskEvents i after limit => done_ (task_events kc now s i after limit)
  | RdIntent i => done_ (task_intent kc now s i)
  end.

Inductive session_call :=
| Change (stamp : string) (c : change)
| Reading (r : reading)
| Submit (db_now : float64) (stamp : string) (gen : ids) (clock : nat → datetime) (body nonce : string).

Definition perform (now : float64) (s : session) (c : session_call) : KM bool :=
  match c with
  | Change stamp c => make_change now stamp s c
  | Reading r => make_reading now s r
  | Submit db_now stamp gen clock body nonce =>
      done_ (submit_task absolute resolve_path float_repr kc now db_now stamp gen clock s body nonce)
  end.

(** ** Confinement *)

(** The directory differs at most in the enrollments of [t]'s agents. *)
Record near (t : string) (d d' : directory) : Prop := {
  nr_tenants : tenants d' = tenants d;
  nr_admins : platform_admins d' = platform_admins d;
  nr_members : members d' = members d;
  nr_delegations : delegations d' = delegations d;
  nr_replays : replays d' = replays d;
  nr_agents t' ag : t' ≠ t → agents d' !! (t', ag) = agents d !! (t', ag);
}.

#[local] Instance near_refl t : Reflexive (near t).
Proof. by intros d. Qed.
#[local] Instance near_trans t : Transitive (near t).
Proof. intros d1 d2 d3 [] []. split; try congruence. intros t' ag Ht. by rewrite (nr_agents1 t' ag Ht), (nr_agents0 t' ag Ht). Qed.

Definition confined_to (t : string) (k k' : kernel_state) : Prop :=
  near t (k_dir k) (k_dir k') ∧ ∀ t', t' ≠ t → k_tenants k' !! t' = k_tenants k !! t'.

#[local] Instance confined_refl t : Reflexive (confined_to t).
Proof. by intros k. Qed.
#[local] Instance confined_trans t : Transitive (confined_to t).
Proof. intros k1 k2 k3 [Hd1 Ht1] [Hd2 Ht2]. split; [by etrans|]. intros t' Ht. by rewrite Ht2, Ht1. Qed.

Definition confined {A} (t : string) (m : KM A) : Prop := ∀ k, confined_to t k (m k).2.

Lemma confined_reads {A} t (m : KM A) : reads m → confined t m.
Proof. intros Hm k. by rewrite Hm. Qed.

Lemma confined_bind {A B} t (m : KM A) (f : A → KM B) :
  confined t m → (∀ a, confined t (f a)) → confined t (m ≫= f).
Proof.
  intros Hm Hf k. rewrite run_bind. specialize (Hm k). destruct (m k) as [[a|e] k1]; cbn in *; [|done].
  etrans; [exact Hm|]. apply Hf.
Qed.

Lemma confined_in_tenant {A} t (m : M tenant_state A) : confined t (in_tenant t m).
Proof.
  intros k. unfold in_tenant. destruct (k_tenants k !! t) as [x|]; [|done]. destruct (m x) as [r x']; cbn.
  split; [done|]. intros t' Ht. cbn. by rewrite lookup_insert_ne.
Qed.

Lemma confined_guarded {A} t now p (m : KM A) : confined t m → confined t (guarded kc now p m).
Proof.
  intros Hm k. unfold guarded. destruct (current _ _ _ _) as [u|x]; [|done]. specialize (Hm k).
  destruct (m k) as [[a|e] k']; cbn in *; [done|]. destruct Hm as [_ Ht]. by split.
Qed.

(** The directory's own methods, on the agents of one tenant. *)
Lemma confined_directory {A} t (m : M directory A) :
  (∀ d, near t d (m d).2) → confined t (zoom m).
Proof. intros Hm k. unfold zoom. specialize (Hm (k_dir k)). cbn. by destruct (m (k_dir k)) as [r d]. Qed.

Lemma near_put t ag x d : near t d (set_agents (<[(t, ag) := x]> (agents d)) d).
Proof. split; try done. intros t' ag' Ht. cbn. rewrite lookup_insert_ne; [done|]. by intros [= ->]. Qed.

Lemma enroll_near now p t ag key caps tgts d : near t d (Authority.enroll_agent (kc_key kc) now p t ag key caps tgts d).2.
Proof.
  destruct (Authority.enroll_agent (kc_key kc) now p t ag key caps tgts d) as [[u|e] d'] eqn:He; cbn.
  - unfold Authority.enroll_agent in He. minv. apply near_put.
  - enough (rolls_back (Authority.enroll_agent (kc_key kc) now p t ag key caps tgts)) as Hr; [by rewrite (Hr _ _ _ He)|].
    unfold Authority.enroll_agent. eauto 20 with agentbridge.
Qed.

Lemma revoke_near now p t ag d : near t d (Authority.revoke_agent (kc_key kc) now p t ag d).2.
Proof.
  destruct (Authority.revoke_agent (kc_key kc) now p t ag d) as [[u|e] d'] eqn:He; cbn.
  - unfold Authority.revoke_agent in He. minv. apply near_put.
  - unfold Authority.revoke_agent in He. by apply atomic_Raise in He as ->.
Qed.

(** ** The head of every method *)

Lemma resolve_reads now p t : reads (resolve kc now p t).
Proof.
  unfold resolve. apply reads_bind; [apply reads_get|intros k0]. apply reads_bind; [apply reads_lift|intros u].
  apply reads_bind; [apply reads_lift|intros sel]. destruct (sel ≫= _) as [[t' su]|]; eauto with agentbridge.
Qed.

Lemma runtime_reads now s perm : reads (runtime kc now s perm).
Proof. unfold runtime. apply reads_bind; [apply resolve_reads|eauto with agentbridge]. Qed.

(** What a successful resolution establishes. *)
Record resolved (now : float64) (p : Principal) (t : string) (k : kernel_state) : Prop := {
  rs_current : current (kc_key kc) now p (k_dir k) = Ok tt;
  rs_tenant : kind p = "platform_admin" ∧ is_ok (active_tenant (Some t) (k_dir k)) = true ∨ tenant_id p = Some t;
  rs_setup : ∃ su, kc_tenants kc !! t = Some su ∧
    k_tenants k !! t ≫= tn_binding = Some (mkBindingRow (sh_tenant (su_handle su)) (sh_store (su_handle su)) 1);
}.

Lemma resolve_Ok now p t x k k' :
  resolve kc now p (Some t) k = (Ok x, k') → x = t ∧ k' = k ∧ resolved now p t k.
Proof. clear absolute resolve_path float_repr.
  intros Hr. pose proof (resolve_reads now p (Some t) k) as Hk. rewrite Hr in Hk. cbn in Hk. subst k'.
  unfold resolve in Hr. rewrite run_get in Hr. mstep Hr. apply lift_Ok_inv in Hm as [Hc ->]. destruct a.
  mstep Hr. apply lift_Ok_inv in Hm as [Hs ->].
  assert (a = Some t ∧ (kind p = "platform_admin" ∧ is_ok (active_tenant (Some t) (k_dir k)) = true ∨ tenant_id p = Some t))
    as [-> Ht].
  { case_bool_decide.
    - unfold Authority.identifier in Hs. destruct (Authority.identifier_ok t); [|done]. cbn in Hs.
      destruct (active_tenant (Some t) (k_dir k)) eqn:Ha; [|done]. cbn in Hs. injection Hs as <-. naive_solver.
    - apply outcome_bind_Ok in Hs as (u & Hg%guard_or_Ok & Hs). apply bool_decide_eq_true in Hg. injection Hs as <-. split; [done|by right]. }
  cbn in Hr. destruct (kc_tenants kc !! t) as [su|] eqn:Hsu; [|done]. cbn in Hr.
  mstep Hr. apply lift_Ok_inv in Hm as [Hb ->]. apply mret_Ok_inv in Hr as [-> _].
  unfold assert_scope in Hb. apply guard_or_Ok, bool_decide_eq_true in Hb. split; [done|]. split; [done|]. split; [done|exact Ht|by exists su].
Qed.

Definition permitted (p : Principal) (perm : option string) : Prop :=
  match perm with None => True | Some x => ∃ role, role_of p = Some role ∧ Rbac.role_can role x = true end.

Lemma runtime_Ok now s perm u k k' :
  runtime kc now s perm k = (Ok u, k') → k' = k ∧ resolved now (s_principal s) (s_tenant s) k ∧ permitted (s_principal s) perm.
Proof.
  unfold runtime. intros Hr. mstep Hr. apply resolve_Ok in Hm as (_ & -> & Hres). apply lift_Ok_inv in Hr as [Hp ->].
  split; [done|]. split; [done|]. destruct perm as [x|]; [|done]. unfold permitted, require_permission in *.
  destruct (role_of (s_principal s)) as [role|]; [|done]. exists role. split; [done|]. by apply guard_or_Ok in Hp.
Qed.

Lemma guarded_Ok {A} now p (m : KM A) k a k' :
  guarded kc now p m k = (Ok a, k') → current (kc_key kc) now p (k_dir k) = Ok tt ∧ m k = (Ok a, k').
Proof. clear absolute resolve_path float_repr. unfold guarded. destruct (current _ _ _ _) as [[]|]; [|done]. destruct (m k) as [[b|e] k1]; naive_solver. Qed.

(** A method that changes anything passed its guard and its permission. *)
Lemma guarded_effect {A} now s perm (body : unit → KM A) k :
  (guarded kc now (s_principal s) (runtime kc now s perm ≫= body) k).2 ≠ k →
  resolved now (s_principal s) (s_tenant s) k ∧ permitted (s_principal s) perm ∧ (body tt k).2 ≠ k.
Proof.
  unfold guarded. destruct (current _ _ _ _) as [u|x]; [|done]. rewrite run_bind.
  pose proof (runtime_reads now s perm k) as Hk.
  destruct (runtime kc now s perm k) as [[[]|e] k1] eqn:Hr; cbn in Hk; subst k1.
  - apply runtime_Ok in Hr as (_ & Hres & Hp). intros Hne. split; [done|]. split; [done|]. intros Hb. apply Hne.
    destruct (body tt k) as [[a|e] k1]; cbn in *; subst; [done|by destruct k].
  - cbn. intros Hne. by destruct Hne, k.
Qed.

Lemma done_state {A} (m : KM A) k : (done_ m k).2 = (m k).2.
Proof. unfold done_. rewrite run_bind. by destruct (m k) as [[a|e] k1]. Qed.

Lemma in_tenant_reads {A} t (m : M tenant_state A) : reads m → reads (in_tenant t m).
Proof.
  intros Hm [d ts]. unfold in_tenant. cbn. destruct (ts !! t) as [x|] eqn:Ht; [|done]. specialize (Hm x).
  destruct (m x) as [r x']. cbn in *. subst x'. by rewrite insert_id.
Qed.

Lemma zoom_reads {S T A} `{!Lens S T} (m : M T A) : reads m → reads (zoom m : M S A).
Proof. intros Hm x. unfold zoom. specialize (Hm (view x)). destruct (m (view x)) as [r y]. cbn in *. subst y. apply update_view. Qed.

#[local] Hint Resolve confined_bind confined_in_tenant confined_guarded runtime_reads in_tenant_reads zoom_reads : agentbridge.
#[local] Hint Resolve confined_reads | 5 : agentbridge.

Lemma confined_done {A} t (m : KM A) : confined t m → confined t (done_ m).
Proof. intros Hm k. rewrite done_state. apply Hm. Qed.

Lemma confined_operate {A} now s perm (m : M tenant_state A) : confined (s_tenant s) (operate kc now s perm m).
Proof. unfold operate. eauto 10 with agentbridge. Qed.

Lemma make_change_confined now stamp s c : confined (s_tenant s) (make_change now stamp s c).
Proof.
  destruct c; cbn; try apply confined_done; try apply confined_operate;
    unfold enroll_agent, revoke_agent, set_budget; apply confined_guarded, confined_bind; eauto 10 with agentbridge;
    intros []; apply confined_bind; eauto 10 with agentbridge; apply confined_directory; intros d;
    [apply enroll_near|apply revoke_near].
Qed.

Lemma make_reading_confined now s r : confined (s_tenant s) (make_reading now s r).
Proof.
  destruct r; cbn; apply confined_done; try apply confined_operate; unfold operation, task, task_events, task_intent, own;
    apply confined_guarded, confined_bind; eauto 10 with agentbridge.
  intros _. apply confined_bind; [|eauto with agentbridge]. destruct (is_agent_kind _); eauto with agentbridge.
Qed.

Lemma submit_confined now db_now stamp gen clock s body nonce :
  confined (s_tenant s) (submit_task absolute resolve_path float_repr kc now db_now stamp gen clock s body nonce).
Proof. unfold submit_task. apply confined_guarded. repeat (apply confined_bind; [by eauto with agentbridge|intros ?]). eauto with agentbridge. Qed.

(** A run whose first step only reads changes nothing unless the step passes. *)
Lemma reads_effect {S A B} (m : M S A) (f : A → M S B) (x : S) :
  reads m → ((m ≫= f) x).2 ≠ x → ∃ a, m x = (Ok a, x) ∧ (f a x).2 ≠ x.
Proof.
  intros Hm. rewrite run_bind. specialize (Hm x). destruct (m x) as [[a|e] y]; cbn in *; subst y; [eauto|done].
Qed.

Lemma assert_request_Ok now p body nonce d q d' :
  assert_request (kc_key kc) now p (Some body) (Some nonce) d = (Ok q, d') →
  current (kc_key kc) now p d = Ok tt ∧ is_agent_kind (kind p) = true ∧ request_body_sha256 p = sha256_hex body ∧
  request_nonce p = nonce.
Proof. clear absolute resolve_path float_repr.
  unfold assert_request, assert_current. intros Ha. minv.
  repeat match goal with Hx : _ && _ = true |- _ => apply andb_true_iff in Hx as [? ?] end.
  repeat match goal with Hx : bool_decide _ = true |- _ => apply bool_decide_eq_true in Hx end. naive_solver.
Qed.

Definition reading_permission (r : reading) : option string :=
  match r with
  | RdIdentities => Some "identities:read"
  | RdBudget _ | RdQuotas | RdHistory | RdEvents | RdIntents => Some "budgets:read"
  | RdApprovals => Some "approvals:read"
  | RdPolicy => Some "policy:read"
  | RdAudit => Some "audit:read"
  | RdExport => Some "audit:export"
  | RdOperation _ _ | RdTask _ | RdTaskEvents _ _ _ | RdIntent _ => None
  end.

Definition call_permission (c : session_call) : option string :=
  match c with
  | Change _ c => Some (change_permission c)
  | Reading r => reading_permission r
  | Submit _ _ _ _ _ _ => None
  end.

(** The request a submission needs: the principal's own, signed by an agent. *)
Definition own_request (p : Principal) (c : session_call) : Prop :=
  match c with
  | Submit _ _ _ _ body nonce =>
      is_agent_kind (kind p) = true ∧ request_body_sha256 p = sha256_hex body ∧ request_nonce p = nonce
  | _ => True
  end.

Lemma submit_effect now db_now stamp gen clock s body nonce k :
  (submit_task absolute resolve_path float_repr kc now db_now stamp gen clock s body nonce k).2 ≠ k →
  resolved now (s_principal s) (s_tenant s) k ∧ own_request (s_principal s) (Submit db_now stamp gen clock body nonce).
Proof.
  unfold submit_task. intros (Hr & _ & Hne)%guarded_effect. split; [done|].
  apply reads_effect in Hne as (k0 & [= <-] & Hne); [|apply reads_get].
  apply reads_effect in Hne as (q & Hq & _); [|apply reads_lift]. apply lift_Ok_inv in Hq as [Hq _].
  destruct (assert_request _ _ _ _ _ _) as [o d'] eqn:Ha. cbn in Hq. subst o. apply assert_request_Ok in Ha as (_ & Ha). exact Ha.
Qed.

Lemma operate_effect {A} now s perm (m : M tenant_state A) k :
  (operate kc now s perm m k).2 ≠ k → resolved now (s_principal s) (s_tenant s) k ∧ permitted (s_principal s) (Some perm).
Proof. unfold operate. intros (Hr & Hp & _)%guarded_effect. done. Qed.

Lemma make_change_effect now stamp s c k :
  (make_change now stamp s c k).2 ≠ k →
  resolved now (s_principal s) (s_tenant s) k ∧ permitted (s_principal s) (Some (change_permission c)).
Proof.
  destruct c; cbn [make_change change_permission]; rewrite ?done_state;
    try apply operate_effect; intros (Hr & Hp & _)%guarded_effect; done.
Qed.

Lemma guarded_reads {A} now p (m : KM A) : reads m → reads (guarded kc now p m).
Proof.
  intros Hm k. unfold guarded. destruct (current _ _ _ _) as [u|x]; [|done]. specialize (Hm k).
  destruct (m k) as [[a|e] k']; cbn in *; subst k'; [done|by destruct k].
Qed.

Lemma list_events_reads owner i after limit : reads (list_events owner i after limit).
Proof. unfold list_events. eauto 20 with agentbridge. Qed.
Lemma get_snapshot_reads owner i : reads (get_snapshot owner i).
Proof. unfold get_snapshot. eauto 20 with agentbridge. Qed.
Lemma get_intent_reads owner i : reads (get_intent owner i : M tenant_db intent_row).
Proof.
  unfold get_intent. do 2 (apply reads_bind; [apply reads_lift|intros ?]). apply reads_bind; [apply reads_get|intros x].
  destruct (_ !! _); eauto with agentbridge.
Qed.

Lemma own_reads {A} now s (m : string → M tenant_db A) : (∀ o, reads (m o)) → reads (own kc now s m).
Proof.
  intros Hm. unfold own. apply guarded_reads. apply reads_bind; [apply runtime_reads|intros u].
  apply reads_bind; [apply reads_lift|intros o]. by apply in_tenant_reads, zoom_reads.
Qed.

Lemma operation_reads now s ag op : reads (operation kc now s ag op).
Proof.
  unfold operation. apply guarded_reads. apply reads_bind; [apply runtime_reads|intros u]. apply reads_bind.
  - destruct (is_agent_kind _); [|apply runtime_reads]. apply in_tenant_reads.
    apply reads_bind; [apply zoom_reads, reads_gets|]. intros [b|]; eauto with agentbridge.
  - intros _. apply in_tenant_reads. apply reads_bind; [apply zoom_reads, reads_gets|].
    intros [r|]; [|apply reads_raise]. apply reads_bind; [apply zoom_reads, reads_gets|eauto with agentbridge].
Qed.

Lemma make_reading_effect now s r k :
  (make_reading now s r k).2 ≠ k →
  resolved now (s_principal s) (s_tenant s) k ∧ permitted (s_principal s) (reading_permission r).
Proof.
  destruct r; cbn [make_reading reading_permission]; rewrite ?done_state; try apply operate_effect; intros Hne; destruct Hne.
  - apply operation_reads.
  - apply own_reads. intros o. apply zoom_reads, get_snapshot_reads.
  - apply own_reads. intros o. apply zoom_reads, list_events_reads.
  - apply own_reads. intros o. apply get_intent_reads.
Qed.

(** Whatever a session is asked, and however it ends, other tenants' stores
    and enrollments stay as they are; and it changes anything at all only for a
    principal that is current, bound to this tenant (or a platform
    administrator), whose role has the permission of the call, and for a
    submission only under the agent's own signed request. *)
Theorem session_confined now s c k :
  let k' := (perform now s c k).2 in
  confined_to (s_tenant s) k k' ∧
  (k' ≠ k → resolved now (s_principal s) (s_tenant s) k ∧ permitted (s_principal s) (call_permission c) ∧
            own_request (s_principal s) c).
Proof.
  cbn zeta. destruct c as [stamp c|r|db_now stamp gen clock body nonce]; cbn [perform call_permission].
  - split; [apply make_change_confined|]. intros Hne%make_change_effect. naive_solver.
  - split; [apply make_reading_confined|]. intros Hne%make_reading_effect. naive_solver.
  - split; [apply confined_done, submit_confined|]. rewrite done_state. intros [Hr Ho]%submit_effect. done.
Qed.

(** ** Administrative changes are on the audit chain *)

Definition audit_of (x : tenant_state) : AuditLog.Sql.audit_db := g_aud (td_gov (tn_db x)).

Definition change_event (s : session) (c : change) : AuditLog.event :=
  AuditLog.mkEvent (admin_actor s) (change_action c) "mcp" "mcp" "administration" "allow" "" fzero.

(** A step that writes other tables than the audit's. *)
Definition keeps_audit {A} (m : M tenant_state A) : Prop := ∀ x, audit_of (m x).2 = audit_of x.

Lemma keeps_tasks {A} (m : M task_db A) : keeps_audit (zoom (T := tenant_db) (zoom m)).
Proof. intros x. unfold zoom. cbn. by destruct (m _) as [r y]. Qed.

Lemma keeps_budgets {A} (m : M Manager.manager A) : keeps_audit (zoom (T := gov) (zoom m)).
Proof. intros x. unfold zoom. cbn. by destruct (m _) as [r y]. Qed.

Lemma keeps_ids f : keeps_audit (set_identities f).
Proof. done. Qed.

Lemma keeps_rules {A} (m : M (list string) A) : keeps_audit (zoom (T := list string) m).
Proof. intros x. unfold zoom. cbn. by destruct (m _) as [r y]. Qed.

Lemma keeps_flags {A} (m : M (gset string) A) : keeps_audit (zoom (T := gset string) m).
Proof. intros x. unfold zoom. cbn. by destruct (m _) as [r y]. Qed.

Lemma keeps_approvals i granted : keeps_audit (zoom (T := gov) (decide_approval i granted)).
Proof. intros x. unfold zoom, decide_approval. cbn. destruct granted; cbn; by destruct (Sql.update_approval_status _ _ _) as [b t]. Qed.

Lemma keeps_hold name on : keeps_audit (zoom (T := trust_store) (set_hold name on)).
Proof. intros x. unfold zoom, set_hold, ensure. rewrite run_bind. by destruct (negb _). Qed.

Lemma keeps_quotas l : keeps_audit (zoom (T := gov) (Quotas.set_policy l (mret tt))).
Proof.
  intros x. unfold zoom, Quotas.set_policy. rewrite run_bind. unfold lift. destruct (Quotas.validated l); [|done]. cbn.
  unfold atomic. rewrite run_get, run_bind. unfold lift. by destruct (current_policy _).
Qed.

Lemma keeps_intents l : keeps_audit (zoom (T := tenant_db) (TaskIntents.set_capacity l (mret tt))).
Proof.
  intros x. unfold zoom, TaskIntents.set_capacity. rewrite run_bind. unfold lift. destruct (validated l); [|done]. cbn.
  unfold atomic. rewrite run_get, run_bind. unfold lift. destruct (persisted_policy _); [|done]. cbn.
  rewrite run_bind. unfold ensure. by destruct (negb _).
Qed.

#[local] Hint Resolve keeps_tasks keeps_budgets keeps_ids keeps_rules keeps_flags keeps_approvals keeps_hold keeps_quotas
  keeps_intents : agentbridge.

Lemma audit_admin_Ok s action stamp x u x' :
  AuditSpec.chain (AuditLog.Sql.rows (audit_of x)) → AuditSpec.counted (audit_of x) →
  audit_admin s action stamp x = (Ok u, x') →
  AuditLog.Sql.rows (audit_of x') = AuditLog.Sql.rows (audit_of x) ++
    [AuditSpec.next_entry (AuditLog.mkEvent (admin_actor s) action "mcp" "mcp" "administration" "allow" "" fzero) stamp (audit_of x)].
Proof.
  intros Hc Hn. unfold audit_admin. intros Ha. mstep Ha. apply mret_Ok_inv in Ha as [_ ->].
  apply zoom_Ok_inv in Hm as (g & Hm & ->). apply zoom_Ok_inv in Hm as (d & Hm & ->).
  apply AuditSpec.record_cases in Hm; [|done..]. destruct Hm as [[_ Hm]|(_ & Hr & _)]; [done|exact Hr].
Qed.

(** A change as a step that keeps the audit tables, then its record. *)
Lemma recorded_Ok {A} s action stamp (m : M tenant_state A) x u x' :
  keeps_audit m → AuditSpec.chain (AuditLog.Sql.rows (audit_of x)) → AuditSpec.counted (audit_of x) →
  (m ≫= fun _ => audit_admin s action stamp) x = (Ok u, x') →
  AuditLog.Sql.rows (audit_of x') = AuditLog.Sql.rows (audit_of x) ++
    [AuditSpec.next_entry (AuditLog.mkEvent (admin_actor s) action "mcp" "mcp" "administration" "allow" "" fzero) stamp (audit_of x)].
Proof.
  intros Hk Hc Hn Hm. mstep Hm. specialize (Hk x). rewrite Hm0 in Hk. cbn in Hk.
  apply audit_admin_Ok in Hm; rewrite Hk in *; done.
Qed.

Lemma in_tenant_Ok {A} t (m : M tenant_state A) k a k' :
  in_tenant t m k = (Ok a, k') →
  ∃ x x', k_tenants k !! t = Some x ∧ m x = (Ok a, x') ∧ k' = mkKernel (k_dir k) (<[t := x']> (k_tenants k)).
Proof. unfold in_tenant. destruct (k_tenants k !! t) as [x|]; [|done]. destruct (m x) as [r x'] eqn:Hm. intros [= -> <-]. eauto 10. Qed.

(** The tenant's store before and after a method's last step. *)
Definition tenant_step {A} (t : string) (m : M tenant_state A) (k : kernel_state) (a : A) (k' : kernel_state) : Prop :=
  ∃ x x', k_tenants k !! t = Some x ∧ m x = (Ok a, x') ∧ k_tenants k' !! t = Some x'.

Lemma operate_Ok {A} now s perm (m : M tenant_state A) k a k' :
  operate kc now s perm m k = (Ok a, k') → tenant_step (s_tenant s) m k a k'.
Proof.
  unfold operate. intros [_ Hm]%guarded_Ok. mstep Hm. apply runtime_Ok in Hm0 as (-> & _).
  apply in_tenant_Ok in Hm as (x & x' & Hx & Hm & ->). exists x, x'. cbn. by rewrite lookup_insert_eq.
Qed.

Lemma done_Ok {A} (m : KM A) k b k' : done_ m k = (Ok b, k') → ∃ a, m k = (Ok a, k').
Proof. unfold done_. intros Hm. mstep Hm. apply mret_Ok_inv in Hm as [_ ->]. eauto. Qed.

Lemma zoom_dir_tenants {A} (m : M directory A) k : k_tenants (zoom m k).2 = k_tenants k.
Proof. unfold zoom. by destruct (m _) as [r d]. Qed.

(** The step on the tenant's store that a successful change ends with. *)
Lemma change_step now stamp s c k k' :
  make_change now stamp s c k = (Ok true, k') →
  ∃ A (m : M tenant_state A) x x', keeps_audit m ∧ k_tenants k !! s_tenant s = Some x ∧
    (m ≫= fun _ => audit_admin s (change_action c) stamp) x = (Ok tt, x') ∧ k_tenants k' !! s_tenant s = Some x'.
Proof.
  destruct c; cbn [make_change change_action]; intros Hc; try apply done_Ok in Hc as [[] Hc].
  all: try (apply operate_Ok in Hc as (x & x' & Hx & Hc & Hx'); try apply (proj1 (atomic_Ok _ _ _ _)) in Hc;
            eexists _, _, x, x'; split; [|by eauto]; by auto with agentbridge).
  - unfold enroll_agent in Hc. apply guarded_Ok in Hc as [_ Hc]. mstep Hc. apply runtime_Ok in Hm as (-> & _). mstep Hc.
    pose proof (zoom_dir_tenants (Authority.enroll_agent (kc_key kc) now (s_principal s) (s_tenant s) ag key caps tgts) k) as Ht.
    rewrite Hm in Ht. cbn in Ht. apply in_tenant_Ok in Hc as (x & x' & Hx & Hc & ->). rewrite Ht in Hx.
    eexists _, _, x, x'. cbn. rewrite lookup_insert_eq. eauto with agentbridge.
  - unfold revoke_agent in Hc. apply guarded_Ok in Hc as [_ Hc]. mstep Hc. apply runtime_Ok in Hm as (-> & _). mstep Hc.
    pose proof (zoom_dir_tenants (Authority.revoke_agent (kc_key kc) now (s_principal s) (s_tenant s) ag) k) as Ht.
    rewrite Hm in Ht. cbn in Ht. apply in_tenant_Ok in Hc as (x & x' & Hx & Hc & ->). rewrite Ht in Hx.
    eexists _, _, x, x'. cbn. rewrite lookup_insert_eq. eauto with agentbridge.
  - unfold set_budget in Hc. apply guarded_Ok in Hc as [_ Hc]. mstep Hc. apply runtime_Ok in Hm as (-> & _).
    mstep Hc. apply lift_Ok_inv in Hm as [_ ->]. mstep Hc. apply ensure_Ok_inv in Hm as [_ ->].
    apply in_tenant_Ok in Hc as (x & x' & Hx & Hc & ->). eexists _, _, x, x'. cbn. rewrite lookup_insert_eq. eauto with agentbridge.
  - apply operate_Ok in Hc as (x & x' & Hx & Hc & Hx'). mstep Hc. mstep Hc. apply mret_Ok_inv in Hc as [Ha Es]. subst.
    exists bool, (zoom (T := gov) (decide_approval request granted)), x, s1. split; [auto with agentbridge|].
    split; [done|]. split; [|done]. rewrite run_bind, Hm. destruct a0. exact Hm0.
Qed.

(** The changes made in one transaction with their record. *)
Definition transactional (c : change) : bool :=
  match c with
  | ChQuotas _ | ChHistory _ | ChEvents _ | ChIntents _ | ChSensitive _ | ChPolicy _ => true
  | _ => false
  end.

Lemma operate_atomic_Raise {A} now s perm (m : M tenant_state A) k e k' :
  operate kc now s perm (atomic m) k = (Raise e, k') → k' = k.
Proof. clear absolute resolve_path float_repr.
  unfold operate, guarded. destruct (current _ _ _ _) as [u|x]; [|naive_solver]. rewrite run_bind.
  pose proof (runtime_reads now s (Some perm) k) as Hk. destruct (runtime _ _ _ _ k) as [[v|y] k1]; cbn in Hk; subst k1.
  2:{ intros [= _ <-]. by destruct k. }
  unfold in_tenant. destruct (k_tenants k !! s_tenant s) as [x|] eqn:Hx; [|intros [= _ <-]; by destruct k].
  destruct (atomic m x) as [[a|y] x'] eqn:Hm; cbn; [naive_solver|]. apply atomic_Raise in Hm as ->.
  intros [= _ <-]. destruct k as [d ts]. cbn in *. by rewrite insert_id.
Qed.

Lemma done_Raise {A} (m : KM A) k e k' : done_ m k = (Raise e, k') → m k = (Raise e, k').
Proof. unfold done_. rewrite run_bind. destruct (m k) as [[a|x] k1]; naive_solver. Qed.

(** An administrative change that takes effect through a session is the last
    entry of the tenant's audit chain, under the authenticated principal and the
    change's own name; a change of quotas, capacities, sensitive capabilities or
    policy that is refused leaves nothing behind. *)
Theorem change_audited now stamp s c k x :
  k_tenants k !! s_tenant s = Some x →
  AuditSpec.chain (AuditLog.Sql.rows (audit_of x)) → AuditSpec.counted (audit_of x) →
  match make_change now stamp s c k with
  | (Ok true, k') =>
      ∃ x', k_tenants k' !! s_tenant s = Some x' ∧
        AuditLog.Sql.rows (audit_of x') =
          AuditLog.Sql.rows (audit_of x) ++ [AuditSpec.next_entry (change_event s c) stamp (audit_of x)]
  | (Ok false, _) => ∃ i granted, c = ChApprove i granted
  | (Raise _, k') => transactional c = true → k' = k
  end.
Proof.
  intros Hx Hc Hn. destruct (make_change now stamp s c k) as [[[]|e] k'] eqn:Hm.
  - apply change_step in Hm as (A & m & y & x' & Hk & Hy & Hm & Hx'). rewrite Hx in Hy. injection Hy as <-.
    exists x'. split; [done|]. exact (recorded_Ok _ _ _ _ _ _ _ Hk Hc Hn Hm).
  - destruct c; cbn [make_change] in Hm; eauto; unfold done_ in Hm; mstep Hm; by apply mret_Ok_inv in Hm as [[=] _].
  - destruct c; cbn [transactional make_change] in *; try done; intros _; apply done_Raise in Hm; by apply operate_atomic_Raise in Hm.
Qed.

(** C39: a decision on an approval is not in one transaction with its record: when
    the tenant's audit log refuses the record, the session raises, and the
    approval request stays decided without one. *)
Theorem approval_survives_refused_record now stamp s i k x t y e :
  runtime kc now s (Some "approvals:write") k = (Ok tt, k) → k_tenants k !! s_tenant s = Some x →
  Approvals.approve i (g_apr (td_gov (tn_db x))) = (true, t) →
  audit_admin s "approve" stamp (update (update t (td_gov (tn_db x))) x) = (Raise e, y) →
  ∃ k' x', approve kc now stamp s i true k = (Raise e, k') ∧ k_tenants k' !! s_tenant s = Some x' ∧
    g_apr (td_gov (tn_db x')) = t ∧ audit_of x' = audit_of x.
Proof.
  intros Hr Hx Ha Hau. exists (mkKernel (k_dir k) (<[s_tenant s := y]> (k_tenants k))), y.
  assert (g_apr (td_gov (tn_db y)) = t ∧ audit_of y = audit_of x) as [Hy1 Hy2].
  { revert Hau. unfold audit_admin, zoom. rewrite run_bind. cbn [view update lens_gov_state lens_aud].
    set (d := g_aud _). destruct (AuditLog.Sql.record _ _ d) as [[a|e'] d'] eqn:Hrec; [done|].
    intros [= _ <-]. split; [done|]. cbn. rewrite AuditSpec.record_run in Hrec.
    destruct (AuditLog.Sql.insert_audit _ d) as [[u|e''] d1] eqn:Hi; [done|]. injection Hrec as _ <-.
    unfold AuditLog.Sql.insert_audit in Hi. repeat case_match; by simplify_eq. }
  split; [|cbn; by rewrite lookup_insert_eq].
  unfold approve, operate, guarded. pose proof (runtime_Ok _ _ _ _ _ _ Hr) as (_ & [Hc _ _] & _). rewrite Hc, run_bind, Hr.
  unfold in_tenant. rewrite Hx, run_bind. unfold zoom at 1, decide_approval. cbn [view lens_gov_state]. rewrite Ha.
  rewrite run_bind. cbn [when]. cbn [update lens_gov_state] in Hau |- *. by rewrite Hau.
Qed.

(** ** Budgets *)

(** Lowering a limit through a session never drops exposure: what was spent
    and reserved stays, and the new limit covers it. *)
Theorem set_budget_keeps_exposure now stamp s ag limit rate window k k' x :
  k_tenants k !! s_tenant s = Some x →
  set_budget kc now stamp s ag limit rate window k = (Ok tt, k') →
  ∃ x' l, k_tenants k' !! s_tenant s = Some x' ∧ checked_cost limit = Ok l ∧
    let b := Manager.current (kc_budget kc) (g_bud (td_gov (tn_db x))) ag in
    let b' := Manager.current (kc_budget kc) (g_bud (td_gov (tn_db x'))) ag in
    b' = mkBudget l rate (fl window) (spent b) (calls b) (reserved b) ∧
    fltb l (fadd (spent b) (Manager.reserved_sum b)) = false ∧ 1 ≤ rate ≤ 1000000 ∧ 1 ≤ window ≤ 31536000.
Proof. clear absolute resolve_path float_repr.
  intros Hx. unfold set_budget. intros [_ Hs]%guarded_Ok. mstep Hs. apply runtime_Ok in Hm as (-> & _).
  mstep Hs. apply lift_Ok_inv in Hm as [Hl ->]. mstep Hs. apply ensure_Ok_inv in Hm as [Hb ->].
  apply in_tenant_Ok in Hs as (y & x' & Hy & Hs & ->). rewrite Hx in Hy. injection Hy as <-.
  exists x', a0. cbn [k_tenants]. rewrite lookup_insert_eq. split; [done|]. split; [done|]. cbn zeta.
  mstep Hs. apply zoom_Ok_inv in Hm as (g & Hm & ->). apply zoom_Ok_inv in Hm as (m & Hm & ->).
  rewrite run_get in Hm. mstep Hm. apply lift_Ok_inv in Hm0 as [Hlim ->]. apply put_Ok_inv in Hm as ->.
  unfold limit_mutator in Hlim. apply outcome_bind_Ok in Hlim as (u & Hg%guard_or_Ok & Hlim). injection Hlim as <-.
  rewrite !andb_true_iff, !Z.leb_le in Hb. apply negb_true_iff in Hg.
  assert (g_bud (td_gov (tn_db x')) = Manager.store_row ag (set_limits a0 rate window
    (Manager.current (kc_budget kc) (g_bud (td_gov (tn_db x))) ag)) (g_bud (td_gov (tn_db x)))) as Hbud.
  { unfold audit_admin in Hs. mstep Hs. apply mret_Ok_inv in Hs as [_ ->]. apply zoom_Ok_inv in Hm as (g & Hm & ->).
    apply zoom_Ok_inv in Hm as (d & _ & ->). done. }
  split; [|naive_solver lia]. rewrite Hbud. unfold Manager.current at 1, Manager.store_row, Manager.seed. cbn [Manager.rows].
  rewrite lookup_insert_eq. by rewrite from_state_state.
Qed.

(** ** What a change does *)

(** The tenant's tables that administration changes. *)
Definition ids_of (x : tenant_state) : gmap string identity_row := g_ids (td_gov (tn_db x)).
Definition budget_of (x : tenant_state) (ag : string) : Budget := Manager.current (kc_budget kc) (g_bud (td_gov (tn_db x))) ag.
Definition approval_of (x : tenant_state) (i : string) : option ApprovalRequest := Sql.get_approval i (g_apr (td_gov (tn_db x))).

(** A change of tenant [t] as the directory and the tenant's store show it
    afterwards, through the reads that govern later requests. *)
Definition took_effect (t : string) (c : change) (d' : directory) (x x' : tenant_state) : Prop :=
  match c with
  | ChEnroll ag key caps tgts =>
      ids_of x' !! ag = Some (mkIdRow (str_lower key) false) ∧
      ∃ rev caps' tgts', scopes caps = Ok caps' ∧ scopes tgts = Ok tgts' ∧
        agents d' !! (t, ag) = Some (mkAgent (str_lower key) rev true caps' tgts')
  | ChRevoke ag =>
      (∀ row, ids_of x' !! ag = Some row → row_revoked row = true) ∧
      ∃ row, agents d' !! (t, ag) = Some row ∧ g_active row = false
  | ChBudget ag limit rate window =>
      ∃ l, checked_cost limit = Ok l ∧ budget_of x' ag = set_limits l rate window (budget_of x ag)
  | ChQuotas l => current_policy (g_quo (td_gov (tn_db x'))) = Ok l
  | ChHistory n => history_policy (td_tasks (tn_db x')) = Ok n
  | ChEvents n => event_policy (td_tasks (tn_db x')) = Ok n
  | ChIntents l => persisted_policy (td_intents (tn_db x')) = Ok l
  | ChApprove i granted =>
      ∃ a, approval_of x i = Some a ∧ st a = pending ∧
        approval_of x' i = Some (set_status (if granted then approved else denied) a)
  | ChSensitive c => c ∈ tn_sensitive x'
  | ChPolicy r => ∃ data, rule_to_dict r = Ok data ∧ tn_rules x' = tn_rules x ++ [json_dumps (JObj data)]
  | ChHold name on => tn_holds x' !! name = Some on
  end.

(** The audit record touches none of them. *)
Lemma audit_admin_frame s action stamp x u x' :
  audit_admin s action stamp x = (Ok u, x') → ∃ a : AuditLog.Sql.audit_db, x' = update (update a (td_gov (tn_db x))) x.
Proof.
  unfold audit_admin. intros Ha. mstep Ha. apply mret_Ok_inv in Ha as [_ ->].
  apply zoom_Ok_inv in Hm as (g & Hm & ->). apply zoom_Ok_inv in Hm as (d & _ & ->). by exists d.
Qed.

Lemma took_effect_framed t c d' x x1 (a : AuditLog.Sql.audit_db) :
  took_effect t c d' x x1 → took_effect t c d' x (update (update a (td_gov (tn_db x1))) x1).
Proof. by destruct c. Qed.

Lemma enroll_dir now p t ag key caps tgts d u d' :
  Authority.enroll_agent (kc_key kc) now p t ag key caps tgts d = (Ok u, d') →
  ∃ rev caps' tgts', scopes caps = Ok caps' ∧ scopes tgts = Ok tgts' ∧
    agents d' !! (t, ag) = Some (mkAgent (str_lower key) rev true caps' tgts').
Proof. clear absolute resolve_path float_repr.
  unfold Authority.enroll_agent. intros He. do 2 (mstep He; apply lift_Ok_inv in Hm as [_ ->]).
  mstep He. apply ensure_Ok_inv in Hm as [_ ->]. mstep He. apply lift_Ok_inv in Hm as [Hc ->].
  mstep He. apply lift_Ok_inv in Hm as [Ht ->]. apply (proj1 (atomic_Ok _ _ _ _)) in He. rewrite run_get in He.
  do 2 (mstep He; apply lift_Ok_inv in Hm as [_ ->]). apply put_Ok_inv in He as ->.
  eexists _, _, _. split; [exact Hc|]. split; [exact Ht|]. simpl. apply lookup_insert_eq.
Qed.

Lemma revoke_dir now p t ag d u d' :
  Authority.revoke_agent (kc_key kc) now p t ag d = (Ok u, d') →
  ∃ row, agents d' !! (t, ag) = Some row ∧ g_active row = false.
Proof. clear absolute resolve_path float_repr.
  unfold Authority.revoke_agent. intros He. apply (proj1 (atomic_Ok _ _ _ _)) in He. rewrite run_get in He.
  do 2 (mstep He; apply lift_Ok_inv in Hm as [_ ->]). apply put_Ok_inv in He as ->.
  eexists. simpl. rewrite lookup_insert_eq. split; [reflexivity|done].
Qed.

Lemma quotas_takes_effect t l d' x u x1 :
  zoom (T := gov) (Quotas.set_policy l (mret tt)) x = (Ok u, x1) → took_effect t (ChQuotas l) d' x x1.
Proof. clear absolute resolve_path float_repr.
  intros Hm. apply zoom_Ok_inv in Hm as (g & Hm & ->). unfold Quotas.set_policy in Hm.
  mstep Hm. apply lift_Ok_inv in Hm0 as [Hv ->]. apply (proj1 (atomic_Ok _ _ _ _)) in Hm. rewrite run_get in Hm.
  mstep Hm. apply lift_Ok_inv in Hm0 as [_ ->]. mstep Hm. apply mret_Ok_inv in Hm as [_ ->].
  injection Hm0 as Hq. subst s. unfold took_effect, current_policy. cbn. rewrite Hv.
  f_equal. clear -Hv. unfold Quotas.validated in Hv.
  repeat (apply outcome_bind_Ok in Hv as (? & _ & Hv)). by injection Hv as <-.
Qed.

Lemma history_takes_effect t n d' x u x1 :
  zoom (T := tenant_db) (zoom (TaskLifecycle.set_history_capacity n (mret tt))) x = (Ok u, x1) →
  took_effect t (ChHistory n) d' x x1.
Proof. clear absolute resolve_path float_repr.
  intros Hm. apply zoom_Ok_inv in Hm as (g & Hm & ->). apply zoom_Ok_inv in Hm as (d & Hm & ->).
  unfold TaskLifecycle.set_history_capacity in Hm. mstep Hm. apply ensure_Ok_inv in Hm0 as [Hn ->].
  apply (proj1 (atomic_Ok _ _ _ _)) in Hm. rewrite run_get in Hm. mstep Hm. apply lift_Ok_inv in Hm0 as [Hp ->].
  mstep Hm. apply ensure_Ok_inv in Hm0 as [_ ->]. mstep Hm. apply mret_Ok_inv in Hm as [_ ->]. apply put_Ok_inv in Hm0 as ->.
  unfold took_effect, history_policy, joined_policy in *. simpl in *.
  destruct (meta_version _) as [[|[]|]|]; try done. by rewrite Hn.
Qed.

Lemma events_takes_effect t n d' x u x1 :
  zoom (T := tenant_db) (zoom (TaskLifecycle.set_event_capacity n (mret tt))) x = (Ok u, x1) →
  took_effect t (ChEvents n) d' x x1.
Proof. clear absolute resolve_path float_repr.
  intros Hm. apply zoom_Ok_inv in Hm as (g & Hm & ->). apply zoom_Ok_inv in Hm as (d & Hm & ->).
  unfold TaskLifecycle.set_event_capacity in Hm. mstep Hm. apply lift_Ok_inv in Hm0 as [Hn ->].
  apply (proj1 (atomic_Ok _ _ _ _)) in Hm. rewrite run_get in Hm. mstep Hm. apply lift_Ok_inv in Hm0 as [Hp ->].
  destruct (event_usage _) as [used res]. mstep Hm. apply ensure_Ok_inv in Hm0 as [_ ->]. mstep Hm.
  apply mret_Ok_inv in Hm as [_ ->]. apply put_Ok_inv in Hm0 as ->.
  unfold took_effect, event_policy, joined_policy in *. simpl in *.
  destruct (meta_version _) as [[|[]|]|]; try done. unfold validate_event_limit in *. by destruct (_ && _).
Qed.

Lemma intents_takes_effect t l d' x u x1 :
  zoom (T := tenant_db) (TaskIntents.set_capacity l (mret tt)) x = (Ok u, x1) → took_effect t (ChIntents l) d' x x1.
Proof. clear absolute resolve_path float_repr.
  intros Hm. apply zoom_Ok_inv in Hm as (g & Hm & ->). unfold TaskIntents.set_capacity in Hm.
  mstep Hm. apply lift_Ok_inv in Hm0 as [Hv ->]. apply (proj1 (atomic_Ok _ _ _ _)) in Hm. rewrite run_get in Hm. cbv zeta in Hm.
  mstep Hm. apply lift_Ok_inv in Hm0 as [Hp ->]. mstep Hm. apply ensure_Ok_inv in Hm0 as [_ ->]. mstep Hm.
  apply mret_Ok_inv in Hm as [_ ->]. apply put_Ok_inv in Hm0 as ->.
  unfold took_effect, persisted_policy in *. simpl in *. unfold intents_of in *. simpl in *.
  destruct (intent_meta _) as [[|[]|]|]; try done. destruct (intent_policy _) as [[[|[]|] l']|]; try done.
  unfold TaskIntents.validated in Hv. by destruct (limits_valid l).
Qed.

Lemma approve_takes_effect t i granted d' x x1 :
  zoom (T := gov) (decide_approval i granted) x = (Ok true, x1) → took_effect t (ChApprove i granted) d' x x1.
Proof. clear absolute resolve_path float_repr.
  intros Hm. apply zoom_Ok_inv in Hm as (g & Hm & ->). unfold decide_approval in Hm. simpl in Hm.
  unfold took_effect, approval_of. simpl.
  set (y := if granted then approved else denied).
  assert (Sql.update_approval_status i y (g_apr (td_gov (tn_db x))) = (true, g_apr g)) as Hu.
  { unfold y. destruct granted; simpl in Hm; destruct (Sql.update_approval_status _ _ _) as [b tb]; by injection Hm as -> <-. }
  unfold Sql.update_approval_status in Hu. destruct (Sql.get_approval i _) as [a|] eqn:Ha; [|done].
  destruct (decide (st a = pending)); [|done]. injection Hu as <-. exists a. split; [done|]. split; [done|].
  rewrite sql_get_set_row, Ha. simpl. rewrite decide_True; [done|].
  apply fmap_Some in Ha as ([n b] & Hf & ->). by apply list_find_Some in Hf as (_ & Hf & _).
Qed.

(** A change that succeeds takes effect. *)
Lemma change_takes_effect now stamp s c k k' :
  make_change now stamp s c k = (Ok true, k') →
  ∃ x x', k_tenants k !! s_tenant s = Some x ∧ k_tenants k' !! s_tenant s = Some x' ∧
    took_effect (s_tenant s) c (k_dir k') x x'.
Proof. clear absolute resolve_path float_repr.
  destruct c; cbn [make_change]; intros Hc; try apply done_Ok in Hc as [[] Hc].
  all: try (apply operate_Ok in Hc as (x & x' & Hx & Hc & Hx'); try apply (proj1 (atomic_Ok _ _ _ _)) in Hc;
    exists x, x'; split; [done|]; split; [done|]; mstep Hc;
    try (apply audit_admin_frame in Hc as [au ->]; apply took_effect_framed)).
  - unfold enroll_agent in Hc. apply guarded_Ok in Hc as [_ Hc]. mstep Hc. apply runtime_Ok in Hm as (-> & _). mstep Hc.
    apply zoom_Ok_inv in Hm as (d & Hm & ->). apply enroll_dir in Hm.
    apply in_tenant_Ok in Hc as (x & x' & Hx & Hc & ->). exists x, x'. cbn [k_tenants k_dir]. rewrite lookup_insert_eq.
    split; [done|]. split; [done|]. mstep Hc. apply audit_admin_frame in Hc as [au ->]. apply took_effect_framed.
    injection Hm0 as Hq. subst. split; [unfold ids_of; simpl; apply lookup_insert_eq|done].
  - unfold revoke_agent in Hc. apply guarded_Ok in Hc as [_ Hc]. mstep Hc. apply runtime_Ok in Hm as (-> & _). mstep Hc.
    apply zoom_Ok_inv in Hm as (d & Hm & ->). apply revoke_dir in Hm.
    apply in_tenant_Ok in Hc as (x & x' & Hx & Hc & ->). exists x, x'. cbn [k_tenants k_dir]. rewrite lookup_insert_eq.
    split; [done|]. split; [done|]. mstep Hc. apply audit_admin_frame in Hc as [au ->]. apply took_effect_framed.
    injection Hm0 as Hq. subst. split; [|done]. unfold ids_of. simpl. unfold revoke. simpl. intros row.
    destruct (g_ids (td_gov (tn_db x)) !! ag) as [r|] eqn:Hr; simpl; [|by rewrite Hr].
    unfold upsert_identity. rewrite lookup_insert_eq. by intros [= <-].
  - pose proof Hc as Hs. unfold set_budget in Hs. apply guarded_Ok in Hs as [_ Hs]. mstep Hs. apply runtime_Ok in Hm as (-> & _).
    mstep Hs. apply lift_Ok_inv in Hm as [_ ->]. mstep Hs. apply ensure_Ok_inv in Hm as [_ ->].
    apply in_tenant_Ok in Hs as (x & _ & Hx & _). destruct (set_budget_keeps_exposure _ _ _ _ _ _ _ _ _ _ Hx Hc) as (x' & l & Hx' & Hl & Hb & _).
    exists x, x'. split; [done|]. split; [done|]. exists l. split; [done|exact Hb].
  - by eapply quotas_takes_effect.
  - by eapply history_takes_effect.
  - by eapply events_takes_effect.
  - by eapply intents_takes_effect.
  - mstep Hc. apply mret_Ok_inv in Hc as [<- ->]. cbn [when] in Hm0. apply audit_admin_frame in Hm0 as [au ->].
    apply took_effect_framed. by apply approve_takes_effect.
  - apply zoom_Ok_inv in Hm as (y & Hm & ->). unfold durable_mark_sensitive in Hm. mstep Hm. injection Hm as Hq. subst.
    unfold took_effect. simpl. set_solver.
  - apply zoom_Ok_inv in Hm as (y & Hm & ->). unfold durable_add in Hm. mstep Hm. apply lift_Ok_inv in Hm0 as [Hd ->].
    injection Hm as Hq. subst. by exists a0.
  - apply zoom_Ok_inv in Hm as (y & Hm & ->). unfold set_hold in Hm. mstep Hm. apply ensure_Ok_inv in Hm0 as [_ ->].
    injection Hm as Hq. subst. unfold took_effect. simpl. apply lookup_insert_eq.
Qed.

(** ** Submitted tasks *)

(** What a successful submission found and wrote: the request it parsed, the
    rows and configuration it relied on, and the tenant's store after it. *)
Record submitted (now db_now : float64) (stamp : string) (gen : ids) (clock : nat → datetime) (s : session)
    (body nonce : string) (k : kernel_state) (row : intent_row) (k' : kernel_state) (x : tenant_state) (db : tenant_db)
    (sub : TaskSubmission) (capab : string) (enrolled : agent_row) (su : tenant_setup) (cost : float64)
    (target : descriptor + json) (rules : list Rule) (owner : string) : Prop := {
  sb_resolved : resolved now (s_principal s) (s_tenant s) k;
  sb_request : own_request (s_principal s) (Submit db_now stamp gen clock body nonce);
  sb_before : k_tenants k !! s_tenant s = Some x;
  sb_after : k' = mkKernel (k_dir k) (<[s_tenant s := update db x]> (k_tenants k));
  sb_parsed : parse_submission body = Ok sub;
  sb_capability : submitted_capability kc gen sub = Ok capab;
  sb_scope : capab ∈ capabilities (s_principal s) ∧ sub_target sub ∈ targets (s_principal s);
  sb_enrolled : active_agent (Some (s_tenant s)) (p_agent_id (s_principal s)) (k_dir k) = Ok enrolled;
  sb_setup : kc_tenants kc !! s_tenant s = Some su;
  sb_identity : match g_ids (td_gov (tn_db x)) !! default "" (p_agent_id (s_principal s)) with
                | Some r => negb (row_revoked r) && bool_decide (row_key r = g_key enrolled)
                | None => false
                end = true;
  sb_cost : su_costs su !! capab = Some cost;
  sb_target : resolve_queued_target absolute resolve_path (config_of kc (s_tenant s) su [] ∅) (sub_target sub) (sub_dst sub)
                capab (default "" (p_agent_id (s_principal s))) (sub_wire sub) = Ok target;
  sb_adapter : match target with
               | inl d => queued_adapter (config_of kc (s_tenant s) su [] ∅) (sub_target sub) d
               | inr _ => Ok tt
               end = Ok tt;
  sb_rules : load_rules (tn_rules x) = Ok rules;
  sb_owner : principal_owner (s_principal s) = Ok owner;
  sb_accepted : ∃ approval,
    accept (kc_max_active kc) owner sub
      (submission_provenance (s_principal s) body nonce (g_key enrolled) capab cost target approval)
      (fun fp => zoom (T := gov) (audit_submission kc now stamp (s_principal s) (k_dir k) sub capab fp)) db_now (tn_db x) =
    (Ok row, db);
}.

Lemma authorize_Ok now p c target d q :
  (Authority.authorize (kc_key kc) now p c (Some target) d).1 = Ok q →
  current (kc_key kc) now p d = Ok tt ∧ is_agent_kind (kind p) = true ∧ c ∈ capabilities p ∧ target ∈ targets p.
Proof.
  destruct (Authority.authorize (kc_key kc) now p c (Some target) d) as [o d'] eqn:Ha. cbn. intros ->.
  unfold Authority.authorize in Ha. minv.
  repeat match goal with Hx : _ && _ = true |- _ => apply andb_true_iff in Hx as [? ?] end.
  repeat match goal with Hx : bool_decide _ = true |- _ => apply bool_decide_eq_true in Hx end. done.
Qed.

Lemma submit_in_tenant_Ok now db_now stamp clock p d su t body nonce sub capab enrolled x row x' :
  submit_in_tenant absolute resolve_path float_repr kc now db_now stamp clock p d su t body nonce sub capab enrolled x =
    (Ok row, x') →
  ∃ cost target rules owner db approval,
    match g_ids (td_gov (tn_db x)) !! default "" (p_agent_id p) with
    | Some r => negb (row_revoked r) && bool_decide (row_key r = g_key enrolled)
    | None => false
    end = true ∧ su_costs su !! capab = Some cost ∧
    resolve_queued_target absolute resolve_path (config_of kc t su [] ∅) (sub_target sub) (sub_dst sub) capab
      (default "" (p_agent_id p)) (sub_wire sub) = Ok target ∧
    match target with inl y => queued_adapter (config_of kc t su [] ∅) (sub_target sub) y | inr _ => Ok tt end = Ok tt ∧
    load_rules (tn_rules x) = Ok rules ∧ principal_owner p = Ok owner ∧
    accept (kc_max_active kc) owner sub (submission_provenance p body nonce (g_key enrolled) capab cost target approval)
      (fun fp => zoom (T := gov) (audit_submission kc now stamp p d sub capab fp)) db_now (tn_db x) = (Ok row, db) ∧
    x' = update db x.
Proof.
  unfold submit_in_tenant. rewrite run_get. intros Hs.
  mstep Hs. apply ensure_Ok_inv in Hm as [Hid ->]. mstep Hs. apply lift_Ok_inv in Hm as [Hc ->].
  destruct (su_costs su !! capab) as [cost|] eqn:Hcost; [|done]. injection Hc as <-.
  mstep Hs. apply lift_Ok_inv in Hm as [Ht ->]. mstep Hs. apply lift_Ok_inv in Hm as [Had ->].
  apply (proj1 (atomic_Ok _ _ _ _)) in Hs. rewrite run_get in Hs. mstep Hs. apply lift_Ok_inv in Hm as [Hru ->].
  mstep Hs. apply ensure_Ok_inv in Hm as [_ ->]. mstep Hs. apply lift_Ok_inv in Hm as [Ho ->].
  apply zoom_Ok_inv in Hs as (db & Hs & ->). destruct a1. eauto 20.
Qed.

Lemma submit_Ok now db_now stamp gen clock s body nonce k row k' :
  submit_task absolute resolve_path float_repr kc now db_now stamp gen clock s body nonce k = (Ok row, k') →
  ∃ x db sub capab enrolled su cost target rules owner,
    submitted now db_now stamp gen clock s body nonce k row k' x db sub capab enrolled su cost target rules owner.
Proof.
  unfold submit_task. intros [_ Hs]%guarded_Ok. mstep Hs. apply runtime_Ok in Hm as (-> & Hres & _). rewrite run_get in Hs.
  mstep Hs. apply lift_Ok_inv in Hm as [Hq ->].
  destruct (assert_request _ _ _ _ _ _) as [o d'] eqn:Ha. cbn in Hq. subst o. apply assert_request_Ok in Ha as (_ & Ha).
  mstep Hs. apply lift_Ok_inv in Hm as [Hp ->]. mstep Hs. apply lift_Ok_inv in Hm as [Hc ->].
  mstep Hs. apply lift_Ok_inv in Hm as [(_ & _ & Hsc)%authorize_Ok ->].
  mstep Hs. apply lift_Ok_inv in Hm as [He ->]. mstep Hs. apply lift_Ok_inv in Hm as [Hsu ->].
  unfold setup_of in Hsu. destruct (kc_tenants kc !! s_tenant s) as [su|] eqn:Hk; [|done]. injection Hsu as <-.
  apply in_tenant_Ok in Hs as (x & x' & Hx & Hs & ->).
  apply submit_in_tenant_Ok in Hs as (cost & target & rules & owner & db & approval & H1' & H2' & H3' & H4' & H5' & H6' & H7' & ->).
  exists x, db, a1, a2, a4, su, cost, target, rules, owner. split; try done. by exists approval.
Qed.

Lemma current_seal now p d : current (kc_key kc) now p d = Ok tt → seal_ok (kc_key kc) now p = true.
Proof. unfold current, verify_seal. intros (u & Hs & _)%outcome_bind_Ok. by apply guard_or_Ok in Hs. Qed.

Lemma agent_kind_not_admin p : is_agent_kind (kind p) = true → kind p ≠ "platform_admin".
Proof. unfold is_agent_kind. intros Ha%bool_decide_eq_true Hk. rewrite Hk in Ha. naive_solver. Qed.

(** The provenance a session writes is vouched for in the sense of the intents'
    loader. *)
Lemma submitted_vouched now db_now stamp gen clock s body nonce k row k' x db sub capab enrolled su cost target rules owner
    approval :
  submitted now db_now stamp gen clock s body nonce k row k' x db sub capab enrolled su cost target rules owner →
  fisfinite db_now = true → fltb fzero db_now = true → fltb db_now (valid_until (s_principal s)) = true →
  vouched (s_tenant s) owner (default "" (p_agent_id (s_principal s))) sub
    (submission_provenance (s_principal s) body nonce (g_key enrolled) capab cost target approval) db_now.
Proof.
  intros [[Hcur Ht _] (Hk & _) _ _ Hp _ _ He _ _ _ _ _ _ Ho _] Hf H0' H1'.
  assert (seal_ok (kc_key kc) now (s_principal s) = true) as Hseal by (by eapply current_seal).
  unfold seal_ok in Hseal. rewrite !andb_true_iff in Hseal. destruct Hseal as [[_ Hfin] _].
  split; cbn; try done.
  - destruct Ht as [[Hadm _]|Ht]; [by destruct (agent_kind_not_admin _ Hk)|done].
  - split; [|done]. unfold active_agent in He. by destruct (p_agent_id (s_principal s)).
Qed.

(** A submission a session accepts is retained for execution: with the
    digest it returned, the loader finds the record intact, vouched for by the
    signed request, owned by the submitting principal and with its task still as
    created. *)
Theorem submitted_task_loads now db_now stamp gen clock s body nonce k row k' x :
  (∀ y, sha256_text (sha256_hex y) = true) →
  k_tenants k !! s_tenant s = Some x → tasks_ok (kc_max_active kc) (kc_max_events kc) (td_tasks (tn_db x)) →
  fisfinite db_now = true → fltb fzero db_now = true → fltb db_now (valid_until (s_principal s)) = true →
  submit_task absolute resolve_path float_repr kc now db_now stamp gen clock s body nonce k = (Ok row, k') →
  ∃ x' sub owner, k_tenants k' !! s_tenant s = Some x' ∧ parse_submission body = Ok sub ∧
    principal_owner (s_principal s) = Ok owner ∧
    load_for_execution (s_tenant s) owner (sub_task sub) (i_fingerprint row) (tn_db x') =
      (Ok (stored_of owner (sub_task sub) row), tn_db x').
Proof.
  intros Hsha Hx Hok Hf H0' H1' (y & db & sub & capab & enrolled & su & cost & target & rules & owner & Hs)%submit_Ok.
  rewrite (sb_before _ _ _ _ _ _ _ _ _ _ _ _ _ _ _ _ _ _ _ _ _ Hs) in Hx. injection Hx as ->.
  destruct (sb_accepted _ _ _ _ _ _ _ _ _ _ _ _ _ _ _ _ _ _ _ _ _ Hs) as [approval Ha].
  exists (update db x), sub, owner. rewrite (sb_after _ _ _ _ _ _ _ _ _ _ _ _ _ _ _ _ _ _ _ _ _ Hs). cbn [k_tenants].
  rewrite lookup_insert_eq. split; [done|]. split; [apply Hs|]. split; [apply Hs|].
  eapply loads_back; [done..|by eapply submitted_vouched|exact Ha].
Qed.
End spec.
