(* ===== verification/TenantFlow.v ===== *)
(** * From a signed request to prepared work

    The path of one queued task through three components: the directory
    authenticates the agent's signed request, the session retains its intent,
    and later the preparation derives the agent's authority again from the
    enrollment rows and plans the action.  While the directory, the operator's
    configuration and the policy stay as they were, and the original
    authorization has not expired, the preparation finds what the submission
    accepted. *)

From stdpp Require Import base list gmap sets strings.
From Stdlib Require Import ZArith Lia.
From S2P Require Import Prelude PyFloat Json Identity Authority AuthoritySpec Budget AuditLog PolicyRules DurablePolicy OperationLedger Policy Protocols Gateway StreamLeases Evidence TaskLifecycle TaskSpec TaskIntents QueuedDestination QueuedStore IntentSpec QueuedPreparation TenantKernel TenantSpec.

#[local] Open Scope Z_scope.

(** ** Generated identifiers do not change the action *)

Section generated.
Context `{JsonText}.

(** Two readings of a wire that differ at most in a generated call id. *)
Definition same_action (o o' : outcome CanonicalCall) : Prop :=
  match o, o' with
  | Ok c, Ok c' => capability c = capability c' ∧ arguments c = arguments c' ∧ text c = text c'
  | Raise e, Raise e' => e = e'
  | _, _ => False
  end.

Lemma same_action_refl o : same_action o o.
Proof. by destruct o. Qed.

Lemma same_action_bind {A} (o : outcome A) f g :
  (∀ a, same_action (f a) (g a)) → same_action (o ≫= f) (o ≫= g).
Proof. intros Hf. destruct o as [a|e]; [apply Hf|done]. Qed.

Lemma canonical_call_gen cap args txt i i' proto :
  same_action (canonical_call cap args txt i proto) (canonical_call cap args txt i' proto).
Proof. unfold canonical_call. destruct cap; try done. destruct args; try done. by destruct txt. Qed.

Lemma to_canonical_call_gen a g g' w : same_action (to_canonical_call a g w) (to_canonical_call a g' w).
Proof.
  destruct a; cbn; unfold Mcp.to_canonical_call, A2a.to_canonical_call, Acp.to_canonical_call, OpenAI.to_canonical_call,
    Gemini.to_canonical_call, Agntcy.to_canonical_call;
    repeat first [apply canonical_call_gen | apply same_action_bind; intros ? | case_match; try done].
Qed.

Lemma translate_call_gen reg i i' w src dst :
  is_ok (translate_call reg i w src dst) = is_ok (translate_call reg i' w src dst) ∧
  (∀ e, translate_call reg i w src dst = Raise e → translate_call reg i' w src dst = Raise e).
Proof.
  unfold translate_call. destruct (get_adapter reg src) as [a|]; [|done]. cbn [mbind outcome_bind].
  pose proof (to_canonical_call_gen a (gen_call i) (gen_call i') w) as Hs.
  destruct (to_canonical_call a (gen_call i) w) as [c|], (to_canonical_call a (gen_call i') w) as [c'|]; try done;
    cbn in Hs; [|by subst]. cbn [mbind outcome_bind].
  assert (routable c = routable c') as -> by (unfold routable; destruct Hs as (-> & -> & ->); done).
  destruct (guard_or _ _); [|done]. cbn [mbind outcome_bind]. by destruct (get_adapter reg dst).
Qed.
End generated.

(** ** Deadlines *)

Lemma fround_not_nan z : fround z ≠ FNan.
Proof. unfold fround. repeat case_match; done. Qed.

Lemma fmin_comm x y : x ≠ FNan → y ≠ FNan → fmin x y = fmin y x.
Proof.
  unfold fmin, fltb. destruct x as [|[]|], y as [|[]|]; try done. intros _ _.
  destruct (Z.ltb_spec z0 z), (Z.ltb_spec z z0); f_equal; lia.
Qed.

Lemma fmin_later now x z :
  fltb now x = true → fltb now (FFin z) = true → ∃ z', fmin x (FFin z) = FFin z' ∧ fltb now (FFin z') = true.
Proof.
  unfold fmin. destruct x as [|[]|w]; try (destruct now as [|[]|]; done); cbn [fltb]; [by eauto|]. case_match; eauto.
Qed.

Lemma fmin_again u z : fmin (fmin u (FFin z)) (FFin z) = fmin u (FFin z).
Proof. unfold fmin. destruct (fltb (FFin z) u) eqn:E; [cbn; by rewrite Z.ltb_irrefl|by rewrite E]. Qed.

Lemma fmin_again_grant x u z :
  x ≠ FNan → fmin x (fmin (fmin x (fmin (FFin u) (FFin z))) (FFin z)) = fmin x (fmin (FFin u) (FFin z)).
Proof.
  intros Hx. rewrite fmin_FFin. destruct x as [|[]|x]; [done|done| |rewrite !fmin_FFin; f_equal; lia].
  change (fmin (FInf false) (FFin (Z.min u z))) with (FFin (Z.min u z)). rewrite fmin_FFin. cbn. f_equal. lia.
Qed.

(** ** Principals minted from enrollment rows *)

Section minted.
Context `{SealScheme}.
Context (key : string).

(** The rows of [d] an agent principal is minted from. *)
Record rows_of (d : directory) (t ag : string) (tenant : tenant_row) (agent : agent_row) (grant : option (string * grant_row))
  : Prop := {
  ro_tenant : active_tenant (Some t) d = Ok tenant;
  ro_agent : active_agent (Some t) (Some ag) d = Ok agent;
  ro_grant g r : grant = Some (g, r) → delegations d !! (t, g) = Some r;
}.

Definition grant_current (now : float64) (d : directory) (t ag : string) (agent : agent_row)
    (grant : option (string * grant_row)) : Prop :=
  ∀ g r, grant = Some (g, r) → current_grant now (Some t) (Some g) (Some ag) agent d = Ok r.

Lemma mint_seal_ok now p :
  seal_ok key now (mint key p) = fisfinite (valid_until p) && fgtb (valid_until p) now.
Proof.
  unfold seal_ok, mint. cbn. rewrite bool_decide_eq_true_2; [done|]. unfold seal. by destruct p.
Qed.

Lemma agent_principal_current now d t ag tenant agent grant until b n :
  rows_of d t ag tenant agent grant → grant_current now d t ag agent grant →
  let p := agent_principal key t ag tenant agent grant until b n in
  fisfinite (valid_until p) = true → fltb now (valid_until p) = true → current key now p d = Ok tt.
Proof.
  intros [Ht Ha Hg] Hc p Hf Hl. unfold current, verify_seal.
  assert (seal_ok key now p = true) as ->.
  { unfold p, agent_principal in *. destruct grant as [[g r]|]; rewrite mint_seal_ok; unfold fgtb; cbn in Hf, Hl |- *; by rewrite Hf, Hl. }
  unfold p, agent_principal. destruct grant as [[g r]|]; cbn; rewrite Ht; cbn; rewrite Z.eqb_refl; cbn; rewrite Ha; cbn;
    rewrite Z.eqb_refl; cbn; [|done]. rewrite (Hc _ _ eq_refl). cbn. by rewrite Z.eqb_refl.
Qed.

Lemma current_grant_row now t g ag agent d r :
  current_grant now (Some t) (Some g) ag agent d = Ok r →
  delegations d !! (t, g) = Some r ∧ fltb now (d_expires_at r) = true.
Proof.
  intros Hc. destruct (current_grant_Ok "" (fun _ => None) (fun _ _ _ _ _ => "") _ _ _ _ _ _ _ Hc)
    as (x & y & z & m & [= <-] & [= <-] & _ & Hl & _ & He & _). done.
Qed.

(** A current agent principal's grant is current. *)
Lemma current_grant_current now d t ag tenant agent grant until b n :
  rows_of d t ag tenant agent grant →
  current key now (agent_principal key t ag tenant agent grant until b n) d = Ok tt → grant_current now d t ag agent grant.
Proof.
  intros [Ht Ha Hg] Hc g r ->. unfold current in Hc. apply outcome_bind_Ok in Hc as (u & _ & Hc). cbn in Hc.
  rewrite Ht in Hc. cbn in Hc. rewrite Z.eqb_refl in Hc. cbn in Hc. rewrite Ha in Hc. cbn in Hc. rewrite Z.eqb_refl in Hc.
  cbn in Hc. apply outcome_bind_Ok in Hc as (r' & Hr & _). rewrite Hr. f_equal.
  apply current_grant_row in Hr as [Hl _]. rewrite (Hg _ _ eq_refl) in Hl. congruence.
Qed.
End minted.

(** ** The flow *)

Section flow.
Context `{AuditCodec} `{JsonText} `{Sha256} `{Ed25519} `{SealScheme} `{IntentCodec} `{QueuedCodec}.
Context (absolute : string → bool) (resolve_path : string → option string).
Context (parse_float : string → option float64) (float_repr : float64 → string).
Context (encode : string → string → option string → string → string → string).
Context (kc : kernel_config).
Implicit Types (d : directory) (p : Principal).

(** What authentication leaves: the principal minted from the directory's rows
    for this very request, and the stamp of its nonce. *)
Lemma authenticate_minted now t ag nonce body sig deleg d0 p d :
  authenticate_agent (kc_key kc) parse_float encode now t ag nonce body sig deleg d0 = (Ok p, d) →
  ∃ tenant agent grant stamp, rows_of d t ag tenant agent grant ∧ nonce_stamp parse_float nonce = Ok (FFin stamp) ∧
    p = agent_principal (kc_key kc) t ag tenant agent grant (fadd (FFin stamp) (fl 300)) (sha256_hex body) nonce.
Proof.
  unfold authenticate_agent. intros Ha. mstep Ha. apply lift_Ok_inv in Hm as [Hr ->]. destruct a as [data stamp].
  apply (proj1 (atomic_Ok _ _ _ _)) in Ha. rewrite run_get in Ha. mstep Ha. apply lift_Ok_inv in Hm as [Ht ->].
  mstep Ha. apply lift_Ok_inv in Hm as [Hag ->]. mstep Ha. apply ensure_Ok_inv in Hm as [_ ->]. mstep Ha.
  assert (s = d0 ∧ ∀ g r, a2 = Some (g, r) → delegations d0 !! (t, g) = Some r) as [-> Hg].
  { destruct deleg as [g|].
    - mstep Hm. apply lift_Ok_inv in Hm0 as [Hgr ->]. apply mret_Ok_inv in Hm as [-> ->]. split; [done|]. intros g' r [= -> ->].
      by apply current_grant_row in Hgr as [Hl _].
    - apply mret_Ok_inv in Hm as [-> ->]. done. }
  clear Hm. mstep Ha. apply ensure_Ok_inv in Hm as [_ ->]. mstep Ha. apply put_Ok_inv in Hm as ->.
  apply mret_Ok_inv in Ha as [-> ->].
  unfold signed_request in Hr. destruct (_ || _ || _) eqn:Hlen; [done|]. apply orb_false_iff in Hlen as [[_ Hn]%orb_false_iff _].
  destruct (canonical_tenant_payload _ _ _ _ _ _); [|done]. destruct (split_colon nonce) as [[st rand]|] eqn:Hsp; [|done].
  destruct (parse_float st) as [ts|] eqn:Hpf; [|done]. destruct (_ || _ || _) eqn:Hok; [done|]. injection Hr as _ ->.
  apply orb_false_iff in Hok as [[Hfin%negb_false_iff _]%orb_false_iff Hrand]. destruct stamp as [| |z]; try done.
  exists a, a0, a2, z. split; [by split|]. split; [|done]. unfold nonce_stamp. rewrite Hsp, Hpf. cbn. by rewrite Hn, Hrand.
Qed.

(** The deadline of the original request, as submission and preparation see it. *)
Definition deadline_of (stamp : Z) (grant : option (string * grant_row)) : float64 :=
  match grant with
  | Some (_, g) => fmin (fadd (FFin stamp) (fl 300)) (d_expires_at g)
  | None => fadd (FFin stamp) (fl 300)
  end.

Lemma deadline_is_expiry now d t ag tenant agent grant stamp b n z :
  grant_current now d t ag agent grant →
  valid_until (agent_principal (kc_key kc) t ag tenant agent grant (fadd (FFin stamp) (fl 300)) b n) = FFin z →
  deadline_of stamp grant = FFin z.
Proof.
  intros Hg Hv. destruct grant as [[g r]|]; [|done]. cbn in *. rewrite fmin_comm; [done|apply fround_not_nan|].
  specialize (Hg _ _ eq_refl). apply current_grant_row in Hg as [_ Hl].
  intros E. rewrite E in Hl. by destruct now as [|[]|].
Qed.

(** The principal a preparation derives, and what it lives by. *)
Definition derived (t ag : string) tenant agent grant (until : float64) : Principal :=
  agent_principal (kc_key kc) t ag tenant agent grant until "" "".

Lemma derived_expiry now d t ag tenant agent grant u z :
  grant_current now d t ag agent grant → fltb now (FFin u) = true → fltb now (FFin z) = true →
  let p := derived t ag tenant agent grant (fmin (FFin u) (FFin z)) in
  fisfinite (valid_until p) = true ∧ fltb now (valid_until p) = true ∧
  derived t ag tenant agent grant (fmin (valid_until p) (FFin z)) = p.
Proof.
  intros Hg Hu Hz. cbn zeta. unfold derived, agent_principal. destruct grant as [[g r]|]; cbn [valid_until mint with_proof].
  - specialize (Hg _ _ eq_refl). apply current_grant_row in Hg as [_ Hl].
    assert (d_expires_at r ≠ FNan) as Hn by (intros E; rewrite E in Hl; by destruct now as [|[]|]).
    rewrite fmin_again_grant by done. rewrite fmin_FFin. destruct (fmin_later now (d_expires_at r) (Z.min u z)) as (z' & -> & Hz'); [done| |].
    + by destruct (Z.min_spec u z) as [[_ ->]|[_ ->]].
    + done.
  - rewrite fmin_again. rewrite fmin_FFin. split; [done|]. split; [|done]. by destruct (Z.min_spec u z) as [[_ ->]|[_ ->]].
Qed.

(** [derive] on an intent a session retained. *)
Lemma derive_submitted cfg now d t ag tenant agent grant stamp z i body nonce sub capab cost target approval db_now u ids :
  rows_of d t ag tenant agent grant → grant_current now d t ag agent grant →
  let p := agent_principal (kc_key kc) t ag tenant agent grant (fadd (FFin stamp) (fl 300)) (sha256_hex body) nonce in
  valid_until p = FFin z → fltb now (FFin z) = true → fltb now (FFin u) = true → nonce_stamp parse_float nonce = Ok (FFin stamp) →
  tc_tenant cfg = t → st_agent i = ag →
  record_of (st_record i) = Some (queued_record sub (submission_provenance p body nonce (g_key agent) capab cost target approval) db_now) →
  match ids !! ag with
  | Some r => negb (row_revoked r) && bool_decide (row_key r = g_key agent)
  | None => false
  end = true →
  derive parse_float cfg (mkAuthority t d (kc_key kc)) i (FFin u) now ids =
    Ok (derived t ag tenant agent grant (fmin (FFin u) (FFin z)), FFin z).
Proof.
  intros Hro Hg p Hv Hz Hu Hn <- <- Hrec Hid.
  pose proof (deadline_is_expiry _ _ _ _ _ _ _ _ _ _ _ Hg Hv) as Hd.
  pose proof (derived_expiry _ _ _ _ tenant _ _ _ _ Hg Hu Hz) as (Hf & Hl & _).
  pose proof (agent_principal_current (kc_key kc) now d _ _ _ _ _ _ "" "" Hro Hg Hf Hl) as Hc.
  assert (binding_json (derived (tc_tenant cfg) (st_agent i) tenant agent grant (fmin (FFin u) (FFin z))) =
    binding_json (binding p)) as Hb by (unfold p; by destruct grant as [[g r]|]).
  assert ((if bool_decide (kind (binding p) = "delegated_human")
           then row ← current_grant now (Some (tc_tenant cfg)) (delegation_id (binding p)) (Some (st_agent i)) agent d;
                Ok (Some (default "" (delegation_id (binding p)), row))
           else Ok None) = Ok grant) as Hgr.
  { unfold p. destruct grant as [[g r]|]; cbn; [|done]. by rewrite (Hg _ _ eq_refl). }
  unfold derive, retained. rewrite Hrec. cbn [mbind outcome_bind prov queued_record].
  cbn [prov_nonce prov_authority submission_provenance auth_dir auth_key]. rewrite Hn. cbn [mbind outcome_bind].
  rewrite (ro_tenant _ _ _ _ _ _ Hro). cbn [mbind outcome_bind]. rewrite (ro_agent _ _ _ _ _ _ Hro). cbn [mbind outcome_bind].
  rewrite Hgr. cbn [mbind outcome_bind]. change (match grant with Some (_, g) => _ | None => _ end) with (deadline_of stamp grant).
  rewrite Hd. cbn [authorization_expires_at signer_public_key_hex submission_provenance]. rewrite Hv. fold (derived (tc_tenant cfg) (st_agent i) tenant agent grant (fmin (FFin u) (FFin z))).
  rewrite Hb, bool_decide_eq_true_2 by done. rewrite bool_decide_eq_true_2 by done. rewrite Hid.
  unfold derived. rewrite Hc. assert (fgeb now (FFin z) = false) as ->.
  { unfold fgeb, fleb. destruct now as [|[]|w]; try done. cbn in Hz |- *. apply Z.ltb_lt in Hz. apply orb_false_iff.
    rewrite Z.ltb_ge, Z.eqb_neq. lia. }
  cbn. by rewrite Z.eqb_refl.
Qed.

(** Submitting leaves the identities as they were. *)
Lemma accept_gov owner sub pr (g : string → M gov unit) now s row s' :
  accept (kc_max_active kc) owner sub pr (fun fp => zoom (T := gov) (g fp)) now s = (Ok row, s') →
  ∃ fp, g fp (td_gov s) = (Ok tt, td_gov s').
Proof.
  unfold accept. intros Ha. apply (proj1 (atomic_Ok _ _ _ _)) in Ha. rewrite run_get in Ha.
  mstep Ha. apply lift_Ok_inv in Hm as [_ ->]. mstep Ha. apply ensure_Ok_inv in Hm as [_ ->].
  mstep Ha. apply ensure_Ok_inv in Hm as [_ ->]. mstep Ha. apply zoom_Ok_inv in Hm as (i' & _ & ->).
  mstep Ha. apply lift_Ok_inv in Hm as [_ ->]. mstep Ha.
  apply catch_Ok_inv in Hm; [|intros x h Hk; destruct x; simplify_eq; done].
  mstep Hm. apply mret_Ok_inv in Hm as [_ ->]. apply zoom_Ok_inv in Hm0 as (td & _ & ->).
  mstep Ha. apply zoom_Ok_inv in Hm as (gv & Hg & ->). apply mret_Ok_inv in Ha as [_ ->].
  match type of Hg with _ = (Ok ?u, _) => destruct u end. eauto.
Qed.

Lemma audit_submission_ids now stamp p d sub capab fp g g' :
  audit_submission kc now stamp p d sub capab fp g = (Ok tt, g') → g_ids g' = g_ids g.
Proof.
  unfold audit_submission. intros Ha. mstep Ha. apply lift_Ok_inv in Hm as [_ ->]. mstep Ha.
  apply zoom_Ok_inv in Hm as (x & _ & ->). by apply mret_Ok_inv in Ha as [_ ->].
Qed.

(** A submitted action translates alike under other generated identifiers. *)
Lemma submitted_capability_gen gen gen' sub capab :
  submitted_capability kc gen sub = Ok capab →
  ∃ src dst c w, get_adapter (kc_registry kc) (sub_dst sub) = Ok dst ∧ get_adapter (kc_registry kc) (sub_src sub) = Ok src ∧
    to_canonical_call src (gen_call gen') (sub_wire sub) = Ok c ∧ Protocols.capability c = capab ∧
    translate_call (kc_registry kc) gen' (sub_wire sub) (sub_src sub) (sub_dst sub) = Ok w.
Proof.
  unfold submitted_capability, malformed. case_match eqn:E; [|case_match; done]. intros [= ->].
  apply outcome_bind_Ok in E as (dst & Hd & E). apply outcome_bind_Ok in E as (src & Hs & E).
  apply outcome_bind_Ok in E as (c & Hc & E). apply outcome_bind_Ok in E as (w & Hw & E). injection E as <-.
  pose proof (to_canonical_call_gen src (gen_call gen) (gen_call gen') (sub_wire sub)) as Ha. rewrite Hc in Ha.
  destruct (to_canonical_call src (gen_call gen') (sub_wire sub)) as [c'|] eqn:Hc'; [|done]. cbn in Ha.
  destruct (translate_call_gen (kc_registry kc) gen gen' (sub_wire sub) (sub_src sub) (sub_dst sub)) as [Ht _].
  rewrite Hw in Ht. destruct (translate_call (kc_registry kc) gen' _ _ _) as [w'|]; [|done].
  exists src, dst, c', w'. naive_solver.
Qed.

Lemma authorize_run now p d c target :
  current (kc_key kc) now p d = Ok tt → is_agent_kind (kind p) = true → c ∈ capabilities p → target ∈ targets p →
  (Authority.authorize (kc_key kc) now p c (Some target) d).1 = Ok p.
Proof.
  intros Hc Hk Hcap Ht. unfold Authority.authorize. rewrite run_get, (run_lift _ tt) by done.
  by rewrite run_ensure by (by rewrite Hk, !bool_decide_eq_true_2).
Qed.

Lemma checked_cost_feqb c x : checked_cost c = Ok x → feqb x x = true.
Proof.
  intros (z & -> & _)%checked_cost_Ok. cbn. apply Z.eqb_refl.
Qed.

(** The plan of a submitted intent. *)
Lemma plan_submitted t su rules flags d now a gen gen' clock sub pr db_now capab cost target :
  tc_tenant (config_of kc t su rules flags) = t →
  record_of (st_record (qa_intent a)) = Some (queued_record sub pr db_now) →
  submitted_capability kc gen sub = Ok capab →
  current (kc_key kc) now (qa_principal a) d = Ok tt → is_agent_kind (kind (qa_principal a)) = true →
  capab ∈ capabilities (qa_principal a) → sub_target sub ∈ targets (qa_principal a) →
  su_costs su !! capab = Some cost → checked_cost (PFloat cost) = Ok cost →
  prov_capability pr = capab → operator_cost pr = cost → target_configuration_sha256 pr = sha256_hex (target_text target) →
  resolve_queued_target absolute resolve_path (config_of kc t su [] ∅) (sub_target sub) (sub_dst sub) capab
    (st_agent (qa_intent a)) (sub_wire sub) = Ok target →
  match target with inl y => queued_adapter (config_of kc t su [] ∅) (sub_target sub) y | inr _ => Ok tt end = Ok tt →
  PolicyRules.allowed (evaluate float_repr clock rules
    (mkContext (st_agent (qa_intent a)) capab cost (Some (sub_src sub)) (Some (sub_dst sub)) None)) = true →
  ∃ pl, plan absolute resolve_path float_repr (config_of kc t su rules flags) (mkAuthority t d (kc_key kc)) a gen' clock now = Ok pl ∧
    qp_wire pl = sub_wire sub ∧ qp_capability pl = capab ∧ qp_cost pl = cost ∧
    (qp_target_id pl = sub_target sub ∧ qp_target pl = target ∧ qp_target_sha pl = sha256_hex (target_text target)) ∧
    qp_owner pl = st_owner (qa_intent a) ∧ qp_task pl = st_task (qa_intent a) ∧ qp_operation pl = st_operation (qa_intent a).
Proof.
  intros _ Hrec Hcap Hc Hk Hin Htin Hcost Hck Hpc Hpo Hpt Ht Had Hrule.
  destruct (submitted_capability_gen _ gen' _ _ Hcap) as (src & dst & c & w & Hdst & Hsrc & Hcc & Hcq & Hw).
  unfold plan, retained. rewrite Hrec. cbn [mbind outcome_bind submission prov queued_record tc_registry config_of].
  rewrite Hdst. cbn [mbind outcome_bind]. rewrite Hsrc. cbn [mbind outcome_bind]. rewrite Hcc. cbn [mbind outcome_bind].
  rewrite Hw. cbn [mbind outcome_bind auth_key auth_dir]. rewrite Hcq, authorize_run by done. cbn [mbind outcome_bind].
  cbn [tc_costs config_of]. rewrite lookup_fmap, Hcost. cbn [fmap option_fmap option_map mbind outcome_bind]. rewrite Hck. cbn [mbind outcome_bind].
  rewrite Hpo, Hck. cbn [mbind outcome_bind]. rewrite Hpc, (bool_decide_eq_true_2 (capab = capab)), (checked_cost_feqb _ _ Hck) by done.
  cbn [andb guard_or mbind outcome_bind].
  change (resolve_queued_target absolute resolve_path (config_of kc t su rules flags)) with
    (resolve_queued_target absolute resolve_path (config_of kc t su [] ∅)).
  rewrite Ht. cbn [mbind outcome_bind].
  change (queued_adapter (config_of kc t su rules flags)) with (queued_adapter (config_of kc t su [] ∅)).
  rewrite Had. cbn [mbind outcome_bind]. rewrite Hpt, (bool_decide_eq_true_2 (sha256_hex (target_text target) = sha256_hex (target_text target))) by done. cbn [guard_or mbind outcome_bind tc_rules config_of].
  rewrite Hrule. cbn [guard_or mbind outcome_bind as_denied]. eexists. split; [reflexivity|]. done.
Qed.

Lemma same_intent_refl i : same_intent i i = true.
Proof. unfold same_intent. by rewrite !bool_decide_eq_true_2, Z.eqb_refl by done. Qed.

(** A retained intent whose authority can be derived passes its guard. *)
Lemma assert_intent_run cfg t d i p z now s :
  current (kc_key kc) now p d = Ok tt →
  load_for_execution (tc_tenant cfg) (st_owner i) (st_task i) (st_sha256 i) s = (Ok i, s) →
  derive parse_float cfg (mkAuthority t d (kc_key kc)) i (valid_until p) now (g_ids (td_gov s)) = Ok (p, FFin z) →
  assert_intent parse_float cfg (mkAuthority t d (kc_key kc)) (mkQueuedAuthority i p (FFin z)) now s = (Ok tt, s).
Proof.
  intros Hc Hl Hd. unfold assert_intent. cbn [qa_principal qa_intent qa_deadline auth_key auth_dir].
  rewrite (run_lift _ tt) by done. rewrite (run_step _ _ _ _ _ Hl), run_ensure by apply same_intent_refl.
  rewrite run_get, (run_lift _ (p, FFin z)) by done. unfold ensure.
  rewrite bool_decide_eq_true_2 by done. cbn. by rewrite Z.eqb_refl.
Qed.

Lemma submitted_derives cfg now d t ag tenant agent grant stamp z u i body nonce sub capab cost target approval db_now s :
  rows_of d t ag tenant agent grant → grant_current now d t ag agent grant →
  let p := agent_principal (kc_key kc) t ag tenant agent grant (fadd (FFin stamp) (fl 300)) (sha256_hex body) nonce in
  valid_until p = FFin z → fltb now (FFin z) = true → fltb now (FFin u) = true → nonce_stamp parse_float nonce = Ok (FFin stamp) →
  tc_tenant cfg = t → st_agent i = ag →
  record_of (st_record i) = Some (queued_record sub (submission_provenance p body nonce (g_key agent) capab cost target approval) db_now) →
  match g_ids (td_gov s) !! ag with
  | Some r => negb (row_revoked r) && bool_decide (row_key r = g_key agent)
  | None => false
  end = true →
  let q := derived t ag tenant agent grant (fmin (FFin u) (FFin z)) in
  derive parse_float cfg (mkAuthority t d (kc_key kc)) i (FFin u) now (g_ids (td_gov s)) = Ok (q, FFin z) ∧
  derive parse_float cfg (mkAuthority t d (kc_key kc)) i (valid_until q) now (g_ids (td_gov s)) = Ok (q, FFin z) ∧
  current (kc_key kc) now q d = Ok tt.
Proof.
  intros Hro Hg p Hv Hz Hu Hn Ht Ha Hr Hid q. pose proof (derived_expiry _ _ _ _ tenant _ _ _ _ Hg Hu Hz) as (Hf & Hl & Hq).
  fold q in Hf, Hl, Hq. destruct (valid_until q) as [| |u'] eqn:Hvq; try done. split_and!.
  - by eapply derive_submitted.
  - rewrite <-Hq. rewrite <-Hvq at 2. rewrite Hvq. by eapply derive_submitted.
  - unfold q, derived. apply agent_principal_current; [done|done|by fold (derived t ag tenant agent grant (fmin (FFin u) (FFin z))); fold q; rewrite Hvq..].
Qed.

(** Meanwhile anything may have happened to the store, except to the retained
    intent and task [key] and to the identity of [ag]. *)
Definition task_kept (key : string * string) (ag : string) (s s' : tenant_db) : Prop :=
  task_intents (td_intents s') !! key = task_intents (td_intents s) !! key ∧
  TaskLifecycle.task_events key (td_tasks s') = TaskLifecycle.task_events key (td_tasks s) ∧
  snapshots (td_tasks s') !! key = snapshots (td_tasks s) !! key ∧
  g_ids (td_gov s') !! ag = g_ids (td_gov s) !! ag.

Lemma load_kept t owner i sha ag s s' v :
  task_kept (owner, i) ag s s' →
  load_for_execution t owner i sha s = (Ok v, s) → load_for_execution t owner i sha s' = (Ok v, s').
Proof.
  intros (Hi & He & Hs & _) Hl. unfold load_for_execution in *. mstep Hl. destruct a as [[v' initial] cur].
  mstep Hl. apply ensure_Ok_inv in Hm0 as [Hc ->]. apply mret_Ok_inv in Hl as [-> ->].
  assert (load_immutable t owner i sha s' = (Ok (v', initial, cur), s')) as Hl'.
  { unfold load_immutable in *. do 2 (mstep Hm; apply lift_Ok_inv in Hm0 as [Hx ->]; rewrite (run_lift _ _ _ _ Hx); clear Hx).
    mstep Hm. apply ensure_Ok_inv in Hm0 as [Hx ->]. rewrite run_ensure by done. rewrite run_get in *.
    unfold intents_of, tasks_of in *. simpl in *. rewrite Hi, He, Hs. apply lift_Ok_inv in Hm as [Hm _].
    unfold lift. by rewrite Hm. }
  rewrite (run_step _ _ _ _ _ Hl'). cbn beta iota. by rewrite run_ensure.
Qed.

(** C10: an authenticated agent's task that a session accepted can be prepared for
    admission.  Let the store have changed since in any way that keeps the
    retained intent, the task and the agent's identity row; with the directory
    and the operator's setup of the tenant as at submission, the principal still
    current and the policy in force allowing the action, the preparation succeeds
    without changing the store (over a well-formed task table, with digests that
    are SHA-256 texts, a finite nonnegative cost and finite clocks within the
    principal's lifetime) and plans exactly the signed action, at the
    accepted cost, under the submitter's authority, for the accepted target: the
    one the signed request names, resolved as at submission and with the digest
    that the retained record vouches for. *)
Theorem submitted_task_prepares auth_now sig deleg d0 now db_now stamp gen clock s ag body nonce k row k' x x'
    now' u gen' clock' sub capab su cost rules flags owner db2 :
  let p := s_principal s in let t := s_tenant s in
  (∀ y, sha256_text (sha256_hex y) = true) →
  authenticate_agent (kc_key kc) parse_float encode auth_now t ag nonce body sig deleg d0 = (Ok p, k_dir k) →
  k_tenants k !! t = Some x → tasks_ok (kc_max_active kc) (kc_max_events kc) (td_tasks (tn_db x)) →
  fisfinite db_now = true → fltb fzero db_now = true → fltb db_now (valid_until p) = true →
  submit_task absolute resolve_path float_repr kc now db_now stamp gen clock s body nonce k = (Ok row, k') →
  k_tenants k' !! t = Some x' →
  (* at the time of preparation *)
  current (kc_key kc) now' p (k_dir k) = Ok tt → fadd now' (fl 30) = FFin u → fltb now' (FFin u) = true →
  parse_submission body = Ok sub → submitted_capability kc gen sub = Ok capab →
  kc_tenants kc !! t = Some su → su_costs su !! capab = Some cost → checked_cost (PFloat cost) = Ok cost →
  PolicyRules.allowed (evaluate float_repr clock' rules
    (mkContext ag capab cost (Some (sub_src sub)) (Some (sub_dst sub)) None)) = true →
  principal_owner p = Ok owner → task_kept (owner, sub_task sub) ag (tn_db x') db2 →
  ∃ a pl r,
    prepare absolute resolve_path parse_float float_repr (config_of kc t su rules flags) (mkAuthority t (k_dir k) (kc_key kc))
      owner (sub_task sub) (i_fingerprint row) gen' clock' now' db2 = (Ok (a, pl), db2) ∧
    binding (qa_principal a) = binding p ∧ feqb (qa_deadline a) (valid_until p) = true ∧
    qp_wire pl = sub_wire sub ∧ qp_capability pl = capab ∧ qp_cost pl = cost ∧ qp_owner pl = owner ∧
    qp_task pl = sub_task sub ∧ qp_operation pl = sub_operation sub ∧
    qp_target_id pl = sub_target sub ∧
    resolve_queued_target absolute resolve_path (config_of kc t su [] ∅) (sub_target sub) (sub_dst sub) capab ag (sub_wire sub) =
      Ok (qp_target pl) ∧
    record_of (i_record row) = Some r ∧ target_configuration_sha256 (prov r) = qp_target_sha pl ∧
    qp_target_sha pl = sha256_hex (target_text (qp_target pl)).
Proof.
  intros p t Hsha Hau Hx Hok Hf H0' H1' Hs Hx' Hcur Hu Hlu Hparse Hcap Hsu Hcost Hck Hrule Hown Hkept.
  apply authenticate_minted in Hau as (tenant & agent & grant & st & Hro & Hn & Hp).
  apply submit_Ok in Hs as (y & db & sub' & capab' & enrolled & su' & cost' & target & rules' & owner' & Hs). pose proof Hs as Hs'.
  destruct Hs as [_ (Hkind & _) Hb -> Hparse' Hcap' [Hin Htin] Hen Hsu' Hid Hcost' Htgt Had _ Ho [approval Hacc]].
  fold p t in Hkind, Hb, Hin, Htin, Hen, Hsu', Hid, Htgt, Had, Ho, Hacc. rewrite Hown in Ho. injection Ho as <-. rewrite Hsu in Hsu'. injection Hsu' as <-.
  rewrite Hb in Hx. injection Hx as ->. rewrite Hparse in Hparse'. injection Hparse' as <-.
  rewrite Hcap in Hcap'. injection Hcap' as <-. rewrite Hcost in Hcost'. injection Hcost' as <-.
  cbn [k_tenants] in Hx'. rewrite lookup_insert_eq in Hx'. injection Hx' as <-. cbn [tn_db update lens_db].
  assert (p_agent_id p = Some ag) as Hpa by (rewrite Hp; by destruct grant as [[g r]|]).
  rewrite Hpa in *. change (default "" (Some ag)) with ag in *. rewrite (ro_agent _ _ _ _ _ _ Hro) in Hen. injection Hen as <-.
  pose proof (submitted_vouched _ _ _ _ _ _ _ _ _ _ _ _ _ _ _ _ _ _ _ _ _ _ _ _ approval Hs' Hf H0' H1') as Hv.
  fold p t in Hv. rewrite Hpa in Hv. change (default "" (Some ag)) with ag in Hv.
  pose proof (current_seal _ _ _ _ Hcur) as Hseal. unfold seal_ok in Hseal. rewrite !andb_true_iff in Hseal.
  destruct Hseal as [[_ Hfin] Hexp]. unfold fgtb in Hexp. destruct (valid_until p) as [| |z] eqn:Hvp; try done.
  assert (grant_current now' (k_dir k) t ag agent grant) as Hg by (rewrite Hp in Hcur; by eapply current_grant_current).
  assert (load_for_execution t owner (sub_task sub) (i_fingerprint row) db = (Ok (stored_of owner (sub_task sub) row), db)) as Hload
    by (eapply loads_back; [done..|exact Hacc]).
  change (tn_db (update db x)) with db in Hkept. pose proof (load_kept _ _ _ _ _ _ _ _ Hkept Hload) as Hload2.
  destruct Hkept as (_ & _ & _ & Hids). cbn [tn_db] in Hids.
  destruct (accept_gov _ _ _ _ _ _ _ _ Hacc) as [fp Hgov]. apply audit_submission_ids in Hgov.
  apply accept_inv in Hacc. destruct (ac_row _ _ _ _ _ _ _ _ Hacc) as (l & _ & Hrow).
  set (i := stored_of owner (sub_task sub) row) in *.
  assert (st_agent i = ag) as Hia by (unfold i; rewrite Hrow; unfold agent_of; cbn; by rewrite Hpa).
  assert (st_operation i = sub_operation sub) as Hio by (unfold i; by rewrite Hrow).
  assert (record_of (st_record i) = Some (queued_record sub
    (submission_provenance p body nonce (g_key agent) capab cost target approval) db_now)) as Hrec
    by (unfold i; rewrite Hrow; apply record_of_text).
  set (q := derived t ag tenant agent grant (fmin (FFin u) (FFin z))).
  assert (binding q = binding p) as Hbq by (unfold q; rewrite Hp; by destruct grant as [[g r]|]).
  destruct (submitted_derives (config_of kc t su rules flags) now' (k_dir k) t ag tenant agent grant st z u i body nonce sub capab
    cost target approval db_now db2) as (Hd1 & Hd2 & Hq); try done; rewrite <-?Hp, ?Hids, ?Hgov; try done. fold q in Hd1, Hd2, Hq.
  destruct (plan_submitted t su rules flags (k_dir k) now' (mkQueuedAuthority i q (FFin z)) gen gen' clock' sub
    (submission_provenance p body nonce (g_key agent) capab cost target approval) db_now capab cost target)
    as (pl & Hpl & Hpw & Hpc & Hpco & (Hpti & Hptg & Hpts) & Hpo & Hpt & Hpop); cbn [qa_principal qa_intent]; rewrite ?Hia; try done.
  1-3: by (change (kind q) with (kind (binding q)) || change (capabilities q) with (capabilities (binding q)) ||
           change (targets q) with (targets (binding q))); rewrite Hbq.
  exists (mkQueuedAuthority i q (FFin z)), pl, (queued_record sub
    (submission_provenance p body nonce (g_key agent) capab cost target approval) db_now). split.
  - unfold prepare. rewrite (run_step _ _ _ _ _ Hload2), run_get. rewrite Hu.
    rewrite (run_lift _ (q, FFin z)) by done. erewrite run_step by (by eapply assert_intent_run). by rewrite (run_lift _ pl).
  - cbn [qa_principal qa_deadline feqb]. rewrite Z.eqb_refl, Hpo, Hpt, Hpop, Hpti, Hpts, Hptg. by split_and!.
Qed.
End flow.
