(* ===== verification/TenantExample.v ===== *)
(** * A tenant's sessions, by evaluation

    An operator's sessions that change a tenant and an agent's session that
    submits a task: the runs instantiate the theorems of [TenantSpec] and
    [TenantFlow]. *)

From stdpp Require Import base list gmap sets strings.
From Stdlib Require Import ZArith Lia.
From S2P Require Import Prelude PyFloat Json Identity Authority AuthoritySpec Budget AuditLog AuditSpec Approvals PolicyRules DurablePolicy OperationLedger Quotas Policy Protocols Gateway RetainedCapacity AuditTrust StreamLeases Evidence TaskLifecycle TaskSpec TaskIntents QueuedDestination QueuedDestinationSpec QueuedStore IntentSpec QueuedPreparation QueuedExample TenantKernel TenantSpec TenantFlow.

#[local] Open Scope Z_scope.

#[local] Existing Instance hex_ed25519 | 0.
#[local] Existing Instance demo_queued_codec | 0.
#[local] Existing Instance example_digest | 0.
#[local] Existing Instance example_intents | 0.

(** A run that ends well, as a pair. *)
Definition value_of {A} (d : A) (o : outcome A) : A := match o with Ok a => a | Raise _ => d end.

Lemma ok_run {A S} (d : A) (r : outcome A * S) : is_ok r.1 = true → r = (Ok (value_of d r.1), r.2).
Proof. by destruct r as [[a|e] x]. Qed.

(** ** The operator *)

Definition tx_member : member_row := mkMember "tenant_admin" 1 true [] [].
Definition tx_directory : directory :=
  mkDirectory {["acme" := Authority.mkTenant 1 true]} ∅ {[("acme", "idp", "ann") := tx_member]}
    {[("acme", "bot") := mkAgent (sixty_four "e") 1 true ["write"] ["target"]]} ∅ ∅.

Definition tx_admin : Principal :=
  mint "k" (mkPrincipal (Some "acme") "ann" "idp" "tenant_admin" 1 1 None 0 None 0 0 0 (FFin 2000) [] [] "" "" "").

Definition tx_setup : tenant_setup :=
  mkSetup (mkHandle "acme" "store" (NsSqlite 1 2) []) {["write" := FFin 9]}
    {["target" := mkEntry "mcp" ["write"] (Some ["bot"]) (inl demo_descriptor)]} {["target" := demo_descriptor]}.

Definition tx_config : kernel_config := mkKernelConfig "k" default_registry false {["acme" := tx_setup]} ex_budget 2 4.

Definition tx_request : ApprovalRequest := mkApproval "r1" "bot" "write" (FFin 9) pending "t0".

Definition tx_gov (aud : AuditLog.Sql.audit_db) : gov :=
  mkGov (g_ids ex_gov) (g_bud ex_gov) [tx_request] aud (g_led ex_gov) (g_quo ex_gov).

Definition tx_state (aud : AuditLog.Sql.audit_db) : tenant_state :=
  mkTenantState (QueuedStore.mkTenant (tx_gov aud) (td_tasks ex_tenant0) (td_intents ex_tenant0) ∅ (mkExec ∅ ∅ ∅))
    [] ∅ ∅ (mkTable [] None) (Some (mkBindingRow "acme" "store" 1)).

Definition tx_empty : AuditLog.Sql.audit_db := AuditLog.Sql.mkDb [] None.
(** An audit log that holds all it may. *)
Definition tx_full : AuditLog.Sql.audit_db := AuditLog.Sql.mkDb [] (Some (AuditLog.Sql.mkCapacity 1 1 1000 1000 1 10)).

Definition tx_kernel (aud : AuditLog.Sql.audit_db) : kernel_state := mkKernel tx_directory {["acme" := tx_state aud]}.
Definition tx_session : session := mkSession tx_admin "acme".

Definition tx_marked : outcome bool * kernel_state :=
  make_change tx_config (FFin 1000) "t1" tx_session (ChSensitive "write") (tx_kernel tx_empty).

Lemma tx_marked_ok : tx_marked.1 = Ok true.
Proof. vm_compute. reflexivity. Qed.

Lemma change_audited_witness :
  tx_marked.1 = Ok true ∧
  match tx_marked with
  | (Ok true, k') =>
      ∃ x', k_tenants k' !! "acme" = Some x' ∧
        AuditLog.Sql.rows (audit_of x') = [] ++ [next_entry (change_event tx_session (ChSensitive "write")) "t1" tx_empty]
  | (Ok false, _) => ∃ i granted, ChSensitive "write" = ChApprove i granted
  | (Raise _, k') => true = true → k' = tx_kernel tx_empty
  end.
Proof.
  split; [exact tx_marked_ok|].
  exact (change_audited tx_config (FFin 1000) "t1" tx_session (ChSensitive "write") (tx_kernel tx_empty) (tx_state tx_empty)
           eq_refl I I).
Defined.

Definition tx_approved : Approvals.Sql.table := [set_status approved tx_request].
Definition tx_after : tenant_state := update (update tx_approved (td_gov (tn_db (tx_state tx_full)))) (tx_state tx_full).

Lemma tx_refused : ∃ e, audit_admin tx_session "approve" "t1" tx_after = (Raise e, tx_after).
Proof. exists (IntegrityError "retained audit capacity reached"). vm_compute. reflexivity. Qed.

Lemma tx_runtime : runtime tx_config (FFin 1000) tx_session (Some "approvals:write") (tx_kernel tx_full) = (Ok tt, tx_kernel tx_full).
Proof. vm_compute. reflexivity. Qed.

Lemma approval_survives_refused_record_witness :
  ∃ k' x', is_ok (approve tx_config (FFin 1000) "t1" tx_session "r1" true (tx_kernel tx_full)).1 = false ∧
    (approve tx_config (FFin 1000) "t1" tx_session "r1" true (tx_kernel tx_full)).2 = k' ∧
    k_tenants k' !! "acme" = Some x' ∧ g_apr (td_gov (tn_db x')) = tx_approved ∧ AuditLog.Sql.rows (audit_of x') = [].
Proof.
  destruct tx_refused as [e He].
  destruct (approval_survives_refused_record tx_config (FFin 1000) "t1" tx_session "r1" (tx_kernel tx_full) (tx_state tx_full)
    tx_approved tx_after e tx_runtime eq_refl eq_refl He) as (k' & x' & Hr & Hx & Ha & Hau).
  exists k', x'. rewrite Hr. cbn. split; [done|]. split; [done|]. split; [exact Hx|]. split; [exact Ha|]. by rewrite Hau.
Defined.

Notation tx_limited := (set_budget tx_config (FFin 1000) "t1" tx_session "bot" (PFloat (FFin 70)) 3 60 (tx_kernel tx_empty)).

Lemma tx_limited_ok : tx_limited = (Ok (value_of tt tx_limited.1), tx_limited.2).
Proof. apply ok_run. vm_compute. reflexivity. Qed.

Lemma tx_limited_unit : tx_limited = (Ok tt, tx_limited.2).
Proof. rewrite tx_limited_ok at 1. by destruct (value_of _ _). Qed.

Lemma set_budget_keeps_exposure_witness :
  ∃ x' l, k_tenants tx_limited.2 !! "acme" = Some x' ∧ checked_cost (PFloat (FFin 70)) = Ok l ∧
    let b := Manager.current (kc_budget tx_config) (g_bud (td_gov (tn_db (tx_state tx_empty)))) "bot" in
    let b' := Manager.current (kc_budget tx_config) (g_bud (td_gov (tn_db x'))) "bot" in
    b' = mkBudget l 3 (fl 60) (spent b) (calls b) (reserved b) ∧
    fltb l (fadd (spent b) (Manager.reserved_sum b)) = false ∧ 1 ≤ 3 ≤ 1000000 ∧ 1 ≤ 60 ≤ 31536000.
Proof.
  exact (set_budget_keeps_exposure tx_config (FFin 1000) "t1" tx_session "bot" (PFloat (FFin 70)) 3 60 (tx_kernel tx_empty)
    tx_limited.2 (tx_state tx_empty) eq_refl tx_limited_unit).
Defined.

(** ** The agent *)

Definition tx_body : string := submission_text ex_submission.
Definition tx_nonce : string := "1000:0123456789abcdef".
Definition tx_encode (_ _ : string) (_ : option string) (_ _ : string) : string := "".

Notation tx_authenticated :=
  (authenticate_agent "k" ex_parse tx_encode (FFin 1001) "acme" "bot" tx_nonce tx_body demo_signature None ex_directory).
Notation tx_agent := (value_of tx_admin tx_authenticated.1).

Lemma tx_authenticated_ok : tx_authenticated = (Ok tx_agent, tx_authenticated.2).
Proof. apply ok_run. vm_compute. reflexivity. Qed.

Definition tx_agent_session : session := mkSession tx_agent "acme".
Definition tx_before : kernel_state := mkKernel tx_authenticated.2 {["acme" := tx_state tx_empty]}.
Notation tx_submitted :=
  (submit_task demo_absolute demo_resolve (fun _ => "") tx_config (FFin 1001) (FFin 1001) "t1" demo_ids (fun _ => mkDatetime 0 12)
    tx_agent_session tx_body tx_nonce tx_before).
Notation tx_row := (value_of no_intent tx_submitted.1).
Definition tx_stored : tenant_state := default (tx_state tx_empty) (k_tenants tx_submitted.2 !! "acme").

Lemma tx_submitted_ok : tx_submitted = (Ok tx_row, tx_submitted.2).
Proof. apply ok_run. vm_compute. reflexivity. Qed.

Lemma tx_stored_ok : k_tenants tx_submitted.2 !! "acme" = Some tx_stored.
Proof. apply present_default. vm_compute. reflexivity. Qed.

Lemma tx_digest (y : string) : sha256_text (sha256_hex y) = true.
Proof. reflexivity. Qed.

Lemma submitted_task_loads_witness :
  ∃ x' sub owner, k_tenants tx_submitted.2 !! "acme" = Some x' ∧
    load_for_execution "acme" owner (sub_task sub) (i_fingerprint tx_row) (tn_db x') =
      (Ok (stored_of owner (sub_task sub) tx_row), tn_db x').
Proof.
  destruct (submitted_task_loads demo_absolute demo_resolve (fun _ => "") tx_config (FFin 1001) (FFin 1001) "t1" demo_ids
    (fun _ => mkDatetime 0 12) tx_agent_session tx_body tx_nonce tx_before tx_row tx_submitted.2 (tx_state tx_empty)
    tx_digest eq_refl ex_tasks_ok eq_refl eq_refl eq_refl tx_submitted_ok) as (x' & sub & owner & Hx & _ & _ & Hl).
  exists x', sub, owner. split; [exact Hx|exact Hl].
Defined.

Lemma tx_current : current "k" (FFin 1002) tx_agent tx_authenticated.2 = Ok tt.
Proof. vm_compute. reflexivity. Qed.
Lemma tx_half_minute : fadd (FFin 1002) (fl 30) = FFin (30 * 2 ^ 1074) ∧ fltb (FFin 1002) (FFin (30 * 2 ^ 1074)) = true.
Proof. split; vm_compute; reflexivity. Qed.
Lemma tx_parsed : parse_submission tx_body = Ok ex_submission.
Proof. vm_compute. reflexivity. Qed.
Lemma tx_capability : submitted_capability tx_config demo_ids ex_submission = Ok "write".
Proof. vm_compute. reflexivity. Qed.

(** The store at preparation: an operator has replaced the budgets since. *)
Definition tx_later : tenant_db :=
  let g := td_gov (tn_db tx_stored) in
  update (mkGov (g_ids g) (Manager.set_budget "bot" (kc_budget tx_config) (g_bud g)).2 (g_apr g) (g_aud g) (g_led g) (g_quo g))
    (tn_db tx_stored).

Definition tx_owner : string := match principal_owner (s_principal tx_agent_session) with Ok o => o | Raise _ => "" end.

Lemma tx_owner_ok : principal_owner (s_principal tx_agent_session) = Ok tx_owner.
Proof. vm_compute. reflexivity. Qed.

Lemma tx_kept : task_kept (tx_owner, sub_task ex_submission) "bot" (tn_db tx_stored) tx_later.
Proof. unfold tx_later. generalize (tn_db tx_stored), tx_owner. intros db owner. by split_and!. Qed.

Lemma submitted_task_prepares_witness :
  ∃ a pl,
    prepare demo_absolute demo_resolve ex_parse (fun _ => "") (config_of tx_config "acme" tx_setup [] ∅)
      (mkAuthority "acme" tx_authenticated.2 "k") tx_owner "task-1" (i_fingerprint tx_row) demo_ids (fun _ => mkDatetime 0 12)
      (FFin 1002) tx_later = (Ok (a, pl), tx_later) ∧
    qp_wire pl = ex_wire ∧ qp_cost pl = FFin 9 ∧ qp_target_id pl = sub_target ex_submission.
Proof.
  pose proof (submitted_task_prepares demo_absolute demo_resolve ex_parse (fun _ => "") tx_encode tx_config (FFin 1001)
    demo_signature None ex_directory (FFin 1001) (FFin 1001) "t1" demo_ids (fun _ => mkDatetime 0 12) tx_agent_session "bot" tx_body
    tx_nonce tx_before tx_row tx_submitted.2 (tx_state tx_empty) tx_stored (FFin 1002) (30 * 2 ^ 1074) demo_ids
    (fun _ => mkDatetime 0 12) ex_submission "write" tx_setup (FFin 9) [] ∅ tx_owner tx_later tx_digest tx_authenticated_ok eq_refl
    ex_tasks_ok eq_refl eq_refl eq_refl tx_submitted_ok tx_stored_ok tx_current (proj1 tx_half_minute) (proj2 tx_half_minute)
    tx_parsed tx_capability eq_refl eq_refl eq_refl eq_refl tx_owner_ok tx_kept) as Hp.
  destruct Hp as (a & pl & r & Hp & _ & _ & Hw & _ & Hc & _ & _ & _ & Ht & _).
  exists a, pl. split_and!; [exact Hp|exact Hw|exact Hc|exact Ht].
Defined.

(** ** A configuration with two tenants *)

Definition tx_other : store_handle := mkHandle "zeta" "store2" (NsPostgres None None "db" "zeta") ["public"].
Definition tx_stores : list (string * store_handle) := [("acme", su_handle tx_setup); ("zeta", tx_other)].
Definition tx_bindings : gmap string binding_row :=
  {["acme" := mkBindingRow "acme" "store" 1; "zeta" := mkBindingRow "zeta" "store2" 1]}.
Definition tx_adapters : list (string * gmap string descriptor) := [("acme", {["target" := demo_descriptor]})].
Definition tx_costs : list (string * list (string * pynum)) := [("acme", [("write", PInt 0)])].

Lemma tx_accepted :
  kernel_init false (PInt 30) (NsSqlite 1 1) tx_bindings tx_stores tx_adapters tx_costs =
  Ok {["acme" := {["write" := FFin 0]}]}.
Proof. vm_compute. reflexivity. Qed.

Lemma accepted_configuration_well_formed_witness :
  NoDup (sh_namespace <$> tx_stores.*2) ∧ de_tenant demo_descriptor = "acme".
Proof.
  pose proof (accepted_configuration_well_formed false (PInt 30) (NsSqlite 1 1) tx_bindings tx_stores tx_adapters tx_costs
                {["acme" := {["write" := FFin 0]}]} tx_accepted) as (_ & _ & Hn & _ & _ & _ & Ha & _).
  split; [exact Hn|].
  apply (Ha "acme" {["target" := demo_descriptor]} "target" demo_descriptor); [constructor|reflexivity].
Defined.
