(* ===== verification/PyHeap.v ===== *)
(** * Python objects with identity

    The translation engine hands the caller's dictionaries on by reference and
    assigns into them, so a value here is either a scalar or a reference to a
    dictionary or list of a shared heap.  [world] also counts the UUIDs drawn. *)

From stdpp Require Import base list strings pretty.
From Stdlib Require Import ZArith Lia Ascii.
From S2P Require Import Prelude PyFloat.

#[local] Open Scope Z_scope.

Inductive value :=
| VNone
| VBool (b : bool)
| VInt (n : Z)
| VFloat (f : float64)
| VStr (s : string)
| VRef (l : nat).

#[global] Instance value_eq_dec : EqDecision value.
Proof. solve_decision. Defined.

Inductive object :=
| Dict (m : list (string * value))
| List (l : list value).

#[global] Instance object_eq_dec : EqDecision object.
Proof. solve_decision. Defined.

Record world := mkWorld { heap : list object; drawn : nat }.

(** The [uuid] module, and [repr] of a float or a container. *)
Class PyText := {
  uuid_hex : nat → string;
  uuid_text : nat → string;
  repr_of : list object → value → string;
}.

Notation W := (M world).

(** ** Reading *)

Definition object_of (w : world) (v : value) : option object :=
  match v with VRef l => heap w !! l | _ => None end.

Definition dict_of (w : world) (v : value) : option (list (string * value)) :=
  match object_of w v with Some (Dict m) => Some m | _ => None end.

Definition list_of (w : world) (v : value) : option (list value) :=
  match object_of w v with Some (List l) => Some l | _ => None end.

(** [bool(v)]. *)
Definition truth (w : world) (v : value) : bool :=
  match v with
  | VNone => false
  | VBool b => b
  | VInt n => negb (n =? 0)
  | VFloat f => negb (feqb f fzero)
  | VStr s => negb (bool_decide (s = ""))
  | VRef l => match heap w !! l with
              | Some (Dict m) => negb (bool_decide (m = []))
              | Some (List l) => negb (bool_decide (l = []))
              | None => false
              end
  end.

(** [str(v)]. *)
Definition str_of `{PyText} (w : world) (v : value) : string :=
  match v with
  | VNone => "None"
  | VBool b => if b then "True" else "False"
  | VInt n => pretty n
  | VStr s => s
  | _ => repr_of (heap w) v
  end.

Definition is_str (s : string) (v : value) : bool :=
  match v with VStr t => bool_decide (t = s) | _ => false end.

(** ** Operations of the language *)

Definition alloc (o : object) : W value := fun w =>
  (Ok (VRef (length (heap w))), mkWorld (heap w ++ [o]) (drawn w)).

(** [v.get(k, dflt)]. *)
Definition get_key (v : value) (k : string) (dflt : value) : W value := fun w =>
  match dict_of w v with
  | Some m => (Ok (default dflt (dict_get k m)), w)
  | None => (Raise (AttributeError "object has no attribute 'get'"), w)
  end.

(** [v[k]] with a string key. *)
Definition getitem (v : value) (k : string) : W value := fun w =>
  match dict_of w v with
  | Some m => match dict_get k m with Some x => (Ok x, w) | None => (Raise (KeyError k), w) end
  | None => (Raise (TypeError "indices must be integers"), w)
  end.

(** [v[0]]. *)
Definition first_item (v : value) : W value := fun w =>
  match v, object_of w v with
  | VStr (String c _), _ => (Ok (VStr (String c EmptyString)), w)
  | VStr EmptyString, _ => (Raise (IndexError "string index out of range"), w)
  | _, Some (List (x :: _)) => (Ok x, w)
  | _, Some (List []) => (Raise (IndexError "list index out of range"), w)
  | _, Some (Dict _) => (Raise (KeyError "0"), w)
  | _, None => (Raise (TypeError "object is not subscriptable"), w)
  end.

(** [v[k] = x] with a string key. *)
Definition setitem (v : value) (k : string) (x : value) : W unit := fun w =>
  match dict_of w v, v with
  | Some m, VRef l => (Ok tt, mkWorld (<[l := Dict (dict_set k x m)]> (heap w)) (drawn w))
  | _, _ => (Raise (TypeError "object does not support item assignment"), w)
  end.

(** [del v[k]]. *)
Definition delitem (v : value) (k : string) : W unit := fun w =>
  match dict_of w v, v with
  | Some m, VRef l =>
      match dict_get k m with
      | Some _ => (Ok tt, mkWorld (<[l := Dict (dict_pop k m)]> (heap w)) (drawn w))
      | None => (Raise (KeyError k), w)
      end
  | _, _ => (Raise (TypeError "object does not support item deletion"), w)
  end.

(** [k in v]. *)
Definition contains (v : value) (k : string) : W bool := fun w =>
  match v, object_of w v with
  | VStr s, _ => (Ok (match String.index 0 k s with Some _ => true | None => false end), w)
  | _, Some (Dict m) => (Ok (dict_mem k m), w)
  | _, Some (List l) => (Ok (existsb (is_str k) l), w)
  | _, None => (Raise (TypeError "argument is not iterable"), w)
  end.

(** [for x in v], the elements seen when the loop starts. *)
Definition elements (v : value) : W (list value) := fun w =>
  match v, object_of w v with
  | VStr s, _ => (Ok ((fun c => VStr (String c EmptyString)) <$> String.list_ascii_of_string s), w)
  | _, Some (Dict m) => (Ok (VStr <$> m.*1), w)
  | _, Some (List l) => (Ok l, w)
  | _, None => (Raise (TypeError "object is not iterable"), w)
  end.

(** [v.items()] and [v.copy()]. *)
Definition items (v : value) : W (list (string * value)) := fun w =>
  match dict_of w v with
  | Some m => (Ok m, w)
  | None => (Raise (AttributeError "object has no attribute 'items'"), w)
  end.

Definition copy (v : value) : W value := m ← items v; alloc (Dict m).

(** [v.append(x)]. *)
Definition append (v x : value) : W unit := fun w =>
  match list_of w v, v with
  | Some xs, VRef l => (Ok tt, mkWorld (<[l := List (xs ++ [x])]> (heap w)) (drawn w))
  | _, _ => (Raise (AttributeError "object has no attribute 'append'"), w)
  end.

Definition draw {A} (f : nat → A) : W A := fun w => (Ok (f (drawn w)), mkWorld (heap w) (S (drawn w))).

Definition truthy_of (v : value) : W bool := gets (fun w => truth w v).
Definition text_of `{PyText} (v : value) : W string := gets (fun w => str_of w v).

(** ** Lemmas *)

(** The objects of [w] are still there in [w'], unchanged. *)
Definition extends (w w' : world) : Prop := heap w `prefix_of` heap w'.

#[global] Instance extends_preorder : PreOrder extends.
Proof. split; unfold extends; [intros w; reflexivity|intros ???; apply transitivity]. Qed.

Lemma extends_object w w' v o : extends w w' → object_of w v = Some o → object_of w' v = Some o.
Proof. intros [k E] Ho. destruct v; try done. simpl in *. rewrite E. by apply lookup_app_l_Some. Qed.

Lemma dict_of_object w v m : dict_of w v = Some m ↔ object_of w v = Some (Dict m).
Proof. unfold dict_of. destruct (object_of w v) as [[]|]; naive_solver. Qed.
Lemma list_of_object w v l : list_of w v = Some l ↔ object_of w v = Some (List l).
Proof. unfold list_of. destruct (object_of w v) as [[]|]; naive_solver. Qed.

Lemma extends_dict w w' v m : extends w w' → dict_of w v = Some m → dict_of w' v = Some m.
Proof. rewrite !dict_of_object. apply extends_object. Qed.
Lemma extends_list w w' v l : extends w w' → list_of w v = Some l → list_of w' v = Some l.
Proof. rewrite !list_of_object. apply extends_object. Qed.

Lemma extends_alloc o w v w' : alloc o w = (Ok v, w') → extends w w'.
Proof. intros [= <- <-]. by eexists. Qed.

Lemma alloc_fresh o w v w' : alloc o w = (Ok v, w') → object_of w' v = Some o.
Proof. intros [= <- <-]. simpl. by rewrite lookup_app_r, Nat.sub_diag. Qed.

(** ** Running on a heap that has grown

    [at_ h l n] is the caller's heap [h] with the objects [l] allocated since. *)
Definition at_ (h l : list object) (n : nat) : world := mkWorld (h ++ l) n.
Definition fresh (h : list object) (k : nat) : value := VRef (length h + k).
#[global] Arguments at_ : simpl never.
#[global] Arguments fresh : simpl never.
#[global] Arguments object_of : simpl never.
#[global] Arguments dict_of : simpl never.
#[global] Arguments list_of : simpl never.
#[global] Arguments truth : simpl never.
#[global] Arguments setitem : simpl never.
#[global] Arguments elements : simpl never.
#[global] Arguments contains : simpl never.
#[global] Arguments first_item : simpl never.
#[global] Arguments append : simpl never.
#[global] Arguments get_key : simpl never.
#[global] Arguments getitem : simpl never.
#[global] Arguments items : simpl never.
#[global] Arguments delitem : simpl never.

Lemma at_world w : w = at_ (heap w) [] (drawn w).
Proof. destruct w. unfold at_. simpl. by rewrite app_nil_r. Qed.

Lemma heap_at h l n : heap (at_ h l n) = h ++ l.
Proof. done. Qed.

Lemma at_extends w l n : extends w (at_ (heap w) l n).
Proof. by exists l. Qed.

Lemma object_at h l n k : object_of (at_ h l n) (fresh h k) = l !! k.
Proof. unfold object_of, at_, fresh. simpl. rewrite lookup_app_r by lia. f_equal. lia. Qed.

Lemma object_old h l n k v o : object_of (mkWorld h k) v = Some o → object_of (at_ h l n) v = Some o.
Proof. apply extends_object. by exists l. Qed.

Lemma dict_at h l n k : dict_of (at_ h l n) (fresh h k) = match l !! k with Some (Dict m) => Some m | _ => None end.
Proof. unfold dict_of. by rewrite object_at. Qed.
Lemma list_at h l n k : list_of (at_ h l n) (fresh h k) = match l !! k with Some (List m) => Some m | _ => None end.
Proof. unfold list_of. by rewrite object_at. Qed.
Lemma dict_old w l n v m : dict_of w v = Some m → dict_of (at_ (heap w) l n) v = Some m.
Proof. apply extends_dict. apply at_extends. Qed.

Lemma alloc_at o h l n : alloc o (at_ h l n) = (Ok (fresh h (length l)), at_ h (l ++ [o]) n).
Proof. unfold alloc, at_, fresh. simpl. by rewrite length_app, (assoc (++)). Qed.

Lemma get_key_run w v k d m : dict_of w v = Some m → get_key v k d w = (Ok (default d (dict_get k m)), w).
Proof. unfold get_key. by intros ->. Qed.
Lemma getitem_run w v k m x : dict_of w v = Some m → dict_get k m = Some x → getitem v k w = (Ok x, w).
Proof. unfold getitem. by intros -> ->. Qed.
Lemma contains_run w v k m : dict_of w v = Some m → contains v k w = (Ok (dict_mem k m), w).
Proof. intros Hm%dict_of_object. unfold contains. destruct v; try discriminate. by rewrite Hm. Qed.
Lemma items_run w v m : dict_of w v = Some m → items v w = (Ok m, w).
Proof. unfold items. by intros ->. Qed.
Lemma elements_run w v l : list_of w v = Some l → elements v w = (Ok l, w).
Proof. intros Hl%list_of_object. unfold elements. destruct v; try discriminate. by rewrite Hl. Qed.
Lemma draw_at {A} (f : nat → A) h l n : draw f (at_ h l n) = (Ok (f n), at_ h l (S n)).
Proof. done. Qed.

Lemma get_key_at h l n k key d m :
  l !! k = Some (Dict m) → get_key (fresh h k) key d (at_ h l n) = (Ok (default d (dict_get key m)), at_ h l n).
Proof. intros Hk. apply get_key_run. by rewrite dict_at, Hk. Qed.
Lemma getitem_at h l n k key m x :
  l !! k = Some (Dict m) → dict_get key m = Some x → getitem (fresh h k) key (at_ h l n) = (Ok x, at_ h l n).
Proof. intros Hk. apply getitem_run. by rewrite dict_at, Hk. Qed.
Lemma contains_at h l n k key m :
  l !! k = Some (Dict m) → contains (fresh h k) key (at_ h l n) = (Ok (dict_mem key m), at_ h l n).
Proof. intros Hk. apply contains_run. by rewrite dict_at, Hk. Qed.
Lemma elements_at h l n k xs :
  l !! k = Some (List xs) → elements (fresh h k) (at_ h l n) = (Ok xs, at_ h l n).
Proof. intros Hk. apply elements_run. by rewrite list_at, Hk. Qed.
Lemma first_item_at h l n k x xs :
  l !! k = Some (List (x :: xs)) → first_item (fresh h k) (at_ h l n) = (Ok x, at_ h l n).
Proof. intros Hk. pose proof (object_at h l n k) as Ho. rewrite Hk in Ho. unfold first_item, fresh in *. by rewrite Ho. Qed.
Lemma truthy_list_at h l n k x xs :
  l !! k = Some (List (x :: xs)) → truthy_of (fresh h k) (at_ h l n) = (Ok true, at_ h l n).
Proof.
  intros Hk. pose proof (object_at h l n k) as Ho. rewrite Hk in Ho. unfold object_of, fresh, at_ in Ho. simpl in Ho.
  unfold truthy_of, gets, truth, fresh, at_. simpl. by rewrite Ho.
Qed.

Lemma setitem_at h l n k key x m :
  l !! k = Some (Dict m) →
  setitem (fresh h k) key x (at_ h l n) = (Ok tt, at_ h (<[k := Dict (dict_set key x m)]> l) n).
Proof.
  intros Hk. unfold setitem. rewrite dict_at, Hk. unfold fresh, at_. simpl. do 2 f_equal.
  rewrite insert_app_r. done.
Qed.

Lemma setitem_old h l n v key x m k :
  v = VRef k → h !! k = Some (Dict m) →
  setitem v key x (at_ h l n) = (Ok tt, at_ (<[k := Dict (dict_set key x m)]> h) l n).
Proof.
  intros -> Hk. unfold setitem, dict_of, object_of, at_. simpl. rewrite (lookup_app_l_Some _ _ _ _ Hk).
  do 2 f_equal. rewrite insert_app_l; [done|by eapply lookup_lt_Some].
Qed.

Lemma delitem_at h l n k key m x :
  l !! k = Some (Dict m) → dict_get key m = Some x →
  delitem (fresh h k) key (at_ h l n) = (Ok tt, at_ h (<[k := Dict (dict_pop key m)]> l) n).
Proof.
  intros Hk Hx. unfold delitem. rewrite dict_at, Hk, Hx. unfold fresh, at_. simpl. do 2 f_equal.
  rewrite insert_app_r. done.
Qed.

Lemma append_at h l n k x xs :
  l !! k = Some (List xs) →
  append (fresh h k) x (at_ h l n) = (Ok tt, at_ h (<[k := List (xs ++ [x])]> l) n).
Proof.
  intros Hk. unfold append. rewrite list_at, Hk. unfold fresh, at_. simpl. do 2 f_equal.
  rewrite insert_app_r. done.
Qed.

(** Operations that never raise a cancellation. *)
Definition calm {A} (m : W A) : Prop := ∀ w, (m w).1 ≠ Raise CancelledError.

Lemma calm_mret {A} (a : A) : calm (mret a).
Proof. by intros w. Qed.
Lemma calm_gets {A} (f : world → A) : calm (gets f).
Proof. by intros w. Qed.
Lemma calm_get : calm get.
Proof. by intros w. Qed.
Lemma calm_bind {A B} (m : W A) (f : A → W B) : calm m → (∀ a, calm (f a)) → calm (m ≫= f).
Proof. intros Hm Hf w. rewrite run_bind. specialize (Hm w). destruct (m w) as [[a|e] w']; [apply Hf|]. intros [= ->]. done. Qed.
Lemma calm_raise {A} e : e ≠ CancelledError → calm (@raise world A e).
Proof. intros He w [= ->]. done. Qed.
Lemma calm_when b (m : W unit) : calm m → calm (when b m).
Proof. destruct b; [done|]. intros _. apply calm_mret. Qed.
Lemma calm_if {A} (b : bool) (m m' : W A) : calm m → calm m' → calm (if b then m else m').
Proof. by destruct b. Qed.
Lemma calm_alloc o : calm (alloc o).
Proof. by intros w. Qed.
Lemma calm_draw {A} (f : nat → A) : calm (draw f).
Proof. by intros w. Qed.

Ltac calm_cases := intros w; repeat (case_match; try done); simpl; try done.
Lemma calm_get_key v k d : calm (get_key v k d).
Proof. unfold get_key. calm_cases. Qed.
Lemma calm_getitem v k : calm (getitem v k).
Proof. unfold getitem. calm_cases. Qed.
Lemma calm_first_item v : calm (first_item v).
Proof. unfold first_item. calm_cases. Qed.
Lemma calm_setitem v k x : calm (setitem v k x).
Proof. unfold setitem. calm_cases. Qed.
Lemma calm_delitem v k : calm (delitem v k).
Proof. unfold delitem. calm_cases. Qed.
Lemma calm_contains v k : calm (contains v k).
Proof. unfold contains. calm_cases. Qed.
Lemma calm_elements v : calm (elements v).
Proof. unfold elements. calm_cases. Qed.
Lemma calm_items v : calm (items v).
Proof. unfold items. calm_cases. Qed.
Lemma calm_append v x : calm (append v x).
Proof. unfold append. calm_cases. Qed.

Create HintDb calm.
#[export] Hint Resolve calm_mret calm_gets calm_get calm_raise calm_when calm_if calm_alloc calm_draw calm_get_key
  calm_getitem calm_first_item calm_setitem calm_delitem calm_contains calm_elements calm_items calm_append : calm.
#[export] Hint Extern 1 (calm (_ ≫= _)) => apply calm_bind; [|intros] : calm.
#[export] Hint Extern 1 (calm (match ?x with _ => _ end)) => destruct x : calm.
#[export] Hint Extern 1 (_ ≠ CancelledError) => discriminate : calm.
