(* ===== verification/TranslationEngine.v ===== *)
(** * The MCP/A2A translation engine

    [engine/translation_engine.py].  Messages are references into [PyHeap]'s
    heap: the engine copies members by reference and assigns into nested
    dictionaries, which the caller may still hold.  A field's [transform] is the
    caller's function; elapsed time is an argument; warnings and errors carry
    [str(e)]. *)

From stdpp Require Import base list strings.
From Stdlib Require Import ZArith Lia Ascii.
From S2P Require Import Prelude PyFloat Text PyHeap.

#[local] Open Scope Z_scope.

(** ** Data *)

Inductive TranslationDirection := MCP_TO_A2A | A2A_TO_MCP.

Definition direction_value (d : TranslationDirection) : string :=
  match d with MCP_TO_A2A => "mcp_to_a2a" | A2A_TO_MCP => "a2a_to_mcp" end.

Inductive TranslationStatus := SUCCESS | PARTIAL | FAILED | FALLBACK.

#[global] Instance status_eq_dec : EqDecision TranslationStatus.
Proof. solve_decision. Defined.

Record FieldMapping := mkMapping {
  source_field : string;
  target_field : string;
  transform : option (value → W value);
  required : bool;
  default_value : value;
}.

Definition plain (s t : string) : FieldMapping := mkMapping s t None false VNone.

Record TranslationResult := mkResult {
  success : bool;
  direction : string;
  status : TranslationStatus;
  source_data : value;
  target_data : value;
  warnings : list string;
  errors : list string;
  metadata : list (string * value);
}.

Definition DEFAULT_MCP_TO_A2A_MAPPINGS : list FieldMapping :=
  [plain "name" "agent_id"; plain "input" "parameters"; plain "arguments" "parameters"; plain "content" "body";
   plain "text" "message"; plain "results" "artifacts"; plain "isError" "error"; plain "description" "description";
   plain "uri" "uri"; plain "mimeType" "mime_type"].

Definition DEFAULT_A2A_TO_MCP_MAPPINGS : list FieldMapping :=
  [plain "agent_id" "name"; plain "parameters" "input"; plain "body" "content"; plain "message" "text";
   plain "artifacts" "results"; plain "error" "isError"; plain "description" "description"; plain "uri" "uri";
   plain "mime_type" "mimeType"; plain "sessionId" "session_id"; plain "taskId" "task_id"].

Definition TASK_TYPE_MAPPINGS : list (string * string) :=
  [("tool_execution", "task"); ("tool_call", "task"); ("list_tools", "task"); ("resource_read", "task");
   ("resource_list", "task"); ("list_resources", "task"); ("get_prompt", "task");
   ("message", "tool_execution"); ("task", "tool_execution")].

Definition STATUS_MAPPINGS : list (string * string) :=
  [("success", "completed"); ("error", "failed"); ("pending", "submitted");
   ("submitted", "pending"); ("working", "pending"); ("completed", "success"); ("failed", "error")].

(** ** The engine's mappings *)

Record engine := mkEngine { mcp_mappings : list FieldMapping; a2a_mappings : list FieldMapping }.

(** A configured mapping: not a dictionary, or what [FieldMapping] makes of it. *)
Definition configured := option (outcome FieldMapping).

Fixpoint load_mappings (ms : list FieldMapping) (l : list configured) : outcome (list FieldMapping) :=
  match l with
  | [] => Ok ms
  | None :: l => load_mappings ms l
  | Some m :: l => m ← m; load_mappings (ms ++ [m]) l
  end.

(** [__init__] with [_load_custom_mappings]. *)
Definition engine_init (custom_mcp custom_a2a : option (list configured)) : outcome engine :=
  ms ← load_mappings DEFAULT_MCP_TO_A2A_MAPPINGS (default [] custom_mcp);
  ns ← load_mappings DEFAULT_A2A_TO_MCP_MAPPINGS (default [] custom_a2a);
  Ok (mkEngine ms ns).

Definition register_custom_mapping (dir src dst : string) (f : option (value → W value)) (e : engine) : engine :=
  let m := mkMapping src dst f false VNone in
  if bool_decide (dir = direction_value MCP_TO_A2A) then mkEngine (mcp_mappings e ++ [m]) (a2a_mappings e)
  else mkEngine (mcp_mappings e) (a2a_mappings e ++ [m]).

Definition get_supported_mappings (dir : string) (e : engine) : list (string * string) :=
  let pairs := fmap (fun m => (source_field m, target_field m)) in
  if bool_decide (dir = direction_value MCP_TO_A2A) then pairs (mcp_mappings e)
  else if bool_decide (dir = direction_value A2A_TO_MCP) then pairs (a2a_mappings e) else [].

Section engine.
Context `{PyText}.

(** ** Dotted paths *)

Definition dot : ascii := ascii_of_nat 46.
Definition slash : ascii := ascii_of_nat 47.
Definition underscore : ascii := ascii_of_nat 95.

Fixpoint get_path (w : world) (v : value) (ks : list string) : value :=
  match ks with
  | [] => v
  | k :: ks => match dict_of w v with
               | Some m => get_path w (default VNone (dict_get k m)) ks
               | None => VNone
               end
  end.

Definition get_nested_value (data : value) (key : string) : W value :=
  let '(k, ks) := split_on dot key in gets (fun w => get_path w data (k :: ks)).

Fixpoint set_path (current : value) (k : string) (ks : list string) (v : value) : W unit :=
  match ks with
  | [] => setitem current k v
  | k' :: ks =>
      present ← contains current k;
      _ ← when (negb present) (e ← alloc (Dict []); setitem current k e);
      next ← getitem current k;
      set_path next k' ks v
  end.

Definition set_nested_value (data : value) (key : string) (v : value) : W unit :=
  let '(k, ks) := split_on dot key in set_path data k ks v.

(** ** Fields *)

Definition apply_mapping (data result : value) (m : FieldMapping) : W unit :=
  v ← get_nested_value data (source_field m);
  if negb (bool_decide (v = VNone)) then
    x ← match transform m with Some f => f v | None => mret v end;
    set_nested_value result (target_field m) x
  else when (negb (bool_decide (default_value m = VNone)))
         (set_nested_value result (target_field m) (default_value m)).

Fixpoint apply_mappings (data result : value) (ms : list FieldMapping) : W unit :=
  match ms with
  | [] => mret tt
  | m :: ms => _ ← apply_mapping data result m; apply_mappings data result ms
  end.

Fixpoint copy_unmapped (result : value) (mapped : list string) (kvs : list (string * value)) : W unit :=
  match kvs with
  | [] => mret tt
  | (k, v) :: kvs =>
      _ ← when (negb (bool_decide (k ∈ mapped))) (setitem result k v);
      copy_unmapped result mapped kvs
  end.

Definition translate_fields (data : value) (ms : list FieldMapping) : W value :=
  result ← alloc (Dict []);
  _ ← apply_mappings data result ms;
  kvs ← items data;
  _ ← copy_unmapped result (source_field <$> ms) kvs;
  mret result.

(** ** JSON-RPC messages *)

Definition generate_task_id : W value := draw (fun n => VStr ("task_" +:+ String.substring 0 12 (uuid_hex n))).
Definition generate_msg_id : W value := draw (fun n => VStr (uuid_text n)).
Definition generate_context_id : W value := draw (fun n => VStr ("ctx_" +:+ String.substring 0 12 (uuid_hex n))).

(** [str(v) if v else fresh]. *)
Definition str_or (v : value) (fresh : W value) : W value :=
  given ← truthy_of v;
  if (given : bool) then s ← text_of v; mret (VStr s) else fresh.

(** The data part a method adds to the first message. *)
Definition data_part (method params : value) : W (option value) :=
  if is_str "tools/call" method then
    tool ← get_key params "tool" (VStr "");
    name ← get_key params "name" tool;
    none ← alloc (Dict []);
    input ← get_key params "input" none;
    args ← get_key params "arguments" input;
    d ← alloc (Dict [("tool_name", name); ("arguments", args)]);
    p ← alloc (Dict [("kind", VStr "data"); ("data", d)]);
    mret (Some p)
  else if is_str "resources/read" method then
    uri ← get_key params "uri" (VStr "");
    d ← alloc (Dict [("uri", uri)]);
    p ← alloc (Dict [("kind", VStr "data"); ("data", d)]);
    mret (Some p)
  else mret None.

Definition translate_jsonrpc_mcp (data : value) : W value :=
  method ← get_key data "method" (VStr "");
  none ← alloc (Dict []);
  params ← get_key data "params" none;
  msg_id ← get_key data "id" VNone;
  id ← str_or msg_id generate_task_id;
  context ← generate_context_id;
  state ← alloc (Dict [("state", VStr "submitted")]);
  message_id ← generate_msg_id;
  title ← text_of method;
  part ← alloc (Dict [("kind", VStr "text"); ("text", VStr ("MCP task: " +:+ title))]);
  parts ← alloc (List [part]);
  message ← alloc (Dict [("kind", VStr "message"); ("messageId", message_id); ("role", VStr "agent"); ("parts", parts)]);
  history ← alloc (List [message]);
  original ← text_of msg_id;
  meta ← alloc (Dict [("source_protocol", VStr "mcp"); ("source_method", method); ("original_id", VStr original)]);
  task ← alloc (Dict [("id", id); ("contextId", context); ("kind", VStr "task"); ("status", state);
                      ("history", history); ("metadata", meta)]);
  extra ← data_part method params;
  _ ← match extra with Some p => append parts p | None => mret tt end;
  alloc (Dict [("task", task)]).

(** [a or b]. *)
Definition py_or (a : value) (b : W value) : W value := t ← truthy_of a; if (t : bool) then mret a else b.

(** [task.get("history") or task.get("messages") or []], [None] when empty. *)
Definition first_message (task : value) : W (option value) :=
  h ← get_key task "history" VNone;
  messages ← py_or h (m ← get_key task "messages" VNone; py_or m (alloc (List [])));
  t ← truthy_of messages;
  if (t : bool) then m ← first_item messages; mret (Some m) else mret None.

Definition parts_of (message : value) : W (list value) :=
  none ← alloc (List []); ps ← get_key message "parts" none; elements ps.

(** The loop of [_extract_mcp_method_from_task]: every branch answers the same,
    but a malformed part raises. *)
Fixpoint scan_method (ps : list value) : W unit :=
  match ps with
  | [] => mret tt
  | p :: ps =>
      k ← get_key p "kind" VNone;
      if is_str "data" k then
        none ← alloc (Dict []);
        d ← get_key p "data" none;
        t ← contains d "tool_name";
        n ← (if (t : bool) then mret true else contains d "name");
        if (n : bool) then mret tt else scan_method ps
      else scan_method ps
  end.

Definition extract_mcp_method_from_task (task : value) : W value :=
  m ← first_message task;
  _ ← match m with Some m => ps ← parts_of m; scan_method ps | None => mret tt end;
  mret (VStr "tools/call").

Fixpoint scan_params (ps : list value) : W value :=
  match ps with
  | [] => alloc (Dict [])
  | p :: ps =>
      k ← get_key p "kind" VNone;
      if is_str "data" k then
        none ← alloc (Dict []);
        d ← get_key p "data" none;
        n ← get_key d "name" VNone;
        name ← py_or n (get_key d "tool_name" VNone);
        if bool_decide (name = VNone) then mret d
        else
          none ← alloc (Dict []);
          args ← get_key d "arguments" none;
          alloc (Dict [("name", name); ("arguments", args)])
      else scan_params ps
  end.

Definition extract_mcp_params_from_task (task : value) : W value :=
  m ← first_message task;
  match m with Some m => ps ← parts_of m; scan_params ps | None => alloc (Dict []) end.

(** [dict.get] with a key that may not be hashable. *)
Definition mapped_to {A} (table : list (string * A)) (v : value) : W (option A) :=
  match v with
  | VRef _ => raise (TypeError "unhashable type")
  | VStr s => mret (dict_get s table)
  | _ => mret None
  end.

Definition METHOD_MAP : list (string * string) :=
  [("tasks/send", "tools/call"); ("tasks/get", "tools/list"); ("agent/info", "tools/list")].

Definition map_a2a_method_to_mcp (method : value) : W value :=
  m ← mapped_to METHOD_MAP method; mret (VStr (default "tools/call" m)).

Definition translate_jsonrpc_a2a (data : value) : W value :=
  method ← get_key data "method" (VStr "");
  none ← alloc (Dict []);
  params ← get_key data "params" none;
  msg_id ← get_key data "id" VNone;
  id ← str_or msg_id generate_msg_id;
  method ← map_a2a_method_to_mcp method;
  empty ← alloc (Dict []);
  msg ← alloc (Dict [("jsonrpc", VStr "2.0"); ("id", id); ("method", method); ("params", empty)]);
  has ← contains params "task";
  _ ← when has (
    task ← getitem params "task";
    m ← extract_mcp_method_from_task task;
    _ ← setitem msg "method" m;
    ps ← extract_mcp_params_from_task task;
    setitem msg "params" ps);
  mret msg.

(** ** Methods, nested structures *)

Definition starts_with (v : value) (prefix : string) : W bool :=
  match v with
  | VStr s => mret (String.prefix prefix s)
  | _ => raise (AttributeError "object has no attribute 'startswith'")
  end.

(** [_translate_method]: assigns into [target] and returns it. *)
Definition translate_method (data target : value) (dir : TranslationDirection) : W unit :=
  method ← get_key data "method" (VStr "");
  match dir with
  | MCP_TO_A2A =>
      tools ← starts_with method "tools/";
      if (tools : bool) then setitem target "task_type" (VStr "tool_execution")
      else
        resources ← starts_with method "resources/";
        when resources (setitem target "task_type" (VStr "resource_access"))
  | A2A_TO_MCP =>
      has ← contains data "task";
      when has (_ ← getitem data "task"; setitem target "method" (VStr "tools/call"))
  end.

Definition map_task_type (data target : value) : W unit :=
  method ← get_key data "method" (VStr "");
  match method with
  | VStr s => setitem target "task_type"
                (VStr (default "task" (dict_get (replace_char slash underscore s) TASK_TYPE_MAPPINGS)))
  | _ => raise (AttributeError "object has no attribute 'replace'")
  end.

Definition translate_artifact (a : value) : W value :=
  w ← get;
  match dict_of w a with
  | Some m =>
      let text := VStr (str_of w a) in
      alloc (Dict [("type", default (VStr "text") (dict_get "type" m)); ("content", default text (dict_get "content" m));
                   ("name", default (VStr "") (dict_get "name" m)); ("description", default (VStr "") (dict_get "description" m))])
  | None => alloc (Dict [("type", VStr "text"); ("content", VStr (str_of w a))])
  end.

Fixpoint translate_each (l : list value) : W (list value) :=
  match l with
  | [] => mret []
  | a :: l => x ← translate_artifact a; xs ← translate_each l; mret (x :: xs)
  end.

Definition translate_artifacts (artifacts : value) : W value :=
  l ← elements artifacts; xs ← translate_each l; alloc (List xs).

(** [result["status"]["state"]], assigned in place in whatever dictionary
    [status] refers to. *)
Definition translate_status (result : value) : W unit :=
  has ← contains result "status";
  when has (
    st ← getitem result "status";
    w ← get;
    match dict_of w st with
    | Some m =>
        match dict_get "state" m with
        | Some state =>
            x ← mapped_to STATUS_MAPPINGS state;
            setitem st "state" (match x with Some s => VStr s | None => state end)
        | None => mret tt
        end
    | None => mret tt
    end).

Definition translate_nested_structures (data : value) (dir : TranslationDirection) : W value :=
  result ← copy data;
  has ← contains result "artifacts";
  _ ← when has (
    a ← getitem result "artifacts";
    c ← translate_artifacts a;
    _ ← setitem result "content" c;
    match dir with A2A_TO_MCP => delitem result "artifacts" | MCP_TO_A2A => mret tt end);
  content ← contains result "content";
  _ ← match dir with
      | A2A_TO_MCP => when content (
          c ← getitem result "content";
          _ ← setitem result "results" c;
          delitem result "content")
      | MCP_TO_A2A => mret tt
      end;
  _ ← translate_status result;
  mret result.

(** ** [translate] *)

Definition succeeded (dir : TranslationDirection) (data target : value) : TranslationResult :=
  mkResult true (direction_value dir) SUCCESS data target [] [] [].
Definition partial (dir : TranslationDirection) (data target : value) (e : pyexn) : TranslationResult :=
  mkResult false (direction_value dir) PARTIAL data target [exn_message e] [] [].

(** [except Exception], which lets a cancellation pass. *)
Definition handled (e : pyexn) : bool := match e with CancelledError => false | _ => true end.

(** Run [m] and go on with [k]; where [m] raises, the target is [target_data] as
    bound so far. *)
Definition attempt (dir : TranslationDirection) (data bound : value) (m : W value)
    (k : value → W TranslationResult) : W TranslationResult := fun w =>
  match m w with
  | (Ok v, w') => k v w'
  | (Raise e, w') => if handled e then (Ok (partial dir data bound e), w') else (Raise e, w')
  end.

Definition first_pass (e : engine) (dir : TranslationDirection) (data : value) : W value :=
  rpc ← contains data "jsonrpc";
  match dir, rpc with
  | MCP_TO_A2A, true => translate_jsonrpc_mcp data
  | MCP_TO_A2A, false => translate_fields data (mcp_mappings e)
  | A2A_TO_MCP, true => translate_jsonrpc_a2a data
  | A2A_TO_MCP, false => translate_fields data (a2a_mappings e)
  end.

(** The steps on the bound [target_data]: the method, for MCP the task type, then
    the nested structures. *)
Definition second_pass (dir : TranslationDirection) (data target : value) : W value :=
  m ← contains data "method";
  _ ← when m (translate_method data target dir);
  _ ← match dir with MCP_TO_A2A => when m (map_task_type data target) | A2A_TO_MCP => mret tt end;
  translate_nested_structures target dir.

(** [_translate_mcp_to_a2a] and [_translate_a2a_to_mcp]. *)
Definition translate_directed (e : engine) (dir : TranslationDirection) (data : value) : W TranslationResult :=
  empty ← alloc (Dict []);
  attempt dir data empty (first_pass e dir data) (fun target =>
    attempt dir data target (second_pass dir data target) (fun t => mret (succeeded dir data t))).

Definition timed (ms : float64) (dir : string) (r : TranslationResult) : TranslationResult :=
  mkResult (success r) (direction r) (status r) (source_data r) (target_data r) (warnings r) (errors r)
    [("translation_time_ms", VFloat ms); ("direction", VStr dir)].

Definition failed (dir : string) (data target : value) (e : pyexn) : TranslationResult :=
  mkResult false dir FAILED data target [] [exn_message e] [("translation_time_ms", VInt 0)].

(** [translate]. *)
Definition translate (e : engine) (ms : float64) (data : value) (dir : string) : W TranslationResult :=
  if bool_decide (dir = direction_value MCP_TO_A2A) then
    r ← translate_directed e MCP_TO_A2A data; mret (timed ms dir r)
  else if bool_decide (dir = direction_value A2A_TO_MCP) then
    r ← translate_directed e A2A_TO_MCP data; mret (timed ms dir r)
  else
    empty ← alloc (Dict []);
    mret (failed dir data empty (ValueError ("Unknown translation direction: " +:+ dir))).

(** [validate_translation]. *)
Definition validate_translation (r : TranslationResult) : W (bool * list string) :=
  given ← truthy_of (source_data r);
  let errs := if (given : bool) then [] else ["Source data is empty"] in
  missing ← (if bool_decide (direction r = direction_value MCP_TO_A2A) then
    has ← contains (source_data r) "method";
    if (has : bool) then
      t ← get_key (target_data r) "task" VNone;
      ok ← truthy_of t;
      mret (if (ok : bool) then [] else ["MCP to A2A: Task structure not created"])
    else mret []
  else
    has ← contains (source_data r) "task";
    if (has : bool) then
      t ← get_key (target_data r) "method" VNone;
      ok ← truthy_of t;
      mret (if (ok : bool) then [] else ["A2A to MCP: Method not extracted"])
    else mret []);
  let errs := errs ++ missing in
  mret (bool_decide (errs = []) || bool_decide (status r = PARTIAL), errs).
End engine.
