(* ===== verification/TranslationSpec.v ===== *)
(** * What the translation engine guarantees

    [translate] always answers; a JSON-RPC message becomes a well-formed task
    without touching the caller's objects, and a tool call survives the way to
    A2A and back; a plain message is renamed field by field, but its status
    dictionary is rewritten in place. *)

From stdpp Require Import base list sets strings.
From Stdlib Require Import ZArith Lia Ascii.
From S2P Require Import Prelude PyFloat Text PyHeap TranslationEngine.

#[local] Open Scope Z_scope.

Section spec.
Context `{PyText}.
Implicit Types (e : engine) (w : world) (m : list (string * value)).

(** ** Every call answers *)

Definition mapping_calm (fm : FieldMapping) : Prop := ∀ f, transform fm = Some f → ∀ v, calm (f v).

Lemma calm_set_path v k ks x : calm (set_path v k ks x).
Proof. revert v k. induction ks; simpl; auto 10 with calm. Qed.
#[local] Hint Resolve calm_set_path : calm.

Lemma calm_get_nested_value v k : calm (get_nested_value v k).
Proof. unfold get_nested_value. destruct (split_on _ _). auto with calm. Qed.
Lemma calm_set_nested_value v k x : calm (set_nested_value v k x).
Proof. unfold set_nested_value. destruct (split_on _ _). auto with calm. Qed.
#[local] Hint Resolve calm_get_nested_value calm_set_nested_value : calm.

Lemma calm_translate_fields data ms : Forall mapping_calm ms → calm (translate_fields data ms).
Proof.
  intros Hms. unfold translate_fields. apply calm_bind; [auto with calm|intros r]. apply calm_bind.
  - induction Hms as [|fm ms Hm Hms IH]; simpl; [auto with calm|]. apply calm_bind; [|done].
    apply calm_bind; [auto with calm|intros v]. apply calm_if; [|auto with calm].
    apply calm_bind; [|auto with calm]. destruct (transform fm) eqn:Ht; [by apply Hm|auto with calm].
  - intros _. apply calm_bind; [auto with calm|intros kvs]. apply calm_bind; [|auto with calm].
    induction kvs as [|[k v] kvs IH]; simpl; auto 10 with calm.
Qed.

Lemma calm_py_or a b : calm b → calm (py_or a b).
Proof. unfold py_or, truthy_of. auto with calm. Qed.
Lemma calm_str_or v g : calm g → calm (str_or v g).
Proof. unfold str_or, truthy_of, text_of. auto 10 with calm. Qed.
Lemma calm_mapped_to {A} (t : list (string * A)) v : calm (mapped_to t v).
Proof. unfold mapped_to. auto with calm. Qed.
Lemma calm_starts_with v p : calm (starts_with v p).
Proof. unfold starts_with. auto with calm. Qed.
#[local] Hint Resolve calm_py_or calm_str_or calm_mapped_to calm_starts_with : calm.

Lemma calm_data_part method params : calm (data_part method params).
Proof. unfold data_part. auto 20 with calm. Qed.
Lemma calm_first_message t : calm (first_message t).
Proof. unfold first_message, truthy_of. auto 20 with calm. Qed.
Lemma calm_parts_of v : calm (parts_of v).
Proof. unfold parts_of. auto 20 with calm. Qed.
Lemma calm_scan_method ps : calm (scan_method ps).
Proof. induction ps; simpl; auto 20 with calm. Qed.
Lemma calm_scan_params ps : calm (scan_params ps).
Proof. induction ps; simpl; auto 20 with calm. Qed.
#[local] Hint Resolve calm_data_part calm_first_message calm_parts_of calm_scan_method calm_scan_params : calm.

Lemma calm_jsonrpc_mcp data : calm (translate_jsonrpc_mcp data).
Proof.
  unfold translate_jsonrpc_mcp, text_of, generate_task_id, generate_msg_id, generate_context_id. auto 40 with calm.
Qed.
Lemma calm_jsonrpc_a2a data : calm (translate_jsonrpc_a2a data).
Proof.
  unfold translate_jsonrpc_a2a, extract_mcp_method_from_task, extract_mcp_params_from_task, map_a2a_method_to_mcp,
    generate_msg_id. auto 40 with calm.
Qed.
#[local] Hint Resolve calm_jsonrpc_mcp calm_jsonrpc_a2a : calm.

Lemma calm_translate_each l : calm (translate_each l).
Proof. induction l; simpl; unfold translate_artifact; auto 20 with calm. Qed.
#[local] Hint Resolve calm_translate_each : calm.

Lemma calm_second_pass dir data target : calm (second_pass dir data target).
Proof.
  unfold second_pass, translate_method, map_task_type, translate_nested_structures, translate_artifacts,
    translate_status, copy. destruct dir; auto 40 with calm.
Qed.

Definition engine_calm e : Prop := Forall mapping_calm (mcp_mappings e) ∧ Forall mapping_calm (a2a_mappings e).

Lemma calm_first_pass e dir data : engine_calm e → calm (first_pass e dir data).
Proof.
  intros [He1 He2]. unfold first_pass. apply calm_bind; [auto with calm|intros b].
  destruct dir, b; auto using calm_translate_fields with calm.
Qed.

Lemma translate_directed_answers e dir data w :
  engine_calm e →
  ∃ r w', translate_directed e dir data w = (Ok r, w') ∧ source_data r = data ∧ direction r = direction_value dir ∧
    (if success r then status r = SUCCESS ∧ warnings r = [] else status r = PARTIAL ∧ warnings r ≠ []).
Proof.
  intros He. unfold translate_directed. rewrite run_bind. simpl. unfold attempt.
  set (w0 := mkWorld _ _). pose proof (calm_first_pass e dir data He w0) as Hc.
  destruct (first_pass e dir data w0) as [[t|x] w1]; simpl in *.
  - pose proof (calm_second_pass dir data t w1) as Hd.
    destruct (second_pass dir data t w1) as [[t'|x] w2]; simpl in *.
    + eexists _, w2. by split_and!.
    + destruct x; try done; eexists _, w2; by split_and!.
  - destruct x; try done; eexists _, w1; by split_and!.
Qed.

(** Whatever message and direction it is given, [translate] returns a result
    and never raises, as long as the caller's own transforms are not cancelled:
    the result names the given message and direction; it is a success without
    warnings, or partial with the reason; an unknown direction is a failure with
    an empty target that changes none of the caller's objects. *)
Theorem translate_always_answers e ms data dir w :
  engine_calm e →
  ∃ r w', translate e ms data dir w = (Ok r, w') ∧ source_data r = data ∧ direction r = dir ∧
    if bool_decide (dir = "mcp_to_a2a" ∨ dir = "a2a_to_mcp")
    then if success r then status r = SUCCESS ∧ warnings r = [] else status r = PARTIAL ∧ warnings r ≠ []
    else success r = false ∧ status r = FAILED ∧ dict_of w' (target_data r) = Some [] ∧ extends w w' ∧ errors r ≠ [].
Proof.
  intros He. unfold translate. simpl direction_value.
  case_bool_decide as H1; [|case_bool_decide as H2]; subst; simpl.
  { destruct (translate_directed_answers e MCP_TO_A2A data w He) as (r & w' & Hr & Hs & Hd & Ho).
    erewrite run_step by exact Hr. eexists _, w'. split_and!; [done..|exact Ho]. }
  { destruct (translate_directed_answers e A2A_TO_MCP data w He) as (r & w' & Hr & Hs & Hd & Ho).
    erewrite run_step by exact Hr. eexists _, w'. split_and!; [done..|exact Ho]. }
  rewrite bool_decide_false by naive_solver. rewrite (at_world w), run_bind, alloc_at.
  eexists _, _. split_and!; try done; simpl; [by rewrite dict_at|]. rewrite <- at_world. apply at_extends.
Qed.

(** ** Fields *)

(** A mapping without dots, transform or default: a renaming. *)
Definition renames (fm : FieldMapping) : Prop :=
  transform fm = None ∧ default_value fm = VNone ∧
  split_on dot (source_field fm) = (source_field fm, []) ∧ split_on dot (target_field fm) = (target_field fm, []).







Lemma default_mcp_renames : Forall renames DEFAULT_MCP_TO_A2A_MAPPINGS.
Proof. repeat constructor. Qed.



(** ** Nested structures *)

Definition default_engine : engine := mkEngine DEFAULT_MCP_TO_A2A_MAPPINGS DEFAULT_A2A_TO_MCP_MAPPINGS.

Lemma default_engine_init : engine_init None None = Ok default_engine.
Proof. done. Qed.



Lemma dict_mem_get {V} k (m : list (string * V)) : dict_mem k m = match dict_get k m with Some _ => true | None => false end.
Proof. done. Qed.



Lemma translate_succeeds e ms data dir w t w1 t' w2 :
  first_pass e dir data (at_ (heap w) [Dict []] (drawn w)) = (Ok t, w1) → second_pass dir data t w1 = (Ok t', w2) →
  translate e ms data (direction_value dir) w = (Ok (timed ms (direction_value dir) (succeeded dir data t')), w2).
Proof.
  intros H1 H2. assert (translate_directed e dir data w = (Ok (succeeded dir data t'), w2)) as Hd.
  { unfold translate_directed, attempt. rewrite run_bind. simpl. fold (at_ (heap w) [Dict []] (drawn w)). by rewrite H1, H2. }
  unfold translate. destruct dir; simpl; by rewrite run_bind, Hd.
Qed.


(** ** JSON-RPC messages to A2A tasks *)

Definition is_text_value (v : value) : bool := match v with VStr _ => true | _ => false end.
Definition field m (k : string) : value := default VNone (dict_get k m).
Definition on_dict w (v : value) (p : list (string * value) → bool) : bool :=
  match dict_of w v with Some m => p m | None => false end.
Definition on_list w (v : value) (p : value → bool) : bool :=
  match list_of w v with Some l => negb (bool_decide (l = [])) && forallb p l | None => false end.

(** A part is text, or data with an object; a message and a task as the A2A
    schema has them. *)
Definition is_part w (v : value) : bool := on_dict w v (fun p =>
  (is_str "text" (field p "kind") && is_text_value (field p "text")) ||
  (is_str "data" (field p "kind") && on_dict w (field p "data") (fun _ => true))).
Definition is_message w (v : value) : bool := on_dict w v (fun m =>
  is_str "message" (field m "kind") && is_text_value (field m "messageId") && is_str "agent" (field m "role") &&
  on_list w (field m "parts") (is_part w)).
Definition is_task w (v : value) : bool := on_dict w v (fun t =>
  is_text_value (field t "id") && is_text_value (field t "contextId") && is_str "task" (field t "kind") &&
  on_dict w (field t "status") (fun st => is_str "submitted" (field st "state")) &&
  on_list w (field t "history") (is_message w) &&
  on_dict w (field t "metadata") (fun me => is_str "mcp" (field me "source_protocol"))).

(** The message's parameters: an object, or nothing. *)
Definition has_params w m (pm : list (string * value)) : Prop :=
  match dict_get "params" m with Some p => dict_of w p = Some pm | None => pm = [] end.

(** What a tool call or a resource read adds: objects, and the new part. *)
Definition call_name pm : value := default (default (VStr "") (dict_get "tool" pm)) (dict_get "name" pm).
Definition extra_objects (h : list object) (s : string) pm : list object :=
  if bool_decide (s = "tools/call") then
    [Dict []; Dict [("tool_name", call_name pm);
                    ("arguments", default (default (fresh h 9) (dict_get "input" pm)) (dict_get "arguments" pm))];
     Dict [("kind", VStr "data"); ("data", fresh h 10)]]
  else if bool_decide (s = "resources/read") then
    [Dict [("uri", default (VStr "") (dict_get "uri" pm))]; Dict [("kind", VStr "data"); ("data", fresh h 9)]]
  else [].
Definition extra_parts (h : list object) (s : string) : list value :=
  if bool_decide (s = "tools/call") then [fresh h 11]
  else if bool_decide (s = "resources/read") then [fresh h 10] else [].

Definition task_objects (h : list object) (s title original : string) (id context message : value) : list object :=
  [Dict []; Dict []; Dict [("state", VStr "submitted")];
   Dict [("kind", VStr "text"); ("text", VStr title)];
   List ([fresh h 3] ++ extra_parts h s);
   Dict [("kind", VStr "message"); ("messageId", message); ("role", VStr "agent"); ("parts", fresh h 4)];
   List [fresh h 5];
   Dict [("source_protocol", VStr "mcp"); ("source_method", VStr s); ("original_id", VStr original)];
   Dict [("id", id); ("contextId", context); ("kind", VStr "task"); ("status", fresh h 2); ("history", fresh h 6);
         ("metadata", fresh h 7)]].

Lemma str_or_run v h l n (g : nat → string) :
  ∃ x n', str_or v (draw (fun n => VStr (g n))) (at_ h l n) = (Ok (VStr x), at_ h l n').
Proof. unfold str_or, truthy_of, text_of. rewrite run_bind. simpl. case_match; eauto. Qed.

Lemma params_run w m pm l n :
  has_params w m pm → dict_of (at_ (heap w) ([Dict []; Dict []] ++ l) n) (default (fresh (heap w) 1) (dict_get "params" m)) = Some pm.
Proof. unfold has_params. destruct (dict_get "params" m); [by apply dict_old|]. intros ->. simpl. by rewrite dict_at. Qed.

Lemma data_part_run h l n p pm s :
  length l = 9%nat → (∀ l' n', dict_of (at_ h (l ++ l') n') p = Some pm) →
  data_part (VStr s) p (at_ h l n) = (Ok (head (extra_parts h s)), at_ h (l ++ extra_objects h s pm) n).
Proof.
  intros Hl Hp. pose proof (Hp [] n) as H0. rewrite app_nil_r in H0. pose proof (Hp [Dict []] n) as H1.
  unfold data_part, extra_parts, extra_objects. simpl.
  case_bool_decide; [|case_bool_decide].
  - rewrite run_bind, (get_key_run _ _ _ _ pm), run_bind, (get_key_run _ _ _ _ pm), run_bind, alloc_at by done.
    rewrite run_bind, (get_key_run _ _ _ _ pm), run_bind, (get_key_run _ _ _ _ pm) by done.
    rewrite run_bind, alloc_at, run_bind, alloc_at. rewrite !length_app, Hl, <- !(assoc (++)). done.
  - rewrite run_bind, (get_key_run _ _ _ _ pm), run_bind, alloc_at, run_bind, alloc_at by done.
    rewrite !length_app, Hl, <- !(assoc (++)). done.
  - by rewrite app_nil_r.
Qed.

Lemma jsonrpc_mcp_run w m pm s data :
  dict_of w data = Some m → default (VStr "") (dict_get "method" m) = VStr s → has_params w m pm →
  ∃ title original id context message n,
    translate_jsonrpc_mcp data (at_ (heap w) [Dict []] (drawn w)) =
      (Ok (fresh (heap w) (9 + length (extra_objects (heap w) s pm))),
       at_ (heap w) (task_objects (heap w) s title original (VStr id) (VStr context) (VStr message) ++
                     extra_objects (heap w) s pm ++ [Dict [("task", fresh (heap w) 8)]]) n).
Proof.
  intros Hm Hs Hp. set (h := heap w) in *.
  assert (∀ l n, dict_of (at_ h l n) data = Some m) as Ho by (intros; by apply dict_old).
  unfold translate_jsonrpc_mcp. rewrite run_bind, (get_key_run _ _ _ _ m), Hs, run_bind, alloc_at by done.
  rewrite run_bind, (get_key_run _ _ _ _ m), run_bind, (get_key_run _ _ _ _ m) by done. simpl.
  destruct (str_or_run (default VNone (dict_get "id" m)) h [Dict []; Dict []] (drawn w)
              (fun n => "task_" +:+ String.substring 0 12 (uuid_hex n))) as (id & n & Hid).
  unfold generate_task_id, generate_context_id, generate_msg_id, text_of. rewrite run_bind, Hid.
  rewrite run_bind, draw_at, run_bind, alloc_at, run_bind, draw_at. simpl.
  rewrite run_bind. simpl. rewrite run_bind, alloc_at, run_bind, alloc_at, run_bind, alloc_at, run_bind, alloc_at. simpl.
  rewrite run_bind. simpl. rewrite run_bind, alloc_at, run_bind, alloc_at, run_bind. simpl.
  rewrite (data_part_run _ _ _ _ pm) by (try done; intros; by apply (params_run w m pm (_ :: _ :: _ :: _ :: _ :: _ :: _ :: _))).
  eexists _, _, id, _, _, _. unfold task_objects, extra_parts, extra_objects.
  case_bool_decide; [|case_bool_decide]; simpl; rewrite run_bind.
  1,2: erewrite append_at by done; simpl; rewrite alloc_at; done.
  simpl. rewrite alloc_at. done.
Qed.

(** A target without artifacts, content or status is only copied. *)
Lemma nested_plain_run dir h l n k R :
  l !! k = Some (Dict R) → dict_get "artifacts" R = None → dict_get "content" R = None → dict_get "status" R = None →
  translate_nested_structures (fresh h k) dir (at_ h l n) = (Ok (fresh h (length l)), at_ h (l ++ [Dict R]) n).
Proof.
  intros Hk Ha Hc Hs. unfold translate_nested_structures, copy, translate_status.
  rewrite run_bind, run_bind, (items_run _ _ R), alloc_at by (by rewrite dict_at, Hk).
  assert (∀ n, dict_of (at_ h (l ++ [Dict R]) n) (fresh h (length l)) = Some R) as Hl
    by (intros; by rewrite dict_at, list_lookup_middle).
  rewrite run_bind, (contains_run _ _ _ R), dict_mem_get, Ha by done. simpl.
  rewrite run_bind. simpl. rewrite run_bind, (contains_run _ _ _ R), dict_mem_get, Hc by done. simpl.
  rewrite run_bind. destruct dir; simpl; rewrite run_bind; rewrite run_bind;
    rewrite (contains_run _ _ _ R), dict_mem_get, Hs by done; done.
Qed.

Definition task_type (s : string) : string := default "task" (dict_get (replace_char slash underscore s) TASK_TYPE_MAPPINGS).

(** The target of a JSON-RPC message: the task, and its type if it names a method. *)
Definition task_target m (s : string) (t : value) : list (string * value) :=
  ("task", t) :: if dict_mem "method" m then [("task_type", VStr (task_type s))] else [].

Lemma second_pass_mcp_run h l n k data m s t :
  (∀ l' n', dict_of (at_ h l' n') data = Some m) → default (VStr "") (dict_get "method" m) = VStr s →
  l !! k = Some (Dict [("task", t)]) →
  second_pass MCP_TO_A2A data (fresh h k) (at_ h l n) =
    (Ok (fresh h (length l)), at_ h (<[k := Dict (task_target m s t)]> l ++ [Dict (task_target m s t)]) n).
Proof.
  intros Ho Hs Hk. assert (k < length l)%nat as Hlt by (by eapply lookup_lt_Some).
  unfold second_pass, task_target. rewrite run_bind, (contains_run _ _ _ m) by done.
  destruct (dict_mem "method" m); simpl.
  2: { rewrite run_bind; simpl. rewrite run_bind; simpl. rewrite (list_insert_id l) by done.
       by apply nested_plain_run. }
  assert (∃ R, l !! k = Some (Dict [("task", t)]) ∧ translate_method data (fresh h k) MCP_TO_A2A (at_ h l n) =
            (Ok tt, at_ h (<[k := Dict (("task", t) :: R)]> l) n) ∧ (R = [] ∨ ∃ x, R = [("task_type", x)])) as (R & _ & HR & Hc).
  { unfold translate_method. rewrite run_bind, (get_key_run _ _ _ _ m), Hs by done. simpl. rewrite run_bind. simpl.
    destruct (String.prefix "tools/" s); simpl.
    - rewrite (setitem_at _ _ _ _ _ _ [("task", t)]) by done. eauto 10.
    - rewrite run_bind. simpl. destruct (String.prefix "resources/" s); simpl.
      + rewrite (setitem_at _ _ _ _ _ _ [("task", t)]) by done. eauto 10.
      + exists []. rewrite (list_insert_id l) by done. eauto. }
  rewrite run_bind, HR, run_bind. unfold map_task_type. rewrite run_bind, (get_key_run _ _ _ _ m), Hs by done.
  cbv beta iota. fold (task_type s).
  rewrite (setitem_at _ _ _ _ _ _ (("task", t) :: R)) by (by rewrite list_lookup_insert_eq).
  rewrite list_insert_insert_eq. replace (length l) with (length (<[k := Dict (dict_set "task_type" (VStr (task_type s)) (("task", t) :: R))]> l))
    by apply length_insert.
  assert (dict_set "task_type" (VStr (task_type s)) (("task", t) :: R) = [("task", t); ("task_type", VStr (task_type s))]) as ->
    by (by destruct Hc as [->|[x ->]]).
  apply nested_plain_run; [by apply list_lookup_insert_eq|done..].
Qed.

Lemma task_objects_ok h s title original id context message pm l n :
  is_task (at_ h (task_objects h s title original (VStr id) (VStr context) (VStr message) ++ extra_objects h s pm ++ l) n)
    (fresh h 8) = true.
Proof.
  unfold is_task, on_dict, on_list, extra_objects, task_objects, extra_parts.
  case_bool_decide; [|case_bool_decide];
    repeat (first [rewrite dict_at|rewrite list_at|progress simpl|progress unfold is_message, is_part, on_dict, on_list, field]).
  all: try done.
Qed.

Lemma task_type_tools s : String.prefix "tools/" s = true ∨ String.prefix "resources/" s = true → task_type s = "task".
Proof.
  unfold task_type, TASK_TYPE_MAPPINGS. intros [Hp|Hp].
  - destruct s as [|? [|? [|? [|? [|? [|? s]]]]]]; simpl in Hp; repeat (case_match; try done); subst; simpl.
    repeat (rewrite decide_False by discriminate). done.
  - destruct s as [|? [|? [|? [|? [|? [|? [|? [|? [|? [|? s]]]]]]]]]]; simpl in Hp; repeat (case_match; try done); subst; simpl.
    repeat (rewrite decide_False by discriminate). done.
Qed.

(** The whole translation of a JSON-RPC message, object by object. *)
Lemma jsonrpc_translated e ms data w m pm s :
  dict_of w data = Some m → dict_get "jsonrpc" m ≠ None → default (VStr "") (dict_get "method" m) = VStr s →
  has_params w m pm →
  let ex := extra_objects (heap w) s pm in
  let target := Dict (task_target m s (fresh (heap w) 8)) in
  ∃ title original id context message n,
    translate e ms data "mcp_to_a2a" w =
      (Ok (timed ms "mcp_to_a2a" (succeeded MCP_TO_A2A data (fresh (heap w) (10 + length ex)))),
       at_ (heap w) (task_objects (heap w) s title original (VStr id) (VStr context) (VStr message) ++ ex ++ [target; target]) n).
Proof.
  intros Hm Hj Hs Hp ex target. destruct (jsonrpc_mcp_run w m pm s data Hm Hs Hp) as (title & orig & id & ctx & msg & n & Hr).
  assert (∀ l n, dict_of (at_ (heap w) l n) data = Some m) as Ho by (intros; by apply dict_old).
  exists title, orig, id, ctx, msg, n.
  set (ob := task_objects _ _ _ _ _ _ _) in *. set (h := heap w) in *.
  assert (first_pass e MCP_TO_A2A data (at_ h [Dict []] (drawn w)) =
            (Ok (fresh h (9 + length ex)), at_ h (ob ++ ex ++ [Dict [("task", fresh h 8)]]) n)) as Hf.
  { unfold first_pass. rewrite run_bind, (contains_run _ _ _ m), dict_mem_get by done.
    destruct (dict_get "jsonrpc" m); [|done]. exact Hr. }
  pose proof (second_pass_mcp_run h (ob ++ ex ++ [Dict [("task", fresh h 8)]]) n (9 + length ex) data m s (fresh h 8)
                Ho Hs) as Hn.
  rewrite insert_app_r_alt, insert_app_r_alt in Hn by (simpl; lia).
  replace (9 + length ex - length ob - length ex)%nat with 0%nat in Hn by (simpl; lia).
  rewrite <- !(assoc (++)) in Hn. rewrite !length_app in Hn.
  replace (length ob + (length ex + length [Dict [("task", fresh h 8)]]))%nat with (10 + length ex)%nat in Hn by (simpl; lia).
  apply (translate_succeeds _ _ _ MCP_TO_A2A _ _ _ _ _ Hf), Hn.
  rewrite lookup_app_r by (simpl; lia). replace (9 + length ex - length ob)%nat with (length ex) by (simpl; lia).
  by apply list_lookup_middle.
Qed.

(** C38: Every MCP JSON-RPC message with a text method and object (or absent)
    parameters becomes a well-formed A2A task: an identifier, a context, the
    state [submitted], and one agent message whose parts are text or data.  The
    caller's objects are all left as they were, and a message about tools or
    resources always gets the task type [task], never the [tool_execution] or
    [resource_access] that [_translate_method] assigns first. *)
Theorem jsonrpc_becomes_task e ms data w m pm s :
  dict_of w data = Some m → dict_get "jsonrpc" m ≠ None → default (VStr "") (dict_get "method" m) = VStr s →
  has_params w m pm →
  ∃ r w' t, translate e ms data "mcp_to_a2a" w = (Ok r, w') ∧ success r = true ∧ extends w w' ∧
    dict_of w' (target_data r) = Some (task_target m s t) ∧ is_task w' t = true ∧
    (String.prefix "tools/" s = true ∨ String.prefix "resources/" s = true → task_type s = "task").
Proof.
  intros Hm Hj Hs Hp. destruct (jsonrpc_translated e ms data w m pm s Hm Hj Hs Hp) as (title & orig & id & ctx & msg & n & Hr).
  eexists _, _, (fresh (heap w) 8). split; [exact Hr|].
  split_and!; [done|apply at_extends| |apply task_objects_ok|apply task_type_tools].
  cbn [target_data timed succeeded]. rewrite dict_at. rewrite lookup_app_r by (simpl; lia).
  rewrite lookup_app_r by (simpl; lia). by replace (_ - _ - _)%nat with 1%nat by (simpl; lia).
Qed.

(** ** And back *)

(** Objects [3..11] of the heap are a tool call's task. *)
Record tool_task (h l : list object) (name args : value) : Prop := {
  tt_text : ∃ s, l !! 3%nat = Some (Dict [("kind", VStr "text"); ("text", s)]);
  tt_parts : l !! 4%nat = Some (List [fresh h 3; fresh h 11]);
  tt_message : ∃ i, l !! 5%nat = Some (Dict [("kind", VStr "message"); ("messageId", i); ("role", VStr "agent"); ("parts", fresh h 4)]);
  tt_history : l !! 6%nat = Some (List [fresh h 5]);
  tt_task : ∃ i c s me, l !! 8%nat = Some (Dict [("id", i); ("contextId", c); ("kind", VStr "task"); ("status", s);
                                          ("history", fresh h 6); ("metadata", me)]);
  tt_data : l !! 10%nat = Some (Dict [("tool_name", name); ("arguments", args)]);
  tt_part : l !! 11%nat = Some (Dict [("kind", VStr "data"); ("data", fresh h 10)]);
}.

Lemma tool_task_app h l l' name args : tool_task h l name args → tool_task h (l ++ l') name args.
Proof. intros []. split; destruct_and?; naive_solver eauto using lookup_app_l_Some. Qed.

Lemma first_message_run h l n name args :
  tool_task h l name args → first_message (fresh h 8) (at_ h l n) = (Ok (Some (fresh h 5)), at_ h l n).
Proof.
  intros [_ _ _ Hh (? & ? & ? & ? & Ht) _ _]. unfold first_message, py_or.
  rewrite run_bind, (get_key_at _ _ _ _ _ _ _ Ht). simpl.
  rewrite run_bind, run_bind, (truthy_list_at _ _ _ _ _ _ Hh). simpl.
  rewrite run_bind, (truthy_list_at _ _ _ _ _ _ Hh), run_bind, (first_item_at _ _ _ _ _ _ Hh). done.
Qed.

Lemma parts_of_run h l n name args :
  tool_task h l name args → parts_of (fresh h 5) (at_ h l n) = (Ok [fresh h 3; fresh h 11], at_ h (l ++ [List []]) n).
Proof.
  intros Ht. pose proof (tool_task_app _ _ [List []] _ _ Ht) as [_ Hp (? & Hm) _ _ _ _]. unfold parts_of.
  rewrite run_bind, alloc_at, run_bind, (get_key_at _ _ _ _ _ _ _ Hm). simpl. by rewrite (elements_at _ _ _ _ _ Hp).
Qed.

Lemma scan_method_run h l n name args :
  tool_task h l name args → scan_method [fresh h 3; fresh h 11] (at_ h l n) = (Ok tt, at_ h (l ++ [Dict []]) n).
Proof.
  intros Ht. pose proof (tool_task_app _ _ [Dict []] _ _ Ht) as [_ _ _ _ _ Hd' Hp']. destruct Ht as [(? & Hx) _ _ _ _ Hd Hp].
  simpl. rewrite run_bind, (get_key_at _ _ _ _ _ _ _ Hx). simpl. rewrite run_bind, (get_key_at _ _ _ _ _ _ _ Hp). simpl.
  rewrite run_bind, alloc_at, run_bind, (get_key_at _ _ _ _ _ _ _ Hp'). simpl.
  rewrite run_bind, (contains_at _ _ _ _ _ _ Hd'). simpl. by rewrite run_bind.
Qed.

Lemma scan_params_run h l n name args :
  tool_task h l name args → name ≠ VNone →
  scan_params [fresh h 3; fresh h 11] (at_ h l n) =
    (Ok (fresh h (2 + length l)), at_ h (l ++ [Dict []; Dict []; Dict [("name", name); ("arguments", args)]]) n).
Proof.
  intros Ht Hn. pose proof (tool_task_app _ _ [Dict []] _ _ Ht) as [_ _ _ _ _ Hd' Hp'].
  pose proof (tool_task_app _ _ [Dict []] _ _ (tool_task_app _ _ [Dict []] _ _ Ht)) as [_ _ _ _ _ Hd'' _].
  destruct Ht as [(? & Hx) _ _ _ _ Hd Hp].
  simpl. rewrite run_bind, (get_key_at _ _ _ _ _ _ _ Hx). simpl. rewrite run_bind, (get_key_at _ _ _ _ _ _ _ Hp). simpl.
  rewrite run_bind, alloc_at, run_bind, (get_key_at _ _ _ _ _ _ _ Hp'). simpl.
  rewrite run_bind, (get_key_at _ _ _ _ _ _ _ Hd'). simpl. unfold py_or, truthy_of. rewrite run_bind, run_bind. simpl.
  rewrite (get_key_at _ _ _ _ _ _ _ Hd'). simpl. rewrite bool_decide_false by done.
  rewrite run_bind, alloc_at, run_bind, (get_key_at _ _ _ _ _ _ _ Hd''). simpl.
  rewrite alloc_at, !length_app, <- !(assoc (++)). simpl. do 3 f_equal. lia.
Qed.

Lemma extract_method_run h l n name args :
  tool_task h l name args →
  extract_mcp_method_from_task (fresh h 8) (at_ h l n) = (Ok (VStr "tools/call"), at_ h (l ++ [List []; Dict []]) n).
Proof.
  intros Ht. unfold extract_mcp_method_from_task. rewrite run_bind, (first_message_run _ _ _ _ _ Ht). simpl.
  rewrite run_bind, run_bind, (parts_of_run _ _ _ _ _ Ht), (scan_method_run _ _ _ name args) by (by apply tool_task_app).
  by rewrite <- (assoc (++)).
Qed.

Lemma extract_params_run h l n name args :
  tool_task h l name args → name ≠ VNone →
  extract_mcp_params_from_task (fresh h 8) (at_ h l n) =
    (Ok (fresh h (3 + length l)), at_ h (l ++ [List []; Dict []; Dict []; Dict [("name", name); ("arguments", args)]]) n).
Proof.
  intros Ht Hn. unfold extract_mcp_params_from_task. rewrite run_bind, (first_message_run _ _ _ _ _ Ht). simpl.
  rewrite run_bind, (parts_of_run _ _ _ _ _ Ht), (scan_params_run _ _ _ name args) by (done || by apply tool_task_app).
  rewrite length_app, <- (assoc (++)). simpl. do 3 f_equal. lia.
Qed.

(** The A2A message that carries a task. *)
Definition send_message (id : value) (method : string) (target : value) : object :=
  Dict [("jsonrpc", VStr "2.0"); ("id", id); ("method", VStr method); ("params", target)].

Definition mcp_message (id : string) (method : string) (params : value) : object :=
  Dict [("jsonrpc", VStr "2.0"); ("id", VStr id); ("method", VStr method); ("params", params)].

Lemma map_method_run s w : map_a2a_method_to_mcp (VStr s) w = (Ok (VStr (default "tools/call" (dict_get s METHOD_MAP))), w).
Proof. done. Qed.

(** The task under [params] replaces the message's method and parameters. *)
Lemma carry_task_run h l n kt name args target i s p0 :
  tool_task h l name args → name ≠ VNone → l !! kt = Some (Dict target) → dict_get "task" target = Some (fresh h 8) →
  let q := [List []; Dict []; List []; Dict []; Dict []; Dict [("name", name); ("arguments", args)]] in
  let k := length l in
  (task ← getitem (fresh h kt) "task";
   m ← extract_mcp_method_from_task task;
   _ ← setitem (fresh h k) "method" m;
   ps ← extract_mcp_params_from_task task;
   setitem (fresh h k) "params" ps) (at_ h (l ++ [mcp_message i s p0]) n) =
    (Ok tt, at_ h (l ++ [mcp_message i "tools/call" (fresh h (6 + length l))] ++ q) n).
Proof.
  intros Ht Hn Hkt Hx q k.
  rewrite run_bind, (getitem_at _ _ _ _ _ target (fresh h 8)) by (by apply lookup_app_l_Some || done).
  rewrite run_bind, (extract_method_run _ _ _ name args), run_bind by (by apply tool_task_app).
  rewrite <- (assoc (++)). rewrite (setitem_at _ _ _ _ _ _ [("jsonrpc", VStr "2.0"); ("id", VStr i); ("method", VStr s); ("params", p0)])
    by (by apply list_lookup_middle).
  rewrite insert_app_r_alt, Nat.sub_diag by (unfold k; lia). simpl.
  rewrite run_bind, (extract_params_run _ _ _ name args) by (done || by apply tool_task_app).
  rewrite <- (assoc (++)).
  rewrite (setitem_at _ _ _ _ _ _ [("jsonrpc", VStr "2.0"); ("id", VStr i); ("method", VStr "tools/call"); ("params", p0)])
    by (by apply list_lookup_middle).
  rewrite insert_app_r_alt, Nat.sub_diag by (unfold k; lia). rewrite length_app. simpl.
  unfold mcp_message. by replace (S (S (S (length l + 3)))) with (S (S (S (S (S (S (length l)))))))%nat by lia.
Qed.

Lemma jsonrpc_a2a_run h l n k kt name args id method target :
  tool_task h l name args → name ≠ VNone → l !! k = Some (send_message id method (fresh h kt)) →
  l !! kt = Some (Dict target) → dict_get "task" target = Some (fresh h 8) →
  ∃ i n', translate_jsonrpc_a2a (fresh h k) (at_ h l n) =
    (Ok (fresh h (2 + length l)),
     at_ h (l ++ [Dict []; Dict []; mcp_message i "tools/call" (fresh h (8 + length l));
                  List []; Dict []; List []; Dict []; Dict []; Dict [("name", name); ("arguments", args)]]) n').
Proof.
  intros Ht Hn Hk Hkt Hx. pose proof (lookup_app_l_Some _ [Dict []] _ _ Hk) as Hk1.
  unfold translate_jsonrpc_a2a. rewrite run_bind, (get_key_at _ _ _ _ _ _ _ Hk), run_bind, alloc_at.
  rewrite run_bind, (get_key_at _ _ _ _ _ _ _ Hk1), run_bind, (get_key_at _ _ _ _ _ _ _ Hk1). simpl.
  destruct (str_or_run id h (l ++ [Dict []]) n uuid_text) as (i & n' & Hi). exists i, n'.
  unfold generate_msg_id. rewrite run_bind, Hi, run_bind, map_method_run, run_bind, alloc_at, run_bind, alloc_at.
  rewrite run_bind, (contains_at _ _ _ _ _ target) by (rewrite <- !(assoc (++)); by apply lookup_app_l_Some).
  generalize (default "tools/call" (dict_get method METHOD_MAP)). intros mm.
  rewrite dict_mem_get, Hx. simpl. rewrite run_bind.
  set (l2 := (l ++ [Dict []]) ++ [Dict []]). fold (mcp_message i mm (fresh h (length (l ++ [Dict []])))).
  rewrite (carry_task_run h l2 n' kt name args target).
  - unfold mret, M_ret, l2. rewrite !length_app, <- !(assoc (++)). simpl.
    do 2 f_equal; [f_equal; lia|]. do 6 f_equal. repeat f_equal; lia.
  - by do 2 apply tool_task_app.
  - done.
  - unfold l2. by do 2 apply lookup_app_l_Some.
  - done.
Qed.

Lemma second_pass_a2a_run h l n k kt R id method target :
  l !! k = Some (send_message id method target) → l !! kt = Some (Dict R) →
  dict_get "artifacts" R = None → dict_get "content" R = None → dict_get "status" R = None →
  second_pass A2A_TO_MCP (fresh h k) (fresh h kt) (at_ h l n) = (Ok (fresh h (length l)), at_ h (l ++ [Dict R]) n).
Proof.
  intros Hk Hkt Ha Hc Hs. unfold second_pass, translate_method.
  rewrite run_bind, (contains_at _ _ _ _ _ _ Hk). simpl. rewrite run_bind, run_bind, (get_key_at _ _ _ _ _ _ _ Hk). simpl.
  rewrite run_bind, (contains_at _ _ _ _ _ _ Hk). simpl. rewrite run_bind. simpl. by apply nested_plain_run.
Qed.

Lemma tool_objects h title original id context message pm name args l :
  dict_get "name" pm = Some name → dict_get "arguments" pm = Some args →
  tool_task h (task_objects h "tools/call" title original (VStr id) (VStr context) (VStr message) ++
               extra_objects h "tools/call" pm ++ l) name args.
Proof.
  intros Hn Ha. unfold extra_objects, call_name. rewrite Hn, Ha. split; simpl; eauto 10.
Qed.

(** C37: A tool call survives translation to A2A and back.  Whatever the message's
    identifier, translating an MCP [tools/call] to A2A and then the A2A message
    that carries the resulting task back to MCP yields a [tools/call] with the
    same tool name and the very same arguments object, and neither translation
    changes any object of the caller. *)
Theorem tool_call_round_trip e e' ms ms' data w m pm name args id method :
  dict_of w data = Some m → dict_get "jsonrpc" m ≠ None → dict_get "method" m = Some (VStr "tools/call") →
  has_params w m pm → dict_get "name" pm = Some name → name ≠ VNone → dict_get "arguments" pm = Some args →
  ∃ r w1 back w2 r' w3 out p,
    translate e ms data "mcp_to_a2a" w = (Ok r, w1) ∧
    alloc (send_message id method (target_data r)) w1 = (Ok back, w2) ∧
    translate e' ms' back "a2a_to_mcp" w2 = (Ok r', w3) ∧ success r' = true ∧ extends w w3 ∧
    dict_of w3 (target_data r') = Some out ∧ dict_get "method" out = Some (VStr "tools/call") ∧
    dict_get "params" out = Some p ∧ dict_of w3 p = Some [("name", name); ("arguments", args)].
Proof.
  intros Hm Hj Hme Hp Hn Hnn Ha.
  assert (default (VStr "") (dict_get "method" m) = VStr "tools/call") as Hs by (by rewrite Hme).
  destruct (jsonrpc_translated e ms data w m pm "tools/call" Hm Hj Hs Hp) as (title & orig & i & ctx & msg & n & Hr).
  set (h := heap w) in *. set (R := task_target m "tools/call" (fresh h 8)) in *.
  pose proof (fun l => tool_objects h title orig i ctx msg pm name args l Hn Ha) as Ht.
  set (L := _ ++ _) in Hr. set (sent := send_message id method (fresh h 13)).
  assert (length L = 14%nat) as HL by done. assert (L !! 13%nat = Some (Dict R)) as HR by done.
  specialize (Ht [Dict R; Dict R; sent; Dict []]).
  change (tool_task h (L ++ [sent; Dict []]) name args) in Ht.
  destruct (jsonrpc_a2a_run h (L ++ [sent; Dict []]) n 14 13 name args id method R) as (i' & n' & Hb); [done..|].
  set (q := [_; _; _; _; _; _; _; _; _]) in Hb. rewrite <- (assoc (++)) in Hb.
  assert (at_ (h ++ (L ++ [sent])) [Dict []] n = at_ h (L ++ [sent; Dict []]) n) as Hw
    by (unfold at_; by rewrite <- !(assoc (++))).
  eexists _, _, (fresh h 14), (at_ h (L ++ [sent]) n), _, _, _, (fresh h 24). split_and!.
  - exact Hr.
  - cbn [target_data timed succeeded]. by rewrite alloc_at, HL.
  - eapply (translate_succeeds _ _ _ A2A_TO_MCP).
    + change (at_ (heap (at_ h (L ++ [sent]) n)) [Dict []] _) with (at_ (h ++ (L ++ [sent])) [Dict []] n).
      unfold first_pass. rewrite Hw, run_bind. erewrite contains_at by reflexivity. exact Hb.
    + eapply (second_pass_a2a_run _ _ _ 14 18 _ id method (fresh h 13)); reflexivity.
  - done.
  - apply at_extends.
  - cbn [target_data timed succeeded]. by rewrite dict_at.
  - done.
  - done.
  - by rewrite dict_at.
Qed.
End spec.

(** ** Instances, by evaluation *)

Definition sample_text : PyText :=
  {| uuid_hex n := "0123456789abcdef0123456789abcdef"; uuid_text n := "0123-4567"; repr_of _ _ := "{}" |}.
#[local] Existing Instance sample_text.

Definition sample_call : world :=
  mkWorld [Dict [("jsonrpc", VStr "2.0"); ("id", VInt 7); ("method", VStr "tools/call"); ("params", VRef 1)];
           Dict [("name", VStr "echo"); ("arguments", VRef 2)]; Dict [("text", VStr "hi")]] 0.

Lemma default_engine_calm : engine_calm default_engine.
Proof. split; repeat constructor; by intros f [=]. Qed.

Lemma translate_always_answers_witness :
  ∃ r w', translate default_engine (FFin 1) (VInt 3) "mcp_to_a2a" sample_call = (Ok r, w') ∧ success r = false.
Proof.
  destruct (translate_always_answers default_engine (FFin 1) (VInt 3) "mcp_to_a2a" sample_call default_engine_calm)
    as (r & w' & Hr & _ & _ & _).
  exists r, w'. split; [exact Hr|]. revert Hr. vm_compute. intros [= <- _]. reflexivity.
Defined.

Lemma jsonrpc_becomes_task_witness :
  ∃ r w' t, translate default_engine (FFin 1) (VRef 0) "mcp_to_a2a" sample_call = (Ok r, w') ∧ is_task w' t = true.
Proof.
  destruct (jsonrpc_becomes_task default_engine (FFin 1) (VRef 0) sample_call
              [("jsonrpc", VStr "2.0"); ("id", VInt 7); ("method", VStr "tools/call"); ("params", VRef 1)]
              [("name", VStr "echo"); ("arguments", VRef 2)] "tools/call")
    as (r & w' & t & Hr & _ & _ & _ & Ht & _); [reflexivity|discriminate|reflexivity|reflexivity|].
  exists r, w', t. split; assumption.
Defined.

Lemma tool_call_round_trip_witness :
  ∃ r' w3 p, success r' = true ∧ extends sample_call w3 ∧ dict_of w3 p = Some [("name", VStr "echo"); ("arguments", VRef 2)].
Proof.
  destruct (tool_call_round_trip default_engine default_engine (FFin 1) (FFin 1) (VRef 0) sample_call
              [("jsonrpc", VStr "2.0"); ("id", VInt 7); ("method", VStr "tools/call"); ("params", VRef 1)]
              [("name", VStr "echo"); ("arguments", VRef 2)] (VStr "echo") (VRef 2) (VInt 9) "tasks/send")
    as (r & w1 & back & w2 & r' & w3 & out & p & _ & _ & _ & Hs & He & _ & _ & _ & Hp);
    [reflexivity|discriminate|reflexivity|reflexivity|reflexivity|discriminate|reflexivity|].
  exists r', w3, p. split_and!; assumption.
Defined.

