(* ===== verification/StatusStream.v ===== *)
(** * Status streams of admitted tasks

    [serve/a2a_status.py]: the limits, the per-process stream slots, the replay
    cursor, the event generator and the JSON-RPC handler of the A2A status
    service.  The clock, disconnects and the token verifier's answers are
    inputs of each turn; the wire models of the A2A SDK and the header's float
    syntax are parameters.  ASGI sending and the agent card are not modelled. *)

From stdpp Require Import base list gmap strings pretty.
From Stdlib Require Import ZArith Lia Ascii.
From S2P Require Import Prelude PyFloat Text Json Identity Authority Quotas Policy StreamLeases TaskLifecycle.

#[local] Open Scope Z_scope.

(** ** Limits *)

Record StreamLimits := mkStreamLimits {
  sl_body : Z;
  sl_page : Z;
  sl_streams : Z;
  sl_per_owner : Z;
  sl_seconds : pynum;
  sl_request : pynum;
  sl_poll : pynum;
  sl_heartbeat : pynum;
}.

(** 0.01 as a float: 0x3f847ae147ae147b. *)
Definition hundredth : float64 := FFin (5764607523034235 * 2 ^ (1074 - 59)).

Definition stream_timing (x : pynum) (lo hi : float64) : bool :=
  is_number x && fisfinite (num_value x) && fleb lo (num_value x) && fleb (num_value x) hi.

Definition between (lo x hi : Z) : bool := (lo <=? x) && (x <=? hi).

(** [StreamLimits.__post_init__]. *)
Definition stream_limits (l : StreamLimits) : outcome StreamLimits :=
  _ ← guard_or (between 256 (sl_body l) 1048576 && between 1 (sl_page l) 100 &&
                between 1 (sl_streams l) 10000 && between 1 (sl_per_owner l) 10000)
               (ValueError "invalid bounded stream capacity");
  _ ← guard_or (stream_timing (sl_seconds l) five_hundredths (fl 3600) && stream_timing (sl_poll l) hundredth (fl 2) &&
                stream_timing (sl_heartbeat l) hundredth (fl 30) && stream_timing (sl_request l) hundredth (fl 30))
               (ValueError "invalid bounded stream timing");
  Ok l.

(** ** Slots *)

(** [_Streams]; [handles] are the release closures given out, each with its owner
    and its [released] flag. *)
Record streams := mkStreams { total : Z; owners : gmap string Z; handles : list (string * bool) }.

Definition no_streams : streams := mkStreams 0 ∅ [].

Definition acquire (l : StreamLimits) (owner : string) : M streams (option nat) := fun s =>
  let count := default 0 (owners s !! owner) in
  if (sl_streams l <=? total s) || (sl_per_owner l <=? count) then (Ok None, s)
  else (Ok (Some (length (handles s))),
        mkStreams (total s + 1) (<[owner := count + 1]> (owners s)) (handles s ++ [(owner, false)])).

Definition release (i : nat) : M streams unit := fun s =>
  match handles s !! i with
  | Some (owner, false) =>
      let hs := <[i := (owner, true)]> (handles s) in
      match owners s !! owner with
      | None => (Raise (KeyError owner), mkStreams (total s - 1) (owners s) hs)
      | Some n =>
          let remaining := n - 1 in
          (Ok tt, mkStreams (total s - 1)
                    (if remaining =? 0 then delete owner (owners s) else <[owner := remaining]> (owners s)) hs)
      end
  | _ => (Ok tt, s)
  end.

(** ** Content negotiation *)

Definition comma : ascii := ascii_of_nat 44.
Definition semicolon : ascii := ascii_of_nat 59.
Definition colon : ascii := ascii_of_nat 58.

Definition one : float64 := fl 1.

Section negotiation.
(** [float(text)], [None] where it raises. *)
Context (parse_float : string → option float64).

Definition specificity (media : string) : Z :=
  if bool_decide (media = "*/*") then 0 else if bool_decide (media = "text/*") then 1
  else if bool_decide (media = "text/event-stream") then 2 else -1.

Definition weight (parameters : list string) : float64 :=
  match omap (fun p => if String.prefix "q=" p then Some (String.substring 2 (String.length p - 2) p) else None) parameters with
  | [] => one
  | [w] => match parse_float w with
           | Some f => if fisfinite f && fleb fzero f && fleb f one then f else fzero
           | None => fzero
           end
  | _ => fzero
  end.

Definition consider (item : string) (best : Z * float64) : Z * float64 :=
  let '(media, parameters) := split_on semicolon item in
  let clean s := str_lower (strip s) in
  let sp := specificity (clean media) in
  if (sp <? 0) then best
  else if best.1 <? sp then (sp, weight (clean <$> parameters)) else best.

(** [_accepts_stream]. *)
Definition accepts_stream (header : string) : bool :=
  fltb fzero (foldl (fun best item => consider item best) (-1, fzero) (pieces comma header)).2.
End negotiation.

(** ** Wire objects *)

Definition finished (t : TaskLifecycle) : bool :=
  terminal t || bool_decide (state t ∈ [INPUT_REQUIRED; AUTH_REQUIRED]).

Definition status_json (t : TaskLifecycle) : json := JObj [("state", JStr (state_value (state t)))].
Definition sequence_json (t : TaskLifecycle) : json := JObj [("agentbridge_sequence", JInt (sequence t))].

Definition task_json (t : TaskLifecycle) : json :=
  JObj [("kind", JStr "task"); ("id", JStr (task_id t)); ("contextId", JStr (context_id t)); ("status", status_json t);
        ("metadata", sequence_json t)].

Definition update_json (t : TaskLifecycle) : json :=
  JObj [("kind", JStr "status-update"); ("taskId", JStr (task_id t)); ("contextId", JStr (context_id t));
        ("status", status_json t); ("final", JBool (finished t)); ("metadata", sequence_json t)].

Definition result_json (rid result : json) : json := JObj [("jsonrpc", JStr "2.0"); ("id", rid); ("result", result)].

Definition error_json (rid : json) (c : Z) (message : string) : json :=
  JObj [("jsonrpc", JStr "2.0"); ("id", rid); ("error", JObj [("code", JInt c); ("message", JStr message)])].

(** What the generator writes: an event with its id, an error, a comment. *)
Inductive chunk :=
| Event (id : string) (data : json)
| Failure (data : json)
| KeepAlive
| Reconnect.

Section status.
Context `{JsonText} `{Sha256}.

(** ** Replay cursors *)

Definition cursor_scope (owner i : string) : string := sha256_hex (canonical_dumps (JArr [JStr owner; JStr i])).

Definition cursor (owner i : string) (n : Z) : string := "ab:" +:+ cursor_scope owner i +:+ ":" +:+ pretty n.

Definition bad_cursor : pyexn := ValueError "invalid replay cursor".

Definition parse_cursor (raw : option string) (owner i : string) : outcome Z :=
  match raw with
  | None => Ok (-1)
  | Some raw =>
      if 90 <? strlen raw then Raise bad_cursor
      else match pieces colon raw with
      | [prefix; scope; digits] =>
          if bool_decide (prefix = "ab") && bool_decide (scope = cursor_scope owner i) && (strlen digits <=? 19) then
            match read_decimal digits with
            | Some n => if 2 ^ 63 <=? n then Raise bad_cursor else Ok n
            | None => Raise bad_cursor
            end
          else Raise bad_cursor
      | _ => Raise (ValueError "unpacking a cursor that is not three fields")
      end
  end.

(** ** The event generator *)

(** What one round of the loop meets: the deadline passed or the client gone at
    its head, the token's owner, the database, after how many events of the page
    the client is found gone or the deadline past, whether a keep-alive is due. *)
Record turn := mkTurn {
  tu_late : bool;
  tu_gone : bool;
  tu_owner : outcome string;
  tu_db : task_db;
  tu_cut : option nat;
  tu_beat : bool;
}.

(** The generator's variables. *)
Record reader := mkReader { rd_initial : bool; rd_cursor : Z }.

Fixpoint send_page (owner i : string) (rid : json) (cut : option nat) (r : reader) (page : list TaskLifecycle)
  : list chunk * reader * bool :=
  match page, cut with
  | [], _ => ([], r, false)
  | _, Some O => ([], r, true)
  | t :: page, _ =>
      let c := Event (cursor owner i (sequence t))
                     (result_json rid (if rd_initial r then task_json t else update_json t)) in
      let r' := mkReader false (sequence t) in
      if finished t then ([c], r', true)
      else let '(cs, r'', stop) := send_page owner i rid (pred <$> cut) r' page in (c :: cs, r'', stop)
  end.

Definition lapsed (rid : json) : chunk := Failure (error_json rid (-32000) "Stream authorization expired or revoked").
Definition unavailable (rid : json) : chunk := Failure (error_json rid (-32603) "Task status unavailable").

(** One round; the flag says that the generator returns. *)
Definition stream_turn (l : StreamLimits) (owner i : string) (rid : json) (r : reader) (t : turn)
  : list chunk * reader * bool :=
  if tu_late t then ([Reconnect], r, true)
  else if tu_gone t then ([], r, true)
  else match tu_owner t with
  | Raise (OidcError _) => ([lapsed rid], r, true)
  | Raise CancelledError => ([], r, true)
  | Raise _ => ([unavailable rid], r, true)
  | Ok o =>
      if bool_decide (o = owner) then
        match (list_events owner i (rd_cursor r) (sl_page l) (tu_db t)).1 with
        | Raise _ => ([unavailable rid], r, true)
        | Ok page =>
            let '(cs, r', stop) := send_page owner i rid (tu_cut t) r page in
            (if stop then cs else cs ++ (if tu_beat t then [KeepAlive] else []), r', stop)
        end
      else ([lapsed rid], r, true)
  end.

(** [events] over the rounds it gets to run. *)
Fixpoint stream (l : StreamLimits) (owner i : string) (rid : json) (r : reader) (ts : list turn)
  : list chunk * reader * bool :=
  match ts with
  | [] => ([], r, false)
  | t :: ts =>
      let '(cs, r', stop) := stream_turn l owner i rid r t in
      if stop then (cs, r', true)
      else let '(ds, r'', stop') := stream l owner i rid r' ts in (cs ++ ds, r'', stop')
  end.

(** ** The JSON-RPC handler *)

(** What the handler reads of a request: its headers, and its body as received
    ([None] when the body deadline passed). *)
Record http_request := mkHttp {
  h_authorization : option string;
  h_version : option string;
  h_content_type : option string;
  h_accept : option string;
  h_last_event : option string;
  h_body : option string;
}.

(** A validated [message/*] request's message, and any validated request. *)
Record message := mkMessage {
  ms_task : option string;
  ms_context : option string;
  ms_user : bool;
  ms_text_only : bool;
  ms_configured : bool;
}.

Inductive query := TaskQuery (i : string) | MessageQuery (m : message).

(** The JSON answer with its status, or an opened stream with its slot. *)
Inductive response :=
| Answer (status : Z) (body : json)
| Opened (owner i : string) (rid : json) (after : Z) (slot : nat).

Context (verify : string → outcome (list (string * json))).
Context (parse_float : string → option float64).
(** [json.loads] that refuses NaN and infinities. *)
Context (loads : string → outcome json).
(** [models[method].model_validate], [None] on a validation error. *)
Context (validate : string → json → option query).
Context (e : env) (l : StreamLimits).

(** [owner_of]: the verified subject of the bearer token. *)
Definition owner_of (authorization : option string) : outcome string :=
  _ ← require_legacy_authority e;
  let header := default "" authorization in
  if String.prefix "bearer " (str_lower header) then
    claims ← verify (strip (String.substring 7 (String.length header - 7) header));
    match obj_get "sub" JNull claims with
    | JStr s => if (1 <=? strlen s) && (strlen s <=? 128) && bool_decide (strip s = s) then Ok s
                else Raise (OidcError "bounded authenticated subject required")
    | _ => Raise (OidcError "bounded authenticated subject required")
    end
  else Raise (OidcError "Bearer authentication required").

Definition METHODS : list string := ["tasks/get"; "tasks/cancel"; "tasks/resubscribe"; "message/send"; "message/stream"].

Definition refuse (rid : json) (c : Z) (message : string) (status : Z) : response := Answer status (error_json rid c message).

(** [set(raw) - {...}] is empty, the version is 2.0 and the id is text or int. *)
Definition well_formed (m : list (string * json)) : bool :=
  forallb (fun k => bool_decide (k ∈ ["jsonrpc"; "id"; "method"; "params"])) m.*1 &&
  is_text "2.0" (obj_get "jsonrpc" JNull m) &&
  match obj_get "id" JNull m with JStr _ | JInt _ => true | _ => false end.

(** The task a query names, or the refusal. *)
Definition named_task (rid : json) (q : query) : string + response :=
  match q with
  | TaskQuery i => inl i
  | MessageQuery m =>
      if match ms_task m with None | Some "" => true | _ => false end
      then inr (refuse rid (-32004) "Task creation requires trusted governed admission" 200)
      else if negb (ms_user m && ms_text_only m)
      then inr (refuse rid (-32005) "Only text status queries are supported" 200)
      else if ms_configured m
      then inr (refuse rid (-32004) "Message configuration not supported by status observer" 200)
      else inl (default "" (ms_task m))
  end.

Definition context_differs (q : query) (t : TaskLifecycle) : bool :=
  match q with
  | MessageQuery m => match ms_context m with Some c => negb (bool_decide (c = context_id t)) | None => false end
  | TaskQuery _ => false
  end.

(** From a found task to the answer. *)
Definition respond (r : http_request) (owner i method : string) (rid : json) (q : query) (t : TaskLifecycle)
  : M streams response :=
  if context_differs q t then mret (refuse rid (-32602) "Context does not match the owned task" 200)
  else if bool_decide (method = "tasks/cancel")
  then mret (refuse rid (-32002) "Status observer cannot cancel an external task" 200)
  else if bool_decide (method ∈ ["tasks/get"; "message/send"]) then mret (Answer 200 (result_json rid (task_json t)))
  else if negb (accepts_stream parse_float (default "*/*" (h_accept r)))
  then mret (refuse rid (-32600) "text/event-stream must be accepted" 406)
  else match parse_cursor (h_last_event r) owner i with
  | Raise _ => mret (refuse rid (-32602) "Invalid task replay cursor" 200)
  | Ok c =>
      if sequence t <? c then mret (refuse rid (-32602) "Invalid task replay cursor" 200)
      else if (c =? sequence t) && finished t
      then mret (refuse rid (-32004) "This interaction has no subsequent events" 200)
      else
        slot ← acquire l owner;
        match slot with
        | None => mret (refuse rid (-32000) "Stream capacity reached" 429)
        | Some n => mret (Opened owner i rid c n)
        end
  end.

(** [rpc] of [create_a2a_status_app]; the tasks are only read. *)
Definition rpc (r : http_request) (d : task_db) : M streams response :=
  match owner_of (h_authorization r) with
  | Raise (OidcError _) => mret (refuse JNull (-32000) "Authentication required" 401)
  | Raise x => raise x
  | Ok owner =>
      if negb (bool_decide (default "0.3.0" (h_version r) = "0.3.0"))
      then mret (refuse JNull (-32600) "This endpoint supports A2A 0.3.0" 400)
      else if negb (bool_decide (str_lower (strip (split_on semicolon (default "" (h_content_type r))).1) = "application/json"))
      then mret (refuse JNull (-32600) "application/json required" 415)
      else match h_body r with
      | None => mret (refuse JNull (-32600) "Request body deadline exceeded" 408)
      | Some body =>
          if sl_body l <? strlen body then mret (refuse JNull (-32600) "Request too large" 413)
          else match loads body with
          | Raise _ => mret (refuse JNull (-32700) "Invalid JSON" 400)
          | Ok raw =>
              match raw with
              | JObj m =>
                  if negb (well_formed m) then mret (refuse JNull (-32600) "Invalid JSON-RPC request" 400)
                  else
                    let rid := obj_get "id" JNull m in
                    match obj_get "method" JNull m with
                    | JStr method =>
                        if negb (bool_decide (method ∈ METHODS)) then mret (refuse rid (-32601) "Method not supported" 200)
                        else match validate method raw with
                        | None => mret (refuse rid (-32602) "Invalid method parameters" 200)
                        | Some q =>
                            match named_task rid q with
                            | inr refusal => mret refusal
                            | inl i =>
                                match (get_snapshot owner i d).1 with
                                | Raise (LifecycleRejected _ | LifecycleCapacity _) =>
                                    mret (refuse rid (-32001) "Task not found" 200)
                                | Raise _ => mret (refuse rid (-32603) "Task status unavailable" 503)
                                | Ok t => respond r owner i method rid q t
                                end
                            end
                        end
                    | _ => mret (refuse rid (-32601) "Method not supported" 200)
                    end
              | _ => mret (refuse JNull (-32600) "Invalid JSON-RPC request" 400)
              end
          end
      end
  end.
End status.
