(* ===== verification/StatusSpec.v ===== *)
(** * What the status service guarantees

    Stream slots are counted exactly and never exceed the limits; a replay
    cursor names its position and its task; a stream delivers a task's history
    from its cursor, each event once and in order, and only while the token is
    the owner's; every answer concerns a task of the authenticated owner. *)

From stdpp Require Import base list gmap sets strings pretty.
From Stdlib Require Import ZArith Lia Ascii.
From S2P Require Import Prelude PyFloat Text Json Identity Authority Quotas Policy Evidence StreamLeases TaskLifecycle TaskSpec StatusStream.

#[local] Open Scope Z_scope.

(** ** Slots *)

Section slots.
Context (l : StreamLimits).
Implicit Types (s : streams).

(** Any process using the slots: acquisitions, and releases of any handle, in any
    order and any number of times. *)
Inductive slot_step : streams → streams → Prop :=
| slot_acquire s o r s' : acquire l o s = (r, s') → slot_step s s'
| slot_release s i r s' : release i s = (r, s') → slot_step s s'.

Definition live (hs : list (string * bool)) : Z := Z.of_nat (length (filter (fun h => h.2 = false) hs)).
Definition live_of (o : string) (hs : list (string * bool)) : Z :=
  Z.of_nat (length (filter (fun h => h.2 = false ∧ h.1 = o) hs)).

Record slots_ok s : Prop := {
  so_total : total s = live (handles s);
  so_owner o : owners s !! o = if decide (live_of o (handles s) = 0) then None else Some (live_of o (handles s));
  so_bound : live (handles s) <= Z.max 0 (sl_streams l);
  so_owner_bound o : live_of o (handles s) <= Z.max 0 (sl_per_owner l);
}.

#[local] Ltac counted := repeat case_decide; destruct_and?; simplify_eq/=; try lia; exfalso; naive_solver.

Lemma live_app hs h : live (hs ++ [h]) = live hs + (if h.2 then 0 else 1).
Proof. unfold live. rewrite filter_app, length_app, filter_cons, filter_nil. destruct h as [o []]; counted. Qed.
Lemma live_of_app o hs h : live_of o (hs ++ [h]) = live_of o hs + (if h.2 then 0 else if decide (h.1 = o) then 1 else 0).
Proof. unfold live_of. rewrite filter_app, length_app, filter_cons, filter_nil. destruct h as [o' []]; counted. Qed.

Lemma live_nonneg hs : 0 <= live hs.
Proof. unfold live. lia. Qed.
Lemma live_of_nonneg o hs : 0 <= live_of o hs.
Proof. unfold live_of. lia. Qed.

(** Releasing a live handle. *)
Lemma live_release hs i o : hs !! i = Some (o, false) → live (<[i := (o, true)]> hs) = live hs - 1.
Proof.
  unfold live. revert i. induction hs as [|[o' b] hs IH]; intros [|i] Hi; try done; simpl in *.
  - simplify_eq. rewrite !filter_cons. counted.
  - apply IH in Hi. rewrite !filter_cons. counted.
Qed.
Lemma live_of_release hs i o o' :
  hs !! i = Some (o, false) → live_of o' (<[i := (o, true)]> hs) = live_of o' hs - (if decide (o = o') then 1 else 0).
Proof.
  unfold live_of. revert i. induction hs as [|[p b] hs IH]; intros [|i] Hi; try done; simpl in *.
  - simplify_eq. rewrite !filter_cons. counted.
  - apply IH in Hi. rewrite !filter_cons. counted.
Qed.

Lemma acquire_ok s o r s' : slots_ok s → acquire l o s = (r, s') → slots_ok s'.
Proof.
  intros [Ht Ho Hb Hob]. unfold acquire.
  assert (default 0 (owners s !! o) = live_of o (handles s)) as -> by (rewrite Ho; case_decide; simpl; lia).
  destruct (_ || _) eqn:Hc; intros [= <- <-]; [by split|]. apply orb_false_iff in Hc as [H1%Z.leb_gt H2%Z.leb_gt].
  split; simpl.
  - rewrite live_app. simpl. lia.
  - intros o'. rewrite live_of_app. simpl. destruct (decide (o = o')) as [->|Hne].
    + rewrite lookup_insert_eq, decide_False; [done|]. pose proof (live_of_nonneg o' (handles s)). lia.
    + rewrite lookup_insert_ne by done. rewrite Ho, Z.add_0_r. done.
  - rewrite live_app. simpl. lia.
  - intros o'. rewrite live_of_app. simpl. specialize (Hob o'). case_decide; subst; lia.
Qed.

Lemma release_ok s i r s' : slots_ok s → release i s = (r, s') → slots_ok s' ∧ r = Ok tt.
Proof.
  intros [Ht Ho Hb Hob]. unfold release. destruct (handles s !! i) as [[o []]|] eqn:Hi; intros Hr; simplify_eq/=; try done.
  pose proof (live_of_release _ _ _ o Hi) as Hl. rewrite decide_True in Hl by done.
  pose proof (live_of_nonneg o (<[i := (o, true)]> (handles s))) as Hn.
  rewrite Ho, decide_False in Hr by lia. injection Hr as <- <-. split; [|done]. split; simpl.
  - rewrite (live_release _ _ _ Hi). lia.
  - intros o'. rewrite (live_of_release _ _ _ _ Hi). destruct (decide (o = o')) as [<-|Hne].
    + destruct (Z.eqb_spec (live_of o (handles s) - 1) 0) as [Hz|Hz].
      * by rewrite lookup_delete_eq, decide_True.
      * by rewrite lookup_insert_eq, decide_False.
    + rewrite Z.sub_0_r. case_match; [rewrite lookup_delete_ne by done|rewrite lookup_insert_ne by done]; apply Ho.
  - rewrite (live_release _ _ _ Hi). lia.
  - intros o'. rewrite (live_of_release _ _ _ _ Hi). specialize (Hob o'). case_decide; lia.
Qed.

(** C34: Stream slots are exact.  However acquisitions and releases interleave,
    and however often a response, its generator and its background task release
    the same slot, the counters are the number of slots still held (in all and
    per owner, an owner without slots having no entry), both stay within the
    configured limits, and a release never fails. *)
Theorem stream_slots_exact s i :
  rtc slot_step no_streams s →
  slots_ok s ∧ (release i s).1 = Ok tt ∧ slots_ok (release i s).2.
Proof.
  intros Hr. assert (slots_ok s) as Hs.
  { remember no_streams as s0 eqn:E. assert (slots_ok s0) as H0.
    { subst. split; simpl; [done| |unfold live; simpl; lia|intros; unfold live_of; simpl; lia].
      intros o. by rewrite lookup_empty. }
    clear E. induction Hr as [|a b c [s1 o r s2 Ha|s1 j r s2 Ha] _ IH]; [done|..]; apply IH.
    - by eapply acquire_ok. - by eapply release_ok. }
  split; [done|]. destruct (release i s) as [r s'] eqn:E. apply release_ok in E as [H1 H2]; [|done]. done.
Qed.
End slots.

Section cursors.
Context `{JsonText} `{Sha256}.

Lemma hex_lacks s : str_forallb is_lower_hex s = true → lacks colon s = true.
Proof.
  induction s as [|c s IH]; simpl; [done|]. intros [Hc Hs]%andb_true_iff. rewrite (IH Hs), andb_true_r, negb_true_iff.
  apply Ascii.eqb_neq. intros ->. done.
Qed.

Lemma cursor_pieces o i n :
  sha256_text (cursor_scope o i) = true → 0 <= n → pieces colon (cursor o i n) = ["ab"; cursor_scope o i; pretty n].
Proof.
  intros [Hl Hh]%andb_true_iff Hn. unfold cursor.
  change ("ab:" +:+ cursor_scope o i +:+ ":" +:+ pretty n) with ("ab" +:+ String colon (cursor_scope o i +:+ String colon (pretty n))).
  rewrite pieces_app by done. rewrite pieces_app by (by apply hex_lacks). rewrite pieces_lacks; [done|].
  apply digits_lack; [done|]. pose proof (read_pretty n Hn) as Hr. unfold read_decimal in Hr.
  destruct (pretty n) eqn:E; [done|]. rewrite <- E in *. by eapply read_digits_all.
Qed.

Lemma cursor_length o i n : sha256_text (cursor_scope o i) = true → 0 <= n < 2 ^ 63 → strlen (pretty n) <= 19.
Proof.
  intros _ Hn. destruct (decide (n = 0)) as [->|Hz]; [done|]. apply (pretty_length n 19). lia.
Qed.

(** A replay cursor reads back as the position it was issued for, for every
    position a task can have; read for another owner or task it is accepted only
    if the two scopes have the same digest, and a cursor that is accepted at all
    names a position within 63 bits. *)
Theorem cursor_round_trip o i n :
  (∀ s, sha256_text (sha256_hex s) = true) → 0 <= n < 2 ^ 63 →
  parse_cursor (Some (cursor o i n)) o i = Ok n ∧
  (∀ o' i' n', parse_cursor (Some (cursor o i n)) o' i' = Ok n' → cursor_scope o i = cursor_scope o' i' ∧ n' = n) ∧
  (∀ raw n', parse_cursor (Some raw) o i = Ok n' → n' < 2 ^ 63).
Proof.
  intros Hsha Hn. assert (sha256_text (cursor_scope o i) = true) as Hs by apply Hsha.
  pose proof (cursor_pieces o i n Hs (proj1 Hn)) as Hp. pose proof (cursor_length o i n Hs Hn) as Hl.
  assert (∀ o' i', parse_cursor (Some (cursor o i n)) o' i' =
            if bool_decide (cursor_scope o i = cursor_scope o' i') then Ok n else Raise bad_cursor) as Hc.
  { intros o' i'. unfold parse_cursor. destruct (Z.ltb_spec 90 (strlen (cursor o i n))) as [Hlt|_].
    { exfalso. unfold cursor in Hlt. rewrite !strlen_app in Hlt. apply andb_true_iff in Hs as [Hs%Z.eqb_eq _].
      change (strlen "ab:") with 3 in Hlt. change (strlen ":") with 1 in Hlt. lia. }
    rewrite Hp. simpl. case_bool_decide; [|done]. rewrite (proj2 (Z.leb_le _ _) Hl). simpl.
    rewrite read_pretty by lia. by destruct (Z.leb_spec (2 ^ 63) n); [lia|]. }
  split_and!.
  - by rewrite Hc, bool_decide_true.
  - intros o' i' n'. rewrite Hc. case_bool_decide; [|done]. by intros [= ->].
  - intros raw n'. unfold parse_cursor. repeat (case_match; try done). intros [= <-].
    match goal with X : (2 ^ 63 <=? _) = false |- _ => apply Z.leb_gt in X; lia end.
Qed.
End cursors.

(** ** Streams *)

Section stream.
Context `{JsonText} `{Sha256} (max_active max_events : Z) (guarded : bool).
Context (Hcap : 1 <= max_active <= 10000) (Hlim : 3 <= max_events <= 10000).
Context (L : StreamLimits) (owner i : string) (rid : json).
Implicit Types (r : reader) (t : TaskLifecycle) (tu : turn).

#[local] Notation running := (running max_active max_events guarded).
#[local] Notation task_step := (task_step max_active max_events guarded).
#[local] Notation tasks_ok := (tasks_ok max_active max_events).

Definition event_of (c : chunk) : option (string * json) := match c with Event k j => Some (k, j) | _ => None end.

(** A piece of history as a reader sees it: the whole task first, then updates. *)
Fixpoint render (initial : bool) (ts : list TaskLifecycle) : list (string * json) :=
  match ts with
  | [] => []
  | t :: ts => (cursor owner i (sequence t), result_json rid (if initial then task_json t else update_json t)) :: render false ts
  end.

Lemma render_app initial ts us :
  render initial (ts ++ us) = render initial ts ++ render (initial && bool_decide (ts = [])) us.
Proof.
  revert initial. induction ts as [|t ts IH]; intros initial; simpl; [by rewrite andb_true_r|].
  rewrite IH. simpl. by rewrite andb_false_r.
Qed.

Lemma send_page_spec cut r page cs r' stop :
  (∀ j t, page !! j = Some t → sequence t = rd_cursor r + 1 + Z.of_nat j) →
  send_page owner i rid cut r page = (cs, r', stop) →
  ∃ k, (k <= length page)%nat ∧ omap event_of cs = render (rd_initial r) (take k page) ∧
    rd_cursor r' = rd_cursor r + Z.of_nat k ∧ rd_initial r' = rd_initial r && bool_decide (k = 0%nat).
Proof.
  revert cut r cs r' stop. induction page as [|t page IH]; intros cut r cs r' stop Hp; simpl.
  { intros [= <- <- <-]. exists 0%nat. simpl. rewrite andb_true_r. split_and!; [done|done|lia|done]. }
  pose proof (Hp 0%nat t eq_refl) as Ht.
  destruct cut as [[|cut]|]; [intros [= <- <- <-]; exists 0%nat; simpl; rewrite andb_true_r; split_and!; [lia|done|lia|done]|..];
    (destruct (finished t); [intros [= <- <- <-]; exists 1%nat; simpl; rewrite andb_false_r; split_and!; [lia|done|lia|done]|]);
    match goal with |- context [send_page ?o ?i ?rid ?c ?r0 page] => destruct (send_page o i rid c r0 page) as [[cs1 r1] st1] eqn:Hs end;
    intros [= <- <- <-]; apply IH in Hs as (k & Hk & He & Hc & Hi);
    try (intros j u Hj; rewrite (Hp (S j) u Hj); simpl; lia);
    exists (S k); simpl in *; rewrite Hi, andb_false_r; (split_and!; [lia|f_equal; exact He|lia|done]).
Qed.

Lemma stream_turn_spec r tu l cs r' stop :
  tasks_ok (tu_db tu) → events (tu_db tu) !! (owner, i) = Some l → -1 <= rd_cursor r →
  stream_turn L owner i rid r tu = (cs, r', stop) →
  rd_cursor r <= rd_cursor r' ∧ (rd_cursor r = rd_cursor r' ∨ rd_cursor r' + 1 <= Z.of_nat (length l)) ∧
  omap event_of cs = render (rd_initial r) (segment (rd_cursor r) (rd_cursor r') l) ∧
  rd_initial r' = rd_initial r && bool_decide (rd_cursor r' = rd_cursor r).
Proof.
  intros Hd Hl Hc. unfold stream_turn.
  assert (∀ cs0, omap event_of cs0 = [] → (cs0, r, true) = (cs, r', stop) →
    rd_cursor r <= rd_cursor r' ∧ (rd_cursor r = rd_cursor r' ∨ rd_cursor r' + 1 <= Z.of_nat (length l)) ∧
    omap event_of cs = render (rd_initial r) (segment (rd_cursor r) (rd_cursor r') l) ∧
    rd_initial r' = rd_initial r && bool_decide (rd_cursor r' = rd_cursor r)) as Hquiet.
  { intros cs0 Hz [= <- <- <-]. rewrite Hz. unfold segment. rewrite Z.sub_diag, bool_decide_true, andb_true_r by done.
    split_and!; [lia|by left|done|done]. }
  destruct (tu_late tu); [by apply Hquiet|]. destruct (tu_gone tu); [by apply Hquiet|].
  destruct (tu_owner tu) as [o|x]; [|by destruct x; apply Hquiet].
  destruct (bool_decide (o = owner)); [|by apply Hquiet].
  destruct (list_events owner i (rd_cursor r) (sl_page L) (tu_db tu)) as [[p|x] d'] eqn:Hp; simpl; [|by apply Hquiet].
  destruct (list_events_Ok _ _ _ _ _ _ _ _ _ _ Hd Hl Hc Hp) as (-> & -> & Hps & _ & w & _ & Hh & _).
  destruct (send_page _ _ _ _ _ _) as [[cs1 r1] stop1] eqn:Hs. intros [= <- <- <-].
  apply send_page_spec in Hs as (k & Hk & He & Hcur & Hini).
  2:{ intros j t. rewrite lookup_take_Some, lookup_drop. intros [Hj _].
      rewrite (legal_index _ _ _ (h_legal _ _ _ _ Hh) Hj). lia. }
  rewrite length_take, length_drop in Hk.
  assert (omap event_of (if stop1 then cs1 else cs1 ++ (if tu_beat tu then [KeepAlive] else [])) = omap event_of cs1) as ->
    by (destruct stop1, (tu_beat tu); rewrite ?omap_app; simpl; by rewrite ?app_nil_r).
  rewrite He, Hini. unfold segment. replace (Z.to_nat (rd_cursor r1 - rd_cursor r)) with k by lia.
  rewrite take_take, Nat.min_l by lia. split_and!; [lia| |done|f_equal; apply bool_decide_ext; lia].
  destruct (decide (k = 0%nat)); [left; lia|right; lia].
Qed.

Lemma stream_spec r ts cs r' stop df l :
  Forall (fun tu => running (tu_db tu) ∧ rtc task_step (tu_db tu) df ∧ is_Some (events (tu_db tu) !! (owner, i))) ts →
  -1 <= rd_cursor r → events df !! (owner, i) = Some l →
  stream L owner i rid r ts = (cs, r', stop) →
  rd_cursor r <= rd_cursor r' ∧ omap event_of cs = render (rd_initial r) (segment (rd_cursor r) (rd_cursor r') l) ∧
  rd_initial r' = rd_initial r && bool_decide (rd_cursor r' = rd_cursor r).
Proof.
  intros Hts. revert r cs r' stop. induction Hts as [|tu ts (Hrun & Hlater & ld & Hld) Hts IH]; intros r cs r' stop Hc Hl; simpl.
  { intros [= <- <- <-]. unfold segment. rewrite Z.sub_diag, bool_decide_true, andb_true_r by done. split_and!; [lia|done|done]. }
  destruct (stream_turn L owner i rid r tu) as [[cs1 r1] stop1] eqn:Ht.
  apply running_metered in Hrun as [Hd _]; [|done..].
  apply (stream_turn_spec _ _ ld) in Ht as (H1 & H2 & He & Hi); [|done..].
  destruct (proj1 (steps_extend _ _ _ Hcap Hlim _ _ Hlater Hd) _ _ Hld) as (l' & Hl' & _).
  assert (l = ld ++ l') as -> by congruence.
  assert (omap event_of cs1 = render (rd_initial r) (segment (rd_cursor r) (rd_cursor r1) (ld ++ l'))) as He'.
  { rewrite He. destruct H2 as [E|H2]; [rewrite <- E; unfold segment; by rewrite Z.sub_diag|]. by rewrite segment_prefix by lia. }
  destruct stop1; [by intros [= <- <- <-]|].
  destruct (stream L owner i rid r1 ts) as [[ds r2] stop2] eqn:Hs. intros [= <- <- <-].
  apply IH in Hs as (G1 & G2 & G3); [|lia|done].
  split_and!; [lia| |].
  - rewrite omap_app, He', G2, Hi, <- (segment_app (rd_cursor r) (rd_cursor r1) (rd_cursor r2)) by lia. rewrite render_app. f_equal. f_equal. f_equal.
    apply bool_decide_ext. unfold segment. split; [intros ->; by rewrite Z.sub_diag|].
    destruct H2 as [E|H2]; [lia|]. intros Hn%(f_equal length). rewrite length_take, length_drop, length_app in Hn. simpl in Hn. lia.
  - rewrite G3, Hi, <- andb_assoc. f_equal. rewrite <- bool_decide_and. apply bool_decide_ext. lia.
Qed.

Lemma stream_turn_lapsed r tu : tu_owner tu ≠ Ok owner → (stream_turn L owner i rid r tu).2 = true.
Proof.
  intros Ho. unfold stream_turn. destruct (tu_late tu), (tu_gone tu); try done.
  destruct (tu_owner tu) as [o|[]]; try done. by rewrite bool_decide_false by congruence.
Qed.

(** C35: A status stream replays the task's history.  Whatever work interleaves
    with its rounds, wherever the client disappears or the deadline falls, the
    events a stream sends from cursor [c] are exactly those numbered from [c + 1]
    to its last cursor, in order, none twice and none missing: the first as the
    whole task, the rest as updates, each under its own replay cursor.  From the
    first round on in which the token is not the owner's, nothing more is read. *)
Theorem status_stream_exact c ts cs r' stop df l :
  Forall (fun tu => running (tu_db tu) ∧ rtc task_step (tu_db tu) df ∧ is_Some (events (tu_db tu) !! (owner, i))) ts →
  -1 <= c → events df !! (owner, i) = Some l →
  stream L owner i rid (mkReader true c) ts = (cs, r', stop) →
  c <= rd_cursor r' ∧ omap event_of cs = render true (segment c (rd_cursor r') l) ∧
  (∀ a tu b, ts = a ++ tu :: b → tu_owner tu ≠ Ok owner →
     stream L owner i rid (mkReader true c) (a ++ [tu]) = (cs, r', true)).
Proof.
  intros Hts Hc Hl Hs. destruct (stream_spec (mkReader true c) _ _ _ _ _ _ Hts Hc Hl Hs) as (H1 & H2 & _). split_and!; [done|done|].
  intros a tu b -> Ho. clear -Hs Ho. revert Hs. generalize (mkReader true c). intros r. revert r cs.
  induction a as [|tu' a IH]; intros r cs; simpl.
  - pose proof (stream_turn_lapsed r tu Ho) as Ht. destruct (stream_turn _ _ _ _ _ _) as [[cs1 r1] stop1]. simpl in Ht. subst.
    by intros [= <- <- _].
  - destruct (stream_turn _ _ _ _ r tu') as [[cs1 r1] [|]]; [by intros [= <- <- _]|].
    destruct (stream L owner i rid r1 (a ++ tu :: b)) as [[ds r2] st] eqn:Hs. intros [= <- <- <-].
    by rewrite (IH _ _ Hs).
Qed.
End stream.

(** ** Answers *)

Section answers.
Context `{JsonText} `{Sha256}.
Context (verify : string → outcome (list (string * json))) (parse_float : string → option float64).
Context (loads : string → outcome json) (validate : string → json → option query) (e : env) (L : StreamLimits).

Lemma get_snapshot_Ok owner i d t : (get_snapshot owner i d).1 = Ok t → ∃ row, snapshots d !! (owner, i) = Some row ∧ snap row = t.
Proof.
  unfold get_snapshot, scope. rewrite run_bind. destruct (identifier owner _) as [o|]; simpl; [|done].
  destruct (identifier i _) as [j|]; simpl; [|done]. unfold get_task. simpl.
  destruct (snapshots d !! (owner, i)) as [row|]; simpl; [|done]. intros [= <-]. by exists row.
Qed.

Lemma read_digits_nonneg acc s n : 0 <= acc → read_digits acc s = Some n → 0 <= n.
Proof.
  revert acc. induction s as [|c s IH]; intros acc Ha; simpl; [by intros [= <-]|].
  unfold digit_value. destruct (_ && _) eqn:Hc; simpl; [|done].
  apply andb_true_iff in Hc as [Hc%Z.leb_le _]. apply IH. lia.
Qed.

Lemma parse_cursor_low raw owner i n : parse_cursor raw owner i = Ok n → -1 <= n.
Proof.
  unfold parse_cursor. destruct raw as [raw|]; [|intros [= <-]; lia]. repeat (case_match; try done). intros [= <-].
  match goal with X : read_decimal ?s = Some ?n |- _ => unfold read_decimal in X; destruct s; [done|]; apply read_digits_nonneg in X; lia end.
Qed.

(** The answer discloses one task of the owner, opens a stream on it, or is an
    error. *)
Definition scoped (r : http_request) (d : task_db) (s : streams) (x : response) (s' : streams) : Prop :=
  match x with
  | Answer st body =>
      s' = s ∧ ((∃ rid c message, body = error_json rid c message) ∨
        (st = 200 ∧ ∃ rid owner i row, body = result_json rid (task_json (snap row)) ∧
           owner_of verify e (h_authorization r) = Ok owner ∧ snapshots d !! (owner, i) = Some row))
  | Opened owner i rid c n =>
      owner_of verify e (h_authorization r) = Ok owner ∧
      (∃ row, snapshots d !! (owner, i) = Some row ∧ -1 <= c <= sequence (snap row)) ∧
      acquire L owner s = (Ok (Some n), s')
  end.

Lemma respond_scoped r owner i method rid q row d s x s' :
  owner_of verify e (h_authorization r) = Ok owner → snapshots d !! (owner, i) = Some row →
  respond parse_float L r owner i method rid q (snap row) s = (Ok x, s') → scoped r d s x s'.
Proof.
  intros Ho Hr. unfold respond.
  assert (∀ c m st, scoped r d s (refuse rid c m st) s) as Hq by (intros; split; [done|left; eauto]).
  repeat (case_match; [by intros [= <- <-]|]).
  case_match; [intros [= <- <-]; split; [done|right; split; [done|]; by exists rid, owner, i, row]|].
  case_match; [by intros [= <- <-]|]. destruct (parse_cursor _ _ _) as [c|] eqn:Hc; [|by intros [= <- <-]].
  destruct (Z.ltb_spec (sequence (snap row)) c); [by intros [= <- <-]|]. case_match; [by intros [= <- <-]|].
  rewrite run_bind. destruct (acquire L owner s) as [[[n|]|x'] s1] eqn:Ha; [..|done]; intros [= <- <-].
  - split_and!; [done| |done]. exists row. split; [done|]. apply parse_cursor_low in Hc. lia.
  - unfold acquire in Ha. case_match; [|done]. injection Ha as <-. apply Hq.
Qed.

(** The status service only observes, and only the owner's tasks: every
    answer is an error, or the current state of a task recorded under the subject
    of the caller's verified token, or a stream on such a task from a cursor not
    beyond its history, for which a slot was taken within the limits. *)
Theorem status_owner_scoped r d s x s' :
  rpc verify parse_float loads validate e L r d s = (Ok x, s') → scoped r d s x s'.
Proof.
  unfold rpc.
  assert (∀ rid c m st, scoped r d s (refuse rid c m st) s) as Hq by (intros; split; [done|left; eauto]).
  destruct (owner_of _ _ _) as [owner|[]] eqn:Ho; try done; try (by intros [= <- <-]).
  do 2 (case_match; [by intros [= <- <-]|]).
  destruct (h_body r) as [body|]; [|by intros [= <- <-]]. case_match; [by intros [= <- <-]|].
  destruct (loads body) as [[| | | | | |m]|]; try (by intros [= <- <-]).
  case_match; [by intros [= <- <-]|]. destruct (obj_get "method" JNull m) as [| | | |method| |]; try (by intros [= <- <-]).
  case_match; [by intros [= <- <-]|]. destruct (validate method (JObj m)) as [q|]; [|by intros [= <- <-]].
  destruct (named_task _ q) as [i|x'] eqn:Hn.
  - destruct (get_snapshot owner i d).1 as [t|[]] eqn:Hg; try (by intros [= <- <-]).
    apply get_snapshot_Ok in Hg as (row & Hr & <-). by eapply respond_scoped.
  - intros [= <- <-]. unfold named_task in Hn. destruct q; [done|]. repeat case_match; simplify_eq; apply Hq.
Qed.
End answers.

(** ** Instances, by evaluation *)

#[local] Instance status_digest : Sha256 | 0 :=
  { sha256_hex _ := "dddddddddddddddddddddddddddddddddddddddddddddddddddddddddddddddd" }.

Definition status_limits : StreamLimits := mkStreamLimits 16384 16 64 4 (PInt 60) (PInt 5) (PInt 1) (PInt 5).

Definition one_slot : streams := mkStreams 1 {["own" := 1]} [("own", false)].

Lemma one_slot_reached : rtc (slot_step status_limits) no_streams one_slot.
Proof. apply rtc_once, (slot_acquire _ _ "own" (Ok (Some 0%nat))). reflexivity. Qed.

Lemma stream_slots_exact_witness :
  slots_ok status_limits one_slot ∧ (release 0 one_slot).1 = Ok tt ∧ slots_ok status_limits (release 0 one_slot).2.
Proof. exact (stream_slots_exact status_limits one_slot 0 one_slot_reached). Defined.

Lemma cursor_round_trip_witness : parse_cursor (Some (cursor "own" "t1" 41)) "own" "t1" = Ok 41.
Proof.
  apply (cursor_round_trip "own" "t1" 41); [intros s; vm_compute; reflexivity|lia].
Defined.

Definition status_turns : list turn :=
  [mkTurn false false (Ok "own") demo_d2 None true; mkTurn false false (Ok "own") demo_d3 (Some 1%nat) false].
Definition status_history : list TaskLifecycle := [demo_task; demo_event WORKING 1; demo_event COMPLETED 2].

Lemma status_turns_run :
  Forall (fun tu => running 2 4 true (tu_db tu) ∧ rtc (task_step 2 4 true) (tu_db tu) demo_d3 ∧
                    is_Some (events (tu_db tu) !! ("own", "t1"))) status_turns.
Proof.
  apply Forall_cons_2; [|apply Forall_cons_2; [|apply Forall_nil_2]]; cbn [tu_db]; split_and!.
  - exact demo_running2.
  - apply rtc_once, demo_step3.
  - vm_compute. by eexists.
  - exact demo_running3.
  - apply rtc_refl.
  - vm_compute. by eexists.
Qed.

Lemma status_history_ok : events demo_d3 !! ("own", "t1") = Some status_history.
Proof. vm_compute. reflexivity. Qed.

Notation status_run := (stream status_limits "own" "t1" (JInt 7) (mkReader true (-1)) status_turns) (only parsing).

Definition status_chunks : list chunk := Eval vm_compute in status_run.1.1.
Lemma status_run_ok : status_run = (status_chunks, mkReader false 2, true).
Proof. vm_compute. reflexivity. Qed.

Lemma status_stream_exact_witness :
  omap event_of status_chunks = render "own" "t1" (JInt 7) true (segment (-1) 2 status_history).
Proof.
  exact (proj1 (proj2 (status_stream_exact 2 4 true demo_range_active demo_range_events status_limits "own" "t1" (JInt 7)
    (-1) status_turns status_chunks (mkReader false 2) true demo_d3 status_history status_turns_run ltac:(lia)
    status_history_ok status_run_ok))).
Defined.

Definition status_env : env := mkEnv false None "legacy_single_tenant".
Definition status_verify (t : string) : outcome (list (string * json)) :=
  if bool_decide (t = "token") then Ok [("sub", JStr "own")] else Raise (OidcError "token verification failed").
Definition status_loads (s : string) : outcome json :=
  Ok (JObj [("jsonrpc", JStr "2.0"); ("id", JInt 7); ("method", JStr "tasks/resubscribe"); ("params", JNull)]).
Definition status_request : http_request :=
  mkHttp (Some "Bearer token") None (Some "application/json") None None (Some "body").

Notation status_rpc := (rpc status_verify (fun _ => None) status_loads (fun _ _ => Some (TaskQuery "t1")) status_env
                          status_limits status_request demo_d2 no_streams) (only parsing).

Lemma status_rpc_ok : status_rpc = (Ok (Opened "own" "t1" (JInt 7) (-1) 0), one_slot).
Proof. vm_compute. reflexivity. Qed.

Lemma status_owner_scoped_witness :
  owner_of status_verify status_env (Some "Bearer token") = Ok "own" ∧
  acquire status_limits "own" no_streams = (Ok (Some 0%nat), one_slot).
Proof.
  pose proof (status_owner_scoped status_verify (fun _ => None) status_loads (fun _ _ => Some (TaskQuery "t1")) status_env
                status_limits status_request demo_d2 no_streams _ _ status_rpc_ok) as (Ho & _ & Ha).
  split; [exact Ho|exact Ha].
Defined.
