(* ===== verification/Oidc.v ===== *)
(** * OIDC token verification

    [api/auth_oidc.py]: the JWKS cache, its refresh and rate limit, and the
    verifier in front of it.  One call holds the cache's lock, so a call is one
    step.  The network's answers and clock readings are arguments; [json.loads],
    PyJWT's key construction, header parsing and [decode] are parameters. *)

From stdpp Require Import base list strings.
From Stdlib Require Import ZArith Lia Ascii.
From S2P Require Import Prelude PyFloat Json Authority Quotas.

#[local] Open Scope Z_scope.

Record OidcConfig := mkOidc {
  issuer : string;
  audience : string;
  public_key_pem : option string;
  jwks_url : option string;
  role_claim : string;
  default_role : string;
  jwks_ttl : pynum;
  jwks_min_refresh : pynum;
  fetch_timeout : pynum;
}.

Definition interval_ok (x : pynum) : bool :=
  is_number x && fisfinite (num_value x) && fltb fzero (num_value x).

(** [OidcVerifier.__init__]. *)
Definition verifier_init (c : OidcConfig) : outcome OidcConfig :=
  _ ← guard_or (interval_ok (jwks_ttl c) && interval_ok (jwks_min_refresh c) && interval_ok (fetch_timeout c))
               (ValueError "OIDC cache and timeout intervals must be finite and positive");
  Ok c.

(** [value.rstrip("/")]. *)
Fixpoint drop_slashes (s : string) : string :=
  match s with
  | EmptyString => EmptyString
  | String c s' => if Ascii.eqb c "/"%char then drop_slashes s' else s
  end.
Definition rstrip_slash (s : string) : string := str_rev (drop_slashes (str_rev s "")) "".

Section oidc.
Context {key : Type}.
(** [json.loads] of the decoded payload, [PyJWK(jwk).key], PyJWT's header and
    [decode]; [None] where they raise. *)
Context (loads : string → option json) (jwk_key : json → option key).
Context (unverified_header : string → option (list (string * json))).
Context (decode : string → string + key → option (list (string * json))).
Context (c : OidcConfig).

Record jwks := mkJwks {
  cache : list (string * (key * float64));
  full_fetch_at : float64;
  last_attempt : option float64;
  discovered : json;
}.

Definition empty_jwks : jwks := mkJwks [] fzero None JNull.

(** ** Fetching *)

(** The network for the duration of a call: the payload of a GET. *)
Definition network := string → option string.

(** [_fetch_url] and [json.loads]; [None] where either raises. *)
Definition get_json (net : network) (url : string) : option json :=
  payload ← net url;
  if 1048576 <? strlen payload then None else loads payload.

(** [_discover_jwks_url]: the URL found, falsy when there is none. *)
Definition discover (net : network) : M jwks json := fun s =>
  if truthy (discovered s) then (Ok (discovered s), s)
  else match get_json net (rstrip_slash (issuer c) +:+ "/.well-known/openid-configuration") with
  | Some (JObj m) =>
      let u := obj_get "jwks_uri" JNull m in
      (Ok u, mkJwks (cache s) (full_fetch_at s) (last_attempt s) u)
  | _ => (Ok JNull, s)
  end.

(** [self.config.jwks_url or self._discover_jwks_url()]. *)
Definition jwks_location (net : network) : M jwks json :=
  match jwks_url c with
  | Some u => if bool_decide (u = "") then discover net else mret (JStr u)
  | None => discover net
  end.

Definition fetch_jwks (net : network) : M jwks json :=
  url ← jwks_location net;
  if negb (truthy url) then raise (OidcError "no JWKS URL configured and OIDC discovery failed")
  else match url with
  | JStr u => match get_json net u with
              | Some j => mret j
              | None => raise (OidcError ("failed to fetch JWKS from " +:+ u))
              end
  | _ => raise (OidcError "failed to fetch JWKS")
  end.

Definition kid_ok (k : string) : bool := (1 <=? strlen k) && (strlen k <=? 128).

(** The loop over the fetched keys. *)
Fixpoint collect (fetched_at : float64) (l : list json) (acc : list (string * (key * float64)))
  : list (string * (key * float64)) :=
  match l with
  | [] => acc
  | jwk :: l =>
      collect fetched_at l
        match jwk with
        | JObj m =>
            match py_or (obj_get "kid" JNull m) (JStr "_default") with
            | JStr k => if kid_ok k then match jwk_key jwk with
                                         | Some x => dict_set k (x, fetched_at) acc
                                         | None => acc
                                         end
                        else acc
            | _ => acc
            end
        | _ => acc
        end
  end.

(** A refresh attempt at [now]: a fetched set replaces the cache. *)
Definition refresh (net : network) (now fetched_at : float64) : M jwks unit :=
  _ ← modify (fun s => mkJwks (cache s) (full_fetch_at s) (Some now) (discovered s));
  j ← fetch_jwks net;
  match j with
  | JObj m =>
      match obj_get "keys" JNull m with
      | JArr l =>
          if 128 <? Z.of_nat (length l) then raise (OidcError "malformed or oversized JWKS key collection")
          else modify (fun s => mkJwks (collect fetched_at l []) fetched_at (last_attempt s) (discovered s))
      | _ => raise (OidcError "malformed or oversized JWKS key collection")
      end
  | _ => raise (OidcError "malformed or oversized JWKS key collection")
  end.

(** ** Keys *)

(** The cache key of a token's [kid]. *)
Definition cache_key (kid : json) : outcome string :=
  match kid with
  | JNull => Ok "_default"
  | JStr k => if kid_ok k then Ok k else Raise (OidcError "invalid signing key identifier")
  | _ => Raise (OidcError "invalid signing key identifier")
  end.

Definition cached (now : float64) (k : string) (s : jwks) : option key :=
  match dict_get k (cache s) with
  | Some (x, f) => if fltb (fsub now f) (num_value (jwks_ttl c)) then Some x else None
  | None => None
  end.

Definition limited (now : float64) (s : jwks) : bool :=
  match last_attempt s with
  | Some t => fltb (fsub now t) (num_value (jwks_min_refresh c))
  | None => false
  end.

Definition key_for_kid (net : network) (now fetched_at : float64) (kid : json) : M jwks key :=
  k ← lift (cache_key kid);
  s ← get;
  match cached now k s with
  | Some x => mret x
  | None =>
      _ ← ensure (negb (limited now s)) (OidcError "signing key unavailable; JWKS refresh temporarily rate limited");
      _ ← refresh net now fetched_at;
      s ← get;
      match dict_get k (cache s) with
      | Some (x, _) => mret x
      | None => raise (OidcError "no signing key found for kid in JWKS")
      end
  end.

(** ** Tokens *)

Definition resolve_signing_key (net : network) (now fetched_at : float64) (header : list (string * json))
  : M jwks (string + key) :=
  match public_key_pem c with
  | Some pem => if bool_decide (pem = "") then x ← key_for_kid net now fetched_at (obj_get "kid" JNull header); mret (inr x)
                else mret (inl pem)
  | None => x ← key_for_kid net now fetched_at (obj_get "kid" JNull header); mret (inr x)
  end.

Definition configured_text (o : option string) : bool := match o with Some s => negb (bool_decide (s = "")) | None => false end.

Definition verify (net : network) (now fetched_at : float64) (token : string) : M jwks (list (string * json)) :=
  _ ← ensure (configured_text (public_key_pem c) || configured_text (jwks_url c) || negb (bool_decide (issuer c = "")))
             (OidcError "no signing key configured (set public_key_pem, jwks_url, or issuer)");
  match unverified_header token with
  | None => raise (OidcError "malformed token header")
  | Some header =>
      x ← resolve_signing_key net now fetched_at header;
      match decode token x with
      | Some claims => mret claims
      | None => raise (OidcError "token verification failed")
      end
  end.

Definition role_of (claims : list (string * json)) : json := obj_get (role_claim c) (JStr (default_role c)) claims.

(** [header.split(" ", 1)[1].strip()] of a header that starts with [bearer ]. *)
Fixpoint after_space (s : string) : string :=
  match s with EmptyString => EmptyString | String a s => if Ascii.eqb a " "%char then s else after_space s end.

Definition authenticate (net : network) (now fetched_at : float64) (header : option string)
  : M jwks (list (string * json) * json) :=
  match header with
  | None | Some "" => raise (OidcError "missing Authorization header")
  | Some h =>
      let token := if String.prefix "bearer " (str_lower h) then strip (after_space h) else h in
      claims ← verify net now fetched_at token;
      mret (claims, role_of claims)
  end.
End oidc.

Arguments jwks : clear implicits.
Arguments mkJwks {key}.
Arguments empty_jwks {key}.

(** ** What a resolved key is worth *)

Section spec.
Context {key : Type} (loads : string → option json) (jwk_key : json → option key).
Context (c : OidcConfig).
Implicit Types (s : jwks key) (net : network).

#[local] Notation key_for_kid := (key_for_kid loads jwk_key c).
#[local] Notation refresh := (refresh loads jwk_key c).

(** *** What the issuer served

    A history of refresh attempts, newest first, as the network saw them: when,
    the clock after the fetch, and what every URL answered.  The key sets are
    read off the answers; the verifier's own state has no part in it. *)
Record attempt := mkAttempt { at_time : float64; at_fetched : float64; at_net : network }.

(** The [jwks_uri] of the first discovery document that has one. *)
Fixpoint discovered_uri (log : list attempt) : json :=
  match log with
  | [] => JNull
  | a :: log =>
      if truthy (discovered_uri log) then discovered_uri log
      else match get_json loads (at_net a) (rstrip_slash (issuer c) +:+ "/.well-known/openid-configuration") with
      | Some (JObj m) => obj_get "jwks_uri" JNull m
      | _ => discovered_uri log
      end
  end.

(** Where the keys are: the configured URL, else the discovered one. *)
Definition location (log : list attempt) : json :=
  match jwks_url c with
  | Some (String _ _ as u) => JStr u
  | _ => discovered_uri log
  end.

(** The key set that the newest attempt was served: a bounded JSON payload with
    at most 128 keys. *)
Definition key_set (a : attempt) (log : list attempt) : option (list json) :=
  match location (a :: log) with
  | JStr (String _ _ as u) =>
      match get_json loads (at_net a) u with
      | Some (JObj m) =>
          match obj_get "keys" JNull m with
          | JArr l => if Z.of_nat (length l) <=? 128 then Some l else None
          | _ => None
          end
      | _ => None
      end
  | _ => None
  end.

(** The latest set served, and when it was fetched. *)
Fixpoint latest (log : list attempt) : option (float64 * list json) :=
  match log with
  | [] => None
  | a :: log => match key_set a log with Some l => Some (at_fetched a, l) | None => latest log end
  end.

(** The identifier a served key goes by: its own, or the default of a key that
    has none. *)
Definition kid_of (jwk : json) : option string :=
  match jwk with
  | JObj m => match obj_get "kid" JNull m with
              | JStr (String _ _ as k) => Some k
              | v => if truthy v then None else Some "_default"
              end
  | _ => None
  end.

(** The last usable key of a set under [k]. *)
Fixpoint served_key (k : string) (l : list json) : option key :=
  match l with
  | [] => None
  | jwk :: l => match served_key k l with
                | Some x => Some x
                | None => if bool_decide (kid_of jwk = Some k) then jwk_key jwk else None
                end
  end.

(** Whether a call goes to the network. *)
Definition attempts now (kid : json) s : bool :=
  match cache_key kid with
  | Ok k => match cached c now k s with Some _ => false | None => negb (limited c now s) end
  | Raise _ => false
  end.

Definition logged net now fetched_at kid s (log : list attempt) : list attempt :=
  if attempts now kid s then mkAttempt now fetched_at net :: log else log.

(** A verifier's life: calls with any tokens, at any time, against any network. *)
Inductive life : jwks key → list attempt → Prop :=
| life_start : life empty_jwks []
| life_call s log net now fetched_at kid :
    life s log → life (key_for_kid net now fetched_at kid s).2 (logged net now fetched_at kid s log).

(** Consecutive attempts are at least the refresh interval apart. *)
Fixpoint spaced (log : list attempt) : Prop :=
  match log with
  | a :: ((b :: _) as log') => fltb (fsub (at_time a) (at_time b)) (num_value (jwks_min_refresh c)) = false ∧ spaced log'
  | _ => True
  end.

(** *** The cache follows it *)

Definition discovers : bool := match jwks_url c with Some (String _ _) => false | _ => true end.

Record life_ok s (log : list attempt) : Prop := {
  lo_cache k : kid_ok k = true →
    dict_get k (cache s) = match latest log with Some (f, l) => (fun x => (x, f)) <$> served_key k l | None => None end;
  lo_last : last_attempt s = at_time <$> head log;
  lo_discovered : discovers = true → discovered s = discovered_uri log;
  lo_spaced : spaced log;
}.

Lemma collect_served f k l acc :
  kid_ok k = true →
  dict_get k (collect jwk_key f l acc) = match served_key k l with Some x => Some (x, f) | None => dict_get k acc end.
Proof.
  intros Hk. revert acc. induction l as [|j l IH]; intros acc; [done|]. cbn [collect served_key]. rewrite IH.
  destruct (served_key k l); [done|].
  destruct j as [| | | | | |m]; try (by rewrite bool_decide_false).
  assert (∀ i, py_or (obj_get "kid" JNull m) (JStr "_default") = JStr i ↔ kid_of (JObj m) = Some i) as Hkid.
  { intros i. unfold kid_of, py_or. destruct (obj_get "kid" JNull m) as [|[]| | |[]|[]|[]]; simpl; try (case_match); naive_solver. }
  case_bool_decide as Hn.
  - apply Hkid in Hn. rewrite Hn, Hk. destruct (jwk_key (JObj m)); [apply dict_get_set_eq|done].
  - destruct (py_or _ _) as [| | | |i| |] eqn:Hi; try done. destruct (kid_ok i); [|done].
    destruct (jwk_key (JObj m)); [|done]. apply dict_get_set_ne. intros <-. by apply Hn, Hkid.
Qed.

(** The URL a refresh asks is the one the history gives, or there is none. *)
Lemma location_run net now f s log :
  (discovers = true → discovered s = discovered_uri log) →
  let loc := location (mkAttempt now f net :: log) in
  ∃ u s', jwks_location loads c net s = (Ok u, s') ∧ cache s' = cache s ∧ last_attempt s' = last_attempt s ∧
    (discovers = true → discovered s' = discovered_uri (mkAttempt now f net :: log)) ∧
    (u = loc ∨ truthy u = false ∧ truthy loc = false).
Proof.
  intros Hd. cbv zeta. destruct discovers eqn:Hdis.
  2: { unfold discovers in Hdis. unfold location, jwks_location. destruct (jwks_url c) as [[|ch u]|]; try done.
       exists (JStr (String ch u)), s. by split_and!; [..|left]. }
  assert (location (mkAttempt now f net :: log) = discovered_uri (mkAttempt now f net :: log) ∧
    jwks_location loads c net = discover loads c net) as (-> & ->).
  { unfold discovers in Hdis. unfold location, jwks_location. by destruct (jwks_url c) as [[|ch u]|]. }
  specialize (Hd eq_refl). unfold discover. cbn [discovered_uri at_net]. rewrite <-Hd.
  destruct (truthy (discovered s)) eqn:Ht; [exists (discovered s), s; by split_and!; [..|left]|].
  destruct (get_json _ _ _) as [[| | | | | |m]|]; try (exists JNull, s; by split_and!; [..|right]).
  eexists _, _. split; [done|]. by split_and!; [..|left].
Qed.

(** The refresh raised in state [s1]. *)
#[local] Ltac refuse s1 := eexists _, s1; split; [done|]; split; [done|]; split; [done|]; split; [by eexists|done].

Lemma refresh_run net now f s log :
  (discovers = true → discovered s = discovered_uri log) →
  let a := mkAttempt now f net in
  ∃ r s', refresh net now f s = (r, s') ∧ last_attempt s' = Some now ∧
    (discovers = true → discovered s' = discovered_uri (a :: log)) ∧
    match key_set a log with
    | Some l => r = Ok tt ∧ cache s' = collect jwk_key f l []
    | None => (∃ m, r = Raise (OidcError m)) ∧ cache s' = cache s
    end.
Proof.
  intros Hd a. unfold Oidc.refresh. rewrite run_bind. simpl. rewrite run_bind. unfold fetch_jwks. rewrite run_bind.
  set (s0 := mkJwks (cache s) (full_fetch_at s) (Some now) (discovered s)).
  destruct (location_run net now f s0 log Hd) as (u & s1 & -> & Hc & Hl & Hdis & Hu). fold a in Hdis, Hu.
  unfold key_set. destruct (truthy u) eqn:Ht; simpl.
  2: { assert (truthy (location (a :: log)) = false) as Hf by (destruct Hu as [<-|[_ ?]]; done).
       destruct (location (a :: log)) as [| | | |[|ch v]| |]; done || by refuse s1. }
  destruct Hu as [<-|[? _]]; [|congruence].
  destruct u as [| | | |[|ch v]| |]; try done; try (by refuse s1).
  change (at_net a) with net.
  destruct (get_json loads net (String ch v)) as [[| | | | | |m]|]; try (by refuse s1).
  simpl. destruct (obj_get "keys" JNull m) as [| | | | |l|]; try (by refuse s1).
  rewrite Z.ltb_antisym. destruct (Z.of_nat (length l) <=? 128); simpl; eexists _, _; (split; [done|]); [by split_and!|].
  split; [done|]. split; [done|]. split; [by eexists|done].
Qed.

Lemma attempts_spaced now f net kid s log :
  life_ok s log → attempts now kid s = true → spaced (mkAttempt now f net :: log).
Proof.
  intros [_ Hl _ Hs] Ha. destruct log as [|b log]; [done|]. split; [|done]. unfold attempts in Ha.
  destruct (cache_key kid); [|done]. destruct (cached _ _ _ _); [done|]. apply negb_true_iff in Ha.
  unfold limited in Ha. by rewrite Hl in Ha.
Qed.

Lemma refresh_ok net now f kid s log :
  life_ok s log → attempts now kid s = true → life_ok (refresh net now f s).2 (mkAttempt now f net :: log).
Proof.
  intros Hok Ha. pose proof (attempts_spaced now f net kid s log Hok Ha) as Hsp. destruct Hok as [Hc Hl Hd Hs].
  destruct (refresh_run net now f s log Hd) as (r & s' & -> & Hl' & Hd' & Hr). split; [|done|done|done].
  intros k Hk. cbn [latest at_fetched snd]. destruct (key_set _ log) as [l|].
  - destruct Hr as [_ ->]. rewrite collect_served by done. by destruct (served_key k l).
  - destruct Hr as [_ ->]. by apply Hc.
Qed.

Lemma key_for_kid_run net now fetched_at kid s r s' :
  key_for_kid net now fetched_at kid s = (r, s') →
  if attempts now kid s then s' = (refresh net now fetched_at s).2 else s' = s.
Proof.
  unfold Oidc.key_for_kid, attempts. rewrite run_bind. simpl. destruct (cache_key kid) as [k|]; [|by intros [= _ <-]].
  rewrite run_get. destruct (cached c now k s); [by intros [= _ <-]|]. rewrite run_bind. unfold ensure.
  destruct (limited c now s); simpl; [by intros [= _ <-]|]. rewrite run_bind.
  destruct (refresh net now fetched_at s) as [[u|x] s1]; simpl; [|by intros [= _ <-]].
  rewrite run_get. repeat case_match; by intros [= _ <-].
Qed.

Lemma life_invariant s log : life s log → life_ok s log.
Proof.
  induction 1 as [|s log net now f kid _ IH]; [by split|].
  destruct (key_for_kid net now f kid s) as [r s'] eqn:Hk. apply key_for_kid_run in Hk. simpl. unfold logged.
  destruct (attempts now kid s) eqn:Ha; subst s'; [by eapply refresh_ok|done].
Qed.

Lemma cache_key_ok kid k : cache_key kid = Ok k → kid_ok k = true.
Proof. destruct kid as [| | | |z| |]; simpl; try done; [by intros [= <-]|]. destruct (kid_ok z) eqn:Hz; [|done]. by intros [= <-]. Qed.

Lemma cache_key_error kid e : cache_key kid = Raise e → ∃ m, e = OidcError m.
Proof. destruct kid as [| | | |z| |]; simpl; try (by intros [= <-]; eexists). destruct (kid_ok z); [done|]. intros [= <-]. by eexists. Qed.

(** C36: A signing key is trusted only while its issuer serves it.  In every life
    of a verifier, whatever tokens it is shown and whatever the network answers,
    a key it resolves is the last usable key under the token's own [kid] (the
    default for a token without one) of the key set most recently served at the
    configured or discovered URL, so a key the issuer has removed or replaced is
    not resolved once a newer set was fetched; that set was fetched in this very
    call or less than the cache's TTL ago.  A call that fails raises
    [OidcError], and when it fetched a set, that set has no usable key under the
    [kid].  Two fetch attempts are never closer than the refresh interval,
    however many unknown key ids are presented. *)
Theorem resolved_key_current s log net now fetched_at kid r s' :
  life s log → key_for_kid net now fetched_at kid s = (r, s') →
  let log' := logged net now fetched_at kid s log in
  spaced log' ∧
  match r with
  | Ok x => ∃ k f l, cache_key kid = Ok k ∧ latest log' = Some (f, l) ∧ served_key k l = Some x ∧
              (if attempts now kid s then f = fetched_at ∧ key_set (mkAttempt now fetched_at net) log = Some l
               else fltb (fsub now f) (num_value (jwks_ttl c)) = true)
  | Raise e => (∃ m, e = OidcError m) ∧
      ∀ k l, cache_key kid = Ok k → attempts now kid s = true →
        key_set (mkAttempt now fetched_at net) log = Some l → served_key k l = None
  end.
Proof.
  intros Hlife Hk. apply life_invariant in Hlife as Hok. cbv zeta. unfold logged. split.
  { destruct (attempts now kid s) eqn:Ha; [by eapply attempts_spaced|apply Hok]. }
  revert Hk. unfold Oidc.key_for_kid, attempts. rewrite run_bind. simpl.
  destruct (cache_key kid) as [k|e] eqn:Hck; [|intros [= <- <-]; split; [by eapply cache_key_error|done]].
  pose proof (cache_key_ok _ _ Hck) as Hkok. rewrite run_get. destruct (cached c now k s) as [x|] eqn:Hca.
  - intros [= <- <-]. unfold cached in Hca. rewrite (lo_cache _ _ Hok k Hkok) in Hca.
    destruct (latest log) as [[f l]|] eqn:Hl; [|done]. destruct (served_key k l) as [y|] eqn:Hy; [|done]. simpl in Hca.
    destruct (fltb _ _) eqn:Hf; [|done]. injection Hca as <-. by exists k, f, l.
  - rewrite run_bind. unfold ensure. destruct (limited c now s); simpl; [intros [= <- <-]; split; [by eexists|done]|].
    rewrite run_bind.
    destruct (refresh_run net now fetched_at s log (lo_discovered _ _ Hok)) as (r1 & s1 & -> & _ & _ & Hr).
    destruct (key_set _ log) as [l|] eqn:Hset.
    + destruct Hr as [-> Hc]. rewrite run_get, Hc, collect_served by done.
      destruct (served_key k l) as [x|] eqn:Hx; intros [= <- <-]; [by exists k, fetched_at, l|].
      split; [by eexists|]. by intros k' l' [= <-] _ [= <-].
    + destruct Hr as [[m ->] _]. intros [= <- <-]. split; [by eexists|done].
Qed.
End spec.

(** ** An instance, by evaluation *)

Definition sample_oidc : OidcConfig :=
  mkOidc "https://idp" "agentbridge" None (Some "https://idp/keys") "role" "viewer" (PInt 900) (PInt 5) (PInt 5).

(** The issuer serves the keys [a] and [b], then replaces [a]. *)
Definition sample_loads (payload : string) : option json :=
  let jwk k n := JObj [("kid", JStr k); ("n", JInt n)] in
  if bool_decide (payload = "first") then Some (JObj [("keys", JArr [jwk "a" 7; jwk "b" 8])])
  else Some (JObj [("keys", JArr [jwk "b" 9])]).
Definition sample_key (jwk : json) : option Z :=
  match jwk with JObj m => match obj_get "n" JNull m with JInt n => Some n | _ => None end | _ => None end.

Notation sample_step s net now kid := (key_for_kid sample_loads sample_key sample_oidc (fun _ => Some net) (fl now) (fl (now + 1)) (JStr kid) s).
Definition sample_s1 : jwks Z := (sample_step empty_jwks "first" 10 "a").2.
Definition sample_log1 : list attempt := [mkAttempt (fl 10) (fl 11) (fun _ => Some "first")].

Lemma sample_life : life sample_loads sample_key sample_oidc sample_s1 sample_log1.
Proof.
  exact (life_call _ _ _ empty_jwks [] (fun _ => Some "first") (fl 10) (fl 11) (JStr "a") (life_start _ _ _)).
Qed.

(** Once another id made it fetch the newer set, the replaced key is gone. *)
Definition sample_s2 : jwks Z := (sample_step sample_s1 "second" 20 "z").2.

Lemma sample_life2 : life sample_loads sample_key sample_oidc sample_s2 (mkAttempt (fl 20) (fl 21) (fun _ => Some "second") :: sample_log1).
Proof.
  exact (life_call _ _ _ sample_s1 sample_log1 (fun _ => Some "second") (fl 20) (fl 21) (JStr "z") sample_life).
Qed.

Lemma resolved_key_current_witness :
  (∃ f l, latest sample_loads sample_oidc sample_log1 = Some (f, l) ∧ served_key sample_key "b" l = Some 8) ∧
  (∃ m, (sample_step sample_s2 "third" 22 "a").1 = Raise (OidcError m)).
Proof.
  split.
  - pose proof (resolved_key_current sample_loads sample_key sample_oidc sample_s1 sample_log1 (fun _ => Some "none") (fl 12) (fl 13)
      (JStr "b") (Ok 8) sample_s1 sample_life ltac:(vm_compute; reflexivity)) as (_ & k & f & l & Hk & Hl & Hx & _).
    injection Hk as <-. exists f, l. split; [|exact Hx]. rewrite <-Hl. f_equal.
  - pose proof (resolved_key_current sample_loads sample_key sample_oidc sample_s2 _ (fun _ => Some "third") (fl 22) (fl 23)
      (JStr "a") (Raise (OidcError "signing key unavailable; JWKS refresh temporarily rate limited")) sample_s2 sample_life2
      ltac:(vm_compute; reflexivity)) as (_ & [m Hm] & _).
    exists m. rewrite <-Hm. vm_compute. reflexivity.
Defined.
