(* ===== verification/TenantHttp.v ===== *)
(** * The tenant control plane

    [api/tenant_control_plane.py]: the request models, header and body checks,
    the two ways of authenticating, the endpoints over a tenant session and the
    mapping of exceptions to answers.  A request is its headers and body; what
    the clock, the generators and the destination contribute is one [moment].
    Starlette's routing, and the sending of a stream once opened, are not
    modelled ([StatusStream] models a stream's rounds). *)

From stdpp Require Import base list gmap strings.
From Stdlib Require Import ZArith Lia Ascii.
From S2P Require Import Prelude PyFloat Text Json Identity Authority Budget AuditLog Approvals PolicyRules DurablePolicy OperationLedger Quotas Policy Protocols Gateway AuditTrust StreamLeases TaskLifecycle TaskIntents QueuedDestination QueuedStore QueuedPreparation TenantKernel StatusStream.

#[local] Open Scope Z_scope.

(** ** Request models *)

(** [extra="forbid"]. *)
Definition only (allowed : list string) (m : list (string * json)) : bool :=
  forallb (fun k => bool_decide (k ∈ allowed)) m.*1.

Definition bounded_text (lo hi : Z) (j : json) : option string :=
  match j with JStr s => if between lo (strlen s) hi then Some s else None | _ => None end.

Definition bounded_int (lo hi : Z) (j : json) : option Z :=
  match j with JInt n => if between lo n hi then Some n else None | _ => None end.

Definition strict_bool (j : json) : option bool := match j with JBool b => Some b | _ => None end.

(** A strict [float] with [ge=0, allow_inf_nan=False]; an [int] is converted. *)
Definition nonneg_float (j : json) : option pynum :=
  let check f := if fisfinite f && fleb fzero f then Some (PFloat f) else None in
  match j with JFloat f => check f | JInt n => check (float_of_int n) | _ => None end.

Definition text_list (hi : Z) (j : json) : option (list string) :=
  match j with
  | JArr l => if Z.of_nat (length l) <=? hi then mapM (fun x => match x with JStr s => Some s | _ => None end) l else None
  | _ => None
  end.

(** A required member, and one with a default. *)
Definition member {A} (k : string) (f : json → option A) (m : list (string * json)) : option A :=
  j ← dict_get k m; f j.
Definition member_or {A} (k : string) (dflt : A) (f : json → option A) (m : list (string * json)) : option A :=
  match dict_get k m with Some j => f j | None => Some dflt end.

Definition model {A} (fields : list string) (f : list (string * json) → option A) (j : json) : option A :=
  match j with JObj m => if only fields m then f m else None | _ => None end.

Definition scope_is (scopes : list string) (m : list (string * json)) : option string :=
  member "request_scope" (fun j => match j with JStr s => if bool_decide (s ∈ scopes) then Some s else None | _ => None end) m.

Definition is_dict (j : json) : option unit := match j with JObj _ => Some tt | _ => None end.

Definition RouteBody : json → option unit :=
  model ["request_scope"; "src"; "dst"; "wire"; "operation_id"; "target_id"] (fun m =>
    _ ← scope_is ["route"] m;
    _ ← member "src" (bounded_text 1 32) m; _ ← member "dst" (bounded_text 1 32) m; _ ← member "wire" is_dict m;
    _ ← member "operation_id" (bounded_text 16 128) m;
    _ ← member_or "target_id" "" (fun j => match j with JNull => Some "" | _ => bounded_text 1 128 j end) m;
    Some tt).

Definition OperationBody : json → option string :=
  model ["request_scope"; "operation_id"] (fun m =>
    _ ← scope_is ["operation.read"] m; member "operation_id" (bounded_text 16 128) m).

Definition after_range : json → option Z := bounded_int (-1) (2 ^ 63 - 1).

Definition TaskBody : json → option (string * string * Z * Z) :=
  model ["request_scope"; "task_id"; "after_sequence"; "limit"] (fun m =>
    s ← scope_is ["task.read"; "task.events"] m;
    i ← member "task_id" (bounded_text 1 128) m;
    a ← member_or "after_sequence" (-1) after_range m;
    l ← member_or "limit" 100 (bounded_int 1 100) m;
    Some (s, i, a, l)).

Definition TaskStreamBody : json → option (string * Z) :=
  model ["request_scope"; "task_id"; "after_sequence"] (fun m =>
    _ ← scope_is ["task.stream"] m;
    i ← member "task_id" (bounded_text 1 128) m;
    a ← member_or "after_sequence" (-1) after_range m;
    Some (i, a)).

Definition TaskIntentBody : json → option string :=
  model ["request_scope"; "task_id"] (fun m =>
    _ ← scope_is ["task.intent.read"] m; member "task_id" (bounded_text 1 128) m).

(** [TaskSubmission] of task_intents.py: only that the body validates; the
    session parses it again. *)
Definition TaskSubmissionBody : json → option unit :=
  model ["request_scope"; "task_id"; "context_id"; "src"; "dst"; "wire"; "operation_id"; "target_id"] (fun m =>
    _ ← scope_is ["task.submit"] m;
    _ ← member "task_id" (bounded_text 1 128) m; _ ← member "context_id" (bounded_text 1 128) m;
    _ ← member "src" (bounded_text 1 32) m; _ ← member "dst" (bounded_text 1 32) m; _ ← member "wire" is_dict m;
    _ ← member "operation_id" (bounded_text 16 128) m; _ ← member "target_id" (bounded_text 1 128) m;
    Some tt).

Definition TaskIntentCapacityBody : json → option IntentLimits :=
  model ["max_intent_bytes"; "max_result_bytes"; "max_intents"; "max_retained_bytes"] (fun m =>
    a ← member "max_intent_bytes" (bounded_int 256 1048576) m;
    b ← member "max_result_bytes" (bounded_int 1 1048576) m;
    c ← member "max_intents" (bounded_int 1 1000000) m;
    d ← member "max_retained_bytes" (bounded_int 256 1073741824) m;
    Some (mkIntentLimits a b c d)).

Definition AgentBody : json → option (string * list string * list string) :=
  model ["public_key_hex"; "capabilities"; "targets"] (fun m =>
    k ← member "public_key_hex" (fun j => match j with
          | JStr s => if (strlen s =? 64) && str_forallb is_hex s then Some s else None | _ => None end) m;
    c ← member_or "capabilities" [] (text_list 128) m;
    t ← member_or "targets" [] (text_list 128) m;
    Some (k, c, t)).

Definition BudgetBody : json → option (pynum * Z * Z) :=
  model ["spend_limit"; "rate_limit"; "window_seconds"] (fun m =>
    s ← member "spend_limit" nonneg_float m;
    r ← member_or "rate_limit" 1000 (bounded_int 1 1000000) m;
    w ← member_or "window_seconds" 3600 (bounded_int 1 31536000) m;
    Some (s, r, w)).

Definition QuotaBody : json → option QuotaLimits :=
  model ["enabled"; "spend_limit"; "user_spend_limit"; "rate_limit"; "user_rate_limit"; "window_seconds"; "max_active";
         "user_max_active"; "max_records"] (fun m =>
    e ← member "enabled" strict_bool m;
    s ← member_or "spend_limit" (PFloat (fl 1000)) nonneg_float m;
    u ← member_or "user_spend_limit" (PFloat (fl 100)) nonneg_float m;
    r ← member_or "rate_limit" 10000 (bounded_int 1 1000000) m;
    v ← member_or "user_rate_limit" 1000 (bounded_int 1 1000000) m;
    w ← member_or "window_seconds" 3600 (bounded_int 1 31536000) m;
    a ← member_or "max_active" 128 (bounded_int 1 1000000) m;
    b ← member_or "user_max_active" 32 (bounded_int 1 1000000) m;
    x ← member_or "max_records" 100000 (bounded_int 1 10000000) m;
    Some (mkLimits e s u r v w a b x)).

Definition TaskHistoryCapacityBody : json → option Z :=
  model ["max_tasks"] (member "max_tasks" (bounded_int 1 1000000)).
Definition TaskEventCapacityBody : json → option Z :=
  model ["max_event_bytes"] (member "max_event_bytes" (bounded_int 4096 1073741824)).
Definition ApprovalBody : json → option bool := model ["granted"] (member "granted" strict_bool).
Definition HoldBody : json → option bool := model ["enabled"] (member "enabled" strict_bool).
Definition TenantBody : json → option bool := model ["active"] (member "active" strict_bool).

(** ** Requests *)

(** [headers.getlist(name)], and the body as received ([None] when its deadline
    passed). *)
Record tenant_request := mkTenantRequest { tr_headers : string → list string; tr_body : option string }.

Definition first_header (rq : tenant_request) (name dflt : string) : string := default dflt (head (tr_headers rq name)).

(** [_header]. *)
Definition header (rq : tenant_request) (name : string) (limit : Z) : outcome string :=
  match tr_headers rq name with
  | [v] => if negb (bool_decide (v = "")) && (strlen v <=? limit) then Ok v
           else Raise (HTTPException 401 "bounded unambiguous authentication headers required")
  | _ => Raise (HTTPException 401 "bounded unambiguous authentication headers required")
  end.

Definition optional_header (rq : tenant_request) (name : string) (limit : Z) : outcome (option string) :=
  match tr_headers rq name with [] => Ok None | _ => v ← header rq name limit; Ok (Some v) end.

(** What an endpoint returns. *)
Inductive payload :=
| Health
| Flag (name : string) (b : bool)
| Routed (j : json)
| OperationRow (r : op_row) (p : option Principal)
| TaskRow (t : TaskLifecycle)
| TaskRows (l : list TaskLifecycle)
| IntentRow (i : intent_row)
| Accepted (r : intent_row)
| Identities (m : gmap string identity_row)
| BudgetRow (b : row)
| QuotaRow (l : QuotaLimits) (u : usage)
| Capacity (n used : Z)
| EventCapacity (n used reserved : Z)
| IntentCapacity (l : IntentLimits) (n used : Z)
| Pending (l : list ApprovalRequest)
| Records (l : list AuditEntry)
| Export (text : string)
| StreamOpened (s : session) (i : string) (after : Z) (lease : StreamLease) (slot : nat).

Inductive reply :=
| Reply (status : Z) (p : payload)
| Refusal (status : Z) (detail : string) (approval : option (option string)).

(** The exception handlers, and FastAPI's own for [HTTPException]. *)
Definition refusal (e : pyexn) : reply :=
  match e with
  | HTTPException st d => Refusal st d None
  | AuthorityDenied _ | AccessDenied _ | LifecycleRejected _ | LifecycleCapacity _ =>
      Refusal 403 "resource or authority unavailable" None
  | GovernanceError _ a => Refusal 403 "governance denied" (Some a)
  | OperationConflict _ | TaskIntentConflict _ => Refusal 409 "operation conflict; reconcile before retry" None
  | TaskIntentCapacity _ => Refusal 429 "retained task intent capacity unavailable" None
  | StreamCapacity _ => Refusal 429 "shared stream allocation unavailable" None
  | SecurityConfigurationError _ => Refusal 403 "target execution is not qualified" None
  | TimeoutError _ => Refusal 504 "request deadline exceeded; inspect operation before retry" None
  | _ => if is_value_error e then Refusal 400 "invalid request" None else Refusal 500 "Internal Server Error" None
  end.

(** The routes: those of a signed agent request, those of an operator. *)
Inductive agent_endpoint := ERoute | EOperation | ETask | ESubmit | EIntent | EEvents | EStream.

Inductive operator_endpoint :=
| EIdentities | EEnroll (ag : string) | ERevoke (ag : string) | EBudget (ag : string) | ESetBudget (ag : string)
| EQuotas | ESetQuotas | EHistory | ESetHistory | EIntents | ESetIntents | EEventCap | ESetEventCap
| EApprovals | EApprove (request : string) | EAudit | EExport | EHold (name : string) | ETenant (t : string).

Inductive endpoint := EHealth | EAgent (a : agent_endpoint) | EOperator (o : operator_endpoint).

(** The service: the kernel's databases, this process's slots, the leases. *)
Record service := mkService { sv_kernel : kernel_state; sv_streams : streams; sv_leases : lease_db }.

#[global] Program Instance lens_kernel : Lens service kernel_state := {
  view := sv_kernel; update x s := mkService x (sv_streams s) (sv_leases s) }.
Solve All Obligations with by intros; try destruct s.
#[global] Program Instance lens_streams : Lens service streams := {
  view := sv_streams; update x s := mkService (sv_kernel s) x (sv_leases s) }.
Solve All Obligations with by intros; try destruct s.
#[global] Program Instance lens_leases : Lens service lease_db := {
  view := sv_leases; update x s := mkService (sv_kernel s) (sv_streams s) x }.
Solve All Obligations with by intros; try destruct s.

Section http.
Context `{AuditCodec} `{JsonText} `{Sha256} `{Ed25519} `{SealScheme} `{IntentCodec} `{QueuedCodec}.
Context (absolute : string → bool) (resolve_path : string → option string).
Context (float_repr : float64 → string) (owner_json : string → string → string → string → string).
Context (kc : kernel_config).
Context (verifiers : gmap string (string → outcome claims)).
Context (parse_float : string → option float64) (encode : string → string → option string → string → string → string).
(** [json.loads] that refuses duplicate members and non-finite constants. *)
Context (loads : string → option json).
Context (max_body : Z) (sl : StreamLimits) (fleet : FleetStreamLimits).

Notation SM := (M service).

(** What time, generators, the gateway and the destination contribute. *)
Record moment := mkMoment {
  mo_now : float64;
  mo_db_now : float64;
  mo_stamp : string;
  mo_gen : ids;
  mo_clock : nat → datetime;
  mo_env : env;
  mo_directory : directory;
  mo_invoke : option json → json → outcome json;
  mo_cancel : cancellation;
  mo_drawn : drawn * drawn * drawn;
  mo_lease : string;
}.

(** [_body]: the raw bytes and the validated model. *)
Definition body {A} (rq : tenant_request) (decode : json → option A) : outcome (string * A) :=
  _ ← guard_or (bool_decide (str_lower (split_on semicolon (first_header rq "content-type" "")).1 = "application/json"))
               (HTTPException 415 "application/json required");
  _ ← guard_or (bool_decide (str_lower (first_header rq "content-encoding" "identity") = "identity"))
               (HTTPException 415 "encoded request bodies prohibited");
  match tr_body rq with
  | None => Raise (HTTPException 408 "request body deadline exceeded")
  | Some raw =>
      if max_body <? strlen raw then Raise (HTTPException 413 "request body capacity exceeded")
      else match loads raw ≫= decode with
      | Some v => Ok (raw, v)
      | None => Raise (HTTPException 400 "invalid request body")
      end
  end.

Definition drop_text (n : nat) (s : string) : string := String.substring n (String.length s - n) s.

(** [operator]: the principal of the bearer token, for a tenant or the platform. *)
Definition operator_principal (mo : moment) (rq : tenant_request) (platform : bool) : SM Principal :=
  authorization ← lift (header rq "authorization" 16391);
  _ ← ensure (String.prefix "Bearer " authorization) (HTTPException 401 "operator bearer authentication required");
  iss ← lift (header rq "x-issuer" 2048);
  tenant ← lift (optional_header rq "x-tenant-id" 256);
  _ ← ensure (negb (platform && bool_decide (is_Some tenant))) (HTTPException 403 "explicit platform authentication required");
  zoom (T := kernel_state) (zoom (T := directory)
    (authenticate_operator (kc_key kc) verifiers (mo_now mo) iss (drop_text 7 authorization) tenant)).

Definition operator (mo : moment) (rq : tenant_request) : SM session :=
  p ← operator_principal mo rq false;
  resource ← lift (if bool_decide (kind p = "platform_admin") then optional_header rq "x-resource-tenant" 256 else Ok None);
  zoom (T := kernel_state) (open_session kc (mo_now mo) p resource).

Definition platform_operator (mo : moment) (rq : tenant_request) : SM Principal :=
  p ← operator_principal mo rq true;
  _ ← ensure (bool_decide (kind p = "platform_admin")) (AuthorityDenied "platform authority required");
  mret p.

(** [agent]: the principal of the signed request; its nonce is spent. *)
Definition agent {A} (mo : moment) (rq : tenant_request) (decode : json → option A) : SM (session * string * A * string) :=
  '(raw, v) ← lift (body rq decode);
  tenant ← lift (header rq "x-tenant-id" 256);
  ag ← lift (header rq "x-agent-id" 256);
  nonce ← lift (header rq "x-nonce" 256);
  signature ← lift (header rq "x-signature" 128);
  delegation ← lift (optional_header rq "x-delegation-id" 256);
  p ← zoom (T := kernel_state) (zoom (T := directory)
        (authenticate_agent (kc_key kc) parse_float encode (mo_now mo) tenant ag nonce raw signature delegation));
  s ← zoom (T := kernel_state) (open_session kc (mo_now mo) p None);
  mret (s, raw, v, nonce).

(** An operator's change: authentication, then the body, then the session. *)
Definition change_with {A} (mo : moment) (rq : tenant_request) (decode : json → option A) (flag : string)
    (act : session → A → M kernel_state bool) : SM payload :=
  s ← operator mo rq;
  '(_, v) ← lift (body rq decode);
  b ← zoom (T := kernel_state) (act s v);
  mret (Flag flag b).

Definition read_with {A} (mo : moment) (rq : tenant_request) (act : session → M kernel_state A) (f : A → payload) : SM payload :=
  s ← operator mo rq; a ← zoom (T := kernel_state) (act s); mret (f a).

Definition done {A} (m : M kernel_state A) : M kernel_state bool := _ ← m; mret true.

(** [stream] with [acquire_stream_lease]: the local slot is given back when no
    lease can be had. *)
Definition open_stream (mo : moment) (rq : tenant_request) : SM payload :=
  '(s, _, (i, after), _) ← agent mo rq TaskStreamBody;
  current ← zoom (T := kernel_state) (task kc (mo_now mo) s i);
  _ ← ensure (after <=? sequence current) (HTTPException 400 "future task cursor");
  _ ← ensure (accepts_stream parse_float (first_header rq "accept" "*/*")) (HTTPException 406 "text/event-stream must be accepted");
  owner ← lift (quota_owner owner_json (s_principal s));
  slot ← zoom (T := streams) (acquire sl owner);
  match slot with
  | None => raise (HTTPException 429 "local stream capacity reached")
  | Some n =>
      d ← gets (fun v => k_dir (sv_kernel v));
      lease ← catch (zoom (T := lease_db)
                       (acquire_lease owner_json fleet (kc_key kc) d (mo_now mo) (s_principal s) (mo_db_now mo) (mo_lease mo)))
                (fun e => Some (_ ← zoom (T := streams) (release n); raise e));
      mret (StreamOpened s i after lease n)
  end.

(** ** Endpoints *)

Definition agent_handler (mo : moment) (rq : tenant_request) (ep : agent_endpoint) : SM payload :=
  let now := mo_now mo in
  match ep with
  | ERoute =>
      '(s, raw, _, nonce) ← agent mo rq RouteBody;
      let '(x0, x, x') := mo_drawn mo in
      j ← zoom (T := kernel_state) (route float_repr owner_json kc now (mo_env mo) (mo_directory mo) (mo_gen mo) s raw nonce
                                      (mo_invoke mo) (mo_cancel mo) x0 x x');
      mret (Routed j)
  | EOperation =>
      '(s, _, op, _) ← agent mo rq OperationBody;
      '(r, p) ← zoom (T := kernel_state) (operation kc now s (default "" (p_agent_id (s_principal s))) op);
      mret (OperationRow r p)
  | ETask =>
      '(s, _, v, _) ← agent mo rq TaskBody;
      let '(scope, i, _, _) := v in
      _ ← ensure (bool_decide (scope = "task.read")) (HTTPException 400 "request scope mismatch");
      t ← zoom (T := kernel_state) (task kc now s i);
      mret (TaskRow t)
  | ESubmit =>
      '(s, raw, _, nonce) ← agent mo rq TaskSubmissionBody;
      r ← zoom (T := kernel_state) (submit_task absolute resolve_path float_repr kc now (mo_db_now mo) (mo_stamp mo) (mo_gen mo)
                                      (mo_clock mo) s raw nonce);
      mret (Accepted r)
  | EIntent =>
      '(s, _, i, _) ← agent mo rq TaskIntentBody;
      r ← zoom (T := kernel_state) (task_intent kc now s i);
      mret (IntentRow r)
  | EEvents =>
      '(s, _, v, _) ← agent mo rq TaskBody;
      let '(scope, i, after, limit) := v in
      _ ← ensure (bool_decide (scope = "task.events")) (HTTPException 400 "request scope mismatch");
      l ← zoom (T := kernel_state) (TenantKernel.task_events kc now s i after limit);
      mret (TaskRows l)
  | EStream => open_stream mo rq
  end.

Definition operator_handler (mo : moment) (rq : tenant_request) (ep : operator_endpoint) : SM payload :=
  let now := mo_now mo in let stamp := mo_stamp mo in
  match ep with
  | EIdentities => read_with mo rq (list_identities kc now) Identities
  | EEnroll ag => change_with mo rq AgentBody "enrolled"
                    (fun s '(key, caps, tgts) => done (enroll_agent kc now stamp s ag key caps tgts))
  | ERevoke ag =>
      s ← operator mo rq;
      _ ← zoom (T := kernel_state) (revoke_agent kc now stamp s ag);
      mret (Flag "revoked" true)
  | EBudget ag => read_with mo rq (fun s => get_budget kc now s ag) BudgetRow
  | ESetBudget ag => change_with mo rq BudgetBody "updated"
                       (fun s '(limit, rate, window) => done (set_budget kc now stamp s ag limit rate window))
  | EQuotas => read_with mo rq (get_quotas kc now) (fun '(l, u) => QuotaRow l u)
  | ESetQuotas => change_with mo rq QuotaBody "updated" (fun s l => done (set_quotas kc now stamp s l))
  | EHistory => read_with mo rq (task_history_capacity kc now) (fun '(n, u) => Capacity n u)
  | ESetHistory => change_with mo rq TaskHistoryCapacityBody "updated" (fun s n => done (set_task_history_capacity kc now stamp s n))
  | EIntents => read_with mo rq (task_intent_capacity kc now) (fun '(l, n, u) => IntentCapacity l n u)
  | ESetIntents => change_with mo rq TaskIntentCapacityBody "updated" (fun s l => done (set_task_intent_capacity kc now stamp s l))
  | EEventCap => read_with mo rq (task_event_capacity kc now) (fun '(n, u, r) => EventCapacity n u r)
  | ESetEventCap => change_with mo rq TaskEventCapacityBody "updated" (fun s n => done (set_task_event_capacity kc now stamp s n))
  | EApprovals => read_with mo rq (pending_approvals kc now) Pending
  | EApprove i => change_with mo rq ApprovalBody "updated" (fun s granted => approve kc now stamp s i granted)
  | EAudit => read_with mo rq (audit_records kc now) Records
  | EExport => read_with mo rq (export_audit kc now) Export
  | EHold name => change_with mo rq HoldBody "updated" (fun s on => done (set_legal_hold kc now stamp s name on))
  | ETenant t =>
      p ← platform_operator mo rq;
      '(_, active) ← lift (body rq TenantBody);
      _ ← zoom (T := kernel_state) (zoom (T := directory) (set_tenant (kc_key kc) now p t active));
      mret (Flag "updated" true)
  end.

Definition handler (mo : moment) (rq : tenant_request) (ep : endpoint) : SM payload :=
  match ep with
  | EHealth => mret Health
  | EAgent a => agent_handler mo rq a
  | EOperator o => operator_handler mo rq o
  end.

Definition success_status (ep : endpoint) : Z := match ep with EAgent ESubmit => 202 | _ => 200 end.

(** A request through [mode_boundary], its endpoint and the exception handlers. *)
Definition serve (mo : moment) (rq : tenant_request) (ep : endpoint) (s : service) : reply * service :=
  if bool_decide (mode_text (mo_env mo) = "multi_tenant") then
    match handler mo rq ep s with
    | (Ok p, s') => (Reply (success_status ep) p, s')
    | (Raise e, s') => (refusal e, s')
    end
  else (Refusal 503 "authority mode changed; restart required" None, s).
End http.
