(* ===== verification/TenantHttpSpec.v ===== *)
(** * What a request to the tenant control plane can do

    Every request, whatever its headers and body, either changes nothing, or is
    one call of the session of the operator its bearer token names, or acts in
    the tenant of the agent that signed it, or is a platform administrator's;
    and a change that is answered as made is the one the endpoint and the body
    name, is in force in the store, and is on the tenant's audit chain. *)

From stdpp Require Import base list gmap sets strings.
From Stdlib Require Import ZArith Lia Ascii.
From S2P Require Import Prelude PyFloat Text Json Identity Authority AuthoritySpec Budget AuditLog AuditSpec Approvals PolicyRules DurablePolicy OperationLedger Quotas Policy Protocols Gateway AuditTrust StreamLeases TaskLifecycle TaskIntents QueuedDestination QueuedStore QueuedPreparation TenantKernel TenantSpec StatusStream TenantHttp.

#[local] Open Scope Z_scope.

Section spec.
Context `{AuditCodec} `{JsonText} `{Sha256} `{Ed25519} `{SealScheme} `{IntentCodec} `{QueuedCodec}.
Context (absolute : string → bool) (resolve_path : string → option string).
Context (float_repr : float64 → string) (owner_json : string → string → string → string → string).
Context (kc : kernel_config).
Context (verifiers : gmap string (string → outcome claims)).
Context (parse_float : string → option float64) (encode : string → string → option string → string → string → string).
Context (loads : string → option json).
Context (max_body : Z) (sl : StreamLimits) (fleet : FleetStreamLimits).
Implicit Types (sv : service) (mo : moment) (rq : tenant_request) (k : kernel_state).

#[local] Notation operator_principal := (operator_principal kc verifiers).
#[local] Notation operator := (operator kc verifiers).
#[local] Notation body := (body loads max_body).
#[local] Notation agent := (agent kc parse_float encode loads max_body).
#[local] Notation change_with := (change_with kc verifiers loads max_body).
#[local] Notation read_with := (read_with kc verifiers).
#[local] Notation open_stream := (open_stream owner_json kc parse_float encode loads max_body sl fleet).
#[local] Notation agent_handler := (agent_handler absolute resolve_path float_repr owner_json kc parse_float encode loads max_body sl fleet).
#[local] Notation operator_handler := (operator_handler kc verifiers loads max_body).
#[local] Notation serve := (serve absolute resolve_path float_repr owner_json kc verifiers parse_float encode loads max_body sl fleet).
#[local] Notation perform := (perform absolute resolve_path float_repr kc).

(** ** Authentication *)

Lemma authenticate_operator_reads now iss token t : reads (authenticate_operator (kc_key kc) verifiers now iss token t).
Proof.
  unfold authenticate_operator. apply reads_bind; [apply reads_get|intros d].
  destruct (verifiers !! iss); [|apply reads_raise]. apply reads_bind; [apply reads_ensure|intros _].
  apply reads_bind; [apply reads_lift|intros [sub ex]].
  destruct t; repeat (apply reads_bind; [apply reads_lift|intros ?]); apply reads_mret.
Qed.

Lemma operator_principal_reads mo rq b : reads (operator_principal mo rq b).
Proof.
  unfold TenantHttp.operator_principal. apply reads_bind; [apply reads_lift|intros a].
  apply reads_bind; [apply reads_ensure|intros _]. do 2 (apply reads_bind; [apply reads_lift|intros ?]).
  apply reads_bind; [apply reads_ensure|intros _]. apply zoom_reads, zoom_reads, authenticate_operator_reads.
Qed.

Lemma open_session_reads now p t : reads (open_session kc now p t).
Proof. unfold open_session. apply reads_bind; [apply resolve_reads|intros x; apply reads_mret]. Qed.

Lemma operator_reads mo rq : reads (operator mo rq).
Proof.
  unfold TenantHttp.operator. apply reads_bind; [apply operator_principal_reads|intros p].
  apply reads_bind; [apply reads_lift|intros r]. apply zoom_reads, open_session_reads.
Qed.

(** The principal a bearer token stands for, and the session it opens. *)
Definition bearer mo rq k (p : Principal) : Prop :=
  ∃ a iss tenant, header rq "authorization" 16391 = Ok a ∧ String.prefix "Bearer " a = true ∧
    (authenticate_operator (kc_key kc) verifiers (mo_now mo) iss (drop_text 7 a) tenant (k_dir k)).1 = Ok p.

Definition operator_session mo rq k (s : session) : Prop :=
  bearer mo rq k (s_principal s) ∧ ∃ resource, (open_session kc (mo_now mo) (s_principal s) resource k).1 = Ok s.

(** The principal of a signed agent request, its tenant, and the directory with
    the request's nonce spent. *)
Definition signed mo rq k (t : string) (p : Principal) (d : directory) : Prop :=
  ∃ ag nonce raw signature delegation, tr_body rq = Some raw ∧ header rq "x-tenant-id" 256 = Ok t ∧
    header rq "x-agent-id" 256 = Ok ag ∧ header rq "x-nonce" 256 = Ok nonce ∧
    authenticate_agent (kc_key kc) parse_float encode (mo_now mo) t ag nonce raw signature delegation (k_dir k) = (Ok p, d).

Lemma zoom_run2 {A} (m : M directory A) sv :
  zoom (T := kernel_state) (zoom (T := directory) m) sv =
    let '(r, d) := m (k_dir (sv_kernel sv)) in (r, mkService (mkKernel d (k_tenants (sv_kernel sv))) (sv_streams sv) (sv_leases sv)).
Proof. unfold zoom. simpl. by destruct (m _). Qed.

Lemma operator_principal_Ok mo rq b sv p sv' : operator_principal mo rq b sv = (Ok p, sv') → sv' = sv ∧ bearer mo rq (sv_kernel sv) p.
Proof.
  intros Ho. pose proof (operator_principal_reads mo rq b sv) as Hr. rewrite Ho in Hr. simpl in Hr. subst sv'. split; [done|].
  unfold TenantHttp.operator_principal in Ho. mstep Ho. apply lift_Ok_inv in Hm as [Ha ->]. mstep Ho. apply ensure_Ok_inv in Hm as [Hp ->].
  mstep Ho. apply lift_Ok_inv in Hm as [_ ->]. mstep Ho. apply lift_Ok_inv in Hm as [_ ->]. mstep Ho. apply ensure_Ok_inv in Hm as [_ ->].
  rewrite zoom_run2 in Ho. destruct (authenticate_operator _ _ _ _ _ _ _) as [r d] eqn:Hau. injection Ho as -> _.
  eexists _, _, _. split_and!; [done|done|]. by rewrite Hau.
Qed.

Lemma operator_Ok mo rq sv s sv' : operator mo rq sv = (Ok s, sv') → sv' = sv ∧ operator_session mo rq (sv_kernel sv) s.
Proof.
  unfold TenantHttp.operator. intros Ho. mstep Ho. apply operator_principal_Ok in Hm as [-> Hb].
  mstep Ho. apply lift_Ok_inv in Hm as [_ ->]. unfold zoom in Ho. simpl in Ho.
  pose proof (open_session_reads (mo_now mo) a a0 (sv_kernel sv)) as Hr.
  destruct (open_session kc (mo_now mo) a a0 (sv_kernel sv)) as [r k'] eqn:Hs. simpl in Hr. subst k'. injection Ho as -> <-.
  assert (s_principal s = a) as E.
  { unfold open_session in Hs. mstep Hs. apply mret_Ok_inv in Hs as [-> _]. done. }
  split; [by destruct sv|]. split; [by rewrite E|]. exists a0. by rewrite E, Hs.
Qed.

(** ** What an endpoint changes *)

Inductive effect mo rq k : kernel_state → Prop :=
| no_effect : effect mo rq k k
| operator_effect s c :
    operator_session mo rq k s → confined_to (s_tenant s) k (perform (mo_now mo) s c k).2 →
    ((perform (mo_now mo) s c k).2 ≠ k → permitted (s_principal s) (call_permission c)) →
    effect mo rq k (perform (mo_now mo) s c k).2
| agent_effect t p d k' :
    signed mo rq k t p d → confined_to t (mkKernel d (k_tenants k)) k' → effect mo rq k k'
| platform_effect t active p :
    bearer mo rq k p → kind p = "platform_admin" →
    effect mo rq k (mkKernel (set_tenant (kc_key kc) (mo_now mo) p t active (k_dir k)).2 (k_tenants k)).

Lemma performs mo rq k s c : operator_session mo rq k s → (∀ db st gen cl b n, c ≠ Submit db st gen cl b n) →
  effect mo rq k (perform (mo_now mo) s c k).2.
Proof.
  intros Hs Hc. apply operator_effect; [done|..]; destruct c as [stamp c|r|]; try (exfalso; by eapply Hc); simpl.
  - apply make_change_confined.
  - apply make_reading_confined.
  - by intros [_ Hp]%make_change_effect.
  - by intros [_ Hp]%make_reading_effect.
Qed.

(** A request's body as the endpoint's model reads it. *)
Definition posted {A} rq (decode : json → option A) : option A :=
  tr_body rq ≫= (fun raw => loads raw ≫= decode).

Lemma body_posted {A} rq (decode : json → option A) raw v : body rq decode = Ok (raw, v) → posted rq decode = Some v.
Proof.
  unfold TenantHttp.body, posted. intros Hb. do 2 (apply outcome_bind_Ok in Hb as (? & _ & Hb)).
  destruct (tr_body rq) as [text|]; [|done]. destruct (max_body <? _); [done|]. simpl.
  destruct (loads text ≫= decode) as [w|] eqn:Hd; [|done]. by injection Hb as _ <-.
Qed.

Lemma change_with_run {A} mo rq (decode : json → option A) flag act sv :
  ((change_with mo rq decode flag act sv).2 = sv ∧ ∃ e, (change_with mo rq decode flag act sv).1 = Raise e) ∨
  ∃ s v, operator_session mo rq (sv_kernel sv) s ∧ posted rq decode = Some v ∧
    change_with mo rq decode flag act sv =
      (match (act s v (sv_kernel sv)).1 with Ok b => Ok (Flag flag b) | Raise e => Raise e end,
       update (act s v (sv_kernel sv)).2 sv).
Proof.
  unfold TenantHttp.change_with. rewrite run_bind. pose proof (operator_reads mo rq sv) as Hr.
  destruct (operator mo rq sv) as [[s|e] sv1] eqn:Ho; simpl in Hr; subst sv1; [|left; eauto].
  apply operator_Ok in Ho as [_ Ho]. rewrite run_bind. simpl. destruct (body rq decode) as [[raw v]|e] eqn:Hb; [|left; eauto].
  right. exists s, v. split; [done|]. split; [by eapply body_posted|]. rewrite run_bind. unfold zoom. simpl. by destruct (act s v (sv_kernel sv)) as [[b|e] k'].
Qed.

Lemma read_with_run {A} mo rq (act : session → M kernel_state A) f sv :
  (read_with mo rq act f sv).2 = sv ∨
  ∃ s, operator_session mo rq (sv_kernel sv) s ∧ (read_with mo rq act f sv).2 = update (act s (sv_kernel sv)).2 sv.
Proof.
  unfold TenantHttp.read_with. rewrite run_bind. pose proof (operator_reads mo rq sv) as Hr.
  destruct (operator mo rq sv) as [[s|e] sv1] eqn:Ho; simpl in Hr; subst sv1; [|by left].
  apply operator_Ok in Ho as [_ Ho]. right. exists s. split; [done|]. rewrite run_bind. unfold zoom. simpl.
  by destruct (act s (sv_kernel sv)) as [[b|e] k'].
Qed.

Lemma operator_handler_effect mo rq ep sv :
  effect mo rq (sv_kernel sv) (sv_kernel (operator_handler mo rq ep sv).2).
Proof.
  assert (∀ A (act : session → M kernel_state A) f r, (∀ s, make_reading kc (mo_now mo) s r = done_ (act s)) →
            effect mo rq (sv_kernel sv) (sv_kernel (read_with mo rq act f sv).2)) as Hread.
  { intros A act f r Hr. destruct (read_with_run mo rq act f sv) as [->|(s & Hs & ->)]; [apply no_effect|]. simpl.
    pose proof (performs mo rq _ s (Reading r) Hs ltac:(done)) as He. simpl in He. by rewrite Hr, done_state in He. }
  assert (∀ A (decode : json → option A) flag act (c : A → change), (∀ s v, act s v = make_change kc (mo_now mo) (mo_stamp mo) s (c v)) →
            effect mo rq (sv_kernel sv) (sv_kernel (change_with mo rq decode flag act sv).2)) as Hchange.
  { intros A decode flag act c Hc. destruct (change_with_run mo rq decode flag act sv) as [[-> _]|(s & v & Hs & _ & ->)]; [apply no_effect|].
    simpl. rewrite Hc. by apply (performs mo rq _ s (Change (mo_stamp mo) (c v))). }
  destruct ep as [ |ag|ag|ag|ag| | | | | | | | | |i| | |name|t]; simpl.
  - by apply (Hread _ _ _ RdIdentities).
  - by apply (Hchange _ _ _ _ (fun '(key, caps, tgts) => ChEnroll ag key caps tgts)); intros s [[]].
  - rewrite run_bind. pose proof (operator_reads mo rq sv) as Hr.
    destruct (operator mo rq sv) as [[s|e] sv1] eqn:Ho; simpl in Hr; subst sv1; [|apply no_effect].
    apply operator_Ok in Ho as [_ Ho]. rewrite run_bind. unfold zoom. simpl.
    pose proof (performs mo rq _ s (Change (mo_stamp mo) (ChRevoke ag)) Ho ltac:(done)) as He. simpl in He. rewrite done_state in He.
    by destruct (revoke_agent _ _ _ _ _ _) as [[]].
  - by apply (Hread _ _ _ (RdBudget ag)).
  - by apply (Hchange _ _ _ _ (fun '(limit, rate, window) => ChBudget ag limit rate window)); intros s [[]].
  - by apply (Hread _ _ _ RdQuotas).
  - by apply (Hchange _ _ _ _ ChQuotas).
  - by apply (Hread _ _ _ RdHistory).
  - by apply (Hchange _ _ _ _ ChHistory).
  - by apply (Hread _ _ _ RdIntents).
  - by apply (Hchange _ _ _ _ ChIntents).
  - by apply (Hread _ _ _ RdEvents).
  - by apply (Hchange _ _ _ _ ChEvents).
  - by apply (Hread _ _ _ RdApprovals).
  - by apply (Hchange _ _ _ _ (ChApprove i)).
  - by apply (Hread _ _ _ RdAudit).
  - by apply (Hread _ _ _ RdExport).
  - by apply (Hchange _ _ _ _ (ChHold name)).
  - unfold platform_operator. rewrite run_bind, run_bind. pose proof (operator_principal_reads mo rq true sv) as Hr.
    destruct (operator_principal mo rq true sv) as [[p|e] sv1] eqn:Ho; simpl in Hr; subst sv1; [|apply no_effect].
    apply operator_principal_Ok in Ho as [_ Ho]. rewrite run_bind. unfold ensure. case_bool_decide as Hk; simpl; [|apply no_effect].
    rewrite run_bind. simpl. destruct (body rq TenantBody) as [[raw active]|e]; [|apply no_effect]. rewrite run_bind, zoom_run2.
    pose proof (platform_effect mo rq (sv_kernel sv) t active p Ho Hk) as He.
    by destruct (set_tenant _ _ _ _ _ _) as [[]].
Qed.

(** *** Signed requests *)

Lemma authenticate_agent_tenant now t ag nonce raw signature delegation d p d' :
  authenticate_agent (kc_key kc) parse_float encode now t ag nonce raw signature delegation d = (Ok p, d') →
  tenant_id p = Some t ∧ kind p ≠ "platform_admin".
Proof.
  unfold authenticate_agent. intros Ha. mstep Ha. destruct a as [data st]. apply (proj1 (atomic_Ok _ _ _ _)) in Ha.
  repeat (mstep Ha). apply mret_Ok_inv in Ha as [-> _]. unfold agent_principal. repeat case_match; done.
Qed.

Lemma resolve_own now p k t k' :
  kind p ≠ "platform_admin" → resolve kc now p None k = (Ok t, k') → tenant_id p = Some t.
Proof.
  intros Hk Hr. unfold resolve in Hr. rewrite run_get in Hr. mstep Hr. apply lift_Ok_inv in Hm as [_ ->].
  rewrite bool_decide_false in Hr by done. mstep Hr. apply lift_Ok_inv in Hm as [[= <-] ->].
  destruct (tenant_id p) as [t'|]; [|done]. simpl in Hr. destruct (kc_tenants kc !! t'); [|done]. simpl in Hr.
  mstep Hr. by apply mret_Ok_inv in Hr as [-> _].
Qed.

(** Authentication of an agent: nothing, or the spent nonce and its session. *)
Lemma agent_run {A} mo rq (decode : json → option A) sv :
  ((agent mo rq decode sv).2 = sv ∧ ∃ e, (agent mo rq decode sv).1 = Raise e) ∨
  ∃ t p d, signed mo rq (sv_kernel sv) t p d ∧
    (agent mo rq decode sv).2 = update (mkKernel d (k_tenants (sv_kernel sv))) sv ∧
    ∀ s raw v nonce, (agent mo rq decode sv).1 = Ok (s, raw, v, nonce) → s_tenant s = t ∧ s_principal s = p.
Proof.
  unfold TenantHttp.agent. rewrite run_bind. simpl. destruct (body rq decode) as [[raw v]|e] eqn:Hb; [|left; eauto].
  rewrite run_bind. simpl. destruct (header rq "x-tenant-id" 256) as [t|e] eqn:Ht; [|left; eauto].
  rewrite run_bind. simpl. destruct (header rq "x-agent-id" 256) as [ag|e] eqn:Hag; [|left; eauto].
  rewrite run_bind. simpl. destruct (header rq "x-nonce" 256) as [nonce|e] eqn:Hn; [|left; eauto].
  rewrite run_bind. simpl. destruct (header rq "x-signature" 128) as [sg|e]; [|left; eauto].
  rewrite run_bind. simpl. destruct (optional_header rq "x-delegation-id" 256) as [del|e]; [|left; eauto].
  rewrite run_bind, zoom_run2.
  destruct (authenticate_agent _ _ _ _ _ _ _ _ _ _ _) as [[p|e] d] eqn:Ha.
  2: { left. assert (d = k_dir (sv_kernel sv)) as ->.
       { revert Ha. unfold authenticate_agent. rewrite run_bind. simpl. destruct (signed_request _ _ _ _ _ _ _ _ _) as [[data st]|]; [|by intros [= _ <-]].
         intros Hx. by apply atomic_Raise in Hx. }
       simpl. split; [by destruct sv as [[] ? ?]|eauto]. }
  right. exists t, p, d. split.
  { exists ag, nonce, raw, sg, del. split_and!; try done. unfold TenantHttp.body in Hb.
    do 2 (apply outcome_bind_Ok in Hb as (? & _ & Hb)). destruct (tr_body rq); [|done]. destruct (max_body <? _); [done|].
    destruct (_ ≫= decode); [|done]. by injection Hb as -> _. }
  destruct (authenticate_agent_tenant _ _ _ _ _ _ _ _ _ _ Ha) as [Hpt Hpk].
  rewrite run_bind. unfold zoom. simpl. set (k1 := mkKernel d (k_tenants (sv_kernel sv))).
  pose proof (open_session_reads (mo_now mo) p None k1) as Hr.
  destruct (open_session kc (mo_now mo) p None k1) as [[s|e] k2] eqn:Hs; simpl in Hr; subst k2; simpl; (split; [done|]); [|done].
  intros s' raw' v' nonce' [= <- _ _ _]. unfold open_session in Hs. mstep Hs. apply mret_Ok_inv in Hs as [-> _]. simpl.
  apply resolve_own in Hm; [|done]. split; [congruence|done].
Qed.

(** A step of the service that only touches one tenant's part of the kernel. *)
Definition stays {A} (t : string) (m : M service A) : Prop := ∀ sv, confined_to t (sv_kernel sv) (sv_kernel (m sv).2).

Lemma stays_reads {A} t (m : M service A) : reads m → stays t m.
Proof. intros Hm sv. rewrite Hm. by split. Qed.
Lemma stays_bind {A B} t (m : M service A) (f : A → M service B) : stays t m → (∀ a, stays t (f a)) → stays t (m ≫= f).
Proof.
  intros Hm Hf sv. rewrite run_bind. specialize (Hm sv). destruct (m sv) as [[a|e] sv1]; simpl in *; [|done].
  specialize (Hf a sv1). destruct Hm as [Hd1 Ht1], Hf as [Hd2 Ht2]. split; [by eapply near_trans|].
  intros t' Hne. by rewrite Ht2, Ht1.
Qed.
Lemma stays_zoom {A} t (m : M kernel_state A) : confined t m → stays t (zoom (T := kernel_state) m).
Proof. intros Hm sv. unfold zoom. simpl. specialize (Hm (sv_kernel sv)). by destruct (m (sv_kernel sv)) as [r k']. Qed.
Lemma stays_streams {A} t (m : M streams A) : stays t (zoom (T := streams) m).
Proof. intros sv. unfold zoom. simpl. destruct (m (sv_streams sv)) as [r x]. by split. Qed.
Lemma stays_leases {A} t (m : M lease_db A) : stays t (zoom (T := lease_db) m).
Proof. intros sv. unfold zoom. simpl. destruct (m (sv_leases sv)) as [r x]. by split. Qed.
Lemma stays_catch {A} t (m : M service A) h : stays t m → (∀ e g, h e = Some g → stays t g) → stays t (catch m h).
Proof.
  intros Hm Hh sv. unfold catch. specialize (Hm sv). destruct (m sv) as [[a|e] sv1]; simpl in *; [done|].
  destruct (h e) as [g|] eqn:Hg; [|done]. specialize (Hh _ _ Hg sv1). destruct Hm as [Hd1 Ht1], Hh as [Hd2 Ht2].
  split; [by eapply near_trans|]. intros t' Hne. by rewrite Ht2, Ht1.
Qed.

Lemma agent_then {A B} mo rq (decode : json → option A) (f : session * string * A * string → M service B) sv :
  (∀ s raw v nonce, stays (s_tenant s) (f (s, raw, v, nonce))) →
  effect mo rq (sv_kernel sv) (sv_kernel ((agent mo rq decode ≫= f) sv).2).
Proof.
  intros Hf. rewrite run_bind. destruct (agent_run mo rq decode sv) as [[Hx1 [e Hx2]]|(t & p & d & Hs & Hx1 & Hx2)].
  - destruct (agent mo rq decode sv) as [r sv1]. simpl in *. subst. apply no_effect.
  - destruct (agent mo rq decode sv) as [[[[[s raw] v] nonce]|e] sv1]; simpl in *; subst sv1.
    + destruct (Hx2 _ _ _ _ eq_refl) as [<- <-]. eapply agent_effect; [done|].
      exact (Hf s raw v nonce (mkService (mkKernel d (k_tenants (sv_kernel sv))) (sv_streams sv) (sv_leases sv))).
    + eapply agent_effect; [done|]. by split.
Qed.

Lemma route_confined now e d gen s raw nonce invoke cn x0 x x' :
  confined (s_tenant s) (route float_repr owner_json kc now e d gen s raw nonce invoke cn x0 x x').
Proof.
  unfold route. apply confined_bind; [apply confined_reads, runtime_reads|intros _].
  apply confined_bind; [apply confined_reads, reads_get|intros k].
  do 2 (apply confined_bind; [apply confined_reads, reads_lift|intros ?]).
  apply confined_bind; [apply confined_reads, reads_lift|intros [dst capab]].
  do 6 (apply confined_bind; [apply confined_reads, reads_lift|intros ?]). apply confined_in_tenant.
Qed.

Lemma agent_handler_effect mo rq ep sv :
  effect mo rq (sv_kernel sv) (sv_kernel (agent_handler mo rq ep sv).2).
Proof.
  assert (∀ s r, confined (s_tenant s) (make_reading kc (mo_now mo) s r)) as Hread by (intros; apply make_reading_confined).
  assert (∀ A s (m : M kernel_state A) r, make_reading kc (mo_now mo) s r = done_ m → confined (s_tenant s) m) as Hr.
  { intros A s m r E k. specialize (Hread s r k). by rewrite E, done_state in Hread. }
  destruct ep; simpl; [..|unfold TenantHttp.open_stream]; apply agent_then; intros s raw v nonce; cbn beta iota.
  - destruct (mo_drawn mo) as [[x0 x] x']. apply stays_bind; [apply stays_zoom, route_confined|intros j]. apply stays_reads, reads_mret.
  - apply stays_bind; [by eapply stays_zoom, (Hr _ _ _ (RdOperation _ _))|intros [? ?]]. apply stays_reads, reads_mret.
  - destruct v as [[[scope i] after] limit]. apply stays_bind; [apply stays_reads, reads_ensure|intros _].
    apply stays_bind; [by eapply stays_zoom, (Hr _ _ _ (RdTask _))|intros ?]. apply stays_reads, reads_mret.
  - apply stays_bind; [apply stays_zoom, submit_confined|intros ?]. apply stays_reads, reads_mret.
  - apply stays_bind; [by eapply stays_zoom, (Hr _ _ _ (RdIntent _))|intros ?]. apply stays_reads, reads_mret.
  - destruct v as [[[scope i] after] limit]. apply stays_bind; [apply stays_reads, reads_ensure|intros _].
    apply stays_bind; [by eapply stays_zoom, (Hr _ _ _ (RdTaskEvents _ _ _))|intros ?]. apply stays_reads, reads_mret.
  - destruct v as [i after]. apply stays_bind; [by eapply stays_zoom, (Hr _ _ _ (RdTask _))|intros t].
    do 2 (apply stays_bind; [apply stays_reads, reads_ensure|intros _]).
    apply stays_bind; [apply stays_reads, reads_lift|intros o]. apply stays_bind; [apply stays_streams|intros [n|]].
    2: apply stays_reads, reads_raise.
    apply stays_bind; [apply stays_reads, reads_gets|intros d]. apply stays_bind; [|intros l; apply stays_reads, reads_mret].
    apply stays_catch; [apply stays_leases|]. intros x g [= <-].
    apply stays_bind; [apply stays_streams|intros _; apply stays_reads, reads_raise].
Qed.

(** C6: What any request can do.  Whatever its headers and body, a request to the
    tenant control plane changes nothing; or performs exactly one call of the
    session of the operator its single bearer token authenticates, which touches
    no other tenant and, if it changed anything, had the permission of the call;
    or acts, under the signature of an enrolled agent over this very body and
    with the request's nonce spent, in that agent's tenant only; or activates or
    suspends a tenant as a platform administrator. *)
Theorem request_confined mo rq ep sv : effect mo rq (sv_kernel sv) (sv_kernel (serve mo rq ep sv).2).
Proof.
  unfold TenantHttp.serve. case_bool_decide; [|apply no_effect].
  destruct (handler _ _ _ _ _ _ _ _ _ _ _ _ _ _ _ sv) as [r sv'] eqn:Hh.
  assert (effect mo rq (sv_kernel sv) (sv_kernel sv')) as He; [|by destruct r].
  replace sv' with (sv', tt).1 by done. destruct ep as [|a|o]; simpl in Hh.
  - injection Hh as _ <-. apply no_effect.
  - pose proof (agent_handler_effect mo rq a sv) as He. by rewrite Hh in He.
  - pose proof (operator_handler_effect mo rq o sv) as He. by rewrite Hh in He.
Qed.

(** ** Changes that are answered as made *)

Lemma change_recorded now stamp s c k k' :
  (∀ t x, k_tenants k !! t = Some x → AuditSpec.chain (AuditLog.Sql.rows (audit_of x)) ∧ AuditSpec.counted (audit_of x)) →
  make_change kc now stamp s c k = (Ok true, k') →
  permitted (s_principal s) (Some (change_permission c)) ∧
  ∃ x x', k_tenants k !! s_tenant s = Some x ∧ k_tenants k' !! s_tenant s = Some x' ∧
    took_effect kc (s_tenant s) c (k_dir k') x x' ∧
    AuditLog.Sql.rows (audit_of x') = AuditLog.Sql.rows (audit_of x) ++ [AuditSpec.next_entry (change_event s c) stamp (audit_of x)].
Proof.
  intros Hok Hm. pose proof (change_step _ _ _ _ _ _ _ Hm) as (A & m & x & x' & Hk & Hx & Hs & Hx').
  destruct (Hok _ _ Hx) as [Hc Hn]. pose proof (recorded_Ok _ _ _ _ _ _ _ Hk Hc Hn Hs) as Hr.
  destruct (change_takes_effect _ _ _ _ _ _ _ Hm) as (y & y' & Hy & Hy' & He).
  rewrite Hx in Hy. injection Hy as <-. rewrite Hx' in Hy'. injection Hy' as <-. split; [|by exists x, x'].
  apply (make_change_effect kc now stamp s c k). rewrite Hm. simpl. intros ->. assert (x' = x) as -> by congruence.
  apply (f_equal length) in Hr. rewrite length_app in Hr. simpl in Hr. lia.
Qed.

(** The change an endpoint makes of the posted body. *)
Definition requested_change rq (o : operator_endpoint) : option change :=
  match o with
  | EEnroll ag => (fun '(key, caps, tgts) => ChEnroll ag key caps tgts) <$> posted rq AgentBody
  | ERevoke ag => Some (ChRevoke ag)
  | ESetBudget ag => (fun '(limit, rate, window) => ChBudget ag limit rate window) <$> posted rq BudgetBody
  | ESetQuotas => ChQuotas <$> posted rq QuotaBody
  | ESetHistory => ChHistory <$> posted rq TaskHistoryCapacityBody
  | ESetIntents => ChIntents <$> posted rq TaskIntentCapacityBody
  | ESetEventCap => ChEvents <$> posted rq TaskEventCapacityBody
  | EApprove i => ChApprove i <$> posted rq ApprovalBody
  | EHold name => ChHold name <$> posted rq HoldBody
  | _ => None
  end.

(** The requested change, made by an authenticated and permitted operator, in
    force in the tenant's store and the directory, and its audit record. *)
Definition recorded_change mo rq o sv sv' : Prop :=
  ∃ s c x x', requested_change rq o = Some c ∧
    operator_session mo rq (sv_kernel sv) s ∧ permitted (s_principal s) (Some (change_permission c)) ∧
    k_tenants (sv_kernel sv) !! s_tenant s = Some x ∧ k_tenants (sv_kernel sv') !! s_tenant s = Some x' ∧
    took_effect kc (s_tenant s) c (k_dir (sv_kernel sv')) x x' ∧
    AuditLog.Sql.rows (audit_of x') =
      AuditLog.Sql.rows (audit_of x) ++ [AuditSpec.next_entry (change_event s c) (mo_stamp mo) (audit_of x)].

(** C7: A change that is answered as made was made and recorded.  If a request to
    an operator endpoint other than the platform's activation of tenants is
    answered with a true flag, over tenants whose audit chains are well formed,
    then its bearer token authenticated an operator whose role has the permission
    of the change that the endpoint and the posted body name; that change is in
    force in the session's tenant: the agent is enrolled with the posted key and
    scopes, or revoked in the directory and the store, the budget has the posted
    limits over the same spend and reservations, the quotas, capacities, approval
    or legal hold read back as posted; and the last entry of the tenant's audit
    chain, appended by this request, names the change and the operator. *)
Theorem answered_change_audited mo rq o sv sv' flag st :
  (∀ t, o ≠ ETenant t) →
  (∀ t x, k_tenants (sv_kernel sv) !! t = Some x →
     AuditSpec.chain (AuditLog.Sql.rows (audit_of x)) ∧ AuditSpec.counted (audit_of x)) →
  serve mo rq (EOperator o) sv = (Reply st (Flag flag true), sv') →
  recorded_change mo rq o sv sv'.
Proof.
  intros Ht Hok. unfold TenantHttp.serve. case_bool_decide; [|done].
  destruct (handler _ _ _ _ _ _ _ _ _ _ _ _ _ _ _ sv) as [[pl|e] sv1] eqn:Hh; [|destruct e; simpl; repeat case_match; done].
  intros [= _ -> ->]. simpl in Hh.
  assert (∀ s c k', requested_change rq o = Some c → operator_session mo rq (sv_kernel sv) s →
     make_change kc (mo_now mo) (mo_stamp mo) s c (sv_kernel sv) = (Ok true, k') → sv_kernel sv' = k' →
     recorded_change mo rq o sv sv') as Hgoal.
  { intros s c k' Hc Hs Hm Hk'. destruct (change_recorded _ _ _ _ _ _ Hok Hm) as (Hp & x & x' & Hx & Hx' & He & Hr).
    exists s, c, x, x'. by rewrite Hk'. }
  assert (∀ A (decode : json → option A) fl act (c : A → change), (∀ s v, act s v = make_change kc (mo_now mo) (mo_stamp mo) s (c v)) →
     requested_change rq o = c <$> posted rq decode →
     change_with mo rq decode fl act sv = (Ok (Flag flag true), sv') → recorded_change mo rq o sv sv') as Hchange.
  { intros A decode fl act c Hc Hreq Hrun. destruct (change_with_run mo rq decode fl act sv) as [[_ [e He]]|(s & v & Hs & Hv & He)].
    - by rewrite Hrun in He.
    - rewrite Hrun, Hc in He. destruct (make_change _ _ _ _ _ _) as [[b|e] k'] eqn:Hm; simpl in He; [|done].
      injection He as -> <- ->. eapply Hgoal; [by rewrite Hreq, Hv|done..]. }
  assert (∀ A (act : session → M kernel_state A) f, (∀ a, f a ≠ Flag flag true) → read_with mo rq act f sv ≠ (Ok (Flag flag true), sv')) as Hread.
  { intros A act f Hf. unfold TenantHttp.read_with. rewrite run_bind. destruct (operator mo rq sv) as [[s|e] sv1]; [|done].
    rewrite run_bind. destruct (zoom _ sv1) as [[a|e] sv2]; [|done]. intros [= E _]. by eapply Hf. }
  destruct o as [ |ag|ag|ag|ag| | | | | | | | | |i| | |name|t]; simpl in Hh;
    try (exfalso; revert Hh; apply Hread; by intros; repeat case_match); try (by destruct (Ht t)).
  - by eapply (Hchange _ _ _ _ (fun '(key, caps, tgts) => ChEnroll ag key caps tgts)) in Hh; [|intros s [[]]|].
  - mstep Hh. apply operator_Ok in Hm as [-> Hs]. mstep Hh. apply mret_Ok_inv in Hh as [_ ->].
    unfold zoom in Hm. simpl in Hm. destruct (revoke_agent _ _ _ _ _ _) as [r k'] eqn:Hrv. injection Hm as -> <-.
    eapply (Hgoal a (ChRevoke ag) k'); [done|done| |done]. simpl. unfold done_. by rewrite run_bind, Hrv.
  - by eapply (Hchange _ _ _ _ (fun '(limit, rate, window) => ChBudget ag limit rate window)) in Hh; [|intros s [[]]|].
  - by eapply (Hchange _ _ _ _ ChQuotas) in Hh.
  - by eapply (Hchange _ _ _ _ ChHistory) in Hh.
  - by eapply (Hchange _ _ _ _ ChIntents) in Hh.
  - by eapply (Hchange _ _ _ _ ChEvents) in Hh.
  - by eapply (Hchange _ _ _ _ (ChApprove i)) in Hh.
  - by eapply (Hchange _ _ _ _ (ChHold name)) in Hh.
Qed.
End spec.
