(* ===== verification/TenantHttpExample.v ===== *)
(** * A request to the tenant control plane, by evaluation

    An operator's approval of a pending request, from the headers and the body
    to the answer: it instantiates the theorem on answered changes of
    [TenantHttpSpec]. *)

From stdpp Require Import base list gmap sets strings.
From Stdlib Require Import ZArith Lia.
From S2P Require Import Prelude PyFloat Text Json Identity Authority AuthoritySpec Budget AuditLog AuditSpec Approvals PolicyRules DurablePolicy OperationLedger Quotas Policy Protocols Gateway RetainedCapacity AuditTrust StreamLeases Evidence TaskLifecycle TaskSpec TaskIntents QueuedDestination QueuedDestinationSpec QueuedStore IntentSpec QueuedPreparation QueuedExample TenantKernel TenantSpec TenantFlow TenantExample StatusStream TenantHttp TenantHttpSpec.

#[local] Open Scope Z_scope.

#[local] Existing Instance hex_ed25519 | 0.
#[local] Existing Instance demo_queued_codec | 0.
#[local] Existing Instance example_digest | 0.
#[local] Existing Instance example_intents | 0.

(** An issuer that signs every token for the administrator. *)
Definition hx_verifiers : gmap string (string → outcome claims) :=
  {["idp" := fun _ => Ok (mkClaims (Some "ann") (Some (PFloat (FFin 2000))) (Some "idp") None)]}.

Definition hx_headers (name : string) : list string :=
  default [] (dict_get name [("authorization", ["Bearer t"]); ("x-issuer", ["idp"]); ("x-tenant-id", ["acme"]);
                             ("content-type", ["application/json"])]).

Definition hx_request : tenant_request := mkTenantRequest hx_headers (Some "{}").
Definition hx_loads (_ : string) : option json := Some (JObj [("granted", JBool true)]).

Definition hx_drawn : drawn := mkDrawn (FFin 1000) (fun _ => mkDatetime 0 12) "t" "u" "t1" demo_ids.
Definition hx_moment : moment :=
  mkMoment (FFin 1000) (FFin 1000) "t1" demo_ids (fun _ => mkDatetime 0 12) (mkEnv false None "multi_tenant") tx_directory
    (fun _ j => Ok j) NotCanceled (hx_drawn, hx_drawn, hx_drawn) "lease".

Definition hx_service : service := mkService (tx_kernel tx_empty) (mkStreams 0 ∅ []) (mkLeases None ∅).
Definition hx_limits : StreamLimits := mkStreamLimits 1024 10 4 2 (PInt 60) (PInt 5) (PInt 1) (PInt 5).
Definition hx_fleet : FleetStreamLimits := mkFleet 4 2 1 (PInt 30) (PInt 300).

Notation hx_served :=
  (serve demo_absolute demo_resolve (fun _ => "") (fun _ _ _ _ => "") tx_config hx_verifiers ex_parse tx_encode hx_loads 4096
     hx_limits hx_fleet hx_moment hx_request (EOperator (EApprove "r1")) hx_service).

Lemma hx_answer : hx_served.1 = Reply 200 (Flag "updated" true).
Proof. vm_compute. reflexivity. Qed.

Lemma hx_chains t x :
  k_tenants (sv_kernel hx_service) !! t = Some x →
  chain (AuditLog.Sql.rows (audit_of x)) ∧ AuditSpec.counted (audit_of x).
Proof.
  simpl. intros [<- <-]%lookup_singleton_Some. split; done.
Qed.

Lemma answered_change_audited_witness :
  hx_served.1 = Reply 200 (Flag "updated" true) ∧ recorded_change tx_config hx_verifiers hx_loads hx_moment hx_request (EApprove "r1") hx_service hx_served.2.
Proof.
  split; [exact hx_answer|].
  apply (answered_change_audited demo_absolute demo_resolve (fun _ => "") (fun _ _ _ _ => "") tx_config hx_verifiers ex_parse
           tx_encode hx_loads 4096 hx_limits hx_fleet hx_moment hx_request (EApprove "r1") hx_service hx_served.2 "updated" 200);
    [done|exact hx_chains|].
  pose proof hx_answer as Ha. destruct hx_served as [a sv']. simpl in Ha |- *. by rewrite Ha.
Defined.
