(* ===== verification/ControlPlane.v ===== *)
(** * The single-tenant control plane

    [api/control_plane.py]: the middleware (authority mode, draining, rate
    limit), the operator's guard, the agents' signed requests and every handler
    over the governance store.  The process over a SQL store is one [plane]; a
    request is its headers, body and client address; what clocks, generators,
    the identity provider's network and the destination contribute is one
    [instant].  FastAPI's routing and its parsing of a body into a model are not
    modelled: an [endpoint] carries its path parameters and its parsed model.
    Metrics, logs and the shutdown wait are left out. *)

From stdpp Require Import base list gmap strings pretty.
From Stdlib Require Import ZArith Lia Ascii.
From S2P Require Import Prelude PyFloat Text Url TrustedTargets Controls Json Identity Authority Budget AuditLog Approvals PolicyRules DurablePolicy OperationLedger Quotas Policy Protocols Gateway TenantKernel Oidc.

#[local] Open Scope Z_scope.

(** ** Requests and answers *)

(** [headers.get(name)], the raw body, and [request.client.host]. *)
Record http_request := mkHttp { rq_header : string → option string; rq_body : string; rq_client : option string }.

Definition answer : Type := Z * json.
Definition answered (m : list (string * json)) : answer := (200, JObj m).

(** FastAPI's handler of an [HTTPException], and Starlette's of the rest. *)
Definition finish (r : outcome answer) : answer :=
  match r with
  | Ok a => a
  | Raise (HTTPException st d) => (st, JObj [("detail", JStr d)])
  | Raise _ => (500, JStr "Internal Server Error")
  end.

(** The parsed bodies. *)
Record TranslateBody := mkTranslate { tb_src : string; tb_dst : string; tb_wire : list (string * json) }.
Record IdentityBody := mkIdentityBody { ib_agent : string; ib_key : option string }.
Record BudgetBody := mkBudgetBody { bb_spend : float64; bb_rate : Z; bb_window : Z }.
Record RuleBody := mkRuleBody { rb_type : string; rb_params : list (string * json) }.

Inductive operator_endpoint :=
| RegisterIdentity (b : IdentityBody) | RevokeIdentity (ag : string) | ListIdentities
| SetBudget (ag : string) (b : BudgetBody) | GetBudget (ag : string)
| MarkSensitive (c : string) | ListPending | ApproveRequest (i : string) | DenyRequest (i : string)
| GetAudit | ExportAudit | CreateCheckpoint | SetRetention (b : list (string * json))
| AddRule (b : RuleBody) | ListRules.

Inductive endpoint :=
| Health | Ready
| ListProtocols | TranslateCall (b : TranslateBody) | TranslateResult (b : TranslateBody)
| Operate (o : operator_endpoint)
| GovernedRoute | Authorize.

(** The argument of each route's [operator_guard]. *)
Definition permission (o : operator_endpoint) : string :=
  match o with
  | RegisterIdentity _ | RevokeIdentity _ => "identities:write"
  | ListIdentities => "identities:read"
  | SetBudget _ _ => "budgets:write"
  | GetBudget _ => "budgets:read"
  | MarkSensitive _ | AddRule _ => "policy:write"
  | ListPending => "approvals:read"
  | ApproveRequest _ | DenyRequest _ => "approvals:write"
  | GetAudit => "audit:read"
  | ExportAudit | CreateCheckpoint | SetRetention _ => "audit:export"
  | ListRules => "policy:read"
  end.

Definition under_control (ep : endpoint) : bool := match ep with Health | Ready => false | _ => true end.

(** ** The process *)

Record plane (key : Type) := mkPlane {
  pl_gov : gov;
  pl_nonces : nonce_table;
  pl_local : gmap string float64;
  pl_rules : list string;
  pl_sensitive : gset string;
  pl_hold : bool;
  pl_jwks : jwks key;
  pl_limiter : RateLimit.limiter;
  pl_ready : bool;
}.
Arguments mkPlane {key}.
Arguments pl_gov {key}. Arguments pl_nonces {key}. Arguments pl_local {key}. Arguments pl_rules {key}.
Arguments pl_sensitive {key}. Arguments pl_hold {key}. Arguments pl_jwks {key}. Arguments pl_limiter {key}. Arguments pl_ready {key}.

#[global] Program Instance lens_plane_gov key : Lens (plane key) gov := {
  view := pl_gov;
  update x s := mkPlane x (pl_nonces s) (pl_local s) (pl_rules s) (pl_sensitive s) (pl_hold s) (pl_jwks s) (pl_limiter s) (pl_ready s) }.
Solve All Obligations with by intros; try destruct s.
#[global] Program Instance lens_plane_rules key : Lens (plane key) (list string) := {
  view := pl_rules;
  update x s := mkPlane (pl_gov s) (pl_nonces s) (pl_local s) x (pl_sensitive s) (pl_hold s) (pl_jwks s) (pl_limiter s) (pl_ready s) }.
Solve All Obligations with by intros; try destruct s.
#[global] Program Instance lens_plane_sensitive key : Lens (plane key) (gset string) := {
  view := pl_sensitive;
  update x s := mkPlane (pl_gov s) (pl_nonces s) (pl_local s) (pl_rules s) x (pl_hold s) (pl_jwks s) (pl_limiter s) (pl_ready s) }.
Solve All Obligations with by intros; try destruct s.
#[global] Program Instance lens_plane_hold key : Lens (plane key) bool := {
  view := pl_hold;
  update x s := mkPlane (pl_gov s) (pl_nonces s) (pl_local s) (pl_rules s) (pl_sensitive s) x (pl_jwks s) (pl_limiter s) (pl_ready s) }.
Solve All Obligations with by intros; try destruct s.
#[global] Program Instance lens_plane_jwks key : Lens (plane key) (jwks key) := {
  view := pl_jwks;
  update x s := mkPlane (pl_gov s) (pl_nonces s) (pl_local s) (pl_rules s) (pl_sensitive s) (pl_hold s) x (pl_limiter s) (pl_ready s) }.
Solve All Obligations with by intros; try destruct s.
(** What time, generators, the provider and the destination contribute. *)
Record instant := mkInstant {
  in_now : float64;
  in_oidc : float64 * float64;
  in_net : network;
  in_private : string;
  in_stamp : string;
  in_ids : ids;
  in_clock : nat → datetime;
  in_probe : outcome unit;
  (** The store's enabled durable holds, and its check of operational evidence. *)
  in_retention : list string * outcome unit;
  in_invoke : string → option (list (string * json)) → json → outcome json;
  in_cancel : cancellation;
  in_drawn : drawn * drawn * drawn;
}.

(** The bytes a checkpoint's key signs are Ed25519's. *)
#[local] Instance checkpoint_scheme `{Ed25519} : SignatureScheme := {
  sign := ed_sign; verify := fun pub sg payload => ed_verify pub payload sg }.

Section plane.
Context `{AuditCodec} `{Ed25519} `{SealScheme} `{Sha256} `{JsonText} {key : Type}.
(** The identity provider: [json.loads] of its answers, its keys, PyJWT. *)
Context (loads : string → option json) (jwk_key : json → option key).
Context (unverified_header : string → option (list (string * json))).
Context (decode : string → string + key → option (list (string * json))).
Context (oidc : option OidcConfig) (admin_key : string).
Context (float_repr : float64 → string) (owner_json : string → string → string → string → string).
Context (parse_float : string → option float64) (parse_int : string → option Z) (ip_literal bracketed_ok : string → bool).
Context (environ : string → option string) (package_version : string).

#[local] Notation PM := (M (plane key)).

Definition in_production : bool := production environ.

(** [AGENTBRIDGE_CAPABILITY_ALLOWLIST_JSON], as the policy engine reads it. *)
Definition allowlists : option (gmap string (option (list string))) :=
  match json_loads (default "{}" (environ "AGENTBRIDGE_CAPABILITY_ALLOWLIST_JSON")) with
  | Ok (JObj m) => Some (list_to_map ((fun '(k, v) => (k, as_list as_text v)) <$> m))
  | _ => None
  end.

Definition process_env : env :=
  mkEnv in_production allowlists (default "legacy_single_tenant" (environ "AGENTBRIDGE_AUTHORITY_MODE")).

(** [Budget()]. *)
Definition default_budget : Budget := mkBudget (fl 100) 1000 (fl 3600) fzero [] [].

(** ** Guards *)

(** [secrets.compare_digest] of two texts: one that is not ASCII raises. *)
Definition compare_digest (a b : string) : outcome bool :=
  if is_ascii a && is_ascii b then Ok (bool_decide (a = b))
  else Raise (TypeError "comparing strings with non-ASCII characters is not supported").

(** [rbac_require] of a claim's value. *)
Definition require_role (role : json) (perm : string) : outcome unit :=
  match role with
  | JStr r => Rbac.require r perm
  | JArr _ | JObj _ => Raise (TypeError "unhashable type")
  | _ => Raise (AccessDenied ("role lacks permission '" +:+ perm +:+ "'"))
  end.

Definition nonempty_header (rq : http_request) (name : string) : option string :=
  match rq_header rq name with Some (String _ _ as v) => Some v | _ => None end.

Definition bearer_role (mo : instant) (c : OidcConfig) (h : string) : PM json :=
  catch ('(_, role) ← zoom (Oidc.authenticate loads jwk_key unverified_header decode c (in_net mo) (in_oidc mo).1 (in_oidc mo).2 (Some h));
         mret role)
    (fun e => match e with OidcError m => Some (raise (HTTPException 401 ("operator auth failed: " +:+ m))) | _ => None end).

Definition resolve_role (mo : instant) (rq : http_request) : PM json :=
  keyed ← lift (match nonempty_header rq "x-admin-key" with Some k => compare_digest k admin_key | None => Ok false end);
  if keyed : bool then mret (JStr "admin")
  else match oidc, nonempty_header rq "authorization" with
  | Some c, Some h => bearer_role mo c h
  | _, _ => raise (HTTPException 401 ("operator auth required (X-Admin-Key" +:+
                                      (if oidc then " or Authorization: Bearer <jwt>" else "") +:+ ")"))
  end.

Definition operator_guard (mo : instant) (rq : http_request) (perm : string) : PM json :=
  role ← resolve_role mo rq;
  _ ← lift (match require_role role perm with Raise (AccessDenied m) => Raise (HTTPException 403 m) | r => r end);
  mret role.

(** [authenticate_agent]: the authenticator over the store's identities; only
    its nonces change. *)
Definition authenticate_agent (mo : instant) (rq : http_request) : PM string := fun s =>
  let ag := default "" (rq_header rq "x-agent-id") in
  let r := Identity.authenticate parse_float in_production 300 (in_now mo) ag (default "" (rq_header rq "x-nonce")) (rq_body rq)
             (default "" (rq_header rq "x-signature")) (mkAuth (registry_of (g_ids (pl_gov s))) (pl_nonces s) (pl_local s)) in
  let s' := mkPlane (pl_gov s) (durable_nonces r.2) (local_nonces r.2) (pl_rules s) (pl_sensitive s) (pl_hold s) (pl_jwks s)
              (pl_limiter s) (pl_ready s) in
  (match r.1 with
   | Ok (true, _) => Ok ag
   | Ok (false, why) => Raise (HTTPException 401 ("agent auth failed: " +:+ why))
   | Raise e => Raise e
   end, s').

Definition request_object (raw : string) : outcome (list (string * json)) :=
  match json_loads (if bool_decide (raw = "") then "{}" else raw) with
  | Ok (JObj m) => Ok m
  | Ok _ => Raise (HTTPException 400 "request body must be a JSON object")
  | Raise e => Raise (if is_value_error e then HTTPException 400 "request body must be a JSON object" else e)
  end.

(** ** Public endpoints *)

Definition protocols : json := JArr (JStr <$> ["a2a"; "acp"; "agntcy"; "gemini"; "mcp"; "openai"]).

Definition store_health (mo : instant) : bool * json :=
  match in_probe mo with
  | Ok _ => (true, JObj [("type", JStr "SqliteStore"); ("ok", JBool true)])
  | Raise e => (false, JObj [("type", JStr "SqliteStore"); ("ok", JBool false); ("error", JStr (String.substring 0 200 (exn_message e)))])
  end.

Definition health (mo : instant) : answer :=
  answered [("status", JStr "ok"); ("version", JStr package_version); ("protocols", protocols); ("store", (store_health mo).2)].

Definition ready (mo : instant) (up : bool) : answer :=
  if negb up then (503, JObj [("status", JStr "draining")])
  else let '(ok, sh) := store_health mo in
       if ok then answered [("status", JStr "ready"); ("store", sh)]
       else (503, JObj [("status", JStr "not_ready"); ("store", sh)]).

(** [except (KeyError, ValueError, TypeError, AttributeError) as e: 400]. *)
Definition translated (r : outcome json) : outcome answer :=
  match r with
  | Ok w => Ok (answered [("wire", w)])
  | Raise (KeyError m as e) | Raise (TypeError m as e) | Raise (AttributeError m as e) => Raise (HTTPException 400 m)
  | Raise e => Raise (if is_value_error e then HTTPException 400 (exn_message e) else e)
  end.

Definition translate (mo : instant) (b : TranslateBody) (call : bool) : outcome answer :=
  translated ((if call then translate_call else translate_result) default_registry (in_ids mo) (JObj (tb_wire b)) (tb_src b) (tb_dst b)).

(** ** Operator endpoints *)

Definition set_registry (f : registry → registry) : PM unit :=
  zoom (T := gov) (zoom (modify (fun t => rows (f (registry_of t))))).

Definition register_identity (mo : instant) (b : IdentityBody) : PM answer :=
  match ib_key b with
  | Some (String _ _ as k) =>
      _ ← set_registry (fun r => (register_public_key (ib_agent b) k r).2);
      mret (answered [("agent_id", JStr (ib_agent b)); ("did", JStr (did_from_public_hex k))])
  | _ =>
      let ident := generate (ib_agent b) (in_private mo) in
      _ ← set_registry (register ident);
      mret (answered [("agent_id", JStr (ib_agent b)); ("did", JStr (did ident)); ("private_key_hex", JStr (in_private mo));
                      ("note", JStr "store this key now; it is not retrievable later")])
  end.

Definition revoke_identity (ag : string) : PM answer :=
  s ← get;
  let '(found, r) := revoke ag (registry_of (g_ids (pl_gov s))) in
  _ ← set_registry (fun _ => r);
  _ ← ensure found (HTTPException 404 "unknown identity");
  mret (answered [("agent_id", JStr ag); ("revoked", JBool true)]).

Definition identity_json (p : string * identity_row) : json :=
  JObj [("agent_id", JStr p.1); ("did", JStr (did_from_public_hex (row_key p.2))); ("revoked", JBool (row_revoked p.2))].

Definition list_identities : PM answer :=
  gets (fun s => answered [("identities", JArr (identity_json <$> map_to_list (g_ids (pl_gov s))))]).

(** A new [Budget]: nothing spent, nothing reserved. *)
Definition set_budget (ag : string) (b : BudgetBody) : PM answer :=
  _ ← zoom (T := gov) (zoom (Manager.set_budget ag (mkBudget (bb_spend b) (bb_rate b) (fl (bb_window b)) fzero [] [])));
  mret (answered [("agent_id", JStr ag); ("spend_limit", JFloat (bb_spend b)); ("rate_limit", JInt (bb_rate b))]).

Definition get_budget (ag : string) : PM answer :=
  b ← zoom (T := gov) (zoom (Manager.get_budget default_budget ag));
  mret (answered [("agent_id", JStr ag); ("spent", JFloat (spent b)); ("remaining", JFloat (Object.remaining b));
                  ("spend_limit", JFloat (Budget.spend_limit b)); ("rate_limit", JInt (Budget.rate_limit b))]).

Definition mark_sensitive (c : string) : PM answer :=
  _ ← zoom (durable_mark_sensitive c);
  mret (answered [("capability", JStr c); ("requires_approval", JBool true)]).

Definition status_text (x : status) : string :=
  match x with pending => "pending" | approved => "approved" | Approvals.denied => "denied" | consumed => "consumed" end.

Definition request_json (a : ApprovalRequest) : json :=
  JObj [("id", JStr (Approvals.id a)); ("agent_id", JStr (Approvals.agent_id a)); ("capability", JStr (Approvals.capability a));
        ("cost", JFloat (Approvals.cost a)); ("status", JStr (status_text (st a))); ("created_at", JStr (created_at a))].

Definition list_pending : PM answer :=
  gets (fun s => answered [("pending", JArr (request_json <$> pending_requests (g_apr (pl_gov s))))]).

Definition decide_request (i : string) (granted : bool) : PM answer :=
  found ← zoom (T := gov) (decide_approval i granted);
  _ ← ensure found (HTTPException 404 "no such pending request");
  mret (answered [("request_id", JStr i); ("status", JStr (if granted then "approved" else "denied"))]).

Definition audit_json (e : AuditEntry) : json :=
  JObj [("seq", JInt (seq e)); ("actor", JStr (AuditLog.actor e)); ("decision", JStr (AuditLog.decision e));
        ("src", JStr (AuditLog.source_protocol e)); ("dst", JStr (target_protocol e)); ("capability", JStr (AuditLog.capability e));
        ("cost", JFloat (AuditLog.cost e)); ("reason", JStr (AuditLog.reason e)); ("hash", JStr (String.substring 0 12 (entry_hash e)))].

Definition get_audit : PM answer :=
  gets (fun s => let l := AuditLog.Sql.rows (g_aud (pl_gov s)) in
    answered [("integrity_ok", JBool (verify_durable in_production l)); ("entries", JArr (audit_json <$> l))]).

Definition export_audit : PM answer :=
  gets (fun s => answered [("jsonl", JStr (String.concat TenantKernel.newline
    ((fun e => json_dumps (entry_json e)) <$> AuditLog.Sql.rows (g_aud (pl_gov s)))))]).

Definition create_audit_checkpoint (mo : instant) : PM answer :=
  _ ← ensure (negb in_production)
        (HTTPException 503 "durable trusted audit checkpoint signer not configured; checkpoint creation disabled");
  s ← get;
  let op := generate "operator-checkpoint" (in_private mo) in
  let ck := make_checkpoint (g_aud (pl_gov s)) (in_private mo) (public_key_hex op) in
  mret (answered [("checkpoint", JObj [("seq", JInt (ck_seq ck)); ("head_hash", JStr (ck_head_hash ck)); ("algo", JStr "ed25519");
                                       ("public_key_hex", JStr (ck_public_key_hex ck)); ("signature_hex", JStr (ck_signature_hex ck));
                                       ("created_at", JStr (in_stamp mo))]);
                  ("note", JStr "public_key_hex must be preserved to verify later")]).

(** [int(v)] and [float(v)]. *)
Definition py_int (j : json) : outcome Z :=
  match j with
  | JBool b => Ok (if b then 1 else 0)
  | JInt n => Ok n
  | JFloat (FFin z) => Ok (Z.quot z (2 ^ 1074))
  | JFloat FNan => Raise (ValueError "cannot convert float NaN to integer")
  | JFloat _ => Raise (OverflowError "cannot convert float infinity to integer")
  | JStr s => match parse_int s with Some n => Ok n | None => Raise (ValueError "invalid literal for int()") end
  | _ => Raise (TypeError "int() argument must be a string or a number")
  end.

Definition py_float (j : json) : outcome float64 :=
  match number_of parse_float j, to_float (number_of parse_float j) with
  | _, Some f => Ok f
  | PInt _, None => Raise (OverflowError "int too large to convert to float")
  | PStr _, None => Raise (ValueError "could not convert string to float")
  | _, None => Raise (TypeError "float() argument must be a string or a real number")
  end.

(** [AuditLog.truncate_before] on a SQL store. *)
Definition truncate_before (mo : instant) (n : Z) : PM Z :=
  s ← get;
  if in_production then raise (PermissionError "production audit deletion requires durable legal holds and trusted checkpoints")
  else if n <=? 0 then mret 0
  else if pl_hold s then mret 0
  else zoom (T := gov) (zoom (AuditLog.Sql.truncate_audit_before in_production (in_retention mo).1 (in_retention mo).2 n)).

Definition set_audit_retention (mo : instant) (b : list (string * json)) : PM answer :=
  _ ← ensure (negb in_production)
        (HTTPException 503 "audit retention and legal holds require durable policy and verified checkpoints");
  let action := obj_get "action" JNull b in
  if is_text "truncate" action then
    n ← lift (py_int (obj_get "seq" (JInt 0) b));
    _ ← ensure (0 <? n) (HTTPException 400 "seq must be > 0");
    s ← get;
    _ ← ensure (negb (pl_hold s)) (HTTPException 409 "legal hold is active; cannot truncate");
    removed ← truncate_before mo n;
    mret (answered [("truncated_before", JInt n); ("removed", JInt removed)])
  else if is_text "legal_hold" action then
    let on := truthy (obj_get "on" (JBool true) b) in
    _ ← zoom (T := bool) (put on);
    mret (answered [("legal_hold", JBool on)])
  else raise (HTTPException 400 "unknown action; use 'truncate' or 'legal_hold'").

(** *** Policy rules *)

Definition param (k : string) (p : list (string * json)) : outcome json :=
  match dict_get k p with Some j => Ok j | None => Raise (KeyError k) end.

(** [set(list(v))] of texts, and of days; rules are typed, so an element of
    another type is refused. *)
Definition text_set (j : json) : outcome (gset string) :=
  l ← py_iter j;
  match mapM as_text l with Some l => Ok (list_to_set l) | None => Raise (TypeError "capabilities") end.

Definition day_set (j : json) : outcome (gset Z) :=
  match j with
  | JNull => Ok default_days
  | _ => l ← py_iter j; match mapM as_int l with Some l => Ok (list_to_set l) | None => Raise (TypeError "days") end
  end.

Definition param_text (k : string) (p : list (string * json)) : outcome string :=
  j ← param k p; match j with JStr s => Ok s | _ => Raise (TypeError k) end.

Definition RULE_FACTORIES : list (string * (list (string * json) → outcome Rule)) :=
  [("max_cost", fun p => j ← param "max_cost" p; MaxCostPerCall <$> py_float j);
   ("approval_above_cost", fun p => j ← param "threshold" p; RequireApprovalAboveCost <$> py_float j);
   ("deny_capabilities", fun p => j ← param "capabilities" p; DenyCapabilities <$> text_set j);
   ("allow_only_capabilities", fun p => j ← param "capabilities" p; AllowOnlyCapabilities <$> text_set j);
   ("business_hours", fun p =>
      start ← py_int (obj_get "start_hour" (JInt 9) p);
      end_ ← py_int (obj_get "end_hour" (JInt 17) p);
      BusinessHoursOnly start end_ <$> day_set (obj_get "days" JNull p));
   ("deny_route", fun p => src ← param_text "src" p; dst ← param_text "dst" p; Ok (DenyProtocolRoute src dst))].

Definition known_rules : string :=
  "['allow_only_capabilities', 'approval_above_cost', 'business_hours', 'deny_capabilities', 'deny_route', 'max_cost']".

Definition bad_params (b : RuleBody) (e : pyexn) : pyexn :=
  let bad m := HTTPException 400 ("bad params for '" +:+ rb_type b +:+ "': " +:+ m) in
  match e with
  | KeyError m | TypeError m => bad m
  | _ => if is_value_error e then bad (exn_message e) else e
  end.

Definition add_policy_rule (b : RuleBody) : PM answer :=
  match dict_get (rb_type b) RULE_FACTORIES with
  | None => raise (HTTPException 400 ("unknown rule type '" +:+ rb_type b +:+ "'; known: " +:+ known_rules))
  | Some factory =>
      rule ← lift (match factory (rb_params b) with Raise e => Raise (bad_params b e) | r => r end);
      _ ← zoom (durable_add (Builtin rule));
      rules ← zoom durable_rules;
      mret (answered [("added", JStr (rb_type b)); ("rules_active", JInt (Z.of_nat (length rules)))])
  end.

Definition rule_class (r : Rule) : string :=
  match r with
  | MaxCostPerCall _ => "MaxCostPerCall" | RequireApprovalAboveCost _ => "RequireApprovalAboveCost"
  | DenyCapabilities _ => "DenyCapabilities" | AllowOnlyCapabilities _ => "AllowOnlyCapabilities"
  | BusinessHoursOnly _ _ _ => "BusinessHoursOnly" | DenyProtocolRoute _ _ => "DenyProtocolRoute"
  end.

Definition list_policy_rules : PM answer :=
  rules ← zoom durable_rules;
  mret (answered [("rules", JArr ((fun r => JStr (rule_class r)) <$> rules))]).

Definition operator_handler (mo : instant) (o : operator_endpoint) : PM answer :=
  match o with
  | RegisterIdentity b => register_identity mo b
  | RevokeIdentity ag => revoke_identity ag
  | ListIdentities => list_identities
  | SetBudget ag b => set_budget ag b
  | GetBudget ag => get_budget ag
  | MarkSensitive c => mark_sensitive c
  | ListPending => list_pending
  | ApproveRequest i => decide_request i true
  | DenyRequest i => decide_request i false
  | GetAudit => get_audit
  | ExportAudit => export_audit
  | CreateCheckpoint => create_audit_checkpoint mo
  | SetRetention b => set_audit_retention mo b
  | AddRule b => add_policy_rule b
  | ListRules => list_policy_rules
  end.

(** ** Agent endpoints *)

(** [registry.get] of a body's member. *)
Definition named_adapter (j : json) : outcome (string * adapter) :=
  match j with
  | JStr name => a ← get_adapter default_registry name; Ok (name, a)
  | JArr _ | JObj _ => Raise (TypeError "unhashable type")
  | _ => Raise (KeyError "Unknown protocol")
  end.

Record routed := mkRouted { rt_src : string; rt_dst : string; rt_capability : string; rt_cost : float64;
                            rt_target : option (list (string * json)) }.

(** The [try] block before the gateway. *)
Definition resolve_route (mo : instant) (ag : string) (m : list (string * json)) : outcome routed :=
  '(dst, _) ← named_adapter (obj_get "dst" JNull m);
  '(src, a) ← named_adapter (obj_get "src" JNull m);
  canonical ← to_canonical_call a (gen_call (in_ids mo)) (obj_get "wire" JNull m);
  let capab := Protocols.capability canonical in
  cost ← effective_call_cost parse_float (obj_get "cost" (JFloat (fl 1)) m) capab environ;
  target ← TrustedTargets.resolve_target ip_literal bracketed_ok (obj_get "target_id" JNull m) dst capab environ (Some ag);
  Ok (mkRouted src dst capab cost target).

Definition route_error (e : pyexn) : pyexn :=
  match e with
  | SecurityConfigurationError m => HTTPException 400 ("security policy rejected call: " +:+ m)
  | KeyError m => HTTPException 400 m
  | TypeError _ | AttributeError _ => HTTPException 400 "malformed or unsupported action wire"
  | _ => if is_value_error e then HTTPException 400 "malformed or unsupported action wire" else e
  end.

(** The operation's identifier.  One that is neither text nor null is treated as
    missing in production, where the gateway denies both alike; elsewhere the
    ledger cannot store it, and it is refused here. *)
Definition operation_of (m : list (string * json)) : outcome (option string) :=
  match obj_get "operation_id" JNull m with
  | JStr o => Ok (Some o)
  | JNull => Ok None
  | _ => if in_production then Ok None else Raise (TypeError "operation_id")
  end.

(** The engine over the store's rules and sensitive capabilities. *)
Definition current_engine : PM engine :=
  rules ← zoom durable_rules;
  s ← get;
  mret (mkEngine true (Some rules) ∅ (Some (pl_sensitive s))).

(** The arguments of [gateway.route_call]. *)
Definition route_request (rq : http_request) (ag : string) (m : list (string * json)) (r : routed) (op : option string) : request :=
  let nonce := default "" (rq_header rq "x-nonce") in
  mkRequest ag (rt_src r) (rt_dst r) (obj_get "wire" JNull m) (PFloat (rt_cost r))
    (match obj_get "target_id" JNull m with JStr t => Some t | _ => None end) op
    (Some (canonical_payload ag nonce (rq_body rq))) (Some (default "" (rq_header rq "x-signature"))) (Some (rq_body rq))
    (Some nonce) None.

Definition run_route (mo : instant) (r : request) (target : option (list (string * json))) : PM json :=
  eng ← current_engine;
  let '(x0, x, x') := in_drawn mo in
  zoom (T := gov) (route_call float_repr owner_json process_env eng None default_budget default_registry true r
                     (in_invoke mo (r_dst r) target) (in_cancel mo) x0 x x').

(** [{"decision": "allow", **result}] and the handlers around the gateway. *)
Definition merged (m : list (string * json)) : list (string * json) :=
  foldl (fun d '(k, v) => dict_set k v d) [("decision", JStr "allow")] m.

Definition route_reply (r : outcome json) : outcome answer :=
  match r with
  | Ok (JObj m) => Ok (answered (merged m))
  | Ok _ => Raise (TypeError "object is not a mapping")
  | Raise (GovernanceError why ap) =>
      Ok (403, JObj [("detail", JObj (("reason", JStr why) ::
                 match ap with Some (String _ _ as i) => [("approval_id", JStr i)] | _ => [] end))])
  | Raise (KeyError m) => Raise (HTTPException 400 m)
  | Raise e => Raise e
  end.

Definition replied (m : PM json) : PM answer := fun s => let '(o, s') := m s in (route_reply o, s').

Definition governed_route (mo : instant) (rq : http_request) : PM answer :=
  ag ← authenticate_agent mo rq;
  m ← lift (request_object (rq_body rq));
  _ ← ensure (truthy (obj_get "src" JNull m) && truthy (obj_get "dst" JNull m) && negb (is_none (obj_get "wire" JNull m)))
             (HTTPException 400 "src, dst, wire required");
  _ ← ensure (negb (dict_mem "target" m))
             (HTTPException 400 "agent-selected target configurations are prohibited; use target_id");
  r ← lift (match resolve_route mo ag m with Raise e => Raise (route_error e) | o => o end);
  _ ← ensure (negb (bool_decide (is_Some (rt_target r)) && in_production &&
                    negb (match obj_get "operation_id" JNull m with JStr o => operation_id_ok (Some o) | _ => false end)))
             (HTTPException 400 "production execution requires a unique operation_id (16-128 chars)");
  op ← lift (operation_of m);
  replied (run_route mo (route_request rq ag m r op) (rt_target r)).

(** [authorize], of a capability that is text: the decision only. *)
Definition authorize (mo : instant) (rq : http_request) : PM answer :=
  ag ← authenticate_agent mo rq;
  m ← lift (request_object (rq_body rq));
  let invalid (e : pyexn) := match e with
    | TypeError _ => HTTPException 400 "invalid authorization input"
    | _ => if is_value_error e then HTTPException 400 "invalid authorization input" else e
    end in
  cost ← lift (match py_float (obj_get "cost" (JFloat (fl 1)) m) with Raise e => Raise (invalid e) | o => o end);
  capab ← lift (match obj_get "capability" (JStr "") m with
                | JStr c => Ok c
                | _ => Raise (HTTPException 400 "invalid authorization input")
                end);
  eng ← current_engine;
  d ← catch (zoom (T := gov) (Policy.authorize float_repr process_env eng None default_budget (in_now mo) (in_clock mo)
               (Policy.mkCall ag capab cost None None None None None None None)))
        (fun e => Some (raise (invalid e)));
  mret (answered [("allowed", JBool (Policy.allowed d)); ("reason", JStr (Policy.reason d));
                  ("needs_approval", JBool (Policy.needs_approval d))]).

(** ** The application *)

Definition handler (mo : instant) (rq : http_request) (ep : endpoint) : PM answer :=
  match ep with
  | Health => mret (health mo)
  | Ready => s ← get; mret (ready mo (pl_ready s))
  | ListProtocols => mret (answered [("protocols", protocols)])
  | TranslateCall b => lift (translate mo b true)
  | TranslateResult b => lift (translate mo b false)
  | Operate o => _ ← operator_guard mo rq (permission o); operator_handler mo o
  | GovernedRoute => governed_route mo rq
  | Authorize => authorize mo rq
  end.

Definition limit_client (mo : instant) (rq : http_request) (s : plane key) : bool * plane key :=
  let '(ok, l) := RateLimit.allow (default "unknown" (rq_client rq)) (in_now mo) (pl_limiter s) in
  (ok, mkPlane (pl_gov s) (pl_nonces s) (pl_local s) (pl_rules s) (pl_sensitive s) (pl_hold s) (pl_jwks s) l (pl_ready s)).

(** [_observability_and_rate_limit] around the handler. *)
Definition serve (mo : instant) (rq : http_request) (ep : endpoint) (s : plane key) : answer * plane key :=
  match require_legacy_authority process_env with
  | Raise _ => ((503, JObj [("detail", JStr "legacy authority mode unavailable")]), s)
  | Ok _ =>
      if negb (pl_ready s) && under_control ep then ((503, JObj [("detail", JStr "shutting down")]), s)
      else
        let '(ok, s) := if under_control ep then limit_client mo rq s else (true, s) in
        if ok then let '(o, s') := handler mo rq ep s in (finish o, s')
        else ((429, JObj [("detail", JStr ("rate limit exceeded (" +:+ pretty (RateLimit.max (pl_limiter s)) +:+ "/min)"))]), s)
  end.
End plane.
