(* ===== verification/ControlPlaneSpec.v ===== *)
(** * What a request to the control plane can do

    Every change of the governance state is one endpoint's own, made by an
    operator whose role has the endpoint's permission, or is the gateway's, for
    an agent that signed this very request; a route reaches the gateway only
    with the operator's target and, in production, the operator's cost, and an
    answered one was settled; and a client's attempts are bounded by the rate
    limiter. *)

From stdpp Require Import base list gmap sets strings.
From Stdlib Require Import ZArith Lia Ascii.
From S2P Require Import Prelude PyFloat Text Url TrustedTargets Controls Json Identity Authority Budget AuditLog Approvals PolicyRules DurablePolicy OperationLedger Quotas Policy Protocols Gateway GatewaySpec GatewayRuns TenantKernel Oidc ControlPlane.

#[local] Open Scope Z_scope.

Create HintDb limiter.

Section spec.
Context `{AuditCodec} `{Ed25519} `{SealScheme} `{Sha256} `{JsonText} {key : Type}.
Context (loads : string → option json) (jwk_key : json → option key).
Context (unverified_header : string → option (list (string * json))).
Context (decode : string → string + key → option (list (string * json))).
Context (oidc : option OidcConfig) (admin_key : string).
Context (float_repr : float64 → string) (owner_json : string → string → string → string → string).
Context (parse_float : string → option float64) (parse_int : string → option Z) (ip_literal bracketed_ok : string → bool).
Context (environ : string → option string) (package_version : string).
Implicit Types (s : plane key) (mo : instant) (rq : http_request).

#[local] Notation bearer_role := (bearer_role loads jwk_key unverified_header decode).
#[local] Notation resolve_role := (resolve_role loads jwk_key unverified_header decode oidc admin_key).
#[local] Notation operator_guard := (operator_guard loads jwk_key unverified_header decode oidc admin_key).
#[local] Notation authenticate_agent := (authenticate_agent parse_float environ).
#[local] Notation operator_handler := (operator_handler parse_float parse_int environ).
#[local] Notation resolve_route := (resolve_route parse_float ip_literal bracketed_ok environ).
#[local] Notation governed_route := (governed_route float_repr owner_json parse_float ip_literal bracketed_ok environ).
#[local] Notation authorize := (ControlPlane.authorize float_repr parse_float environ).
#[local] Notation run_route := (run_route float_repr owner_json environ).
#[local] Notation handler := (handler loads jwk_key unverified_header decode oidc admin_key float_repr owner_json parse_float parse_int
  ip_literal bracketed_ok environ package_version).
#[local] Notation serve := (serve loads jwk_key unverified_header decode oidc admin_key float_repr owner_json parse_float parse_int
  ip_literal bracketed_ok environ package_version).
#[local] Notation factories := (RULE_FACTORIES parse_float parse_int).
#[local] Notation in_production := (in_production environ).

(** The governance state; what is left out are nonces, cached signing keys, the
    limiter's counts and the readiness flag. *)
Definition governed s : gov * list string * gset string * bool := (pl_gov s, pl_rules s, pl_sensitive s, pl_hold s).

Definition with_gov (g : gov) s : gov * list string * gset string * bool := (g, pl_rules s, pl_sensitive s, pl_hold s).

(** ** Operators *)

(** How a request proves a role: the admin key itself, or a token that the
    configured provider's keys verify. *)
Definition operator_role mo rq s (role : json) : Prop :=
  (rq_header rq "x-admin-key" = Some admin_key ∧ admin_key ≠ "" ∧ role = JStr "admin") ∨
  (∃ c h claims j, oidc = Some c ∧ rq_header rq "authorization" = Some h ∧
     Oidc.authenticate loads jwk_key unverified_header decode c (in_net mo) (in_oidc mo).1 (in_oidc mo).2 (Some h) (pl_jwks s) =
       (Ok (claims, role), j)).

Lemma nonempty_header_Some rq name v : nonempty_header rq name = Some v → rq_header rq name = Some v ∧ v ≠ "".
Proof. unfold nonempty_header. destruct (rq_header rq name) as [[|]|]; [done| |done]. by intros [= <-]. Qed.

Lemma bearer_role_run mo c h s r s' :
  bearer_role mo c h s = (r, s') →
  governed s' = governed s ∧
  ∀ role, r = Ok role → ∃ claims j,
    Oidc.authenticate loads jwk_key unverified_header decode c (in_net mo) (in_oidc mo).1 (in_oidc mo).2 (Some h) (pl_jwks s) =
      (Ok (claims, role), j).
Proof.
  unfold ControlPlane.bearer_role, catch. rewrite run_bind. unfold zoom. change (view s : jwks key) with (pl_jwks s).
  destruct (Oidc.authenticate loads jwk_key unverified_header decode c (in_net mo) (in_oidc mo).1 (in_oidc mo).2 (Some h) (pl_jwks s)) as [[[claims role]|e] j]; simpl.
  - intros [= <- <-]. split; [done|]. intros role' [= <-]. by exists claims, j.
  - destruct e; intros [= <- <-]; by split.
Qed.

Lemma resolve_role_run mo rq s r s' :
  resolve_role mo rq s = (r, s') → governed s' = governed s ∧ ∀ role, r = Ok role → operator_role mo rq s role.
Proof.
  unfold ControlPlane.resolve_role. rewrite run_bind. unfold lift.
  destruct (match nonempty_header rq "x-admin-key" with Some k => compare_digest k admin_key | None => Ok false end) as [keyed|e] eqn:Hk; [|intros [= <- <-]; by split].
  destruct keyed.
  - intros [= <- <-]. split; [done|]. intros role [= <-]. left.
    destruct (nonempty_header rq "x-admin-key") as [k|] eqn:Hn; [|done].
    apply nonempty_header_Some in Hn as [Hn Hne]. unfold compare_digest in Hk. destruct (_ && _); [|done].
    injection Hk as Hk. apply bool_decide_eq_true in Hk. by subst.
  - destruct oidc as [c|] eqn:Ho; [|intros [= <- <-]; by split].
    destruct (nonempty_header rq "authorization") as [h|] eqn:Hn; [|intros [= <- <-]; by split].
    apply nonempty_header_Some in Hn as [Hn _]. intros Hb. apply bearer_role_run in Hb as [Hg Hr].
    split; [done|]. intros role Hrole. destruct (Hr role Hrole) as (claims & j & Ha). right. by exists c, h, claims, j.
Qed.

(** A role that a guard lets pass. *)
Definition may (role : json) (perm : string) : Prop := ∃ r, role = JStr r ∧ Rbac.role_can r perm = true.

Lemma require_role_Ok role perm u : require_role role perm = Ok u → may role perm.
Proof.
  destruct role as [| | | |r| |]; simpl; try done. unfold Rbac.require. intros Hg%guard_or_Ok. by exists r.
Qed.

Lemma operator_guard_run mo rq perm s r s' :
  operator_guard mo rq perm s = (r, s') →
  governed s' = governed s ∧ ∀ role, r = Ok role → operator_role mo rq s role ∧ may role perm.
Proof.
  unfold ControlPlane.operator_guard. rewrite run_bind. destruct (resolve_role mo rq s) as [[role|e] s1] eqn:Hr.
  - apply resolve_role_run in Hr as [Hg Hr]. rewrite run_bind. unfold lift.
    destruct (require_role role perm) as [u|e] eqn:Hq.
    + intros [= <- <-]. split; [done|]. intros role' [= <-]. split; [by apply Hr|by eapply require_role_Ok].
    + destruct e; intros [= <- <-]; by split.
  - apply resolve_role_run in Hr as [Hg _]. intros [= <- <-]. by split.
Qed.

(** ** The endpoints *)

Definition fresh_budget (b : BudgetBody) : Budget := mkBudget (bb_spend b) (bb_rate b) (fl (bb_window b)) fzero [] [].

(** What an endpoint does to the governance state, when it does anything. *)
Definition effect mo (o : operator_endpoint) s s' : Prop :=
  let g := pl_gov s in
  match o with
  | RegisterIdentity b => ∃ k, governed s' = with_gov (update (<[ib_agent b := mkIdRow k false]> (g_ids g)) g) s ∧
      (ib_key b = Some k ∧ k ≠ "" ∨ k = public_of (in_private mo))
  | RevokeIdentity ag => ∃ row, g_ids g !! ag = Some row ∧
      governed s' = with_gov (update (<[ag := mkIdRow (row_key row) true]> (g_ids g)) g) s
  | SetBudget ag b => governed s' = with_gov (update (Manager.set_budget ag (fresh_budget b) (g_bud g)).2 g) s
  | GetBudget ag => ∃ c, governed s' = with_gov (update (Manager.mkManager (Manager.rows (g_bud g)) c) g) s
  | MarkSensitive c => c ≠ "" ∧ governed s' = (g, pl_rules s, {[c]} ∪ pl_sensitive s, pl_hold s)
  | ApproveRequest i => governed s' = with_gov (update (Approvals.approve i (g_apr g)).2 g) s
  | DenyRequest i => governed s' = with_gov (update (Approvals.deny i (g_apr g)).2 g) s
  | SetRetention b => in_production = false ∧
      ((∃ on, governed s' = (g, pl_rules s, pl_sensitive s, on)) ∨
       (pl_hold s = false ∧ ∃ n, 0 < n ∧
          governed s' = with_gov (update (AuditLog.Sql.truncate_audit_before false (in_retention mo).1 (in_retention mo).2 n (g_aud g)).2 g) s))
  | AddRule b => ∃ f rule, dict_get (rb_type b) factories = Some f ∧ f (rb_params b) = Ok rule ∧
      governed s' = (g, pl_rules s ++ [json_dumps (JObj (builtin_to_dict rule))], pl_sensitive s, pl_hold s)
  | _ => False
  end.

Lemma retention_effect mo b s :
  let s' := (set_audit_retention parse_int environ mo b s).2 in
  governed s' = governed s ∨ effect mo (SetRetention b) s s'.
Proof.
  unfold set_audit_retention. destruct in_production eqn:Hp; [by left|]. rewrite run_ensure by done. cbv zeta.
  destruct (is_text "truncate" _).
  - rewrite run_bind. unfold lift. destruct (py_int parse_int _) as [n|]; [|by left].
    destruct (0 <? n) eqn:Hn; [|by left]. rewrite run_ensure by done. apply Z.ltb_lt in Hn.
    rewrite run_get. destruct (pl_hold s) eqn:Hh; [by left|]. rewrite run_ensure by done.
    right. split; [done|]. right. split; [done|]. exists n. split; [done|].
    rewrite run_bind. unfold truncate_before. rewrite run_get, Hp, Hh.
    rewrite (proj2 (Z.leb_gt n 0)) by lia. unfold zoom.
    change (view (view s : gov) : AuditLog.Sql.audit_db) with (g_aud (pl_gov s)).
    by destruct (AuditLog.Sql.truncate_audit_before false (in_retention mo).1 (in_retention mo).2 n (g_aud (pl_gov s))) as [[r|e] d].
  - destruct (is_text "legal_hold" _); [|by left]. right. split; [done|]. left. by eexists.
Qed.

Lemma add_rule_effect mo b s :
  let s' := (add_policy_rule parse_float parse_int b s).2 in
  governed s' = governed s ∨ effect mo (AddRule b) s s'.
Proof.
  unfold add_policy_rule. destruct (dict_get (rb_type b) factories) as [f|] eqn:Hf; [|by left].
  rewrite run_bind. unfold lift. destruct (f (rb_params b)) as [rule|e] eqn:Hr; [|by left].
  right. exists f, rule. split; [done|]. split; [done|].
  rewrite run_bind. unfold zoom. simpl. unfold durable_rules. simpl. rewrite run_bind. unfold zoom. simpl. unfold lift. simpl.
  destruct (load_rules _); done.
Qed.

Lemma operator_effect mo o s :
  let s' := (operator_handler mo o s).2 in governed s' = governed s ∨ effect mo o s s'.
Proof.
  destruct o as [b|ag| |ag b|ag|c| |i|i| | | |b|b| ]; cbn [ControlPlane.operator_handler];
    try (by left); try apply retention_effect; try apply add_rule_effect.
  - right. unfold register_identity, set_registry. destruct (ib_key b) as [[|ch k]|] eqn:Hk.
    + exists (public_of (in_private mo)). split; [done|by right].
    + exists (String ch k). split; [done|by left].
    + exists (public_of (in_private mo)). split; [done|by right].
  - unfold revoke_identity. rewrite run_get. unfold revoke. simpl.
    destruct (g_ids (pl_gov s) !! ag) as [row|] eqn:Hrow; [right; by exists row|].
    left. destruct s as [[]]. done.
  - by right.
  - right. unfold get_budget. rewrite run_bind. unfold zoom. simpl. unfold Manager.get_budget. simpl. by eexists.
  - unfold mark_sensitive. rewrite run_bind. unfold zoom, durable_mark_sensitive. simpl. rewrite run_bind.
    destruct (bool_decide (c = "")) eqn:Hc; simpl; [by left; unfold governed; destruct s|]. right. apply bool_decide_eq_false in Hc. by split.
  - right. unfold decide_request. rewrite run_bind. unfold zoom, decide_approval. change (view s : gov) with (pl_gov s).
    unfold effect. by destruct (Approvals.approve i (g_apr (pl_gov s))) as [[] t].
  - right. unfold decide_request. rewrite run_bind. unfold zoom, decide_approval. change (view s : gov) with (pl_gov s).
    unfold effect. by destruct (Approvals.deny i (g_apr (pl_gov s))) as [[] t].
  - unfold create_audit_checkpoint. left. rewrite run_bind. by destruct (negb in_production).
  - unfold list_policy_rules. left. rewrite run_bind. unfold zoom, durable_rules. simpl. unfold lift.
    destruct (load_rules _); by destruct s.
Qed.

(** ** Agents *)

(** The request carries the signature of a registered agent over exactly its
    body and nonce, and the nonce was not used before. *)
Definition signed_request mo rq s (ag : string) : Prop :=
  let nonce := default "" (rq_header rq "x-nonce") in
  ag = default "" (rq_header rq "x-agent-id") ∧
  ∃ row, g_ids (pl_gov s) !! ag = Some row ∧ row_revoked row = false ∧
    ed_verify (row_key row) (canonical_payload ag nonce (rq_body rq)) (default "" (rq_header rq "x-signature")) = true ∧
    nonce_decision parse_float in_production 300 (in_now mo) ag nonce
      (mkAuth (registry_of (g_ids (pl_gov s))) (pl_nonces s) (pl_local s)) = true.

Lemma authenticate_agent_run mo rq s r s' :
  authenticate_agent mo rq s = (r, s') →
  governed s' = governed s ∧ ∀ ag, r = Ok ag → signed_request mo rq s ag.
Proof.
  unfold ControlPlane.authenticate_agent. intros [= <- <-]. split; [done|]. intros ag.
  match goal with |- context [Identity.authenticate ?a ?b ?c ?d ?e ?f ?g ?h ?i] => destruct (Identity.authenticate a b c d e f g h i) as [[[[] why]|err] x] eqn:Ha end;
    simpl; try done. intros [= <-]. apply authenticate_sound_complete in Ha as (_ & _ & _ & _ & Hv & Hn & _).
  split; [done|]. unfold verify_signature in Hv. simpl in Hv.
  destruct (g_ids (pl_gov s) !! _) as [row|] eqn:Hrow; [|done]. destruct (row_revoked row) eqn:Hrev; [done|].
  exists row. split; [done|]. split; [done|]. split; [|done].
  unfold Identity.verify in Hv. simpl in Hv. destruct (public_key_ok _); [|done]. by injection Hv.
Qed.

#[local] Notation gateway_route := (route_call float_repr owner_json (process_env environ)).

(** The engine a request meets, and the gateway's run of a routed request. *)
Definition engine_of s (rules : list Rule) : engine := mkEngine true (Some rules) ∅ (Some (pl_sensitive s)).

Definition gateway_run mo rq s (ag : string) (m : list (string * json)) (r : routed) (op : option string) (rules : list Rule)
  : outcome json * gov :=
  let '(x0, x, x') := in_drawn mo in
  gateway_route (engine_of s rules) None default_budget default_registry true (route_request rq ag m r op)
    (in_invoke mo (rt_dst r) (rt_target r)) (in_cancel mo) x0 x x' (pl_gov s).

(** A signed request whose route was resolved from the operator's configuration. *)
Definition routed_request mo rq s ag m r op rules : Prop :=
  signed_request mo rq s ag ∧ request_object (rq_body rq) = Ok m ∧ dict_mem "target" m = false ∧
  resolve_route mo ag m = Ok r ∧ operation_of environ m = Ok op ∧ load_rules (pl_rules s) = Ok rules.

Lemma current_engine_run s :
  (∃ rules, load_rules (pl_rules s) = Ok rules ∧ current_engine s = (Ok (engine_of s rules), s)) ∨
  (∃ e, current_engine s = (Raise e, s)).
Proof.
  unfold current_engine. rewrite run_bind. unfold zoom, durable_rules. simpl. unfold lift.
  destruct (load_rules (pl_rules s)) as [rules|e]; [left; exists rules|right; exists e]; by destruct s.
Qed.

Lemma run_route_run mo rq s ag m r op :
  (∃ rules, load_rules (pl_rules s) = Ok rules ∧
     run_route mo (route_request rq ag m r op) (rt_target r) s =
       ((gateway_run mo rq s ag m r op rules).1, update (gateway_run mo rq s ag m r op rules).2 s)) ∨
  (∃ e, run_route mo (route_request rq ag m r op) (rt_target r) s = (Raise e, s)).
Proof.
  unfold ControlPlane.run_route. rewrite run_bind.
  destruct (current_engine_run s) as [(rules & Hl & ->)|(e & ->)]; [left|right; by exists e].
  exists rules. split; [done|]. unfold gateway_run. destruct (in_drawn mo) as [[x0 x] x']. unfold zoom.
  change (view s : gov) with (pl_gov s). by destruct (route_call _ _ _ _ _ _ _ _ _ _ _ _ _ _ (pl_gov s)).
Qed.

Lemma ensure_bind {S B} b e (k : unit → M S B) (x : S) : (ensure b e ≫= k) x = if b then k tt x else (Raise e, x).
Proof. by destruct b. Qed.

Lemma governed_route_run mo rq s o s' :
  governed_route mo rq s = (o, s') →
  (governed s' = governed s ∧ ∀ a, o = Ok a → a.1 = 403) ∨
  (∃ s1 ag m r op rules, governed s1 = governed s ∧ routed_request mo rq s ag m r op rules ∧
     o = route_reply (gateway_run mo rq s ag m r op rules).1 ∧ s' = update (gateway_run mo rq s ag m r op rules).2 s1).
Proof.
  unfold ControlPlane.governed_route. rewrite run_bind.
  destruct (authenticate_agent mo rq s) as [[ag|e] s1] eqn:Ha; apply authenticate_agent_run in Ha as [Hg Ha];
    [|intros [= <- <-]; left; by split]. specialize (Ha ag eq_refl).
  assert (∀ e, (@Raise answer e, s1) = (o, s') → governed s' = governed s ∧ ∀ a, o = Ok a → a.1 = 403) as Hfail
    by (intros e [= <- <-]; by split).
  rewrite run_bind. unfold lift at 1. destruct (request_object (rq_body rq)) as [m|e] eqn:Hb; [|intros HrR; left; exact (Hfail _ HrR)].
  rewrite ensure_bind. destruct (_ && negb (is_none _)); [|intros HrR; left; exact (Hfail _ HrR)].
  rewrite ensure_bind. destruct (dict_mem "target" m) eqn:Ht; [intros HrR; left; exact (Hfail _ HrR)|].
  rewrite run_bind. unfold lift at 1. destruct (resolve_route mo ag m) as [r|e] eqn:Hr; [|intros HrR; left; exact (Hfail _ HrR)].
  rewrite ensure_bind. destruct (negb (_ && _ && _)); [|intros HrR; left; exact (Hfail _ HrR)].
  rewrite run_bind. unfold lift at 1. destruct (operation_of environ m) as [op|e] eqn:Ho; [|intros HrR; left; exact (Hfail _ HrR)].
  unfold replied. pose proof Hg as [= Hg1 Hg2 Hg3 Hg4].
  destruct (run_route_run mo rq s1 ag m r op) as [(rules & Hl & ->)|(e & ->)].
  - intros [= <- <-]. right. exists s1, ag, m, r, op, rules.
    assert (gateway_run mo rq s1 ag m r op rules = gateway_run mo rq s ag m r op rules) as ->.
    { unfold gateway_run, engine_of. by rewrite Hg1, Hg3. }
    split; [done|]. split; [|done]. by rewrite Hg2 in Hl.
  - intros [= <- <-]. left. split; [done|]. destruct e; simpl; by intros a [= <-].
Qed.

(** Asking for a decision rewrites at most the agent's own budget row, with the
    calls that left the rate window dropped. *)
Definition asked mo s (ag : string) : gov :=
  let b := g_bud (pl_gov s) in
  update (Manager.store_row ag (Manager.prune (in_now mo) (Manager.current default_budget b ag)) b) (pl_gov s).

Lemma policy_authorize_state eng mo s clk c :
  let g' := (Policy.authorize float_repr (process_env environ) eng None default_budget (in_now mo) clk c (pl_gov s)).2 in
  g' = pl_gov s ∨ g' = asked mo s (c_agent c).
Proof.
  unfold Policy.authorize. cbv zeta. rewrite run_bind.
  pose proof (policy_reads (process_env environ) eng None (in_now mo) c (pl_gov s)) as Hp.
  destruct (current_identity_policy _ _ _ _ _ _) as [[[d|]|e] g1]; simpl in Hp; subst g1; [by left| |by left].
  rewrite run_get. repeat match goal with |- context [if ?b then mret _ else _] => destruct b; [by left|] end.
  rewrite run_bind. unfold zoom. change (view (pl_gov s) : Manager.manager) with (g_bud (pl_gov s)).
  destruct (checked_cost (PFloat (c_cost c))) as [cost|e] eqn:Hc.
  - rewrite (Manager.can_afford_run _ _ _ _ _ _ Hc). right. destruct (Manager.afford _ _) as [[] why]; done.
  - left. unfold Manager.can_afford. rewrite run_bind, Hc. simpl. by destruct (pl_gov s).
Qed.

Lemma decision_run mo rq s o s' :
  authorize mo rq s = (o, s') →
  governed s' = governed s ∨ ∃ ag, signed_request mo rq s ag ∧ governed s' = with_gov (asked mo s ag) s.
Proof.
  unfold ControlPlane.authorize. rewrite run_bind.
  destruct (authenticate_agent mo rq s) as [[ag|e] s1] eqn:Ha; apply authenticate_agent_run in Ha as [Hg Ha];
    [|intros [= _ <-]; by left].
  specialize (Ha ag eq_refl). pose proof Hg as [= Hg1 Hg2 Hg3 Hg4].
  rewrite run_bind. unfold lift at 1. destruct (request_object _) as [m|e]; [|intros [= _ <-]; by left]. cbv zeta.
  rewrite run_bind. unfold lift at 1. destruct (py_float _ _) as [cost|e]; [|intros [= _ <-]; by left].
  rewrite run_bind. unfold lift at 1. destruct (obj_get "capability" _ _) as [| | | |c| |]; try (intros [= _ <-]; by left).
  rewrite run_bind. destruct (current_engine_run s1) as [(rules & _ & ->)|(e & ->)]; [|intros [= _ <-]; by left].
  rewrite run_bind. unfold catch, zoom. change (view s1 : gov) with (pl_gov s1).
  match goal with |- context [Policy.authorize float_repr _ ?en None default_budget _ ?k ?x (pl_gov s1)] =>
    pose proof (policy_authorize_state en mo s1 k x) as Hs end. cbv zeta in Hs. cbn [c_agent] in Hs.
  assert (asked mo s1 ag = asked mo s ag) as Has by (unfold asked; by rewrite Hg1).
  destruct (Policy.authorize _ _ _ _ _ _ _ _ (pl_gov s1)) as [d g']. cbn [snd] in Hs. rewrite Has in Hs.
  assert (governed (update g' s1) = governed s ∨ governed (update g' s1) = with_gov (asked mo s ag) s) as Hu.
  { destruct Hs as [->| ->]; [left; by destruct s1|right]. unfold governed, with_gov. simpl. by rewrite Hg2, Hg3, Hg4. }
  destruct d as [d|e]; intros [= _ <-]; (destruct Hu as [Hu|Hu]; [left; exact Hu|right; exists ag; split; [done|exact Hu]]).
Qed.

(** ** Routes *)

Lemma resolve_route_Ok mo ag m r :
  resolve_route mo ag m = Ok r →
  obj_get "src" JNull m = JStr (rt_src r) ∧ obj_get "dst" JNull m = JStr (rt_dst r) ∧
  effective_call_cost parse_float (obj_get "cost" (JFloat (fl 1)) m) (rt_capability r) environ = Ok (rt_cost r) ∧
  TrustedTargets.resolve_target ip_literal bracketed_ok (obj_get "target_id" JNull m) (rt_dst r) (rt_capability r) environ (Some ag) =
    Ok (rt_target r).
Proof.
  assert (∀ j n a, named_adapter j = Ok (n, a) → j = JStr n) as Hn.
  { intros [| | | |t| |] name a; simpl; try done. destruct (get_adapter _ _); simpl; [|done]. by intros [= -> _]. }
  unfold ControlPlane.resolve_route. rewrite outcome_bind_Ok. intros ([dst b] & Hd & Hr).
  apply outcome_bind_Ok in Hr as ([src a] & Hs & Hr). apply outcome_bind_Ok in Hr as (canonical & _ & Hr).
  cbv zeta in Hr. apply outcome_bind_Ok in Hr as (cost & Hc & Hr). apply outcome_bind_Ok in Hr as (target & Ht & [= <-]).
  split_and!; [by eapply Hn|by eapply Hn|exact Hc|exact Ht].
Qed.

(** What a routed call may cost: in production, the figure of the operator's
    schedule for its capability, whatever the agent sent; elsewhere the figure
    the agent sent, one by default; either way validated. *)
Definition governed_cost (m : list (string * json)) (r : routed) : Prop :=
  (∃ z, rt_cost r = FFin z ∧ 0 ≤ z) ∧
  if in_production then
    ∃ schedule v,
      object_of (environ "AGENTBRIDGE_COST_SCHEDULE_JSON") "AGENTBRIDGE_COST_SCHEDULE_JSON" = Ok schedule ∧
      dict_get (rt_capability r) schedule = Some v ∧ validate_cost (number_of parse_float v) = Ok (rt_cost r)
  else validate_cost (number_of parse_float (obj_get "cost" (JFloat (fl 1)) m)) = Ok (rt_cost r).

(** Where a routed call may go: nowhere, or to the operator's own record of the
    name the agent gave, and never in production. *)
Definition operator_target (m : list (string * json)) (r : routed) : Prop :=
  match rt_target r with
  | None => obj_get "target_id" JNull m = JNull
  | Some inv => in_production = false ∧ ∃ t record, obj_get "target_id" JNull m = JStr t ∧
      operator_record environ t (rt_dst r) (rt_capability r) record ∧ ∀ k v, (k, v) ∈ inv → member_of record k = v
  end.

Lemma resolve_route_governed mo ag m r : resolve_route mo ag m = Ok r → operator_target m r ∧ governed_cost m r.
Proof.
  intros (_ & _ & Hcost & Htarget)%resolve_route_Ok. split.
  - unfold operator_target. by apply (target_operator_owned ip_literal bracketed_ok) in Htarget.
  - split; [by eapply effective_cost_Ok|]. by apply effective_cost_source in Hcost.
Qed.

(** ** Every request *)

Lemma effect_governed mo o s s1 s' : governed s1 = governed s → effect mo o s1 s' → effect mo o s s'.
Proof. intros [= Hg Hr Hs Hh]. unfold effect, with_gov. by rewrite Hg, Hr, Hs, Hh. Qed.

Lemma handler_confined mo rq ep s :
  let s' := (handler mo rq ep s).2 in
  governed s' = governed s ∨
  (∃ o role, ep = Operate o ∧ operator_role mo rq s role ∧ may role (permission o) ∧ effect mo o s s') ∨
  (∃ ag m r op rules, ep = GovernedRoute ∧ routed_request mo rq s ag m r op rules ∧
     governed s' = with_gov (gateway_run mo rq s ag m r op rules).2 s) ∨
  (∃ ag, ep = Authorize ∧ signed_request mo rq s ag ∧ governed s' = with_gov (asked mo s ag) s).
Proof.
  destruct ep as [ | | |b|b|o| | ]; cbn [ControlPlane.handler]; try by left.
  - cbv zeta. rewrite run_bind. destruct (operator_guard mo rq (permission o) s) as [[role|e] s1] eqn:Hg.
    + apply operator_guard_run in Hg as [Hg Hr]. destruct (Hr role eq_refl) as [Hrole Hmay].
      destruct (operator_effect mo o s1) as [He|He]; [left; by rewrite He|right; left].
      exists o, role. split_and!; try done. by eapply effect_governed.
    + apply operator_guard_run in Hg as [Hg _]. by left.
  - cbv zeta. destruct (governed_route mo rq s) as [a s'] eqn:Hr. apply governed_route_run in Hr as [[Hg _]|Hr]; [by left|].
    destruct Hr as (s1 & ag & m & r & op & rules & [= _ Hg2 Hg3 Hg4] & Hroute & _ & ->). right; right; left.
    exists ag, m, r, op, rules. split; [done|]. split; [done|]. unfold governed, with_gov. simpl. by rewrite Hg2, Hg3, Hg4.
  - cbv zeta. destruct (authorize mo rq s) as [a s'] eqn:Ha. apply decision_run in Ha as [Hg|(ag & Hs & Hg)]; [by left|]. right; right; right. by exists ag.
Qed.

(** C8: What any request can do to the governance state.  Whatever its headers and
    body, a request changes nothing; or it passed the authority mode, the drain
    and the rate limit, and then it is an operator endpoint's own change, made
    with the admin key or a token of the configured provider under a role that
    has the endpoint's permission; or it is exactly the gateway's run of a route
    that a registered agent signed, with a fresh nonce, over this very body, to
    the operator's own record of the target the agent named (in production, to
    none) and at the operator's scheduled cost of the capability in production,
    at the validated figure the agent asked for elsewhere; or it drops the
    expired calls from the budget of an agent that signed for a decision. *)
Theorem control_request_confined mo rq ep s :
  let s' := (serve mo rq ep s).2 in
  governed s' = governed s ∨
  (require_legacy_authority (process_env environ) = Ok tt ∧ pl_ready s = true ∧ (limit_client mo rq s).1 = true) ∧
  ((∃ o role, ep = Operate o ∧ operator_role mo rq s role ∧ may role (permission o) ∧ effect mo o s s') ∨
   (∃ ag m r op rules, ep = GovernedRoute ∧ routed_request mo rq s ag m r op rules ∧
      operator_target m r ∧ governed_cost m r ∧
      governed s' = with_gov (gateway_run mo rq s ag m r op rules).2 s) ∨
   (∃ ag, ep = Authorize ∧ signed_request mo rq s ag ∧ governed s' = with_gov (asked mo s ag) s)).
Proof.
  unfold ControlPlane.serve. destruct (require_legacy_authority _) as [[]|e]; [|by left].
  destruct (negb (pl_ready s) && under_control ep) eqn:Hready; [by left|]. cbv zeta.
  destruct (under_control ep) eqn:Hc.
  - destruct (pl_ready s) eqn:Hup; [|done]. unfold limit_client.
    destruct (RateLimit.allow _ _ _) as [ok l]. destruct ok; [|by left].
    match goal with |- context [handler mo rq ep ?x] => pose proof (handler_confined mo rq ep x) as Hh; destruct (handler mo rq ep x) as [o s'] end.
    destruct Hh as [Hh|[Hh|[(ag & m & r & op & rules & He & Hroute & Hrun)|Hh]]]; [by left| | |]; right; (split; [done|]);
      [by left| |by right; right].
    right. left. exists ag, m, r, op, rules. pose proof Hroute as (_ & _ & _ & Hres & _).
    apply resolve_route_governed in Hres as [Ht Hcost]. by split_and!.
  - left. destruct ep; try done; by destruct s.
Qed.

(** ** Routed calls *)

(** An exception's answer carries no decision. *)
Lemma finish_decided o l : finish o = (200, JObj l) → dict_mem "decision" l = true → o = Ok (200, JObj l).
Proof. destruct o as [a|[]]; simpl; try done; [by intros ->|]. by intros [= -> <-]. Qed.

(** The route behind an answer that carries a decision. *)
Lemma decided_route mo rq s l s' :
  serve mo rq GovernedRoute s = ((200, JObj l), s') → dict_mem "decision" l = true →
  ∃ ag m r op rules result,
    routed_request mo rq s ag m r op rules ∧ gateway_run mo rq s ag m r op rules = (Ok (JObj result), pl_gov s') ∧
    l = merged result.
Proof.
  unfold ControlPlane.serve. destruct (require_legacy_authority _) as [[]|e]; [|done].
  cbn [under_control]. destruct (negb (pl_ready s) && true); [done|].
  unfold limit_client. destruct (RateLimit.allow _ _ _) as [ok limiter]. destruct ok; [|done].
  cbn [ControlPlane.handler].
  match goal with |- context [governed_route mo rq ?x] => set (s0 := x); destruct (governed_route mo rq s0) as [o s2] eqn:Hr end.
  intros [= Hf ->] Hd. apply (finish_decided _ _) in Hf; [|done]. subst o.
  apply governed_route_run in Hr as [[_ Hno]|Hr]; [by specialize (Hno _ eq_refl)|].
  destruct Hr as (s1 & ag & m & r & op & rules & _ & Hroute & Ho & ->).
  exists ag, m, r, op, rules. change (routed_request mo rq s ag m r op rules) in Hroute.
  change (gateway_run mo rq s0 ag m r op rules) with (gateway_run mo rq s ag m r op rules) in *.
  destruct (gateway_run mo rq s ag m r op rules) as [[[| | | | | |result]|e] g']; cbn [fst snd route_reply] in *; try done.
  2: by destruct e. injection Ho as ->. by exists result.
Qed.

(** C9: A route that is answered with a decision was governed.  If a request to
    route a call is answered with 200 and a decision, then the request was
    signed, its target is the operator's record of the name the agent gave (in
    production there is none), and its cost is the operator's scheduled figure
    for the capability in production and the agent's own validated figure
    elsewhere.  The gateway admitted the call at that cost, holding a
    reservation of it; the destination was invoked with the admitted wire
    message and returned the result that the answer carries; settlement
    succeeded, charged the agent exactly that cost, and recorded the
    operation, if the request names one, as [succeeded]. *)
Theorem routed_call_governed mo rq s l s' :
  serve mo rq GovernedRoute s = ((200, JObj l), s') → dict_mem "decision" l = true →
  ∃ ag m r op rules result a g1,
    routed_request mo rq s ag m r op rules ∧ operator_target m r ∧ governed_cost m r ∧ in_cancel mo = NotCanceled ∧
    admit_call float_repr owner_json (process_env environ) (engine_of s rules) None default_budget default_registry true
      (route_request rq ag m r op) (in_drawn mo).1.1 (pl_gov s) = (Ok a, g1) ∧
    agent a = ag ∧ cost a = rt_cost r ∧
    dict_get (token a) (held default_budget (g_bud g1) ag) = Some (rt_cost r) ∧
    in_invoke mo (rt_dst r) (rt_target r) (wire a) = Ok (JObj result) ∧ l = merged result ∧
    settle default_budget true a (in_drawn mo).1.2 g1 = (Ok tt, pl_gov s') ∧
    spent (Manager.current default_budget (g_bud (pl_gov s')) ag) =
      fadd (spent (Manager.current default_budget (g_bud g1) ag)) (rt_cost r) ∧
    ∀ o, op = Some o → state_of g1 (ag, o) = Some unknown ∧ state_of (pl_gov s') (ag, o) = Some succeeded.
Proof.
  intros Hserve Hd.
  destruct (decided_route mo rq s l s' Hserve Hd) as (ag & m & r & op & rules & result & Hroute & Hrun & Hl).
  pose proof Hroute as (_ & _ & _ & Hres & _). apply resolve_route_governed in Hres as [Htarget Hcost].
  unfold gateway_run in Hrun. destruct (in_drawn mo) as [[x0 x] x'].
  apply route_call_settles in Hrun as (Hcn & a & g1 & Ha & Hag & Hc & Hheld & Hinv & Hset & Hsp & Hop).
  assert (cost a = rt_cost r) as Hca.
  { destruct Hcost as [(z & Hz & Hpos) _]. change (checked_cost (PFloat (rt_cost r)) = Ok (cost a)) in Hc. rewrite Hz in *.
    rewrite checked_cost_float in Hc by done. by injection Hc as <-. }
  exists ag, m, r, op, rules, result, a, g1. simpl in Hag. rewrite Hag, Hca in *. by split_and!.
Qed.

(** ** Attempts *)

Definition keeps_limiter {A} (m : M (plane key) A) : Prop := ∀ s, pl_limiter (m s).2 = pl_limiter s.

Lemma keeps_bind {A B} (f : A → M (plane key) B) (m : M (plane key) A) :
  keeps_limiter m → (∀ a, keeps_limiter (f a)) → keeps_limiter (m ≫= f).
Proof.
  intros Hm Hf s. rewrite run_bind. specialize (Hm s). destruct (m s) as [[a|e] s1]; simpl in *; [|done].
  by rewrite Hf.
Qed.

Lemma keeps_reads {A} (m : M (plane key) A) : reads m → keeps_limiter m.
Proof. intros Hm s. by rewrite Hm. Qed.

Lemma keeps_zoom {T A} `{Lens (plane key) T} (m : M T A) :
  (∀ (x : T) s, pl_limiter (update x s) = pl_limiter s) → keeps_limiter (zoom m).
Proof. intros Hu s. unfold zoom. destruct (m (view s)). apply Hu. Qed.

Lemma keeps_catch {A} (m : M (plane key) A) h :
  keeps_limiter m → (∀ e k, h e = Some k → keeps_limiter k) → keeps_limiter (catch m h).
Proof.
  intros Hm Hh s. unfold catch. specialize (Hm s). destruct (m s) as [[a|e] s1]; simpl in *; [done|].
  destruct (h e) as [k|] eqn:He; simpl; [|done]. by rewrite (Hh _ _ He).
Qed.

#[local] Hint Resolve keeps_bind keeps_reads keeps_zoom keeps_catch : limiter.
#[local] Hint Resolve reads_mret reads_get reads_raise reads_lift reads_ensure reads_gets : limiter.

#[local] Ltac keep := repeat (first [apply keeps_bind; [|intros ?] | apply keeps_zoom; [done] | case_match | solve [eauto with limiter]]).

Lemma resolve_role_keeps mo rq : keeps_limiter (resolve_role mo rq).
Proof.
  unfold ControlPlane.resolve_role. keep. unfold ControlPlane.bearer_role. apply keeps_catch; [keep|].
  intros e k. destruct e; try done. intros [= <-]. apply keeps_reads, reads_raise.
Qed.

Lemma operator_handler_keeps mo o : keeps_limiter (operator_handler mo o).
Proof.
  destruct o; cbn [ControlPlane.operator_handler];
    unfold register_identity, revoke_identity, list_identities, set_budget, get_budget, mark_sensitive, list_pending,
      decide_request, get_audit, export_audit, create_audit_checkpoint, set_audit_retention, truncate_before, add_policy_rule,
      list_policy_rules, set_registry; keep.
Qed.

Lemma authenticate_agent_keeps mo rq : keeps_limiter (authenticate_agent mo rq).
Proof. done. Qed.

Lemma current_engine_keeps : keeps_limiter current_engine.
Proof. unfold current_engine. keep. Qed.

Lemma handler_keeps mo rq ep : keeps_limiter (handler mo rq ep).
Proof.
  destruct ep; cbn [ControlPlane.handler]; try (by apply keeps_reads; auto with agentbridge).
  - apply keeps_bind; [|intros _; apply operator_handler_keeps]. unfold ControlPlane.operator_guard.
    apply keeps_bind; [apply resolve_role_keeps|intros role]. keep.
  - unfold ControlPlane.governed_route. apply keeps_bind; [apply authenticate_agent_keeps|intros ag]. keep.
    intros s. unfold replied. assert (keeps_limiter (run_route mo (route_request rq ag a a2 a4) (rt_target a2))) as Hk.
    { unfold ControlPlane.run_route. apply keeps_bind; [apply current_engine_keeps|intros eng]. keep. }
    specialize (Hk s). by destruct (run_route _ _ _ s).
  - unfold ControlPlane.authorize. apply keeps_bind; [apply authenticate_agent_keeps|intros ag]. keep.
    apply keeps_catch; [keep|]. intros e k [= <-]. apply keeps_reads, reads_raise.
Qed.

(** The requests of all clients, in the order they arrive. *)
Fixpoint serve_all (l : list (instant * http_request * endpoint)) s : list answer * plane key :=
  match l with
  | [] => ([], s)
  | (mo, rq, ep) :: l =>
      let '(a, s) := serve mo rq ep s in let '(rest, s) := serve_all l s in (a :: rest, s)
  end.

Definition client_of rq : string := default "unknown" (rq_client rq).

(** A request of [client] that got past the limiter and the drain. *)
Definition past (client : string) (x : instant * http_request * endpoint) (a : answer) : bool :=
  bool_decide (client_of x.1.2 = client) && negb (a.1 =? 429) && negb (a.1 =? 503).

Definition passed (client : string) (l : list (instant * http_request * endpoint)) (l' : list answer) : Z :=
  Z.of_nat (length (filter (fun p => past client p.1 p.2 = true) (zip l l'))).

Lemma passed_cons client x l a l' :
  passed client (x :: l) (a :: l') = (if past client x a then 1 else 0) + passed client l l'.
Proof. unfold passed. simpl. rewrite filter_cons. simpl. destruct (past client x a); simpl; lia. Qed.

Lemma allow_config k now l :
  RateLimit.max (RateLimit.allow k now l).2 = RateLimit.max l ∧ RateLimit.window (RateLimit.allow k now l).2 = RateLimit.window l.
Proof. unfold RateLimit.allow. destruct (default _ _) as [x y]. by destruct (fgeb _ _). Qed.

(** One request against the limiter's window of [client]. *)
Lemma serve_limited mo rq ep s client start n :
  under_control ep = true → RateLimit.hits (pl_limiter s) !! client = Some (start, n) →
  (client_of rq = client → fgeb (fsub (in_now mo) start) (RateLimit.window (pl_limiter s)) = false) →
  let '(a, s') := serve mo rq ep s in
  RateLimit.max (pl_limiter s') = RateLimit.max (pl_limiter s) ∧ RateLimit.window (pl_limiter s') = RateLimit.window (pl_limiter s) ∧
  (past client (mo, rq, ep) a = false ∧ (∃ n', n ≤ n' ∧ RateLimit.hits (pl_limiter s') !! client = Some (start, n')) ∨
   n + 1 ≤ RateLimit.max (pl_limiter s) ∧ RateLimit.hits (pl_limiter s') !! client = Some (start, n + 1)).
Proof.
  intros Hc Hn Hw. unfold ControlPlane.serve. unfold past. simpl.
  destruct (require_legacy_authority _) as [[]|e].
  2: { split_and!; [done|done|]. left. split; [by rewrite andb_false_r|]. by exists n. }
  rewrite Hc, andb_true_r. destruct (negb (pl_ready s)).
  { split_and!; [done|done|]. left. split; [by rewrite andb_false_r|]. by exists n. }
  unfold limit_client. destruct (RateLimit.allow (default "unknown" (rq_client rq)) (in_now mo) (pl_limiter s)) as [ok l] eqn:Ha.
  assert (RateLimit.max l = RateLimit.max (pl_limiter s) ∧ RateLimit.window l = RateLimit.window (pl_limiter s)) as [Hmax Hwin].
  { pose proof (allow_config (default "unknown" (rq_client rq)) (in_now mo) (pl_limiter s)) as Hcfg. by rewrite Ha in Hcfg. }
  assert ((client_of rq ≠ client ∧ RateLimit.hits l !! client = Some (start, n)) ∨
          (client_of rq = client ∧ RateLimit.hits l !! client = Some (start, n + 1) ∧ ok = (n + 1 <=? RateLimit.max (pl_limiter s)))) as Hl.
  { destruct (decide (client_of rq = client)) as [Heq|Hne].
    - right. unfold client_of in Heq. rewrite Heq in Ha. unfold RateLimit.allow in Ha. rewrite Hn in Ha. simpl in Ha.
      rewrite (Hw Heq) in Ha. injection Ha as <- <-. split; [done|]. split; [apply lookup_insert_eq|done].
    - left. split; [done|]. rewrite <- Hn. pose proof (RateLimit.keys_independent _ client (in_now mo) (pl_limiter s) Hne) as Hk.
      unfold client_of in Hk. by rewrite Ha in Hk. }
  destruct ok.
  - match goal with |- context [handler mo rq ep ?x] => pose proof (handler_keeps mo rq ep x) as Hk; destruct (handler mo rq ep x) as [o s'] end.
    simpl in Hk. rewrite Hk. split; [done|]. split; [done|].
    destruct Hl as [[Hne Hl]|(Heq & Hl & Hok)].
    + left. split; [by rewrite bool_decide_eq_false_2|]. by exists n.
    + right. split; [|done]. symmetry in Hok. by apply Z.leb_le in Hok.
  - simpl. split; [done|]. split; [done|]. left. split; [by rewrite andb_false_r|].
    destruct Hl as [[_ Hl]|(_ & Hl & _)]; [by exists n|]. exists (n + 1). split; [lia|done].
Qed.

(** C33: Attempts are bounded.  Whatever requests of whatever clients interleave,
    of the requests a client makes under [/control] within one window of the
    limiter, those that are not refused with 429 or 503 (every one that reaches
    a handler, so every guess of the admin key) are at most the limit, less those
    already counted in the window. *)
Theorem attempts_bounded client start n l s :
  RateLimit.hits (pl_limiter s) !! client = Some (start, n) → 0 ≤ n →
  Forall (fun x => under_control x.2 = true ∧
            (client_of x.1.2 = client → fgeb (fsub (in_now x.1.1) start) (RateLimit.window (pl_limiter s)) = false)) l →
  passed client l (serve_all l s).1 ≤ Z.max 0 (RateLimit.max (pl_limiter s) - n).
Proof.
  revert s n. induction l as [|[[mo rq] ep] l IH]; intros s n Hn Hpos Hl; [unfold passed; simpl; lia|].
  apply Forall_cons in Hl as [[Hc Hw] Hl]. pose proof (serve_limited mo rq ep s client start n Hc Hn Hw) as Hs. simpl.
  destruct (serve mo rq ep s) as [a s1]. destruct Hs as (Hmax & Hwin & Hs).
  assert (∀ n', n ≤ n' → RateLimit.hits (pl_limiter s1) !! client = Some (start, n') →
            passed client l (serve_all l s1).1 ≤ Z.max 0 (RateLimit.max (pl_limiter s) - n')) as Hrest.
  { intros n' Hle Hn'. rewrite <- Hmax. apply IH; [done|lia|]. by rewrite Hwin. }
  destruct (serve_all l s1) as [rest s2]. cbn [fst]. rewrite passed_cons.
  destruct Hs as [[-> (n' & Hle & Hn')]|[Hle Hn']].
  - specialize (Hrest n' Hle Hn'). cbn [fst] in Hrest. lia.
  - specialize (Hrest (n + 1) ltac:(lia) Hn'). cbn [fst] in Hrest. destruct (past _ _ _); lia.
Qed.
End spec.
