(* ===== verification/ControlPlaneExample.v ===== *)
(** * Requests to the control plane, by evaluation

    A signed request that routes a call, and a client that guesses the admin
    key: they instantiate the theorems of [ControlPlaneSpec]. *)

From stdpp Require Import base list gmap sets strings.
From Stdlib Require Import ZArith Lia.
From S2P Require Import Prelude PyFloat Text Url TrustedTargets Controls Json Identity Authority Budget AuditLog Approvals PolicyRules DurablePolicy OperationLedger Quotas Policy Protocols Gateway GatewaySpec GatewayRuns TenantKernel Oidc ControlPlane ControlPlaneSpec.

#[local] Open Scope Z_scope.

Definition cx_environ (_ : string) : option string := None.

Definition cx_limiter : RateLimit.limiter := RateLimit.mkLimiter 1 (fl 60) {["10.0.0.9" := (FFin 1000, 1)]}.

Definition cx_plane : plane unit :=
  mkPlane demo_gov ∅ ∅ [] ∅ false empty_jwks cx_limiter true.

Definition cx_body : string :=
  json_dumps (JObj [("src", JStr "mcp"); ("dst", JStr "a2a"); ("wire", demo_wire); ("cost", JFloat (FFin 7))]).

Definition cx_headers (name : string) : option string :=
  dict_get name [("x-agent-id", "al"); ("x-nonce", "n1"); ("x-signature", ed_sign "k" (canonical_payload "al" "n1" cx_body))].

Definition cx_request : http_request := mkHttp cx_headers cx_body (Some "10.0.0.1").

Definition cx_instant : instant :=
  mkInstant (FFin 1001) (FFin 0, FFin 0) (fun _ => None) "priv" "t1" (mkIds "c" "x" "m") (fun _ => mkDatetime 0 12) (Ok tt) ([], Ok tt)
    (fun _ _ w => Ok (JObj [("sent", w)])) NotCanceled (demo_drawn "tok", demo_drawn "tok", demo_drawn "tok").

Notation cx_serve := (serve (fun _ => None) (fun _ => None) (fun _ => None) (fun _ _ => None) None "secret" (fun _ => "")
  (fun _ _ _ _ => "") (fun _ => None) (fun _ => None) (fun _ => false) (fun _ => false) cx_environ "1").

Notation cx_run := (cx_serve cx_instant cx_request GovernedRoute cx_plane).

Definition members (a : answer) : list (string * json) := match a.2 with JObj l => l | _ => [] end.

Lemma cx_answer : cx_run.1.1 = 200 ∧ match cx_run.1.2 with JObj _ => true | _ => false end = true ∧ dict_mem "decision" (members cx_run.1) = true.
Proof. split_and!; vm_compute; reflexivity. Qed.

Lemma cx_shape : cx_run = ((200, JObj (members cx_run.1)), cx_run.2).
Proof.
  destruct cx_answer as (Hst & Hj & _). destruct cx_run as [[st j] s']. simpl in *. subst st. by destruct j.
Qed.

Lemma routed_call_governed_witness :
  ∃ r a g1 result,
    in_invoke cx_instant (rt_dst r) (rt_target r) (wire a) = Ok (JObj result) ∧ members cx_run.1 = merged result ∧
    spent (Manager.current default_budget (g_bud (pl_gov cx_run.2)) "al") =
      fadd (spent (Manager.current default_budget (g_bud g1) "al")) (rt_cost r) ∧
    rt_cost r = FFin 7.
Proof.
  destruct cx_answer as (_ & _ & Hd).
  pose proof (routed_call_governed (fun _ => None) (fun _ => None) (fun _ => None) (fun _ _ => None) None "secret" (fun _ => "")
    (fun _ _ _ _ => "") (fun _ => None) (fun _ => None) (fun _ => false) (fun _ => false) cx_environ "1" cx_instant cx_request cx_plane
    (members cx_run.1) cx_run.2 cx_shape Hd)
    as (ag & m & r & op & rules & result & a & g1 & Hr & _ & [_ Hc] & _ & _ & _ & _ & _ & Hi & Hl & _ & Hs & _).
  pose proof Hr as ((Hag & _) & Hm & _). change (ag = "al") in Hag. subst ag. exists r, a, g1, result.
  split_and!; [exact Hi|exact Hl|exact Hs|].
  assert (m = [("src", JStr "mcp"); ("dst", JStr "a2a"); ("wire", demo_wire); ("cost", JFloat (FFin 7))]) as ->
    by (revert Hm; vm_compute; congruence).
  revert Hc. vm_compute. congruence.
Defined.

(** Two requests of a client that has used its one attempt of the window, with
    one of another client between them. *)
Definition cx_guess (client : string) (t : Z) : instant * http_request * endpoint :=
  (mkInstant (FFin t) (FFin 0, FFin 0) (fun _ => None) "priv" "t1" (mkIds "c" "x" "m") (fun _ => mkDatetime 0 12) (Ok tt) ([], Ok tt)
     (fun _ _ w => Ok w) NotCanceled (demo_drawn "tok", demo_drawn "tok", demo_drawn "tok"),
   mkHttp (fun n => if bool_decide (n = "x-admin-key") then Some "guess" else None) "" (Some client), Operate GetAudit).

Definition cx_guesses : list (instant * http_request * endpoint) :=
  [cx_guess "10.0.0.9" 1001; cx_guess "10.0.0.2" 1002; cx_guess "10.0.0.9" 1003].

Notation cx_all := (serve_all (fun _ => None) (fun _ => None) (fun _ => None) (fun _ _ => None) None "secret" (fun _ => "")
  (fun _ _ _ _ => "") (fun _ => None) (fun _ => None) (fun _ => false) (fun _ => false) cx_environ "1" cx_guesses cx_plane).

Lemma cx_in_window :
  Forall (fun x => under_control x.2 = true ∧
            (client_of x.1.2 = "10.0.0.9" → fgeb (fsub (in_now x.1.1) (FFin 1000)) (RateLimit.window (pl_limiter cx_plane)) = false)) cx_guesses.
Proof. repeat constructor; intros _; vm_compute; reflexivity. Qed.

Lemma attempts_bounded_witness : passed "10.0.0.9" cx_guesses cx_all.1 ≤ 0.
Proof.
  apply (attempts_bounded (fun _ => None) (fun _ => None) (fun _ => None) (fun _ _ => None) None "secret" (fun _ => "")
    (fun _ _ _ _ => "") (fun _ => None) (fun _ => None) (fun _ => false) (fun _ => false) cx_environ "1" "10.0.0.9" (FFin 1000) 1
    cx_guesses cx_plane); [vm_compute; reflexivity|lia|exact cx_in_window].
Defined.
